(* ===== verification/_CoqProject ===== *)
-Q . S2P
Prelude.v
Domain.v
MainchainEpoch.v
WeightedRandom.v
Ariadne.v
AriadneV2.v
SessionEnv.v
CommitteePallet.v
CommitteeSession.v
CommitteeMigrations.v
PlutusData.v
AuthoritySelection.v
SidechainPallet.v
BlockProductionLog.v
CandidateKeys.v
ContractDatums.v
TextFormats.v
GovernedMap.v
DbSync.v
GovernedMapSource.v
Bridge.v
McHash.v
BlockSource.v
ProducerPallets.v
CandidateSource.v
StakeSource.v
DolosBlocks.v
DolosSources.v
DolosCandidates.v
AuraConsensus.v
NodeInherents.v
OffchainTx.v
OffchainGovernance.v
OffchainExample.v
OffchainMap.v
OffchainCandidates.v
OffchainVersions.v
OffchainReserve.v
CliIO.v
CliJson.v
CliConfig.v
CliStore.v
CliKeys.v
CliPrepare.v
CliChain.v
CliRegister.v
CliCommand.v
CliFrame.v
CliExample.v
CliTyped.v
CliPrepared.v
CliRegistration.v
MockSources.v
CliSignatures.v
CommitteeQuery.v
DemoRuntime.v
