(* ===== verification/Prelude.v ===== *)
(** * Partner Chains Toolkit: a verified model

    The Partner Chains toolkit builds Substrate chains whose block producers and
    parts of whose state are governed from Cardano.  A node observes Cardano
    through db-sync or Dolos (the data sources), turns what it sees into inherent
    data when a block is authored or verified (the inherent data providers in the
    [primitives] crates), and the runtime's pallets check the inherents and
    update their storage.  Each block refers to the Cardano block it was made
    with, in a digest that the extended Aura consensus checks.  What the nodes
    read was written by the off-chain code as Plutus data, which wizards on the
    command line drive.  Nodes answer queries on their committees and candidates.
    This development follows that path.

    ** The components and their files

    Sources are relative to [src/toolkit] unless they start with [demo] or
    [substrate-extensions].

    - [Prelude] (this file): results, panics and machine integers of Rust, [Ord]
      and sorting, the iteration order of [BTreeMap], generic list lemmas.
    - [Domain]: shared types of [sidechain/domain/src/lib.rs].
    - [MainchainEpoch]: [sidechain/domain/src/mainchain_epoch.rs], conversions
      between Cardano timestamps, slots and epochs.
    - [WeightedRandom], [Ariadne], [AriadneV2]:
      [committee-selection/selection/src], the selection algorithms.
    - [SessionEnv]: the parts of [frame_system] and [pallet_session] the
      committee pallet calls, as a class of operations with laws and an
      executable instance.
    - [CommitteePallet], [CommitteeSession], [CommitteeMigrations]:
      [committee-selection/pallet/src], storage, inherent and calls; the session
      manager; the storage migrations.
    - [PlutusData]: [utils/plutus/src], Plutus data and the CBOR encoder.
    - [AuthoritySelection]: [committee-selection/authority-selection-inherents],
      validation of candidates, selection inputs and their provider.
    - [SidechainPallet]: [sidechain/pallet/src], epochs and their handlers.
    - [BlockProductionLog]: [block-production-log] and [block-participation],
      pallets and provider, composed as in [demo/node/src/inherent_data.rs].
    - [CandidateKeys], [ContractDatums]: the keys of candidates with their SCALE
      encoding, and [smart-contracts/plutus-data/src], every datum and redeemer.
    - [GovernedMap], [GovernedMapSource]: [governed-map], pallet and provider
      against the interface of the data source, and
      [data-sources/db-sync/src/governed_map], which implements it.
    - [DbSync]: what the db-sync queries share.
    - [Bridge]: [bridge], pallet and provider, and
      [data-sources/db-sync/src/bridge], data source and cache.
    - [TextFormats]: the text formats of [sidechain/domain/src] and the
      conversions derived by [utils/byte-string-derivation].
    - [McHash]: [sidechain/sidechain-mc-hash], main chain references against the
      interface of their data source; [BlockSource]:
      [data-sources/db-sync/src/block], which implements it.
    - [CandidateSource], [StakeSource]: [data-sources/db-sync/src/candidates] and
      [stake_distribution], plain and cached.
    - [DolosBlocks], [DolosSources], [DolosCandidates]: [data-sources/dolos/src],
      the same interfaces over a Dolos node.
    - [MockSources]: [data-sources/mock/src], sources that replace Cardano, and the
      choice among the kinds of sources in [demo/node/src/data_sources.rs].
    - [ProducerPallets]: [block-producer-fees], [block-producer-metadata] and
      [address-associations].
    - [AuraConsensus]: [substrate-extensions/aura], proposer and import queue;
      [NodeInherents]: [demo/node/src/inherent_data.rs], which composes it with
      the providers of all components.
    - [OffchainTx], [OffchainGovernance]: [smart-contracts/offchain/src], building
      and submitting transactions ([csl.rs], [await_tx.rs], [plutus_script.rs]); the
      scripts of a chain, its governance policy and submission by one or several
      authorities ([scripts_data.rs], [governance.rs], [multisig.rs]).
      [OffchainExample] is a small Cardano on which the commands run.
    - [OffchainMap], [OffchainCandidates], [OffchainVersions], [OffchainReserve]: the
      commands of the same crate, on the Governed Map ([governed_map/mod.rs]); on the
      candidates ([d_param/mod.rs], [permissioned_candidates.rs], [register.rs]); on
      the governance and the scripts of the version oracle ([init_governance],
      [update_governance], [versioning_system.rs]), with signing and assembling
      ([sign_tx.rs], [assemble_and_submit_tx.rs] and
      [smart-contracts/commands/src/assemble_tx.rs]); on the reserve and the bridge
      ([reserve], [bridge]).
    - [CliIO], [CliJson], [CliConfig], [CliKeys], [CliPrepare], [CliChain],
      [CliRegister], [CliCommand]: the wizards of [partner-chains-cli/src], from the
      machine they run on and the values of their configuration files to the commands
      that set up a chain, register a candidate and start a node.  [CliStore],
      [CliFrame], [CliTyped], [CliPrepared] and [CliRegistration] hold their theorems,
      [CliExample] a small machine on which they run.
    - [CliSignatures]: the commands of [cli/commands/src] that sign for the extrinsics
      of [ProducerPallets].
    - [CommitteeQuery]: [committee-selection/query], [committee-selection/rpc] and
      [sidechain/rpc], the queries that a node answers.
    - [DemoRuntime]: [demo/runtime/src], the pallets of the demo chain run block after
      block, the runtime interfaces that the queries use, and
      [test_helper_pallet.rs].

    ** Conventions

    A pallet's storage is a [Record]; a hook or dispatchable is a function on it,
    and a dispatchable that returns an error leaves the storage unchanged, as
    FRAME rolls it back.  [Result] is [result], a panic is [Panic] of [outcome].
    Integers are [Z] with the wrap-around of the release profile written out
    ([wadd], [wmul], ...), [usize] has 32 bits in the runtime.  Bytes are lists
    of [Z].  Maps are [gmap]; where the code iterates over a [BTreeMap] the order
    of the keys is written out, where it iterates over a [HashMap] the order is a
    parameter.  Storage that the runtime API of a parent block reads is passed as
    that block's state.

    Code outside the repository is a class of operations and, where a theorem
    relies on it, a class of laws that states its documented behaviour: the
    random generator ([Rng], [RngLaws]), FRAME ([SessionOps], [SessionLaws]),
    [minicbor] and [num_bigint] ([CborWriter]), signatures ([CandidateVerifier]),
    SCALE ([Scale], [ScaleLaws]), hexadecimal text ([Hex], [HexLaws]), caches
    ([Lru], [LruLaws]), a Dolos node ([MiniBFBlocks], [MiniBF], ...), the client
    and the Aura functions of Substrate ([AuraClient]), the Cardano serialization
    library ([Csl], [CslLaws]), its encoding of transactions ([TxCodec],
    [TxCodecLaws]), the compiled scripts ([Scripts], [ScriptsLaws]) and the node that
    the off-chain code talks to ([Ogmios], [OgmiosLaws], [OgmiosGenesis], [NodeTyped]).
    [OgmiosLaws] describes a node that answers from one ledger, in which a transaction
    that it accepts is applied at once and nobody else submits.
    For the command line these are the terminal, the files and the other programs
    ([Machine], [MachineLaws], [QuietPrograms]), the shell and [clap], which turn a line
    of plain words into options ([CommandLine], [CommandLineLaws]), [serde_json]
    ([SerdeJson]), keys and
    signatures ([CslKeys], [SigningKeys], [SignatureLaws], [CrossChainKeys], [NodeKeys],
    [PeerIds]) and the runtime that the tool is built for ([PartnerChainRuntime]); for
    the queries the client of a node ([Client], [ClientErrors]), and for the demo chain
    the queue of sessions and the authorities of Aura ([SessionQueue],
    [SessionQueueLaws]).  Each has an instance that evaluates, and the witnesses of the
    theorems run the code on it.

    Calls of a data source that keeps a cache, and off-chain commands, pass a state
    ([DS]); a wizard is a function on a [World] of files, environment, Cardano and past
    events ([IO]), that returns, ends the process or panics.  Paths are compared as
    text, the asynchronous runtime of a wizard is assumed to start, and JSON objects
    have no duplicate keys.  Postgres runs the queries of the data sources; the order
    it chooses among rows that compare equal is the parameter [row_order].

    ** What is proved

    - Committee rotation: along every run of blocks, whatever transactions do to the
      accounts, the accounts provided for are those of the sitting committee, and a
      block panics exactly if it retires an account that is provided for by nothing
      else and still consumed; an inherent that is created passes the check and an
      inherent that passes it is the right one, one planned committee takes one
      rotation and two sessions.
    - Selection: size of the committee, guaranteed seats, independence of the
      order of candidates, exact odds of the weighted choice, exactly which
      registrations and permissioned candidates are eligible, determinism of the
      inputs across nodes, injectivity of what is signed.
    - Observed state: the Governed Map in storage is the map on Cardano at the
      block last observed; bridge transfers are handled exactly once and in order;
      the cached sources of both answer like the plain ones up to the latest stable
      block that their block source knows, and what they answer above it is stated;
      block participation data are exact and account for every block, with the
      exception stated there, whatever the release period is.
    - Blocks: what an author proposes the verifiers import, although each node has a
      client, sources and caches of its own, which need to agree only on what is
      stable; references never go back along the chain; sources answer with exactly
      the stable blocks, registrations and delegations of Cardano whatever their
      caches hold, also while Cardano is shorter than the security parameter, and
      the Dolos sources agree with those of db-sync under the conditions stated.
    - Off-chain commands: a command on the Governed Map acts as on a map, setting
      the D-parameter or the permissioned candidates sets what is then read, and
      registering replaces a candidate's own registrations and no other; setting up
      or changing the governance and storing a script install exactly that policy or
      script; a candidate with two registrations is stuck; the reserve and the circulating supply account for every token that a
      command moves, with the exception stated there.  If the transaction waits for
      signatures this holds once it is submitted with them, and the signatures that
      are written are those that assembling reads.
    - Producers: deposits for metadata, permanence of associations and the log of
      fees; what the signature commands print is accepted by the chain if the clock
      does not tick between their two readings.
    - The demo chain: with the pallets composed as in the runtime, and whatever the
      transactions do to accounts and session keys, blocks install the committee of
      each epoch and panic in the case above only; exactly which
      author the log records, which can be a wrong one after a rotation or if members
      of the committee have no keys; the totals of the test helper.
    - Queries: the search for the committee of an epoch ends and answers with the
      committee in office then, the status of registrations agrees with the selection
      of the runtime, and the status of the chain is right under the stated condition.
    - Wizards: the configuration is a store of typed fields that every session keeps
      well typed, and each wizard changes only its own; a prepared configuration is one
      that the other wizards read; registration in three steps ends in a registration
      that nodes accept, if the printed command lines consist of words that a shell
      does not interpret.
    - Encodings: round trips of datums, keys and CBOR, with the inputs on which
      they fail.
    - Time: conversions agree with each other and with the intervals of epochs; where
      epoch numbers leave the documented range is stated.

    ** Recursion

    All definitions are total; recursion is structural on lists, on data or on a
    number that the code counts.  Two functions of [PlutusData] take fuel: the
    chunks of a byte string, at most as many as it has bytes, and the reference
    decoder of CBOR, whose fuel bounds the nesting depth by the number of items;
    the round trip shows that both are enough.  The walk down the chain in
    [DolosBlocks] takes the number of the block it starts from, and its
    pagination the number of pages; theorems there show that both are enough.
    The wait for a transaction in [OffchainTx] counts the retries of its strategy.
    The binary search of [CommitteeQuery] takes 33 rounds, enough for the chains of
    fewer than 2^31 blocks on which it is shown to end.

    ** What is not modelled

    The arguments of commands other than the steps of registration as [clap] parses
    them, and their dispatch ([cli/node-commands], [smart-contracts/commands]), the transport of Ogmios, the
    JSON of RPC responses and the feature [legacy-slotapi-compat], generated weights,
    benchmarks and metrics, the wiring of the demo node's service, fees and
    transactions of the demo runtime (blocks may change everything outside the modelled
    storage), the simulator of the selection; derived serde and SCALE implementations
    outside the configuration files.  The scripts that run on Cardano are not part of the repository: the theorems on
    off-chain commands say what the transactions do that the node accepts. *)

From Stdlib Require Export ZArith Lia.
From stdpp Require Export base tactics option sorting gmap strings numbers list_numbers.
From stdpp Require Export list.

Open Scope Z_scope.

(** ** Outcomes of Rust code

    A Rust function of type [Result<A, E>] is modelled by [result E A].  A
    function that can also panic (an [expect] or [unwrap] that fails, a division
    by zero, an index out of range) returns an [outcome]: [Ret] of its value, or
    [Panic]. *)

Inductive result (E A : Type) : Type :=
  | Ok (a : A)
  | Err (e : E).
Arguments Ok {E A} a.
Arguments Err {E A} e.

Inductive outcome (A : Type) : Type :=
  | Ret (a : A)
  | Panic.
Arguments Ret {A} a.
Arguments Panic {A}.

#[global] Instance result_eq_dec {E A} `{EqDecision E, EqDecision A} : EqDecision (result E A).
Proof. solve_decision. Defined.
#[global] Instance outcome_eq_dec {A} `{EqDecision A} : EqDecision (outcome A).
Proof. solve_decision. Defined.

#[global] Instance result_ret E : MRet (result E) := λ A a, Ok a.
#[global] Instance result_bind E : MBind (result E) := λ A B k m,
  match m with Ok a => k a | Err e => Err e end.
#[global] Instance result_fmap E : FMap (result E) := λ A B f m,
  match m with Ok a => Ok (f a) | Err e => Err e end.

#[global] Instance outcome_ret : MRet outcome := λ A a, Ret a.
#[global] Instance outcome_bind : MBind outcome := λ A B k m,
  match m with Ret a => k a | Panic => Panic end.
#[global] Instance outcome_fmap : FMap outcome := λ A B f m,
  match m with Ret a => Ret (f a) | Panic => Panic end.

(** The [?] operator in a function that returns a [Result] and can panic. *)
Declare Scope pc_scope.
Notation "x ←? m ; k" :=
  (mbind (M:=outcome) (λ r, match r with Ok x => k | Err e => Ret (Err e) end) m)
  (at level 20, m at level 100, k at level 200, right associativity) : pc_scope.
Open Scope pc_scope.

(** [Option::ok_or], [Result::map_err], [Result::ok], [Option::expect] and the
    [ensure!] macro. *)
Definition ok_or {E A} (o : option A) (e : E) : result E A :=
  match o with Some a => Ok a | None => Err e end.
Definition map_err {E F A} (f : E → F) (r : result E A) : result F A :=
  match r with Ok a => Ok a | Err e => Err (f e) end.
Definition ok {E A} (r : result E A) : option A :=
  match r with Ok a => Some a | Err _ => None end.
Definition expect {A} (o : option A) : outcome A :=
  match o with Some a => Ret a | None => Panic end.
Definition ensure {E} (b : bool) (e : E) : result E unit :=
  if b then Ok tt else Err e.
Definition is_ok {E A} (r : result E A) : bool :=
  match r with Ok _ => true | Err _ => false end.

(** ** Machine integers

    A value of type [u16], [u32], [u64] or [u128] is a [Z] in [[0, 2^w)].  The
    release profile of [Cargo.toml] does not set [overflow-checks], so [+], [-]
    and [*] wrap around; [checked_], [saturating_] and [try_into] are written
    out. *)

Definition u_bound (w : Z) : Z := 2 ^ w.
Definition in_u (w x : Z) : Prop := 0 ≤ x < u_bound w.
Definition wrap (w x : Z) : Z := x mod u_bound w.
Definition wadd (w x y : Z) : Z := wrap w (x + y).
Definition wsub (w x y : Z) : Z := wrap w (x - y).
Definition wmul (w x y : Z) : Z := wrap w (x * y).
Definition sat_add (w x y : Z) : Z := Z.min (x + y) (u_bound w - 1).
Definition sat_sub (x y : Z) : Z := Z.max 0 (x - y).
Definition checked_sub (x y : Z) : option Z := if x <? y then None else Some (x - y).
Definition try_into (w x : Z) : option Z :=
  if (0 <=? x) && (x <? u_bound w) then Some x else None.
Definition checked_div (x y : Z) : outcome Z := if y =? 0 then Panic else Ret (x / y).

(** The sum of a [Vec] of weights, [iter().sum()], wrapping like [+]. *)
Definition wsum (w : Z) (l : list Z) : Z := foldl (wadd w) 0 l.
Fixpoint zsum (l : list Z) : Z :=
  match l with [] => 0 | x :: l => x + zsum l end.

(** The bytes of an integer, most significant first, and back. *)
Fixpoint be (k : nat) (n : Z) : list Z :=
  match k with O => [] | S k => be k (n / 256) ++ [n mod 256] end.
Definition from_be (b : list Z) : Z := foldl (λ acc x, acc * 256 + x) 0 b.

#[global] Instance in_u_dec w x : Decision (in_u w x).
Proof. unfold in_u. apply _. Defined.

(** ** Iterator adaptors of the Rust standard library *)

Definition is_empty {A} (l : list A) : bool :=
  match l with [] => true | _ => false end.
Fixpoint take_while {A} (p : A → bool) (l : list A) : list A :=
  match l with
  | [] => []
  | x :: l => if p x then x :: take_while p l else []
  end.
Fixpoint skip_while {A} (p : A → bool) (l : list A) : list A :=
  match l with
  | [] => []
  | x :: l => if p x then skip_while p l else x :: l
  end.
Fixpoint filter_map {A B} (f : A → option B) (l : list A) : list B :=
  match l with
  | [] => []
  | x :: l => match f x with Some y => y :: filter_map f l | None => filter_map f l end
  end.

(** [Iterator::max_by_key]: the last of the elements with the greatest key. *)
Definition max_by_key {A K} (le : K → K → bool) (key : A → K) (l : list A) : option A :=
  foldl (λ best x,
    match best with
    | None => Some x
    | Some b => if le (key b) (key x) then Some x else Some b
    end) None l.

(** [slice::partition_point], as [slice::binary_search_by] computes it: [size]
    shrinks to one and the index found is corrected by the last comparison. *)
Fixpoint binary_search_loop {A} (fuel : nat) (p : A → bool) (l : list A) (base size : nat) : nat :=
  match fuel with
  | O => base
  | S fuel =>
      if decide (size ≤ 1)%nat then base
      else
        let half := Nat.div2 size in
        let mid := (base + half)%nat in
        let base' := match l !! mid with
                     | Some x => if p x then mid else base
                     | None => base
                     end in
        binary_search_loop fuel p l base' (size - half)
  end.
Definition partition_point {A} (p : A → bool) (l : list A) : nat :=
  if decide (length l = 0%nat) then 0%nat
  else
    let base := binary_search_loop (length l) p l 0 (length l) in
    match l !! base with
    | Some x => if p x then S base else base
    | None => base
    end.

(** ** Ordered types

    The trait [Ord]: a decidable total order.  [sort] is [Vec::sort], and the
    iteration order of a [BTreeMap] is the sorted list of its entries. *)

Class Ord (A : Type) := {
  ord_le : relation A;
  #[global] ord_le_dec :: RelDecision ord_le;
  #[global] ord_le_po :: PartialOrder ord_le;
  #[global] ord_le_total :: Total ord_le;
}.

Definition sort `{Ord A} (l : list A) : list A := merge_sort ord_le l.

(** ** Tactics and hint databases *)

Create HintDb pc.
Create Rewrite HintDb pc_arith.

(** Case analysis on the innermost [match] or [if] of a hypothesis or the goal. *)
Ltac destruct_match_hyp :=
  match goal with
  | H : context [match ?x with _ => _ end] |- _ =>
      lazymatch x with
      | context [match _ with _ => _ end] => fail
      | _ => destruct x eqn:?; simplify_eq/=
      end
  end.
Ltac destruct_match_goal :=
  match goal with
  | |- context [match ?x with _ => _ end] =>
      lazymatch x with
      | context [match _ with _ => _ end] => fail
      | _ => destruct x eqn:?; simplify_eq/=
      end
  end.
Ltac destruct_matches := repeat (destruct_match_hyp || destruct_match_goal).

(** Turns boolean comparisons on [Z] in the context into propositions. *)
Ltac reflect_Z :=
  repeat match goal with
  | H : (_ <? _) = true |- _ => apply Z.ltb_lt in H
  | H : (_ <? _) = false |- _ => apply Z.ltb_ge in H
  | H : (_ <=? _) = true |- _ => apply Z.leb_le in H
  | H : (_ <=? _) = false |- _ => apply Z.leb_gt in H
  | H : (_ =? _) = true |- _ => apply Z.eqb_eq in H
  | H : (_ =? _) = false |- _ => apply Z.eqb_neq in H
  | H : _ && _ = true |- _ => apply andb_true_iff in H as [? ?]
  | H : _ || _ = false |- _ => apply orb_false_iff in H as [? ?]
  | H : negb _ = true |- _ => apply negb_true_iff in H
  | H : negb _ = false |- _ => apply negb_false_iff in H
  end.

(** ** Lemmas on machine integers *)

Lemma u_bound_pos w : 0 ≤ w → 0 < u_bound w.
Proof. intros. unfold u_bound. by apply Z.pow_pos_nonneg. Qed.

Lemma wrap_id w x : in_u w x → wrap w x = x.
Proof. intros [? ?]. unfold wrap. by apply Z.mod_small. Qed.

Lemma wrap_in_u w x : 0 ≤ w → in_u w (wrap w x).
Proof. intros Hw. unfold in_u, wrap. apply Z.mod_pos_bound, u_bound_pos, Hw. Qed.

Lemma wadd_exact w x y : in_u w (x + y) → wadd w x y = x + y.
Proof. apply wrap_id. Qed.
Lemma wsub_exact w x y : in_u w (x - y) → wsub w x y = x - y.
Proof. apply wrap_id. Qed.
Lemma wmul_exact w x y : in_u w (x * y) → wmul w x y = x * y.
Proof. apply wrap_id. Qed.

Lemma checked_sub_Some x y z : checked_sub x y = Some z ↔ y ≤ x ∧ z = x - y.
Proof.
  unfold checked_sub. destruct (Z.ltb_spec x y); split; [done|lia|intros [= <-]; lia|].
  by intros [_ ->].
Qed.
Lemma checked_sub_None x y : checked_sub x y = None ↔ x < y.
Proof. unfold checked_sub. destruct (Z.ltb_spec x y); split; first [done|lia]. Qed.

Lemma try_into_Some w x y : try_into w x = Some y ↔ in_u w x ∧ y = x.
Proof.
  unfold try_into, in_u. destruct (Z.leb_spec 0 x), (Z.ltb_spec x (u_bound w)); simpl;
    (split; [intros [=]|intros [? ->]]); first [done|lia].
Qed.

Lemma zsum_app l1 l2 : zsum (l1 ++ l2) = zsum l1 + zsum l2.
Proof. induction l1; simpl; lia. Qed.
Lemma zsum_nonneg l : Forall (λ x, 0 ≤ x) l → 0 ≤ zsum l.
Proof. induction 1; simpl; lia. Qed.
Lemma zsum_elem_le l x : Forall (λ x, 0 ≤ x) l → x ∈ l → x ≤ zsum l.
Proof.
  induction 1 as [|y l Hy Hl IH]; simpl; [by rewrite elem_of_nil|].
  rewrite elem_of_cons. intros [->|Hin]; [pose proof (zsum_nonneg l Hl)|specialize (IH Hin)]; lia.
Qed.
Lemma zsum_Permutation l1 l2 : l1 ≡ₚ l2 → zsum l1 = zsum l2.
Proof. induction 1; simpl; lia. Qed.
#[export] Instance zsum_Proper : Proper ((≡ₚ) ==> (=)) zsum.
Proof. intros l1 l2. apply zsum_Permutation. Qed.
Lemma zsum_mul k l : zsum ((λ x, x * k) <$> l) = zsum l * k.
Proof. induction l; csimpl; lia. Qed.

(** The wrapping sum is the wrapped sum, and the sum itself as long as it fits. *)
Lemma wsum_wrap w l : 0 ≤ w → wsum w l = wrap w (zsum l).
Proof.
  intros Hw. unfold wsum. pose proof (u_bound_pos w Hw).
  cut (∀ acc, in_u w acc → foldl (wadd w) acc l = wrap w (acc + zsum l)).
  { intros Hgen. apply (Hgen 0). split; lia. }
  induction l as [|x l IH]; intros acc Hacc; simpl.
  - rewrite Z.add_0_r. by rewrite wrap_id.
  - rewrite IH by (by apply wrap_in_u). unfold wadd, wrap.
    rewrite Z.add_mod_idemp_l by lia. f_equal. lia.
Qed.
Lemma wsum_exact w l : 0 ≤ w → Forall (λ x, 0 ≤ x) l → zsum l < u_bound w → wsum w l = zsum l.
Proof.
  intros Hw Hl Hb. rewrite wsum_wrap by done. apply wrap_id.
  split; [by apply zsum_nonneg|done].
Qed.
Lemma wsum_Permutation w l1 l2 : 0 ≤ w → l1 ≡ₚ l2 → wsum w l1 = wsum w l2.
Proof. intros Hw Hl. by rewrite !wsum_wrap, (zsum_Permutation _ _ Hl) by lia. Qed.

Lemma from_be_snoc l x : from_be (l ++ [x]) = from_be l * 256 + x.
Proof. unfold from_be. by rewrite foldl_app. Qed.
Lemma length_be k n : length (be k n) = k.
Proof. revert n. induction k as [|k IH]; intros n; simpl; [done|]. rewrite length_app, IH. simpl. lia. Qed.
Lemma from_be_be k n : 0 ≤ n < 256 ^ Z.of_nat k → from_be (be k n) = n.
Proof.
  revert n. induction k as [|k IH]; intros n Hn; cbn [be].
  - change (256 ^ Z.of_nat 0) with 1 in Hn. assert (n = 0) as -> by lia. done.
  - rewrite Nat2Z.inj_succ, Z.pow_succ_r in Hn by lia.
    pose proof (Z.div_mod n 256). pose proof (Z.mod_pos_bound n 256).
    rewrite from_be_snoc, IH; [lia|]. split; [apply Z.div_pos; lia|]. apply Z.div_lt_upper_bound; lia.
Qed.

Lemma from_be_bound l :
  Forall (λ x, 0 ≤ x < 256) l → 0 ≤ from_be l < 256 ^ Z.of_nat (length l).
Proof.
  induction l as [|x l IH] using rev_ind; [done|]. intros [Hl Hx]%Forall_app.
  apply Forall_cons in Hx as [Hx _]. specialize (IH Hl). rewrite from_be_snoc, length_app. simpl length.
  replace (Z.of_nat (length l + 1)) with (Z.succ (Z.of_nat (length l))) by lia.
  rewrite Z.pow_succ_r by lia. lia.
Qed.

#[export] Hint Rewrite wadd_exact wsub_exact wmul_exact using (unfold in_u in *; lia) : pc_arith.

(** ** Lemmas on iterators *)

Lemma take_skip_while {A} (p : A → bool) l : take_while p l ++ skip_while p l = l.
Proof. induction l as [|x l IH]; simpl; [done|]. destruct (p x); simpl; by rewrite ?IH. Qed.

Lemma take_while_Forall {A} (p : A → bool) l : Forall (λ x, p x = true) (take_while p l).
Proof. induction l as [|x l IH]; simpl; [constructor|]. destruct (p x) eqn:?; by constructor. Qed.

Lemma take_while_all {A} (p : A → bool) l : Forall (λ x, p x = true) l → take_while p l = l.
Proof. induction 1 as [|x l Hx Hl IH]; simpl; [done|]. by rewrite Hx, IH. Qed.
Lemma skip_while_none {A} (p : A → bool) l : Forall (λ x, p x = false) l → skip_while p l = l.
Proof. destruct 1 as [|x l Hx Hl]; simpl; [done|]. by rewrite Hx. Qed.
Lemma take_while_none {A} (p : A → bool) l : Forall (λ x, p x = false) l → take_while p l = [].
Proof. destruct 1 as [|x l Hx Hl]; simpl; [done|]. by rewrite Hx. Qed.

Lemma take_while_take {A} (p : A → bool) l : take (length (take_while p l)) l = take_while p l.
Proof. rewrite <-(take_skip_while p l) at 2. by rewrite take_app_length. Qed.
Lemma skip_while_drop {A} (p : A → bool) l : drop (length (take_while p l)) l = skip_while p l.
Proof. rewrite <-(take_skip_while p l) at 2. by rewrite drop_app_length. Qed.

(** A list is partitioned by [p] when its elements that satisfy [p] come first. *)
Definition partitioned {A} (p : A → bool) (l : list A) : Prop :=
  Forall (λ x, p x = false) (skip_while p l).

Lemma partitioned_cons {A} (p : A → bool) x l :
  partitioned p (x :: l) ↔
  (p x = true ∧ partitioned p l) ∨ (p x = false ∧ Forall (λ x, p x = false) l).
Proof.
  unfold partitioned. simpl. destruct (p x) eqn:E.
  - split; [intros; by left|]. intros [[_ ?]|[? _]]; [done|congruence].
  - rewrite Forall_cons. split; [intros [_ ?]; by right|]. intros [[? _]|[_ ?]]; [congruence|done].
Qed.

Lemma partitioned_take_while {A} (p : A → bool) l :
  partitioned p l → take_while p l = filter (λ x, p x = true) l.
Proof.
  induction l as [|x l IH]; [done|]. rewrite partitioned_cons, filter_cons. simpl.
  intros [[Hx Hl]|[Hx Hl]]; rewrite Hx; case_decide; try congruence.
  - by rewrite IH.
  - symmetry. clear -Hl. induction Hl as [|y l Hy]; [done|].
    rewrite filter_cons. case_decide; congruence.
Qed.

Lemma partitioned_skip_while {A} (p : A → bool) l :
  partitioned p l → skip_while p l = filter (λ x, p x = false) l.
Proof.
  induction l as [|x l IH]; [done|]. rewrite partitioned_cons, filter_cons. simpl.
  intros [[Hx Hl]|[Hx Hl]]; rewrite Hx; case_decide; try congruence.
  - by apply IH.
  - f_equal. clear -Hl. induction Hl as [|y l Hy]; [done|].
    rewrite filter_cons. case_decide; congruence.
Qed.

(** A list sorted by [R] is partitioned by every predicate closed downwards. *)
Lemma StronglySorted_partitioned {A} (R : relation A) (p : A → bool) l :
  StronglySorted R l → (∀ x y, R x y → p y = true → p x = true) → partitioned p l.
Proof.
  intros Hs Hp. induction Hs as [|x l Hs IH Hx]; [by constructor|].
  rewrite partitioned_cons. destruct (p x) eqn:E; [by left|right]. split; [done|].
  eapply Forall_impl; [exact Hx|]. intros y Hxy. simpl.
  destruct (p y) eqn:Ey; [|done]. by rewrite (Hp x y Hxy Ey) in E.
Qed.

Lemma partitioned_lookup {A} (p : A → bool) l i x :
  partitioned p l → l !! i = Some x → p x = true ↔ (i < length (take_while p l))%nat.
Proof.
  intros Hp Hi. rewrite <-(take_skip_while p l) in Hi.
  destruct (decide (i < length (take_while p l))%nat) as [Hlt|Hge].
  - rewrite lookup_app_l in Hi by done.
    pose proof (Forall_lookup_1 _ _ _ _ (take_while_Forall p l) Hi). naive_solver.
  - rewrite lookup_app_r in Hi by lia.
    pose proof (Forall_lookup_1 _ _ _ _ Hp Hi). simpl in *. split; [congruence|lia].
Qed.

Lemma length_take_while_le {A} (p : A → bool) l : (length (take_while p l) ≤ length l)%nat.
Proof. rewrite <-(take_skip_while p l) at 2. rewrite length_app. lia. Qed.

Lemma binary_search_loop_spec {A} (p : A → bool) (l : list A) fuel base size :
  partitioned p l →
  let k := length (take_while p l) in
  (size ≤ fuel)%nat → (1 ≤ size)%nat → (base + size ≤ length l)%nat →
  (base < k ∨ base = 0)%nat → (k ≤ base + size)%nat →
  let r := binary_search_loop fuel p l base size in
  (r < length l)%nat ∧ (r < k ∨ r = 0)%nat ∧ (k ≤ r + 1)%nat.
Proof.
  intros Hp k. revert base size. induction fuel as [|fuel IH]; intros base size; simpl; [lia|].
  intros Hf H1 Hlen Hbase Hk. case_decide as Hsize.
  { split_and!; lia. }
  assert (1 ≤ Nat.div2 size ∧ 2 * Nat.div2 size ≤ size)%nat as Hhalf.
  { rewrite Nat.div2_div.
    split; [apply Nat.div_le_lower_bound; lia|apply Nat.Div0.mul_div_le]. }
  destruct (lookup_lt_is_Some_2 l (base + Nat.div2 size)%nat) as [x Hx]; [lia|].
  rewrite Hx. pose proof (partitioned_lookup p l _ x Hp Hx) as Hpx. fold k in Hpx.
  destruct (p x).
  - assert (base + Nat.div2 size < k)%nat by (by apply Hpx). apply IH; lia.
  - assert (¬ (base + Nat.div2 size < k)%nat) by (intros ?%Hpx; done). apply IH; lia.
Qed.

(** On a partitioned slice the binary search of [partition_point] finds the
    length of the longest prefix that satisfies the predicate. *)
Lemma partition_point_take_while {A} (p : A → bool) l :
  partitioned p l → partition_point p l = length (take_while p l).
Proof.
  intros Hp. unfold partition_point. case_decide as Hl.
  { apply nil_length_inv in Hl as ->. done. }
  pose proof (length_take_while_le p l).
  destruct (binary_search_loop_spec p l (length l) 0 (length l)) as (Hr & Hk & Hle);
    [done|lia..|].
  destruct (lookup_lt_is_Some_2 l _ Hr) as [x Hx]. rewrite Hx.
  pose proof (partitioned_lookup p l _ x Hp Hx) as Hpx.
  set (r := binary_search_loop _ _ _ _ _) in *. destruct (p x).
  - assert (r < length (take_while p l))%nat by (by apply Hpx). lia.
  - assert (¬ (r < length (take_while p l))%nat) by (intros ?%Hpx; done). lia.
Qed.

Lemma elem_of_filter_map {A B} (f : A → option B) l y :
  y ∈ filter_map f l ↔ ∃ x, x ∈ l ∧ f x = Some y.
Proof.
  induction l as [|x l IH]; simpl; [set_solver|].
  destruct (f x) eqn:E; rewrite ?elem_of_cons, IH; set_solver.
Qed.

Lemma length_filter_map_le {A B} (f : A → option B) l : (length (filter_map f l) ≤ length l)%nat.
Proof. induction l as [|x l IH]; simpl; [lia|]. destruct (f x); simpl; lia. Qed.
Lemma filter_map_app {A B} (f : A → option B) l1 l2 :
  filter_map f (l1 ++ l2) = filter_map f l1 ++ filter_map f l2.
Proof. induction l1 as [|x l1 IH]; simpl; [done|]. destruct (f x); simpl; by rewrite IH. Qed.

Lemma filter_map_Permutation {A B} (f : A → option B) l1 l2 :
  l1 ≡ₚ l2 → filter_map f l1 ≡ₚ filter_map f l2.
Proof.
  induction 1; simpl; repeat case_match; eauto using perm_skip, perm_swap, perm_trans.
Qed.
#[export] Instance filter_map_Proper {A B} (f : A → option B) : Proper ((≡ₚ) ==> (≡ₚ)) (filter_map f).
Proof. intros l1 l2. apply filter_map_Permutation. Qed.
Lemma fmap_filter_map {A B C} (g : B → C) (f : A → option B) l :
  g <$> filter_map f l = filter_map (λ x, g <$> f x) l.
Proof. induction l as [|x l IH]; [done|]. simpl. destruct (f x); csimpl; by rewrite IH. Qed.
Lemma filter_map_fmap {A B C} (f : B → option C) (h : A → B) (l : list A) :
  filter_map f (h <$> l) = filter_map (λ x, f (h x)) l.
Proof. induction l as [|x l IH]; [done|]. csimpl. by rewrite IH. Qed.
#[export] Instance is_empty_Proper {A} : Proper ((≡ₚ) ==> (=)) (@is_empty A).
Proof.
  intros [|x l1] [|y l2] Hl; try done; [by apply Permutation_nil_l in Hl|by apply Permutation_nil_r in Hl].
Qed.

(** Filters that agree on the elements of a list. *)
Lemma list_filter_iff_elem {A} (P Q : A → Prop) `{∀ x, Decision (P x), ∀ x, Decision (Q x)} (l : list A) :
  (∀ x, x ∈ l → P x ↔ Q x) → filter P l = filter Q l.
Proof.
  induction l as [|x l IH]; intros Hl; [done|]. rewrite !filter_cons.
  rewrite IH by (intros; apply Hl; by right). pose proof (Hl x (list_elem_of_here _ _)).
  repeat case_decide; tauto.
Qed.
Lemma filter_all {A} (P : A → Prop) `{∀ x, Decision (P x)} (l : list A) : Forall P l → filter P l = l.
Proof. induction 1 as [|x l Hx Hl IH]; [done|]. by rewrite filter_cons_True, IH. Qed.
Lemma filter_none {A} (P : A → Prop) `{∀ x, Decision (P x)} (l : list A) :
  Forall (λ x, ¬ P x) l → filter P l = [].
Proof. induction 1 as [|x l Hx Hl IH]; [done|]. by rewrite filter_cons_False, IH. Qed.

Lemma length_filter_seqZ a b n :
  0 ≤ a ≤ b → b ≤ n → Z.of_nat (length (filter (λ r, a ≤ r < b) (seqZ 0 n))) = b - a.
Proof.
  intros Hab Hn. replace n with (a + ((b - a) + (n - b))) by lia.
  rewrite !seqZ_app, !filter_app by lia.
  rewrite (filter_none _ (seqZ 0 a)), (filter_all _ (seqZ (0 + a) (b - a))),
    (filter_none _ (seqZ _ (n - b))).
  - simpl. rewrite app_nil_r, length_seqZ. lia.
  - apply Forall_forall. intros x Hx%elem_of_seqZ. lia.
  - apply Forall_forall. intros x Hx%elem_of_seqZ. lia.
  - apply Forall_forall. intros x Hx%elem_of_seqZ. lia.
Qed.

(** [max_by_key] returns an element whose key is an upper bound of all keys. *)
Lemma max_by_key_spec {A K} (le : K → K → bool) (key : A → K) l x :
  (∀ a, le a a = true) →
  (∀ a b c, le a b = true → le b c = true → le a c = true) →
  (∀ a b, le a b = true ∨ le b a = true) →
  max_by_key le key l = Some x →
  x ∈ l ∧ ∀ y, y ∈ l → le (key y) (key x) = true.
Proof.
  intros Hrefl Htrans Htot. revert x.
  induction l as [|z l IH] using rev_ind; intros x; [done|].
  unfold max_by_key in *. rewrite foldl_app. simpl.
  destruct (foldl _ None l) as [b|] eqn:Eb.
  - destruct (IH b eq_refl) as [Hb Hmax].
    destruct (le (key b) (key z)) eqn:Ele; intros [= <-]; rewrite elem_of_app; split.
    + right. by left.
    + intros y [Hy| ->%list_elem_of_singleton]%elem_of_app; eauto.
    + by left.
    + intros y [Hy| ->%list_elem_of_singleton]%elem_of_app; [eauto|].
      destruct (Htot (key b) (key z)); congruence.
  - intros [= <-]. destruct l as [|w l _] using rev_ind.
    + split; [by left|]. by intros y ->%list_elem_of_singleton.
    + rewrite foldl_app in Eb. simpl in Eb. destruct (foldl _ None l); [case_match|]; done.
Qed.

Lemma max_by_key_None {A K} (le : K → K → bool) (key : A → K) l :
  max_by_key le key l = None ↔ l = [].
Proof.
  unfold max_by_key. split; [|by intros ->].
  destruct l as [|z l] using rev_ind; [done|]. rewrite foldl_app. simpl.
  destruct (foldl _ None l); [case_match|]; done.
Qed.

(** ** Lemmas on ordered types *)

#[export] Instance Z_ord : Ord Z.
Proof. refine {| ord_le := Z.le |}. Defined.

(** Tuples and byte vectors compare lexicographically. *)
Section Lexicographic.
Context `{Ord A, Ord B, EqDecision A}.

Definition prod_le (x y : A * B) : Prop :=
  if decide (x.1 = y.1) then ord_le x.2 y.2 else ord_le x.1 y.1.

#[export] Instance prod_le_dec : RelDecision prod_le.
Proof. intros x y. unfold prod_le. destruct (decide (x.1 = y.1)); apply _. Defined.

#[export] Instance prod_le_po : PartialOrder prod_le.
Proof.
  split; [split|].
  - intros x. unfold prod_le. case_decide; [reflexivity|done].
  - intros [a b] [a' b'] [a'' b'']. unfold prod_le. simpl. intros H12 H23.
    repeat case_decide; subst; try done; try (by etrans).
    exfalso. match goal with Hn : a'' ≠ a' |- _ => apply Hn; by apply (anti_symm ord_le) end.
  - intros [a b] [a' b']. unfold prod_le. simpl. intros H12 H21.
    repeat case_decide; subst; try done; [f_equal|]; try by apply (anti_symm ord_le).
    exfalso. match goal with Hn : a ≠ a' |- _ => apply Hn; by apply (anti_symm ord_le) end.
Qed.

#[export] Instance prod_le_total : Total prod_le.
Proof.
  intros [a b] [a' b']. unfold prod_le. simpl.
  destruct (decide (a = a')) as [->|]; destruct (decide (a' = a')) as [_|]; try done;
    repeat case_decide; try congruence; apply ord_le_total.
Qed.

#[export] Instance prod_ord : Ord (A * B).
Proof. refine {| ord_le := prod_le |}. Defined.

Fixpoint list_le (l k : list A) : bool :=
  match l, k with
  | [], _ => true
  | _ :: _, [] => false
  | x :: l, y :: k => if decide (x = y) then list_le l k else bool_decide (ord_le x y)
  end.

#[export] Instance list_le_po : PartialOrder (λ l k, list_le l k = true).
Proof.
  split; [split|].
  - intros l. induction l as [|x l IH]; simpl; [done|]. by rewrite decide_True.
  - intros l1. induction l1 as [|x l1 IH]; intros [|y l2] [|z l3]; simpl; try done.
    intros H12 H23. destruct (decide (x = y)) as [->|Hxy].
    { destruct (decide (y = z)) as [->|]; [by eapply IH|done]. }
    destruct (decide (y = z)) as [->|Hyz]; [by rewrite decide_False by done|].
    apply bool_decide_eq_true in H12, H23. rewrite decide_False.
    + apply bool_decide_eq_true. by etrans.
    + intros ->. apply Hxy. by apply (anti_symm ord_le).
  - intros l1. induction l1 as [|x l1 IH]; intros [|y l2]; simpl; try done.
    destruct (decide (x = y)) as [->|Hxy]; intros H12 H21.
    { rewrite decide_True in H21 by done. f_equal. by apply IH. }
    rewrite decide_False in H21 by congruence. apply bool_decide_eq_true in H12, H21.
    exfalso. apply Hxy. by apply (anti_symm ord_le).
Qed.

#[export] Instance list_le_total : Total (λ l k, list_le l k = true).
Proof.
  intros l1. induction l1 as [|x l1 IH]; intros [|y l2]; simpl; try by auto.
  destruct (decide (x = y)) as [->|]; [rewrite decide_True by done; apply IH|].
  rewrite decide_False by congruence. rewrite !bool_decide_eq_true. apply ord_le_total.
Qed.

#[export] Instance list_ord : Ord (list A).
Proof. refine {| ord_le l k := list_le l k = true |}. intros l k. apply _. Defined.

End Lexicographic.

(** An order transported along an injection. *)
Section OrdVia.
Context {A B : Type} `{Ord B} (f : A → B) `{!Inj (=) (=) f}.

Definition ord_via : Ord A.
Proof.
  refine {| ord_le x y := ord_le (f x) (f y) |}.
  - intros x y. apply _.
  - split; [split|].
    + intros x. reflexivity.
    + intros x y z. apply transitivity.
    + intros x y ? ?. apply (inj f). by apply (anti_symm ord_le).
  - intros x y. apply ord_le_total.
Defined.
End OrdVia.

Lemma sort_Permutation `{Ord A} (l : list A) : sort l ≡ₚ l.
Proof. apply merge_sort_Permutation. Qed.

Lemma sort_sorted `{Ord A} (l : list A) : StronglySorted ord_le (sort l).
Proof. apply (StronglySorted_merge_sort _). Qed.

(** Sorting forgets the order of its input. *)
#[export] Instance sort_Proper `{Ord A} : Proper ((≡ₚ) ==> (=)) (@sort A _).
Proof.
  intros l1 l2 Hl. apply (StronglySorted_unique ord_le); [apply sort_sorted..|].
  by rewrite !sort_Permutation.
Qed.

(** The entries of a [BTreeMap] in the order of its iterator: by key. *)
Section BTree.
Context `{Countable K, !Ord K} {V : Type}.

Definition key_le (x y : K * V) : Prop := ord_le x.1 y.1.
#[export] Instance key_le_dec : RelDecision key_le := λ x y, ord_le_dec x.1 y.1.
Definition btree_iter (m : gmap K V) : list (K * V) := merge_sort key_le (map_to_list m).

Lemma btree_iter_Permutation m : btree_iter m ≡ₚ map_to_list m.
Proof. apply merge_sort_Permutation. Qed.
Lemma elem_of_btree_iter m k v : (k, v) ∈ btree_iter m ↔ m !! k = Some v.
Proof. by rewrite btree_iter_Permutation, elem_of_map_to_list. Qed.
Lemma NoDup_btree_iter_keys m : NoDup (btree_iter m).*1.
Proof. rewrite btree_iter_Permutation. apply NoDup_fst_map_to_list. Qed.
Lemma length_btree_iter m : length (btree_iter m) = size m.
Proof. rewrite btree_iter_Permutation. apply length_map_to_list. Qed.
End BTree.
