(* ===== verification/Domain.v ===== *)
(** * Domain types

    The types of [toolkit/sidechain/domain/src/lib.rs] that several components
    share.  Newtypes over an unsigned integer ([McEpochNumber], [McBlockNumber],
    [ScEpochNumber], [StakeDelegation], ...) are the integer itself; newtypes
    over bytes are lists of byte values. *)

From S2P Require Import Prelude.

Abbreviation bytes := (list Z).

(** ** UTxO identifiers and their position in the ledger *)

Record UtxoId := mkUtxoId {
  tx_hash : bytes;
  utxo_index : Z;
}.

#[global] Instance UtxoId_eq_dec : EqDecision UtxoId.
Proof. solve_decision. Defined.
#[global] Instance UtxoId_countable : Countable UtxoId.
Proof.
  apply (inj_countable' (λ u, (tx_hash u, utxo_index u)) (λ p, mkUtxoId p.1 p.2)).
  by intros [].
Defined.

Record UtxoInfo := mkUtxoInfo {
  utxo_id : UtxoId;
  epoch_number : Z;
  block_number : Z;
  slot_number : Z;
  tx_index_within_block : Z;
}.

#[global] Instance UtxoInfo_eq_dec : EqDecision UtxoInfo.
Proof. solve_decision. Defined.

Record UtxoInfoOrderingKey := mkOrderingKey {
  key_block_number : Z;
  key_tx_index : Z;
  key_utxo_index : Z;
}.

Definition ordering_key (u : UtxoInfo) : UtxoInfoOrderingKey :=
  mkOrderingKey (block_number u) (tx_index_within_block u) (utxo_index (utxo_id u)).

(** The derived [Ord]: lexicographic in the order of the fields. *)
Definition ordering_key_le (a b : UtxoInfoOrderingKey) : bool :=
  (key_block_number a <? key_block_number b)
  || ((key_block_number a =? key_block_number b)
      && ((key_tx_index a <? key_tx_index b)
          || ((key_tx_index a =? key_tx_index b)
              && (key_utxo_index a <=? key_utxo_index b)))).

Lemma ordering_key_le_refl a : ordering_key_le a a = true.
Proof. unfold ordering_key_le. lia. Qed.
Lemma ordering_key_le_trans a b c :
  ordering_key_le a b = true → ordering_key_le b c = true → ordering_key_le a c = true.
Proof. unfold ordering_key_le. lia. Qed.
Lemma ordering_key_le_total a b : ordering_key_le a b = true ∨ ordering_key_le b a = true.
Proof. unfold ordering_key_le. lia. Qed.

(** ** Main chain blocks *)

Record MainchainBlock := mkMainchainBlock {
  mb_number : Z;
  mb_hash : bytes;
  mb_epoch : Z;
  mb_slot : Z;
  mb_timestamp : Z;
}.

#[global] Instance MainchainBlock_eq_dec : EqDecision MainchainBlock.
Proof. solve_decision. Defined.

(** ** Epoch of the data a selection uses *)

Definition DATA_MC_EPOCH_OFFSET : Z := 2.

Definition offset_data_epoch (epoch : Z) : result Z Z :=
  ok_or (checked_sub epoch DATA_MC_EPOCH_OFFSET) DATA_MC_EPOCH_OFFSET.

(** ** The D-parameter *)

Record DParameter := mkDParameter {
  num_permissioned_candidates : Z;
  num_registered_candidates : Z;
}.

(** ** Candidates as Cardano records them *)

Record CandidateKey := mkCandidateKey {
  key_id : bytes;
  key_bytes : bytes;
}.

#[global] Instance CandidateKey_eq_dec : EqDecision CandidateKey.
Proof. solve_decision. Defined.

Abbreviation CandidateKeys := (list CandidateKey).

Record RegistrationData := mkRegistrationData {
  registration_utxo : UtxoId;
  sidechain_signature : bytes;
  mainchain_signature : bytes;
  cross_chain_signature : bytes;
  sidechain_pub_key : bytes;
  cross_chain_pub_key : bytes;
  utxo_info : UtxoInfo;
  tx_inputs : list UtxoId;
  registration_keys : CandidateKeys;
}.

Record CandidateRegistrations := mkCandidateRegistrations {
  stake_pool_public_key : bytes;
  registrations : list RegistrationData;
  stake_delegation : option Z;
}.

Record PermissionedCandidateData := mkPermissionedCandidateData {
  sidechain_public_key : bytes;
  permissioned_keys : CandidateKeys;
}.

#[global] Instance PermissionedCandidateData_eq_dec : EqDecision PermissionedCandidateData.
Proof. solve_decision. Defined.

Definition EPOCH_NONCE_LEN : nat := 32.

(** [EpochNonce::as_array]: [resize_with] truncates or pads with zeros. *)
Definition as_array (nonce : bytes) : bytes :=
  take EPOCH_NONCE_LEN (nonce ++ replicate (EPOCH_NONCE_LEN - length nonce) 0).
