(* ===== verification/MainchainEpoch.v ===== *)
(** * Cardano epochs and slots

    Models [toolkit/sidechain/domain/src/mainchain_epoch.rs]: the conversions
    between timestamps, slots and epochs of the main chain that every
    observation of Cardano depends on. *)

From S2P Require Import Prelude Domain.

Record MainchainEpochConfig := mkEpochConfig {
  epoch_duration_millis : Z;
  slot_duration_millis : Z;
  first_epoch_timestamp_millis : Z;
  first_epoch_number : Z;
  first_slot_number : Z;
}.

Inductive EpochDerivationError :=
  | TimestampTooSmall
  | EpochTooBig
  | EpochTooSmall
  | SlotTooSmall.

#[global] Instance EpochDerivationError_eq_dec : EqDecision EpochDerivationError.
Proof. solve_decision. Defined.

Definition i32_max : Z := 2 ^ 31 - 1.

Section Derivation.
Context (self : MainchainEpochConfig).

Definition slots_per_epoch : Z := epoch_duration_millis self / 1000.

Definition epochs_passed (timestamp : Z) : outcome (result EpochDerivationError Z) :=
  match checked_sub timestamp (first_epoch_timestamp_millis self) with
  | None => Ret (Err TimestampTooSmall)
  | Some time_elapsed =>
      q ← checked_div time_elapsed (epoch_duration_millis self);
      match try_into 32 q with
      | None => Ret (Err EpochTooBig)
      | Some res => if i32_max <? res then Ret (Err EpochTooBig) else Ret (Ok res)
      end
  end.

Definition timestamp_to_mainchain_epoch (timestamp : Z) : outcome (result EpochDerivationError Z) :=
  epochs_passed ←? epochs_passed timestamp;
  Ret (Ok (sat_add 32 (first_epoch_number self) epochs_passed)).

Definition timestamp_to_mainchain_slot_number (timestamp : Z) :
    outcome (result EpochDerivationError Z) :=
  match checked_sub timestamp (first_epoch_timestamp_millis self) with
  | None => Ret (Err TimestampTooSmall)
  | Some time_elapsed =>
      q ← checked_div time_elapsed (slot_duration_millis self);
      Ret (Ok (wadd 64 (first_slot_number self) q))
  end.

Definition mainchain_epoch_to_timestamp (epoch : Z) : Z :=
  let time_elapsed := wmul 64 (epoch_duration_millis self) epoch in
  wadd 64 (first_epoch_timestamp_millis self) time_elapsed.

Definition first_slot_of_epoch (epoch : Z) : result EpochDerivationError Z :=
  epochs_since_first_epoch ← ok_or (checked_sub epoch (first_epoch_number self)) EpochTooSmall;
  let slots_since_first_epoch := wmul 64 epochs_since_first_epoch slots_per_epoch in
  Ok (wadd 64 slots_since_first_epoch (first_slot_number self)).

Definition epoch_for_slot (slot : Z) : outcome (result EpochDerivationError Z) :=
  match checked_sub slot (first_slot_number self) with
  | None => Ret (Err SlotTooSmall)
  | Some slots_since_first_slot =>
      q ← checked_div slots_since_first_slot slots_per_epoch;
      match try_into 32 q with
      | None => Ret (Err EpochTooBig)
      | Some epochs_since_first_epoch =>
          Ret (Ok (wadd 32 (first_epoch_number self) epochs_since_first_epoch))
      end
  end.

(** ** Well-formed configurations

    Durations are positive, every field has its machine width, and the first
    epoch is in the documented range of epoch numbers, up to [2 ^ 31 - 1]. *)
Record epoch_config_wf : Prop := {
  wf_epoch_duration : 1000 ≤ epoch_duration_millis self < u_bound 64;
  wf_slot_duration : 0 < slot_duration_millis self < u_bound 64;
  wf_first_timestamp : in_u 64 (first_epoch_timestamp_millis self);
  wf_first_epoch : 0 ≤ first_epoch_number self ≤ i32_max;
  wf_first_slot : in_u 64 (first_slot_number self);
}.

(** The moment at which [epoch] starts. *)
Definition epoch_start (epoch : Z) : Z :=
  first_epoch_timestamp_millis self
  + (epoch - first_epoch_number self) * epoch_duration_millis self.

Hypothesis Hwf : epoch_config_wf.

Lemma slots_per_epoch_pos : 0 < slots_per_epoch.
Proof.
  destruct Hwf. unfold slots_per_epoch.
  pose proof (Z.div_le_lower_bound (epoch_duration_millis self) 1000 1). lia.
Qed.

Lemma epochs_passed_spec timestamp k :
  epochs_passed timestamp = Ret (Ok k) ↔
  0 ≤ k ≤ i32_max ∧
  first_epoch_timestamp_millis self + k * epoch_duration_millis self ≤ timestamp
    < first_epoch_timestamp_millis self + (k + 1) * epoch_duration_millis self.
Proof.
  destruct Hwf as [[Hd _] _ _ _ _]. unfold epochs_passed, checked_div.
  set (d := epoch_duration_millis self) in *.
  set (f := first_epoch_timestamp_millis self) in *.
  destruct (checked_sub timestamp f) as [e|] eqn:He.
  - apply checked_sub_Some in He as [Hle ->].
    destruct (Z.eqb_spec d 0) as [?|_]; [lia|]. simpl.
    pose proof (Z.div_mod (timestamp - f) d) as Hdm.
    pose proof (Z.mod_pos_bound (timestamp - f) d) as Hmod.
    set (q := (timestamp - f) / d) in *. set (r := (timestamp - f) mod d) in *.
    assert (0 ≤ q) by (subst q; apply Z.div_pos; lia).
    split.
    + destruct (try_into 32 q) as [q'|] eqn:Hq; [|done].
      apply try_into_Some in Hq as [_ ->]. case_match; intros; simplify_eq; reflect_Z. nia.
    + intros (Hk & H1 & H2). assert (q = k) as -> by nia.
      rewrite (proj2 (try_into_Some 32 k k)); [|unfold in_u, u_bound, i32_max in *; lia].
      case_match; reflect_Z; [lia|done].
  - apply checked_sub_None in He. split; [done|nia].
Qed.

Lemma timestamp_to_mainchain_epoch_eq timestamp :
  timestamp_to_mainchain_epoch timestamp =
  (λ r, match r with
        | Ok k => Ok (first_epoch_number self + k)
        | Err e => Err e
        end) <$> epochs_passed timestamp.
Proof.
  unfold timestamp_to_mainchain_epoch.
  destruct (epochs_passed timestamp) as [[k|]|] eqn:E; [|done..]. simpl.
  apply epochs_passed_spec in E as [Hk _]. destruct Hwf.
  unfold sat_add, u_bound, i32_max in *. do 2 f_equal. lia.
Qed.

Lemma timestamp_to_mainchain_epoch_spec timestamp e :
  timestamp_to_mainchain_epoch timestamp = Ret (Ok e) ↔
  first_epoch_number self ≤ e ≤ first_epoch_number self + i32_max ∧
  epoch_start e ≤ timestamp < epoch_start (e + 1).
Proof.
  rewrite timestamp_to_mainchain_epoch_eq. unfold epoch_start.
  transitivity (epochs_passed timestamp = Ret (Ok (e - first_epoch_number self))).
  - destruct (epochs_passed timestamp) as [[k|]|]; simpl; split; intros [=]; do 2 f_equal; lia.
  - rewrite epochs_passed_spec.
    replace (e + 1 - first_epoch_number self) with (e - first_epoch_number self + 1) by lia. lia.
Qed.

Lemma timestamp_to_mainchain_epoch_err timestamp e :
  timestamp_to_mainchain_epoch timestamp = Ret (Err e) ↔
  e = TimestampTooSmall ∧ timestamp < epoch_start (first_epoch_number self) ∨
  e = EpochTooBig ∧ epoch_start (first_epoch_number self + i32_max + 1) ≤ timestamp.
Proof.
  rewrite timestamp_to_mainchain_epoch_eq. destruct Hwf as [[Hd _] _ _ _ _].
  unfold epochs_passed, checked_div, epoch_start. rewrite Z.sub_diag, Z.mul_0_l, Z.add_0_r.
  set (d := epoch_duration_millis self) in *. set (f := first_epoch_timestamp_millis self).
  destruct (checked_sub timestamp f) as [x|] eqn:Hx.
  - apply checked_sub_Some in Hx as [Hle ->]. rewrite (proj2 (Z.eqb_neq d 0)) by lia. simpl.
    pose proof (Z.div_mod (timestamp - f) d ltac:(lia)) as Hdm. pose proof (Z.mod_pos_bound (timestamp - f) d ltac:(lia)) as Hmod.
    set (q := (timestamp - f) / d) in *.
    assert (i32_max < q ↔ f + (first_epoch_number self + i32_max + 1 - first_epoch_number self) * d ≤ timestamp) as Hbig by nia.
    destruct (try_into 32 q) as [q'|] eqn:Hq; [apply try_into_Some in Hq as [_ ->]; case_match; reflect_Z|].
    + simpl. split; [intros [= <-]; right; by rewrite <-Hbig|intros [[-> ?]|[-> _]]; [lia|done]].
    + simpl. split; [done|]. intros [[_ ?]|[_ ?%Hbig]]; lia.
    + assert (i32_max < q) as Hq'.
      { destruct (Z.lt_ge_cases i32_max q); [done|]. assert (0 ≤ q) by (subst q; apply Z.div_pos; lia).
        rewrite (proj2 (try_into_Some 32 q q)) in Hq; [done|]. unfold in_u, u_bound, i32_max in *. lia. }
      simpl. split; [intros [= <-]; right; by rewrite <-Hbig|intros [[-> ?]|[-> _]]; [lia|done]].
  - apply checked_sub_None in Hx. simpl. split; [intros [= <-]; by left|]. intros [[-> _]|[_ ?]]; [done|]. unfold i32_max in *. nia.
Qed.

(** [epoch_for_slot] inverts multiplication by [slots_per_epoch]. *)
Lemma epoch_for_slot_spec slot e :
  first_epoch_number self ≤ e ≤ first_epoch_number self + i32_max →
  epoch_for_slot slot = Ret (Ok e) ↔
  first_slot_number self + (e - first_epoch_number self) * slots_per_epoch ≤ slot
    < first_slot_number self + (e - first_epoch_number self + 1) * slots_per_epoch.
Proof.
  pose proof slots_per_epoch_pos as Hs. destruct Hwf as [_ _ _ Hf _]. intros He.
  unfold epoch_for_slot, checked_div.
  set (n := slots_per_epoch) in *. set (f := first_slot_number self) in *.
  destruct (checked_sub slot f) as [s|] eqn:Es.
  - apply checked_sub_Some in Es as [Hle ->].
    destruct (Z.eqb_spec n 0) as [?|_]; [lia|]. simpl.
    pose proof (Z.div_mod (slot - f) n) as Hdm.
    pose proof (Z.mod_pos_bound (slot - f) n) as Hmod.
    set (q := (slot - f) / n) in *. set (r := (slot - f) mod n) in *.
    assert (0 ≤ q) by (subst q; apply Z.div_pos; lia).
    unfold wadd, wrap, u_bound, i32_max in *. split.
    + destruct (try_into 32 q) as [q'|] eqn:Hq; [|done].
      apply try_into_Some in Hq as [Hq ->]. unfold in_u, u_bound in Hq. intros [= Hmodq].
      assert (q = e - first_epoch_number self) as Hqe.
      { rewrite <-Hmodq in He |- *.
        destruct (Z_lt_ge_dec (first_epoch_number self + q) (2 ^ 32)).
        - rewrite Z.mod_small in *; lia.
        - rewrite (Z.mod_eq _ (2 ^ 32)) in He by lia.
          assert ((first_epoch_number self + q) / 2 ^ 32 = 1) as Hd.
          { symmetry. apply (Z.div_unique_pos _ _ _ (first_epoch_number self + q - 2 ^ 32)); lia. }
          rewrite Hd in He. lia. }
      nia.
    + intros Hb. assert (q = e - first_epoch_number self) as Hqe by nia.
      rewrite (proj2 (try_into_Some 32 q q)) by (unfold in_u, u_bound; lia).
      rewrite Z.mod_small by lia. do 2 f_equal. lia.
  - apply checked_sub_None in Es. split; [done|nia].
Qed.

End Derivation.

(** ** Properties *)

(** C39. A timestamp is assigned epoch [e] exactly when it lies in the half-open
    interval between the starts of [e] and [e + 1], for the [2 ^ 31] epochs from
    the first one on; a timestamp before them is refused as too small, one after
    them as too big, and no well-formed configuration makes the derivation
    panic. Epoch numbers are documented to be at most [2 ^ 31 - 1]; the bound is
    on the number of epochs that passed, so that, unless the first epoch is 0,
    there are timestamps, exactly those from the start of epoch [2 ^ 31] on,
    whose epoch is beyond the documented range. *)
Theorem timestamp_epoch_interval self timestamp :
  epoch_config_wf self →
  let last := first_epoch_number self + i32_max in
  timestamp_to_mainchain_epoch self timestamp ≠ Panic ∧
  (∀ e, timestamp_to_mainchain_epoch self timestamp = Ret (Ok e) ↔
    first_epoch_number self ≤ e ≤ last ∧ epoch_start self e ≤ timestamp < epoch_start self (e + 1)) ∧
  (∀ e, timestamp_to_mainchain_epoch self timestamp = Ret (Err e) ↔
    e = TimestampTooSmall ∧ timestamp < epoch_start self (first_epoch_number self) ∨
    e = EpochTooBig ∧ epoch_start self (last + 1) ≤ timestamp) ∧
  ((∃ e, timestamp_to_mainchain_epoch self timestamp = Ret (Ok e) ∧ i32_max < e) ↔
    epoch_start self (i32_max + 1) ≤ timestamp < epoch_start self (last + 1)).
Proof.
  intros Hwf last. pose proof (timestamp_to_mainchain_epoch_spec self Hwf timestamp) as Hspec.
  pose proof (timestamp_to_mainchain_epoch_err self Hwf timestamp) as Herr.
  split_and!; [|done|done|].
  - unfold timestamp_to_mainchain_epoch, epochs_passed, checked_div. destruct Hwf.
    repeat (case_match; simpl; reflect_Z); try done; lia.
  - destruct Hwf as [Hd _ _ Hf _]. unfold epoch_start in *. split.
    + intros (e & [He Ht]%Hspec & Hbig). subst last. nia.
    + intros Ht. set (d := epoch_duration_millis self) in *. set (t := timestamp - first_epoch_timestamp_millis self).
      exists (first_epoch_number self + t / d). pose proof (Z.div_mod t d ltac:(lia)) as Hdm.
      pose proof (Z.mod_pos_bound t d ltac:(lia)) as Hmod. rewrite Hspec. subst last t. unfold i32_max in *. nia.
Qed.

(** [first_slot_of_epoch] and [epoch_for_slot] agree: a slot belongs to [e]
    exactly when it is one of the [slots_per_epoch] slots that start at the
    first slot of [e]. *)
Theorem epoch_for_slot_range self e slot first :
  epoch_config_wf self →
  first_epoch_number self ≤ e ≤ first_epoch_number self + i32_max →
  first_slot_number self + (e - first_epoch_number self) * slots_per_epoch self < u_bound 64 →
  first_slot_of_epoch self e = Ok first →
  epoch_for_slot self slot = Ret (Ok e) ↔ first ≤ slot < first + slots_per_epoch self.
Proof.
  intros Hwf He Hb. pose proof (slots_per_epoch_pos self Hwf).
  rewrite (epoch_for_slot_spec self Hwf) by done. destruct Hwf as [_ _ _ _ [? ?]].
  unfold first_slot_of_epoch. rewrite (proj2 (checked_sub_Some _ _ _)) by eauto with lia.
  simpl. intros [= <-].
  rewrite (wmul_exact 64) by (unfold in_u; nia).
  rewrite (wadd_exact 64) by (unfold in_u; nia). lia.
Qed.

(** With the one-second slots of Cardano and epochs of a whole number of
    seconds, deriving the epoch of a timestamp directly or through its slot
    gives the same epoch. *)
Theorem slot_and_timestamp_epochs_agree self timestamp e :
  epoch_config_wf self →
  slot_duration_millis self = 1000 →
  (1000 | epoch_duration_millis self) →
  timestamp_to_mainchain_epoch self timestamp = Ret (Ok e) →
  first_slot_number self + timestamp < u_bound 64 →
  (slot ←? timestamp_to_mainchain_slot_number self timestamp; epoch_for_slot self slot)
  = Ret (Ok e).
Proof.
  intros Hwf Hslot [n Hn] Ht Hb.
  apply (timestamp_to_mainchain_epoch_spec self Hwf) in Ht as [He Ht]. unfold epoch_start in Ht.
  pose proof Hwf as [[Hd _] _ [Hts _] _ [Hfs _]].
  unfold timestamp_to_mainchain_slot_number, checked_div.
  rewrite (proj2 (checked_sub_Some _ _ _)) by (split; [nia|done]).
  rewrite Hslot. simpl. set (t := timestamp - first_epoch_timestamp_millis self) in *.
  assert (0 ≤ t) by nia.
  pose proof (Z.div_mod t 1000) as Hdm. pose proof (Z.mod_pos_bound t 1000) as Hm.
  set (q := t / 1000) in *. set (r := t mod 1000) in *.
  rewrite wadd_exact by (unfold in_u; lia).
  apply (epoch_for_slot_spec self Hwf); [done|].
  unfold slots_per_epoch. rewrite Hn, Z.div_mul by lia. nia.
Qed.

(** The timestamp that [mainchain_epoch_to_timestamp] gives for [epoch] is
    the start of epoch [first_epoch_number + epoch]: it is the start of [epoch]
    itself, as documented, only when the first epoch has number 0. *)
Theorem mainchain_epoch_to_timestamp_shifted self epoch :
  epoch_config_wf self →
  0 ≤ epoch ≤ i32_max →
  first_epoch_timestamp_millis self + epoch * epoch_duration_millis self < u_bound 64 →
  timestamp_to_mainchain_epoch self (mainchain_epoch_to_timestamp self epoch)
    = Ret (Ok (first_epoch_number self + epoch)) ∧
  (mainchain_epoch_to_timestamp self epoch = epoch_start self epoch ↔
   first_epoch_number self = 0).
Proof.
  intros Hwf He Hb. pose proof Hwf as [[Hd ?] _ [? ?] _ _].
  unfold mainchain_epoch_to_timestamp.
  rewrite (wmul_exact 64) by (unfold in_u; nia).
  rewrite wadd_exact by (unfold in_u; nia).
  rewrite (timestamp_to_mainchain_epoch_spec self Hwf).
  unfold epoch_start. split; [split; [lia|nia]|nia].
Qed.

(** ** Witnesses: the parameters of the Cardano mainnet in the Shelley era *)

Definition mainnet : MainchainEpochConfig :=
  mkEpochConfig 432000000 1000 1596059091000 208 4492800.

Lemma mainnet_wf : epoch_config_wf mainnet.
Proof. split; vm_compute; split; congruence. Qed.

Lemma timestamp_epoch_interval_witness :
  timestamp_to_mainchain_epoch mainnet 1596491091000 = Ret (Ok 209).
Proof.
  apply (proj1 (proj2 (timestamp_epoch_interval mainnet 1596491091000 mainnet_wf))).
  vm_compute. repeat split; congruence.
Defined.

Lemma epoch_for_slot_range_witness : epoch_for_slot mainnet 4924800 = Ret (Ok 209).
Proof.
  apply (epoch_for_slot_range mainnet 209 4924800 4924800 mainnet_wf);
    [vm_compute; split; congruence|reflexivity|reflexivity|vm_compute; split; congruence].
Defined.

Lemma slot_and_timestamp_epochs_agree_witness :
  (slot ←? timestamp_to_mainchain_slot_number mainnet 1596491091999; epoch_for_slot mainnet slot)
  = Ret (Ok 209).
Proof.
  apply (slot_and_timestamp_epochs_agree mainnet 1596491091999 209 mainnet_wf);
    [reflexivity|by exists 432000|reflexivity|reflexivity].
Defined.

Lemma mainchain_epoch_to_timestamp_shifted_witness :
  timestamp_to_mainchain_epoch mainnet (mainchain_epoch_to_timestamp mainnet 208) = Ret (Ok 416).
Proof.
  apply (mainchain_epoch_to_timestamp_shifted mainnet 208 mainnet_wf);
    [vm_compute; split; congruence|reflexivity].
Defined.
