(* ===== verification/WeightedRandom.v ===== *)
(** * Weighted random selection

    Models [toolkit/committee-selection/selection/src/weighted_random.rs].  The
    ChaCha20 generator comes from the [rand] crates: it is the class [Rng], with
    the behaviour those crates document as [RngLaws]. *)

From S2P Require Import Prelude Domain.

(** ** The random number generator *)

Class Rng (R : Type) := {
  from_seed : bytes → R;
  get_seed : R → bytes;
  (** [rng.random_range(0..n)] for a non-empty range, with the next state *)
  random_range : Z → R → Z * R;
  (** [slice.shuffle(rng)] *)
  shuffle : ∀ {A : Type}, list A → R → list A * R;
}.

Class RngLaws (R : Type) `{Rng R} := {
  random_range_bounds n r : 0 < n → 0 ≤ (random_range n r).1 < n;
  shuffle_Permutation {A} (l : list A) r : (shuffle l r).1 ≡ₚ l;
  get_seed_from_seed s : get_seed (from_seed s) = s;
}.

(** ** The algorithm *)

Abbreviation Weight := Z.

Section WeightedRandom.
Context `{Rng R} {T : Type}.
Implicit Types candidates : list (T * Weight).

(** The [for] loop of [select_with_weight]. *)
Fixpoint pick (index : nat) (cumulative_weight random_number : Weight) candidates : outcome nat :=
  match candidates with
  | [] => Panic
  | (_, weight) :: rest =>
      let cumulative_weight := wadd 128 cumulative_weight weight in
      if random_number <? cumulative_weight then Ret index
      else pick (S index) cumulative_weight random_number rest
  end.

Definition select_with_weight candidates (total_weight : Weight) (rand : R) : outcome (nat * R) :=
  if total_weight <=? 0 then Panic
  else
    let '(random_number, rand) := random_range total_weight rand in
    index ← pick 0 0 random_number candidates;
    Ret (index, rand).

(** The [while] loop of [select_authorities]: every iteration adds a member, so
    [size] iterations are enough. *)
Fixpoint select_while (fuel : nat) candidates (total_weight : Weight) (size : nat)
    (committee : list T) (rng : R) : outcome (list T) :=
  if bool_decide (length committee < size)%nat && negb (is_empty candidates) then
    match fuel with
    | O => Ret committee
    | S fuel =>
        '(selected_index, rng) ← select_with_weight candidates total_weight rng;
        selected ← expect (candidates !! selected_index);
        select_while fuel candidates total_weight size (committee ++ [selected.1]) rng
    end
  else Ret committee.

Definition select_authorities (weighted_candidates : list (T * Weight)) (seed : bytes) (size : Z) :
    outcome (option (list T)) :=
  let size := Z.to_nat size in
  let total_weight := wsum 128 (snd <$> weighted_candidates) in
  let rng := from_seed seed in
  committee ← select_while size weighted_candidates total_weight size [] rng;
  Ret (if decide (size ≤ length committee)%nat then Some committee else None).

(** ** The choice of one member *)

Lemma pick_ge index cum r candidates i : pick index cum r candidates = Ret i → (index ≤ i)%nat.
Proof.
  revert index cum. induction candidates as [|[c w] l IH]; intros index cum; simpl; [done|].
  case_match; [intros [= ->]; lia|]. intros ?%IH. lia.
Qed.

(** Candidate [i] is chosen exactly by the random numbers of its own segment of
    the cumulative weights. *)
Lemma pick_spec index cum r candidates i :
  Forall (λ w, 0 ≤ w) candidates.*2 →
  0 ≤ cum ≤ r → cum + zsum candidates.*2 < u_bound 128 →
  pick index cum r candidates = Ret (index + i)%nat ↔
  (i < length candidates)%nat ∧
  cum + zsum (take i candidates.*2) ≤ r < cum + zsum (take (S i) candidates.*2).
Proof.
  revert index cum i. induction candidates as [|[c w] l IH]; intros index cum i; csimpl.
  { intros. rewrite take_nil. simpl. split; [done|lia]. }
  intros [Hw Hl]%Forall_cons Hcum Hb. pose proof (zsum_nonneg _ Hl) as Hpos.
  rewrite wadd_exact by (unfold in_u; lia).
  destruct (Z.ltb_spec r (cum + w)) as [Hlt|Hge].
  - destruct i as [|i]; csimpl.
    + rewrite Nat.add_0_r. split; [intros _; split; lia|done].
    + split; [intros [= ?]; lia|]. intros [_ [Hr _]].
      pose proof (zsum_nonneg (take i l.*2) (Forall_take _ _ _ Hl)). lia.
  - destruct i as [|i]; csimpl.
    + split; [intros ?%pick_ge; lia|lia].
    + replace (index + S i)%nat with (S index + i)%nat by lia.
      rewrite IH by (try done; lia). simpl. lia.
Qed.

Lemma pick_total r candidates :
  Forall (λ w, 0 ≤ w) candidates.*2 →
  0 ≤ r < zsum candidates.*2 → zsum candidates.*2 < u_bound 128 →
  ∃ i c w, pick 0 0 r candidates = Ret i ∧ candidates !! i = Some (c, w) ∧ 0 < w.
Proof.
  intros Hw. cut (∀ index cum, 0 ≤ cum ≤ r → cum + zsum candidates.*2 < u_bound 128 →
    r < cum + zsum candidates.*2 → ∃ i c w,
      pick index cum r candidates = Ret (index + i)%nat ∧ candidates !! i = Some (c, w) ∧ 0 < w).
  { intros Hgen Hr Hb. apply (Hgen 0%nat 0); lia. }
  induction candidates as [|[c w] l IH]; csimpl; intros index cum Hcum Hb Hr; [lia|].
  rewrite fmap_cons in Hw. apply Forall_cons in Hw as [Hw Hl]. simpl in Hw. pose proof (zsum_nonneg _ Hl).
  rewrite wadd_exact by (unfold in_u; lia).
  destruct (Z.ltb_spec r (cum + w)) as [Hlt|Hge].
  - exists 0%nat, c, w. rewrite Nat.add_0_r. split_and!; [done..|lia].
  - destruct (IH Hl (S index) (cum + w)) as (i & c' & w' & Hp & Hi & Hpos); [lia..|].
    exists (S i), c', w'. by rewrite Nat.add_succ_r.
Qed.

Lemma select_with_weight_total `{!RngLaws R} candidates rng :
  Forall (λ w, 0 ≤ w) candidates.*2 →
  0 < zsum candidates.*2 < u_bound 128 →
  ∃ i c w rng', select_with_weight candidates (zsum candidates.*2) rng = Ret (i, rng') ∧
    candidates !! i = Some (c, w) ∧ 0 < w.
Proof.
  intros Hw [Hpos Hb]. unfold select_with_weight.
  destruct (Z.leb_spec (zsum candidates.*2) 0); [lia|].
  pose proof (random_range_bounds (zsum candidates.*2) rng Hpos) as Hr.
  destruct (random_range _ rng) as [r rng']. simpl in Hr.
  destruct (pick_total r candidates) as (i & c & w & Hp & Hi & Hwpos); [done..|].
  exists i, c, w, rng'. by rewrite Hp.
Qed.

(** ** The whole committee *)

(** [c] is a candidate with a positive weight. *)
Definition eligible candidates (c : T) : Prop := ∃ w, (c, w) ∈ candidates ∧ 0 < w.

Lemma select_while_total `{!RngLaws R} fuel candidates size committee rng :
  Forall (λ w, 0 ≤ w) candidates.*2 →
  0 < zsum candidates.*2 < u_bound 128 →
  (length committee ≤ size)%nat → (size ≤ length committee + fuel)%nat →
  Forall (eligible candidates) committee →
  ∃ committee', select_while fuel candidates (zsum candidates.*2) size committee rng = Ret committee' ∧
    length committee' = size ∧ Forall (eligible candidates) committee'.
Proof.
  intros Hw Hs. revert committee rng.
  induction fuel as [|fuel IH]; intros committee rng Hle Hf He; simpl.
  { case_match; exists committee; (split_and!; [done|lia|done]). }
  destruct (bool_decide_reflect (length committee < size)%nat) as [Hlt|Hge]; simpl.
  - assert (is_empty candidates = false) as -> by (destruct candidates; [simpl in Hs; lia|done]).
    destruct (select_with_weight_total candidates rng Hw Hs) as (i & c & w & rng' & Hsel & Hi & Hpos).
    simpl. rewrite Hsel. simpl. rewrite Hi. simpl. apply IH.
    + rewrite length_app. simpl. lia.
    + rewrite length_app. simpl. lia.
    + apply Forall_app. split; [done|]. apply Forall_singleton. exists w.
      split; [by eapply list_elem_of_lookup_2|done].
  - exists committee. split_and!; [done|lia|done].
Qed.

Lemma select_authorities_total `{!RngLaws R} candidates seed size :
  0 ≤ size → Forall (λ w, 0 ≤ w) candidates.*2 →
  0 < zsum candidates.*2 < u_bound 128 →
  ∃ committee, select_authorities candidates seed size = Ret (Some committee) ∧
    length committee = Z.to_nat size ∧ Forall (eligible candidates) committee.
Proof.
  intros Hsize Hw Hs. unfold select_authorities. rewrite wsum_exact by (done || lia).
  destruct (select_while_total (Z.to_nat size) candidates (Z.to_nat size) [] (from_seed seed))
    as (committee & -> & Hlen & He); [done|done|simpl; lia..|done|].
  exists committee. simpl. rewrite decide_True by lia. done.
Qed.

(** Without candidates nobody can be selected. *)
Lemma select_authorities_nil seed size :
  select_authorities [] seed size = Ret (if decide (Z.to_nat size = 0)%nat then Some [] else None).
Proof.
  unfold select_authorities.
  assert (∀ fuel total n rng, select_while fuel [] total n [] rng = Ret []) as Hw.
  { intros [|fuel] *; simpl; by rewrite andb_false_r. }
  rewrite Hw. simpl. repeat case_decide; try done; lia.
Qed.

(** ** Properties *)

(** When the candidates have a positive total weight that fits [u128], the
    selection returns a committee of exactly the requested size, made of
    candidates with positive weight only; it does not panic and does not run
    forever. *)
Theorem weighted_random_committee `{!RngLaws R} candidates seed size :
  0 ≤ size → Forall (λ w, 0 ≤ w) candidates.*2 →
  0 < zsum candidates.*2 < u_bound 128 →
  ∃ committee, select_authorities candidates seed size = Ret (Some committee) ∧
    length committee = Z.to_nat size ∧
    ∀ c, c ∈ committee → ∃ w, (c, w) ∈ candidates ∧ 0 < w.
Proof.
  intros Hsize Hw Hs.
  destruct (select_authorities_total candidates seed size) as (cm & Hc & Hl & He); [done..|].
  exists cm. split_and!; [done..|]. intros c Hin. by apply (proj1 (Forall_forall _ _) He).
Qed.

(** Of the [W] numbers that [random_range(0..W)] can return, exactly [w]
    select a candidate of weight [w]: with a uniform generator its probability
    of getting a seat is [w / W]. *)
Theorem weighted_random_distribution candidates i c w :
  Forall (λ w, 0 ≤ w) candidates.*2 →
  zsum candidates.*2 < u_bound 128 →
  candidates !! i = Some (c, w) →
  Z.of_nat (length (filter (λ r, pick 0 0 r candidates = Ret i) (seqZ 0 (zsum candidates.*2)))) = w.
Proof.
  intros Hw Hb Hi. set (ws := candidates.*2) in *.
  assert (ws !! i = Some w) as Hwi by (unfold ws; by rewrite list_lookup_fmap, Hi).
  assert (zsum (take (S i) ws) = zsum (take i ws) + w) as HS.
  { rewrite (take_S_r _ _ _ Hwi), zsum_app. simpl. lia. }
  assert (zsum ws = zsum (take (S i) ws) + zsum (drop (S i) ws)) as Hsplit.
  { by rewrite <-zsum_app, take_drop. }
  pose proof (zsum_nonneg _ (Forall_take _ i _ Hw)). pose proof (zsum_nonneg _ (Forall_drop _ (S i) _ Hw)).
  pose proof (Forall_lookup_1 _ _ _ _ Hw Hwi) as Hw0. simpl in Hw0.
  rewrite (list_filter_iff_elem _ (λ r, zsum (take i ws) ≤ r < zsum (take (S i) ws))).
  - rewrite length_filter_seqZ; lia.
  - intros r [Hr0 Hr1]%elem_of_seqZ. rewrite (pick_spec 0 0 r candidates i) by (done || lia).
    fold ws. apply lookup_lt_Some in Hi. lia.
Qed.

End WeightedRandom.

(** ** Witnesses: a generator that counts *)

#[export] Instance counting_rng : Rng (bytes * Z) := {|
  from_seed s := (s, zsum s);
  get_seed r := r.1;
  random_range n r := (r.2 mod n, (r.1, r.2 + 1));
  shuffle A l r := (reverse l, r);
|}.

#[export] Instance counting_rng_laws : RngLaws (bytes * Z).
Proof.
  split.
  - intros n r Hn. simpl. by apply Z.mod_pos_bound.
  - intros A l r. simpl. apply reverse_Permutation.
  - done.
Qed.

Definition three_candidates : list (string * Weight) := [("a", 3); ("b", 0); ("c", 2)]%string.

Lemma weighted_random_committee_witness :
  ∃ committee, select_authorities three_candidates [7] 4 = Ret (Some committee) ∧
    length committee = 4%nat ∧ "b"%string ∉ committee.
Proof.
  destruct (weighted_random_committee three_candidates [7] 4) as (cm & Hc & Hl & He).
  - done.
  - repeat constructor; done.
  - done.
  - exists cm. split_and!; [done..|]. intros (w & Hin & Hw)%He.
    unfold three_candidates in Hin.
    repeat (apply elem_of_cons in Hin as [Hin|Hin]; [simplify_eq; lia|]). by apply elem_of_nil in Hin.
Defined.

Lemma weighted_random_distribution_witness :
  Z.of_nat (length (filter (λ r, pick 0 0 r three_candidates = Ret 2%nat) (seqZ 0 5))) = 2.
Proof.
  apply (weighted_random_distribution three_candidates 2 "c"%string 2);
    [repeat constructor; done|done|done].
Defined.
