(* ===== verification/Ariadne.v ===== *)
(** * Ariadne: weighted selection from two pools

    Models [toolkit/committee-selection/selection/src/ariadne.rs]. *)

From S2P Require Import Prelude Domain WeightedRandom.

Section Ariadne.
Context `{Rng R} {SC : Type} `{EqDecision SC, Ord SC}.

Definition trustless_candidates_with_weights (trustless_candidates : list (SC * Weight))
    (num_trustless_candidates : Z) (permissioned_candidates_count : nat) : list (SC * Weight) :=
  let weight_factor :=
    if decide (0 < permissioned_candidates_count)%nat
    then wmul 128 num_trustless_candidates (Z.of_nat permissioned_candidates_count)
    else 1 in
  (λ '(c, weight), (c, wmul 128 weight weight_factor)) <$> trustless_candidates.

Definition permissioned_candidates_with_weights (permissioned_candidates : list SC)
    (num_permissioned_candidates num_trustless_candidates total_stake : Z) : list (SC * Weight) :=
  let weight :=
    if (0 <? total_stake) && (0 <? num_trustless_candidates)
    then wmul 128 num_permissioned_candidates total_stake
    else 1 in
  (λ c, (c, weight)) <$> permissioned_candidates.

(** The weighted pool that [select_authorities] draws from, before sorting. *)
Definition weighted_pool (num_trustless_candidates num_permissioned_candidates : Z)
    (trustless_candidates : list (SC * Weight)) (permissioned_candidates : list SC) :
    list (SC * Weight) :=
  let total_stake := wsum 128 trustless_candidates.*2 in
  trustless_candidates_with_weights trustless_candidates num_trustless_candidates
    (length permissioned_candidates)
  ++ permissioned_candidates_with_weights permissioned_candidates num_permissioned_candidates
       num_trustless_candidates total_stake.

Definition select_authorities (num_trustless_candidates num_permissioned_candidates : Z)
    (trustless_candidates : list (SC * Weight)) (permissioned_candidates : list SC)
    (seed : bytes) : outcome (option (list SC)) :=
  let committee_size := wadd 16 num_trustless_candidates num_permissioned_candidates in
  let weighted_candidates :=
    weighted_pool num_trustless_candidates num_permissioned_candidates
      trustless_candidates permissioned_candidates in
  WeightedRandom.select_authorities (sort weighted_candidates) seed committee_size.

(** ** The weights of the pool *)

Section Pool.
Context (t p : Z) (tc : list (SC * Weight)) (pc : list SC).
Let n := Z.of_nat (length pc).
Let stake := zsum tc.*2.

(** The inputs of a selection whose weights fit [u128]. *)
Record pool_bounds : Prop := {
  pool_t : 0 ≤ t;
  pool_p : 0 ≤ p;
  pool_stakes : Forall (λ w, 0 ≤ w) tc.*2;
  pool_fits : Z.max 1 n * Z.max 1 stake * Z.max 1 (t + p) < u_bound 128;
}.
Hypothesis Hb : pool_bounds.

Lemma pool_stake_nonneg : 0 ≤ stake.
Proof. apply zsum_nonneg, Hb. Qed.

Lemma pool_product_fits a b c :
  0 ≤ a ≤ Z.max 1 n → 0 ≤ b ≤ Z.max 1 stake → 0 ≤ c ≤ Z.max 1 (t + p) → in_u 128 (a * b * c).
Proof.
  intros Ha Hb' Hc. destruct Hb as [_ _ _ Hfit]. split; [nia|].
  eapply Z.le_lt_trans; [|exact Hfit]. apply Z.mul_le_mono_nonneg; [nia| |lia|lia].
  apply Z.mul_le_mono_nonneg; lia.
Qed.

Lemma pool_total_stake : wsum 128 tc.*2 = stake.
Proof.
  apply wsum_exact; [done|apply Hb|].
  pose proof pool_stake_nonneg. pose proof (pool_product_fits 1 stake 1) as [_ ?]; lia.
Qed.

Lemma trustless_weights_eq :
  trustless_candidates_with_weights tc t (length pc) =
  (λ '(c, w), (c, w * if decide (pc = []) then 1 else t * n)) <$> tc.
Proof.
  unfold trustless_candidates_with_weights. apply list_fmap_ext. intros i [c w] Hi. f_equal.
  pose proof (pool_stakes Hb) as Hs. pose proof (pool_t Hb). pose proof (pool_p Hb).
  assert (w ∈ tc.*2) as Hw by (apply list_elem_of_lookup_2 with i; by rewrite list_lookup_fmap, Hi).
  pose proof (zsum_elem_le _ _ Hs Hw) as Hle. fold stake in Hle.
  pose proof (proj1 (Forall_forall _ _) Hs _ Hw). simpl in *.
  destruct (decide (pc = [])) as [Hnil|Hne].
  - rewrite decide_False by (rewrite Hnil; simpl; lia). apply wmul_exact.
    pose proof (pool_product_fits 1 w 1) as Hf. rewrite Z.mul_1_l in Hf. apply Hf; lia.
  - assert (0 < length pc)%nat by (apply Nat.neq_0_lt_0; by intros ?%nil_length_inv).
    rewrite decide_True by lia. fold n.
    rewrite (wmul_exact 128 t n)
      by (replace (t * n) with (n * 1 * t) by lia; apply pool_product_fits; lia).
    apply wmul_exact. replace (w * (t * n)) with (n * w * t) by lia. apply pool_product_fits; lia.
Qed.

Lemma permissioned_weights_eq :
  permissioned_candidates_with_weights pc p t stake =
  (λ c, (c, if decide (0 < stake ∧ 0 < t) then p * stake else 1)) <$> pc.
Proof.
  unfold permissioned_candidates_with_weights. pose proof (pool_t Hb). pose proof (pool_p Hb).
  destruct (decide (0 < stake ∧ 0 < t)) as [[Hs Ht]|Hz].
  - rewrite (proj2 (Z.ltb_lt _ _) Hs), (proj2 (Z.ltb_lt _ _) Ht). simpl.
    rewrite wmul_exact; [done|]. replace (p * stake) with (1 * stake * p) by lia.
    apply pool_product_fits; lia.
  - destruct (Z.ltb_spec 0 stake), (Z.ltb_spec 0 t); simpl; try done. lia.
Qed.

Lemma zsum_fmap_mul k (l : list (SC * Weight)) :
  zsum ((λ '(c, w), (c, w * k)) <$> l).*2 = zsum l.*2 * k.
Proof. induction l as [|[c w] l IH]; csimpl; [done|]. rewrite IH. lia. Qed.
Lemma zsum_fmap_const k (l : list SC) :
  zsum ((λ c, (c, k)) <$> l).*2 = Z.of_nat (length l) * k.
Proof. induction l as [|c l IH]; csimpl; [done|]. rewrite IH. lia. Qed.

(** Total weight of the pool. *)
Lemma weighted_pool_total :
  zsum (weighted_pool t p tc pc).*2 =
  stake * (if decide (pc = []) then 1 else t * n)
  + n * (if decide (0 < stake ∧ 0 < t) then p * stake else 1).
Proof.
  unfold weighted_pool. rewrite pool_total_stake, trustless_weights_eq, permissioned_weights_eq.
  rewrite fmap_app, zsum_app, zsum_fmap_mul, zsum_fmap_const. done.
Qed.

Lemma elem_of_weighted_pool c w :
  (c, w) ∈ weighted_pool t p tc pc ↔
  (∃ s, (c, s) ∈ tc ∧ w = s * if decide (pc = []) then 1 else t * n) ∨
  (c ∈ pc ∧ w = if decide (0 < stake ∧ 0 < t) then p * stake else 1).
Proof.
  unfold weighted_pool. rewrite pool_total_stake, trustless_weights_eq, permissioned_weights_eq.
  rewrite elem_of_app, !list_elem_of_fmap. split.
  - intros [([c' s] & [= <- ->] & Hin)|(c' & [= <- ->] & Hin)]; eauto.
  - intros [(s & Hin & ->)|[Hin ->]]; [left; by exists (c, s)|right; eauto].
Qed.

Lemma weighted_pool_nonneg : Forall (λ w, 0 ≤ w) (weighted_pool t p tc pc).*2.
Proof.
  pose proof (pool_t Hb). pose proof (pool_p Hb). pose proof pool_stake_nonneg.
  apply Forall_forall. intros w ([c w'] & -> & Hin)%list_elem_of_fmap. simpl.
  apply elem_of_weighted_pool in Hin as [(s & Hin & ->)|[_ ->]]; [|case_decide; nia].
  assert (0 ≤ s).
  { apply (proj1 (Forall_forall _ _) (pool_stakes Hb)), list_elem_of_fmap. by exists (c, s). }
  case_decide; nia.
Qed.

Lemma weighted_pool_positive :
  pc ≠ [] ∨ 0 < stake → 0 < zsum (weighted_pool t p tc pc).*2 < u_bound 128.
Proof.
  intros Hne. pose proof (pool_t Hb). pose proof (pool_p Hb). pose proof pool_stake_nonneg.
  rewrite weighted_pool_total.
  assert (∀ x, 0 < x → (∃ a b c, 0 ≤ a ≤ Z.max 1 n ∧ 0 ≤ b ≤ Z.max 1 stake ∧
    0 ≤ c ≤ Z.max 1 (t + p) ∧ x = a * b * c) → 0 < x < u_bound 128) as Hfit.
  { intros x Hx (a & b & c & Ha & Hb' & Hc & ->). split; [done|]. by apply pool_product_fits. }
  destruct (decide (pc = [])) as [Hpc|Hpc].
  - assert (n = 0) as -> by (unfold n; by rewrite Hpc). destruct Hne as [?|Hs]; [done|].
    apply Hfit; [nia|]. exists 1, stake, 1. lia.
  - assert (length pc ≠ 0%nat) by (by intros ?%nil_length_inv). assert (0 < n) by lia.
    case_decide; apply Hfit; try nia; [exists n, stake, (t + p)|exists n, 1, 1]; nia.
Qed.

End Pool.

(** ** Properties *)

(** Ariadne returns a committee of [T + P] members, each of them a candidate
    of one of the two pools, whenever there is a permissioned candidate or some
    stake and the weights fit [u128]. *)
Theorem ariadne_committee `{!RngLaws R} t p tc pc seed :
  pool_bounds t p tc pc → t + p < u_bound 16 →
  pc ≠ [] ∨ 0 < zsum tc.*2 →
  ∃ committee, select_authorities t p tc pc seed = Ret (Some committee) ∧
    length committee = Z.to_nat (t + p) ∧
    ∀ c, c ∈ committee → c ∈ tc.*1 ∨ c ∈ pc.
Proof.
  intros Hb Htp Hne. pose proof (pool_t _ _ _ _ Hb). pose proof (pool_p _ _ _ _ Hb).
  unfold select_authorities. rewrite wadd_exact by (unfold in_u; lia).
  set (pool := weighted_pool t p tc pc). assert (sort pool ≡ₚ pool) as Hsort by apply sort_Permutation.
  destruct (select_authorities_total (sort pool) seed (t + p)) as (cm & Hc & Hlen & He).
  - lia.
  - rewrite Hsort. by apply weighted_pool_nonneg.
  - rewrite (zsum_Permutation _ pool.*2) by (by rewrite Hsort). by apply weighted_pool_positive.
  - exists cm. split_and!; [done..|]. intros c Hin.
    destruct (proj1 (Forall_forall _ _) He c Hin) as (w & Hw & _). rewrite Hsort in Hw.
    apply (elem_of_weighted_pool _ _ _ _ Hb) in Hw as [(s & Hs & _)|[Hs _]]; [left|by right].
    apply list_elem_of_fmap. by exists (c, s).
Qed.

(** The weights realise the D-parameter exactly: of the total weight [W] of
    the pool, a registered candidate with stake [s] of [S] has the share
    [T / (T + P) * s / S] and each of [n] permissioned candidates the share
    [P / (T + P) / n]. *)
Theorem ariadne_ratio t p tc pc :
  pool_bounds t p tc pc → 0 < t → 0 < zsum tc.*2 → pc ≠ [] →
  let S := zsum tc.*2 in
  let n := Z.of_nat (length pc) in
  let W := zsum (weighted_pool t p tc pc).*2 in
  W = n * S * (t + p) ∧
  Forall2 (λ '(c, s) '(c', w), c' = c ∧ w * ((t + p) * S) = t * s * W)
    tc (trustless_candidates_with_weights tc t (length pc)) ∧
  Forall2 (λ c '(c', w), c' = c ∧ w * ((t + p) * n) = p * W)
    pc (permissioned_candidates_with_weights pc p t S).
Proof.
  intros Hb Ht Hs Hpc S n W.
  assert (W = n * S * (t + p)) as HW.
  { unfold W. rewrite (weighted_pool_total _ _ _ _ Hb), decide_False, decide_True by done. lia. }
  split_and!; [done|..].
  - rewrite (trustless_weights_eq t p tc pc Hb), decide_False by done. rewrite Forall2_fmap_r.
    apply Forall_Forall2_diag, Forall_forall. intros [c s] _. split; [done|].
    rewrite HW. fold n. lia.
  - unfold S. rewrite (permissioned_weights_eq t p tc pc Hb), decide_True by done. rewrite Forall2_fmap_r.
    apply Forall_Forall2_diag, Forall_forall. intros c _. split; [done|]. rewrite HW. fold S. lia.
Qed.

(** The selection depends on the candidates and not on the order in which
    they are listed. *)
Theorem ariadne_order_invariant t p tc tc' pc pc' seed :
  tc ≡ₚ tc' → pc ≡ₚ pc' →
  select_authorities t p tc pc seed = select_authorities t p tc' pc' seed.
Proof.
  intros Ht Hp. unfold select_authorities, weighted_pool.
  rewrite (wsum_Permutation 128 tc.*2 tc'.*2) by (done || by rewrite Ht).
  rewrite (Permutation_length Hp). f_equal. apply sort_Proper.
  unfold trustless_candidates_with_weights, permissioned_candidates_with_weights.
  by rewrite Ht, Hp.
Qed.

End Ariadne.

(** ** Witnesses *)

Definition registered_example : list (Z * Weight) := [(11, 30); (12, 10)].
Definition permissioned_example : list Z := [21; 22; 23].

Lemma example_bounds : pool_bounds 2 3 registered_example permissioned_example.
Proof. split; [done|done|repeat constructor; done|done]. Qed.

Lemma ariadne_committee_witness :
  ∃ committee, select_authorities 2 3 registered_example permissioned_example [5]
    = Ret (Some committee) ∧ length committee = 5%nat.
Proof.
  destruct (ariadne_committee 2 3 registered_example permissioned_example [5] example_bounds)
    as (cm & Hc & Hl & _); [done|by left|].
  exists cm. split; [exact Hc|exact Hl].
Defined.

Lemma ariadne_ratio_witness :
  zsum (weighted_pool 2 3 registered_example permissioned_example).*2 = 600.
Proof.
  apply (ariadne_ratio 2 3 registered_example permissioned_example example_bounds); done.
Defined.

Lemma ariadne_order_invariant_witness :
  select_authorities 2 3 [(11, 30); (12, 10)] [21; 22] [5]
  = select_authorities 2 3 [(12, 10); (11, 30)] [22; 21] [5].
Proof.
  apply (ariadne_order_invariant 2 3 [(11, 30); (12, 10)] _ [21; 22] _ [5]); apply Permutation_swap.
Defined.
