(* ===== verification/AriadneV2.v ===== *)
(** * Ariadne with guaranteed seats

    Models [toolkit/committee-selection/selection/src/ariadne_v2.rs].  Each pool
    first gives every candidate the whole part of its expected number of seats,
    then draws the remaining seats at random. *)

From S2P Require Import Prelude Domain WeightedRandom.

(** The runtime is compiled to 32-bit WebAssembly. *)
Definition usize_bits : Z := 32.

Section AriadneV2.
Context `{Rng R} {SC : Type} `{EqDecision SC, Ord SC}.
Implicit Types candidates : list (SC * Weight).

Record SelectGuaranteedResult := mkGuaranteed {
  selected : list SC;
  remaining : list (SC * Weight);
}.

(** The [for] loop of [select_guaranteed]. *)
Fixpoint guarantee_loop (threshold : Weight) (scaled : list (SC * Weight))
    (acc : SelectGuaranteedResult) : outcome SelectGuaranteedResult :=
  match scaled with
  | [] => Ret acc
  | (c, weight) :: scaled =>
      quotient ← checked_div weight threshold;
      guaranteed ← expect (try_into usize_bits quotient);
      let remaining_weight := weight mod threshold in
      guarantee_loop threshold scaled
        (mkGuaranteed (selected acc ++ replicate (Z.to_nat guaranteed) c)
           (if 0 <? remaining_weight then remaining acc ++ [(c, remaining_weight)]
            else remaining acc))
  end.

Definition select_guaranteed (weighted_candidates : list (SC * Weight)) (n : Z) :
    outcome SelectGuaranteedResult :=
  let threshold := wsum 128 weighted_candidates.*2 in
  let scale := n in
  let scaled_candidates :=
    (λ '(c, weight), (c, wmul 128 weight scale)) <$> filter (λ cw, 0 < cw.2) weighted_candidates in
  guarantee_loop threshold scaled_candidates (mkGuaranteed [] []).

Definition select_remaining (weighted_candidates : list (SC * Weight)) (n : Z) (rng : R) :
    outcome (list SC) :=
  selection ← WeightedRandom.select_authorities weighted_candidates (get_seed rng) n;
  Ret (default [] selection).

Definition weighted_with_guaranteed_assignment candidates (n : Z) (rng : R) : outcome (list SC) :=
  if is_empty candidates || (n =? 0) then Ret []
  else
    let candidates := sort candidates in
    result ← select_guaranteed candidates n;
    selected_count ← expect (try_into 16 (Z.of_nat (length (selected result))));
    rest ← select_remaining (remaining result) (wsub 16 n selected_count) rng;
    Ret (selected result ++ rest).

Definition select_authorities (registered_seats permissioned_seats : Z)
    (registered_candidates : list (SC * Weight)) (permissioned_candidates : list SC)
    (seed : bytes) : outcome (option (list SC)) :=
  let seats_total := wadd 16 permissioned_seats registered_seats in
  let rng := from_seed seed in
  let permissioned_candidates := (λ c, (c, 1)) <$> permissioned_candidates in
  selected ←
    (if negb (is_empty registered_candidates) && negb (is_empty permissioned_candidates) then
       registered_selected ←
         weighted_with_guaranteed_assignment registered_candidates registered_seats rng;
       permissioned_selected ←
         weighted_with_guaranteed_assignment permissioned_candidates permissioned_seats rng;
       Ret (registered_selected ++ permissioned_selected)
     else if is_empty registered_candidates then
       weighted_with_guaranteed_assignment permissioned_candidates seats_total rng
     else
       weighted_with_guaranteed_assignment registered_candidates seats_total rng);
  let '(selected, _) := shuffle selected rng in
  Ret (if is_empty selected && (0 <? seats_total) then None else Some selected).

(** ** Guaranteed seats *)

(** The number of seats of [c]. *)
Definition seats (c : SC) (l : list SC) : Z := Z.of_nat (length (filter (λ x, x = c) l)).

Lemma seats_app c l1 l2 : seats c (l1 ++ l2) = seats c l1 + seats c l2.
Proof. unfold seats. rewrite filter_app, length_app. lia. Qed.
Lemma seats_nonneg c l : 0 ≤ seats c l.
Proof. unfold seats. lia. Qed.
Lemma seats_replicate c k : seats c (replicate k c) = Z.of_nat k.
Proof.
  unfold seats. rewrite filter_all; [by rewrite length_replicate|].
  apply Forall_forall. by intros x [-> _]%elem_of_replicate.
Qed.
Lemma seats_Permutation c l1 l2 : l1 ≡ₚ l2 → seats c l1 = seats c l2.
Proof. intros Hl. unfold seats. by rewrite Hl. Qed.

(** What one scaled candidate contributes. *)
Definition guaranteed_of (th : Z) (cw : SC * Weight) : list SC :=
  replicate (Z.to_nat (cw.2 / th)) cw.1.
Definition remaining_of (th : Z) (cw : SC * Weight) : option (SC * Weight) :=
  if 0 <? cw.2 mod th then Some (cw.1, cw.2 mod th) else None.

Lemma guarantee_loop_spec th scaled acc :
  0 < th → Forall (λ cw, in_u usize_bits (cw.2 / th)) scaled →
  guarantee_loop th scaled acc =
  Ret (mkGuaranteed (selected acc ++ (scaled ≫= guaranteed_of th))
         (remaining acc ++ filter_map (remaining_of th) scaled)).
Proof.
  intros Hth Hs. revert acc. induction Hs as [|[c w] scaled Hw Hs IH]; intros [sel rem]; simpl.
  { by rewrite !app_nil_r. }
  unfold checked_div. destruct (Z.eqb_spec th 0); [lia|]. simpl in *.
  rewrite (proj2 (try_into_Some _ _ _)) by (split; [done|reflexivity]). simpl.
  rewrite IH. simpl. do 2 f_equal.
  - unfold guaranteed_of at 2. simpl. by rewrite <-app_assoc.
  - unfold remaining_of at 2. simpl. case_match; [by rewrite <-app_assoc|done].
Qed.

(** Whole parts and remainders add up to the scaled weights. *)
Lemma guaranteed_total th scaled :
  0 < th → Forall (λ cw, 0 ≤ cw.2) scaled →
  th * Z.of_nat (length (scaled ≫= guaranteed_of th)) + zsum (filter_map (remaining_of th) scaled).*2
  = zsum scaled.*2.
Proof.
  intros Hth. induction 1 as [|[c w] scaled Hw Hs IH]; csimpl; [lia|]. simpl in Hw.
  rewrite length_app. unfold guaranteed_of at 1. simpl. rewrite length_replicate.
  pose proof (Z.div_mod w th). pose proof (Z.div_pos w th). pose proof (Z.mod_pos_bound w th).
  rewrite Nat2Z.inj_add, Z2Nat.id, Z.mul_add_distr_l by lia.
  unfold remaining_of at 1. simpl. destruct (Z.ltb_spec 0 (w mod th)); csimpl; lia.
Qed.

Lemma remaining_nonneg th scaled :
  0 < th → Forall (λ w, 0 ≤ w) (filter_map (remaining_of th) scaled).*2.
Proof.
  intros Hth. apply Forall_forall.
  intros w ([c w'] & -> & ([c' v] & _ & Hr)%elem_of_filter_map)%list_elem_of_fmap.
  unfold remaining_of in Hr. case_match; simplify_eq/=. reflect_Z. lia.
Qed.

Lemma seats_guaranteed th scaled c w :
  (c, w) ∈ scaled → 0 ≤ w / th → w / th ≤ seats c (scaled ≫= guaranteed_of th).
Proof.
  intros (l1 & l2 & ->)%list_elem_of_split Hq. rewrite bind_app. csimpl.
  rewrite !seats_app. unfold guaranteed_of at 2. simpl. rewrite seats_replicate.
  pose proof (seats_nonneg c (l1 ≫= guaranteed_of th)).
  pose proof (seats_nonneg c (l2 ≫= guaranteed_of th)). lia.
Qed.

(** ** One pool *)

(** [l] fills [n] seats from [candidates], respecting their guaranteed seats. *)
Record fair_assignment candidates (n : Z) (l : list SC) : Prop := {
  fair_length : Z.of_nat (length l) = n;
  fair_members c : c ∈ l → ∃ w, (c, w) ∈ candidates ∧ 0 < w;
  fair_guaranteed c w : (c, w) ∈ candidates → n * w / zsum candidates.*2 ≤ seats c l;
}.

Lemma fair_assignment_Permutation candidates candidates' n l :
  candidates ≡ₚ candidates' → fair_assignment candidates n l → fair_assignment candidates' n l.
Proof.
  intros Hp [Hlen Hm Hg]. split; [done|..].
  - intros c (w & Hw & Hpos)%Hm. exists w. by rewrite <-Hp.
  - intros c w. rewrite <-Hp. apply Hg.
Qed.

Definition scale_positive (n : Z) candidates : list (SC * Weight) :=
  (λ '(c, w), (c, w * n)) <$> filter (λ cw, 0 < cw.2) candidates.

Lemma scale_positive_total n candidates :
  Forall (λ w, 0 ≤ w) candidates.*2 →
  zsum (scale_positive n candidates).*2 = n * zsum candidates.*2.
Proof.
  unfold scale_positive. induction candidates as [|[c w] l IH]; [simpl; lia|].
  rewrite fmap_cons. intros [Hw Hl]%Forall_cons. simpl in Hw. rewrite filter_cons. simpl.
  case_decide; csimpl; rewrite IH by done; [lia|]. assert (w = 0) as -> by lia. lia.
Qed.

Lemma elem_of_scale_positive n candidates c v :
  (c, v) ∈ scale_positive n candidates ↔ ∃ w, (c, w) ∈ candidates ∧ 0 < w ∧ v = w * n.
Proof.
  unfold scale_positive. rewrite list_elem_of_fmap. split.
  - intros ([c' w] & [= -> ->] & [Hw Hin]%list_elem_of_filter). eauto.
  - intros (w & Hin & Hw & ->). exists (c, w). by rewrite list_elem_of_filter.
Qed.

Section Pool.
Context (candidates : list (SC * Weight)) (n : Z).
Let W := zsum candidates.*2.
Let scaled := scale_positive n candidates.

Hypothesis Hn : 0 < n < u_bound 16.
Hypothesis Hw : Forall (λ w, 0 ≤ w) candidates.*2.
Hypothesis HW : 0 < W.
Hypothesis Hfit : n * W < u_bound 128.

Lemma pool_weight_le c w : (c, w) ∈ candidates → 0 ≤ w ≤ W.
Proof.
  intros Hin. assert (w ∈ candidates.*2) as Hin2 by (apply list_elem_of_fmap; by exists (c, w)).
  split; [by apply (proj1 (Forall_forall _ _) Hw)|by apply zsum_elem_le].
Qed.

Lemma pool_total_fits : W < u_bound 128.
Proof. nia. Qed.

Lemma scaled_quotients : Forall (λ cw, in_u usize_bits (cw.2 / W)) scaled.
Proof.
  apply Forall_forall. intros [c v] (w & Hin%pool_weight_le & Hpos & ->)%elem_of_scale_positive.
  simpl. split; [apply Z.div_pos; nia|]. eapply Z.le_lt_trans; [apply (Z.div_le_mono _ (W * n)); nia|].
  rewrite Z.mul_comm, Z.div_mul by lia. unfold u_bound, usize_bits in *. lia.
Qed.

Lemma scaled_nonneg : Forall (λ cw, 0 ≤ cw.2) scaled.
Proof.
  apply Forall_forall. intros [c v] (w & Hin & Hpos & ->)%elem_of_scale_positive. simpl. nia.
Qed.

Lemma select_guaranteed_eq :
  select_guaranteed candidates n =
  Ret (mkGuaranteed (scaled ≫= guaranteed_of W) (filter_map (remaining_of W) scaled)).
Proof.
  unfold select_guaranteed. rewrite wsum_exact by (done || apply pool_total_fits). fold W.
  rewrite (list_fmap_ext _ (λ '(c, w), (c, w * n))).
  - by rewrite guarantee_loop_spec by (done || apply scaled_quotients).
  - intros i [c w] Hi%list_elem_of_lookup_2. apply list_elem_of_filter in Hi as [_ Hi%pool_weight_le].
    f_equal. apply wmul_exact. split; nia.
Qed.

Lemma guaranteed_count :
  let k := Z.of_nat (length (scaled ≫= guaranteed_of W)) in
  k ≤ n ∧ zsum (filter_map (remaining_of W) scaled).*2 = W * (n - k).
Proof.
  intros k. pose proof (guaranteed_total W scaled HW scaled_nonneg) as Ht.
  unfold scaled in Ht at 3. rewrite scale_positive_total in Ht by done. fold W in Ht.
  pose proof (zsum_nonneg _ (remaining_nonneg W scaled HW)). fold k in Ht. nia.
Qed.

Lemma remaining_eligible c w :
  (c, w) ∈ filter_map (remaining_of W) scaled → ∃ w', (c, w') ∈ candidates ∧ 0 < w'.
Proof.
  intros ([c' v] & Hin & Hr)%elem_of_filter_map. unfold remaining_of in Hr.
  case_match; simplify_eq/=. apply elem_of_scale_positive in Hin as (w' & ? & ? & _). eauto.
Qed.

Lemma guaranteed_eligible c :
  c ∈ scaled ≫= guaranteed_of W → ∃ w', (c, w') ∈ candidates ∧ 0 < w'.
Proof.
  intros ([c' v] & Hc & Hin)%list_elem_of_bind. unfold guaranteed_of in Hc.
  apply elem_of_replicate in Hc as [-> _]. apply elem_of_scale_positive in Hin as (w' & ? & ? & _). eauto.
Qed.

Lemma guaranteed_seats c w :
  (c, w) ∈ candidates → n * w / W ≤ seats c (scaled ≫= guaranteed_of W).
Proof.
  intros Hin. pose proof (pool_weight_le _ _ Hin) as [H0w _]. rewrite Z.mul_comm.
  destruct (decide (w = 0)) as [->|Hne]; [apply seats_nonneg|].
  apply seats_guaranteed; [|apply Z.div_pos; nia].
  apply elem_of_scale_positive. exists w. split_and!; [done|lia|done].
Qed.

Lemma select_remaining_total `{!RngLaws R} rng :
  let k := Z.of_nat (length (scaled ≫= guaranteed_of W)) in
  ∃ l, select_remaining (filter_map (remaining_of W) scaled) (n - k) rng = Ret l ∧
    Z.of_nat (length l) = n - k ∧ ∀ c, c ∈ l → ∃ w, (c, w) ∈ candidates ∧ 0 < w.
Proof.
  intros k. destruct guaranteed_count as [Hk Hsum]. fold k in Hk, Hsum.
  unfold select_remaining. destruct (decide (n = k)) as [Heq|Hne].
  - assert (filter_map (remaining_of W) scaled = []) as ->.
    { destruct (filter_map (remaining_of W) scaled) as [|[c w] l] eqn:E; [done|].
      assert ((c, w) ∈ filter_map (remaining_of W) scaled) as Hin by (rewrite E; left).
      pose proof (remaining_nonneg W scaled HW) as Hnn. rewrite E in Hnn.
      rewrite fmap_cons in Hnn, Hsum. apply Forall_cons in Hnn as [_ Hnn].
      simpl in Hsum. pose proof (zsum_nonneg _ Hnn).
      apply elem_of_filter_map in Hin as ([c' v] & _ & Hr). unfold remaining_of in Hr.
      case_match; simplify_eq/=. reflect_Z. nia. }
    rewrite select_authorities_nil. rewrite decide_True by lia. exists []. split_and!; [done|simpl; lia|].
    by intros c ?%elem_of_nil.
  - destruct (select_authorities_total (filter_map (remaining_of W) scaled) (get_seed rng) (n - k))
      as (l & -> & Hlen & He).
    + lia.
    + by apply remaining_nonneg.
    + rewrite Hsum. split; [nia|]. eapply Z.le_lt_trans; [|exact Hfit]. nia.
    + exists l. split_and!; [done|lia|]. intros c Hc.
      destruct (proj1 (Forall_forall _ _) He c Hc) as (w & Hin & _). by eapply remaining_eligible.
Qed.

End Pool.

Lemma weighted_with_guaranteed_assignment_fair `{!RngLaws R} candidates n rng :
  0 ≤ n < u_bound 16 → Forall (λ w, 0 ≤ w) candidates.*2 →
  0 < zsum candidates.*2 → n * zsum candidates.*2 < u_bound 128 →
  ∃ l, weighted_with_guaranteed_assignment candidates n rng = Ret l ∧ fair_assignment candidates n l.
Proof.
  intros Hn Hw HW Hfit. unfold weighted_with_guaranteed_assignment.
  assert (is_empty candidates = false) as -> by (destruct candidates; [simpl in HW; lia|done]).
  destruct (Z.eqb_spec n 0) as [->|Hn0]; simpl.
  { exists []. split; [done|]. split; [done|by intros c ?%elem_of_nil|].
    intros. rewrite Z.mul_0_l, Z.div_0_l by lia. done. }
  assert (sort candidates ≡ₚ candidates) as Hs by apply sort_Permutation.
  assert (zsum (sort candidates).*2 = zsum candidates.*2) as HWs.
  { by rewrite Hs. }
  set (cs := sort candidates) in *. rewrite <-HWs in HW, Hfit. rewrite <-Hs in Hw.
  assert (0 < n < u_bound 16) as Hn' by lia.
  rewrite (select_guaranteed_eq cs n) by (done || lia). simpl.
  destruct (guaranteed_count cs n) as [Hk _]; [done..|].
  set (sel := scale_positive n cs ≫= guaranteed_of (zsum cs.*2)) in *.
  rewrite (proj2 (try_into_Some 16 (Z.of_nat (length sel)) (Z.of_nat (length sel))))
    by (split; [unfold in_u; lia|done]). simpl.
  rewrite wsub_exact by (unfold in_u; lia).
  destruct (select_remaining_total cs n) with (rng := rng) as (l & Hrem & Hlen & Hl); [done..|].
  fold sel in Hrem, Hlen. rewrite Hrem. exists (sel ++ l). split; [done|]. apply (fair_assignment_Permutation cs); [done|].
  split.
  - rewrite length_app. lia.
  - intros c [Hc|Hc]%elem_of_app; [by eapply guaranteed_eligible|by apply Hl].
  - intros c w Hin. rewrite seats_app. pose proof (seats_nonneg c l).
    assert (n * w / zsum cs.*2 ≤ seats c sel) by (apply guaranteed_seats; done || lia). lia.
Qed.

(** ** Both pools *)

Definition unit_weights (l : list SC) : list (SC * Weight) := (λ c, (c, 1)) <$> l.

Lemma unit_weights_total l : zsum (unit_weights l).*2 = Z.of_nat (length l).
Proof. unfold unit_weights. induction l as [|c l IH]; csimpl; [done|]. rewrite IH. lia. Qed.
Lemma unit_weights_nonneg l : Forall (λ w, 0 ≤ w) (unit_weights l).*2.
Proof. unfold unit_weights. induction l; csimpl; by constructor. Qed.
Lemma elem_of_unit_weights c w l : (c, w) ∈ unit_weights l ↔ c ∈ l ∧ w = 1.
Proof.
  unfold unit_weights. rewrite list_elem_of_fmap. split; [by intros (? & [= -> ->] & ?)|].
  intros [Hin ->]. eauto.
Qed.

(** A permissioned pool can always be filled fairly. *)
Lemma unit_weights_fair `{!RngLaws R} l n rng :
  l ≠ [] → Z.of_nat (length l) < u_bound 64 → 0 ≤ n < u_bound 16 →
  ∃ s, weighted_with_guaranteed_assignment (unit_weights l) n rng = Ret s ∧
    fair_assignment (unit_weights l) n s.
Proof.
  intros Hl Hlen Hn. assert (length l ≠ 0%nat) by (by intros ?%nil_length_inv).
  apply weighted_with_guaranteed_assignment_fair; rewrite ?unit_weights_total.
  - done.
  - apply unit_weights_nonneg.
  - lia.
  - unfold u_bound in *. nia.
Qed.

Lemma is_empty_unit_weights l : is_empty (unit_weights l) = is_empty l.
Proof. by destruct l. Qed.

Lemma shuffle_result `{!RngLaws R} (selected : list SC) seats_total rng :
  selected ≠ [] ∨ seats_total ≤ 0 →
  ∃ committee,
    (let '(selected, _) := shuffle selected rng in
     Ret (if is_empty selected && (0 <? seats_total) then None else Some selected))
    = Ret (Some committee) ∧ committee ≡ₚ selected.
Proof.
  intros Hne. pose proof (shuffle_Permutation selected rng) as Hp.
  destruct (shuffle selected rng) as [s r]. simpl in Hp. exists s. split; [|done].
  destruct s as [|x s]; simpl; [|done]. apply Permutation_nil_l in Hp. subst.
  destruct Hne as [?|?]; [done|]. by rewrite (proj2 (Z.ltb_ge _ _)) by lia.
Qed.

(** The selection in every case: it fails only when there is nobody to select. *)
Lemma select_authorities_outcome `{!RngLaws R} r p rc pc seed :
  0 ≤ r → 0 ≤ p → r + p < u_bound 16 →
  Forall (λ w, 0 < w) rc.*2 → (r + p) * zsum rc.*2 < u_bound 128 →
  Z.of_nat (length pc) < u_bound 64 →
  ∃ res, select_authorities r p rc pc seed = Ret res ∧
    (res = None ↔ rc = [] ∧ pc = [] ∧ 0 < r + p) ∧
    ∀ cm, res = Some cm →
      (rc ≠ [] ∨ pc ≠ [] → Z.of_nat (length cm) = r + p) ∧
      ∀ c, c ∈ cm → c ∈ rc.*1 ∨ c ∈ pc.
Proof.
  intros Hr Hp Hrp Hw Hfit Hlen.
  assert (Forall (λ w, 0 ≤ w) rc.*2) as Hw0 by (eapply Forall_impl; [exact Hw|]; simpl; lia).
  assert (rc ≠ [] → 0 < zsum rc.*2) as HW.
  { destruct rc as [|[c w] rc]; [done|]. intros _. csimpl in Hw. apply Forall_cons in Hw as [? ?].
    csimpl in Hw0. apply Forall_cons in Hw0 as [_ Hw0]. pose proof (zsum_nonneg _ Hw0). csimpl. lia. }
  assert (∀ n l, fair_assignment rc n l → ∀ c, c ∈ l → c ∈ rc.*1) as Hrc.
  { intros n l [_ Hm _] c (w & Hin & _)%Hm. apply list_elem_of_fmap. by exists (c, w). }
  assert (∀ n l, fair_assignment (unit_weights pc) n l → ∀ c, c ∈ l → c ∈ pc) as Hpc.
  { intros n l [_ Hm _] c (w & [Hin _]%elem_of_unit_weights & _)%Hm. done. }
  unfold select_authorities. fold (unit_weights pc). rewrite is_empty_unit_weights.
  rewrite wadd_exact, (Z.add_comm p r) by (unfold in_u; lia).
  set (run := λ l : list SC, let '(selected, _) := shuffle l (from_seed seed) in
    Ret (if is_empty selected && (0 <? r + p) then None else Some selected)).
  assert (∀ l, Z.of_nat (length l) = r + p → (∀ c, c ∈ l → c ∈ rc.*1 ∨ c ∈ pc) → rc ≠ [] ∨ pc ≠ [] →
    ∃ res, run l = Ret res ∧ (res = None ↔ rc = [] ∧ pc = [] ∧ 0 < r + p) ∧
    ∀ cm, res = Some cm → (rc ≠ [] ∨ pc ≠ [] → Z.of_nat (length cm) = r + p) ∧
      ∀ c, c ∈ cm → c ∈ rc.*1 ∨ c ∈ pc) as Hrun.
  { intros l Hl Hm Hne. destruct (shuffle_result l (r + p) (from_seed seed)) as (cm & Hsh & Hcm).
    { destruct l; [right; simpl in Hl; lia|by left]. }
    exists (Some cm). split; [exact Hsh|]. split; [split; [done|intros (-> & -> & _); by destruct Hne]|].
    intros ? [= <-]. split; [by rewrite Hcm|]. intros c. rewrite Hcm. apply Hm. }
  destruct rc as [|x rc'] eqn:Erc, pc as [|y pc'] eqn:Epc; simpl is_empty; cbn [negb andb].
  - (* nobody *)
    assert (weighted_with_guaranteed_assignment (unit_weights ([] : list SC)) (r + p) (from_seed seed) = Ret [])
      as -> by done.
    assert (run [] = Ret (if 0 <? r + p then None else Some [])) as Hnil.
    { unfold run. pose proof (shuffle_Permutation ([] : list SC) (from_seed seed)) as Hsh.
      destruct (shuffle [] (from_seed seed)) as [s r']. simpl in Hsh.
      by apply Permutation_nil_r in Hsh as ->. }
    exists (if 0 <? r + p then None else Some []). split; [exact Hnil|]. destruct (Z.ltb_spec 0 (r + p)).
    + split; [naive_solver|done].
    + split; [split; [done|lia]|]. intros ? [= <-]. split; [naive_solver|]. by intros c ?%elem_of_nil.
  - destruct (unit_weights_fair (y :: pc') (r + p) (from_seed seed)) as (l & -> & Hl); [done|done|lia|].
    apply Hrun; [apply Hl|intros c Hc; right; by eapply Hpc|by right].
  - destruct (weighted_with_guaranteed_assignment_fair (x :: rc') (r + p) (from_seed seed))
      as (l & -> & Hl); [lia|done|by apply HW|done|].
    apply Hrun; [apply Hl|intros c Hc; left; by eapply Hrc|by left].
  - assert (r * zsum (x :: rc').*2 < u_bound 128).
    { specialize (HW ltac:(done)). eapply Z.le_lt_trans; [|exact Hfit]. nia. }
    destruct (weighted_with_guaranteed_assignment_fair (x :: rc') r (from_seed seed))
      as (l1 & -> & Hl1); [lia|done|by apply HW|done|].
    destruct (unit_weights_fair (y :: pc') p (from_seed seed)) as (l2 & -> & Hl2); [done|done|lia|].
    apply (Hrun (l1 ++ l2)); [|intros c [Hc|Hc]%elem_of_app; [left; by eapply Hrc|right; by eapply Hpc]|by left].
    rewrite length_app. destruct Hl1, Hl2. lia.
Qed.

(** ** Properties *)

(** C10. With candidates of both kinds and some stake the committee has exactly
    [R + P] seats: [R] go to registered candidates and [P] to permissioned
    ones, every registered candidate with stake [w] of [W] gets at least
    [floor (R * w / W)] seats and every permissioned one of [n] at least
    [floor (P / n)]. *)
Theorem ariadne_v2_guarantees `{!RngLaws R} r p rc pc seed :
  0 ≤ r → 0 ≤ p → r + p < u_bound 16 →
  Forall (λ w, 0 ≤ w) rc.*2 → 0 < zsum rc.*2 → r * zsum rc.*2 < u_bound 128 →
  pc ≠ [] → Z.of_nat (length pc) < u_bound 64 →
  ∃ committee rs ps,
    select_authorities r p rc pc seed = Ret (Some committee) ∧ committee ≡ₚ rs ++ ps ∧
    Z.of_nat (length rs) = r ∧ (∀ c, c ∈ rs → ∃ w, (c, w) ∈ rc ∧ 0 < w) ∧
    (∀ c w, (c, w) ∈ rc → r * w / zsum rc.*2 ≤ seats c rs) ∧
    Z.of_nat (length ps) = p ∧ (∀ c, c ∈ ps → c ∈ pc) ∧
    (∀ c, c ∈ pc → p / Z.of_nat (length pc) ≤ seats c ps).
Proof.
  intros Hr Hp Hrp Hw HW Hfit Hpc Hlen.
  destruct (weighted_with_guaranteed_assignment_fair rc r (from_seed seed))
    as (rs & Hrs & [Hrl Hrm Hrg]); [lia|done..|].
  destruct (unit_weights_fair pc p (from_seed seed)) as (ps & Hps & [Hpl Hpm Hpg]); [done|done|lia|].
  destruct (shuffle_result (rs ++ ps) (wadd 16 p r) (from_seed seed)) as (cm & Hsh & Hcm).
  { rewrite wadd_exact by (unfold in_u; lia). destruct (rs ++ ps) eqn:E; [right|by left].
    apply app_nil in E as [-> ->]. simpl in *. lia. }
  exists cm, rs, ps. split_and!; try done.
  - unfold select_authorities. fold (unit_weights pc). rewrite is_empty_unit_weights.
    assert (is_empty rc = false) as -> by (destruct rc; [simpl in HW; lia|done]).
    assert (is_empty pc = false) as -> by (by destruct pc).
    simpl. rewrite Hrs. simpl. rewrite Hps. exact Hsh.
  - intros c (w & [Hin _]%elem_of_unit_weights & _)%Hpm. done.
  - intros c Hin. specialize (Hpg c 1). rewrite unit_weights_total, Z.mul_1_r in Hpg.
    apply Hpg. by apply elem_of_unit_weights.
Qed.

(** When one kind of candidates is missing, its seats go to the other kind:
    the committee still has [R + P] members, with the guaranteed seats computed
    for all of them. *)
Theorem ariadne_v2_single_pool `{!RngLaws R} r p rc pc seed :
  0 ≤ r → 0 ≤ p → r + p < u_bound 16 →
  (rc = [] ∧ pc ≠ [] ∧ Z.of_nat (length pc) < u_bound 64) ∨
  (pc = [] ∧ Forall (λ w, 0 ≤ w) rc.*2 ∧ 0 < zsum rc.*2 ∧ (r + p) * zsum rc.*2 < u_bound 128) →
  let pool := if is_empty rc then (λ c, (c, 1)) <$> pc else rc in
  ∃ committee, select_authorities r p rc pc seed = Ret (Some committee) ∧
    Z.of_nat (length committee) = r + p ∧
    (∀ c, c ∈ committee → ∃ w, (c, w) ∈ pool ∧ 0 < w) ∧
    (∀ c w, (c, w) ∈ pool → (r + p) * w / zsum pool.*2 ≤ seats c committee).
Proof.
  intros Hr Hp Hrp Hcase pool. fold (unit_weights pc) in pool.
  assert (∃ s, weighted_with_guaranteed_assignment pool (wadd 16 p r) (from_seed seed) = Ret s ∧
    fair_assignment pool (r + p) s) as (s & Hs & [Hsl Hsm Hsg]).
  { rewrite wadd_exact by (unfold in_u; lia). rewrite (Z.add_comm p r).
    destruct Hcase as [(-> & Hpc & Hlen)|(-> & Hw & HW & Hfit)]; subst pool; simpl.
    - apply unit_weights_fair; [done|done|lia].
    - assert (is_empty rc = false) as -> by (destruct rc; [simpl in HW; lia|done]).
      by apply weighted_with_guaranteed_assignment_fair; [lia|..]. }
  destruct (shuffle_result s (wadd 16 p r) (from_seed seed)) as (cm & Hsh & Hcm).
  { rewrite wadd_exact by (unfold in_u; lia). destruct s; [right; simpl in Hsl; lia|by left]. }
  exists cm. split_and!.
  - unfold select_authorities. fold (unit_weights pc). rewrite is_empty_unit_weights, <-Hsh.
    destruct Hcase as [(-> & _)|(-> & Hw & HW & _)]; subst pool; simpl in *; [by rewrite Hs|].
    rewrite andb_false_r. destruct rc; [simpl in HW; lia|]. simpl in *. by rewrite Hs.
  - by rewrite Hcm.
  - intros c. rewrite Hcm. apply Hsm.
  - intros c w. rewrite (seats_Permutation c _ _ Hcm). apply Hsg.
Qed.

(** C11. The selection does not depend on the order of either input vector. *)
Theorem ariadne_v2_order_invariant r p rc rc' pc pc' seed :
  rc ≡ₚ rc' → pc ≡ₚ pc' →
  select_authorities r p rc pc seed = select_authorities r p rc' pc' seed.
Proof.
  intros Hr Hp. unfold select_authorities. fold (unit_weights pc) (unit_weights pc').
  assert (unit_weights pc ≡ₚ unit_weights pc') as Hu by (unfold unit_weights; by rewrite Hp).
  assert (∀ l l' : list (SC * Weight), l ≡ₚ l' → is_empty l = is_empty l') as He.
  { intros l l' Hl. destruct l; [by apply Permutation_nil_l in Hl as <-|].
    destruct l'; [|done]. by apply Permutation_nil_r in Hl. }
  assert (∀ l l' n rng, l ≡ₚ l' → weighted_with_guaranteed_assignment l n rng
    = weighted_with_guaranteed_assignment l' n rng) as Hwg.
  { intros l l' n rng Hl. unfold weighted_with_guaranteed_assignment.
    by rewrite (He _ _ Hl), (sort_Proper _ _ Hl). }
  by rewrite (He _ _ Hr), (He _ _ Hu), (Hwg _ _ r _ Hr), (Hwg _ _ p _ Hu),
    (Hwg _ _ (wadd 16 p r) _ Hr), (Hwg _ _ (wadd 16 p r) _ Hu).
Qed.

(** If registered candidates exist but none of them has any weight, the
    seats of the registered pool are not filled at all: the committee has only
    the [P] permissioned seats instead of the documented [R + P]. *)
Theorem ariadne_v2_zero_stake `{!RngLaws R} r p rc pc seed :
  0 < r → 0 < p → r + p < u_bound 16 →
  rc ≠ [] → Forall (λ w, w = 0) rc.*2 →
  pc ≠ [] → Z.of_nat (length pc) < u_bound 64 →
  ∃ committee, select_authorities r p rc pc seed = Ret (Some committee) ∧
    Z.of_nat (length committee) = p.
Proof.
  intros Hr Hp Hrp Hrc Hw Hpc Hlen.
  assert (weighted_with_guaranteed_assignment rc r (from_seed seed) = Ret []) as Hrs.
  { unfold weighted_with_guaranteed_assignment.
    assert (is_empty rc = false) as -> by (by destruct rc).
    destruct (Z.eqb_spec r 0); [lia|]. simpl. unfold select_guaranteed.
    rewrite (filter_none _ (sort rc)).
    - simpl. unfold select_remaining. rewrite select_authorities_nil. by case_decide.
    - rewrite sort_Permutation. apply Forall_forall. intros [c w] Hin. simpl.
      assert (w = 0) as ->; [|lia].
      apply (proj1 (Forall_forall _ _) Hw), list_elem_of_fmap. by exists (c, w). }
  destruct (unit_weights_fair pc p (from_seed seed)) as (ps & Hps & [Hpl _ _]); [done|done|lia|].
  destruct (shuffle_result ps (wadd 16 p r) (from_seed seed)) as (cm & Hsh & Hcm).
  { left. intros ->. simpl in *. lia. }
  exists cm. split; [|by rewrite Hcm].
  unfold select_authorities. fold (unit_weights pc). rewrite is_empty_unit_weights.
  assert (is_empty rc = false) as -> by (by destruct rc).
  assert (is_empty pc = false) as -> by (by destruct pc).
  simpl. rewrite Hrs. simpl. rewrite Hps. exact Hsh.
Qed.

End AriadneV2.

(** ** Witnesses *)

Lemma ariadne_v2_guarantees_witness :
  ∃ committee, select_authorities 4 3 [(11, 30); (12, 10)] [21; 22] [5] = Ret (Some committee) ∧
    3 ≤ seats 11 committee.
Proof.
  destruct (ariadne_v2_guarantees 4 3 [(11, 30); (12, 10)] [21; 22] [5])
    as (cm & rs & ps & Hc & Hcm & _ & _ & Hg & _); [done|done|done|repeat constructor; done|done|done|done|done|].
  exists cm. split; [exact Hc|]. rewrite (seats_Permutation _ _ _ Hcm), seats_app.
  assert (3 ≤ seats 11 rs) by exact (Hg 11 30 ltac:(left)).
  pose proof (seats_nonneg 11 ps). lia.
Defined.

Lemma ariadne_v2_single_pool_witness :
  ∃ committee, select_authorities 4 3 [] [21; 22] [5] = Ret (Some committee) ∧
    Z.of_nat (length committee) = 7.
Proof.
  destruct (ariadne_v2_single_pool 4 3 [] [21; 22] [5]) as (cm & Hc & Hl & _);
    [done|done|done|by left|].
  exists cm. split; [exact Hc|exact Hl].
Defined.

Lemma ariadne_v2_order_invariant_witness :
  select_authorities 2 3 [(11, 30); (12, 10)] [21; 22] [5]
  = select_authorities 2 3 [(12, 10); (11, 30)] [22; 21] [5].
Proof.
  apply (ariadne_v2_order_invariant 2 3 [(11, 30); (12, 10)] _ [21; 22] _ [5]); apply Permutation_swap.
Defined.

Lemma ariadne_v2_zero_stake_witness :
  ∃ committee, select_authorities 2 1 [(11, 0)] [21] [5] = Ret (Some committee) ∧
    Z.of_nat (length committee) = 1.
Proof.
  apply (ariadne_v2_zero_stake 2 1 [(11, 0)] [21] [5]);
    [done|done|done|done|repeat constructor|done|done].
Defined.
