(* ===== verification/SessionEnv.v ===== *)
(** * The parts of FRAME that committee rotation calls

    [frame_system] counts the providers and consumers of an account and
    [pallet_session] registers session keys.  Both are libraries: their
    operations are the class [SessionOps] and what their documentation promises
    is the class [SessionLaws].  The file ends with a small model of the laws that
    evaluates. *)

From S2P Require Import Prelude Domain.

Class SessionOps (Sys AccountId Keys : Type) := {
  (** providers of an account, and its consumers other than its session keys *)
  providers : AccountId → Sys → Z;
  other_consumers : AccountId → Sys → Z;
  inc_providers : AccountId → Sys → Sys;
  dec_providers : AccountId → Sys → result unit Sys;
  (** [ValidatorId::try_from(account).ok()] followed by [load_keys] *)
  load_keys : AccountId → Sys → option Keys;
  (** the dispatchables, signed by the account; an error leaves no trace *)
  dispatch_set_keys : AccountId → Keys → Sys → result unit Sys;
  dispatch_purge_keys : AccountId → Sys → result unit Sys;
  (** whether two sets of session keys share a public key *)
  keys_conflict : Keys → Keys → bool;
}.

Class SessionLaws (Sys AccountId Keys : Type)
    `{EqDecision AccountId, SessionOps Sys AccountId Keys} := {
  providers_nonneg a s : 0 ≤ providers a s;
  other_consumers_nonneg a s : 0 ≤ other_consumers a s;
  consumers_need_providers a s : providers a s = 0 → other_consumers a s = 0;
  inc_providers_providers a b s :
    providers b (inc_providers a s) = providers b s + (if decide (a = b) then 1 else 0);
  inc_providers_consumers a b s : other_consumers b (inc_providers a s) = other_consumers b s;
  inc_providers_keys a b s : load_keys b (inc_providers a s) = load_keys b s;
  (** the last provider cannot leave while something consumes the account, and only
      then the call fails; one too many is logged and ignored *)
  dec_providers_Ok a s :
    is_ok (dec_providers a s) = true ↔
    (providers a s = 1 → load_keys a s = None ∧ other_consumers a s = 0);
  dec_providers_providers a b s s' :
    dec_providers a s = Ok s' →
    providers b s' = if decide (a = b) then Z.max 0 (providers a s - 1) else providers b s;
  dec_providers_consumers a b s s' :
    dec_providers a s = Ok s' → other_consumers b s' = other_consumers b s;
  dec_providers_keys a b s s' : dec_providers a s = Ok s' → load_keys b s' = load_keys b s;
  (** keys can be set for a provided account unless another account owns one *)
  set_keys_Ok a k s :
    0 < providers a s → other_consumers a s = 0 →
    (∀ b k', a ≠ b → load_keys b s = Some k' → keys_conflict k k' = false) →
    is_ok (dispatch_set_keys a k s) = true;
  set_keys_keys a b k s s' :
    dispatch_set_keys a k s = Ok s' →
    load_keys b s' = if decide (a = b) then Some k else load_keys b s;
  set_keys_providers a b k s s' :
    dispatch_set_keys a k s = Ok s' → providers b s' = providers b s;
  set_keys_consumers a b k s s' :
    dispatch_set_keys a k s = Ok s' → other_consumers b s' = other_consumers b s;
  (** purging fails only when there are no keys *)
  purge_keys_Err a s e : dispatch_purge_keys a s = Err e → load_keys a s = None;
  purge_keys_keys a b s s' :
    dispatch_purge_keys a s = Ok s' →
    load_keys b s' = if decide (a = b) then None else load_keys b s;
  purge_keys_providers a b s s' : dispatch_purge_keys a s = Ok s' → providers b s' = providers b s;
  purge_keys_consumers a b s s' :
    dispatch_purge_keys a s = Ok s' → other_consumers b s' = other_consumers b s;
}.

(** ** A model of the laws

    Accounts and keys are integers; keys conflict when they are equal. *)

Record AccountData := mkAccountData {
  ad_providers : Z;
  ad_consumers : Z;
  ad_keys : option Z;
}.

Definition ToySys := Z → AccountData.

(** An account without providers has no consumers. *)
Definition toy_consumers (d : AccountData) : Z :=
  if 0 <? ad_providers d then Z.max 0 (ad_consumers d) else 0.

Definition toy_put (a : Z) (d : AccountData) (s : ToySys) : ToySys :=
  λ b, if decide (a = b) then d else s b.

Definition toy_accounts : list Z := seqZ 0 32.

#[export] Instance toy_session_ops : SessionOps ToySys Z Z := {|
  providers a s := Z.max 0 (ad_providers (s a));
  other_consumers a s := toy_consumers (s a);
  inc_providers a s :=
    toy_put a (mkAccountData (Z.max 0 (ad_providers (s a)) + 1) (toy_consumers (s a))
      (ad_keys (s a))) s;
  dec_providers a s :=
    let d := s a in
    if decide (ad_providers d = 1 → ad_keys d = None ∧ ad_consumers d ≤ 0)
    then Ok (toy_put a (mkAccountData (ad_providers d - 1) (toy_consumers d) (ad_keys d)) s)
    else Err tt;
  load_keys a s := ad_keys (s a);
  dispatch_set_keys a k s :=
    if decide (0 < ad_providers (s a) ∧
      Forall (λ b, a = b ∨ ad_keys (s b) ≠ Some k) toy_accounts)
    then Ok (toy_put a (mkAccountData (ad_providers (s a)) (ad_consumers (s a)) (Some k)) s)
    else Err tt;
  dispatch_purge_keys a s :=
    match ad_keys (s a) with
    | Some _ => Ok (toy_put a (mkAccountData (ad_providers (s a)) (ad_consumers (s a)) None) s)
    | None => Err tt
    end;
  keys_conflict k k' := bool_decide (k = k');
|}.

#[export] Instance toy_session_laws : SessionLaws ToySys Z Z.
Proof.
  split; simpl; unfold toy_put; intros.
  all: repeat match goal with
    | H : (if ?b then _ else _) = Ok _ |- _ => destruct b eqn:?; [simplify_eq|done]
    | H : match ?o with Some _ => _ | None => _ end = Ok _ |- _ => destruct o eqn:?; [simplify_eq|done]
    | H : match ?o with Some _ => _ | None => _ end = Err _ |- _ => destruct o eqn:?; [done|]
    end.
  all: unfold toy_consumers in *; simpl in *.
  all: try (repeat case_decide; subst; simpl in *;
    repeat match goal with
    | |- context [?x <? ?y] => destruct (Z.ltb_spec x y)
    | H : context [?x <? ?y] |- _ => destruct (Z.ltb_spec x y)
    end; (done || lia || congruence)).
  - assert (Z.max 0 (ad_providers (s a)) = 1 ↔ ad_providers (s a) = 1) as -> by lia.
    case_decide as Hd; simpl; [split; [intros _ Hp|done]|split; [done|intros Hok; exfalso; apply Hd; intros Hp]].
    + destruct (Hd Hp). split; [done|]. destruct (0 <? ad_providers (s a)); lia.
    + destruct (Hok Hp) as [? Hc]. split; [done|]. destruct (Z.ltb_spec 0 (ad_providers (s a))); lia.
  - case_decide as Hd; [done|]. exfalso. apply Hd. split; [lia|].
    apply Forall_forall. intros b _. destruct (decide (a = b)) as [|Hab]; [by left|right].
    intros Hk. specialize (H1 b k Hab Hk). by rewrite bool_decide_eq_false in H1.
Qed.
