(* ===== verification/CommitteePallet.v ===== *)
(** * The committee selection pallet

    Models [toolkit/committee-selection/pallet/src/lib.rs] and the data types of
    [toolkit/committee-selection/primitives/src/lib.rs]: the storage of the
    current and the next committee, the inherent that plans a committee one epoch
    ahead, and the rotation.  The integration with [pallet_session] is in
    [CommitteeSession]. *)

From S2P Require Import Prelude Domain SessionEnv.

(** ** Data *)

Inductive CommitteeMember (AuthorityId AuthorityKeys : Type) :=
  | Permissioned (id : AuthorityId) (keys : AuthorityKeys)
  | Registered (id : AuthorityId) (keys : AuthorityKeys) (stake_pool_pub_key : bytes).
Arguments Permissioned {_ _} id keys.
Arguments Registered {_ _} id keys stake_pool_pub_key.

#[global] Instance CommitteeMember_eq_dec {A K} `{EqDecision A, EqDecision K} :
  EqDecision (CommitteeMember A K).
Proof. solve_decision. Defined.

Definition permissioned {A K} (id : A) (keys : K) : CommitteeMember A K := Permissioned id keys.
Definition from_pair {A K} (p : A * K) : CommitteeMember A K := Permissioned p.1 p.2.
Definition authority_id {A K} (m : CommitteeMember A K) : A :=
  match m with Permissioned id _ => id | Registered id _ _ => id end.
Definition authority_keys {A K} (m : CommitteeMember A K) : K :=
  match m with Permissioned _ keys => keys | Registered _ keys _ => keys end.
Definition map_authority_keys {A K K'} (f : K → K') (m : CommitteeMember A K) :
    CommitteeMember A K' :=
  match m with
  | Permissioned id keys => Permissioned id (f keys)
  | Registered id keys pool => Registered id (f keys) pool
  end.

Inductive InherentError :=
  | InvalidValidators
  | CommitteeNeedsToBeStoredOneEpochInAdvance
  | InvalidValidatorsMatchingHash (hash : bytes)
  | InvalidValidatorsHashMismatch (computed call_hash : bytes).

Record CommitteeInfo (A K : Type) := mkCommitteeInfo {
  epoch : Z;
  committee : list (CommitteeMember A K);
}.
Arguments mkCommitteeInfo {A K}.
Arguments epoch {A K}.
Arguments committee {A K}.

Definition as_pair {A K} (info : CommitteeInfo A K) : Z * list (CommitteeMember A K) :=
  (epoch info, committee info).
Definition default_committee_info {A K} : CommitteeInfo A K := mkCommitteeInfo 0 [].

Inductive CommitteeRotationStages :=
  | AwaitEpochChange
  | NewSessionDueEpochChange
  | AdditionalSession.

#[global] Instance stages_eq_dec : EqDecision CommitteeRotationStages.
Proof. solve_decision. Defined.

Record MainChainScripts := mkScripts {
  committee_candidate_address : bytes;
  d_parameter_policy_id : bytes;
  permissioned_candidates_policy_id : bytes;
}.

Inductive CommitteeError := BadOrigin | InvalidEpoch | NextCommitteeAlreadySet.

Inductive Origin := None_ | Signed | Governance.

#[global] Instance Origin_eq_dec : EqDecision Origin.
Proof. solve_decision. Defined.

(** The storage of the pallet. *)
Record CommitteeState (AccountId A K : Type) `{Countable AccountId} := mkCommitteeState {
  ProvidedAccounts : gset AccountId;
  CurrentCommittee : CommitteeInfo A K;
  NextCommittee : option (CommitteeInfo A K);
  CommitteeRotationStage : CommitteeRotationStages;
  MainChainScriptsConfiguration : MainChainScripts;
  AuthorityKeysVersion : Z;
}.
Arguments mkCommitteeState {AccountId A K _ _}.
Arguments ProvidedAccounts {AccountId A K _ _}.
Arguments CurrentCommittee {AccountId A K _ _}.
Arguments NextCommittee {AccountId A K _ _}.
Arguments CommitteeRotationStage {AccountId A K _ _}.
Arguments MainChainScriptsConfiguration {AccountId A K _ _}.
Arguments AuthorityKeysVersion {AccountId A K _ _}.

Section Setters.
Context {AccountId A K : Type} `{Countable AccountId}.
Implicit Types s : CommitteeState AccountId A K.

Definition put_provided (x : gset AccountId) s : CommitteeState AccountId A K :=
  mkCommitteeState x (CurrentCommittee s) (NextCommittee s) (CommitteeRotationStage s)
    (MainChainScriptsConfiguration s) (AuthorityKeysVersion s).
Definition put_current (x : CommitteeInfo A K) s : CommitteeState AccountId A K :=
  mkCommitteeState (ProvidedAccounts s) x (NextCommittee s) (CommitteeRotationStage s)
    (MainChainScriptsConfiguration s) (AuthorityKeysVersion s).
Definition put_next (x : option (CommitteeInfo A K)) s : CommitteeState AccountId A K :=
  mkCommitteeState (ProvidedAccounts s) (CurrentCommittee s) x (CommitteeRotationStage s)
    (MainChainScriptsConfiguration s) (AuthorityKeysVersion s).
Definition put_stage (x : CommitteeRotationStages) s : CommitteeState AccountId A K :=
  mkCommitteeState (ProvidedAccounts s) (CurrentCommittee s) (NextCommittee s) x
    (MainChainScriptsConfiguration s) (AuthorityKeysVersion s).
Definition put_scripts (x : MainChainScripts) s : CommitteeState AccountId A K :=
  mkCommitteeState (ProvidedAccounts s) (CurrentCommittee s) (NextCommittee s)
    (CommitteeRotationStage s) x (AuthorityKeysVersion s).
End Setters.

(** ** Operations *)

Section Pallet.
Context {AccountId A K Inputs : Type} `{Countable AccountId, Ord AccountId}
  `{EqDecision A, EqDecision K}.
(** The runtime configuration: the bound on committees, the conversion of an
    authority to its account, the selection algorithm and the hash of its inputs. *)
Context (MaxValidators : Z) (into_account : A → AccountId).
Context (select_authorities : Inputs → Z → option (list (CommitteeMember A K))).
Context (inputs_hash : Inputs → bytes).

Abbreviation Member := (CommitteeMember A K).
Abbreviation Info := (CommitteeInfo A K).
Abbreviation State := (CommitteeState AccountId A K).

(** [BoundedVec::truncate_from] and the conversion of a set to a bounded one. *)
Definition truncate_from {B} (l : list B) : list B := take (Z.to_nat MaxValidators) l.
Definition bounded_set (x : gset AccountId) : outcome (gset AccountId) :=
  if decide (Z.of_nat (size x) ≤ MaxValidators) then Ret x else Panic.

Definition account_of (m : Member) : AccountId := into_account (authority_id m).
Definition accounts (l : list Member) : gset AccountId := list_to_set (account_of <$> l).

(** [BuildGenesisConfig::build]. *)
Definition genesis_build `{SessionOps Sys AccountId SK} (initial_authorities : list Member)
    (scripts : MainChainScripts) (sys : Sys) : outcome (State * Sys) :=
  let initial_authorities := truncate_from initial_authorities in
  let provided_accounts := accounts initial_authorities in
  let sys := foldl (λ sys account, inc_providers account sys) sys
               (sort (elements provided_accounts)) in
  provided ← bounded_set provided_accounts;
  Ret (mkCommitteeState provided (mkCommitteeInfo 0 initial_authorities) None
         AwaitEpochChange scripts 0, sys).

Definition on_initialize (block_nr current_epoch_number : Z) (s : State) : State :=
  if block_nr =? 1
  then put_current (mkCommitteeInfo current_epoch_number (committee (CurrentCommittee s))) s
  else s.

Inductive CommitteeCall :=
  | Set_ (validators : list Member) (for_epoch_number : Z) (selection_inputs_hash : bytes)
  | SetMainChainScripts (scripts : MainChainScripts).

(** What [InherentData::get_data] returns: a decoding error, nothing, or the inputs. *)
Definition InherentData := result unit (option Inputs).

Definition inherent_data_to_authority_selection_inputs (data : InherentData) :
    outcome (Inputs * bytes) :=
  found ← expect (ok data);
  decoded_data ← expect found;
  Ret (decoded_data, inputs_hash decoded_data).

Definition create_inherent (data : InherentData) (s : State) : outcome (option CommitteeCall) :=
  if decide (is_Some (NextCommittee s)) then Ret None
  else
    let for_epoch_number := wadd 64 (epoch (CurrentCommittee s)) 1 in
    '(authority_selection_inputs, selection_inputs_hash) ←
      inherent_data_to_authority_selection_inputs data;
    match select_authorities authority_selection_inputs for_epoch_number with
    | Some validators => Ret (Some (Set_ validators for_epoch_number selection_inputs_hash))
    | None =>
        let current_committee := CurrentCommittee s in
        let validators := committee current_committee in
        Ret (Some (Set_ validators for_epoch_number selection_inputs_hash))
    end.

Definition check_inherent (call : CommitteeCall) (data : InherentData) (s : State) :
    outcome (result InherentError unit) :=
  match call with
  | SetMainChainScripts _ => Ret (Ok tt)
  | Set_ validators_param for_epoch_number_param call_selection_inputs_hash =>
      '(authority_selection_inputs, computed_selection_inputs_hash) ←
        inherent_data_to_authority_selection_inputs data;
      let validators :=
        match select_authorities authority_selection_inputs for_epoch_number_param with
        | Some validators => validators
        | None => committee (default (CurrentCommittee s) (NextCommittee s))
        end in
      if decide (validators_param ≠ validators) then
        if decide (call_selection_inputs_hash = computed_selection_inputs_hash) then
          Ret (Err (InvalidValidatorsMatchingHash computed_selection_inputs_hash))
        else
          Ret (Err (InvalidValidatorsHashMismatch computed_selection_inputs_hash
                      call_selection_inputs_hash))
      else Ret (Ok tt)
  end.

Definition is_inherent (call : CommitteeCall) : bool :=
  match call with Set_ _ _ _ => true | _ => false end.

Definition is_inherent_required (s : State) : result InherentError (option InherentError) :=
  if decide (is_Some (NextCommittee s)) then Ok None
  else Ok (Some CommitteeNeedsToBeStoredOneEpochInAdvance).

Definition set (origin : Origin) (validators : list Member) (for_epoch_number : Z)
    (selection_inputs_hash : bytes) (s : State) : result CommitteeError State :=
  _ ← ensure (bool_decide (origin = None_)) BadOrigin;
  let expected_epoch_number := wadd 64 (epoch (CurrentCommittee s)) 1 in
  _ ← ensure (for_epoch_number =? expected_epoch_number) InvalidEpoch;
  _ ← ensure (bool_decide (NextCommittee s = None)) NextCommitteeAlreadySet;
  Ok (put_next (Some (mkCommitteeInfo for_epoch_number validators)) s).

Definition set_main_chain_scripts (origin : Origin) (new_scripts : MainChainScripts) (s : State) :
    result CommitteeError State :=
  _ ← ensure (bool_decide (origin = Governance)) BadOrigin;
  Ok (put_scripts new_scripts s).

Definition dispatch (origin : Origin) (call : CommitteeCall) (s : State) :
    result CommitteeError State :=
  match call with
  | Set_ validators for_epoch_number hash => set origin validators for_epoch_number hash s
  | SetMainChainScripts scripts => set_main_chain_scripts origin scripts s
  end.

Definition get_next_unset_epoch_number (s : State) : Z :=
  match NextCommittee s with
  | Some next_committee => wadd 64 (epoch next_committee) 1
  | None => wadd 64 (epoch (CurrentCommittee s)) 1
  end.

Definition get_current_authority_at (index : nat) (s : State) : option Member :=
  let committee := committee (CurrentCommittee s) in
  if is_empty committee then None else committee !! index.

(** [find_current_authority], with the author index found in the digest. *)
Definition find_current_authority (author_index : option Z) (s : State) : option Member :=
  index ← author_index;
  index ← try_into 32 index;
  get_current_authority_at (Z.to_nat index) s.

Definition next_committee (s : State) : option (list A) :=
  info ← NextCommittee s;
  Some (truncate_from (authority_id <$> committee info)).

Definition calculate_committee (inputs : Inputs) (sidechain_epoch : Z) : option (list Member) :=
  select_authorities inputs sidechain_epoch.

Definition rotate_committee_to_next_epoch (s : State) : option (list Member * State) :=
  next_committee ← NextCommittee s;
  Some (committee next_committee, put_current next_committee (put_next None s)).

End Pallet.
