(* ===== verification/CommitteeSession.v ===== *)
(** * Committee rotation and sessions

    Models [toolkit/committee-selection/pallet/src/pallet_session_support.rs]:
    the pallet as the [SessionManager] and [ShouldEndSession] of
    [pallet_session], on top of the interface of [SessionEnv]. *)

From S2P Require Import Prelude Domain SessionEnv CommitteePallet.

Create Rewrite HintDb session.

Section Session.
Context {Sys AccountId A K SK : Type}.
Context `{Countable AccountId, !Ord AccountId, EqDecision A, EqDecision K, EqDecision SK}.
Context `{Hops : SessionOps Sys AccountId SK}.
Context (MaxValidators : Z) (into_account : A → AccountId) (into_keys : K → SK).

Abbreviation Member := (CommitteeMember A K).
Abbreviation State := (CommitteeState AccountId A K).
Abbreviation account_of := (account_of (K:=K) into_account).
Abbreviation accounts := (accounts (K:=K) into_account).

Definition set_keys (account : AccountId) (keys : K) (sys : Sys) : Sys :=
  match dispatch_set_keys account (into_keys keys) sys with
  | Ok sys' => sys'
  | Err _ => sys
  end.

Definition purge_keys (account : AccountId) (sys : Sys) : Sys :=
  match dispatch_purge_keys account sys with
  | Ok sys' => sys'
  | Err _ => sys
  end.

Definition provide_account (account : AccountId) (sys : Sys) : Sys := inc_providers account sys.

Definition unprovide_account (account : AccountId) (sys : Sys) : outcome Sys :=
  expect (ok (dec_providers account sys)).

(** The body of the first [for] loop of [new_session]. *)
Definition seat_member (old_committee_accounts : gset AccountId) (acc : gset AccountId * Sys)
    (member : Member) : gset AccountId * Sys :=
  let '(new_committee_accounts, sys) := acc in
  let account := account_of member in
  if decide (account ∈ new_committee_accounts) then acc
  else
    let sys := if decide (account ∈ old_committee_accounts) then sys
               else provide_account account sys in
    let new_keys := authority_keys member in
    let current_keys := load_keys account sys in
    let sys := if decide (current_keys = Some (into_keys new_keys)) then sys
               else set_keys account new_keys (purge_keys account sys) in
    ({[account]} ∪ new_committee_accounts, sys).

(** The second [for] loop: accounts that leave the committee. *)
Fixpoint retire_accounts (l : list AccountId) (sys : Sys) : outcome Sys :=
  match l with
  | [] => Ret sys
  | account :: l =>
      let sys := purge_keys account sys in
      sys ← unprovide_account account sys;
      retire_accounts l sys
  end.

Definition new_session_genesis (s : State) : option (list AccountId) :=
  Some (account_of <$> committee (CurrentCommittee s)).

Definition new_session (s : State) (sys : Sys) : outcome (list AccountId * State * Sys) :=
  if decide (CommitteeRotationStage s = AdditionalSession) then
    let s := put_stage AwaitEpochChange s in
    Ret (account_of <$> committee (CurrentCommittee s), s, sys)
  else
    '(new_committee, s) ← expect (rotate_committee_to_next_epoch s);
    let old_committee_accounts := ProvidedAccounts s in
    let s := put_provided ∅ s in
    let '(new_committee_accounts, sys) :=
      foldl (seat_member old_committee_accounts) (∅, sys) new_committee in
    sys ← retire_accounts (sort (elements (old_committee_accounts ∖ new_committee_accounts))) sys;
    provided ← bounded_set MaxValidators new_committee_accounts;
    Ret (account_of <$> new_committee, put_provided provided s, sys).

Definition should_end_session (current_epoch_number : Z) (s : State) : bool * State :=
  let current_committee_epoch := epoch (CurrentCommittee s) in
  let next_committee_is_defined := bool_decide (is_Some (next_committee MaxValidators s)) in
  if current_committee_epoch <? current_epoch_number then
    if next_committee_is_defined then (true, put_stage NewSessionDueEpochChange s)
    else (false, s)
  else if decide (CommitteeRotationStage s = NewSessionDueEpochChange)
  then (true, put_stage AdditionalSession s)
  else (false, s).

(** The start of a block: the hook of the pallet, then [pallet_session], which
    plans a new session whenever [should_end_session] tells it to.  Returns the
    validators planned, if any. *)
Definition start_block (block_nr current_epoch_number : Z) (s : State) (sys : Sys) :
    outcome (option (list AccountId) * State * Sys) :=
  let s := on_initialize block_nr current_epoch_number s in
  let '(ends, s) := should_end_session current_epoch_number s in
  if ends then
    '(validators, s, sys) ← new_session s sys;
    Ret (Some validators, s, sys)
  else Ret (None, s, sys).

(** ** Effects on accounts and keys *)

Context `{!SessionLaws Sys AccountId SK}.

Lemma purge_keys_load a b sys :
  load_keys b (purge_keys a sys) = if decide (a = b) then None else load_keys b sys.
Proof.
  unfold purge_keys. destruct (dispatch_purge_keys a sys) eqn:E.
  - by rewrite (purge_keys_keys a b _ _ E).
  - case_decide; [subst; by eapply purge_keys_Err|done].
Qed.
Lemma purge_keys_prov a b sys : providers b (purge_keys a sys) = providers b sys.
Proof.
  unfold purge_keys. destruct (dispatch_purge_keys a sys) eqn:E; [|done].
  by rewrite (purge_keys_providers a b _ _ E).
Qed.
Lemma purge_keys_cons a b sys : other_consumers b (purge_keys a sys) = other_consumers b sys.
Proof.
  unfold purge_keys. destruct (dispatch_purge_keys a sys) eqn:E; [|done].
  by rewrite (purge_keys_consumers a b _ _ E).
Qed.

Lemma set_keys_load_ne a b k sys : a ≠ b → load_keys b (set_keys a k sys) = load_keys b sys.
Proof.
  intros Hab. unfold set_keys. destruct (dispatch_set_keys a (into_keys k) sys) eqn:E; [|done].
  by rewrite (set_keys_keys a b _ _ _ E), decide_False.
Qed.
Lemma set_keys_prov a b k sys : providers b (set_keys a k sys) = providers b sys.
Proof.
  unfold set_keys. destruct (dispatch_set_keys a (into_keys k) sys) eqn:E; [|done].
  by rewrite (set_keys_providers a b _ _ _ E).
Qed.
Lemma set_keys_cons a b k sys : other_consumers b (set_keys a k sys) = other_consumers b sys.
Proof.
  unfold set_keys. destruct (dispatch_set_keys a (into_keys k) sys) eqn:E; [|done].
  by rewrite (set_keys_consumers a b _ _ _ E).
Qed.
Lemma set_keys_load a k sys :
  0 < providers a sys → other_consumers a sys = 0 →
  (∀ b k', a ≠ b → load_keys b sys = Some k' → keys_conflict (into_keys k) k' = false) →
  load_keys a (set_keys a k sys) = Some (into_keys k).
Proof.
  intros Hp Hc Hk. pose proof (set_keys_Ok a (into_keys k) sys Hp Hc Hk) as Hok.
  unfold set_keys. destruct (dispatch_set_keys a (into_keys k) sys) eqn:E; [|done].
  by rewrite (set_keys_keys a a _ _ _ E), decide_True.
Qed.

Hint Rewrite purge_keys_load purge_keys_prov purge_keys_cons set_keys_prov set_keys_cons
  inc_providers_providers inc_providers_consumers inc_providers_keys : session.

#[local] Arguments CommitteePallet.accounts _ _ _ _ _ _ _ : simpl never.
#[local] Arguments CommitteePallet.account_of _ _ _ _ _ : simpl never.

Lemma accounts_nil : accounts [] = ∅.
Proof. done. Qed.
Lemma accounts_cons m l : accounts (m :: l) = {[account_of m]} ∪ accounts l.
Proof. done. Qed.
Lemma elem_of_accounts a l : a ∈ accounts l ↔ ∃ m, m ∈ l ∧ a = account_of m.
Proof.
  unfold accounts. rewrite elem_of_list_to_set, list_elem_of_fmap. naive_solver.
Qed.
Lemma size_accounts l : (size (accounts l) ≤ length l)%nat.
Proof.
  induction l as [|m l IH]; [done|]. rewrite accounts_cons, size_union_alt, size_singleton.
  simpl. assert (size (accounts l ∖ {[account_of m]}) ≤ size (accounts l))%nat; [|lia].
  apply subseteq_size. set_solver.
Qed.

(** Seating members provides exactly the accounts that were not provided yet,
    and leaves all other accounts alone. *)
Lemma seat_members_spec old members new sys :
  let r := foldl (seat_member old) (new, sys) members in
  r.1 = accounts members ∪ new ∧
  (∀ a, providers a r.2 =
        providers a sys + (if decide (a ∈ accounts members ∧ (a ∉ new) ∧ a ∉ old) then 1 else 0)) ∧
  (∀ a, other_consumers a r.2 = other_consumers a sys) ∧
  (∀ a, a ∉ accounts members ∨ a ∈ new → load_keys a r.2 = load_keys a sys).
Proof.
  revert new sys. induction members as [|m members IH]; intros new sys; simpl.
  { split_and!; try done; [set_solver|]. intros a. rewrite decide_False by set_solver. lia. }
  set (x := account_of m). fold x. destruct (decide (x ∈ new)) as [Hin|Hin].
  { destruct (IH new sys) as (H1 & H2 & H3 & H4). rewrite accounts_cons. fold x.
    split_and!; [rewrite H1; set_solver|..|done|].
    - intros a. rewrite H2. f_equal.
      repeat case_decide; try done; exfalso; set_solver.
    - intros a Ha. apply H4. set_solver. }
  match goal with |- context [foldl _ (_, ?s) members] => set (sys' := s) end.
  destruct (IH ({[x]} ∪ new) sys') as (H1 & H2 & H3 & H4). rewrite accounts_cons. fold x.
  assert (∀ a, providers a sys' = providers a sys + (if decide (a = x ∧ a ∉ old) then 1 else 0)) as Hp.
  { intros a. unfold sys', provide_account.
    repeat case_decide; autorewrite with session; repeat case_decide; subst; try lia; naive_solver. }
  assert (∀ a, other_consumers a sys' = other_consumers a sys) as Hc.
  { intros a. unfold sys', provide_account. repeat case_decide; by autorewrite with session. }
  split_and!.
  - rewrite H1. set_solver.
  - intros a. rewrite H2, Hp.
    repeat case_decide; try lia; exfalso; set_solver.
  - intros a. by rewrite H3.
  - intros a Ha. rewrite H4 by set_solver. assert (x ≠ a) by set_solver.
    unfold sys', provide_account. repeat case_decide; try done; rewrite ?set_keys_load_ne by done;
      autorewrite with session; by rewrite ?decide_False by done.
Qed.

(** The keys a committee asks for do not collide: neither between members nor
    with the keys registered for any other account. *)
Record keys_disjoint (members : list Member) (sys : Sys) : Prop := {
  disjoint_members m m' : m ∈ members → m' ∈ members → account_of m ≠ account_of m' →
    keys_conflict (into_keys (authority_keys m)) (into_keys (authority_keys m')) = false;
  disjoint_registered m b k : m ∈ members → account_of m ≠ b → load_keys b sys = Some k →
    keys_conflict (into_keys (authority_keys m)) k = false;
}.

(** What seating one member does to the keys. *)
Lemma seat_member_keys old new sys m :
  account_of m ∉ new →
  other_consumers (account_of m) sys = 0 →
  (account_of m ∈ old → 0 < providers (account_of m) sys) →
  (∀ b k, account_of m ≠ b → load_keys b sys = Some k →
     keys_conflict (into_keys (authority_keys m)) k = false) →
  let r := seat_member old (new, sys) m in
  ∀ a, load_keys a r.2 =
    if decide (account_of m = a) then Some (into_keys (authority_keys m)) else load_keys a sys.
Proof.
  intros Hnew Hc Hp Hk r a. unfold r, seat_member. rewrite decide_False by done. simpl.
  set (x := account_of m) in *.
  set (sys1 := if decide (x ∈ old) then sys else provide_account x sys).
  assert (∀ b, load_keys b sys1 = load_keys b sys) as Hl1.
  { intros b. unfold sys1, provide_account. case_decide; by autorewrite with session. }
  assert (0 < providers x sys1) as Hp1.
  { unfold sys1, provide_account. case_decide; [by apply Hp|]. autorewrite with session.
    rewrite decide_True by done. pose proof (providers_nonneg x sys). lia. }
  assert (other_consumers x sys1 = 0) as Hc1.
  { unfold sys1, provide_account. case_decide; by autorewrite with session. }
  case_decide as Hcur.
  - case_decide as Hxa; [by subst a|apply Hl1].
  - case_decide as Hxa; [subst a; apply set_keys_load; autorewrite with session; try done|].
    + intros b k Hb. rewrite purge_keys_load, decide_False, Hl1 by done. by apply Hk.
    + by rewrite set_keys_load_ne, purge_keys_load, decide_False, Hl1 by done.
Qed.

(** With disjoint keys every account that is seated ends up with the keys of the
    first of its members. *)
Lemma seat_members_keys old members new sys :
  keys_disjoint members sys →
  (∀ a, other_consumers a sys = 0) →
  (∀ a, a ∈ old → 0 < providers a sys) →
  let r := foldl (seat_member old) (new, sys) members in
  ∀ pre m post, members = pre ++ m :: post → account_of m ∉ accounts pre → account_of m ∉ new →
    load_keys (account_of m) r.2 = Some (into_keys (authority_keys m)).
Proof.
  revert new sys. induction members as [|m0 members IH]; intros new sys Hd Hc Hp r pre m post Hl Hpre Hnew.
  { by destruct pre. }
  unfold r. clear r. cbn [foldl]. destruct Hd as [Hm Hr].
  destruct (decide (account_of m0 ∈ new)) as [Hin|Hin].
  - assert (seat_member old (new, sys) m0 = (new, sys)) as ->
      by (unfold seat_member; by rewrite decide_True).
    destruct pre as [|m1 pre]; simplify_eq/=; [done|].
    rewrite accounts_cons in Hpre. apply (IH new sys) with pre post; try done; [|set_solver].
    split; [intros; apply Hm; set_solver|intros m1' b k ?; apply Hr; set_solver].
  - destruct (seat_member old (new, sys) m0) as [new' sys'] eqn:E.
    assert (∀ a, load_keys a sys' = if decide (account_of m0 = a)
      then Some (into_keys (authority_keys m0)) else load_keys a sys) as Hk'.
    { intros a. change sys' with (new', sys').2. rewrite <-E.
      apply seat_member_keys; [done|done|by apply Hp|]. intros b k. apply Hr. left. }
    destruct (seat_members_spec old [m0] new sys) as (H1 & H2 & H3 & _).
    cbn [foldl] in H1, H2, H3. rewrite E in H1, H2, H3. simpl in H1, H2, H3.
    destruct pre as [|m1 pre]; simplify_eq/=.
    + destruct (seat_members_spec old post ({[account_of m]} ∪ ∅ ∪ new) sys') as (_ & _ & _ & H4).
      rewrite H4 by set_solver. rewrite Hk'. by rewrite decide_True.
    + rewrite accounts_cons in Hpre. apply (IH _ sys') with pre post; try done.
      * split; [intros; apply Hm; set_solver|]. intros m2 b k Hm2 Hb Hload.
        rewrite Hk' in Hload. case_decide as Hb0.
        -- simplify_eq. apply Hm; [set_solver|set_solver|done].
        -- eapply Hr; [by right|done|done].
      * intros a. rewrite H3. apply Hc.
      * intros a Ha. rewrite H2. specialize (Hp a Ha).
        match goal with |- context [decide ?P] => destruct (decide P) end; lia.
      * set_solver.
      * rewrite accounts_cons, accounts_nil. set_solver.
Qed.

(** ** Accounts that leave *)

(** Nothing but the committee keeps [a] alive by its last provider. *)
Definition releasable (a : AccountId) (sys : Sys) : Prop :=
  1 ≤ providers a sys ∧ (providers a sys = 1 → other_consumers a sys = 0).

Lemma retire_accounts_spec l sys :
  NoDup l → (∀ a, a ∈ l → releasable a sys) →
  ∃ sys', retire_accounts l sys = Ret sys' ∧
    (∀ b, providers b sys' = providers b sys - (if decide (b ∈ l) then 1 else 0)) ∧
    (∀ b, other_consumers b sys' = other_consumers b sys) ∧
    (∀ b, load_keys b sys' = if decide (b ∈ l) then None else load_keys b sys).
Proof.
  intros Hnd. revert sys. induction Hnd as [|a l Ha Hnd IH]; intros sys Hrel; simpl.
  { exists sys. split; [done|]. split_and!; intros b; rewrite ?decide_False by set_solver; first [lia|done]. }
  destruct (Hrel a) as [Hp1 Hc1]; [by left|].
  assert (is_ok (dec_providers a (purge_keys a sys)) = true) as Hok.
  { apply dec_providers_Ok. autorewrite with session. rewrite decide_True by done. auto. }
  unfold unprovide_account. destruct (dec_providers a (purge_keys a sys)) as [sys1|] eqn:E; [|done].
  simpl.
  assert (∀ b, providers b sys1 = providers b sys - (if decide (a = b) then 1 else 0)) as Hp.
  { intros b. rewrite (dec_providers_providers a b _ _ E), !purge_keys_prov. case_decide; [subst|]; lia. }
  assert (∀ b, other_consumers b sys1 = other_consumers b sys) as Hc.
  { intros b. by rewrite (dec_providers_consumers a b _ _ E), purge_keys_cons. }
  destruct (IH sys1) as (sys' & -> & Hp' & Hc' & Hk').
  { intros b Hb. destruct (Hrel b) as [Hpb Hcb]; [by right|]. unfold releasable.
    rewrite Hp, Hc, decide_False by (intros ->; done). split; [lia|]. intros. apply Hcb. lia. }
  exists sys'. split_and!; [done|..].
  - intros b. rewrite Hp', Hp. repeat case_decide; try lia; exfalso; set_solver.
  - intros b. by rewrite Hc', Hc.
  - intros b. rewrite Hk', (dec_providers_keys a b _ _ E), purge_keys_load.
    repeat case_decide; try done; exfalso; set_solver.
Qed.

(** Something else consumes [a], which only the committee provides: its provider
    cannot leave. *)
Definition stuck (a : AccountId) (sys : Sys) : Prop := providers a sys = 1 ∧ 0 < other_consumers a sys.

Lemma retire_accounts_panics l sys :
  NoDup l → retire_accounts l sys = Panic ↔ ∃ a, a ∈ l ∧ stuck a sys.
Proof.
  intros Hnd. revert sys. induction Hnd as [|a l Ha Hnd IH]; intros sys; simpl; [set_solver|].
  unfold unprovide_account. pose proof (dec_providers_Ok a (purge_keys a sys)) as Hok.
  rewrite purge_keys_prov, purge_keys_cons, purge_keys_load, decide_True in Hok by done.
  destruct (dec_providers a (purge_keys a sys)) as [sys1|] eqn:E; simpl in *.
  - rewrite IH.
    assert (∀ b, a ≠ b → stuck b sys1 ↔ stuck b sys) as Hother.
    { intros b Hb. unfold stuck. rewrite (dec_providers_providers a b _ _ E), (dec_providers_consumers a b _ _ E).
      by rewrite decide_False, purge_keys_prov, purge_keys_cons by done. }
    split; intros (b & Hb & Hs).
    + exists b. split; [by right|]. apply Hother; [set_solver|done].
    + apply elem_of_cons in Hb as [->|Hb]; [exfalso|].
      * destruct Hs as [H1 H2]. destruct (proj1 Hok eq_refl H1). lia.
      * exists b. split; [done|]. apply Hother; [set_solver|done].
  - split; [intros _|done]. exists a. split; [by left|]. unfold stuck. pose proof (other_consumers_nonneg a sys).
    destruct (decide (providers a sys = 1)); [|by discriminate (proj2 Hok ltac:(done))].
    destruct (decide (other_consumers a sys = 0)); [by discriminate (proj2 Hok ltac:(done))|lia].
Qed.

(** ** A rotation *)

(** A rotation panics exactly if an account that leaves is stuck. *)
Lemma new_session_panics s sys nx :
  NextCommittee s = Some nx → CommitteeRotationStage s ≠ AdditionalSession →
  Z.of_nat (length (committee nx)) ≤ MaxValidators →
  new_session s sys = Panic ↔ ∃ a, a ∈ ProvidedAccounts s ∖ accounts (committee nx) ∧ stuck a sys.
Proof.
  intros Hnext Hstage Hlen. unfold new_session. rewrite decide_False by done.
  unfold rotate_committee_to_next_epoch. rewrite Hnext. simpl. set (old := ProvidedAccounts s). set (new := accounts (committee nx)).
  destruct (seat_members_spec old (committee nx) ∅ sys) as (H1 & H2 & H3 & _). fold new in H1, H2.
  rewrite (right_id_L ∅ (∪)) in H1.
  destruct (foldl (seat_member old) (∅, sys) (committee nx)) as [new' sys1]. simpl in *. subst new'.
  assert ((∃ a, a ∈ old ∖ new ∧ stuck a sys) ↔ retire_accounts (sort (elements (old ∖ new))) sys1 = Panic) as ->.
  { rewrite retire_accounts_panics by (rewrite sort_Permutation; apply NoDup_elements).
    apply exist_proper. intros a. rewrite sort_Permutation, elem_of_elements. unfold stuck. rewrite H2, H3.
    split; intros [Ha Hs]; (split; [done|]); rewrite decide_False in * by set_solver; by rewrite Z.add_0_r in *. }
  destruct (retire_accounts _ sys1); simpl; [|done]. unfold bounded_set. rewrite decide_True; [done|].
  pose proof (size_accounts (committee nx)). unfold new. lia.
Qed.

Lemma new_session_spec s sys nx :
  NextCommittee s = Some nx → CommitteeRotationStage s ≠ AdditionalSession →
  Z.of_nat (length (committee nx)) ≤ MaxValidators →
  (∀ a, a ∈ ProvidedAccounts s → releasable a sys) →
  let old := ProvidedAccounts s in
  let new := accounts (committee nx) in
  ∃ sys', new_session s sys =
      Ret (account_of <$> committee nx,
           put_provided new (put_current nx (put_next None s)), sys') ∧
    (∀ a, providers a sys' = providers a sys
          + (if decide (a ∈ new ∖ old) then 1 else 0) - (if decide (a ∈ old ∖ new) then 1 else 0)) ∧
    (∀ a, other_consumers a sys' = other_consumers a sys) ∧
    (∀ a, a ∈ old ∖ new → load_keys a sys' = None) ∧
    (∀ a, a ∉ old ∪ new → load_keys a sys' = load_keys a sys) ∧
    (∀ a, a ∈ new →
       load_keys a sys' = load_keys a (foldl (seat_member old) (∅, sys) (committee nx)).2).
Proof.
  intros Hnext Hstage Hlen Hrel old new. unfold new_session. rewrite decide_False by done.
  unfold rotate_committee_to_next_epoch. rewrite Hnext. simpl. fold old.
  destruct (seat_members_spec old (committee nx) ∅ sys) as (H1 & H2 & H3 & H4). fold new in H1, H2, H4.
  rewrite (right_id_L ∅ (∪)) in H1.
  destruct (foldl (seat_member old) (∅, sys) (committee nx)) as [new' sys1]. simpl in *. subst new'.
  destruct (retire_accounts_spec (sort (elements (old ∖ new))) sys1) as (sys' & -> & Hp & Hc & Hk).
  { rewrite sort_Permutation. apply NoDup_elements. }
  { intros a. rewrite sort_Permutation, elem_of_elements. intros Ha. destruct (Hrel a) as [? ?]; [set_solver|].
    unfold releasable. rewrite H2, H3, decide_False by set_solver. rewrite Z.add_0_r. done. }
  assert (∀ a, a ∈ sort (elements (old ∖ new)) ↔ a ∈ old ∖ new) as Hin.
  { intros a. by rewrite sort_Permutation, elem_of_elements. }
  simpl. unfold bounded_set. rewrite decide_True.
  2:{ pose proof (size_accounts (committee nx)). unfold new. lia. }
  exists sys'. split_and!.
  - done.
  - intros a. rewrite Hp, H2. rewrite (decide_ext _ _ _ _ (Hin a)). f_equal. f_equal.
    apply decide_ext. set_solver.
  - intros a. by rewrite Hc, H3.
  - intros a Ha. rewrite Hk, decide_True; [done|]. by apply Hin.
  - intros a Ha. rewrite Hk, decide_False by (rewrite Hin; set_solver). apply H4. set_solver.
  - intros a Ha. rewrite Hk, decide_False by (rewrite Hin; set_solver). done.
Qed.

(** ** The invariant of the chain *)

(** The storage of the pallet. *)
Record committee_wf (s : State) : Prop := {
  inv_next nx : NextCommittee s = Some nx →
    epoch nx = wadd 64 (epoch (CurrentCommittee s)) 1 ∧
    Z.of_nat (length (committee nx)) ≤ MaxValidators;
  inv_size : Z.of_nat (length (committee (CurrentCommittee s))) ≤ MaxValidators;
  inv_provided : ProvidedAccounts s = accounts (committee (CurrentCommittee s));
}.
(** Together with accounts that the committee may leave. *)
Record committee_inv (s : State) (sys : Sys) : Prop := {
  inv_wf : committee_wf s;
  inv_releasable a : a ∈ ProvidedAccounts s → releasable a sys;
}.

Lemma releasable_inc a b sys : releasable a sys ∨ a = b → releasable a (inc_providers b sys).
Proof.
  unfold releasable. rewrite inc_providers_providers, inc_providers_consumers.
  pose proof (providers_nonneg a sys). pose proof (consumers_need_providers a sys) as Hz.
  intros [[Hp Hc]| ->].
  - case_decide; (split; [lia|]); [lia|]. intros. apply Hc. lia.
  - rewrite decide_True by done. split; [lia|]. intros. apply Hz. lia.
Qed.

(** What [should_end_session] and [new_session] together do to the storage. *)
Inductive session_effect (e : Z) (s : State) : State → Prop :=
  | effect_rotate nx :
      NextCommittee s = Some nx → epoch (CurrentCommittee s) < e →
      session_effect e s (put_provided (accounts (committee nx))
        (put_current nx (put_next None (put_stage NewSessionDueEpochChange s))))
  | effect_additional :
      e ≤ epoch (CurrentCommittee s) → CommitteeRotationStage s = NewSessionDueEpochChange →
      session_effect e s (put_stage AwaitEpochChange s)
  | effect_none : session_effect e s s.

Lemma start_block_effect n e s sys v s' sys' :
  start_block n e s sys = Ret (v, s', sys') →
  session_effect e (on_initialize n e s) s'.
Proof.
  unfold start_block. set (s0 := on_initialize n e s). unfold should_end_session.
  destruct (Z.ltb_spec (epoch (CurrentCommittee s0)) e) as [Hlt|Hge].
  - unfold next_committee. destruct (NextCommittee s0) as [nx|] eqn:Hnx; simpl.
    2:{ intros [= _ <- _]. constructor. }
    unfold new_session, rotate_committee_to_next_epoch. simpl. rewrite Hnx. simpl.
    destruct (seat_members_spec (ProvidedAccounts s0) (committee nx) ∅ sys) as (H1 & _).
    destruct (foldl _ _ (committee nx)) as [new sys1]. simpl in H1. subst new.
    rewrite (right_id_L ∅ (∪)).
    destruct (retire_accounts _ sys1) as [sys2|]; [|done]. simpl. unfold bounded_set.
    case_decide; [|done]. simpl. intros [= _ <- _]. by constructor.
  - case_decide as Hst.
    + simpl. intros [= _ <- _].
      replace (put_stage AwaitEpochChange (put_stage AdditionalSession s0))
        with (put_stage AwaitEpochChange s0) by done.
      by apply effect_additional.
    + intros [= _ <- _]. constructor.
Qed.

Lemma on_initialize_id n e (s : State) : n ≠ 1 → on_initialize n e s = s.
Proof. intros Hn. unfold on_initialize. by destruct (Z.eqb_spec n 1). Qed.

Lemma start_block_rotate n e s sys nx :
  n ≠ 1 → NextCommittee s = Some nx → epoch (CurrentCommittee s) < e →
  committee_inv s sys →
  ∃ sys', start_block n e s sys =
      Ret (Some (account_of <$> committee nx),
           put_provided (accounts (committee nx))
             (put_current nx (put_next None (put_stage NewSessionDueEpochChange s))), sys') ∧
    ∀ a, a ∈ accounts (committee nx) → releasable a sys'.
Proof.
  intros Hn Hnx He [[Hnext _ _] Hrel]. unfold start_block. rewrite on_initialize_id by done.
  unfold should_end_session. rewrite (proj2 (Z.ltb_lt _ _) He).
  unfold next_committee. rewrite Hnx. simpl. destruct (Hnext _ Hnx) as [_ Hlen].
  destruct (new_session_spec (put_stage NewSessionDueEpochChange s) sys nx)
    as (sys' & -> & Hp & Hc & _); [done..|].
  exists sys'. split; [done|]. intros a Ha. simpl in *.
  unfold releasable. rewrite Hp, Hc. pose proof (providers_nonneg a sys).
  pose proof (consumers_need_providers a sys) as Hz.
  rewrite (decide_False (P := a ∈ ProvidedAccounts s ∖ _)) by set_solver.
  destruct (decide (a ∈ ProvidedAccounts s)) as [Hold|Hold].
  - rewrite decide_False by set_solver. destruct (Hrel a Hold) as [Hp1 Hc1].
    split; [lia|]. intros. apply Hc1. lia.
  - rewrite decide_True by set_solver. split; [lia|]. intros. apply Hz. lia.
Qed.

(** ** The chain as a transition system

    A configuration is the number of the last block, the storage of the pallet
    and the rest of the runtime.  Blocks start with [start_block]; calls that
    succeed change the storage; everything else in the runtime may change
    accounts and keys in any way. *)
Inductive chain_step : Z * State * Sys → Z * State * Sys → Prop :=
  | step_start n e s sys v s' sys' :
      0 ≤ n → start_block (n + 1) e s sys = Ret (v, s', sys') →
      chain_step (n, s, sys) (n + 1, s', sys')
  | step_call n s sys origin call s' :
      0 < n → dispatch origin call s = Ok s' →
      (∀ validators e h, call = Set_ validators e h →
         Z.of_nat (length validators) ≤ MaxValidators) →
      chain_step (n, s, sys) (n, s', sys)
  | step_environment n s sys sys' :
      chain_step (n, s, sys) (n, s, sys').

(** Before the first block no committee is planned. *)
Definition config_inv (c : Z * State * Sys) : Prop :=
  let '(n, s, sys) := c in
  0 ≤ n ∧ committee_wf s ∧ (n = 0 → NextCommittee s = None).

Lemma dispatch_fields origin call (s s' : State) :
  dispatch origin call s = Ok s' →
  CurrentCommittee s' = CurrentCommittee s ∧ ProvidedAccounts s' = ProvidedAccounts s ∧
  CommitteeRotationStage s' = CommitteeRotationStage s.
Proof.
  destruct call; simpl; unfold set, set_main_chain_scripts, ensure; intros;
    destruct_matches; by simplify_eq/=.
Qed.

(** The start of a block panics exactly if it rotates and an account that leaves
    the committee is stuck. *)
Lemma start_block_panics n e s sys :
  committee_wf s → (n = 1 → NextCommittee s = None) →
  start_block n e s sys = Panic ↔
  ∃ nx, NextCommittee s = Some nx ∧ epoch (CurrentCommittee s) < e ∧
    ∃ a, a ∈ ProvidedAccounts s ∖ accounts (committee nx) ∧ stuck a sys.
Proof.
  intros Hwf H1. destruct (decide (n = 1)) as [->|Hn].
  { rewrite H1 by done. split; [|by intros (nx & [=] & _)].
    unfold start_block, on_initialize, should_end_session. simpl. rewrite Z.ltb_irrefl.
    unfold new_session. by case_decide. }
  unfold start_block. rewrite on_initialize_id by done. unfold should_end_session, next_committee.
  destruct (Z.ltb_spec (epoch (CurrentCommittee s)) e) as [He|He].
  - destruct (NextCommittee s) as [nx|] eqn:Hnx; simpl; [|split; [done|by intros (nx & [=] & _)]].
    destruct (inv_next _ Hwf nx Hnx) as [_ Hlen].
    pose proof (new_session_panics (put_stage NewSessionDueEpochChange s) sys nx Hnx ltac:(done) Hlen) as Hpanic.
    simpl in Hpanic. transitivity (new_session (put_stage NewSessionDueEpochChange s) sys = Panic).
    { by destruct (new_session _ sys) as [[[v s'] sys']|]. }
    rewrite Hpanic. split; [intros Ha; by exists nx|]. by intros (nx' & [= <-] & _ & Ha).
  - split; [|intros (nx & _ & ? & _); lia]. case_decide; by simpl.
Qed.

(** The storage stays well formed, whatever happens to accounts. *)
Lemma start_block_wf n e s sys v s' sys' :
  committee_wf s → (n = 1 → NextCommittee s = None) →
  start_block n e s sys = Ret (v, s', sys') → committee_wf s'.
Proof.
  intros Hwf H1 Hstart%start_block_effect.
  assert (committee_wf (on_initialize n e s)) as [Hnext Hsize Hprov].
  { unfold on_initialize. destruct (Z.eqb_spec n 1) as [->|]; [|done]. destruct Hwf as [_ Hs Hp].
    split; simpl; [by rewrite H1|done|done]. }
  inversion Hstart as [nx Hnx Hlt|Hge Hst|]; subst s'; split; simpl; try done.
  by destruct (Hnext nx Hnx).
Qed.

Lemma chain_step_inv c c' : config_inv c → chain_step c c' → config_inv c'.
Proof.
  intros Hinv Hstep. destruct Hstep as [n e s sys v s' sys' Hn Hs|n s sys origin call s' Hn Hd Hb|
    n s sys sys']; destruct Hinv as (H0 & Hi & Hz); (split; [lia|]).
  - split; [|lia]. eapply start_block_wf; [done| |exact Hs]. intros. apply Hz. lia.
  - split; [|lia]. pose proof (dispatch_fields _ _ _ _ Hd) as (Hc & Hp & _).
    destruct Hi as [Hnext Hsz Hprov]. split; rewrite ?Hc, ?Hp; try done.
    destruct call as [validators e h|scripts]; simpl in Hd.
    + unfold set, ensure in Hd. destruct_matches. intros nx [= <-]. simpl. reflect_Z.
      split; [done|]. by eapply Hb.
    + unfold set_main_chain_scripts, ensure in Hd. destruct_matches. done.
  - by split.
Qed.

Lemma genesis_inv initial scripts sys s sys' :
  0 ≤ MaxValidators →
  genesis_build MaxValidators into_account initial scripts sys = Ret (s, sys') →
  config_inv (0, s, sys') ∧ committee_inv s sys'.
Proof.
  intros HM. unfold genesis_build. set (l := truncate_from MaxValidators initial).
  unfold bounded_set. case_decide; [|done]. simpl. intros [= <- <-].
  match goal with |- _ ∧ committee_inv ?s0 _ => assert (committee_wf s0) as Hwf end.
  { split; simpl; [done| |done]. unfold l, truncate_from. rewrite length_take. lia. }
  split; [done|]. split; [done|]. simpl.
  intros a Ha. assert (a ∈ sort (elements (accounts l))) as Ha'.
  { rewrite sort_Permutation. by apply elem_of_elements. }
  revert Ha'. generalize (sort (elements (accounts l))). clear -SessionLaws0. intros k.
  cut (∀ sys, a ∈ k ∨ releasable a sys →
    releasable a (foldl (λ sys account, inc_providers account sys) sys k)); [intros Hg Hk; apply Hg; by left|].
  induction k as [|b k IH]; simpl; intros sys0; [set_solver|].
  rewrite elem_of_cons. intros Ha. apply IH.
  destruct Ha as [[->|Ha]|Ha]; [|by left|]; right; apply releasable_inc; eauto.
Qed.

(** ** Properties *)

(** C1. In every state that the chain can reach from its genesis, whatever calls
    and transactions do to accounts and session keys, the planned committee is for
    the epoch after the current one, committees respect the bound and the provided
    accounts are exactly those of the current committee.  Starting the next block
    panics exactly if it rotates the committee and an account that leaves has no
    provider but the committee while something other than its session keys still
    consumes it; nothing else can make it panic, and right after genesis no account is
    in that state. *)
Theorem chain_safety initial scripts sys0 s0 sys0' n s sys e :
  0 ≤ MaxValidators →
  genesis_build MaxValidators into_account initial scripts sys0 = Ret (s0, sys0') →
  rtc chain_step (0, s0, sys0') (n, s, sys) →
  committee_wf s ∧
  (start_block (n + 1) e s sys = Panic ↔
   ∃ nx, NextCommittee s = Some nx ∧ epoch (CurrentCommittee s) < e ∧
     ∃ a, a ∈ ProvidedAccounts s ∖ accounts (committee nx) ∧ providers a sys = 1 ∧ 0 < other_consumers a sys) ∧
  ∀ a, a ∈ ProvidedAccounts s0 → ¬ (providers a sys0' = 1 ∧ 0 < other_consumers a sys0').
Proof.
  intros HM Hg Hreach. destruct (genesis_inv _ _ _ _ _ HM Hg) as [Hg0 Hrel].
  assert (config_inv (n, s, sys)) as (Hn & Hi & Hz).
  { apply (rtc_ind_l (λ c, config_inv c → config_inv (n, s, sys)))
      with (z := (n, s, sys)) (x := (0, s0, sys0')) in Hreach; eauto.
    intros c c' Hs _ IH Hc. apply IH. by eapply chain_step_inv. }
  split; [done|]. split; [apply start_block_panics; [done|]; intros; apply Hz; lia|].
  intros a Ha [H1 H2]. destruct (inv_releasable _ _ Hrel a Ha) as [_ H0]. specialize (H0 H1). lia.
Qed.

(** A rotation seats exactly the planned committee: its accounts gain one
    provider unless they had it already, the accounts that leave lose theirs and
    their keys, other accounts are untouched, and, when the committee's keys
    collide with nobody else's, every member's account has the keys it asked for. *)
Theorem new_session_accounts s sys nx :
  committee_inv s sys →
  NextCommittee s = Some nx → CommitteeRotationStage s ≠ AdditionalSession →
  keys_disjoint (committee nx) sys → (∀ a, other_consumers a sys = 0) →
  let old := ProvidedAccounts s in
  let new := accounts (committee nx) in
  ∃ s' sys', new_session s sys = Ret (account_of <$> committee nx, s', sys') ∧
    CurrentCommittee s' = nx ∧ NextCommittee s' = None ∧ ProvidedAccounts s' = new ∧
    (∀ a, providers a sys' = providers a sys
          + (if decide (a ∈ new ∖ old) then 1 else 0) - (if decide (a ∈ old ∖ new) then 1 else 0)) ∧
    (∀ a, a ∈ old ∖ new → load_keys a sys' = None) ∧
    (∀ a, a ∉ old ∪ new → load_keys a sys' = load_keys a sys) ∧
    (∀ pre m post, committee nx = pre ++ m :: post → account_of m ∉ accounts pre →
       load_keys (account_of m) sys' = Some (into_keys (authority_keys m))).
Proof.
  intros [[Hnext _ Hprov] Hrel] Hnx Hst Hd Hc old new.
  destruct (new_session_spec s sys nx) as (sys' & Hns & Hp & _ & Hleave & Hother & Hnew);
    [done|done|by apply Hnext|done|].
  eexists _, sys'. split_and!; [exact Hns|done|done|done|done|done|done|].
  intros pre m post Hl Hpre. rewrite Hnew.
  - eapply seat_members_keys; [done|done| |done|done|set_solver].
    intros a Ha. destruct (Hrel a Ha). lia.
  - apply elem_of_accounts. exists m. split; [|done]. rewrite Hl. set_solver.
Qed.

(** Successful calls, in any number and order. *)
Definition calls : State → State → Prop :=
  rtc (λ s s', ∃ origin call, dispatch origin call s = Ok s').

Lemma calls_fields s s' :
  calls s s' → CurrentCommittee s' = CurrentCommittee s ∧
  CommitteeRotationStage s' = CommitteeRotationStage s.
Proof.
  induction 1 as [|s1 s2 s3 (o & c & Hd) _ IH]; [done|].
  destruct (dispatch_fields _ _ _ _ Hd) as (H1 & _ & H2). by rewrite <-H1, <-H2.
Qed.


End Session.

(** ** The inherent *)

Section Inherent.
Context {Sys AccountId A K SK Inputs : Type}.
Context `{Countable AccountId, !Ord AccountId, EqDecision A, EqDecision K, EqDecision SK}.
Context `{Hops : SessionOps Sys AccountId SK, !SessionLaws Sys AccountId SK}.
Context (MaxValidators : Z) (into_account : A → AccountId) (into_keys : K → SK).
Context (select_authorities : Inputs → Z → option (list (CommitteeMember A K))).
Context (inputs_hash : Inputs → bytes).

(** C4. The author of a block and its verifiers agree on the inherent: the call
    that [create_inherent] builds after the block has started is accepted by
    [check_inherent] on the state of the parent block, even when the selection
    fails and the committee is repeated, and executing it succeeds and plans a
    committee, after which no further inherent is created or required. *)
Theorem inherent_agreement n e (s : CommitteeState AccountId A K) sys v s' sys' data call :
  start_block MaxValidators into_account into_keys n e s sys = Ret (v, s', sys') →
  create_inherent select_authorities inputs_hash data s' = Ret (Some call) →
  check_inherent select_authorities inputs_hash call data s = Ret (Ok tt) ∧
  ∃ s'', dispatch None_ call s' = Ok s'' ∧
    NextCommittee s'' ≠ None ∧ is_inherent_required s'' = Ok None ∧
    create_inherent select_authorities inputs_hash data s'' = Ret None.
Proof.
  intros Hstart Hcreate. apply start_block_effect in Hstart; [|apply _].
  unfold create_inherent in Hcreate. case_decide as Hnone; [done|].
  assert (NextCommittee s' = None) as Hs' by (destruct (NextCommittee s'); [by destruct Hnone|done]).
  destruct (inherent_data_to_authority_selection_inputs inputs_hash data) as [[inputs h]|] eqn:Hd; [|done].
  simpl in Hcreate.
  set (ep := wadd 64 (epoch (CurrentCommittee s')) 1) in *.
  assert (committee (default (CurrentCommittee s) (NextCommittee s)) = committee (CurrentCommittee s')) as Hcm.
  { assert (NextCommittee (on_initialize n e s) = NextCommittee s ∧
      committee (CurrentCommittee (on_initialize n e s)) = committee (CurrentCommittee s)) as [Hn Hc].
    { unfold on_initialize. by destruct (n =? 1). }
    inversion Hstart as [nx Hnx _ Heq|_ _ Heq|Heq]; subst s'; simpl in *; rewrite Hn in *.
    - by rewrite Hnx.
    - rewrite Hs'. simpl. by rewrite Hc.
    - rewrite Hs'. simpl. by rewrite Hc. }
  assert (∃ validators, call = Set_ validators ep h ∧
    validators = match select_authorities inputs ep with
                 | Some l => l | None => committee (CurrentCommittee s') end) as (l & -> & Hl).
  { destruct (select_authorities inputs ep); simplify_eq; eauto. }
  split.
  - unfold check_inherent. rewrite Hd. simpl. rewrite Hcm, decide_False; [done|].
    subst l. by intros Hne; apply Hne; destruct (select_authorities inputs ep).
  - unfold dispatch, set, ensure. simpl. fold ep. rewrite Z.eqb_refl. simpl.
    rewrite bool_decide_true by done. simpl.
    eexists. split; [done|]. by unfold is_inherent_required, create_inherent; simpl.
Qed.

(** [check_inherent] accepts a committee only if it is the one that the
    verifier's own inputs select for the epoch of the call, or the committee
    already planned (or the current one) if those inputs select none. *)
Theorem check_inherent_sound (s : CommitteeState AccountId A K) data inputs validators ep h :
  data = Ok (Some inputs) →
  check_inherent select_authorities inputs_hash (Set_ validators ep h) data s = Ret (Ok tt) ↔
  validators = default (committee (default (CurrentCommittee s) (NextCommittee s)))
                 (select_authorities inputs ep).
Proof.
  intros ->. simpl. case_decide as Hv.
  - split; [destruct (decide (h = _)); discriminate|]. intros ->. exfalso. apply Hv. by destruct (select_authorities inputs ep).
  - split; [|done]. intros _. rewrite Hv. by destruct (select_authorities inputs ep).
Qed.

End Inherent.

(** ** Witnesses: accounts, authorities and keys are integers *)

Definition empty_sys : ToySys := λ _, mkAccountData 0 0 None.
Definition no_scripts : MainChainScripts := mkScripts [] [] [].
Definition member (a k : Z) : CommitteeMember Z Z := Permissioned a k.

(** Accounts 1 and 2 are in office with keys 11 and 12, accounts 2 and 3 follow. *)
Definition office_sys : ToySys := λ a,
  if decide (a = 1) then mkAccountData 1 0 (Some 11)
  else if decide (a = 2) then mkAccountData 1 0 (Some 12)
  else mkAccountData 0 0 None.
Definition office : CommitteeState Z Z Z :=
  mkCommitteeState {[1; 2]} (mkCommitteeInfo 4 [member 1 11; member 2 12])
    (Some (mkCommitteeInfo 5 [member 2 22; member 3 13; member 2 12])) AwaitEpochChange no_scripts 0.

Lemma office_inv : committee_inv 10 id office office_sys.
Proof.
  split; [split|].
  - intros nx [= <-]. by split.
  - done.
  - apply set_eq. intros a. unfold accounts. set_solver.
  - intros a Ha. simpl in Ha. assert (a = 1 ∨ a = 2) as [-> | ->] by set_solver; by split.
Qed.

(** One block, then account 1 gets a consumer: account 1 stays, so that the next
    block starts. *)
Lemma chain_safety_witness :
  ∃ r, start_block 10 id id 2 1
    (mkCommitteeState (K:=Z) {[1]} (mkCommitteeInfo 0 [member 1 11]) None AwaitEpochChange no_scripts 0)
    (λ a, if decide (a = 1) then mkAccountData 1 1 None else empty_sys a) = Ret r.
Proof.
  assert (genesis_build 10 id [member 1 11] no_scripts empty_sys
    = Ret (mkCommitteeState (K:=Z) {[1]} (mkCommitteeInfo 0 [member 1 11]) None AwaitEpochChange no_scripts 0,
           inc_providers 1 empty_sys)) as Hg by reflexivity.
  destruct (chain_safety 10 id id [member 1 11] no_scripts empty_sys _ _ 1
    (mkCommitteeState (K:=Z) {[1]} (mkCommitteeInfo 0 [member 1 11]) None AwaitEpochChange no_scripts 0)
    (λ a, if decide (a = 1) then mkAccountData 1 1 None else empty_sys a) 1 ltac:(done) Hg) as (_ & Hpanic & _).
  - eapply rtc_l; [eapply (step_start 10 id id 0 0 _ _ None); [done|reflexivity]|].
    eapply rtc_l; [apply step_environment|apply rtc_refl].
  - destruct (start_block _ _ _ _ _ _ _) as [r|]; [by exists r|].
    destruct (proj1 Hpanic eq_refl) as (nx & Hnx & _). discriminate Hnx.
Defined.

Lemma new_session_accounts_witness :
  ∃ s' sys', new_session 10 id id office office_sys = Ret ([2; 3; 2], s', sys') ∧
    providers 1 sys' = 0 ∧ load_keys 2 sys' = Some 22 ∧ load_keys 1 sys' = None.
Proof.
  destruct (new_session_accounts 10 id id office office_sys
    (mkCommitteeInfo 5 [member 2 22; member 3 13; member 2 12]) office_inv)
    as (s' & sys' & Hns & _ & _ & _ & Hp & Hl & _ & Hk).
  - done.
  - done.
  - split.
    + intros m m'. simpl. rewrite !elem_of_cons, !elem_of_nil.
      intros [->|[->|[->|[]]]] [->|[->|[->|[]]]]; done.
    + intros m b k. simpl. rewrite !elem_of_cons, !elem_of_nil. unfold office_sys.
      intros [->|[->|[->|[]]]] Hb; repeat case_decide; simpl; intros; by simplify_eq.
  - intros a. simpl. unfold toy_consumers, office_sys. by repeat case_decide.
  - exists s', sys'. split; [exact Hns|]. split_and!.
    + rewrite Hp. reflexivity.
    + apply (Hk [] (member 2 22) _ eq_refl). apply not_elem_of_empty.
    + apply Hl. by vm_compute.
Defined.


(** Even inputs select nobody. *)
Definition toy_select (inputs e : Z) : option (list (CommitteeMember Z Z)) :=
  if Z.even inputs then None else Some [member inputs e].

Lemma inherent_agreement_witness :
  check_inherent toy_select (λ i, [i]) (Set_ [member 2 22; member 3 13; member 2 12] 6 [8])
    (Ok (Some 8)) office = Ret (Ok tt).
Proof.
  refine (proj1 (inherent_agreement 10 id id toy_select (λ i, [i]) 7 5 office office_sys
    (Some [2; 3; 2]) _ _ (Ok (Some 8)) _ _ _)); [vm_compute; reflexivity|reflexivity].
Defined.

Lemma check_inherent_sound_witness :
  check_inherent toy_select (λ i, [i]) (Set_ [member 7 6] 6 []) (Ok (Some 7)) office = Ret (Ok tt).
Proof.
  apply (check_inherent_sound toy_select (λ i, [i]) office (Ok (Some 7)) 7); reflexivity.
Defined.

(** ** Two limits of the rotation *)

(** Keys are set for the new members before those of the leaving ones are
    purged: account 3, which takes over the key of the leaving account 1, ends up
    in the committee without keys. *)
Example key_handover_loses_keys :
  match new_session 10 id id
    (put_next (Some (mkCommitteeInfo 5 [member 2 12; member 3 11])) office) office_sys with
  | Ret (validators, _, sys') => validators = [2; 3] ∧ load_keys 3 sys' = None ∧ load_keys 1 sys' = None
  | Panic => False
  end.
Proof. vm_compute. done. Qed.

(** The [expect] in [unprovide_account] does fail when some other pallet holds a
    consumer reference on a leaving account that has no other provider. *)
Example foreign_consumer_halts_rotation :
  new_session 10 id id office
    (λ a, if decide (a = 1) then mkAccountData 1 1 (Some 11) else office_sys a) = Panic.
Proof. vm_compute. done. Qed.
