(* ===== verification/CommitteeMigrations.v ===== *)
(** * Storage migrations of the committee pallet

    Models [toolkit/committee-selection/pallet/src/migrations]: the upgrade of
    the authority keys and the upgrade of committees from version 0 to 1. *)

From S2P Require Import Prelude Domain CommitteePallet.

(** ** Upgrade of the authority keys *)

Section AuthorityKeys.
Context {AccountId A OldKeys NewKeys OldSys NewSys : Type} `{Countable AccountId}.
Context (MaxValidators FROM_VERSION TO_VERSION : Z) (upgrade : OldKeys → NewKeys).
(** [pallet_session::upgrade_keys] *)
Context (upgrade_session_keys : (OldKeys → NewKeys) → OldSys → NewSys).

Definition upgrade_bounded_vec (old : list (CommitteeMember A OldKeys)) :
    list (CommitteeMember A NewKeys) :=
  truncate_from MaxValidators (map_authority_keys upgrade <$> old).

Definition upgrade_committee_info (old : CommitteeInfo A OldKeys) : CommitteeInfo A NewKeys :=
  mkCommitteeInfo (epoch old) (upgrade_bounded_vec (committee old)).

(** Storage that is left alone stays in its old format. *)
Definition on_runtime_upgrade (s : CommitteeState AccountId A OldKeys) (sys : OldSys) :
    (CommitteeState AccountId A OldKeys * OldSys) + (CommitteeState AccountId A NewKeys * NewSys) :=
  let current_version := AuthorityKeysVersion s in
  if TO_VERSION <=? current_version then inl (s, sys)
  else if negb (current_version =? FROM_VERSION) then inl (s, sys)
  else
    inr (mkCommitteeState (ProvidedAccounts s)
           (upgrade_committee_info (CurrentCommittee s))
           (upgrade_committee_info <$> NextCommittee s)
           (CommitteeRotationStage s) (MainChainScriptsConfiguration s) TO_VERSION,
         upgrade_session_keys upgrade sys).

Lemma upgrade_bounded_vec_eq old :
  Z.of_nat (length old) ≤ MaxValidators →
  upgrade_bounded_vec old = map_authority_keys upgrade <$> old.
Proof.
  intros Hlen. unfold upgrade_bounded_vec, truncate_from.
  apply take_ge. rewrite length_fmap. lia.
Qed.

Lemma map_authority_keys_id (m : CommitteeMember A OldKeys) :
  authority_id (map_authority_keys upgrade m) = authority_id m ∧
  authority_keys (map_authority_keys upgrade m) = upgrade (authority_keys m).
Proof. by destruct m. Qed.

End AuthorityKeys.

(** The key migration runs exactly when the stored version is [FROM] and
    older than [TO]; it then keeps the epoch, the order and the identity of every
    member of both committees, upgrades all of their keys, and records [TO], so
    that the same migration does nothing the next time. *)
Theorem authority_keys_migration {AccountId A K K' Sys Sys' : Type} `{Countable AccountId}
    MaxValidators FROM TO (upgrade : K → K') (upgrade_sys : (K → K') → Sys → Sys')
    (s : CommitteeState AccountId A K) sys :
  Z.of_nat (length (committee (CurrentCommittee s))) ≤ MaxValidators →
  (∀ nx, NextCommittee s = Some nx → Z.of_nat (length (committee nx)) ≤ MaxValidators) →
  match on_runtime_upgrade MaxValidators FROM TO upgrade upgrade_sys s sys with
  | inl (s', sys') => (TO ≤ AuthorityKeysVersion s ∨ AuthorityKeysVersion s ≠ FROM) ∧ s' = s ∧ sys' = sys
  | inr (s', sys') =>
      AuthorityKeysVersion s = FROM ∧ FROM < TO ∧
      let same (i : CommitteeInfo A K) (i' : CommitteeInfo A K') :=
        epoch i' = epoch i ∧
        authority_id <$> committee i' = authority_id <$> committee i ∧
        authority_keys <$> committee i' = upgrade <$> (authority_keys <$> committee i) in
      same (CurrentCommittee s) (CurrentCommittee s') ∧
      option_Forall2 same (NextCommittee s) (NextCommittee s') ∧
      sys' = upgrade_sys upgrade sys ∧
      ∀ (upgrade' : K' → K') (upgrade_sys' : (K' → K') → Sys' → Sys'),
        on_runtime_upgrade MaxValidators FROM TO upgrade' upgrade_sys' s' sys' = inl (s', sys')
  end.
Proof.
  intros Hcur Hnext. unfold on_runtime_upgrade at 1.
  destruct (Z.leb_spec TO (AuthorityKeysVersion s)) as [Hto|Hto]; [by auto|].
  destruct (Z.eqb_spec (AuthorityKeysVersion s) FROM) as [Hf|Hf]; simpl; [|by auto].
  split; [done|]. split; [lia|].
  assert (∀ i : CommitteeInfo A K, Z.of_nat (length (committee i)) ≤ MaxValidators →
    let i' := upgrade_committee_info MaxValidators upgrade i in
    epoch i' = epoch i ∧ authority_id <$> committee i' = authority_id <$> committee i ∧
    authority_keys <$> committee i' = upgrade <$> (authority_keys <$> committee i)) as Hsame.
  { intros i Hi. simpl. rewrite upgrade_bounded_vec_eq by done. split; [done|].
    rewrite <-!list_fmap_compose. split; apply list_fmap_ext; intros ? m _; apply map_authority_keys_id. }
  split; [by apply Hsame|]. split; [|split; [done|]].
  - destruct (NextCommittee s) as [nx|] eqn:Hnx; constructor. by apply Hsame, Hnext.
  - intros. unfold on_runtime_upgrade. simpl. by rewrite Z.leb_refl.
Qed.

(** ** From version 0 to 1 *)

Record LegacyCommitteeInfo (A K : Type) := mkLegacy {
  legacy_epoch : Z;
  legacy_committee : list (A * K);
}.
Arguments mkLegacy {A K}.
Arguments legacy_epoch {A K}.
Arguments legacy_committee {A K}.

Section V0ToV1.
Context {A K : Type} `{EqDecision A, EqDecision K} (MaxValidators : Z).

Definition migrate_info (v0 : LegacyCommitteeInfo A K) : CommitteeInfo A K :=
  mkCommitteeInfo (legacy_epoch v0) (truncate_from MaxValidators (from_pair <$> legacy_committee v0)).

(** [InnerMigrateV0ToV1::on_runtime_upgrade] on the two committees in storage. *)
Definition migrate_v0_to_v1 (current : LegacyCommitteeInfo A K)
    (next : option (LegacyCommitteeInfo A K)) : CommitteeInfo A K * option (CommitteeInfo A K) :=
  let current_committee_v1 := migrate_info current in
  match next with
  | None => (current_committee_v1, None)
  | Some next_committee_v0 => (current_committee_v1, Some (migrate_info next_committee_v0))
  end.

Inductive UpgradeError :=
  | CurrentEpochChanged | CurrentMembersChanged
  | NextOnlyInV1 | NextOnlyInV0 | NextEpochChanged | NextMembersChanged.

Definition members_of (info : CommitteeInfo A K) : list (A * K) :=
  (λ member, (authority_id member, authority_keys member)) <$> committee info.

(** [post_upgrade], which checks the migration under [try-runtime].  Its guard
    tests [next_committee_v0] twice, so it returns early whenever that is absent. *)
Definition post_upgrade (current_v0 : LegacyCommitteeInfo A K)
    (next_v0 : option (LegacyCommitteeInfo A K))
    (current_v1 : CommitteeInfo A K) (next_v1 : option (CommitteeInfo A K)) :
    result UpgradeError unit :=
  _ ← ensure (legacy_epoch current_v0 =? epoch current_v1) CurrentEpochChanged;
  _ ← ensure (bool_decide (legacy_committee current_v0 = members_of current_v1)) CurrentMembersChanged;
  match next_v0, next_v1 with
  | None, _ => Ok tt
  | Some _, None => Err NextOnlyInV0
  | Some next_v0, Some next_v1 =>
      _ ← ensure (legacy_epoch next_v0 =? epoch next_v1) NextEpochChanged;
      ensure (bool_decide (legacy_committee next_v0 = members_of next_v1)) NextMembersChanged
  end.

Lemma members_of_migrate v0 :
  Z.of_nat (length (legacy_committee v0)) ≤ MaxValidators →
  members_of (migrate_info v0) = legacy_committee v0.
Proof.
  intros Hlen. unfold members_of, migrate_info, truncate_from. simpl.
  rewrite take_ge by (rewrite length_fmap; lia). rewrite <-list_fmap_compose.
  rewrite <-(list_fmap_id (legacy_committee v0)) at 2. apply list_fmap_ext. by intros ? [].
Qed.

End V0ToV1.

(** The migration to version 1 loses nothing, and its own check accepts it. *)
Theorem v0_to_v1_migration {A K : Type} `{EqDecision A, EqDecision K} MaxValidators
    (current : LegacyCommitteeInfo A K) next :
  Z.of_nat (length (legacy_committee current)) ≤ MaxValidators →
  (∀ nx, next = Some nx → Z.of_nat (length (legacy_committee nx)) ≤ MaxValidators) →
  let '(current', next') := migrate_v0_to_v1 MaxValidators current next in
  epoch current' = legacy_epoch current ∧ members_of current' = legacy_committee current ∧
  option_Forall2 (λ nx nx', epoch nx' = legacy_epoch nx ∧ members_of nx' = legacy_committee nx) next next' ∧
  post_upgrade current next current' next' = Ok tt.
Proof.
  intros Hcur Hnext. unfold migrate_v0_to_v1, post_upgrade, ensure.
  pose proof (members_of_migrate MaxValidators current Hcur) as Hm.
  destruct next as [nx|].
  - pose proof (members_of_migrate MaxValidators nx (Hnext nx eq_refl)) as Hmx.
    split_and!; [done..|by constructor|]. simpl. rewrite !Z.eqb_refl, Hm, Hmx. simpl.
    by rewrite !bool_decide_true by done.
  - split_and!; [done..|constructor|]. rewrite Z.eqb_refl, Hm. simpl. by rewrite bool_decide_true.
Qed.

(** The check repeats the condition on version 0 where it means version 1: it
    accepts a next committee that appeared out of nowhere. *)
Example post_upgrade_accepts_invented_committee :
  post_upgrade (mkLegacy 1 [(1, 2)]) None
    (mkCommitteeInfo 1 [Permissioned 1 2]) (Some (mkCommitteeInfo 9 [Permissioned 7 7])) = Ok tt.
Proof. reflexivity. Qed.

(** ** Witnesses *)

Lemma authority_keys_migration_witness :
  ∃ s', on_runtime_upgrade 5 1 2 Z.succ (λ f (keys : list Z), f <$> keys)
    (mkCommitteeState (AccountId:=Z) ∅ (mkCommitteeInfo 3 [Permissioned 1 10]) None AwaitEpochChange
       (mkScripts [] [] []) 1) [10]
  = inr (s', [11]) ∧ AuthorityKeysVersion s' = 2 ∧
    authority_keys <$> committee (CurrentCommittee s') = [11].
Proof.
  pose proof (authority_keys_migration 5 1 2 Z.succ (λ f (keys : list Z), f <$> keys)
    (mkCommitteeState (AccountId:=Z) ∅ (mkCommitteeInfo 3 [Permissioned 1 10]) None AwaitEpochChange
       (mkScripts [] [] []) 1) [10] ltac:(done) ltac:(done)) as H.
  eexists. split; [vm_compute; reflexivity|]. split; [reflexivity|].
  destruct H as (_ & _ & (_ & _ & Hkeys) & _). exact Hkeys.
Defined.

Lemma v0_to_v1_migration_witness :
  post_upgrade (mkLegacy 1 [(1, 2)]) None (migrate_info 5 (mkLegacy 1 [(1, 2)])) None = Ok tt.
Proof.
  apply (v0_to_v1_migration 5 (mkLegacy 1 [(1, 2)]) None); [done|by intros].
Defined.
