(* ===== verification/PlutusData.v ===== *)
(** * Plutus data and its CBOR encoding

    Models [toolkit/utils/plutus/src/lib.rs] and
    [toolkit/utils/plutus/src/cbor.rs].  The encoder is written against the
    [minicbor] crate, one call per CBOR item: the model lists the items, and the
    bytes of each item and the magnitude bytes of a [num_bigint] integer are the
    class [CborWriter].  A reference decoder of Plutus data, in the shape of the
    one in plutus-core, gives the encoding its meaning. *)

From S2P Require Import Prelude Domain.

(** ** Data *)

Set Warnings "-register-all".

Inductive Datum :=
  | IntegerDatum (i : Z)
  | ByteStringDatum (b : bytes)
  | ConstructorDatum (constructor : Z) (fields : list Datum)
  | ListDatum (items : list Datum)
  | MapDatum (entries : list (Datum * Datum)).

Definition as_bytestring (d : Datum) : option bytes :=
  match d with ByteStringDatum b => Some b | _ => None end.

(** The trait [ToDatum], with the implementations for the built-in types. *)
Class ToDatum (A : Type) := to_datum : A → Datum.
#[export] Instance bytes_to_datum : ToDatum bytes := ByteStringDatum.
#[export] Instance option_to_datum `{ToDatum A} : ToDatum (option A) := λ o,
  match o with
  | Some value => ConstructorDatum 0 [to_datum value]
  | None => ConstructorDatum 1 []
  end.
Definition vec_to_datum `{ToDatum A} (l : list A) : Datum := ListDatum (to_datum <$> l).
Definition uint_to_datum (n : Z) : Datum := IntegerDatum n.
#[export] Instance datum_to_datum : ToDatum Datum := λ d, d.

(** Implementations derived by [plutus-datum-derive]: several fields become a
    constructor datum, a single field is passed through unless the type has the
    [constructor_datum] attribute, as [McTxHash] has. *)
Definition McTxHash_to_datum (hash : bytes) : Datum := ConstructorDatum 0 [ByteStringDatum hash].
Definition UtxoIndex_to_datum (index : Z) : Datum := uint_to_datum index.
#[export] Instance UtxoId_to_datum : ToDatum UtxoId := λ u,
  ConstructorDatum 0 [McTxHash_to_datum (tx_hash u); UtxoIndex_to_datum (utxo_index u)].

(** ** The encoder *)

(** The calls of [minicbor::Encoder]: [i64]/[u64], [bytes], [begin_bytes],
    [begin_array], [end], [tag], [array], [map]. *)
Inductive Token :=
  | TInt (n : Z)
  | TBytes (b : bytes)
  | TBeginBytes
  | TBeginArray
  | TEnd
  | TTag (t : Z)
  | TArray (n : Z)
  | TMap (n : Z).

Class CborWriter := {
  token_bytes : Token → bytes;
  magnitude_be : Z → bytes;
}.

Definition BYTES_CHUNK_SIZE_LIMIT : nat := 64.
Definition PosBignum : Z := 2.
Definition NegBignum : Z := 3.
Definition CONSTRUCTOR_OVER_LIMIT_TAG : Z := 102.

Definition constructor_small_tag (value : Z) : Z := wadd 64 value 121.
Definition constructor_big_tag (value : Z) : Z := wsub 64 (wadd 64 1280 value) 7.

(** [slice::chunks] *)
Fixpoint chunks_fuel {A} (fuel : nat) (n : nat) (l : list A) : list (list A) :=
  match fuel, l with
  | S fuel, _ :: _ => take n l :: chunks_fuel fuel n (drop n l)
  | _, _ => []
  end.
Definition chunks {A} (n : nat) (l : list A) : list (list A) := chunks_fuel (length l) n l.

Section Encoder.
Context `{CborWriter}.

Definition encode_bytestring (b : bytes) : list Token :=
  if decide (length b ≤ BYTES_CHUNK_SIZE_LIMIT)%nat then [TBytes b]
  else TBeginBytes :: (TBytes <$> chunks BYTES_CHUNK_SIZE_LIMIT b) ++ [TEnd].

Definition encode_integer (i : Z) : list Token :=
  if decide (- 2 ^ 63 ≤ i < 2 ^ 63) then [TInt i]
  else
    TTag (if decide (0 < i) then PosBignum else NegBignum)
    :: encode_bytestring (magnitude_be (Z.abs i)).

(** Takes the encodings of the elements. *)
Definition encode_linear_seq (ds : list (list Token)) : list Token :=
  if is_empty ds then [TArray 0] else TBeginArray :: concat ds ++ [TEnd].

Definition encode_constructor_over_limit_fields (constructor : Z) (ds : list (list Token)) :
    list Token :=
  [TArray 2; TInt constructor] ++ encode_linear_seq ds.

Definition encode_constructor (constructor : Z) (fields : list (list Token)) : list Token :=
  if constructor <? 7 then TTag (constructor_small_tag constructor) :: encode_linear_seq fields
  else if (7 <=? constructor) && (constructor <? 128)
  then TTag (constructor_big_tag constructor) :: encode_linear_seq fields
  else TTag CONSTRUCTOR_OVER_LIMIT_TAG :: encode_constructor_over_limit_fields constructor fields.

Definition encode_entries (entries : list (list Token * list Token)) : list Token :=
  TMap (Z.of_nat (length entries)) :: concat (map (λ kv, kv.1 ++ kv.2) entries).

Fixpoint encode_datum (d : Datum) : list Token :=
  match d with
  | IntegerDatum bi => encode_integer bi
  | ByteStringDatum b => encode_bytestring b
  | ConstructorDatum constructor fields => encode_constructor constructor (map encode_datum fields)
  | ListDatum items => encode_linear_seq (map encode_datum items)
  | MapDatum entries =>
      encode_entries (map (λ kv, (encode_datum kv.1, encode_datum kv.2)) entries)
  end.

(** [minicbor::to_vec]; writing to a vector cannot fail. *)
Definition to_vec (d : Datum) : bytes := concat (map token_bytes (encode_datum d)).
Definition to_datum_cbor_bytes `{ToDatum A} (msg : A) : bytes := to_vec (to_datum msg).

End Encoder.

(** ** The reference decoder *)

Fixpoint decode_chunks (ts : list Token) : option (bytes * list Token) :=
  match ts with
  | TEnd :: ts => Some ([], ts)
  | TBytes b :: ts => '(b', ts) ← decode_chunks ts; Some (b ++ b', ts)
  | _ => None
  end.
Definition decode_bytestring (ts : list Token) : option (bytes * list Token) :=
  match ts with
  | TBytes b :: ts => Some (b, ts)
  | TBeginBytes :: ts => decode_chunks ts
  | _ => None
  end.

Section Decoder.
Context (dec : list Token → option (Datum * list Token)).

Fixpoint decode_until_end (k : nat) (ts : list Token) : option (list Datum * list Token) :=
  match ts, k with
  | TEnd :: ts, _ => Some ([], ts)
  | _, O => None
  | _, S k => '(d, ts) ← dec ts; '(l, ts) ← decode_until_end k ts; Some (d :: l, ts)
  end.
Fixpoint decode_many (n : nat) (ts : list Token) : option (list Datum * list Token) :=
  match n with
  | O => Some ([], ts)
  | S n => '(d, ts) ← dec ts; '(l, ts) ← decode_many n ts; Some (d :: l, ts)
  end.
Fixpoint decode_pairs (n : nat) (ts : list Token) : option (list (Datum * Datum) * list Token) :=
  match n with
  | O => Some ([], ts)
  | S n =>
      '(k, ts) ← dec ts; '(v, ts) ← dec ts;
      '(l, ts) ← decode_pairs n ts; Some ((k, v) :: l, ts)
  end.
Definition decode_seq (ts : list Token) : option (list Datum * list Token) :=
  match ts with
  | TArray n :: ts => decode_many (Z.to_nat n) ts
  | TBeginArray :: ts => decode_until_end (length ts) ts
  | _ => None
  end.
Definition decode_tagged (t : Z) (ts : list Token) : option (Datum * list Token) :=
  if t =? 2 then '(b, ts) ← decode_bytestring ts; Some (IntegerDatum (from_be b), ts)
  else if t =? 3 then '(b, ts) ← decode_bytestring ts; Some (IntegerDatum (-1 - from_be b), ts)
  else if (121 <=? t) && (t <? 128) then '(l, ts) ← decode_seq ts; Some (ConstructorDatum (t - 121) l, ts)
  else if (1280 <=? t) && (t <? 1401) then
    '(l, ts) ← decode_seq ts; Some (ConstructorDatum (t - 1280 + 7) l, ts)
  else if t =? 102 then
    match ts with
    | TArray 2 :: TInt c :: ts => '(l, ts) ← decode_seq ts; Some (ConstructorDatum c l, ts)
    | _ => None
    end
  else None.
End Decoder.

(** [fuel] bounds the nesting depth. *)
Fixpoint decode_datum (fuel : nat) (ts : list Token) : option (Datum * list Token) :=
  match fuel with
  | O => None
  | S fuel =>
      match ts with
      | TInt n :: ts => Some (IntegerDatum n, ts)
      | TBytes _ :: _ | TBeginBytes :: _ =>
          '(b, ts) ← decode_bytestring ts; Some (ByteStringDatum b, ts)
      | TTag t :: ts => decode_tagged (decode_datum fuel) t ts
      | TArray _ :: _ | TBeginArray :: _ =>
          '(l, ts) ← decode_seq (decode_datum fuel) ts; Some (ListDatum l, ts)
      | TMap n :: ts => '(l, ts) ← decode_pairs (decode_datum fuel) (Z.to_nat n) ts; Some (MapDatum l, ts)
      | _ => None
      end
  end.

Definition decode (ts : list Token) : option Datum :=
  match decode_datum (length ts) ts with Some (d, []) => Some d | _ => None end.

(** ** Round trip *)

Section DatumInd.
Context (P : Datum → Prop).
Hypothesis Hint : ∀ i, P (IntegerDatum i).
Hypothesis Hbytes : ∀ b, P (ByteStringDatum b).
Hypothesis Hconstr : ∀ c l, Forall P l → P (ConstructorDatum c l).
Hypothesis Hlist : ∀ l, Forall P l → P (ListDatum l).
Hypothesis Hmap : ∀ l, Forall (λ kv, P kv.1 ∧ P kv.2) l → P (MapDatum l).

Fixpoint Datum_nested_ind (d : Datum) : P d :=
  match d with
  | IntegerDatum i => Hint i
  | ByteStringDatum b => Hbytes b
  | ConstructorDatum c l =>
      Hconstr c l ((fix go l := match l return Forall P l with
        | [] => List.Forall_nil _
        | x :: l => List.Forall_cons _ x l (Datum_nested_ind x) (go l) end) l)
  | ListDatum l =>
      Hlist l ((fix go l := match l return Forall P l with
        | [] => List.Forall_nil _
        | x :: l => List.Forall_cons _ x l (Datum_nested_ind x) (go l) end) l)
  | MapDatum l =>
      Hmap l ((fix go l := match l return Forall (λ kv, P kv.1 ∧ P kv.2) l with
        | [] => List.Forall_nil _
        | x :: l => List.Forall_cons _ x l
            (conj (Datum_nested_ind x.1) (Datum_nested_ind x.2)) (go l) end) l)
  end.
End DatumInd.

Definition max_of (l : list nat) : nat := foldr Nat.max 0%nat l.

Fixpoint depth (d : Datum) : nat :=
  match d with
  | IntegerDatum _ | ByteStringDatum _ => 1
  | ConstructorDatum _ l | ListDatum l => S (max_of (map depth l))
  | MapDatum l => S (max_of (map (λ kv, Nat.max (depth kv.1) (depth kv.2)) l))
  end.

(** Constructor numbers are [u64] values. *)
Inductive datum_wf : Datum → Prop :=
  | wf_integer i : datum_wf (IntegerDatum i)
  | wf_bytes b : datum_wf (ByteStringDatum b)
  | wf_constructor c l : in_u 64 c → Forall datum_wf l → datum_wf (ConstructorDatum c l)
  | wf_list l : Forall datum_wf l → datum_wf (ListDatum l)
  | wf_map l : Forall (λ kv, datum_wf kv.1 ∧ datum_wf kv.2) l → datum_wf (MapDatum l).

(** What a decoder makes of an encoded datum: an integer below [-2^63] is read
    as the next smaller one, everything else as itself. *)
Definition observed_integer (i : Z) : Z := if decide (i < - 2 ^ 63) then i - 1 else i.
Fixpoint observed (d : Datum) : Datum :=
  match d with
  | IntegerDatum i => IntegerDatum (observed_integer i)
  | ByteStringDatum b => ByteStringDatum b
  | ConstructorDatum c l => ConstructorDatum c (map observed l)
  | ListDatum l => ListDatum (map observed l)
  | MapDatum l => MapDatum (map (λ kv, (observed kv.1, observed kv.2)) l)
  end.

Lemma max_of_le l n : (max_of l ≤ n)%nat ↔ Forall (λ x, x ≤ n)%nat l.
Proof.
  induction l as [|x l IH]; simpl; [split; [constructor|lia]|].
  rewrite Nat.max_lub_iff, IH, Forall_cons. done.
Qed.

Lemma chunks_fuel_concat {A} fuel n (l : list A) :
  (0 < n)%nat → (length l ≤ fuel)%nat → concat (chunks_fuel fuel n l) = l.
Proof.
  intros Hn. revert l. induction fuel as [|fuel IH]; intros [|x l] Hl; simpl in *; try done; [lia|].
  destruct n as [|n]; [lia|]. simpl. rewrite IH by (rewrite length_drop; lia).
  by rewrite take_drop.
Qed.

Section RoundTrip.
Context `{CborWriter}.
(** The documented behaviour of [BigInt::to_bytes_be]. *)
Hypothesis magnitude_be_spec : ∀ n, 0 ≤ n → from_be (magnitude_be n) = n.

Lemma decode_chunks_encode cs rest :
  decode_chunks ((TBytes <$> cs) ++ TEnd :: rest) = Some (concat cs, rest).
Proof. induction cs as [|c cs IH]; csimpl; [done|]. by rewrite IH. Qed.

Lemma decode_bytestring_encode b rest :
  decode_bytestring (encode_bytestring b ++ rest) = Some (b, rest).
Proof.
  unfold encode_bytestring. case_decide; [done|]. simpl. rewrite <-app_assoc. simpl.
  rewrite decode_chunks_encode. unfold chunks, BYTES_CHUNK_SIZE_LIMIT.
  by rewrite chunks_fuel_concat by lia.
Qed.

Lemma encode_bytestring_short b :
  (length b ≤ 64)%nat → encode_bytestring b = [TBytes b].
Proof. intros Hb. unfold encode_bytestring. by rewrite decide_True. Qed.
Lemma encode_integer_small i : - 2 ^ 63 ≤ i < 2 ^ 63 → encode_integer i = [TInt i].
Proof. intros Hi. unfold encode_integer. by rewrite decide_True. Qed.

Lemma encode_bytestring_head b : ∃ t ts, encode_bytestring b = t :: ts ∧ (t = TBytes b ∨ t = TBeginBytes).
Proof. unfold encode_bytestring. case_decide; eauto. Qed.

Lemma encode_datum_head d : ∃ t ts, encode_datum d = t :: ts ∧ t ≠ TEnd.
Proof.
  destruct d as [i|b|c l|l|l]; simpl.
  - unfold encode_integer. case_decide; eauto.
  - destruct (encode_bytestring_head b) as (t & ts & -> & [-> | ->]); eauto.
  - unfold encode_constructor. repeat case_match; eauto.
  - unfold encode_linear_seq. case_match; eauto.
  - unfold encode_entries. eauto.
Qed.

(** [dec] reads back every element of [l]. *)
Definition reads (dec : list Token → option (Datum * list Token)) (d : Datum) : Prop :=
  ∀ rest, dec (encode_datum d ++ rest) = Some (observed d, rest).

Lemma decode_until_end_encode dec l rest k :
  Forall (reads dec) l → (length l ≤ k)%nat →
  decode_until_end dec k (concat (map encode_datum l) ++ TEnd :: rest) = Some (map observed l, rest).
Proof.
  intros Hl. revert k. induction Hl as [|d l Hd Hl IH]; intros k Hk; simpl in *; [by destruct k|].
  destruct k as [|k]; [lia|]. rewrite <-app_assoc.
  destruct (encode_datum_head d) as (t & ts & E & Ht). specialize (Hd (concat (map encode_datum l) ++ TEnd :: rest)).
  rewrite E in Hd |- *. simpl in *. rewrite Hd. simpl. rewrite IH by lia. by destruct t.
Qed.

Lemma decode_seq_encode dec l rest :
  Forall (reads dec) l →
  decode_seq dec (encode_linear_seq (map encode_datum l) ++ rest) = Some (map observed l, rest).
Proof.
  intros Hl. unfold encode_linear_seq. destruct l as [|d l]; [done|]. cbn [is_empty map].
  change (encode_datum d :: map encode_datum l) with (map encode_datum (d :: l)).
  cbn [app]. rewrite <-app_assoc. unfold decode_seq.
  apply (decode_until_end_encode dec (d :: l) rest); [done|].
  rewrite length_app. apply Nat.le_trans with (length (concat (map encode_datum (d :: l)))); [|lia].
  clear Hl. generalize (d :: l). clear d l. intros l. induction l as [|d l IH]; simpl; [lia|].
  rewrite length_app. destruct (encode_datum_head d) as (t & ts & -> & _). simpl. lia.
Qed.

Lemma decode_pairs_encode dec l rest :
  Forall (λ kv, reads dec kv.1 ∧ reads dec kv.2) l →
  decode_pairs dec (length l)
    (concat (map (λ kv, kv.1 ++ kv.2) (map (λ kv, (encode_datum kv.1, encode_datum kv.2)) l)) ++ rest)
  = Some (map (λ kv, (observed kv.1, observed kv.2)) l, rest).
Proof.
  induction 1 as [|[k v] l [Hk Hv] Hl IH]; simpl in *; [done|]. rewrite <-!app_assoc.
  rewrite Hk. simpl. rewrite Hv. simpl. by rewrite IH.
Qed.

Ltac decide_comparisons :=
  repeat match goal with
  | |- context [?a =? ?b] => destruct (Z.eqb_spec a b); [lia|]
  | |- context [?a <=? ?b] => destruct (Z.leb_spec a b); try lia
  | |- context [?a <? ?b] => destruct (Z.ltb_spec a b); try lia
  end.

Lemma decode_tagged_small dec c ts :
  0 ≤ c < 7 →
  decode_tagged dec (c + 121) ts = ('(l, ts) ← decode_seq dec ts; Some (ConstructorDatum c l, ts)).
Proof.
  intros Hc. unfold decode_tagged. decide_comparisons. cbn [andb].
  by replace (c + 121 - 121) with c by lia.
Qed.
Lemma decode_tagged_big dec c ts :
  7 ≤ c < 128 →
  decode_tagged dec (1280 + c - 7) ts = ('(l, ts) ← decode_seq dec ts; Some (ConstructorDatum c l, ts)).
Proof.
  intros Hc. unfold decode_tagged. decide_comparisons. cbn [andb].
  by replace (1280 + c - 7 - 1280 + 7) with c by lia.
Qed.

Lemma decode_tagged_encode dec c l rest :
  in_u 64 c → Forall (reads dec) l →
  ∃ t ts, encode_constructor c (map encode_datum l) ++ rest = TTag t :: ts ∧
    decode_tagged dec t ts = Some (ConstructorDatum c (map observed l), rest).
Proof.
  intros [Hc0 Hc] Hl. pose proof (λ r, decode_seq_encode dec l r Hl) as Hseq.
  unfold encode_constructor, constructor_small_tag, constructor_big_tag.
  destruct (Z.ltb_spec c 7); [|destruct (Z.leb_spec 7 c); [|lia]; destruct (Z.ltb_spec c 128); cbn [andb]].
  - eexists _, _. split; [done|]. rewrite wadd_exact by (unfold in_u, u_bound; lia).
    rewrite decode_tagged_small by lia. cbn [app]. by rewrite Hseq.
  - eexists _, _. split; [done|]. rewrite (wadd_exact 64 1280) by (unfold in_u, u_bound; lia).
    rewrite wsub_exact by (unfold in_u, u_bound; lia).
    rewrite decode_tagged_big by lia. cbn [app]. by rewrite Hseq.
  - eexists _, _. split; [done|]. cbn [app]. unfold decode_tagged. simpl. by rewrite Hseq.
Qed.

Lemma decode_datum_encode d : datum_wf d → ∀ fuel, (depth d ≤ fuel)%nat → reads (decode_datum fuel) d.
Proof.
  induction d as [i|b|c l IH|l IH|l IH] using Datum_nested_ind; intros Hwf [|fuel] Hd rest; simpl in Hd; try lia.
  - cbn [encode_datum observed]. unfold encode_integer, observed_integer. case_decide as Hi.
    + rewrite decide_False by lia. done.
    + cbn [app decode_datum]. unfold decode_tagged.
      case_decide as Hpos; cbn [Z.eqb Pos.eqb PosBignum NegBignum]; rewrite decode_bytestring_encode;
        cbn; rewrite magnitude_be_spec by lia.
      * rewrite decide_False by lia. do 3 f_equal. lia.
      * rewrite decide_True by lia. do 3 f_equal. lia.
  - cbn [encode_datum observed]. destruct (encode_bytestring_head b) as (t & ts & E & Ht).
    pose proof (decode_bytestring_encode b rest) as Hb. rewrite E in *. cbn [app] in Hb |- *.
    destruct Ht as [-> | ->]; cbn [decode_datum]; by rewrite Hb.
  - inversion Hwf as [| |? ? Hc Hl| |]; subst. simpl in Hd.
    assert (Forall (reads (decode_datum fuel)) l) as Hreads.
    { apply Forall_forall. intros d Hin.
      apply (proj1 (Forall_forall _ _) IH d Hin); [by apply (proj1 (Forall_forall _ _) Hl)|].
      apply le_S_n, max_of_le in Hd. apply (proj1 (Forall_forall _ _) Hd (depth d)).
      apply list_elem_of_fmap_2. done. }
    destruct (decode_tagged_encode (decode_datum fuel) c l rest Hc Hreads) as (t & ts & E & Hdec).
    simpl. by rewrite E.
  - inversion Hwf as [| | |? Hl|]; subst. simpl in Hd.
    assert (Forall (reads (decode_datum fuel)) l) as Hreads.
    { apply Forall_forall. intros d Hin.
      apply (proj1 (Forall_forall _ _) IH d Hin); [by apply (proj1 (Forall_forall _ _) Hl)|].
      apply le_S_n, max_of_le in Hd. apply (proj1 (Forall_forall _ _) Hd (depth d)).
      apply list_elem_of_fmap_2. done. }
    pose proof (decode_seq_encode (decode_datum fuel) l rest Hreads) as Hseq.
    cbn [encode_datum observed]. unfold encode_linear_seq in *.
    case_match; cbn [app] in Hseq |- *; cbn [decode_datum]; by rewrite Hseq.
  - inversion Hwf as [| | | |? Hl]; subst. simpl in Hd.
    simpl. rewrite length_map, Nat2Z.id. rewrite decode_pairs_encode; [done|].
    apply Forall_forall. intros kv Hin. apply le_S_n, max_of_le in Hd.
    assert (Nat.max (depth kv.1) (depth kv.2) ≤ fuel)%nat.
    { apply (proj1 (Forall_forall _ _) Hd (Nat.max (depth kv.1) (depth kv.2))).
      apply (list_elem_of_fmap_2 (λ kv, Nat.max (depth kv.1) (depth kv.2))). done. }
    pose proof (proj1 (Forall_forall _ _) IH kv Hin) as [IH1 IH2].
    pose proof (proj1 (Forall_forall _ _) Hl kv Hin) as [Hw1 Hw2].
    split; [apply IH1|apply IH2]; (done || lia).
Qed.

Lemma encode_tokens_ge_depth d : (depth d ≤ length (encode_datum d))%nat.
Proof.
  assert (∀ l, Forall (λ d, depth d ≤ length (encode_datum d))%nat l →
    (max_of (map depth l) ≤ length (concat (map encode_datum l)))%nat) as Hmax.
  { induction 1; simpl; rewrite ?length_app; lia. }
  assert (∀ l, (length (concat l) ≤ length (encode_linear_seq l))%nat) as Hseq.
  { intros [|x l]; simpl; rewrite ?length_app; simpl; lia. }
  induction d as [i|b|c l IH|l IH|l IH] using Datum_nested_ind.
  - destruct (encode_datum_head (IntegerDatum i)) as (t & ts & -> & _). simpl. lia.
  - destruct (encode_datum_head (ByteStringDatum b)) as (t & ts & -> & _). simpl. lia.
  - specialize (Hmax l IH). specialize (Hseq (map encode_datum l)). simpl. unfold encode_constructor,
      encode_constructor_over_limit_fields. repeat case_match; simpl; lia.
  - specialize (Hmax l IH). simpl. unfold encode_linear_seq.
    destruct l as [|d l]; [simpl; lia|]. cbn [is_empty map]. simpl length. rewrite length_app.
    simpl in Hmax |- *. lia.
  - simpl. clear Hmax Hseq. apply le_n_S. induction IH as [|[k v] l [Hk Hv] Hl IH']; simpl in *; [lia|].
    rewrite !length_app. lia.
Qed.

Lemma decode_encode d : datum_wf d → decode (encode_datum d) = Some (observed d).
Proof.
  intros Hwf. unfold decode.
  pose proof (decode_datum_encode d Hwf _ (encode_tokens_ge_depth d) []) as Hd.
  rewrite app_nil_r in Hd. by rewrite Hd.
Qed.

(** ** The bytes *)

(** The documented behaviour of [minicbor]: items are self-delimiting and
    different items have different bytes. *)
Definition token_wf (t : Token) : Prop :=
  match t with
  | TInt n => - 2 ^ 64 ≤ n < 2 ^ 64
  | TBytes b => Z.of_nat (length b) < 2 ^ 64 ∧ Forall (λ x, 0 ≤ x < 256) b
  | TTag n | TArray n | TMap n => 0 ≤ n < 2 ^ 64
  | _ => True
  end.
Hypothesis token_bytes_nonempty : ∀ t, token_bytes t ≠ [].
Hypothesis token_bytes_prefix : ∀ t1 t2 r1 r2, token_wf t1 → token_wf t2 →
  token_bytes t1 ++ r1 = token_bytes t2 ++ r2 → t1 = t2 ∧ r1 = r2.

Lemma tokens_bytes_inj ts1 ts2 :
  Forall token_wf ts1 → Forall token_wf ts2 →
  concat (map token_bytes ts1) = concat (map token_bytes ts2) → ts1 = ts2.
Proof.
  intros H1. revert ts2. induction H1 as [|t1 ts1 Ht1 H1 IH]; intros [|t2 ts2] H2 Heq; simpl in *.
  - done.
  - symmetry in Heq. apply app_nil in Heq as [Heq _]. by apply token_bytes_nonempty in Heq.
  - apply app_nil in Heq as [Heq _]. by apply token_bytes_nonempty in Heq.
  - apply Forall_cons in H2 as [Ht2 H2].
    apply token_bytes_prefix in Heq as [-> Heq]; [|done..]. f_equal. by apply IH.
Qed.

Lemma observed_inj d1 d2 : observed d1 = observed d2 → d1 = d2.
Proof.
  assert (∀ l, Forall (λ d, ∀ d2, observed d = observed d2 → d = d2) l →
    ∀ l2, map observed l = map observed l2 → l = l2) as Hlist.
  { induction 1 as [|d l Hd Hl IH]; intros [|d' l'] Heq; simplify_eq/=; [done|]. f_equal; auto. }
  revert d2. induction d1 as [i|b|c l IH|l IH|l IH] using Datum_nested_ind; intros [] Heq; simplify_eq/=.
  - f_equal. unfold observed_integer in *. repeat case_decide; lia.
  - done.
  - f_equal. by apply Hlist.
  - f_equal. by apply Hlist.
  - f_equal. rename entries into l2. revert l2 Heq. clear Hlist.
    induction IH as [|[k v] l [Hk Hv] Hl IH]; intros [|[k2 v2] l2] Heq; simplify_eq/=; [done|].
    f_equal; [f_equal|]; auto.
Qed.

End RoundTrip.

(** ** Properties *)

(** What is assumed of [minicbor] and [num_bigint]. *)
Class CborLaws `{CborWriter} := {
  cbor_magnitude n : 0 ≤ n → from_be (magnitude_be n) = n;
  cbor_nonempty t : token_bytes t ≠ [];
  cbor_prefix t1 t2 r1 r2 : token_wf t1 → token_wf t2 →
    token_bytes t1 ++ r1 = token_bytes t2 ++ r2 → t1 = t2 ∧ r1 = r2;
}.

(** A datum whose items fit the CBOR item sizes. *)
Definition encodable `{CborWriter} (d : Datum) : Prop :=
  datum_wf d ∧ Forall token_wf (encode_datum d).

(** No integer of the datum is below [-2^63]. *)
Inductive no_big_negative : Datum → Prop :=
  | nbn_integer i : - 2 ^ 63 ≤ i → no_big_negative (IntegerDatum i)
  | nbn_bytes b : no_big_negative (ByteStringDatum b)
  | nbn_constructor c l : Forall no_big_negative l → no_big_negative (ConstructorDatum c l)
  | nbn_list l : Forall no_big_negative l → no_big_negative (ListDatum l)
  | nbn_map l : Forall (λ kv, no_big_negative kv.1 ∧ no_big_negative kv.2) l →
      no_big_negative (MapDatum l).

Lemma observed_id d : no_big_negative d → observed d = d.
Proof.
  assert (∀ l, Forall (λ d, no_big_negative d → observed d = d) l →
    Forall no_big_negative l → map observed l = l) as Hlist.
  { induction 1 as [|x l Hx Hl IH]; [done|]. intros [? ?]%Forall_cons. simpl. f_equal; auto. }
  induction d as [i|b|c l IH|l IH|l IH] using Datum_nested_ind; inversion 1 as [? Hi| |? ? Hl|? Hl|? Hl];
    subst; simpl; f_equal; auto.
  - unfold observed_integer. rewrite decide_False; lia.
  - clear H. induction IH as [|[k v] l [Hk Hv] Hl' IH]; [done|].
    apply Forall_cons in Hl as [[? ?] Hl]. simpl in *. f_equal; [f_equal|]; auto.
Qed.

(** Decoding the encoding of a datum gives the datum back, whatever its
    nesting, string lengths, constructor numbers and integer sizes, as long as it
    holds no integer below [-2^63]. *)
Theorem plutus_data_roundtrip `{CborLaws} d :
  datum_wf d → no_big_negative d → decode (encode_datum d) = Some d.
Proof. intros Hwf Hn. by rewrite (decode_encode cbor_magnitude), observed_id. Qed.

(** An integer below [-2^63] is written as a negative bignum of its absolute
    value, where CBOR means [-1 - n] by such a bignum: it is read back as the
    integer one below. *)
Theorem big_negative_off_by_one `{CborLaws} i :
  i < - 2 ^ 63 → decode (encode_datum (IntegerDatum i)) = Some (IntegerDatum (i - 1)).
Proof.
  intros Hi. rewrite (decode_encode cbor_magnitude) by constructor. simpl.
  unfold observed_integer. by rewrite decide_True.
Qed.

(** Different data never have the same bytes, so a signature over the bytes
    of a datum commits to the datum. *)
Theorem to_vec_injective `{CborLaws} d1 d2 :
  encodable d1 → encodable d2 → to_vec d1 = to_vec d2 → d1 = d2.
Proof.
  intros [Hw1 Ht1] [Hw2 Ht2] Heq. apply observed_inj.
  apply (tokens_bytes_inj cbor_nonempty cbor_prefix) in Heq; [|done..].
  pose proof (decode_encode cbor_magnitude d1 Hw1) as H1.
  pose proof (decode_encode cbor_magnitude d2 Hw2) as H2. rewrite Heq in H1. congruence.
Qed.

(** ** The bytes of RFC 8949 *)

Definition cbor_head (major n : Z) : bytes :=
  let m := major * 32 in
  if n <? 24 then [m + n]
  else if n <? 2 ^ 8 then (m + 24) :: be 1 n
  else if n <? 2 ^ 16 then (m + 25) :: be 2 n
  else if n <? 2 ^ 32 then (m + 26) :: be 4 n
  else (m + 27) :: be 8 n.

Definition rfc_token_bytes (t : Token) : bytes :=
  match t with
  | TInt n => if 0 <=? n then cbor_head 0 n else cbor_head 1 (-1 - n)
  | TBytes b => cbor_head 2 (Z.of_nat (length b)) ++ b
  | TBeginBytes => [95]
  | TBeginArray => [159]
  | TEnd => [255]
  | TTag n => cbor_head 6 n
  | TArray n => cbor_head 4 n
  | TMap n => cbor_head 5 n
  end.

#[export] Instance rfc_writer : CborWriter := {|
  token_bytes := rfc_token_bytes;
  magnitude_be n := be (Z.to_nat (Z.log2 n / 8 + 1)) n;
|}.

Definition read_be (k : nat) (l : bytes) : option (Z * bytes) :=
  if decide (k ≤ length l)%nat then Some (from_be (take k l), drop k l) else None.

(** The major type, the argument and the rest of the input. *)
Definition read_head (l : bytes) : option (Z * Z * bytes) :=
  match l with
  | [] => None
  | x :: l =>
      let m := x / 32 in let info := x mod 32 in
      if info <? 24 then Some (m, info, l)
      else if info =? 24 then '(n, l) ← read_be 1 l; Some (m, n, l)
      else if info =? 25 then '(n, l) ← read_be 2 l; Some (m, n, l)
      else if info =? 26 then '(n, l) ← read_be 4 l; Some (m, n, l)
      else if info =? 27 then '(n, l) ← read_be 8 l; Some (m, n, l)
      else None
  end.

Definition read_token (l : bytes) : option (Token * bytes) :=
  match l with
  | 95 :: l => Some (TBeginBytes, l)
  | 159 :: l => Some (TBeginArray, l)
  | 255 :: l => Some (TEnd, l)
  | _ =>
      '(mn, l) ← read_head l;
      let '(m, n) := mn in
      if m =? 0 then Some (TInt n, l)
      else if m =? 1 then Some (TInt (-1 - n), l)
      else if m =? 2 then Some (TBytes (take (Z.to_nat n) l), drop (Z.to_nat n) l)
      else if m =? 4 then Some (TArray n, l)
      else if m =? 5 then Some (TMap n, l)
      else if m =? 6 then Some (TTag n, l)
      else None
  end.

Lemma read_be_be k n r :
  0 ≤ n < 256 ^ Z.of_nat k → read_be k (be k n ++ r) = Some (n, r).
Proof.
  intros Hn. unfold read_be. rewrite decide_True by (rewrite length_app, length_be; lia).
  rewrite take_app_length' by (by rewrite length_be). rewrite drop_app_length' by (by rewrite length_be).
  by rewrite from_be_be.
Qed.

Lemma read_head_spec m n r : 0 ≤ m < 8 → 0 ≤ n < 2 ^ 64 → read_head (cbor_head m n ++ r) = Some (m, n, r).
Proof.
  intros Hm Hn.
  assert (∀ k, 0 ≤ k < 32 → (m * 32 + k) / 32 = m ∧ (m * 32 + k) mod 32 = k) as Hdm.
  { intros k Hk. rewrite Z.add_comm, Z.div_add, Z.mod_add, Z.div_small, Z.mod_small by lia. lia. }
  unfold cbor_head. repeat case_match; reflect_Z; cbn [app read_head].
  - destruct (Hdm n) as [-> ->]; [lia|]. by rewrite (proj2 (Z.ltb_lt _ _)) by lia.
  - destruct (Hdm 24) as [-> ->]; [lia|]. cbn [Z.ltb Z.compare Pos.compare Pos.compare_cont Z.eqb Pos.eqb].
    by rewrite read_be_be by (simpl; lia).
  - destruct (Hdm 25) as [-> ->]; [lia|]. cbn [Z.ltb Z.compare Pos.compare Pos.compare_cont Z.eqb Pos.eqb].
    by rewrite read_be_be by (simpl; lia).
  - destruct (Hdm 26) as [-> ->]; [lia|]. cbn [Z.ltb Z.compare Pos.compare Pos.compare_cont Z.eqb Pos.eqb].
    by rewrite read_be_be by (simpl; lia).
  - destruct (Hdm 27) as [-> ->]; [lia|]. cbn [Z.ltb Z.compare Pos.compare Pos.compare_cont Z.eqb Pos.eqb].
    by rewrite read_be_be by (simpl; lia).
Qed.

(** The first byte of a head is none of the three markers. *)
Lemma cbor_head_first m n : 0 ≤ m < 8 → 0 ≤ n →
  ∃ x l, cbor_head m n = x :: l ∧ x ≠ 95 ∧ x ≠ 159 ∧ x ≠ 255.
Proof. intros Hm Hn. unfold cbor_head. repeat case_match; reflect_Z; eexists _, _; (split; [done|]); lia. Qed.

Lemma read_token_head m n r :
  0 ≤ m < 8 → 0 ≤ n < 2 ^ 64 →
  read_token (cbor_head m n ++ r) =
  (let l := r in
   if m =? 0 then Some (TInt n, l)
   else if m =? 1 then Some (TInt (-1 - n), l)
   else if m =? 2 then Some (TBytes (take (Z.to_nat n) l), drop (Z.to_nat n) l)
   else if m =? 4 then Some (TArray n, l)
   else if m =? 5 then Some (TMap n, l)
   else if m =? 6 then Some (TTag n, l)
   else None).
Proof.
  intros Hm Hn. pose proof (read_head_spec m n r Hm Hn) as Hr.
  destruct (cbor_head_first m n) as (x & l & E & H1 & H2 & H3); [lia..|].
  rewrite E in *. cbn [app] in *. unfold read_token.
  destruct x as [|x|x]; [by rewrite Hr| |by rewrite Hr].
  do 8 (destruct x as [x|x|]; try (by rewrite Hr); try congruence).
Qed.

Lemma read_token_spec t r : token_wf t → read_token (rfc_token_bytes t ++ r) = Some (t, r).
Proof.
  destruct t as [n|b| | | |n|n|n]; simpl rfc_token_bytes; intros Hwf; simpl in Hwf; try done.
  - destruct (Z.leb_spec 0 n); rewrite read_token_head by lia; simpl; [done|]. do 3 f_equal. lia.
  - rewrite <-app_assoc, read_token_head by lia. simpl. rewrite Nat2Z.id.
    by rewrite take_app_length, drop_app_length.
  - by rewrite read_token_head by lia.
  - by rewrite read_token_head by lia.
  - by rewrite read_token_head by lia.
Qed.

#[export] Instance rfc_laws : CborLaws.
Proof.
  split.
  - intros n Hn. simpl. apply from_be_be. split; [done|].
    pose proof (Z.log2_nonneg n) as Hl. pose proof (Z.div_pos (Z.log2 n) 8 Hl ltac:(lia)).
    rewrite Z2Nat.id by lia. change 256 with (2 ^ 8). rewrite <-Z.pow_mul_r by lia.
    destruct (decide (n = 0)) as [->|]; [done|].
    eapply Z.lt_le_trans; [apply Z.log2_spec; lia|]. apply Z.pow_le_mono_r; [lia|].
    pose proof (Z.div_mod (Z.log2 n) 8). pose proof (Z.mod_pos_bound (Z.log2 n) 8). lia.
  - intros [n|b| | | |n|n|n]; simpl; try done; try (unfold cbor_head; by repeat case_match).
  - intros t1 t2 r1 r2 H1 H2 Heq. simpl in Heq.
    pose proof (read_token_spec t1 r1 H1) as E1. pose proof (read_token_spec t2 r2 H2) as E2.
    rewrite Heq in E1. rewrite E1 in E2. by simplify_eq.
Qed.

(** ** Witnesses *)

Definition nested_datum : Datum :=
  ListDatum [ByteStringDatum (replicate 65 67); ConstructorDatum 34 [IntegerDatum 1; IntegerDatum 2];
             MapDatum [(IntegerDatum (2 ^ 70), ConstructorDatum 130 [])]].

Lemma nested_datum_wf : datum_wf nested_datum.
Proof. repeat (constructor; try done). Qed.

Lemma plutus_data_roundtrip_witness : decode (encode_datum nested_datum) = Some nested_datum.
Proof.
  apply (plutus_data_roundtrip nested_datum nested_datum_wf).
  repeat (constructor; try done).
Defined.

Lemma big_negative_off_by_one_witness :
  decode (encode_datum (IntegerDatum (- 2 ^ 70))) = Some (IntegerDatum (- 2 ^ 70 - 1)).
Proof. apply (big_negative_off_by_one (- 2 ^ 70)). done. Defined.

Lemma to_vec_injective_witness :
  to_vec (ConstructorDatum 2 [IntegerDatum (-9)]) ≠ to_vec (ConstructorDatum 2 [IntegerDatum 9]).
Proof.
  intros Heq. apply (to_vec_injective (ConstructorDatum 2 [IntegerDatum (-9)])
    (ConstructorDatum 2 [IntegerDatum 9])) in Heq; [done|..].
  - split; [repeat (constructor; try done)|]. repeat (apply Forall_cons; split; [done|]). done.
  - split; [repeat (constructor; try done)|]. repeat (apply Forall_cons; split; [done|]). done.
Defined.

(** The vectors of the crate's own tests. *)
Example cbor_test_vectors :
  to_vec (IntegerDatum (-9)) = [40] ∧
  to_vec (IntegerDatum 123456789123456789) = [27; 1; 182; 155; 75; 172; 208; 95; 21] ∧
  to_vec (ConstructorDatum 34 [IntegerDatum 1; IntegerDatum 2]) = [217; 5; 27; 159; 1; 2; 255] ∧
  to_vec (ConstructorDatum 130 []) = [216; 102; 130; 24; 130; 128].
Proof. vm_compute. done. Qed.
