(* ===== verification/AuthoritySelection.v ===== *)
(** * Validation of candidates and selection of authorities

    Models [toolkit/committee-selection/authority-selection-inherents/src]: the
    filtering of candidates ([filter_invalid_candidates.rs]), the selection of a
    committee from them ([select_authorities.rs]), the inputs of the selection
    ([authority_selection_inputs.rs]) and the provider of those inputs
    ([ariadne_inherent_data_provider.rs]).  Signature verification and the
    decoding of session keys are library functions: the class
    [CandidateVerifier]. *)

From S2P Require Import Prelude Domain MainchainEpoch WeightedRandom AriadneV2 CommitteePallet PlutusData.

(** ** Data *)

Record RegisterValidatorSignedMessage := mkSignedMessage {
  msg_genesis_utxo : UtxoId;
  msg_sidechain_pub_key : bytes;
  msg_registration_utxo : UtxoId;
}.

#[export] Instance signed_message_to_datum : ToDatum RegisterValidatorSignedMessage := λ m,
  ConstructorDatum 0
    [to_datum (msg_genesis_utxo m); to_datum (msg_sidechain_pub_key m);
     to_datum (msg_registration_utxo m)].

Record CandidateWithStake (A K : Type) := mkCandidateWithStake {
  cws_stake_pool_pub_key : bytes;
  cws_stake_delegation : Z;
  cws_account_id : A;
  cws_account_keys : K;
}.
Arguments mkCandidateWithStake {A K}.
Arguments cws_stake_pool_pub_key {A K}.
Arguments cws_stake_delegation {A K}.
Arguments cws_account_id {A K}.
Arguments cws_account_keys {A K}.

Record PermissionedCandidate (A K : Type) := mkPermissionedCandidate {
  pc_account_id : A;
  pc_account_keys : K;
}.
Arguments mkPermissionedCandidate {A K}.
Arguments pc_account_id {A K}.
Arguments pc_account_keys {A K}.

Inductive Candidate (A K : Type) :=
  | PermissionedC (c : PermissionedCandidate A K)
  | RegisteredC (c : CandidateWithStake A K).
Arguments PermissionedC {A K}.
Arguments RegisteredC {A K}.

#[global] Instance CandidateWithStake_eq_dec {A K} `{EqDecision A, EqDecision K} :
  EqDecision (CandidateWithStake A K).
Proof. solve_decision. Defined.
#[global] Instance PermissionedCandidate_eq_dec {A K} `{EqDecision A, EqDecision K} :
  EqDecision (PermissionedCandidate A K).
Proof. solve_decision. Defined.
#[global] Instance Candidate_eq_dec {A K} `{EqDecision A, EqDecision K} : EqDecision (Candidate A K).
Proof. solve_decision. Defined.

Definition account_id {A K} (c : Candidate A K) : A :=
  match c with PermissionedC c => pc_account_id c | RegisteredC c => cws_account_id c end.
Definition account_keys {A K} (c : Candidate A K) : K :=
  match c with PermissionedC c => pc_account_keys c | RegisteredC c => cws_account_keys c end.
Definition candidate_stake {A K} (c : Candidate A K) : option Z :=
  match c with PermissionedC _ => None | RegisteredC c => Some (cws_stake_delegation c) end.

(** [From<Candidate> for CommitteeMember] *)
Definition candidate_member {A K} (c : Candidate A K) : CommitteeMember A K :=
  match c with
  | PermissionedC c => Permissioned (pc_account_id c) (pc_account_keys c)
  | RegisteredC c => Registered (cws_account_id c) (cws_account_keys c) (cws_stake_pool_pub_key c)
  end.

(** The derived [Ord] of [Candidate]: the variant, then the fields in order. *)
Definition candidate_key {A K} (c : Candidate A K) : Z * (bytes * (Z * (A * K))) :=
  match c with
  | PermissionedC c => (0, ([], (0, (pc_account_id c, pc_account_keys c))))
  | RegisteredC c =>
      (1, (cws_stake_pool_pub_key c,
           (cws_stake_delegation c, (cws_account_id c, cws_account_keys c))))
  end.
#[export] Instance candidate_key_inj {A K} : Inj (=) (=) (@candidate_key A K).
Proof. intros [[]|[]] [[]|[]] [=]; by subst. Qed.
#[export] Instance Candidate_ord {A K} `{EqDecision A, EqDecision K, Ord A, Ord K} : Ord (Candidate A K) :=
  ord_via candidate_key.

Inductive StakeError := InvalidStake | UnknownStake.

Inductive RegistrationDataError :=
  | InvalidMainchainSignature
  | InvalidSidechainSignature
  | InvalidTxInput
  | InvalidMainchainPubKey
  | InvalidSidechainPubKey
  | InvalidAccountKeys.

Inductive PermissionedCandidateDataError :=
  | PermissionedInvalidSidechainPubKey
  | PermissionedInvalidAccountKeys.

(** What the runtime and its libraries provide: verification of signatures, the
    account of a partner chain key, and the session keys type with its key ids
    and its decoder. *)
Class CandidateVerifier (A K : Type) := {
  ed25519_verify : bytes → bytes → bytes → bool;
  ecdsa_verify : bytes → bytes → bytes → bool;
  from_ecdsa_public : bytes → A;
  key_ids : list bytes;
  decode_account_keys : bytes → option K;
}.

(** ** Validation *)

Section Validation.
Context {A K : Type} `{CandidateVerifier A K, CborWriter}.

(** The loop of [MaybeFromCandidateKeys::maybe_from]. *)
Fixpoint gather_keys (ids : list bytes) (keys : CandidateKeys) (encoded_keys : bytes) : option bytes :=
  match ids with
  | [] => Some encoded_keys
  | id :: ids =>
      key ← list_find (λ key, key_id key = id) keys;
      let encoded_keys := encoded_keys ++ key_bytes key.2 in
      if decide (length encoded_keys ≤ 1024)%nat then gather_keys ids keys encoded_keys else None
  end.
Definition maybe_from (keys : CandidateKeys) : option K :=
  encoded_keys ← gather_keys key_ids keys [];
  decode_account_keys encoded_keys.

Definition has_length (n : nat) (b : bytes) : option bytes :=
  if decide (length b = n) then Some b else None.

Definition validate_stake (stake : option Z) : result StakeError Z :=
  match stake with
  | None => Err UnknownStake
  | Some stake => if stake =? 0 then Err InvalidStake else Ok stake
  end.

Definition verify_stake_pool_signature (stake_pool_pub_key : bytes) (registration_data : RegistrationData)
    (signed_message_encoded : bytes) : result RegistrationDataError unit :=
  spo_signature ← ok_or (has_length 64 (mainchain_signature registration_data)) InvalidMainchainSignature;
  if ed25519_verify spo_signature signed_message_encoded stake_pool_pub_key then Ok tt
  else Err InvalidMainchainSignature.

Definition NEGATIVE_POINT_SIGN : Z := 27.
Definition POSITIVE_POINT_SIGN : Z := 28.

Definition verify_sidechain_signature (pub_key signature signed_message_encoded : bytes) :
    result RegistrationDataError unit :=
  sidechain_signature ← ok_or (has_length 64 signature) InvalidSidechainSignature;
  let is_valid := existsb (λ v, ecdsa_verify (sidechain_signature ++ [v]) signed_message_encoded pub_key)
                    [NEGATIVE_POINT_SIGN; POSITIVE_POINT_SIGN] in
  if is_valid then Ok tt else Err InvalidSidechainSignature.

Definition verify_tx_inputs (registration_data : RegistrationData) : result RegistrationDataError unit :=
  if decide (registration_utxo registration_data ∈ tx_inputs registration_data) then Ok tt
  else Err InvalidTxInput.

Definition signed_message (registration_data : RegistrationData) (genesis_utxo : UtxoId) : bytes :=
  to_datum_cbor_bytes
    (mkSignedMessage genesis_utxo (sidechain_pub_key registration_data)
       (registration_utxo registration_data)).

Definition validate_registration_data (stake_pool_pub_key : bytes) (registration_data : RegistrationData)
    (genesis_utxo : UtxoId) : result RegistrationDataError (bytes * K) :=
  account_keys ← ok_or (maybe_from (registration_keys registration_data)) InvalidAccountKeys;
  sidechain_pub_key ← ok_or (has_length 33 (sidechain_pub_key registration_data)) InvalidSidechainPubKey;
  let signed_message_encoded := signed_message registration_data genesis_utxo in
  _ ← verify_stake_pool_signature stake_pool_pub_key registration_data signed_message_encoded;
  _ ← verify_sidechain_signature sidechain_pub_key (sidechain_signature registration_data)
        signed_message_encoded;
  _ ← verify_tx_inputs registration_data;
  Ok (sidechain_pub_key, account_keys).

Definition validate_permissioned_candidate_data (candidate : PermissionedCandidateData) :
    result PermissionedCandidateDataError (bytes * K) :=
  ecdsa_bytes ← ok_or (has_length 33 (sidechain_public_key candidate)) PermissionedInvalidSidechainPubKey;
  keys ← ok_or (maybe_from (permissioned_keys candidate)) PermissionedInvalidAccountKeys;
  Ok (ecdsa_bytes, keys).

Definition select_latest_valid_candidate (cr : CandidateRegistrations) (genesis_utxo : UtxoId) :
    option (CandidateWithStake A K) :=
  stake_delegation ← ok (validate_stake (stake_delegation cr));
  let stake_pool_pub_key := stake_pool_public_key cr in
  '(candidate, _) ← max_by_key ordering_key_le (λ c, ordering_key c.2)
    (filter_map (λ registration_data,
       match validate_registration_data stake_pool_pub_key registration_data genesis_utxo with
       | Ok candidate => Some (candidate, utxo_info registration_data)
       | Err _ => None
       end) (registrations cr));
  Some (mkCandidateWithStake stake_pool_pub_key stake_delegation (from_ecdsa_public candidate.1) candidate.2).

Definition filter_trustless_candidates_registrations
    (candidate_registrations : list CandidateRegistrations) (genesis_utxo : UtxoId) :
    list (Candidate A K * Weight) :=
  (λ c, (RegisteredC c, cws_stake_delegation c)) <$>
    filter_map (λ cr, select_latest_valid_candidate cr genesis_utxo) candidate_registrations.

Definition filter_invalid_permissioned_candidates
    (permissioned_candidates : list PermissionedCandidateData) : list (Candidate A K) :=
  filter_map (λ candidate,
    '(partner_chain_key, account_keys) ← ok (validate_permissioned_candidate_data candidate);
    Some (PermissionedC (mkPermissionedCandidate (from_ecdsa_public partner_chain_key) account_keys)))
  permissioned_candidates.

End Validation.

(** ** Selection *)

Record AuthoritySelectionInputs := mkInputs {
  d_parameter : DParameter;
  permissioned_candidates : list PermissionedCandidateData;
  registered_candidates : list CandidateRegistrations;
  epoch_nonce : bytes;
}.

(** The seed is a 256-bit big-endian integer. *)
Definition seed_from_nonce_and_sc_epoch (epoch_nonce : bytes) (partner_chain_epoch_number : Z) : bytes :=
  be 32 (wadd 256 (from_be (as_array epoch_nonce)) partner_chain_epoch_number).

Section Selection.
Context {A K : Type} `{CandidateVerifier A K, CborWriter, Rng R}.
Context `{EqDecision A, EqDecision K, Ord A, Ord K}.

Definition select_candidates (genesis_utxo : UtxoId) (input : AuthoritySelectionInputs)
    (sidechain_epoch : Z) : outcome (option (list (CommitteeMember A K))) :=
  let valid_registered_candidates :=
    filter_trustless_candidates_registrations (registered_candidates input) genesis_utxo in
  let valid_permissioned_candidates :=
    filter_invalid_permissioned_candidates (permissioned_candidates input) in
  let random_seed := seed_from_nonce_and_sc_epoch (epoch_nonce input) sidechain_epoch in
  validators ← AriadneV2.select_authorities (R:=R) (SC:=Candidate A K)
    (num_registered_candidates (d_parameter input)) (num_permissioned_candidates (d_parameter input))
    valid_registered_candidates valid_permissioned_candidates random_seed;
  Ret (match validators with
       | Some validators => Some (fmap (M:=list) candidate_member validators)
       | None => None
       end).

Definition select_authorities (MaxAuthorities : Z) (genesis_utxo : UtxoId)
    (input : AuthoritySelectionInputs) (sidechain_epoch : Z) :
    outcome (option (list (CommitteeMember A K))) :=
  selected ← select_candidates genesis_utxo input sidechain_epoch;
  Ret (fmap (M:=option) (truncate_from MaxAuthorities) selected).

End Selection.

(** ** Validity of a registration *)

Section Validity.
Context {A K : Type} `{CandidateVerifier A K, CborWriter}.

(** What makes a registration of the pool [pool] valid on the chain that
    [genesis_utxo] identifies, with the partner chain key and session keys it
    registers: both keys signed the message that binds them to the chain and to a
    UTxO which the registration transaction spent. *)
Record valid_registration (pool : bytes) (genesis_utxo : UtxoId) (r : RegistrationData)
    (key : bytes) (keys : K) : Prop := {
  valid_keys : maybe_from (registration_keys r) = Some keys;
  valid_pub_key : key = sidechain_pub_key r ∧ length key = 33%nat;
  valid_pool_signature : length (mainchain_signature r) = 64%nat ∧
    ed25519_verify (mainchain_signature r) (signed_message r genesis_utxo) pool = true;
  valid_sidechain_signature : length (sidechain_signature r) = 64%nat ∧
    ∃ v, v ∈ [27; 28] ∧
      ecdsa_verify (sidechain_signature r ++ [v]) (signed_message r genesis_utxo) key = true;
  valid_input : registration_utxo r ∈ tx_inputs r;
}.

Lemma has_length_Some n b b' : has_length n b = Some b' ↔ b' = b ∧ length b = n.
Proof. unfold has_length. case_decide; naive_solver. Qed.
Lemma ok_or_Ok {E B} (o : option B) (e : E) b : ok_or o e = Ok b ↔ o = Some b.
Proof. destruct o; simpl; split; intros [=]; by subst. Qed.
Lemma result_bind_Ok {E B C} (m : result E B) (f : B → result E C) c :
  (m ≫= f) = Ok c ↔ ∃ b, m = Ok b ∧ f b = Ok c.
Proof. destruct m; simpl; naive_solver. Qed.

Lemma validate_registration_data_Ok pool r genesis_utxo key keys :
  validate_registration_data pool r genesis_utxo = Ok (key, keys) ↔
  valid_registration pool genesis_utxo r key keys.
Proof.
  unfold validate_registration_data, verify_stake_pool_signature, verify_sidechain_signature, verify_tx_inputs.
  split.
  - intros (ks & Hks%ok_or_Ok & (k & [-> Hk]%ok_or_Ok%has_length_Some &
      ([] & (s1 & [-> Hs1]%ok_or_Ok%has_length_Some & Hv1)%result_bind_Ok &
       ([] & (s2 & [-> Hs2]%ok_or_Ok%has_length_Some & Hv2)%result_bind_Ok &
        ([] & Hin & [= <- <-])%result_bind_Ok)%result_bind_Ok)%result_bind_Ok)%result_bind_Ok)%result_bind_Ok.
    split; [done|done|..].
    + split; [done|]. by destruct (ed25519_verify _ _ _).
    + split; [done|]. destruct (existsb _ _) eqn:E; [|done]. apply existsb_exists in E as (v & Hv & Hver).
      exists v. split; [|done]. by apply list_elem_of_In.
    + by case_decide.
  - intros [Hks [-> Hk] [Hs1 Hv1] [Hs2 (v & Hv & Hver)] Hin].
    set (msg := signed_message r genesis_utxo) in *. clearbody msg.
    rewrite Hks. cbn [ok_or mbind result_bind]. unfold has_length.
    rewrite !decide_True by done. cbn [ok_or mbind result_bind]. rewrite Hv1.
    assert (existsb (λ v, ecdsa_verify (sidechain_signature r ++ [v]) msg (sidechain_pub_key r))
      [NEGATIVE_POINT_SIGN; POSITIVE_POINT_SIGN] = true) as ->; [|done].
    apply existsb_exists. exists v. split; [|done]. by apply list_elem_of_In.
Qed.

(** The registration that [select_latest_valid_candidate] settles on. *)
Definition latest_valid (pool : bytes) (genesis_utxo : UtxoId) (rs : list RegistrationData)
    (r : RegistrationData) (key : bytes) (keys : K) : Prop :=
  r ∈ rs ∧ valid_registration pool genesis_utxo r key keys ∧
  ∀ r' key' keys', r' ∈ rs → valid_registration pool genesis_utxo r' key' keys' →
    ordering_key_le (ordering_key (utxo_info r')) (ordering_key (utxo_info r)) = true.

Lemma validate_stake_Ok o s : validate_stake o = Ok s ↔ o = Some s ∧ s ≠ 0.
Proof.
  destruct o as [x|]; simpl; [|split; [done|by intros []]].
  destruct (Z.eqb_spec x 0); split; [done|..]; naive_solver.
Qed.

Lemma select_latest_valid_candidate_Some cr genesis_utxo c :
  select_latest_valid_candidate cr genesis_utxo = Some c →
  stake_delegation cr = Some (cws_stake_delegation c) ∧ cws_stake_delegation c ≠ 0 ∧
  cws_stake_pool_pub_key c = stake_pool_public_key cr ∧
  ∃ r key, latest_valid (stake_pool_public_key cr) genesis_utxo (registrations cr) r key (cws_account_keys c) ∧
    cws_account_id c = from_ecdsa_public key.
Proof.
  unfold select_latest_valid_candidate.
  destruct (validate_stake (stake_delegation cr)) as [s|] eqn:Hs; [|done].
  apply validate_stake_Ok in Hs as [Hs Hs0]. simpl. set (valid := filter_map _ (registrations cr)).
  destruct (max_by_key ordering_key_le _ valid) as [[[key keys] u]|] eqn:Hmax; [|done].
  simpl. intros [= <-]. simpl. split_and!; [done..|].
  apply max_by_key_spec in Hmax as [Hin Hle];
    [|apply ordering_key_le_refl|apply ordering_key_le_trans|apply ordering_key_le_total].
  apply elem_of_filter_map in Hin as (r & Hr & Hval).
  destruct (validate_registration_data _ r genesis_utxo) as [[k ks]|] eqn:Hv; [|done]. simplify_eq.
  exists r, key. split; [|done]. split; [done|]. split; [by apply validate_registration_data_Ok|].
  intros r' key' keys' Hr' Hv'. apply (Hle (key', keys', utxo_info r')).
  apply elem_of_filter_map. exists r'. split; [done|].
  by rewrite (proj2 (validate_registration_data_Ok _ _ _ _ _) Hv').
Qed.

Lemma select_latest_valid_candidate_None cr genesis_utxo :
  select_latest_valid_candidate cr genesis_utxo = None →
  (∀ s, stake_delegation cr = Some s → s = 0) ∨
  (∀ r key keys, r ∈ registrations cr →
     ¬ valid_registration (stake_pool_public_key cr) genesis_utxo r key keys).
Proof.
  unfold select_latest_valid_candidate.
  destruct (validate_stake (stake_delegation cr)) as [s|] eqn:Hs.
  - right. intros r key keys Hr Hv. simpl in *. set (valid := filter_map _ (registrations cr)) in *.
    destruct (max_by_key ordering_key_le _ valid) as [[[? ?] ?]|] eqn:Hmax; [done|].
    apply max_by_key_None in Hmax.
    assert ((key, keys, utxo_info r) ∈ valid) as Hin; [|rewrite Hmax in Hin; by apply elem_of_nil in Hin].
    apply elem_of_filter_map. exists r. split; [done|].
    by rewrite (proj2 (validate_registration_data_Ok _ _ _ _ _) Hv).
  - left. intros s Hso. rewrite Hso in Hs. simpl in Hs. destruct (Z.eqb_spec s 0); done.
Qed.

Lemma elem_of_valid_permissioned (l : list PermissionedCandidateData) (c : Candidate A K) :
  c ∈ filter_invalid_permissioned_candidates l ↔
  ∃ d keys, d ∈ l ∧ length (sidechain_public_key d) = 33%nat ∧
    maybe_from (permissioned_keys d) = Some keys ∧
    c = PermissionedC (mkPermissionedCandidate (from_ecdsa_public (sidechain_public_key d)) keys).
Proof.
  unfold filter_invalid_permissioned_candidates. rewrite elem_of_filter_map.
  unfold validate_permissioned_candidate_data, has_length. split.
  - intros (d & Hd & Hc). case_decide; [|done]. simpl in Hc.
    destruct (maybe_from (permissioned_keys d)) as [keys|] eqn:Hk; [|done]. simplify_eq/=. eauto 6.
  - intros (d & keys & Hd & Hlen & Hk & ->). exists d. split; [done|].
    rewrite decide_True by done. simpl. by rewrite Hk.
Qed.

End Validity.

(** ** Inputs of the selection *)

Section Inputs.
Context {E : Type}.

Record AriadneParameters := mkAriadneParameters {
  ap_d_parameter : DParameter;
  ap_permissioned_candidates : option (list PermissionedCandidateData);
}.

(** The trait [AuthoritySelectionDataSource], a view of Cardano. *)
Record AuthoritySelectionDataSource := mkDataSource {
  get_ariadne_parameters : Z → bytes → bytes → result E AriadneParameters;
  get_candidates : Z → bytes → result E (list CandidateRegistrations);
  get_epoch_nonce : Z → result E (option bytes);
  data_epoch : Z → result E Z;
}.

(** [None] stands for the message that expected data was not found. *)
Inductive AuthoritySelectionInputsCreationError :=
  | AriadneParametersQuery (epoch : Z) (d_parameter permissioned : bytes) (err : option E)
  | GetCandidatesQuery (epoch : Z) (address : bytes) (err : E)
  | GetEpochNonceQuery (epoch : Z) (err : E).

Definition authority_selection_inputs_from_mc_data (candidate_data_source : AuthoritySelectionDataSource)
    (for_epoch : Z) (scripts : MainChainScripts) :
    result AuthoritySelectionInputsCreationError AuthoritySelectionInputs :=
  let d_id := d_parameter_policy_id scripts in
  let p_id := permissioned_candidates_policy_id scripts in
  response ← map_err (λ err, AriadneParametersQuery for_epoch d_id p_id (Some err))
    (get_ariadne_parameters candidate_data_source for_epoch d_id p_id);
  let d_parameter := ap_d_parameter response in
  let no_permissioned_candidates_expected := num_permissioned_candidates d_parameter =? 0 in
  permissioned_candidates ←
    match ap_permissioned_candidates response with
    | None =>
        if no_permissioned_candidates_expected then Ok []
        else Err (AriadneParametersQuery for_epoch d_id p_id None)
    | Some permissioned_candidates => Ok permissioned_candidates
    end;
  registered_candidates ←
    map_err (GetCandidatesQuery for_epoch (committee_candidate_address scripts))
      (get_candidates candidate_data_source for_epoch (committee_candidate_address scripts));
  epoch_nonce_response ← map_err (GetEpochNonceQuery for_epoch)
    (get_epoch_nonce candidate_data_source for_epoch);
  let epoch_nonce := default [] epoch_nonce_response in
  Ok (mkInputs d_parameter permissioned_candidates registered_candidates epoch_nonce).

Inductive InherentProviderCreationError :=
  | McEpochDerivationError (e : EpochDerivationError)
  | ApiError (e : E)
  | InputsCreationError (e : AuthoritySelectionInputsCreationError)
  | DataSourceError (e : E).

(** The two runtime calls of the provider, at the parent block. *)
Record CommitteeApi := mkCommitteeApi {
  api_get_next_unset_epoch_number : result E Z;
  api_get_main_chain_scripts : result E MainChainScripts;
}.

Definition mc_epoch_for_next_ariadne_cidp (client : CommitteeApi) (sc_epoch_duration_millis : Z)
    (epoch_config : MainchainEpochConfig) (timestamp_millis : Z) :
    outcome (result InherentProviderCreationError Z) :=
  match api_get_next_unset_epoch_number client with
  | Err e => Ret (Err (ApiError e))
  | Ok next_unset_epoch =>
      for_timestamp ←
        (if next_unset_epoch =? 1 then
           current_pc_epoch ← checked_div timestamp_millis sc_epoch_duration_millis;
           Ret (wmul 64 current_pc_epoch sc_epoch_duration_millis)
         else Ret (wmul 64 next_unset_epoch sc_epoch_duration_millis));
      map_err McEpochDerivationError <$> timestamp_to_mainchain_epoch epoch_config for_timestamp
  end.

(** [AriadneInherentDataProvider::new]; the provider is its [data] field. *)
Definition new_ariadne_provider (client : CommitteeApi) (sc_epoch_duration_millis : Z)
    (mc_epoch_config : MainchainEpochConfig) (timestamp_millis : Z)
    (data_source : AuthoritySelectionDataSource) (mc_reference_epoch : Z) :
    outcome (result InherentProviderCreationError (option AuthoritySelectionInputs)) :=
  for_mc_epoch ←? mc_epoch_for_next_ariadne_cidp client sc_epoch_duration_millis mc_epoch_config
    timestamp_millis;
  Ret (
    data_epoch ← map_err DataSourceError (data_epoch data_source for_mc_epoch);
    scripts ← map_err ApiError (api_get_main_chain_scripts client);
    if data_epoch <? mc_reference_epoch then
      inputs ← map_err InputsCreationError
        (authority_selection_inputs_from_mc_data data_source for_mc_epoch scripts);
      Ok (Some inputs)
    else Ok None).

(** [provide_inherent_data]: what the pallet finds under its identifier. *)
Definition provide_inherent_data (data : option AuthoritySelectionInputs) :
    result unit (option AuthoritySelectionInputs) := Ok data.

End Inputs.
Arguments AuthoritySelectionDataSource : clear implicits.
Arguments InherentProviderCreationError : clear implicits.
Arguments CommitteeApi : clear implicits.

(** ** Properties *)

(** C12. Filtering of registrations is exact: every registered candidate that
    takes part in the selection stems from the latest valid registration of an
    operator with known, non-zero stake, and has that stake as its weight; and an
    operator with such stake and at least one valid registration does take part;
    there are no more candidates than operators. *)
Theorem registered_candidates_exact {A K : Type} `{CandidateVerifier A K, CborWriter} regs genesis_utxo :
  let filtered := filter_trustless_candidates_registrations (A:=A) (K:=K) regs genesis_utxo in
  (∀ cand w, (cand, w) ∈ filtered → ∃ cr c r key,
     cr ∈ regs ∧ cand = RegisteredC c ∧ stake_delegation cr = Some w ∧ w ≠ 0 ∧
     cws_stake_delegation c = w ∧ cws_stake_pool_pub_key c = stake_pool_public_key cr ∧
     latest_valid (stake_pool_public_key cr) genesis_utxo (registrations cr) r key (cws_account_keys c) ∧
     cws_account_id c = from_ecdsa_public key) ∧
  (∀ cr s r key (keys : K), cr ∈ regs → stake_delegation cr = Some s → s ≠ 0 → r ∈ registrations cr →
     valid_registration (stake_pool_public_key cr) genesis_utxo r key keys →
     ∃ c, (RegisteredC c, s) ∈ filtered ∧ cws_stake_pool_pub_key c = stake_pool_public_key cr) ∧
  (length filtered ≤ length regs)%nat.
Proof.
  intros filtered. unfold filtered, filter_trustless_candidates_registrations. split_and!.
  - intros cand w (c & [= -> ->] & (cr & Hcr & Hsel)%elem_of_filter_map)%list_elem_of_fmap.
    destruct (select_latest_valid_candidate_Some _ _ _ Hsel) as (Hs & Hs0 & Hp & r & key & Hl & Hid).
    by exists cr, c, r, key.
  - intros cr s r key keys Hcr Hs Hs0 Hr Hv.
    destruct (select_latest_valid_candidate cr genesis_utxo) as [c|] eqn:Hsel.
    + destruct (select_latest_valid_candidate_Some _ _ _ Hsel) as (Hsc & _ & Hp & _). exists c.
      split; [|done]. apply list_elem_of_fmap. exists c. split; [congruence|]. apply elem_of_filter_map. eauto.
    + apply select_latest_valid_candidate_None in Hsel as [Hz|Hz]; [by apply Hz in Hs|by eapply Hz in Hv].
  - rewrite length_fmap. apply length_filter_map_le.
Qed.

(** The message that a registration signs determines the partner chain, the
    partner chain key and the spent UTxO: signatures made for one chain, key or
    registration are signatures of a different message on any other. *)
Theorem signed_message_binding `{CborLaws} m m' :
  encodable (to_datum m) → encodable (to_datum m') →
  to_datum_cbor_bytes (A:=RegisterValidatorSignedMessage) m = to_datum_cbor_bytes m' → m = m'.
Proof.
  intros Hm Hm' Heq. unfold to_datum_cbor_bytes in Heq.
  assert (to_datum m = to_datum m') as Hd.
  { apply observed_inj. destruct Hm as [Hw Ht], Hm' as [Hw' Ht'].
    apply (tokens_bytes_inj cbor_nonempty cbor_prefix) in Heq; [|done..].
    pose proof (decode_encode cbor_magnitude _ Hw) as H1.
    pose proof (decode_encode cbor_magnitude _ Hw') as H2. rewrite Heq in H1. congruence. }
  destruct m as [[h1 i1] k [h2 i2]], m' as [[h1' i1'] k' [h2' i2']]. by simplify_eq/=.
Qed.

(** C13. On any inputs within the machine bounds the selection returns, and it
    declines to select a committee only if nobody is eligible.  Otherwise the
    committee has as many seats as the D-parameter asks for, up to the maximum,
    and all of them are held by candidates that passed validation. *)
Theorem authority_selection_total {A K : Type} `{CandidateVerifier A K, CborWriter, RngLaws R}
    `{EqDecision A, EqDecision K, Ord A, Ord K} MaxAuthorities genesis_utxo input sidechain_epoch :
  let r := num_registered_candidates (d_parameter input) in
  let p := num_permissioned_candidates (d_parameter input) in
  0 ≤ MaxAuthorities → 0 ≤ r → 0 ≤ p → r + p < u_bound 16 →
  (∀ cr s, cr ∈ registered_candidates input → stake_delegation cr = Some s → in_u 64 s) →
  Z.of_nat (length (registered_candidates input)) < 2 ^ 48 →
  Z.of_nat (length (permissioned_candidates input)) < 2 ^ 48 →
  let regs := filter_trustless_candidates_registrations (A:=A) (K:=K) (registered_candidates input) genesis_utxo in
  let perms := filter_invalid_permissioned_candidates (permissioned_candidates input) in
  ∃ res, select_authorities MaxAuthorities genesis_utxo input sidechain_epoch = Ret res ∧
    (res = None ↔ regs = [] ∧ perms = [] ∧ 0 < r + p) ∧
    ∀ cm, res = Some cm →
      (regs ≠ [] ∨ perms ≠ [] → Z.of_nat (length cm) = Z.min MaxAuthorities (r + p)) ∧
      ∀ m, m ∈ cm → ∃ c, m = candidate_member c ∧ (c ∈ regs.*1 ∨ c ∈ perms).
Proof.
  intros r p HM Hr Hp Hrp Hs Hlr Hlp regs perms.
  assert (Forall (λ w, 0 < w < 2 ^ 64) regs.*2) as Hw.
  { apply Forall_forall. intros w ([cand w'] & -> & Hin)%list_elem_of_fmap. simpl.
    unfold regs, filter_trustless_candidates_registrations in Hin.
    apply list_elem_of_fmap in Hin as (c & [= -> ->] & (cr & Hcr & Hsel)%elem_of_filter_map).
    destruct (select_latest_valid_candidate_Some _ _ _ Hsel) as (Hsc & Hs0 & _).
    destruct (Hs _ _ Hcr Hsc). unfold u_bound in *. lia. }
  assert (Z.of_nat (length regs) < 2 ^ 48) as Hlen.
  { unfold regs, filter_trustless_candidates_registrations. rewrite length_fmap.
    eapply Z.le_lt_trans; [|exact Hlr]. apply inj_le, length_filter_map_le. }
  assert (zsum regs.*2 ≤ Z.of_nat (length regs) * 2 ^ 64) as Hsum.
  { clear -Hw. induction regs as [|[c w] l IH]; csimpl in *; [lia|].
    apply Forall_cons in Hw as [Hw Hl]. simpl in Hw. specialize (IH Hl). lia. }
  assert (Z.of_nat (length perms) < u_bound 64).
  { eapply Z.le_lt_trans; [|apply (Z.lt_trans _ (2 ^ 48)); [exact Hlp|done]].
    apply inj_le, length_filter_map_le. }
  destruct (AriadneV2.select_authorities_outcome (R:=R) r p regs perms
    (seed_from_nonce_and_sc_epoch (epoch_nonce input) sidechain_epoch)) as (res & Hres & Hnone & Hsome).
  - done.
  - done.
  - done.
  - eapply Forall_impl; [exact Hw|]. simpl. lia.
  - unfold u_bound in *. nia.
  - done.
  - unfold select_authorities, select_candidates. fold r p regs perms. rewrite Hres. simpl.
    destruct res as [l|].
    + destruct (Hsome l eq_refl) as [Hl Hm]. eexists. split; [done|]. split; [rewrite <-Hnone; done|].
      intros cm [= <-]. split.
      * intros Hne. specialize (Hl Hne). unfold truncate_from. rewrite length_take, length_fmap. lia.
      * intros m Hin. unfold truncate_from in Hin. apply elem_of_take in Hin as (i & Hi & _).
        apply list_elem_of_lookup_2 in Hi. apply list_elem_of_fmap in Hi as (c & -> & Hc). eauto.
    + eexists. split; [done|]. split; [|done]. rewrite <-Hnone. done.
Qed.

(** Epochs that share a nonce never share a seed. *)
Theorem seed_injective epoch_nonce e1 e2 :
  in_u 64 e1 → in_u 64 e2 →
  seed_from_nonce_and_sc_epoch epoch_nonce e1 = seed_from_nonce_and_sc_epoch epoch_nonce e2 → e1 = e2.
Proof.
  unfold seed_from_nonce_and_sc_epoch, wadd, wrap, in_u. intros H1 H2 Heq%(f_equal from_be).
  assert (∀ x, 0 ≤ x mod u_bound 256 < 256 ^ Z.of_nat 32) as Hb.
  { intros x. change (256 ^ Z.of_nat 32) with (u_bound 256). apply Z.mod_pos_bound. done. }
  rewrite !from_be_be in Heq by apply Hb. set (n := from_be _) in *.
  assert ((e1 - e2) mod u_bound 256 = 0) as Hz.
  { replace (e1 - e2) with ((n + e1) - (n + e2)) by lia.
    rewrite Zminus_mod, Heq, Z.sub_diag. done. }
  apply Z.mod_divide in Hz as [k Hk]; [|done]. unfold u_bound in *. nia.
Qed.

(** Within one partner chain epoch every node derives the same selection
    inputs: the provider's result does not depend on the timestamp of the block,
    only on the epoch it falls into. *)
Theorem ariadne_inputs_deterministic {E : Type} (client : CommitteeApi E) duration config ts1 ts2
    (source : AuthoritySelectionDataSource E) reference :
  0 < duration → ts1 / duration = ts2 / duration →
  new_ariadne_provider client duration config ts1 source reference
  = new_ariadne_provider client duration config ts2 source reference.
Proof.
  intros Hd Hts. unfold new_ariadne_provider, mc_epoch_for_next_ariadne_cidp.
  destruct (api_get_next_unset_epoch_number client); [|done].
  unfold checked_div. destruct (Z.eqb_spec duration 0); [lia|]. by rewrite Hts.
Qed.

(** ** Witnesses: signatures that repeat a checksum *)

#[export] Instance checksum_verifier : CandidateVerifier Z Z := {|
  ed25519_verify sig msg pk := bool_decide (sig = replicate 64 (zsum msg mod 256));
  ecdsa_verify sig msg pk := bool_decide (sig = replicate 64 (zsum msg mod 256) ++ [28]);
  from_ecdsa_public := zsum;
  key_ids := [[1]];
  decode_account_keys b := Some (zsum b);
|}.

Definition example_genesis : UtxoId := mkUtxoId (replicate 32 7) 0.
Definition example_key : bytes := replicate 33 2.
Definition example_spent : UtxoId := mkUtxoId (replicate 32 9) 1.
Definition example_signature : bytes :=
  let msg := to_datum_cbor_bytes (mkSignedMessage example_genesis example_key example_spent) in
  replicate 64 (zsum msg mod 256).
Definition example_registration (block : Z) (inputs : list UtxoId) : RegistrationData :=
  mkRegistrationData example_spent example_signature example_signature [] example_key []
    (mkUtxoInfo example_spent 1 block 0 0) inputs [mkCandidateKey [1] [5]].
Definition example_operator : CandidateRegistrations :=
  mkCandidateRegistrations [4]
    [example_registration 10 [example_spent]; example_registration 11 []] (Some 1000).
Definition example_inputs : AuthoritySelectionInputs :=
  mkInputs (mkDParameter 1 2) [mkPermissionedCandidateData (replicate 33 3) [mkCandidateKey [1] [6]]]
    [example_operator] [].

Lemma example_valid :
  valid_registration [4] example_genesis (example_registration 10 [example_spent]) example_key 5.
Proof.
  apply validate_registration_data_Ok. vm_compute. reflexivity.
Qed.

Lemma registered_candidates_exact_witness :
  ∃ c, (RegisteredC c, 1000) ∈
    filter_trustless_candidates_registrations (A:=Z) (K:=Z) [example_operator] example_genesis ∧
    cws_stake_pool_pub_key c = [4].
Proof.
  apply (proj1 (proj2 (registered_candidates_exact [example_operator] example_genesis))
    example_operator 1000 (example_registration 10 [example_spent]) example_key 5);
    [left|reflexivity|done|left|apply example_valid].
Defined.

Lemma message_encodable m :
  (length (tx_hash (msg_genesis_utxo m)) ≤ 64)%nat → (length (msg_sidechain_pub_key m) ≤ 64)%nat →
  (length (tx_hash (msg_registration_utxo m)) ≤ 64)%nat →
  Forall (λ x, 0 ≤ x < 256) (tx_hash (msg_genesis_utxo m)) →
  Forall (λ x, 0 ≤ x < 256) (msg_sidechain_pub_key m) →
  Forall (λ x, 0 ≤ x < 256) (tx_hash (msg_registration_utxo m)) →
  in_u 16 (utxo_index (msg_genesis_utxo m)) → in_u 16 (utxo_index (msg_registration_utxo m)) →
  encodable (to_datum m).
Proof.
  destruct m as [[h1 i1] k [h2 i2]]. simpl. unfold in_u, u_bound. intros. split.
  - repeat (constructor; try done).
  - assert (encode_datum (to_datum (mkSignedMessage (mkUtxoId h1 i1) k (mkUtxoId h2 i2))) =
      [TTag 121; TBeginArray; TTag 121; TBeginArray; TTag 121; TBeginArray; TBytes h1; TEnd; TInt i1; TEnd;
       TBytes k; TTag 121; TBeginArray; TTag 121; TBeginArray; TBytes h2; TEnd; TInt i2; TEnd; TEnd]) as ->.
    { cbn [to_datum signed_message_to_datum UtxoId_to_datum McTxHash_to_datum UtxoIndex_to_datum
        uint_to_datum bytes_to_datum encode_datum map msg_genesis_utxo msg_sidechain_pub_key
        msg_registration_utxo tx_hash utxo_index].
      by rewrite !encode_bytestring_short, !encode_integer_small by lia. }
    repeat (apply Forall_cons; split; [first [done|simpl; lia|simpl; split; [lia|done]]|]). done.
Qed.

Lemma signed_message_binding_witness :
  to_datum_cbor_bytes (mkSignedMessage example_genesis example_key example_spent)
  ≠ to_datum_cbor_bytes (mkSignedMessage example_spent example_key example_spent).
Proof.
  intros Heq. apply (signed_message_binding (mkSignedMessage example_genesis example_key example_spent)
    (mkSignedMessage example_spent example_key example_spent)) in Heq; [done|..];
  (apply message_encodable; [simpl; lia..| | | |done|done]; vm_compute; repeat constructor; congruence).
Defined.

Lemma authority_selection_total_witness :
  ∃ cm, select_authorities 10 example_genesis example_inputs 3 = Ret (Some cm) ∧ length cm = 3%nat.
Proof.
  destruct (authority_selection_total (A:=Z) (K:=Z) 10 example_genesis example_inputs 3) as (res & Hres & Hnone & Hsome).
  - done.
  - done.
  - done.
  - done.
  - intros cr s ->%list_elem_of_singleton [= <-]. done.
  - done.
  - done.
  - assert (filter_trustless_candidates_registrations (A:=Z) (K:=Z) [example_operator] example_genesis ≠ []) as Hne.
    { vm_compute. done. }
    destruct res as [cm|]; [|destruct (Hne (proj1 (proj1 Hnone eq_refl)))].
    exists cm. split; [exact Hres|]. destruct (Hsome cm eq_refl) as [Hl _].
    specialize (Hl (or_introl Hne)). apply Nat2Z.inj. exact Hl.
Defined.

Lemma seed_injective_witness :
  seed_from_nonce_and_sc_epoch [1; 2] 3 ≠ seed_from_nonce_and_sc_epoch [1; 2] 4.
Proof.
  intros Heq. assert (3 = 4) as Hc; [|discriminate Hc].
  apply (seed_injective [1; 2] 3 4); [by split|by split|exact Heq].
Defined.

Definition example_source : AuthoritySelectionDataSource unit :=
  mkDataSource (λ _ _ _, Ok (mkAriadneParameters (mkDParameter 0 1) None))
    (λ _ _, Ok [example_operator]) (λ _, Ok None) (λ e, Ok (e - 2)).

Lemma ariadne_inputs_deterministic_witness :
  new_ariadne_provider (mkCommitteeApi (Ok 1) (Ok (mkScripts [] [] []))) 60000 mainnet 1596491091000
    example_source 500
  = new_ariadne_provider (mkCommitteeApi (Ok 1) (Ok (mkScripts [] [] []))) 60000 mainnet 1596491091999
    example_source 500.
Proof.
  apply (ariadne_inputs_deterministic _ 60000 mainnet 1596491091000 1596491091999); reflexivity.
Defined.
