(* ===== verification/SidechainPallet.v ===== *)
(** * The sidechain pallet

    Models [toolkit/sidechain/pallet/src/lib.rs], its migration
    [migrations/v1.rs], and the [OnNewEpoch] handlers of
    [toolkit/sidechain/primitives/src/lib.rs]: the partner chain epoch of a block
    and the notification of handlers when it changes. *)

From S2P Require Import Prelude Domain.

(** ** Handlers

    A handler updates the state of other pallets; a tuple of handlers calls its
    elements in order. *)
Definition EpochHandler (H : Type) := Z → Z → H → H.
Definition no_handler {H} : EpochHandler H := λ _ _ h, h.
Definition tuple_handler {H} (handlers : list (EpochHandler H)) : EpochHandler H :=
  λ old_epoch new_epoch h, foldl (λ h handler, handler old_epoch new_epoch h) h handlers.

(** ** The pallet *)

Record SidechainState := mkSidechainState {
  EpochNumber : option Z;
  EpochDurationMillis : Z;
  SlotsPerEpoch : Z;
  GenesisUtxo : UtxoId;
}.

Definition put_epoch_number (e : Z) (s : SidechainState) : SidechainState :=
  mkSidechainState (Some e) (EpochDurationMillis s) (SlotsPerEpoch s) (GenesisUtxo s).
Definition put_epoch_duration (d : Z) (s : SidechainState) : SidechainState :=
  mkSidechainState (EpochNumber s) d (SlotsPerEpoch s) (GenesisUtxo s).

Definition genesis_utxo (s : SidechainState) : UtxoId := GenesisUtxo s.
Definition epoch_duration_millis (s : SidechainState) : Z := EpochDurationMillis s.

Definition current_epoch_number (reference_timestamp_millis : Z) (s : SidechainState) : outcome Z :=
  checked_div reference_timestamp_millis (epoch_duration_millis s).

Definition sidechain_genesis (genesis_utxo : UtxoId) (epoch_duration : Z) : SidechainState :=
  mkSidechainState None epoch_duration 0 genesis_utxo.

Section Hooks.
Context {H : Type} (on_new_epoch : EpochHandler H).

Definition sidechain_on_initialize (reference_timestamp_millis : Z) (s : SidechainState) (h : H) :
    outcome (SidechainState * H) :=
  real_epoch ← current_epoch_number reference_timestamp_millis s;
  match EpochNumber s with
  | Some saved_epoch =>
      if negb (saved_epoch =? real_epoch)
      then Ret (put_epoch_number real_epoch s, on_new_epoch saved_epoch real_epoch h)
      else Ret (s, h)
  | None => Ret (put_epoch_number real_epoch s, h)
  end.

(** The hook on a sequence of blocks with the given reference timestamps. *)
Fixpoint initialize_blocks (timestamps : list Z) (s : SidechainState) (h : H) :
    outcome (SidechainState * H) :=
  match timestamps with
  | [] => Ret (s, h)
  | t :: timestamps =>
      '(s, h) ← sidechain_on_initialize t s h;
      initialize_blocks timestamps s h
  end.

End Hooks.

(** [InnerMigrateV0ToV1::on_runtime_upgrade] *)
Definition migrate_slots_to_duration (SLOT_DURATION_MILLIS : Z) (s : SidechainState) : SidechainState :=
  let slots_per_epoch := SlotsPerEpoch s in
  put_epoch_duration (wmul 64 slots_per_epoch SLOT_DURATION_MILLIS) s.

(** ** Lemmas *)

(** Consecutive different elements of a sequence that follows [x]. *)
Fixpoint changes_from (x : Z) (l : list Z) : list (Z * Z) :=
  match l with
  | [] => []
  | y :: l => if decide (x = y) then changes_from y l else (x, y) :: changes_from y l
  end.
Definition changes (l : list Z) : list (Z * Z) :=
  match l with [] => [] | x :: l => changes_from x l end.

Definition notify {H} (on_new_epoch : EpochHandler H) (h : H) (calls : list (Z * Z)) : H :=
  foldl (λ h c, on_new_epoch c.1 c.2 h) h calls.

Lemma initialize_blocks_from {H} (handler : EpochHandler H) ts s h x :
  0 < EpochDurationMillis s → EpochNumber s = Some x →
  initialize_blocks handler ts s h =
  Ret (put_epoch_number (default x (last ((λ t, t / EpochDurationMillis s) <$> ts))) s,
       notify handler h (changes_from x ((λ t, t / EpochDurationMillis s) <$> ts))).
Proof.
  revert s h x. induction ts as [|t ts IH]; intros s h x Hd Hx.
  { destruct s. simpl in *. by subst. }
  set (e := t / EpochDurationMillis s).
  assert (sidechain_on_initialize handler t s h =
    Ret (put_epoch_number e s, if decide (x = e) then h else handler x e h)) as Hinit.
  { unfold sidechain_on_initialize, current_epoch_number, checked_div, epoch_duration_millis.
    destruct (Z.eqb_spec (EpochDurationMillis s) 0); [lia|]. simpl. rewrite Hx. fold e.
    destruct (Z.eqb_spec x e) as [->|Hne]; simpl.
    - rewrite decide_True by done. unfold put_epoch_number. rewrite <-Hx. by destruct s.
    - by rewrite decide_False. }
  simpl. rewrite Hinit. simpl. rewrite (IH _ _ e); [|done|done]. csimpl. fold e. f_equal. f_equal.
  - unfold put_epoch_number. simpl. f_equal. f_equal.
    rewrite last_cons. by destruct (last _).
  - case_decide; done.
Qed.

(** ** Properties *)

(** Over any sequence of blocks the handlers are called exactly once for
    each change of epoch, in order, with the epoch that ended and the one that
    began; the first block only records its epoch, and the recorded epoch is that
    of the last block. *)
Theorem epoch_changes_notified {H : Type} (on_new_epoch : EpochHandler H) utxo duration t ts h :
  0 < duration →
  let epochs := (λ t, t / duration) <$> t :: ts in
  initialize_blocks on_new_epoch (t :: ts) (sidechain_genesis utxo duration) h =
  Ret (mkSidechainState (last epochs) duration 0 utxo, notify on_new_epoch h (changes epochs)).
Proof.
  intros Hd epochs. cbn [initialize_blocks].
  unfold sidechain_on_initialize, current_epoch_number, checked_div. simpl.
  unfold epoch_duration_millis. simpl. destruct (Z.eqb_spec duration 0); [lia|]. simpl.
  rewrite (initialize_blocks_from on_new_epoch ts _ h (t / duration)) by done. simpl.
  unfold put_epoch_number. simpl. f_equal. f_equal. f_equal. unfold epochs. csimpl.
  rewrite last_cons. by destruct (last _).
Qed.

(** The migration from slots to milliseconds keeps every epoch number: the
    epoch of a slot computed from its start time is the epoch that the slot count
    gave. *)
Theorem migration_keeps_epochs slot_duration slot s :
  0 < slot_duration → 0 < SlotsPerEpoch s → SlotsPerEpoch s * slot_duration < u_bound 64 →
  current_epoch_number (slot * slot_duration) (migrate_slots_to_duration slot_duration s)
  = Ret (slot / SlotsPerEpoch s).
Proof.
  intros Hd Hs Hb. unfold current_epoch_number, epoch_duration_millis, migrate_slots_to_duration, checked_div.
  simpl. rewrite wmul_exact by (split; [nia|done]).
  destruct (Z.eqb_spec (SlotsPerEpoch s * slot_duration) 0); [nia|].
  f_equal. rewrite Z.div_mul_cancel_r by lia. done.
Qed.

(** ** Witnesses *)

Lemma epoch_changes_notified_witness :
  initialize_blocks (λ old new log, log ++ [(old, new)]) [5000; 5500; 61000; 190000]
    (sidechain_genesis (mkUtxoId [] 0) 60000) []
  = Ret (mkSidechainState (Some 3) 60000 0 (mkUtxoId [] 0), [(0, 1); (1, 3)]).
Proof.
  apply (epoch_changes_notified (λ old new log, log ++ [(old, new)]) (mkUtxoId [] 0) 60000 5000
    [5500; 61000; 190000] []). done.
Defined.

Lemma migration_keeps_epochs_witness :
  current_epoch_number (125 * 6000)
    (migrate_slots_to_duration 6000 (mkSidechainState None 0 60 (mkUtxoId [] 0))) = Ret 2.
Proof.
  apply (migration_keeps_epochs 6000 125 (mkSidechainState None 0 60 (mkUtxoId [] 0))); done.
Defined.
