(* ===== verification/BlockProductionLog.v ===== *)
(** * Block production log and block participation

    - [toolkit/block-production-log/pallet/src/lib.rs]: the log of the authors
      of blocks ([on_initialize], [take_prefix], [peek_prefix], [drop_prefix]);
    - [toolkit/block-participation/pallet/src/lib.rs]: the operational inherent
      that discards the log entries that were handed over;
    - [toolkit/block-participation/primitives/src/lib.rs]: the inherent data
      provider that aggregates the log by main chain epoch and producer and
      joins it with the stake distribution.

    [Moment] is a slot number.  The order in which a [HashMap] yields its
    entries is the parameter [hash_order]; the runtime API of the parent block
    and the Cardano data source are records of functions. *)

From S2P Require Import Prelude Domain MainchainEpoch.

(** ** The log *)

Section Log.
Context {P : Type}.

Abbreviation Log := (list (Z * P)).

Definition on_initialize (get_author : option P) (get_moment : option Z) (log : Log) : Log :=
  match get_author with
  | None => log
  | Some author =>
      match get_moment with
      | None => log
      | Some moment => log ++ [(moment, author)]
      end
  end.

Definition up_to (moment : Z) (entry : Z * P) : bool := entry.1 <=? moment.

Definition take_prefix (moment : Z) (log : Log) : Log * Log :=
  let pos := partition_point (up_to moment) log in
  (take pos log, drop pos log).

Definition peek_prefix (moment : Z) (log : Log) : Log := take_while (up_to moment) log.

Definition drop_prefix (moment : Z) (log : Log) : Log :=
  let position := partition_point (up_to moment) log in
  drop position log.

(** The log is sorted by moment: blocks are produced at increasing slots. *)
Definition log_sorted (log : Log) : Prop := StronglySorted Z.lt log.*1.

Lemma log_partitioned moment log : log_sorted log → partitioned (up_to moment) log.
Proof.
  intros Hs. apply (StronglySorted_partitioned (λ x y, x.1 < y.1)).
  - induction log as [|x log IH]; [constructor|]. unfold log_sorted in *. rewrite fmap_cons in Hs.
    apply StronglySorted_inv in Hs as [Hs Hx]. constructor; [by apply IH|].
    rewrite Forall_fmap in Hx. exact Hx.
  - intros x y Hxy. unfold up_to. lia.
Qed.

Lemma take_prefix_split moment log :
  log_sorted log → take_prefix moment log = (peek_prefix moment log, drop_prefix moment log).
Proof.
  intros Hs. unfold take_prefix, drop_prefix, peek_prefix. f_equal.
  by rewrite partition_point_take_while, take_while_take by (by apply log_partitioned).
Qed.

Lemma drop_prefix_filter moment log :
  log_sorted log → drop_prefix moment log = filter (λ x, up_to moment x = false) log.
Proof.
  intros Hs. pose proof (log_partitioned moment log Hs). unfold drop_prefix.
  by rewrite partition_point_take_while, skip_while_drop, partitioned_skip_while.
Qed.
End Log.

(** ** The interface between the log and the participation pallet *)

Class BlockParticipationProvider (P : Type) := {
  blocks_to_process : list (Z * P) → Z → outcome (list (Z * P));
  discard_processed_blocks : list (Z * P) → Z → list (Z * P);
}.

(** The implementation by the log pallet. *)
Definition log_provider P : BlockParticipationProvider P := {|
  blocks_to_process log moment := Ret (peek_prefix moment log);
  discard_processed_blocks log moment := drop_prefix moment log;
|}.

(** The implementation of the demo runtime: data are released at the slots
    divisible by the period; a remainder by zero panics. *)
Definition release_provider P (period : Z) : BlockParticipationProvider P := {|
  blocks_to_process log slot :=
    if period =? 0 then Panic else Ret (if slot mod period =? 0 then peek_prefix slot log else []);
  discard_processed_blocks log slot := drop_prefix slot log;
|}.

(** ** The participation pallet *)

Inductive InherentError := InherentRequired | UnexpectedInherent | InvalidInherentData.

#[global] Instance InherentError_eq_dec : EqDecision InherentError.
Proof. solve_decision. Defined.

Inductive ParticipationError := BadOrigin | MomentNotIncreasing.

Inductive ParticipationCall := call_note_processing (up_to_moment : Z).

(** What [InherentData::get_data] finds under the identifier of the pallet: bytes
    that do not decode, nothing, or a moment. *)
Abbreviation inherent_moment := (result unit (option Z)).

Definition decode_inherent_data (data : inherent_moment) : result InherentError (option Z) :=
  map_err (λ _, InvalidInherentData) data.

Definition create_inherent (data : inherent_moment) : outcome (option ParticipationCall) :=
  match decode_inherent_data data with
  | Err _ => Panic
  | Ok None => Ret None
  | Ok (Some up_to_moment) => Ret (Some (call_note_processing up_to_moment))
  end.

Definition check_inherent (call : ParticipationCall) (data : inherent_moment) : result InherentError unit :=
  o ← decode_inherent_data data;
  match o with
  | None => Err UnexpectedInherent
  | Some expected_moment =>
      let '(call_note_processing up_to_moment) := call in
      ensure (expected_moment =? up_to_moment) InvalidInherentData
  end.

Definition is_inherent_required (data : inherent_moment) : result InherentError (option InherentError) :=
  o ← decode_inherent_data data;
  match o with
  | Some _ => Ok (Some InherentRequired)
  | None => Ok None
  end.

Record ParticipationState (P : Type) := mkParticipation {
  production_log : list (Z * P);
  processed_up_to : Z;
}.
Arguments mkParticipation {P} _ _.
Arguments production_log {P} _.
Arguments processed_up_to {P} _.

Section Pallet.
Context {P : Type} `{!BlockParticipationProvider P}.

Definition note_processing (none_origin : bool) (up_to_moment : Z) (s : ParticipationState P) :
    result ParticipationError (ParticipationState P) :=
  _ ← ensure none_origin BadOrigin;
  _ ← ensure (processed_up_to s <? up_to_moment) MomentNotIncreasing;
  Ok (mkParticipation (discard_processed_blocks (production_log s) up_to_moment) up_to_moment).
End Pallet.

(** ** Participation data *)

Inductive DelegatorKey :=
  | StakeKeyHash (hash : bytes)
  | ScriptKeyHash (hash_raw script_hash : bytes).

#[global] Instance DelegatorKey_eq_dec : EqDecision DelegatorKey.
Proof. solve_decision. Defined.

Definition DelegatorKey_tuple (k : DelegatorKey) : Z * (bytes * bytes) :=
  match k with
  | StakeKeyHash h => (0, (h, []))
  | ScriptKeyHash h s => (1, (h, s))
  end.
#[global] Instance DelegatorKey_tuple_inj : Inj (=) (=) DelegatorKey_tuple.
Proof. intros [] [] [=]; congruence. Qed.
#[global] Instance DelegatorKey_countable : Countable DelegatorKey.
Proof.
  apply (inj_countable' DelegatorKey_tuple
    (λ t, if t.1 =? 0 then StakeKeyHash t.2.1 else ScriptKeyHash t.2.1 t.2.2)).
  by intros [].
Defined.
#[global] Instance DelegatorKey_ord : Ord DelegatorKey := ord_via DelegatorKey_tuple.

Record PoolDelegation := mkPoolDelegation {
  total_stake : Z;
  delegators : gmap DelegatorKey Z;
}.

Abbreviation StakeDistribution := (gmap bytes PoolDelegation).

Record DelegatorBlockParticipationData (D : Type) := mkDelegatorData {
  delegator_id : D;
  share : Z;
}.
Arguments mkDelegatorData {D} _ _.
Arguments delegator_id {D} _.
Arguments share {D} _.

Record BlockProducerParticipationData (P D : Type) := mkProducerData {
  block_producer : P;
  block_count : Z;
  delegator_total_shares : Z;
  producer_delegators : list (DelegatorBlockParticipationData D);
}.
Arguments mkProducerData {P D} _ _ _ _.
Arguments block_producer {P D} _.
Arguments block_count {P D} _.
Arguments delegator_total_shares {P D} _.
Arguments producer_delegators {P D} _.

Section DerivedOrd.
Context {P D : Type} `{EqDecision P, EqDecision D, !Ord P, !Ord D}.

Definition delegator_tuple (d : DelegatorBlockParticipationData D) : D * Z := (delegator_id d, share d).
#[export] Instance delegator_tuple_inj : Inj (=) (=) delegator_tuple.
Proof. intros [] [] [=]. congruence. Qed.
#[export] Instance DelegatorData_eq_dec : EqDecision (DelegatorBlockParticipationData D).
Proof. solve_decision. Defined.
#[export] Instance DelegatorData_ord : Ord (DelegatorBlockParticipationData D) :=
  ord_via delegator_tuple.

Definition producer_tuple (b : BlockProducerParticipationData P D) :
    P * (Z * (Z * list (DelegatorBlockParticipationData D))) :=
  (block_producer b, (block_count b, (delegator_total_shares b, producer_delegators b))).
#[export] Instance producer_tuple_inj : Inj (=) (=) producer_tuple.
Proof. intros [] [] [=]. congruence. Qed.
#[export] Instance ProducerData_ord : Ord (BlockProducerParticipationData P D) :=
  ord_via producer_tuple.
End DerivedOrd.

(** [BlockProductionData::new] sorts the delegators of each entry and then the
    entries. *)
Definition sort_delegators `{EqDecision D, !Ord D} {P} (b : BlockProducerParticipationData P D) :
    BlockProducerParticipationData P D :=
  mkProducerData (block_producer b) (block_count b) (delegator_total_shares b)
    (sort (producer_delegators b)).
Definition BlockProductionData_new `{EqDecision P, EqDecision D, !Ord P, !Ord D}
    (producer_participation : list (BlockProducerParticipationData P D)) :
    list (BlockProducerParticipationData P D) :=
  sort (sort_delegators <$> producer_participation).

(** ** The inherent data provider *)

Record ParticipationApi (P E : Type) := mkParticipationApi {
  has_participation_api : result E bool;
  api_blocks_to_process : Z → result E (list (Z * P));
  api_target_inherent_id : result E bytes;
  api_moment_to_timestamp_millis : Z → result E Z;
}.
Arguments mkParticipationApi {P E} _ _ _ _.
Arguments has_participation_api {P E} _.
Arguments api_blocks_to_process {P E} _ _.
Arguments api_target_inherent_id {P E} _.
Arguments api_moment_to_timestamp_millis {P E} _ _.

Inductive InherentDataCreationError (P E F : Type) :=
  | ApiError (e : E)
  | DataSourceError (e : F)
  | DataMissing (mc_epoch : Z) (producer : P)
  | McEpochBelowOffset (mc_epoch : Z) (offset : Z).
Arguments ApiError {P E F} _.
Arguments DataSourceError {P E F} _.
Arguments DataMissing {P E F} _ _.
Arguments McEpochBelowOffset {P E F} _ _.

Inductive ParticipationProvider (P D : Type) :=
  | Active (moment : Z) (target_inherent_id : bytes)
      (block_production_data : list (BlockProducerParticipationData P D))
  | Inert.
Arguments Active {P D} _ _ _.
Arguments Inert {P D}.

Section Provider.
Context {P D E F : Type} `{Countable P, EqDecision D, !Ord P, !Ord D}.
(** [AsCardanoSPO::as_cardano_spo] and [CardanoDelegator::from_delegator_key]. *)
Context (as_cardano_spo : P → option bytes) (from_delegator_key : DelegatorKey → D).
(** The iteration order of a [HashMap]. *)
Context (hash_order : ∀ A : Type, list A → list A).
(** [BlockParticipationDataSource::get_stake_pool_delegation_distribution_for_pools]. *)
Context (data_source : Z → list bytes → result F StakeDistribution).
Context (mc_epoch_config : MainchainEpochConfig) (api : ParticipationApi P E).

Abbreviation creation := (result (InherentDataCreationError P E F)).

Definition data_mc_epoch_for_timestamp (timestamp : Z) : outcome (creation Z) :=
  r ← timestamp_to_mainchain_epoch mc_epoch_config timestamp;
  match r with
  | Err _ => Panic
  | Ok mc_epoch => Ret (map_err (McEpochBelowOffset mc_epoch) (offset_data_epoch mc_epoch))
  end.

(** [epoch_producers.entry(mc_epoch).or_default().entry(producer).or_default() += 1]. *)
Definition count_block (mc_epoch : Z) (producer : P) (epoch_producers : gmap Z (gmap P Z)) :
    gmap Z (gmap P Z) :=
  let producers := default ∅ (epoch_producers !! mc_epoch) in
  <[mc_epoch := <[producer := wadd 32 (default 0 (producers !! producer)) 1]> producers]> epoch_producers.

Fixpoint count_blocks_loop (blocks : list (Z * P)) (epoch_producers : gmap Z (gmap P Z)) :
    outcome (creation (gmap Z (gmap P Z))) :=
  match blocks with
  | [] => Ret (Ok epoch_producers)
  | (moment, producer) :: blocks =>
      timestamp ←? Ret (map_err ApiError (api_moment_to_timestamp_millis api moment));
      mc_epoch ←? data_mc_epoch_for_timestamp timestamp;
      count_blocks_loop blocks (count_block mc_epoch producer epoch_producers)
  end.
Definition count_blocks_by_epoch_and_producer (blocks : list (Z * P)) :=
  count_blocks_loop blocks ∅.

Definition fetch_delegations (mc_epoch : Z) (producers : list P) : creation StakeDistribution :=
  let pools := filter_map as_cardano_spo producers in
  map_err DataSourceError (data_source mc_epoch pools).

Definition production_breakdown_for (mc_epoch : Z) (producer : P) (block_count : Z)
    (distribution : StakeDistribution) : creation (BlockProducerParticipationData P D) :=
  match as_cardano_spo producer with
  | None => Ok (mkProducerData producer block_count 0 [])
  | Some cardano_producer =>
      d ← ok_or (distribution !! cardano_producer) (DataMissing mc_epoch producer);
      let beneficiaries :=
        (λ '(delegator_key, stake_amount),
           mkDelegatorData (from_delegator_key delegator_key) stake_amount)
        <$> btree_iter (delegators d) in
      Ok (mkProducerData producer block_count (total_stake d) beneficiaries)
  end.

Definition production_summaries_for (epoch_blocks : Z * gmap P Z) :
    creation (list (BlockProducerParticipationData P D)) :=
  let '(mc_epoch, producer_blocks) := epoch_blocks in
  let entries := hash_order _ (map_to_list producer_blocks) in
  stake_distribution ← fetch_delegations mc_epoch entries.*1;
  mapM (M:=creation)
    (λ '(producer, block_count), production_breakdown_for mc_epoch producer block_count stake_distribution)
    entries.

Definition new (moment : Z) : outcome (creation (ParticipationProvider P D)) :=
  has_api ←? Ret (map_err ApiError (has_participation_api api));
  if negb has_api then Ret (Ok Inert)
  else
    blocks_to_process ←? Ret (map_err ApiError (api_blocks_to_process api moment));
    if is_empty blocks_to_process then Ret (Ok Inert)
    else
      target_inherent_id ←? Ret (map_err ApiError (api_target_inherent_id api));
      block_counts_by_epoch_and_producer ←? count_blocks_by_epoch_and_producer blocks_to_process;
      production_summaries ←? Ret
        (mapM (M:=creation) production_summaries_for
          (hash_order _ (map_to_list block_counts_by_epoch_and_producer)));
      Ret (Ok (Active moment target_inherent_id (BlockProductionData_new (concat production_summaries)))).
End Provider.

(** The moment that [provide_inherent_data] puts under the identifier of the
    participation pallet. *)
Definition provide_inherent_data {P D} (idp : ParticipationProvider P D) : inherent_moment :=
  match idp with
  | Active moment _ _ => Ok (Some moment)
  | Inert => Ok None
  end.

(** ** Producing blocks

    The node computes the inherent data on the state of the parent block, at the
    slot of the new block; the new block appends its own entry to the log when
    it is initialized and applies the inherent afterwards. *)

Section Chain.
Context {P D F : Type} `{Countable P, EqDecision D, !Ord P, !Ord D}.
Context (as_cardano_spo : P → option bytes) (from_delegator_key : DelegatorKey → D).
Context (hash_order : ∀ A : Type, list A → list A).
Context (data_source : Z → list bytes → result F StakeDistribution).
Context (mc_epoch_config : MainchainEpochConfig).
Context (slot_duration : Z) (target : bytes).

(** The runtime API on the state of the parent block, with the release period that
    is stored there; a call that panics is an error. *)
Definition parent_api (period : Z) (s : ParticipationState P) : ParticipationApi P unit :=
  mkParticipationApi (Ok true)
    (λ slot, match @blocks_to_process P (release_provider P period) (production_log s) slot with
             | Ret blocks => Ok blocks
             | Panic => Err tt
             end)
    (Ok target) (λ slot, Ok (wmul 64 slot slot_duration)).

Definition provider_at (period : Z) (s : ParticipationState P) (slot : Z) :=
  new as_cardano_spo from_delegator_key hash_order data_source mc_epoch_config (parent_api period s) slot.

(** A block whose author or moment the log pallet may fail to find. *)
Definition execute_block (period : Z) (idp : ParticipationProvider P D) (author : option P) (moment : option Z)
    (s : ParticipationState P) : option (ParticipationState P) :=
  let s := mkParticipation (on_initialize author moment (production_log s)) (processed_up_to s) in
  match create_inherent (provide_inherent_data idp) with
  | Ret None => Some s
  | Ret (Some (call_note_processing up_to_moment)) =>
      ok (@note_processing P (release_provider P period) true up_to_moment s)
  | Panic => None
  end.

(** The entries of the blocks whose author is known. *)
Definition entries (blocks : list (Z * option P)) : list (Z * P) :=
  filter_map (λ b, pair b.1 <$> b.2) blocks.

(** [run blocks handed released s]: from the empty log the chain produced
    [blocks], with their slots and what the log pallet found about their authors; the
    entries aggregated into inherent data were [handed], at the slots [released]; the
    state is [s].  The release period may change from block to block. *)
Inductive run : list (Z * option P) → list (Z * P) → list Z → ParticipationState P → Prop :=
  | run_genesis : run [] [] [] (mkParticipation [] 0)
  | run_inert blocks handed released s period slot author moment s' :
      run blocks handed released s → 0 < slot → Forall (λ b, b.1 < slot) blocks →
      moment = None ∨ moment = Some slot →
      provider_at period s slot = Ret (Ok Inert) →
      execute_block period Inert author moment s = Some s' →
      run (blocks ++ [(slot, moment ≫= λ _, author)]) handed released s'
  | run_active blocks handed released s period slot author moment s' data to_process :
      run blocks handed released s → 0 < slot → Forall (λ b, b.1 < slot) blocks →
      moment = None ∨ moment = Some slot →
      provider_at period s slot = Ret (Ok (Active slot target data)) →
      @blocks_to_process P (release_provider P period) (production_log s) slot = Ret to_process →
      execute_block period (Active slot target data) author moment s = Some s' →
      run (blocks ++ [(slot, moment ≫= λ _, author)]) (handed ++ to_process) (released ++ [slot]) s'.

Record run_inv (blocks : list (Z * option P)) (handed : list (Z * P)) (released : list Z)
    (s : ParticipationState P) : Prop := {
  inv_accounted : handed ++ production_log s = entries (filter (λ b, b.1 ∉ released) blocks);
  inv_sorted : log_sorted (production_log s);
  inv_released : ∀ m, m ∈ released → m ∈ blocks.*1;
  inv_processed : processed_up_to s = 0 ∨ processed_up_to s ∈ blocks.*1;
}.

Lemma log_below blocks handed released s slot :
  run_inv blocks handed released s → Forall (λ b, b.1 < slot) blocks →
  Forall (λ b, b.1 < slot) (production_log s).
Proof.
  intros Hinv Hb. rewrite Forall_forall in Hb. apply Forall_forall. intros x Hx.
  assert (x ∈ handed ++ production_log s) as Hin by (apply elem_of_app; by right).
  rewrite (inv_accounted _ _ _ _ Hinv) in Hin. apply elem_of_filter_map in Hin as ([m o] & Hm & Hx').
  apply list_elem_of_filter in Hm as [_ Hm]. destruct o; [|done]. injection Hx' as <-. exact (Hb _ Hm).
Qed.

Lemma on_initialize_entries author moment slot (log : list (Z * P)) :
  moment = None ∨ moment = Some slot →
  on_initialize author moment log = log ++ entries [(slot, moment ≫= λ _, author)].
Proof. intros [-> | ->]; destruct author; simpl; by rewrite ?app_nil_r. Qed.

Lemma log_sorted_snoc (log : list (Z * P)) slot author :
  log_sorted log → Forall (λ b, b.1 < slot) log → log_sorted (log ++ entries [(slot, author)]).
Proof.
  destruct author as [a|]; simpl; [|by rewrite app_nil_r].
  unfold log_sorted. rewrite fmap_app. intros Hs Hb. apply StronglySorted_app_2; [|done|repeat constructor].
  intros x y Hx ->%list_elem_of_singleton. apply list_elem_of_fmap in Hx as (b & -> & Hin).
  rewrite Forall_forall in Hb. by apply Hb.
Qed.

Lemma filter_fresh (blocks : list (Z * option P)) (released : list Z) slot author :
  Forall (λ b, b.1 < slot) blocks → (∀ m, m ∈ released → m ∈ blocks.*1) →
  filter (λ b, b.1 ∉ released) (blocks ++ [(slot, author)])
  = filter (λ b, b.1 ∉ released) blocks ++ [(slot, author)] ∧
  filter (λ b, b.1 ∉ released ++ [slot]) (blocks ++ [(slot, author)])
  = filter (λ b, b.1 ∉ released) blocks.
Proof.
  intros Hb Hr. assert (slot ∉ blocks.*1) as Hfresh.
  { intros (b & -> & Hin)%list_elem_of_fmap. rewrite Forall_forall in Hb. specialize (Hb b Hin). lia. }
  rewrite !filter_app. split.
  - rewrite filter_cons_True; [done|]. simpl. intros ?%Hr. done.
  - rewrite (filter_cons_False (A:=Z * option P)) by (simpl; rewrite elem_of_app; set_solver).
    rewrite app_nil_r. apply list_filter_iff_elem. intros x Hx.
    assert (x.1 ≠ slot) by (intros <-; apply Hfresh; by apply list_elem_of_fmap_2).
    rewrite elem_of_app, list_elem_of_singleton. tauto.
Qed.

Lemma drop_prefix_all (log : list (Z * P)) slot author :
  log_sorted log → Forall (λ b, b.1 < slot) log → drop_prefix slot (log ++ entries [(slot, author)]) = [].
Proof.
  intros Hs Hb. rewrite drop_prefix_filter by (by apply log_sorted_snoc). apply filter_none.
  apply Forall_app. split; [|destruct author; repeat constructor; unfold up_to; simpl; lia].
  eapply Forall_impl; [exact Hb|]. unfold up_to. intros x. simpl. lia.
Qed.

Lemma peek_prefix_all (log : list (Z * P)) slot :
  Forall (λ b, b.1 < slot) log → peek_prefix slot log = log.
Proof.
  intros Hb. apply take_while_all. eapply Forall_impl; [exact Hb|]. unfold up_to. intros x. simpl. lia.
Qed.

Lemma provider_active_blocks period s slot data to_process :
  provider_at period s slot = Ret (Ok (Active slot target data)) →
  @blocks_to_process P (release_provider P period) (production_log s) slot = Ret to_process →
  to_process = peek_prefix slot (production_log s).
Proof.
  unfold provider_at, new, parent_api. cbn [has_participation_api api_blocks_to_process map_err negb
    mbind outcome_bind blocks_to_process release_provider].
  destruct (period =? 0); [done|]. intros Hp [= <-]. by destruct (slot mod period =? 0).
Qed.

Lemma run_inv_holds blocks handed released s :
  run blocks handed released s → run_inv blocks handed released s.
Proof.
  induction 1 as [|blocks handed released s period slot author moment s' Hrun IH Hpos Hb Hm Hidp Hex
                  |blocks handed released s period slot author moment s' data to_process Hrun IH Hpos Hb Hm Hidp Hproc Hex].
  - split; [done|constructor|done|by left].
  - pose proof (log_below _ _ _ _ _ IH Hb) as Hlog.
    injection Hex as <-. destruct IH as [Hacc Hs Hr Hp]. simpl.
    rewrite (on_initialize_entries _ _ slot) by done. split; simpl.
    + destruct (filter_fresh blocks released slot (moment ≫= λ _, author) Hb Hr) as [-> _].
      unfold entries in *. by rewrite filter_map_app, app_assoc, Hacc.
    + by apply log_sorted_snoc.
    + intros m Hin. rewrite fmap_app, elem_of_app. left. by apply Hr.
    + rewrite fmap_app, elem_of_app. tauto.
  - pose proof (log_below _ _ _ _ _ IH Hb) as Hlog.
    rewrite (provider_active_blocks _ _ _ _ _ Hidp Hproc), peek_prefix_all by done.
    destruct IH as [Hacc Hs Hr Hp]. revert Hex. unfold execute_block, note_processing. simpl.
    rewrite (on_initialize_entries _ _ slot) by done.
    destruct (_ <? _); [|done]. intros [= <-]. split; simpl.
    + rewrite drop_prefix_all, app_nil_r by done.
      destruct (filter_fresh blocks released slot (moment ≫= λ _, author) Hb Hr) as [_ ->]. done.
    + rewrite drop_prefix_all by done. constructor.
    + intros m. rewrite fmap_app, !elem_of_app. intros [Hin| ->%list_elem_of_singleton]; [left; by apply Hr|].
      right. simpl. by left.
    + right. rewrite fmap_app, elem_of_app. right. simpl. by left.
Qed.

Lemma execute_block_total blocks handed released s period idp slot author moment :
  run blocks handed released s → 0 < slot → Forall (λ b, b.1 < slot) blocks →
  provider_at period s slot = Ret (Ok idp) → is_Some (execute_block period idp author moment s).
Proof.
  intros [_ _ _ Hp]%run_inv_holds Hpos Hb Hidp. unfold execute_block.
  assert (∀ m t data, idp = Active m t data → m = slot) as Hm.
  { intros m t data ->. revert Hidp. unfold provider_at, new. simpl. destruct (period =? 0); simpl; [done|].
    destruct (is_empty _); [done|]. destruct (count_blocks_by_epoch_and_producer _ _ _) as [[|]|]; simpl; try done.
    destruct (mapM _ _); simpl; [|done]. by intros [= -> _ _]. }
  destruct idp as [m t data|]; [|by eexists]. rewrite (Hm m t data eq_refl). simpl.
  unfold note_processing. simpl. destruct (Z.ltb_spec (processed_up_to s) slot); [by eexists|].
  exfalso. destruct Hp as [?|(b & Heq & Hin)%list_elem_of_fmap]; [lia|].
  rewrite Forall_forall in Hb. specialize (Hb b Hin). lia.
Qed.
End Chain.

(** ** Lemmas on the provider *)

Lemma mapM_Ok {E A B} (f : A → result E B) l k :
  mapM (M:=result E) f l = Ok k ↔ Forall2 (λ x y, f x = Ok y) l k.
Proof.
  revert k. induction l as [|x l IH]; intros k; simpl.
  - unfold mret, result_ret. split; [intros [= <-]; constructor|by inversion 1].
  - split.
    + destruct (f x) as [y|] eqn:Ex; simpl; [|done].
      destruct (mapM f l) as [k'|] eqn:El; simpl; [|done]. intros [= <-].
      constructor; [done|]. by apply IH.
    + inversion 1 as [|? y ? k' Hx Hl]; subst. apply IH in Hl. by rewrite Hx; simpl; rewrite Hl.
Qed.

(** Reordering the input of a fallible traversal reorders its output. *)
Lemma mapM_Permutation {E A B} (f g : A → result E B) (R : relation B) l1 l2 k1 :
  l1 ≡ₚ l2 → (∀ x y, f x = Ok y → ∃ y', g x = Ok y' ∧ R y y') →
  mapM (M:=result E) f l1 = Ok k1 →
  ∃ k k2, mapM (M:=result E) g l2 = Ok k2 ∧ k1 ≡ₚ k ∧ Forall2 R k k2.
Proof.
  intros Hl Hfg Hk1%mapM_Ok.
  destruct (Permutation_Forall2 Hl Hk1) as (k & Hk & Hf). exists k.
  assert (∃ k2, Forall2 (λ x y, g x = Ok y) l2 k2 ∧ Forall2 R k k2) as (k2 & Hg & HR).
  { clear -Hf Hfg. induction Hf as [|x y l k Hx Hf IH]; [exists []; split; constructor|].
    destruct IH as (k2 & ? & ?), (Hfg x y Hx) as (y' & ? & ?). exists (y' :: k2). split; by constructor. }
  exists k2. by rewrite mapM_Ok.
Qed.

Lemma concat_Permutation {A} (k k' : list (list A)) : k ≡ₚ k' → concat k ≡ₚ concat k'.
Proof.
  induction 1 as [|x k k' Hk IH|x y k|k1 k2 k3 H1 IH1 H2 IH2]; simpl; [done|by rewrite IH| |by rewrite IH1].
  by rewrite !app_assoc, (Permutation_app_comm x y).
Qed.
Lemma concat_Forall2_Permutation {A} (k k' : list (list A)) : Forall2 (≡ₚ) k k' → concat k ≡ₚ concat k'.
Proof. induction 1 as [|x y k k' Hx Hk IH]; simpl; [done|by rewrite Hx, IH]. Qed.

#[export] Instance BlockProductionData_new_Proper `{EqDecision P, EqDecision D, !Ord P, !Ord D} :
  Proper ((≡ₚ) ==> (=)) (BlockProductionData_new (P:=P) (D:=D)).
Proof. intros l1 l2 Hl. unfold BlockProductionData_new. by rewrite Hl. Qed.

Section ProviderLemmas.
Context {P D E F : Type} `{Countable P, EqDecision D, !Ord P, !Ord D}.
Context (mc_epoch_config : MainchainEpochConfig) (api : ParticipationApi P E).

(** The aggregation epoch of a block produced at [moment]. *)
Definition data_epoch (moment : Z) : option Z :=
  match api_moment_to_timestamp_millis api moment with
  | Ok timestamp =>
      match data_mc_epoch_for_timestamp (P:=P) (E:=E) (F:=F) mc_epoch_config timestamp with
      | Ret (Ok e) => Some e
      | _ => None
      end
  | Err _ => None
  end.

Definition produced_in (e : Z) (p : P) (b : Z * P) : Prop := data_epoch b.1 = Some e ∧ b.2 = p.
#[export] Instance produced_in_dec e p b : Decision (produced_in e p b).
Proof. unfold produced_in. apply _. Defined.

Definition blocks_of (e : Z) (p : P) (blocks : list (Z * P)) : Z :=
  Z.of_nat (length (filter (produced_in e p) blocks)).

Definition count_at (m : gmap Z (gmap P Z)) (e : Z) (p : P) : option Z := m !! e ≫= (.!! p).

Lemma count_at_block m e p e' p' :
  count_at (count_block e p m) e' p'
  = if decide (e = e' ∧ p = p') then Some (wadd 32 (default 0 (count_at m e p)) 1) else count_at m e' p'.
Proof.
  unfold count_at, count_block. destruct (decide (e = e')) as [->|He].
  - rewrite lookup_insert_eq. simpl. destruct (decide (p = p')) as [->|Hp].
    + rewrite lookup_insert_eq, decide_True by done. f_equal. f_equal. by destruct (m !! e').
    + rewrite lookup_insert_ne, decide_False by (done || tauto). by destruct (m !! e').
  - rewrite lookup_insert_ne, decide_False by (done || tauto). done.
Qed.

Lemma blocks_of_cons e p b blocks :
  blocks_of e p (b :: blocks)
  = (if decide (produced_in e p b) then 1 else 0) + blocks_of e p blocks.
Proof. unfold blocks_of. rewrite filter_cons. case_decide; simpl; lia. Qed.

(** Every counter counts the blocks of its epoch and producer, modulo [2^32]. *)
Lemma count_blocks_loop_spec blocks : ∀ acc res,
  count_blocks_loop (E:=E) (F:=F) mc_epoch_config api blocks acc = Ret (Ok res) →
  Forall (λ b, is_Some (data_epoch b.1)) blocks ∧
  ∀ e p, count_at res e p =
    if decide (blocks_of e p blocks = 0) then count_at acc e p
    else Some (wrap 32 (default 0 (count_at acc e p) + blocks_of e p blocks)).
Proof.
  induction blocks as [|[moment producer] blocks IH]; intros acc res; simpl.
  { intros [= ->]. by split. }
  destruct (api_moment_to_timestamp_millis api moment) as [ts|] eqn:Ets; simpl; [|done].
  destruct (data_mc_epoch_for_timestamp mc_epoch_config ts) as [[e|]|] eqn:Ee; simpl; try done.
  intros Hres. destruct (IH _ _ Hres) as [Hall Hcnt].
  assert (data_epoch moment = Some e) as Hde by (unfold data_epoch; by rewrite Ets, Ee).
  split; [constructor; [by exists e|done]|].
  intros e' p'. rewrite Hcnt, blocks_of_cons, count_at_block.
  assert (produced_in e' p' (moment, producer) ↔ e = e' ∧ producer = p') as Hin.
  { unfold produced_in. simpl. rewrite Hde. naive_solver. }
  pose proof (Nat2Z.is_nonneg (length (filter (produced_in e' p') blocks))) as Hnn.
  fold (blocks_of e' p' blocks) in Hnn.
  destruct (decide (e = e' ∧ producer = p')) as [[-> ->]|Hne].
  - rewrite (decide_True (P:=produced_in _ _ _)) by (by apply Hin). rewrite (decide_False (P:=_ + _ = 0)) by lia.
    case_decide as Hz; [by rewrite Hz|]. simpl. f_equal. unfold wadd, wrap.
    rewrite Z.add_mod_idemp_l by done. f_equal. lia.
  - rewrite (decide_False (P:=produced_in _ _ _)) by (by rewrite Hin). done.
Qed.
Context (as_cardano_spo : P → option bytes) (from_delegator_key : DelegatorKey → D).
Context (data_source : Z → list bytes → result F StakeDistribution).

(** The counted groups: an epoch and a producer, in the order of the maps. *)
Definition counted_groups (hash_order : ∀ A : Type, list A → list A) (counts : gmap Z (gmap P Z)) :
    list (Z * P) :=
  hash_order _ (map_to_list counts) ≫= λ '(e, producers),
    (λ pc, (e, pc.1)) <$> hash_order _ (map_to_list producers).

(** What the entry of a group says: how many blocks the producer made in the
    epoch, and the delegations of the producer's stake pool in that epoch. *)
Definition breakdown_of (blocks : list (Z * P)) (group : Z * P)
    (b : BlockProducerParticipationData P D) : Prop :=
  block_producer b = group.2 ∧ block_count b = blocks_of group.1 group.2 blocks ∧
  match as_cardano_spo group.2 with
  | None => delegator_total_shares b = 0 ∧ producer_delegators b = []
  | Some pool =>
      ∃ pools distribution d, pool ∈ pools ∧ data_source group.1 pools = Ok distribution ∧
        distribution !! pool = Some d ∧ delegator_total_shares b = total_stake d ∧
        producer_delegators b ≡ₚ
          (λ '(k, stake), mkDelegatorData (from_delegator_key k) stake) <$> map_to_list (delegators d)
  end.

Section HashOrder.
Context (hash_order : ∀ A : Type, list A → list A).
Context (Hhash : ∀ A (l : list A), hash_order A l ≡ₚ l).

Lemma elem_of_counted_groups counts e p :
  (e, p) ∈ counted_groups hash_order counts ↔ is_Some (count_at counts e p).
Proof.
  unfold counted_groups, count_at. rewrite list_elem_of_bind. split.
  - intros ([e' producers] & Hin & Hout). rewrite Hhash, elem_of_map_to_list in Hout.
    apply list_elem_of_fmap in Hin as ([p' c] & [= <- <-] & Hc).
    rewrite Hhash, elem_of_map_to_list in Hc. rewrite Hout. simpl. by exists c.
  - intros [c Hc]. destruct (counts !! e) as [producers|] eqn:He; [|done]. simpl in Hc.
    exists (e, producers). split; [|by rewrite Hhash, elem_of_map_to_list].
    apply list_elem_of_fmap. exists (p, c). by rewrite Hhash, elem_of_map_to_list.
Qed.

Lemma NoDup_counted_groups counts : NoDup (counted_groups hash_order counts).
Proof.
  unfold counted_groups. apply NoDup_bind.
  - intros [e1 p1] [e2 p2] [e p] H1 H2 Hin1 Hin2.
    rewrite Hhash, elem_of_map_to_list in H1, H2.
    apply list_elem_of_fmap in Hin1 as (? & [= <- _] & _).
    apply list_elem_of_fmap in Hin2 as (? & [= -> _] & _). by simplify_eq.
  - intros [e producers] _.
    assert (NoDup ((pair e) <$> (hash_order _ (map_to_list producers)).*1)) as Hnd.
    { apply NoDup_fmap; [intros ?? [=]; done|]. rewrite Hhash. apply NoDup_fst_map_to_list. }
    by rewrite <-list_fmap_compose in Hnd.
  - rewrite Hhash. apply NoDup_map_to_list.
Qed.

Lemma summaries_spec blocks counts sums :
  (∀ e p c, count_at counts e p = Some c → c = blocks_of e p blocks) →
  mapM (M:=result (InherentDataCreationError P E F))
    (production_summaries_for as_cardano_spo from_delegator_key hash_order data_source)
    (hash_order _ (map_to_list counts)) = Ok sums →
  Forall2 (breakdown_of blocks) (counted_groups hash_order counts) (concat sums).
Proof.
  intros Hcounts Hsums%mapM_Ok. unfold counted_groups.
  assert (Forall (λ ep, counts !! ep.1 = Some ep.2) (hash_order _ (map_to_list counts))) as Hin.
  { apply Forall_forall. intros [e producers]. by rewrite Hhash, elem_of_map_to_list. }
  induction Hsums as [|[e producers] s l sums Hs Hsums IH]; [constructor|].
  apply Forall_cons in Hin as [He Hin]. simpl in He. csimpl. apply Forall2_app; [clear IH Hin Hsums|by apply IH].
  revert Hs. unfold production_summaries_for, fetch_delegations.
  set (entries := hash_order _ (map_to_list producers)). set (pools := filter_map _ _).
  destruct (data_source e pools) as [dist|] eqn:Hdist; [|done]. cbn [map_err mbind result_bind].
  intros Hs%mapM_Ok. apply Forall2_fmap_l.
  assert (∀ pc, pc ∈ entries → pc ∈ map_to_list producers) as Hent by (intros pc; unfold entries; by rewrite Hhash).
  fold entries in pools. assert (∀ p pool, p ∈ entries.*1 → as_cardano_spo p = Some pool → pool ∈ pools) as Hpools.
  { intros p pool Hp Hpool. apply elem_of_filter_map. eauto. }
  clearbody entries pools. induction Hs as [|[p c] b entries bs Hb Hs IH]; constructor.
  - clear IH Hs. assert (c = blocks_of e p blocks) as ->.
    { apply Hcounts. unfold count_at. rewrite He. simpl. apply elem_of_map_to_list, Hent. by left. }
    revert Hb. unfold production_breakdown_for, breakdown_of. simpl.
    destruct (as_cardano_spo p) as [pool|] eqn:Hspo; [|by intros [= <-]].
    destruct (dist !! pool) as [d|] eqn:Hd; [|done]. simpl. intros [= <-]. simpl. split_and!; [done..|].
    exists pools, dist, d. split_and!; [|done..|].
    + apply (Hpools p); [|done]. by left.
    + apply fmap_Permutation, btree_iter_Permutation.
  - apply IH; intros; [apply Hent|eapply Hpools]; try done; by right.
Qed.
End HashOrder.

Lemma breakdown_of_sort blocks group b :
  breakdown_of blocks group b → breakdown_of blocks group (sort_delegators b).
Proof.
  unfold breakdown_of. simpl. intros (? & ? & Hm). split_and!; [done..|].
  destruct (as_cardano_spo group.2).
  - destruct Hm as (pools & dist & d & ? & ? & ? & ? & Hp). exists pools, dist, d.
    split_and!; [done..|]. by rewrite sort_Permutation.
  - destruct Hm as [? ->]. by split.
Qed.

Lemma zsum_indicator {A} `{EqDecision A} (g : A) (groups : list A) :
  NoDup groups →
  zsum ((λ x, if decide (x = g) then 1 else 0) <$> groups) = if decide (g ∈ groups) then 1 else 0.
Proof.
  induction 1 as [|x groups Hx Hnd IH]; [done|]. csimpl. rewrite IH.
  repeat case_decide; set_solver by lia.
Qed.

(** Groups that contain the group of every block count every block once. *)
Lemma zsum_blocks_of blocks groups :
  NoDup groups →
  Forall (λ b, ∃ e, data_epoch b.1 = Some e ∧ (e, b.2) ∈ groups) blocks →
  zsum ((λ g, blocks_of g.1 g.2 blocks) <$> groups) = Z.of_nat (length blocks).
Proof.
  intros Hnd. induction 1 as [|[m p] blocks (e & He & Hin) Hall IH].
  - clear. induction groups; csimpl; [done|]. rewrite IHgroups. done.
  - simpl in He, Hin. cut (zsum ((λ g, blocks_of g.1 g.2 ((m, p) :: blocks)) <$> groups)
      = zsum ((λ x, if decide (x = (e, p)) then 1 else 0) <$> groups)
        + zsum ((λ g, blocks_of g.1 g.2 blocks) <$> groups)).
    { intros ->. rewrite zsum_indicator, decide_True, IH by done. simpl length. lia. }
    clear -He. induction groups as [|[e' p'] groups IH]; [done|]. csimpl. rewrite IH, blocks_of_cons.
    simpl. assert (produced_in e' p' (m, p) ↔ (e', p') = (e, p)) as Heq.
    { unfold produced_in. simpl. rewrite He. naive_solver. }
    repeat case_decide; try lia; tauto.
Qed.
End ProviderLemmas.

(** What an active provider went through. *)
Lemma new_Active_inv {P D E F : Type} `{Countable P, EqDecision D, !Ord P, !Ord D} as_cardano_spo
    from_delegator_key hash_order data_source mc_epoch_config (api : ParticipationApi P E) moment m t data :
  new (D:=D) (F:=F) as_cardano_spo from_delegator_key hash_order data_source mc_epoch_config api moment
    = Ret (Ok (Active m t data)) →
  m = moment ∧ ∃ blocks counts sums,
    api_blocks_to_process api moment = Ok blocks ∧ blocks ≠ [] ∧
    count_blocks_by_epoch_and_producer (F:=F) mc_epoch_config api blocks = Ret (Ok counts) ∧
    mapM (M:=result (InherentDataCreationError P E F))
      (production_summaries_for as_cardano_spo from_delegator_key hash_order data_source)
      (hash_order _ (map_to_list counts)) = Ok sums ∧
    data = BlockProductionData_new (concat sums).
Proof.
  unfold new. destruct (has_participation_api api) as [[]|]; simpl; try done.
  destruct (api_blocks_to_process api moment) as [[|b blocks]|]; simpl; try done.
  destruct (api_target_inherent_id api); simpl; [|done].
  destruct (count_blocks_by_epoch_and_producer _ _ _) as [[counts|]|] eqn:Hc; simpl; try done.
  destruct (mapM _ _) as [sums|] eqn:Hs; simpl; [|done]. intros [= <- _ <-].
  split; [done|]. exists (b :: blocks), counts, sums. done.
Qed.

Lemma production_summaries_for_order {P D E F : Type} `{Countable P, EqDecision D, !Ord P, !Ord D}
    (as_cardano_spo : P → option bytes) (from_delegator_key : DelegatorKey → D)
    (order1 order2 : ∀ A : Type, list A → list A) (source1 source2 : Z → list bytes → result F StakeDistribution) :
  (∀ A (l : list A), order1 A l ≡ₚ l) → (∀ A (l : list A), order2 A l ≡ₚ l) →
  (∀ epoch pools1 pools2 d, pools1 ≡ₚ pools2 → source1 epoch pools1 = Ok d → source2 epoch pools2 = Ok d) →
  ∀ x y, production_summaries_for (E:=E) as_cardano_spo from_delegator_key order1 source1 x = Ok y →
  ∃ y', production_summaries_for (E:=E) as_cardano_spo from_delegator_key order2 source2 x = Ok y' ∧ y ≡ₚ y'.
Proof.
  intros H1 H2 Hds [e producers] y. unfold production_summaries_for, fetch_delegations.
  assert (order1 _ (map_to_list producers) ≡ₚ order2 _ (map_to_list producers)) as Horder by (by rewrite H1, H2).
  destruct (source1 e _) as [dist|] eqn:Hdist; [|done].
  assert (source2 e (filter_map as_cardano_spo (order2 _ (map_to_list producers)).*1) = Ok dist) as ->.
  { eapply Hds; [|exact Hdist]. by apply filter_map_Permutation, fmap_Permutation. }
  cbn [map_err mbind result_bind]. intros Hy.
  destruct (mapM_Permutation _
    (λ '(p, c), production_breakdown_for as_cardano_spo from_delegator_key e p c dist) (=) _ _ _ Horder
    (λ x y Hxy, ex_intro _ y (conj Hxy eq_refl)) Hy) as (k & k2 & Hk2 & Hk & Heq).
  exists k2. split; [exact Hk2|]. by apply list_eq_Forall2 in Heq as <-.
Qed.

(** ** Theorems *)

(** C20. Accounting of block production.  From the empty log, with the release
    policy of the demo runtime, a release period that may change, and slots that
    increase from block to block, the entries handed to the participation handler
    followed by the entries still in the log are exactly the blocks produced whose
    author and slot the log pallet found, in order and each once, except
    the blocks that released data themselves: their own entry is appended after
    the data were computed and is discarded with the entries handed over.  A block
    always accepts the inherent data its author computed.  If the period is zero the
    runtime panics and no inherent data can be computed. *)
Theorem participation_accounting {P D F : Type} `{Countable P, EqDecision D, !Ord P, !Ord D} as_cardano_spo
    from_delegator_key hash_order data_source mc_epoch_config slot_duration target
    blocks handed released s :
  run (P:=P) (D:=D) (F:=F) as_cardano_spo from_delegator_key hash_order data_source mc_epoch_config
    slot_duration target blocks handed released s →
  handed ++ production_log s = entries (filter (λ b, b.1 ∉ released) blocks) ∧
  (∀ slot, slot ∈ released → slot ∈ blocks.*1) ∧
  (∀ period idp slot author moment, 0 < slot → Forall (λ b, b.1 < slot) blocks →
    provider_at as_cardano_spo from_delegator_key hash_order data_source mc_epoch_config
      slot_duration target period s slot = Ret (Ok idp) →
    is_Some (execute_block period idp author moment s)) ∧
  ∀ slot, provider_at as_cardano_spo from_delegator_key hash_order data_source mc_epoch_config
    slot_duration target 0 s slot = Ret (Err (ApiError tt)).
Proof.
  intros Hrun. destruct (run_inv_holds _ _ _ _ _ _ _ _ _ _ _ Hrun) as [Hacc _ Hr _].
  split_and!; [done..| |done]. intros. by eapply execute_block_total.
Qed.

(** C21. The data an active provider delivers are exact: one entry for every main
    chain epoch and producer of the blocks to process, with the number of
    blocks and the delegations of the producer's pool in that epoch; the block
    counts add up to the number of blocks. *)
Theorem participation_data_exact {P D E F : Type} `{Countable P, EqDecision D, !Ord P, !Ord D} as_cardano_spo
    from_delegator_key hash_order data_source mc_epoch_config (api : ParticipationApi P E) moment blocks m t data :
  (∀ A (l : list A), hash_order A l ≡ₚ l) →
  api_blocks_to_process api moment = Ok blocks → Z.of_nat (length blocks) < u_bound 32 →
  new (D:=D) (F:=F) as_cardano_spo from_delegator_key hash_order data_source mc_epoch_config api moment
    = Ret (Ok (Active m t data)) →
  m = moment ∧ StronglySorted ord_le data ∧
  zsum (block_count <$> data) = Z.of_nat (length blocks) ∧
  ∃ groups data', NoDup groups ∧ data' ≡ₚ data ∧
    (∀ e p, (e, p) ∈ groups ↔ ∃ slot, (slot, p) ∈ blocks ∧ data_epoch (F:=F) mc_epoch_config api slot = Some e) ∧
    Forall2 (breakdown_of mc_epoch_config api as_cardano_spo from_delegator_key data_source blocks) groups data'.
Proof.
  intros Hhash Hblocks Hlen Hnew.
  destruct (new_Active_inv _ _ _ _ _ _ _ _ _ _ Hnew) as [-> (b' & counts & sums & Hb' & _ & Hc & Hs & ->)].
  rewrite Hblocks in Hb'. injection Hb' as <-.
  destruct (count_blocks_loop_spec mc_epoch_config api blocks _ _ Hc) as [Hall Hcnt].
  assert (∀ e p, 0 ≤ blocks_of (F:=F) mc_epoch_config api e p blocks ≤ Z.of_nat (length blocks)) as Hbound.
  { intros e p. unfold blocks_of. pose proof (length_filter (produced_in (F:=F) mc_epoch_config api e p) blocks). lia. }
  assert (∀ e p, count_at counts e p = if decide (blocks_of (F:=F) mc_epoch_config api e p blocks = 0)
    then None else Some (blocks_of (F:=F) mc_epoch_config api e p blocks)) as Hcount.
  { intros e p. rewrite Hcnt. unfold count_at at 1. rewrite lookup_empty. simpl. case_decide; [done|].
    f_equal. unfold count_at. rewrite lookup_empty. simpl. apply wrap_id. specialize (Hbound e p). split; lia. }
  assert (∀ e p, (e, p) ∈ counted_groups hash_order counts ↔
    ∃ slot, (slot, p) ∈ blocks ∧ data_epoch (F:=F) mc_epoch_config api slot = Some e) as Hgroups.
  { intros e p. rewrite elem_of_counted_groups, Hcount by done. unfold blocks_of. split.
    - case_decide as Hz; [by intros []|]. intros _. destruct (filter _ blocks) as [|[slot p'] l] eqn:Hf; [done|].
      assert ((slot, p') ∈ filter (produced_in (F:=F) mc_epoch_config api e p) blocks) as Hin by (rewrite Hf; by left).
      apply list_elem_of_filter in Hin as [[He Hp] Hin]. simpl in He, Hp. subst. eauto.
    - intros (slot & Hin & He). rewrite decide_False; [by eexists|].
      assert ((slot, p) ∈ filter (produced_in (F:=F) mc_epoch_config api e p) blocks) as Hf
        by (by apply list_elem_of_filter).
      destruct (filter _ blocks); [by apply elem_of_nil in Hf|]. done. }
  pose proof (NoDup_counted_groups hash_order Hhash counts) as Hnd.
  assert (Forall2 (breakdown_of mc_epoch_config api as_cardano_spo from_delegator_key data_source blocks)
    (counted_groups hash_order counts) (sort_delegators <$> concat sums)) as Hbd.
  { apply Forall2_fmap_r. eapply Forall2_impl; [eapply (summaries_spec _ _ _ _ _ hash_order Hhash); [|exact Hs]|].
    - intros e p c. rewrite Hcount. case_decide; [done|]. by intros [= <-].
    - intros. by apply breakdown_of_sort. }
  split_and!; [done|apply sort_sorted| |].
  - rewrite <-(zsum_blocks_of (F:=F) mc_epoch_config api blocks (counted_groups hash_order counts) Hnd).
    + unfold BlockProductionData_new. rewrite (fmap_Permutation _ _ _ (sort_Permutation _)). clear -Hbd.
      induction Hbd as [|g b gs bs (_ & Hb & _) Hbd IH]; csimpl; [done|]. by rewrite Hb, IH.
    + eapply Forall_impl; [apply Forall_and; split; [exact Hall|apply Forall_forall; intros x Hx; exact Hx]|].
      intros [slot p] [[e He] Hin]. exists e. split; [done|]. apply Hgroups. eauto.
  - exists (counted_groups hash_order counts), (sort_delegators <$> concat sums).
    split_and!; [done|symmetry; apply sort_Permutation|done|done].
Qed.

(** The inherent data do not depend on the iteration order of the hash maps
    they are gathered in, as long as the data sources answer a set of pools alike: any
    two nodes build the same data. *)
Theorem participation_data_deterministic {P D E F : Type} `{Countable P, EqDecision D, !Ord P, !Ord D} as_cardano_spo
    from_delegator_key order1 order2 source1 source2 mc_epoch_config (api : ParticipationApi P E) moment idp :
  (∀ A (l : list A), order1 A l ≡ₚ l) → (∀ A (l : list A), order2 A l ≡ₚ l) →
  (∀ epoch pools1 pools2 d, pools1 ≡ₚ pools2 → source1 epoch pools1 = Ok d → source2 epoch pools2 = Ok d) →
  new (D:=D) (F:=F) as_cardano_spo from_delegator_key order1 source1 mc_epoch_config api moment = Ret (Ok idp) →
  new (D:=D) (F:=F) as_cardano_spo from_delegator_key order2 source2 mc_epoch_config api moment = Ret (Ok idp).
Proof.
  intros H1 H2 Hds. unfold new. destruct (has_participation_api api) as [[]|]; simpl; try done.
  destruct (api_blocks_to_process api moment) as [[|b blocks]|]; simpl; try done.
  destruct (api_target_inherent_id api); simpl; [|done].
  destruct (count_blocks_by_epoch_and_producer _ _ _) as [[counts|]|] eqn:Hc; simpl; try done.
  destruct (mapM _ _) as [sums|] eqn:Hs; simpl; [|done]. intros [= <-].
  assert (order1 _ (map_to_list counts) ≡ₚ order2 _ (map_to_list counts)) as Horder by (by rewrite H1, H2).
  destruct (mapM_Permutation _ _ (≡ₚ) _ _ _ Horder
    (production_summaries_for_order (E:=E) _ _ _ _ _ _ H1 H2 Hds) Hs) as (k & k2 & Hk2 & Hk & HR).
  rewrite Hk2. simpl. do 3 f_equal. apply BlockProductionData_new_Proper.
  by rewrite (concat_Permutation _ _ Hk), (concat_Forall2_Permutation _ _ HR).
Qed.

(** Creating and checking the operational inherent agree. *)
Lemma inherent_created_iff_required data call :
  create_inherent data = Ret (Some call) ↔
  is_inherent_required data = Ok (Some InherentRequired) ∧ check_inherent call data = Ok tt.
Proof.
  destruct data as [[m|]|], call as [u]; unfold create_inherent, is_inherent_required, check_inherent; simpl.
  - unfold ensure. destruct (Z.eqb_spec m u) as [->|]; naive_solver.
  - naive_solver.
  - naive_solver.
Qed.

(** ** Witnesses: three blocks of two producers, one of them a stake pool *)

Definition example_spo (p : Z) : option bytes := if p =? 1 then Some [1] else None.
Definition example_delegator (k : DelegatorKey) : Z :=
  match k with StakeKeyHash h => zsum h | ScriptKeyHash h s => zsum h end.
Definition in_order (A : Type) (l : list A) : list A := l.
Definition in_reverse (A : Type) (l : list A) : list A := rev l.
Definition example_stakes (_ : Z) (_ : list bytes) : result unit StakeDistribution :=
  Ok {[ [1] := mkPoolDelegation 100 (<[StakeKeyHash [7] := 60]> {[StakeKeyHash [8] := 40]}) ]}.
Definition first_slot : Z := 266009849.
Definition example_log : list (Z * Z) := [(first_slot, 1); (first_slot + 1, 2); (first_slot + 2, 1)].
Definition example_api : ParticipationApi Z unit :=
  parent_api 6000 [116] 1 (mkParticipation example_log 0).
Definition example_data : list (BlockProducerParticipationData Z Z) :=
  [mkProducerData 1 2 100 [mkDelegatorData 7 60; mkDelegatorData 8 40]; mkProducerData 2 1 0 []].

Lemma in_reverse_Permutation A (l : list A) : in_reverse A l ≡ₚ l.
Proof. symmetry. apply Permutation_rev. Qed.

(** The second block has no known author and releases the first one. *)
Lemma participation_accounting_witness :
  ∃ s, [(first_slot, 1)] ++ production_log s
       = entries (filter (λ b, b.1 ∉ [first_slot + 1]) [(first_slot, Some 1); (first_slot + 1, None)]).
Proof.
  assert (run example_spo example_delegator in_order example_stakes mainnet 6000 [116]
    ([] ++ [(first_slot, Some 1)]) [] [] (mkParticipation [(first_slot, 1)] 0)) as Hfirst.
  { eapply (run_inert _ _ _ _ _ _ _ [] [] [] (mkParticipation [] 0) 7 first_slot (Some 1) (Some first_slot));
      [constructor|done|constructor|by right|vm_compute; reflexivity|reflexivity]. }
  destruct (participation_accounting example_spo example_delegator in_order example_stakes mainnet
    6000 [116] _ _ _ _
    (run_active _ _ _ _ _ _ _ _ _ _ _ 1 (first_slot + 1) None (Some (first_slot + 1)) (mkParticipation [] (first_slot + 1))
      [mkProducerData 1 1 100 [mkDelegatorData 7 60; mkDelegatorData 8 40]] [(first_slot, 1)] Hfirst
      ltac:(done) ltac:(repeat constructor) ltac:(by right) ltac:(vm_compute; reflexivity) ltac:(vm_compute; reflexivity)
      ltac:(vm_compute; reflexivity)))
    as [Hacc _].
  exists (mkParticipation [] (first_slot + 1)). vm_compute in Hacc |- *. exact Hacc.
Defined.

Lemma participation_data_exact_witness :
  zsum (block_count <$> example_data) = 3.
Proof.
  destruct (participation_data_exact example_spo example_delegator in_order example_stakes mainnet
    example_api (first_slot + 3) example_log (first_slot + 3) [116] example_data) as (_ & _ & Hsum & _).
  - intros. reflexivity.
  - vm_compute. reflexivity.
  - reflexivity.
  - vm_compute. reflexivity.
  - exact Hsum.
Defined.

Lemma participation_data_deterministic_witness :
  new example_spo example_delegator in_reverse example_stakes mainnet example_api (first_slot + 3)
  = Ret (Ok (Active (first_slot + 3) [116] example_data)).
Proof.
  apply (participation_data_deterministic example_spo example_delegator in_order in_reverse example_stakes example_stakes mainnet
    example_api (first_slot + 3)).
  - intros. reflexivity.
  - exact in_reverse_Permutation.
  - intros epoch pools1 pools2 d _ Hd. exact Hd.
  - vm_compute. reflexivity.
Defined.
