(* ===== verification/CandidateKeys.v ===== *)
(** * Candidate keys

    [CandidateKeys] of [toolkit/sidechain/domain/src/lib.rs]: looking keys up by
    their identifier, the SCALE encoding that stays compatible with runtimes
    that only knew AURA and GRANDPA keys, and the comparison of registrations.
    The parts of [parity_scale_codec] the encoding is written with are the class
    [Scale]. *)

From S2P Require Import Prelude Domain.

(** The key type identifiers "aura" and "gran". *)
Definition AURA : bytes := [97; 117; 114; 97].
Definition GRANDPA : bytes := [103; 114; 97; 110].

Definition aura_key (b : bytes) : CandidateKey := mkCandidateKey AURA b.
Definition grandpa_key (b : bytes) : CandidateKey := mkCandidateKey GRANDPA b.

Definition find (id : bytes) (keys : CandidateKeys) : option bytes :=
  head (filter_map (λ e, if decide (key_id e = id) then Some (key_bytes e) else None) keys).

Definition find_or_empty (id : bytes) (keys : CandidateKeys) : bytes := default [] (find id keys).

Definition has_only_aura_and_grandpa_keys (keys : CandidateKeys) : bool :=
  bool_decide (length keys = 2%nat) && bool_decide (is_Some (find AURA keys))
  && bool_decide (is_Some (find GRANDPA keys)).

(** The two lists of keys the test accepts. *)
Lemma has_only_aura_and_grandpa_keys_iff keys :
  has_only_aura_and_grandpa_keys keys = true ↔
  ∃ a g, keys = [aura_key a; grandpa_key g] ∨ keys = [grandpa_key g; aura_key a].
Proof.
  unfold has_only_aura_and_grandpa_keys. split.
  - rewrite !andb_true_iff, !bool_decide_eq_true. intros [[Hl Ha] Hg].
    destruct keys as [|[i1 b1] [|[i2 b2] [|]]]; try done. unfold find in Ha, Hg. simpl in Ha, Hg.
    repeat case_decide; simpl in *; subst;
      first [ exists b1, b2; by left | exists b2, b1; by right
            | by destruct Ha | by destruct Hg | discriminate ].
  - by intros (a & g & [-> | ->]).
Qed.

(** ** SCALE encoding *)

Class Scale := {
  compact : Z → bytes;
  decode_compact : bytes → option (Z * bytes);
  keys_encode : list CandidateKey → bytes;
  keys_decode : bytes → option (list CandidateKey * bytes);
}.
Class ScaleLaws `{Scale} : Prop := {
  decode_compact_compact n rest : in_u 32 n → decode_compact (compact n ++ rest) = Some (n, rest);
  keys_decode_encode keys rest : keys_decode (keys_encode keys ++ rest) = Some (keys, rest);
}.

Definition u32_max : Z := u_bound 32 - 1.

Section Codec.
Context `{Scale}.

(** [Vec<u8>]: the length as a compact integer, then the bytes. *)
Definition vec_encode (b : bytes) : bytes := compact (Z.of_nat (length b)) ++ b.
Definition decode_vec_with_len (len : Z) (input : bytes) : option (bytes * bytes) :=
  if Z.of_nat (length input) <? len then None
  else Some (take (Z.to_nat len) input, drop (Z.to_nat len) input).
Definition vec_decode (input : bytes) : option (bytes * bytes) :=
  '(len, input) ← decode_compact input; decode_vec_with_len len input.

Definition encode_to (self : CandidateKeys) : bytes :=
  if has_only_aura_and_grandpa_keys self
  then vec_encode (find_or_empty AURA self) ++ vec_encode (find_or_empty GRANDPA self)
  else compact u32_max ++ keys_encode self.

Definition decode (input : bytes) : option (CandidateKeys * bytes) :=
  '(marker_or_aura_size, input) ← decode_compact input;
  if marker_or_aura_size =? u32_max then keys_decode input
  else
    '(aura_bytes, input) ← decode_vec_with_len marker_or_aura_size input;
    '(grandpa, input) ← vec_decode input;
    Some ([aura_key aura_bytes; grandpa_key grandpa], input).

(** What reading back gives: AURA before GRANDPA. *)
Definition normalised (keys : CandidateKeys) : CandidateKeys :=
  if has_only_aura_and_grandpa_keys keys
  then [aura_key (find_or_empty AURA keys); grandpa_key (find_or_empty GRANDPA keys)]
  else keys.

Context `{!ScaleLaws}.

Lemma decode_vec_with_len_app b rest :
  decode_vec_with_len (Z.of_nat (length b)) (b ++ rest) = Some (b, rest).
Proof.
  unfold decode_vec_with_len. rewrite length_app.
  destruct (Z.ltb_spec (Z.of_nat (length b + length rest)) (Z.of_nat (length b))); [lia|].
  by rewrite Nat2Z.id, take_app_length, drop_app_length.
Qed.

Lemma vec_decode_encode b rest :
  Z.of_nat (length b) < u_bound 32 → vec_decode (vec_encode b ++ rest) = Some (b, rest).
Proof.
  intros Hb. unfold vec_decode, vec_encode. rewrite <-app_assoc, decode_compact_compact by (split; lia).
  apply decode_vec_with_len_app.
Qed.
End Codec.

(** ** Registrations *)

Record AdaBasedStaking := mkAdaBasedStaking {
  ada_pub_key : bytes;
  ada_signature : bytes;
}.

#[global] Instance AdaBasedStaking_eq_dec : EqDecision AdaBasedStaking.
Proof. solve_decision. Defined.

Record CandidateRegistration := mkCandidateRegistration {
  stake_ownership : AdaBasedStaking;
  partner_chain_pub_key : bytes;
  partner_chain_signature : bytes;
  own_pkh : bytes;
  reg_utxo : UtxoId;
  reg_keys : CandidateKeys;
}.

Definition matches_keys (self other : CandidateRegistration) : bool :=
  bool_decide (stake_ownership self = stake_ownership other)
  && bool_decide (partner_chain_pub_key self = partner_chain_pub_key other)
  && bool_decide (partner_chain_signature self = partner_chain_signature other)
  && forallb (λ key, bool_decide (key ∈ reg_keys other)) (reg_keys self).

(** ** Theorems *)

(** Encoded keys read back as the same keys, leaving the rest of the input,
    except that a pair of an AURA and a GRANDPA key always comes back with the
    AURA key first.  The marker of the generic form is not the length of an
    AURA key, by the bound on that length. *)
Theorem candidate_keys_roundtrip `{ScaleLaws} keys rest :
  Forall (λ k, Z.of_nat (length (key_bytes k)) < u32_max) keys →
  decode (encode_to keys ++ rest) = Some (normalised keys, rest).
Proof.
  unfold encode_to, normalised. intros Hk. destruct (has_only_aura_and_grandpa_keys keys) eqn:E.
  - assert (Z.of_nat (length (find_or_empty AURA keys)) < u32_max ∧
      Z.of_nat (length (find_or_empty GRANDPA keys)) < u32_max) as [Ha Hg].
    { apply has_only_aura_and_grandpa_keys_iff in E as (a & g & [-> | ->]);
        apply Forall_cons in Hk as [? [? _]%Forall_cons]; done. }
    unfold u32_max in *. unfold decode, vec_encode at 1. rewrite <-!app_assoc, decode_compact_compact by (split; lia).
    simpl. destruct (Z.eqb_spec (Z.of_nat (length (find_or_empty AURA keys))) u32_max); [unfold u32_max in *; lia|].
    rewrite decode_vec_with_len_app. simpl. rewrite vec_decode_encode by lia. done.
  - unfold decode. rewrite <-app_assoc, decode_compact_compact by (split; done). apply keys_decode_encode.
Qed.

(** A registration matches another one whose keys it is a part of, but not the
    other way around: the comparison does not see keys that were added. *)
Example matches_keys_asymmetric :
  let reg keys := mkCandidateRegistration (mkAdaBasedStaking [] []) [] [] [] (mkUtxoId [] 0) keys in
  matches_keys (reg [aura_key [1]]) (reg [aura_key [1]; grandpa_key [2]]) = true ∧
  matches_keys (reg [aura_key [1]; grandpa_key [2]]) (reg [aura_key [1]]) = false.
Proof. split; vm_compute; reflexivity. Qed.

(** ** Witness: lengths and key lists written in one byte per number *)

Fixpoint take_keys (n : nat) (input : bytes) : option (list CandidateKey * bytes) :=
  match n, input with
  | O, _ => Some ([], input)
  | S n, i :: l :: input =>
      '(keys, rest) ← take_keys n (drop (Z.to_nat i + Z.to_nat l) input);
      Some (mkCandidateKey (take (Z.to_nat i) input)
              (take (Z.to_nat l) (drop (Z.to_nat i) input)) :: keys, rest)
  | _, _ => None
  end.
#[local] Instance wide_scale : Scale := {|
  compact n := [n];
  decode_compact b := match b with n :: b => Some (n, b) | [] => None end;
  keys_encode keys :=
    Z.of_nat (length keys)
    :: concat ((λ k, [Z.of_nat (length (key_id k)); Z.of_nat (length (key_bytes k))] ++ key_id k ++ key_bytes k) <$> keys);
  keys_decode b := match b with n :: b => take_keys (Z.to_nat n) b | [] => None end;
|}.
#[local] Instance wide_scale_laws : ScaleLaws.
Proof.
  split; [done|]. intros keys rest. simpl. rewrite Nat2Z.id.
  induction keys as [|[i b] keys IH]; [done|].
  rewrite fmap_cons. cbn [concat length take_keys key_id key_bytes app]. rewrite !Nat2Z.id, <-!app_assoc.
  rewrite drop_app_add, drop_app_length, take_app_length, drop_app_length, take_app_length, IH. done.
Qed.

Lemma candidate_keys_roundtrip_witness :
  decode (encode_to [grandpa_key [2]; aura_key [1]] ++ [9]) = Some ([aura_key [1]; grandpa_key [2]], [9]).
Proof.
  apply (candidate_keys_roundtrip [grandpa_key [2]; aura_key [1]] [9]).
  repeat constructor.
Defined.
