(* ===== verification/ContractDatums.v ===== *)
(** * Datums of the smart contracts

    Models [toolkit/smart-contracts/plutus-data/src]: the datums and redeemers
    that the off-chain code writes to Cardano and the observability code reads
    back: D-parameter, permissioned candidates, registrations, Governed Map
    entries, token transfers, the reserve and the version oracle.

    [PlutusData] of [cardano_serialization_lib] is the type [Datum]; its list
    accessor [get] panics outside the list, which matters where the length is
    not checked first. *)

From S2P Require Import Prelude Domain PlutusData CandidateKeys.

(** ** Accessors *)

Definition as_list (d : Datum) : option (list Datum) :=
  match d with ListDatum l => Some l | _ => None end.
Definition as_bytes (d : Datum) : option bytes :=
  match d with ByteStringDatum b => Some b | _ => None end.
Definition as_integer (d : Datum) : option Z :=
  match d with IntegerDatum i => Some i | _ => None end.
Definition as_constr_plutus_data (d : Datum) : option (Z * list Datum) :=
  match d with ConstructorDatum c l => Some (c, l) | _ => None end.

Definition as_u64 (d : Datum) : option Z := i ← as_integer d; try_into 64 i.
Definition as_u32 (d : Datum) : option Z := n ← as_u64 d; try_into 32 n.
Definition as_u16 (d : Datum) : option Z := n ← as_u32 d; try_into 16 n.

(** [PlutusList::get] *)
Definition get (l : list Datum) (i : nat) : outcome Datum := expect (l !! i).

(** [<[u8; N]>::try_from]. *)
Definition as_byte_array (n : nat) (b : bytes) : option bytes :=
  if decide (length b = n) then Some b else None.

Definition new_bytes (b : bytes) : Datum := ByteStringDatum b.
Definition new_integer (n : Z) : Datum := IntegerDatum n.
Definition new_list (l : list Datum) : Datum := ListDatum l.
Definition new_empty_constr_plutus_data (alternative : Z) : Datum := ConstructorDatum alternative [].
Definition new_single_value_constr_plutus_data (alternative : Z) (d : Datum) : Datum :=
  ConstructorDatum alternative [d].
Definition new_constr_plutus_data (alternative : Z) (l : list Datum) : Datum := ConstructorDatum alternative l.

(** ** Versioned datums *)

Inductive DecodingMessage :=
  | Message (text : string)
  | CannotParseAppendix (msg : DecodingMessage)
  | UnknownVersion (version : Z).

Record DataDecodingError := mkDecodingError {
  err_datum : Datum;
  err_to : string;
  err_msg : DecodingMessage;
}.
Abbreviation DecodingResult := (result DataDecodingError).

Record VersionedGenericDatum := mkVersioned {
  v_datum : Datum;
  v_appendix : Datum;
  v_version : Z;
}.

Definition plutus_data_version_and_payload (data : Datum) : option VersionedGenericDatum :=
  match as_list data with
  | Some [datum; appendix; version] =>
      version ← as_u64 version; Some (mkVersioned datum appendix version)
  | _ => None
  end.

Definition versioned_to_plutus (value : VersionedGenericDatum) : Datum :=
  new_list [v_datum value; v_appendix value; new_integer (v_version value)].

Class VersionedDatumWithLegacy (T : Type) := {
  NAME : string;
  decode_legacy : Datum → result DecodingMessage T;
  decode_versioned : Z → Datum → Datum → result DecodingMessage T;
}.

Definition decode_with_legacy `{VersionedDatumWithLegacy T} (data : Datum) : DecodingResult T :=
  map_err (mkDecodingError data NAME)
    (match plutus_data_version_and_payload data with
     | None => decode_legacy data
     | Some v => decode_versioned (v_version v) (v_datum v) (v_appendix v)
     end).

(** ** D-parameter *)

Inductive DParamDatum := DParamV0 (num_permissioned num_registered : Z).

Definition d_param_from_datum (d : DParamDatum) : DParameter :=
  match d with DParamV0 p r => mkDParameter p r end.

Definition d_parameter_to_plutus_data (d_param : DParameter) : Datum :=
  versioned_to_plutus
    (mkVersioned (new_empty_constr_plutus_data 0)
       (new_list [new_integer (num_permissioned_candidates d_param);
                  new_integer (num_registered_candidates d_param)]) 0).

Definition d_param_decode_legacy (data : Datum) : result DecodingMessage DParamDatum :=
  ok_or
    (match as_list data with
     | Some [d0; d1] => p ← as_u16 d0; r ← as_u16 d1; Some (DParamV0 p r)
     | _ => None
     end) (Message "Expected [u16, u16]").

Definition d_param_decode_versioned (version : Z) (datum appendix : Datum) :
    result DecodingMessage DParamDatum :=
  if version =? 0 then map_err CannotParseAppendix (d_param_decode_legacy appendix)
  else Err (UnknownVersion version).

#[export] Instance d_param_versioned : VersionedDatumWithLegacy DParamDatum := {|
  NAME := "DParamDatum";
  decode_legacy := d_param_decode_legacy;
  decode_versioned := d_param_decode_versioned;
|}.

(** ** Candidate keys *)

Definition decode_candidate_key (data : Datum) : option CandidateKey :=
  match as_list data with
  | Some [d0; d1] =>
      key_id ← as_bytes d0;
      key_id ← as_byte_array 4 key_id;
      key_bytes ← as_bytes d1;
      Some (mkCandidateKey key_id key_bytes)
  | _ => None
  end.
Definition decode_candidate_keys (data : Datum) : option CandidateKeys :=
  outer_list ← as_list data; mapM decode_candidate_key outer_list.

Definition candidate_key_to_plutus (key : CandidateKey) : Datum :=
  new_list [new_bytes (key_id key); new_bytes (key_bytes key)].
Definition candidate_keys_to_plutus (keys : CandidateKeys) : Datum :=
  new_list (candidate_key_to_plutus <$> keys).

(** ** Permissioned candidates *)

Record PermissionedCandidateDatumV0 := mkPermissionedV0 {
  v0_sidechain_public_key : bytes;
  v0_aura_public_key : bytes;
  v0_grandpa_public_key : bytes;
}.
Record PermissionedCandidateDatumV1 := mkPermissionedV1 {
  v1_partner_chains_key : bytes;
  v1_keys : CandidateKeys;
}.
Inductive PermissionedCandidateDatums :=
  | PermissionedV0 (v : list PermissionedCandidateDatumV0)
  | PermissionedV1 (v : list PermissionedCandidateDatumV1).

Definition permissioned_from_v0 (value : PermissionedCandidateDatumV0) : PermissionedCandidateData :=
  mkPermissionedCandidateData (v0_sidechain_public_key value)
    [aura_key (v0_aura_public_key value); grandpa_key (v0_grandpa_public_key value)].
Definition permissioned_from_v1 (value : PermissionedCandidateDatumV1) : PermissionedCandidateData :=
  mkPermissionedCandidateData (v1_partner_chains_key value) (v1_keys value).
Definition permissioned_from_datums (value : PermissionedCandidateDatums) : list PermissionedCandidateData :=
  match value with
  | PermissionedV0 v => permissioned_from_v0 <$> v
  | PermissionedV1 v => permissioned_from_v1 <$> v
  end.

Definition candidates_to_plutus_data_v0 (candidates : list PermissionedCandidateData) : Datum :=
  versioned_to_plutus
    (mkVersioned (new_empty_constr_plutus_data 0)
       (new_list ((λ candidate,
          new_list (new_bytes (sidechain_public_key candidate)
                    :: ((λ key, new_bytes (key_bytes key)) <$> permissioned_keys candidate)))
        <$> candidates)) 0).
Definition candidates_to_plutus_data_v1 (candidates : list PermissionedCandidateData) : Datum :=
  versioned_to_plutus
    (mkVersioned (new_empty_constr_plutus_data 0)
       (new_list ((λ candidate,
          new_list [new_bytes (sidechain_public_key candidate);
                    candidate_keys_to_plutus (permissioned_keys candidate)])
        <$> candidates)) 1).
Definition permissioned_candidates_to_plutus_data (candidates : list PermissionedCandidateData) : Datum :=
  if forallb (λ c, has_only_aura_and_grandpa_keys (permissioned_keys c)) candidates
  then candidates_to_plutus_data_v0 candidates
  else candidates_to_plutus_data_v1 candidates.

Definition decode_legacy_candidate_datum (datum : Datum) : option PermissionedCandidateDatumV0 :=
  match as_list datum with
  | Some [d0; d1; d2] =>
      sc ← as_bytes d0; aura ← as_bytes d1; grandpa ← as_bytes d2;
      Some (mkPermissionedV0 sc aura grandpa)
  | _ => None
  end.
Definition decode_v1_candidate_datum (datum : Datum) : option PermissionedCandidateDatumV1 :=
  match as_list datum with
  | Some [d0; d1] =>
      partner_chains_key ← as_bytes d0; keys ← decode_candidate_keys d1;
      Some (mkPermissionedV1 partner_chains_key keys)
  | _ => None
  end.

Definition permissioned_decode_legacy (data : Datum) : result DecodingMessage PermissionedCandidateDatums :=
  PermissionedV0 <$> ok_or (l ← as_list data; mapM decode_legacy_candidate_datum l)
    (Message "Expected [[ByteString, ByteString, ByteString]]").
Definition decode_v1_appendix (data : Datum) : result DecodingMessage PermissionedCandidateDatums :=
  PermissionedV1 <$> ok_or (l ← as_list data; mapM decode_v1_candidate_datum l)
    (Message "Expected [[ByteString, ByteString], [[ByteString, ByteString], ... ]]").
Definition permissioned_decode_versioned (version : Z) (datum appendix : Datum) :
    result DecodingMessage PermissionedCandidateDatums :=
  if version =? 0 then map_err CannotParseAppendix (permissioned_decode_legacy appendix)
  else if version =? 1 then map_err CannotParseAppendix (decode_v1_appendix appendix)
  else Err (UnknownVersion version).

#[export] Instance permissioned_versioned : VersionedDatumWithLegacy PermissionedCandidateDatums := {|
  NAME := "PermissionedCandidateDatums";
  decode_legacy := permissioned_decode_legacy;
  decode_versioned := permissioned_decode_versioned;
|}.

(** ** Registrations *)

Inductive RegisterValidatorDatum :=
  | RegisterV0 (stake_ownership : AdaBasedStaking) (sidechain_pub_key sidechain_signature : bytes)
      (registration_utxo : UtxoId) (own_pkh aura_pub_key grandpa_pub_key : bytes)
  | RegisterV1 (stake_ownership : AdaBasedStaking) (sidechain_pub_key sidechain_signature : bytes)
      (registration_utxo : UtxoId) (own_pkh : bytes) (keys : CandidateKeys).

Definition registration_from_datum (value : RegisterValidatorDatum) : CandidateRegistration :=
  match value with
  | RegisterV0 so pk sig utxo pkh aura grandpa =>
      mkCandidateRegistration so pk sig pkh utxo [aura_key aura; grandpa_key grandpa]
  | RegisterV1 so pk sig utxo pkh keys => mkCandidateRegistration so pk sig pkh utxo keys
  end.

(** [as_constr_plutus_data] filtered to the alternative 0. *)
Definition constr0_fields (d : Datum) : option (list Datum) :=
  '(alternative, fields) ← as_constr_plutus_data d;
  if alternative =? 0 then Some fields else None.

Definition decode_tx_hash_datum (datum : Datum) : option bytes :=
  fields ← constr0_fields datum;
  match fields with
  | d0 :: _ => b ← as_bytes d0; as_byte_array 32 b
  | _ => None
  end.
Definition decode_utxo_id_datum (datum : Datum) : option UtxoId :=
  fields ← constr0_fields datum;
  match fields with
  | d0 :: d1 :: _ =>
      tx_hash ← decode_tx_hash_datum d0;
      index ← as_u16 d1;
      Some (mkUtxoId tx_hash index)
  | _ => None
  end.
Definition decode_ada_based_staking_datum (datum : Datum) : option AdaBasedStaking :=
  fields ← constr0_fields datum;
  match fields with
  | d0 :: d1 :: _ =>
      pub_key ← as_bytes d0; pub_key ← as_byte_array 32 pub_key;
      signature ← as_bytes d1; signature ← as_byte_array 64 signature;
      Some (mkAdaBasedStaking pub_key signature)
  | _ => None
  end.

Definition decode_v0_register_validator_datum (datum appendix : Datum) : option RegisterValidatorDatum :=
  fields ← constr0_fields appendix;
  match fields with
  | d0 :: d1 :: d2 :: d3 :: d4 :: d5 :: _ =>
      stake_ownership ← decode_ada_based_staking_datum d0;
      sidechain_pub_key ← as_bytes d1;
      sidechain_signature ← as_bytes d2;
      registration_utxo ← decode_utxo_id_datum d3;
      aura_pub_key ← as_bytes d4;
      grandpa_pub_key ← as_bytes d5;
      own_pkh ← as_bytes datum; own_pkh ← as_byte_array 28 own_pkh;
      Some (RegisterV0 stake_ownership sidechain_pub_key sidechain_signature registration_utxo
              own_pkh aura_pub_key grandpa_pub_key)
  | _ => None
  end.
Definition decode_v1_register_validator_datum (datum appendix : Datum) : option RegisterValidatorDatum :=
  fields ← constr0_fields appendix;
  match fields with
  | [d0; d1; d2; d3; d4] =>
      stake_ownership ← decode_ada_based_staking_datum d0;
      sidechain_pub_key ← as_bytes d1;
      sidechain_signature ← as_bytes d2;
      registration_utxo ← decode_utxo_id_datum d3;
      keys ← decode_candidate_keys d4;
      own_pkh ← as_bytes datum; own_pkh ← as_byte_array 28 own_pkh;
      Some (RegisterV1 stake_ownership sidechain_pub_key sidechain_signature registration_utxo
              own_pkh keys)
  | _ => None
  end.
Definition decode_legacy_register_validator_datum (datum : Datum) : option RegisterValidatorDatum :=
  fields ← constr0_fields datum;
  match fields with
  | d0 :: d1 :: d2 :: d3 :: d4 :: d5 :: d6 :: _ =>
      stake_ownership ← decode_ada_based_staking_datum d0;
      sidechain_pub_key ← as_bytes d1;
      sidechain_signature ← as_bytes d2;
      registration_utxo ← decode_utxo_id_datum d3;
      own_pkh ← as_bytes d4; own_pkh ← as_byte_array 28 own_pkh;
      aura_pub_key ← as_bytes d5;
      grandpa_pub_key ← as_bytes d6;
      Some (RegisterV0 stake_ownership sidechain_pub_key sidechain_signature registration_utxo
              own_pkh aura_pub_key grandpa_pub_key)
  | _ => None
  end.

Definition register_decode_versioned (version : Z) (datum appendix : Datum) :
    result DecodingMessage RegisterValidatorDatum :=
  if version =? 0 then
    ok_or (decode_v0_register_validator_datum datum appendix) (Message "Can not parse appendix")
  else if version =? 1 then
    ok_or (decode_v1_register_validator_datum datum appendix) (Message "Can not parse appendix")
  else Err (UnknownVersion version).

#[export] Instance register_versioned : VersionedDatumWithLegacy RegisterValidatorDatum := {|
  NAME := "RegisterValidatorDatum";
  decode_legacy data := ok_or (decode_legacy_register_validator_datum data) (Message "Invalid data");
  decode_versioned := register_decode_versioned;
|}.

Definition tx_hash_to_plutus_data (v : bytes) : Datum := new_constr_plutus_data 0 [new_bytes v].
Definition utxo_id_to_plutus_data (v : UtxoId) : Datum :=
  new_constr_plutus_data 0 [tx_hash_to_plutus_data (tx_hash v); new_integer (utxo_index v)].
Definition stake_ownership_to_plutus_data (v : AdaBasedStaking) : Datum :=
  new_constr_plutus_data 0 [new_bytes (ada_pub_key v); new_bytes (ada_signature v)].

Definition register_to_plutus (value : RegisterValidatorDatum) : Datum :=
  match value with
  | RegisterV0 so pk sig utxo pkh aura grandpa =>
      versioned_to_plutus
        (mkVersioned (new_bytes pkh)
           (new_constr_plutus_data 0
              [stake_ownership_to_plutus_data so; new_bytes pk; new_bytes sig;
               utxo_id_to_plutus_data utxo; new_bytes aura; new_bytes grandpa]) 0)
  | RegisterV1 so pk sig utxo pkh keys =>
      versioned_to_plutus
        (mkVersioned (new_bytes pkh)
           (new_constr_plutus_data 0
              [stake_ownership_to_plutus_data so; new_bytes pk; new_bytes sig;
               utxo_id_to_plutus_data utxo; candidate_keys_to_plutus keys]) 1)
  end.

Definition candidate_registration_to_plutus_data (reg : CandidateRegistration) : Datum :=
  register_to_plutus
    (if has_only_aura_and_grandpa_keys (reg_keys reg) then
       RegisterV0 (stake_ownership reg) (partner_chain_pub_key reg) (partner_chain_signature reg)
         (reg_utxo reg) (own_pkh reg) (find_or_empty AURA (reg_keys reg)) (find_or_empty GRANDPA (reg_keys reg))
     else
       RegisterV1 (stake_ownership reg) (partner_chain_pub_key reg) (partner_chain_signature reg)
         (reg_utxo reg) (own_pkh reg) (reg_keys reg)).

(** ** Governed Map entries *)

(** [String::from_utf8]: well-formed byte sequences of Unicode, table 3-7. *)
Fixpoint is_utf8 (fuel : nat) (b : bytes) : bool :=
  let cont x := (128 <=? x) && (x <=? 191) in
  match fuel, b with
  | _, [] => true
  | O, _ => false
  | S fuel, b0 :: rest =>
      if b0 <=? 127 then is_utf8 fuel rest
      else if (194 <=? b0) && (b0 <=? 223) then
        match rest with b1 :: rest => cont b1 && is_utf8 fuel rest | _ => false end
      else if (224 <=? b0) && (b0 <=? 239) then
        match rest with
        | b1 :: b2 :: rest =>
            (if b0 =? 224 then (160 <=? b1) && (b1 <=? 191)
             else if b0 =? 237 then (128 <=? b1) && (b1 <=? 159) else cont b1)
            && cont b2 && is_utf8 fuel rest
        | _ => false
        end
      else if (240 <=? b0) && (b0 <=? 244) then
        match rest with
        | b1 :: b2 :: b3 :: rest =>
            (if b0 =? 240 then (144 <=? b1) && (b1 <=? 191)
             else if b0 =? 244 then (128 <=? b1) && (b1 <=? 143) else cont b1)
            && cont b2 && cont b3 && is_utf8 fuel rest
        | _ => false
        end
      else false
  end.
Definition from_utf8 (b : bytes) : option bytes := if is_utf8 (length b) b then Some b else None.

Record GovernedMapDatum := mkGovernedMapDatum {
  entry_key : bytes;
  entry_value : bytes;
}.

Definition governed_map_datum_try_from (datum : Datum) : outcome (DecodingResult GovernedMapDatum) :=
  let error := mkDecodingError datum "GovernedMapDatum" (Message "Expected List([UTF8String, Bytes])") in
  match as_list datum with
  | None => Ret (Err error)
  | Some list =>
      d0 ← get list 0;
      match as_bytes d0 ≫= from_utf8 with
      | None => Ret (Err error)
      | Some key =>
          d1 ← get list 1;
          Ret (ok_or (mkGovernedMapDatum key <$> as_bytes d1) error)
      end
  end.

Definition governed_map_datum_to_plutus_data (d : GovernedMapDatum) : Datum :=
  new_list [new_bytes (entry_key d); new_bytes (entry_value d)].

(** ** Token transfers *)

Inductive TokenTransferDatum := UserTransferV1 (receiver : bytes) | ReserveTransferV1.

Definition token_transfer_to_plutus (datum : TokenTransferDatum) : Datum :=
  versioned_to_plutus
    (mkVersioned (new_empty_constr_plutus_data 0)
       (match datum with
        | UserTransferV1 receiver => new_single_value_constr_plutus_data 0 (new_bytes receiver)
        | ReserveTransferV1 => new_empty_constr_plutus_data 1
        end) 1).

Definition decode_v1_token_transfer_datum (appendix : Datum) : option TokenTransferDatum :=
  '(alternative, data) ← as_constr_plutus_data appendix;
  if (alternative =? 0) && bool_decide (length data = 1%nat) then
    match data with d0 :: _ => UserTransferV1 <$> as_bytes d0 | [] => None end
  else if (alternative =? 1) && is_empty data then Some ReserveTransferV1
  else None.

Definition token_transfer_decode (data : Datum) : DecodingResult TokenTransferDatum :=
  match plutus_data_version_and_payload data with
  | None => Err (mkDecodingError data "TokenTransferDatum" (Message "unversioned datum"))
  | Some v =>
      if v_version v =? 1 then
        ok_or (decode_v1_token_transfer_datum (v_appendix v))
          (mkDecodingError (v_appendix v) "TokenTransferDatum" (Message "malformed appendix"))
      else Err (mkDecodingError data "TokenTransferDatum" (Message "invalid version"))
  end.

(** ** The reserve *)

Inductive ReserveRedeemer := DepositToReserve | ReleaseFromReserve | UpdateReserve | Handover.

Definition reserve_redeemer_to_plutus (value : ReserveRedeemer) : Datum :=
  new_empty_constr_plutus_data
    (match value with
     | DepositToReserve => 0 | ReleaseFromReserve => 1 | UpdateReserve => 2 | Handover => 3
     end).

Inductive IlliquidCirculationSupplyRedeemer := DepositMoreToSupply | WithdrawFromSupply.
Definition ics_redeemer_to_plutus (value : IlliquidCirculationSupplyRedeemer) : Datum :=
  new_integer (match value with DepositMoreToSupply => 0 | WithdrawFromSupply => 1 end).

Record AssetId := mkAssetId {
  policy_id : bytes;
  asset_name : bytes;
}.

Record ReserveDatum := mkReserveDatum {
  reserve_token : AssetId;
  total_accrued_function_asset_name : bytes;
  initial_incentive : Z;
  token_total_amount_transferred : Z;
}.

Definition reserve_to_plutus (value : ReserveDatum) : Datum :=
  versioned_to_plutus
    (mkVersioned
       (let token_data := new_constr_plutus_data 0
          [new_bytes (policy_id (reserve_token value)); new_bytes (asset_name (reserve_token value))] in
        let v_function_hash_and_initial_incentive :=
          [new_bytes (total_accrued_function_asset_name value); new_integer (initial_incentive value)] in
        new_list [token_data; new_list v_function_hash_and_initial_incentive;
                  new_integer (token_total_amount_transferred value)])
       (new_empty_constr_plutus_data 0) 0).

(** The iterator of a list: [next] takes the first element that is left. *)
Definition decode_token_id_datum (pd : Datum) : option AssetId :=
  token_id_list ← constr0_fields pd;
  policy_id ← token_id_list !! 0%nat ≫= as_bytes;
  asset_name ← token_id_list !! 1%nat ≫= as_bytes;
  policy_id ← as_byte_array 28 policy_id;
  if bool_decide (length asset_name ≤ 32)%nat then Some (mkAssetId policy_id asset_name) else None.

Definition decode_v0_reserve_datum (datum : Datum) : option ReserveDatum :=
  outer_list ← as_list datum;
  token ← outer_list !! 0%nat ≫= decode_token_id_datum;
  mutable_settings_list ← outer_list !! 1%nat ≫= as_list;
  script_hash ← mutable_settings_list !! 0%nat ≫= as_bytes;
  script_hash ← as_byte_array 28 script_hash;
  initial_incentive ← mutable_settings_list !! 1%nat ≫= as_u64;
  transferred ← outer_list !! 2%nat ≫= as_u64;
  Some (mkReserveDatum token script_hash initial_incentive transferred).

Definition reserve_decode (datum : Datum) : DecodingResult ReserveDatum :=
  match plutus_data_version_and_payload datum with
  | Some v =>
      if v_version v =? 0 then
        ok_or (decode_v0_reserve_datum (v_datum v))
          (mkDecodingError (v_datum v) "ReserveDatum" (Message "invalid data"))
      else Err (mkDecodingError datum "ReserveDatum" (Message "unversioned datum"))
  | None => Err (mkDecodingError datum "ReserveDatum" (Message "unversioned datum"))
  end.

Definition after_withdrawal (self : ReserveDatum) (amount : Z) : ReserveDatum :=
  mkReserveDatum (reserve_token self) (total_accrued_function_asset_name self) (initial_incentive self)
    (wadd 64 (token_total_amount_transferred self) amount).

(** ** The version oracle *)

Definition ScriptHash_try_from (datum : Datum) : DecodingResult bytes :=
  ok_or (b ← as_bytes datum; as_byte_array 28 b)
    (mkDecodingError datum "ScriptHash" (Message "Expected [u8;32]")).

Definition VersionOracle_try_from (datum : Datum) : DecodingResult Z :=
  ok_or (as_u32 datum) (mkDecodingError datum "VersionOracle" (Message "Expected u32")).

Record VersionOracleDatum := mkVersionOracleDatum {
  version_oracle : Z;
  currency_symbol : bytes;
}.

Definition VersionOracleDatum_try_from (datum : Datum) : DecodingResult VersionOracleDatum :=
  ok_or
    (match as_list datum with
     | Some [d0; d1] =>
         version_oracle ← ok (VersionOracle_try_from d0);
         currency_symbol ← ok (ScriptHash_try_from d1);
         Some (mkVersionOracleDatum version_oracle currency_symbol)
     | _ => None
     end) (mkDecodingError datum "VersionOracleDatum" (Message "Expected [u32, [u8;32]]")).

Definition version_oracle_datum_to_plutus (datum : VersionOracleDatum) : Datum :=
  new_list [new_integer (version_oracle datum); new_bytes (currency_symbol datum)].

Inductive VersionOraclePolicyRedeemer :=
  | InitializeVersionOracle (version_oracle : Z) (script_hash : bytes)
  | MintVersionOracle (version_oracle : Z) (script_hash : bytes)
  | BurnVersionOracle (version_oracle : Z).

Definition oracle_redeemer_try_from (redeemer : Datum) : DecodingResult VersionOraclePolicyRedeemer :=
  ok_or
    ('(alternative, data) ← as_constr_plutus_data redeemer;
     match data with
     | [d0; d1] =>
         if alternative =? 0 then
           v ← ok (VersionOracle_try_from d0); h ← ok (ScriptHash_try_from d1);
           Some (InitializeVersionOracle v h)
         else if alternative =? 1 then
           v ← ok (VersionOracle_try_from d0); h ← ok (ScriptHash_try_from d1);
           Some (MintVersionOracle v h)
         else None
     | [d0] =>
         if alternative =? 2 then v ← ok (VersionOracle_try_from d0); Some (BurnVersionOracle v)
         else None
     | _ => None
     end)
    (mkDecodingError redeemer "VersionOraclePolicyRedeemer"
       (Message "Expected one of Constr 0 [u32, [u8;32]], Constr 1 [u32, [u8;32]], or Constr 2 [u32]")).

Definition oracle_redeemer_to_plutus (redeemer : VersionOraclePolicyRedeemer) : Datum :=
  match redeemer with
  | InitializeVersionOracle v h => new_constr_plutus_data 0 [new_integer v; new_bytes h]
  | MintVersionOracle v h => new_constr_plutus_data 1 [new_integer v; new_bytes h]
  | BurnVersionOracle v => new_constr_plutus_data 2 [new_integer v]
  end.

(** ** Round trips *)

Lemma as_byte_array_id n b : length b = n → as_byte_array n b = Some b.
Proof. intros. unfold as_byte_array. by rewrite decide_True. Qed.

Lemma try_into_id w x : in_u w x → try_into w x = Some x.
Proof. intros. by apply try_into_Some. Qed.

Lemma in_u_weaken w w' x : 0 ≤ w ≤ w' → in_u w x → in_u w' x.
Proof. intros Hw [? ?]. split; [done|]. unfold u_bound in *. pose proof (Z.pow_le_mono_r 2 w w'). lia. Qed.

Lemma as_u64_id x : in_u 64 x → as_u64 (new_integer x) = Some x.
Proof. apply try_into_id. Qed.
Lemma as_u32_id x : in_u 32 x → as_u32 (new_integer x) = Some x.
Proof.
  intros Hx. unfold as_u32. rewrite as_u64_id by (by eapply in_u_weaken; [|exact Hx]). by apply try_into_id.
Qed.
Lemma as_u16_id x : in_u 16 x → as_u16 (new_integer x) = Some x.
Proof.
  intros Hx. unfold as_u16. rewrite as_u32_id by (by eapply in_u_weaken; [|exact Hx]). by apply try_into_id.
Qed.

Lemma version_and_payload_versioned v :
  in_u 64 (v_version v) → plutus_data_version_and_payload (versioned_to_plutus v) = Some v.
Proof. intros Hv. unfold plutus_data_version_and_payload. simpl. rewrite as_u64_id by done. by destruct v. Qed.

Lemma mapM_fmap_Some {A B C} (f : B → option C) (g : A → B) (h : A → C) l :
  Forall (λ x, f (g x) = Some (h x)) l → mapM f (g <$> l) = Some (h <$> l).
Proof.
  induction 1 as [|x l Hx Hl IH]; [done|].
  change (mapM f (g <$> x :: l)) with (y ← f (g x); k ← mapM f (g <$> l); mret (y :: k)).
  by rewrite Hx, IH.
Qed.

Lemma decode_candidate_keys_to_plutus keys :
  Forall (λ k, length (key_id k) = 4%nat) keys →
  decode_candidate_keys (candidate_keys_to_plutus keys) = Some keys.
Proof.
  intros Hk. unfold decode_candidate_keys. simpl. rewrite (mapM_fmap_Some _ _ id).
  - by rewrite list_fmap_id.
  - eapply Forall_impl; [exact Hk|]. intros [i b] Hi. unfold decode_candidate_key. simpl.
    by rewrite as_byte_array_id.
Qed.

Create Rewrite HintDb datum.
#[export] Hint Rewrite @version_and_payload_versioned @as_byte_array_id as_u64_id as_u32_id as_u16_id
  decode_candidate_keys_to_plutus using done : datum.

(** The lengths the Rust types of a registration guarantee. *)
Record registration_wf (reg : CandidateRegistration) : Prop := {
  wf_pub_key : length (ada_pub_key (stake_ownership reg)) = 32%nat;
  wf_signature : length (ada_signature (stake_ownership reg)) = 64%nat;
  wf_own_pkh : length (own_pkh reg) = 28%nat;
  wf_tx_hash : length (tx_hash (reg_utxo reg)) = 32%nat;
  wf_index : in_u 16 (utxo_index (reg_utxo reg));
  wf_keys : Forall (λ k, length (key_id k) = 4%nat) (reg_keys reg);
}.

Definition with_keys (reg : CandidateRegistration) (keys : CandidateKeys) : CandidateRegistration :=
  mkCandidateRegistration (stake_ownership reg) (partner_chain_pub_key reg) (partner_chain_signature reg)
    (own_pkh reg) (reg_utxo reg) keys.

Lemma decode_stake_ownership so :
  length (ada_pub_key so) = 32%nat → length (ada_signature so) = 64%nat →
  decode_ada_based_staking_datum (stake_ownership_to_plutus_data so) = Some so.
Proof.
  intros Hp Hs. unfold decode_ada_based_staking_datum. simpl.
  rewrite !as_byte_array_id by done. by destruct so.
Qed.

Lemma decode_utxo_id utxo :
  length (tx_hash utxo) = 32%nat → in_u 16 (utxo_index utxo) →
  decode_utxo_id_datum (utxo_id_to_plutus_data utxo) = Some utxo.
Proof.
  intros Hh Hi. unfold decode_utxo_id_datum, decode_tx_hash_datum. simpl.
  rewrite as_byte_array_id by done. simpl. rewrite as_u16_id by done. by destruct utxo.
Qed.

Lemma decode_register_to_plutus d :
  registration_wf (registration_from_datum d) → decode_with_legacy (register_to_plutus d) = Ok d.
Proof.
  intros [Hp Hs Ho Hh Hi Hk]. unfold decode_with_legacy.
  destruct d as [so pk sig utxo pkh aura grandpa|so pk sig utxo pkh keys]; simpl in *;
    unfold plutus_data_version_and_payload; simpl; unfold register_decode_versioned; simpl.
  - unfold decode_v0_register_validator_datum. simpl.
    rewrite decode_stake_ownership, decode_utxo_id by done. simpl. by rewrite as_byte_array_id.
  - unfold decode_v1_register_validator_datum.
    cbn [constr0_fields as_constr_plutus_data new_constr_plutus_data mbind option_bind Z.eqb].
    rewrite decode_stake_ownership, decode_utxo_id, decode_candidate_keys_to_plutus by done. simpl.
    by rewrite as_byte_array_id.
Qed.

(** What the V0 schema keeps of a permissioned candidate: the key bytes by
    position, the first one as the AURA key. *)
Definition by_position (c : PermissionedCandidateData) : PermissionedCandidateData :=
  match permissioned_keys c with
  | [k1; k2] =>
      mkPermissionedCandidateData (sidechain_public_key c) [aura_key (key_bytes k1); grandpa_key (key_bytes k2)]
  | _ => c
  end.

Lemma decode_permissioned_v0 cs :
  Forall (λ c, length (permissioned_keys c) = 2%nat) cs →
  permissioned_from_datums <$> decode_with_legacy (candidates_to_plutus_data_v0 cs) = Ok (by_position <$> cs).
Proof.
  intros Hcs. unfold decode_with_legacy, candidates_to_plutus_data_v0. rewrite version_and_payload_versioned by done.
  cbn [decode_versioned permissioned_versioned v_version v_datum v_appendix].
  unfold permissioned_decode_versioned, permissioned_decode_legacy.
  cbn [Z.eqb as_list new_list mbind option_bind].
  rewrite (mapM_fmap_Some _ _ (λ c, mkPermissionedV0 (sidechain_public_key c)
    (default [] (key_bytes <$> permissioned_keys c !! 0%nat)) (default [] (key_bytes <$> permissioned_keys c !! 1%nat)))).
  - simpl. f_equal. rewrite <-list_fmap_compose. apply list_fmap_ext. intros i c Hc.
    apply (Forall_lookup_1 _ _ _ _ Hcs) in Hc. unfold by_position. destruct c as [pk [|k1 [|k2 [|]]]]; done.
  - eapply Forall_impl; [exact Hcs|]. intros [pk [|k1 [|k2 [|]]]]; done.
Qed.

Lemma by_position_fixed c :
  has_only_aura_and_grandpa_keys (permissioned_keys c) = true →
  by_position c = c ↔ key_id <$> permissioned_keys c = [AURA; GRANDPA].
Proof.
  destruct c as [pk keys]. simpl. intros (a & g & [-> | ->])%has_only_aura_and_grandpa_keys_iff; [done|].
  split; [|done]. unfold by_position. simpl. by intros [=].
Qed.

Lemma fmap_fixed {A} (f : A → A) (l : list A) : f <$> l = l ↔ ∀ x, x ∈ l → f x = x.
Proof.
  induction l as [|y l IH]; [set_solver|]. rewrite fmap_cons. split.
  - intros [= Hy Hl] x [->|Hx]%elem_of_cons; [done|]. by apply IH.
  - intros H. f_equal; [apply H; by left|]. apply IH. intros x Hx. apply H. by right.
Qed.

Lemma decode_permissioned_v1 cs :
  Forall (λ c, Forall (λ k, length (key_id k) = 4%nat) (permissioned_keys c)) cs →
  permissioned_from_datums <$> decode_with_legacy (candidates_to_plutus_data_v1 cs) = Ok cs.
Proof.
  intros Hcs. unfold decode_with_legacy, candidates_to_plutus_data_v1. rewrite version_and_payload_versioned by done.
  cbn [decode_versioned permissioned_versioned v_version v_datum v_appendix].
  unfold permissioned_decode_versioned, decode_v1_appendix.
  cbn [Z.eqb Pos.eqb as_list new_list mbind option_bind].
  rewrite (mapM_fmap_Some _ _ (λ c, mkPermissionedV1 (sidechain_public_key c) (permissioned_keys c))).
  - simpl. f_equal. rewrite <-list_fmap_compose. rewrite <-(list_fmap_id cs) at 2.
    apply list_fmap_ext. by intros ? [].
  - eapply Forall_impl; [exact Hcs|]. intros c Hc. unfold decode_v1_candidate_datum.
    cbn [as_list new_list mbind option_bind as_bytes new_bytes].
    by rewrite decode_candidate_keys_to_plutus.
Qed.

(** What reading a list of permissioned candidates gives back. *)
Definition read_back_candidates (cs : list PermissionedCandidateData) : list PermissionedCandidateData :=
  if forallb (λ c, has_only_aura_and_grandpa_keys (permissioned_keys c)) cs then by_position <$> cs else cs.

Lemma decode_permissioned cs :
  Forall (λ c, Forall (λ k, length (key_id k) = 4%nat) (permissioned_keys c)) cs →
  permissioned_from_datums <$> decode_with_legacy (permissioned_candidates_to_plutus_data cs)
  = Ok (read_back_candidates cs).
Proof.
  intros Hid. unfold permissioned_candidates_to_plutus_data, read_back_candidates.
  destruct (forallb _ cs) eqn:E; [|by apply decode_permissioned_v1].
  rewrite forallb_forall in E. setoid_rewrite <-list_elem_of_In in E.
  apply decode_permissioned_v0, Forall_forall. intros c Hc.
  destruct (proj1 (has_only_aura_and_grandpa_keys_iff _) (E c Hc)) as (a & g & [-> | ->]); done.
Qed.

Lemma decode_version_oracle d :
  in_u 32 (version_oracle d) → length (currency_symbol d) = 28%nat →
  VersionOracleDatum_try_from (version_oracle_datum_to_plutus d) = Ok d.
Proof.
  destruct d as [v h]. intros Hv Hh. unfold VersionOracleDatum_try_from, VersionOracle_try_from, ScriptHash_try_from.
  simpl in *. rewrite as_u32_id by done. simpl. by rewrite as_byte_array_id.
Qed.

Lemma decode_reserve d :
  length (policy_id (reserve_token d)) = 28%nat → (length (asset_name (reserve_token d)) ≤ 32)%nat →
  length (total_accrued_function_asset_name d) = 28%nat → in_u 64 (initial_incentive d) →
  in_u 64 (token_total_amount_transferred d) → reserve_decode (reserve_to_plutus d) = Ok d.
Proof.
  destruct d as [[pol name] h i t]. intros Hp Hn Hh Hi Ht. unfold reserve_decode, reserve_to_plutus.
  rewrite version_and_payload_versioned by done. simpl in *. unfold decode_v0_reserve_datum, decode_token_id_datum.
  simpl. rewrite as_byte_array_id, bool_decide_eq_true_2 by done. simpl.
  rewrite as_byte_array_id by done. simpl. by rewrite !as_u64_id.
Qed.

Lemma decode_d_param d :
  in_u 16 (num_permissioned_candidates d) → in_u 16 (num_registered_candidates d) →
  d_param_from_datum <$> decode_with_legacy (d_parameter_to_plutus_data d) = Ok d.
Proof.
  destruct d as [p r]. intros Hp Hr. unfold decode_with_legacy, d_parameter_to_plutus_data.
  rewrite version_and_payload_versioned by done. cbn [decode_versioned d_param_versioned v_version v_datum v_appendix].
  unfold d_param_decode_versioned, d_param_decode_legacy. cbn [Z.eqb as_list new_list].
  simpl in Hp, Hr. by rewrite !as_u16_id.
Qed.

(** A registration written to Cardano is read back as the same registration, with a
    pair of AURA and GRANDPA keys in that order. *)
Lemma decode_registration reg :
  registration_wf reg →
  registration_from_datum <$> decode_with_legacy (candidate_registration_to_plutus_data reg)
  = Ok (with_keys reg (normalised (reg_keys reg))).
Proof.
  intros Hwf. unfold candidate_registration_to_plutus_data, normalised.
  destruct (has_only_aura_and_grandpa_keys (reg_keys reg)) eqn:E.
  - rewrite decode_register_to_plutus; [done|]. destruct Hwf. split; simpl; try done.
    repeat constructor.
  - rewrite decode_register_to_plutus; [done|]. destruct Hwf. by split.
Qed.

(** ** Theorems *)

(** C38. A list of permissioned candidates is read back as it was written exactly
    if it is written in the V1 schema or every candidate has its AURA key before
    its GRANDPA key. *)
Theorem permissioned_datum_roundtrip cs :
  Forall (λ c, Forall (λ k, length (key_id k) = 4%nat) (permissioned_keys c)) cs →
  ∃ cs', permissioned_from_datums <$> decode_with_legacy (permissioned_candidates_to_plutus_data cs) = Ok cs' ∧
    (cs' = cs ↔
     ((∀ c, c ∈ cs → has_only_aura_and_grandpa_keys (permissioned_keys c) = true) →
      ∀ c, c ∈ cs → key_id <$> permissioned_keys c = [AURA; GRANDPA])).
Proof.
  intros Hid. eexists. split; [by apply decode_permissioned|]. unfold read_back_candidates.
  destruct (forallb _ cs) eqn:E.
  - rewrite fmap_fixed. rewrite forallb_forall in E. setoid_rewrite <-list_elem_of_In in E.
    split; [intros H _ c Hc|intros H c Hc]; (apply by_position_fixed; [by apply E|]); auto.
  - split; [|done]. intros _ Hall. exfalso.
    enough (forallb (λ c, has_only_aura_and_grandpa_keys (permissioned_keys c)) cs = true) by congruence.
    apply forallb_forall. intros c Hc. apply Hall. by apply list_elem_of_In.
Qed.

(** The D-parameter, Governed Map entries, token transfers, the reserve and
    the version oracle read back what was written. *)
Theorem observed_datums_roundtrip :
  (∀ d, in_u 16 (num_permissioned_candidates d) → in_u 16 (num_registered_candidates d) →
     d_param_from_datum <$> decode_with_legacy (d_parameter_to_plutus_data d) = Ok d) ∧
  (∀ d, from_utf8 (entry_key d) = Some (entry_key d) →
     governed_map_datum_try_from (governed_map_datum_to_plutus_data d) = Ret (Ok d)) ∧
  (∀ d, token_transfer_decode (token_transfer_to_plutus d) = Ok d) ∧
  (∀ d, length (policy_id (reserve_token d)) = 28%nat → (length (asset_name (reserve_token d)) ≤ 32)%nat →
     length (total_accrued_function_asset_name d) = 28%nat → in_u 64 (initial_incentive d) →
     in_u 64 (token_total_amount_transferred d) → reserve_decode (reserve_to_plutus d) = Ok d) ∧
  (∀ d, in_u 32 (version_oracle d) → length (currency_symbol d) = 28%nat →
     VersionOracleDatum_try_from (version_oracle_datum_to_plutus d) = Ok d).
Proof.
  split_and!.
  - apply decode_d_param.
  - intros [k v] Hk. unfold governed_map_datum_try_from. simpl in *. rewrite Hk. done.
  - intros []; done.
  - apply decode_reserve.
  - apply decode_version_oracle.
Qed.

(** Reading a Governed Map entry panics on exactly the lists that end before
    an element is looked at: the empty list, and a list of one UTF-8 string. *)
Theorem governed_map_datum_panics d :
  governed_map_datum_try_from d = Panic ↔
  d = ListDatum [] ∨ ∃ key, d = ListDatum [ByteStringDatum key] ∧ from_utf8 key = Some key.
Proof.
  unfold governed_map_datum_try_from. destruct d as [i|b|c l|l|m]; simpl; try naive_solver.
  destruct l as [|d0 l]; simpl; [naive_solver|].
  destruct d0 as [i|b|c l'|l'|m]; simpl; try naive_solver.
  destruct (from_utf8 b) as [key|] eqn:Hb; simpl; [|naive_solver].
  assert (key = b) as -> by (unfold from_utf8 in Hb; case_match; naive_solver).
  destruct l as [|d1 l]; simpl; naive_solver.
Qed.

(** A candidate given with its GRANDPA key first comes back with its keys swapped. *)
Example permissioned_keys_swapped :
  permissioned_from_datums <$> decode_with_legacy (permissioned_candidates_to_plutus_data
    [mkPermissionedCandidateData [1] [grandpa_key [2]; aura_key [3]]])
  = Ok [mkPermissionedCandidateData [1] [aura_key [2]; grandpa_key [3]]].
Proof. reflexivity. Qed.

(** ** Witnesses *)

Lemma permissioned_datum_roundtrip_witness :
  ∃ cs', permissioned_from_datums <$> decode_with_legacy (permissioned_candidates_to_plutus_data
      [mkPermissionedCandidateData [1] [aura_key [2]; grandpa_key [3]]]) = Ok cs' ∧
    cs' = [mkPermissionedCandidateData [1] [aura_key [2]; grandpa_key [3]]].
Proof.
  destruct (permissioned_datum_roundtrip [mkPermissionedCandidateData [1] [aura_key [2]; grandpa_key [3]]])
    as (cs' & Hdec & Heq); [repeat constructor|].
  exists cs'. split; [exact Hdec|]. apply Heq. intros _ c ->%list_elem_of_singleton. reflexivity.
Defined.

Lemma observed_datums_roundtrip_witness :
  d_param_from_datum <$> decode_with_legacy (d_parameter_to_plutus_data (mkDParameter 3 2)) = Ok (mkDParameter 3 2).
Proof. apply (proj1 observed_datums_roundtrip); split; done. Defined.
