(* ===== verification/TextFormats.v ===== *)
(** * Text formats of the domain types

    Models the string conversions of [toolkit/sidechain/domain/src/lib.rs] and
    [byte_string.rs] and those generated by the [byte_string] macro
    ([toolkit/utils/byte-string-derivation/src/lib.rs]).  A string is the list of its
    UTF-8 bytes.  The hex functions of [sp_core] and the [hex] crate are a class
    with laws; splitting, trimming and the conversions of integers are those of
    the standard library. *)

From S2P Require Import Prelude Domain CandidateKeys PlutusData ContractDatums.

(** ** Standard library *)

(** [str::split] on a character: always at least one piece. *)
Fixpoint split (c : Z) (s : bytes) : list bytes :=
  match s with
  | [] => [[]]
  | x :: s =>
      if x =? c then [] :: split c s
      else match split c s with piece :: pieces => (x :: piece) :: pieces | [] => [[x]] end
  end.

(** [str::split_once] *)
Fixpoint split_once (c : Z) (s : bytes) : option (bytes * bytes) :=
  match s with
  | [] => None
  | x :: s =>
      if x =? c then Some ([], s)
      else '(l, r) ← split_once c s; Some (x :: l, r)
  end.

(** [s.trim_start_matches] and [s.replace] with the pattern of the hex prefix. *)
Fixpoint trim_start_0x (s : bytes) : bytes :=
  match s with
  | 48 :: 120 :: rest => trim_start_0x rest
  | _ => s
  end.
Fixpoint remove_0x (s : bytes) : bytes :=
  match s with
  | [] => []
  | x :: s' =>
      match x, s' with
      | 48, 120 :: rest => remove_0x rest
      | _, _ => x :: remove_0x s'
      end
  end.

Definition contains (c : Z) (s : bytes) : bool := existsb (Z.eqb c) s.

(** [Display] of an unsigned integer; forty digits are enough for 128 bits. *)
Fixpoint digits (fuel : nat) (n : Z) (acc : bytes) : bytes :=
  match fuel with
  | O => acc
  | S fuel => if n <? 10 then 48 + n :: acc else digits fuel (n / 10) (48 + n mod 10 :: acc)
  end.
Definition display_uint (n : Z) : bytes := digits 40 n [].

(** [FromStr] of integers: an optional sign, then digits, within the bounds. *)
Definition digit (x : Z) : option Z := if (48 <=? x) && (x <=? 57) then Some (x - 48) else None.
Fixpoint parse_digits (acc : Z) (s : bytes) : option Z :=
  match s with
  | [] => Some acc
  | x :: s => d ← digit x; parse_digits (acc * 10 + d) s
  end.
Definition parse_nonempty (s : bytes) : option Z := if is_empty s then None else parse_digits 0 s.
Definition uint_from_str (w : Z) (s : bytes) : option Z :=
  n ← parse_nonempty match s with 43 :: s => s | _ => s end;
  if n <? u_bound w then Some n else None.
Definition int_from_str (w : Z) (s : bytes) : option Z :=
  n ← match s with
      | 45 :: s => n ← parse_nonempty s; Some (- n)
      | 43 :: s => parse_nonempty s
      | _ => parse_nonempty s
      end;
  if (- u_bound (w - 1) <=? n) && (n <? u_bound (w - 1)) then Some n else None.

(** ** Hexadecimal text

    [sp_core::bytes::to_hex] (without stripping zeros) and [from_hex],
    [sp_core::hexdisplay::HexDisplay], [hex::encode] and [hex::decode]. *)
Class Hex := {
  to_hex : bytes → bytes;
  from_hex : bytes → option bytes;
  hex_display : bytes → bytes;
  hex_encode : bytes → bytes;
  hex_decode : bytes → option bytes;
}.

Definition is_byte (x : Z) : Prop := in_u 8 x.
Definition hex_digit (x : Z) : Prop := 48 ≤ x ≤ 57 ∨ 97 ≤ x ≤ 102.

Class HexLaws `{!Hex} : Prop := {
  hex_encode_digits b : Forall is_byte b → Forall hex_digit (hex_encode b);
  hex_decode_encode b : Forall is_byte b → hex_decode (hex_encode b) = Some b;
  to_hex_eq b : Forall is_byte b → to_hex b = 48 :: 120 :: hex_encode b;
  hex_display_eq b : Forall is_byte b → hex_display b = hex_encode b;
  from_hex_plain b : Forall is_byte b → from_hex (hex_encode b) = Some b;
  from_hex_prefixed b : Forall is_byte b → from_hex (48 :: 120 :: hex_encode b) = Some b;
}.

(** ** Byte strings

    The functions of the [byte_string] macro, for an array of [n] bytes, a vector
    of at most [n] bytes and a vector. *)
Inductive DecodeHexError := NotHex | InvalidLength.

Section Formats.
Context `{!Hex}.

Definition decode_hex_array (n : nat) (s : bytes) : result DecodeHexError bytes :=
  b ← ok_or (from_hex s) NotHex;
  if decide (length b = n) then Ok b else Err InvalidLength.
Definition decode_hex_bounded (n : nat) (s : bytes) : result DecodeHexError bytes :=
  b ← ok_or (from_hex s) NotHex;
  if decide (length b ≤ n)%nat then Ok b else Err InvalidLength.
Definition decode_hex_vec (s : bytes) : result DecodeHexError bytes := ok_or (from_hex s) NotHex.
Definition from_hex_unsafe (decode : bytes → result DecodeHexError bytes) (s : bytes) : outcome bytes :=
  expect (ok (decode s)).
Definition to_hex_string (b : bytes) : bytes := to_hex b.

(** [From<u64>] for an array; the start of the slice underflows if it is shorter. *)
Definition from_num_array (n : nat) (v : Z) : outcome bytes :=
  if (n <? 8)%nat then Panic else Ret (replicate (n - 8) 0 ++ be 8 v).
Definition from_num_vec (v : Z) : bytes := be 8 v.

(** ** Indices and UTxO identifiers *)

Definition utxo_index_from_str (s : bytes) : option Z :=
  parsed ← uint_from_str 16 s;
  _ ← int_from_str 16 s;
  Some parsed.
Definition mc_tx_index_from_str (s : bytes) : option Z :=
  parsed ← uint_from_str 32 s;
  _ ← int_from_str 32 s;
  Some parsed.

Inductive UtxoIdError := BadUtxoFormat | InvalidTxHash | InvalidIndex.

Definition utxo_id_from_str (s : bytes) : result UtxoIdError UtxoId :=
  match split 35 s with
  | [hash_str; index_str] =>
      tx_hash ← map_err (λ _, InvalidTxHash) (decode_hex_array 32 hash_str);
      index ← ok_or (utxo_index_from_str index_str) InvalidIndex;
      Ok (mkUtxoId tx_hash index)
  | _ => Err BadUtxoFormat
  end.
Definition utxo_id_display (u : UtxoId) : bytes := hex_display (tx_hash u) ++ 35 :: display_uint (utxo_index u).

(** ** Addresses and assets *)

Definition MAX_MAINCHAIN_ADDRESS_BYTES : nat := 120.
Definition POLICY_ID_LEN : nat := 28.
Definition MAX_ASSET_NAME_LEN : nat := 32.

Definition address_from_str (s : bytes) : result DecodeHexError bytes :=
  if decide (length s ≤ MAX_MAINCHAIN_ADDRESS_BYTES)%nat then Ok s else Err InvalidLength.
(** [Display] and [Serialize] *)
Definition address_to_str (address : bytes) : outcome bytes := expect (from_utf8 address).
Definition address_deserialize (s : bytes) : result DecodeHexError bytes :=
  let b := default s (from_hex s) in
  if decide (length b ≤ MAX_MAINCHAIN_ADDRESS_BYTES)%nat then Ok b else Err InvalidLength.

Inductive AssetIdError := BadAssetFormat | InvalidPolicyId (e : DecodeHexError) | InvalidAssetName (e : DecodeHexError).

Definition asset_id_from_str (s : bytes) : result AssetIdError AssetId :=
  match split_once 46 s with
  | Some (policy_id, asset_name) =>
      policy_id ← map_err InvalidPolicyId (decode_hex_array POLICY_ID_LEN policy_id);
      asset_name ← map_err InvalidAssetName (decode_hex_bounded MAX_ASSET_NAME_LEN asset_name);
      Ok (mkAssetId policy_id asset_name)
  | None => Err BadAssetFormat
  end.

(** ** Keys of candidates *)

Inductive KeysError := InvalidKeyTypeId | KeyNotHex | BadKeyFormat | BadLegacyFormat.

Definition candidate_key_from_str (s : bytes) : result KeysError CandidateKey :=
  match split_once 58 s with
  | Some (id, b) =>
      if decide (length id = 4%nat) then
        b ← ok_or (hex_decode (trim_start_0x b)) KeyNotHex;
        Ok (mkCandidateKey id b)
      else Err InvalidKeyTypeId
  | None => Err BadKeyFormat
  end.

Definition is_legacy_format (line : bytes) : bool := contains 58 line && negb (contains 44 line).

Definition parse_legacy_format (line : bytes) : result KeysError PermissionedCandidateData :=
  match split 58 (remove_0x line) with
  | [sidechain_pub_key; aura_pub_key; grandpa_pub_key] =>
      sidechain_pub_key ← ok_or (hex_decode sidechain_pub_key) KeyNotHex;
      aura_pub_key ← ok_or (hex_decode aura_pub_key) KeyNotHex;
      grandpa_pub_key ← ok_or (hex_decode grandpa_pub_key) KeyNotHex;
      Ok (mkPermissionedCandidateData sidechain_pub_key
           [mkCandidateKey AURA aura_pub_key; mkCandidateKey GRANDPA grandpa_pub_key])
  | _ => Err BadLegacyFormat
  end.

Definition parse_generic_format (line : bytes) : result KeysError PermissionedCandidateData :=
  match split 44 line with
  | partner_chains_key :: columns =>
      partner_chains_key ← ok_or (hex_decode (trim_start_0x partner_chains_key)) KeyNotHex;
      keys ← mapM candidate_key_from_str columns;
      Ok (mkPermissionedCandidateData partner_chains_key keys)
  | [] => Err BadKeyFormat
  end.

Definition permissioned_candidate_from_str (line : bytes) : result KeysError PermissionedCandidateData :=
  if is_legacy_format line then parse_legacy_format line else parse_generic_format line.
End Formats.

(** ** Bounded strings *)

Inductive BoundedStringError := TooLong | NotUtf8.

(** [Decode], after the bounded vector has been decoded. *)
Definition bounded_string_decode (max : nat) (b : bytes) : result BoundedStringError bytes :=
  if decide (length b ≤ max)%nat then ok_or (from_utf8 b) NotUtf8 else Err TooLong.
(** [TryFrom<&str>] and [Deserialize] *)
Definition bounded_string_try_from (max : nat) (s : bytes) : result BoundedStringError bytes :=
  if decide (length s ≤ max)%nat then Ok s else Err TooLong.
(** [Display] and [Serialize] *)
Definition bounded_string_to_str (b : bytes) : result BoundedStringError bytes := ok_or (from_utf8 b) NotUtf8.

(** ** Lemmas *)

Lemma split_no_sep c s : c ∉ s → split c s = [s].
Proof.
  induction s as [|x s IH]; [done|]. intros [Hx Hs]%not_elem_of_cons. simpl.
  destruct (Z.eqb_spec x c); [congruence|]. by rewrite (IH Hs).
Qed.
Lemma split_app c l r : c ∉ l → split c (l ++ c :: r) = l :: split c r.
Proof.
  induction l as [|x l IH]; simpl; [by rewrite Z.eqb_refl|]. intros [Hx Hs]%not_elem_of_cons.
  destruct (Z.eqb_spec x c); [congruence|]. by rewrite (IH Hs).
Qed.
Lemma split_once_app c l r : c ∉ l → split_once c (l ++ c :: r) = Some (l, r).
Proof.
  induction l as [|x l IH]; simpl; [by rewrite Z.eqb_refl|]. intros [Hx Hs]%not_elem_of_cons.
  destruct (Z.eqb_spec x c); [congruence|]. by rewrite (IH Hs).
Qed.

Lemma contains_spec c s : contains c s = true ↔ c ∈ s.
Proof.
  unfold contains. rewrite existsb_exists. split.
  - intros (x & Hx%list_elem_of_In & ->%Z.eqb_eq). done.
  - intros Hx. exists c. by rewrite <-list_elem_of_In, Z.eqb_refl.
Qed.
Lemma not_contains c s : contains c s = false ↔ c ∉ s.
Proof. rewrite <-contains_spec. by destruct (contains c s). Qed.

Lemma remove_0x_no_x s : 120 ∉ s → remove_0x s = s.
Proof.
  induction s as [|x s IH]; [done|]. intros [_ Hs]%not_elem_of_cons. rewrite <-(IH Hs) at 2.
  cbn [remove_0x]. destruct s as [|y s]; [by repeat case_match|].
  assert (y ≠ 120) by (intros ->; by apply Hs, list_elem_of_here). repeat (case_match; simplify_eq; try done).
Qed.
Lemma remove_0x_app l r : 120 ∉ l → (∀ y r', r = y :: r' → y ≠ 120) → remove_0x (l ++ r) = l ++ remove_0x r.
Proof.
  intros Hl Hr. induction l as [|x l IH]; [done|]. apply not_elem_of_cons in Hl as [_ Hl].
  simpl ((x :: l) ++ r). rewrite <-app_comm_cons, <-(IH Hl). cbn [remove_0x].
  destruct (l ++ r) as [|y s] eqn:Hs; [by repeat case_match|].
  assert (y ≠ 120).
  { destruct l as [|z l]; simplify_eq/=; [by eapply Hr|]. intros ->. by apply Hl, list_elem_of_here. }
  repeat (case_match; simplify_eq; try done).
Qed.

(** Integers read back what is displayed. *)
Lemma digit_of n : 0 ≤ n < 10 → digit (48 + n) = Some n.
Proof. intros Hn. unfold digit. rewrite !(proj2 (Z.leb_le _ _)) by lia. simpl. f_equal. lia. Qed.
Lemma parse_digits_digits fuel n acc : 0 ≤ n < 10 ^ Z.of_nat fuel → (0 < fuel)%nat →
  parse_digits 0 (digits fuel n acc) = parse_digits n acc.
Proof.
  revert n acc. induction fuel as [|fuel IH]; intros n acc Hn Hf; [lia|]. cbn [digits].
  destruct (Z.ltb_spec n 10).
  - cbn [parse_digits]. rewrite digit_of by lia. simpl. f_equal. 
  - rewrite IH.
    + cbn [parse_digits]. rewrite digit_of by (apply Z.mod_pos_bound; lia). simpl. f_equal.
      rewrite (Z.div_mod n 10) at 3 by lia. lia.
    + rewrite Nat2Z.inj_succ, Z.pow_succ_r in Hn by lia.
      split; [apply Z.div_pos; lia|]. apply Z.div_lt_upper_bound; lia.
    + destruct fuel; [|lia]. simpl in Hn. lia.
Qed.
Lemma digits_chars fuel n acc : 0 ≤ n → Forall (λ x, 48 ≤ x ≤ 57) acc → Forall (λ x, 48 ≤ x ≤ 57) (digits fuel n acc).
Proof.
  revert n acc. induction fuel as [|fuel IH]; intros n acc Hn Hacc; [done|]. cbn [digits].
  destruct (Z.ltb_spec n 10); [constructor; [lia|done]|].
  pose proof (Z.mod_pos_bound n 10). apply IH; [apply Z.div_pos; lia|]. constructor; [lia|done].
Qed.
Lemma digits_length fuel n acc : (length acc ≤ length (digits fuel n acc))%nat.
Proof.
  revert n acc. induction fuel as [|fuel IH]; intros n acc; [done|]. cbn [digits]. destruct (n <? 10); simpl; [lia|].
  etrans; [|apply IH]. simpl. lia.
Qed.
Lemma digits_nonempty fuel n acc : (0 < fuel)%nat → digits fuel n acc ≠ [].
Proof.
  intros Hf He. destruct fuel as [|fuel]; [lia|]. cbn [digits] in He. destruct (n <? 10); [done|].
  pose proof (digits_length fuel (n / 10) (48 + n mod 10 :: acc)) as Hl. rewrite He in Hl. simpl in Hl. lia.
Qed.
Lemma display_uint_spec n : 0 ≤ n < 10 ^ 40 →
  ∃ x s, display_uint n = x :: s ∧ Forall (λ x, 48 ≤ x ≤ 57) (x :: s) ∧ parse_digits 0 (x :: s) = Some n.
Proof.
  intros Hn. pose proof (digits_chars 40 n [] ltac:(lia) (Forall_nil_2 _)) as Hc.
  pose proof (parse_digits_digits 40 n [] Hn ltac:(lia)) as Hp.
  pose proof (digits_nonempty 40 n [] ltac:(lia)). unfold display_uint. destruct (digits 40 n []) as [|x s]; [done|]. eauto.
Qed.
Lemma uint_from_str_display w n : 0 ≤ n < u_bound w → n < 10 ^ 40 → uint_from_str w (display_uint n) = Some n.
Proof.
  intros Hn H40. destruct (display_uint_spec n) as (x & s & -> & [Hx _]%Forall_cons & Hp); [lia|].
  unfold uint_from_str. destruct (decide (x = 43)) as [->|]; [lia|].
  replace (match x with 43 => _ | _ => _ end) with (x :: s) by (repeat case_match; simplify_eq; done).
  unfold parse_nonempty. simpl is_empty. cbv iota. rewrite Hp. simpl. destruct (Z.ltb_spec n (u_bound w)); [done|lia].
Qed.
Lemma int_from_str_display w n : 0 ≤ n < 10 ^ 40 → 0 < w →
  int_from_str w (display_uint n) = if n <? u_bound (w - 1) then Some n else None.
Proof.
  intros Hn Hw. destruct (display_uint_spec n Hn) as (x & s & -> & [Hx _]%Forall_cons & Hp).
  unfold int_from_str.
  replace (match x with 43 => _ | 45 => _ | _ => _ end) with (parse_nonempty (x :: s))
    by (repeat case_match; simplify_eq; try done; lia).
  unfold parse_nonempty. simpl is_empty. cbv iota. rewrite Hp. simpl.
  assert (0 < u_bound (w - 1)) by (apply Z.pow_pos_nonneg; lia).
  rewrite (proj2 (Z.leb_le _ _)) by lia. done.
Qed.

Section FormatLemmas.
Context `{HexLaws}.

(** Hex text with or without the prefix. *)
Definition hex_text (prefix : bool) (b : bytes) : bytes :=
  if prefix then 48 :: 120 :: hex_encode b else hex_encode b.

Lemma hex_text_no c prefix b : Forall is_byte b → ¬ hex_digit c → c ≠ 120 → c ∉ hex_text prefix b.
Proof.
  intros Hb Hc Hx. pose proof (hex_encode_digits b Hb) as Hd. rewrite Forall_forall in Hd.
  assert (c ≠ 48) by (intros ->; apply Hc; left; lia).
  unfold hex_text. destruct prefix; rewrite ?not_elem_of_cons; naive_solver.
Qed.
Lemma hex_encode_no_x b : Forall is_byte b → 120 ∉ hex_encode b.
Proof. intros Hb Hx. pose proof (hex_encode_digits b Hb) as Hd. rewrite Forall_forall in Hd. destruct (Hd _ Hx); lia. Qed.
Lemma from_hex_text prefix b : Forall is_byte b → from_hex (hex_text prefix b) = Some b.
Proof. intros Hb. destruct prefix; [by apply from_hex_prefixed|by apply from_hex_plain]. Qed.

Lemma trim_hex_text prefix b : Forall is_byte b → trim_start_0x (hex_text prefix b) = hex_encode b.
Proof.
  intros Hb. assert (trim_start_0x (hex_encode b) = hex_encode b) as Hplain.
  { pose proof (hex_encode_no_x b Hb) as Hx. destruct (hex_encode b) as [|x [|y s]]; simpl; [done|by repeat case_match|].
    assert (y ≠ 120) by (intros ->; by apply Hx, list_elem_of_further, list_elem_of_here).
    repeat (case_match; simplify_eq; try done). }
  by destruct prefix.
Qed.
Lemma remove_0x_hex_text prefix b r : Forall is_byte b → (∀ y r', r = y :: r' → y ≠ 120) →
  remove_0x (hex_text prefix b ++ r) = hex_encode b ++ remove_0x r.
Proof. intros Hb Hr. destruct prefix; simpl; by apply remove_0x_app; [apply hex_encode_no_x|]. Qed.

Lemma remove_0x_column prefix b r : Forall is_byte b → (∀ y r', r = y :: r' → y ≠ 120) →
  remove_0x (58 :: hex_text prefix b ++ r) = 58 :: hex_encode b ++ remove_0x r.
Proof.
  intros Hb Hr. change (58 :: hex_text prefix b ++ r) with ([58] ++ hex_text prefix b ++ r).
  rewrite remove_0x_app; [simpl; f_equal; by apply remove_0x_hex_text|rewrite list_elem_of_singleton; lia|].
  intros y r' Hy ->. destruct prefix; [done|]. simpl in Hy. pose proof (hex_encode_no_x b Hb) as Hx.
  destruct (hex_encode b) as [|z l]; simplify_eq/=; [by eapply Hr|]. by apply Hx, list_elem_of_here.
Qed.

Definition utxo_id_wf (u : UtxoId) : Prop :=
  Forall is_byte (tx_hash u) ∧ length (tx_hash u) = 32%nat ∧ in_u 16 (utxo_index u).

(** A UTxO identifier reads back, if its index is in the documented range. *)
Lemma utxo_id_from_str_display u : utxo_id_wf u →
  utxo_id_from_str (utxo_id_display u) = if utxo_index u <? 2 ^ 15 then Ok u else Err InvalidIndex.
Proof.
  destruct u as [h i]. intros (Hb & Hl & Hi1 & Hi2). unfold utxo_id_from_str, utxo_id_display. cbn [tx_hash utxo_index] in *.
  change (u_bound 16) with 65536 in Hi2.
  assert (0 ≤ i < 10 ^ 40) as H40 by lia.
  rewrite hex_display_eq, split_app by (done || by apply (hex_text_no 35 false h Hb); [intros []; lia|]).
  assert (35 ∉ display_uint i) as Hno.
  { destruct (display_uint_spec i H40) as (x & s & -> & Hc & _). rewrite Forall_forall in Hc. intros Hin%Hc. lia. }
  rewrite (split_no_sep _ _ Hno). unfold decode_hex_array. rewrite from_hex_plain by done. simpl.
  rewrite decide_True by done. simpl. unfold utxo_index_from_str.
  rewrite uint_from_str_display by (change (u_bound 16) with 65536; lia). simpl.
  rewrite int_from_str_display by lia. change (u_bound (16 - 1)) with (2 ^ 15). by destruct (_ <? _).
Qed.

Lemma asset_id_from_str_text p1 p2 policy name :
  Forall is_byte policy → length policy = POLICY_ID_LEN → Forall is_byte name → (length name ≤ MAX_ASSET_NAME_LEN)%nat →
  asset_id_from_str (hex_text p1 policy ++ 46 :: hex_text p2 name) = Ok (mkAssetId policy name).
Proof.
  intros Hp Hpl Hn Hnl. unfold asset_id_from_str.
  rewrite split_once_app by (apply hex_text_no; [done|intros []; lia|done]).
  unfold decode_hex_array, decode_hex_bounded. rewrite !from_hex_text by done. simpl. rewrite !decide_True by done. done.
Qed.

(** The two documented formats of permissioned candidates. *)
Definition key_text (prefix : bool) (k : CandidateKey) : bytes := key_id k ++ 58 :: hex_text prefix (key_bytes k).
Definition generic_line (prefix : bool) (d : PermissionedCandidateData) : bytes :=
  hex_text prefix (sidechain_public_key d) ++ concat ((λ k, 44 :: key_text prefix k) <$> permissioned_keys d).
Definition legacy_line (prefix : bool) (sidechain aura grandpa : bytes) : bytes :=
  hex_text prefix sidechain ++ 58 :: hex_text prefix aura ++ 58 :: hex_text prefix grandpa.

Definition key_wf (k : CandidateKey) : Prop :=
  length (key_id k) = 4%nat ∧ (44 ∉ key_id k) ∧ (58 ∉ key_id k) ∧ Forall is_byte (key_bytes k).

Lemma candidate_key_from_str_text prefix k : key_wf k → candidate_key_from_str (key_text prefix k) = Ok k.
Proof.
  intros (Hl & _ & Hno & Hb). unfold candidate_key_from_str, key_text. rewrite split_once_app by done.
  rewrite decide_True by done. rewrite trim_hex_text, hex_decode_encode by done. by destruct k.
Qed.

Lemma key_text_no_comma prefix k : key_wf k → 44 ∉ key_text prefix k.
Proof.
  intros (_ & Hno & _ & Hb). unfold key_text. rewrite not_elem_of_app, not_elem_of_cons. split_and!; [done|lia|].
  apply hex_text_no; [done|intros []; lia|lia].
Qed.

Lemma split_columns piece columns : 44 ∉ piece → Forall (λ c, 44 ∉ c) columns →
  split 44 (piece ++ concat (cons 44 <$> columns)) = piece :: columns.
Proof.
  intros Hp Hc. revert piece Hp. induction Hc as [|c columns Hc _ IH]; intros piece Hp; simpl.
  - rewrite app_nil_r. by apply split_no_sep.
  - by rewrite split_app, IH.
Qed.

Lemma generic_line_parse prefix d :
  Forall is_byte (sidechain_public_key d) → Forall key_wf (permissioned_keys d) →
  permissioned_candidate_from_str (generic_line prefix d) = Ok d.
Proof.
  intros Hb Hk. destruct d as [pk keys]. cbn [sidechain_public_key permissioned_keys] in *.
  assert (44 ∉ hex_text prefix pk) as Hno by (apply hex_text_no; [done|intros []; lia|lia]).
  unfold permissioned_candidate_from_str, generic_line. cbn [sidechain_public_key permissioned_keys].
  replace (is_legacy_format _) with false; [|symmetry; unfold is_legacy_format].
  - unfold parse_generic_format.
    replace ((λ k, 44 :: key_text prefix k) <$> keys) with (cons 44 <$> (key_text prefix <$> keys)) by (by rewrite <-list_fmap_compose).
    rewrite split_columns; [|done|]. 2:{ apply Forall_fmap. eapply Forall_impl; [exact Hk|]. intros k. apply key_text_no_comma. }
    rewrite trim_hex_text, hex_decode_encode by done. simpl.
    replace (mapM _ _) with (Ok (E:=KeysError) keys); [done|]. symmetry. clear Hno. induction Hk as [|k keys Hk _ IH]; [done|].
    cbn [fmap list_fmap mapM]. rewrite candidate_key_from_str_text by done. simpl. by rewrite IH.
  - destruct keys as [|k keys]; simpl.
    + rewrite app_nil_r. replace (contains 58 _) with false; [done|]. symmetry. apply not_contains, hex_text_no; [done|intros []; lia|lia].
    + apply andb_false_intro2, negb_false_iff, contains_spec, elem_of_app. right. apply list_elem_of_here.
Qed.

Lemma legacy_line_parse prefix sidechain aura grandpa :
  Forall is_byte sidechain → Forall is_byte aura → Forall is_byte grandpa →
  permissioned_candidate_from_str (legacy_line prefix sidechain aura grandpa)
  = Ok (mkPermissionedCandidateData sidechain [aura_key aura; grandpa_key grandpa]).
Proof.
  intros Hs Ha Hg. assert (∀ c b, Forall is_byte b → ¬ hex_digit c → c ≠ 120 → c ∉ hex_encode b) as Hno.
  { intros c b. apply (hex_text_no c false). }
  assert (¬ hex_digit 58 ∧ ¬ hex_digit 44) as [H58 H44] by (split; intros []; lia).
  unfold permissioned_candidate_from_str, legacy_line.
  replace (is_legacy_format _) with true; [|symmetry; unfold is_legacy_format; apply andb_true_intro; split].
  - unfold parse_legacy_format.
    assert (remove_0x (hex_text prefix sidechain ++ 58 :: hex_text prefix aura ++ 58 :: hex_text prefix grandpa)
      = hex_encode sidechain ++ 58 :: hex_encode aura ++ 58 :: hex_encode grandpa) as ->.
    { rewrite remove_0x_hex_text, remove_0x_column by (done || by intros ? ? [= <-]). do 3 f_equal.
      pose proof (remove_0x_column prefix grandpa [] Hg ltac:(done)) as Hr. by rewrite !app_nil_r in Hr. }
    rewrite split_app, split_app, split_no_sep by (by apply Hno).
    by rewrite !hex_decode_encode.
  - apply contains_spec, elem_of_app. right. apply list_elem_of_here.
  - apply negb_true_iff, not_contains. rewrite !not_elem_of_app, !not_elem_of_cons, !not_elem_of_app, !not_elem_of_cons.
    split_and!; try lia; by apply hex_text_no.
Qed.
End FormatLemmas.

(** What is written as text is read back.  A UTxO identifier is read back as
    it is displayed exactly if its index is in the documented range of 15 bits.
    Assets and permissioned candidates, in the generic and in the legacy format,
    are read from their documented formats, with and without the prefix 0x.  An
    address is read back unless its text is itself hexadecimal. *)
Theorem text_formats_roundtrip `{HexLaws} :
  (∀ u, utxo_id_wf u →
     (utxo_id_from_str (utxo_id_display u) = Ok u ↔ utxo_index u < 2 ^ 15)) ∧
  (∀ p1 p2 policy name, Forall is_byte policy → length policy = POLICY_ID_LEN →
     Forall is_byte name → (length name ≤ MAX_ASSET_NAME_LEN)%nat →
     asset_id_from_str (hex_text p1 policy ++ 46 :: hex_text p2 name) = Ok (mkAssetId policy name)) ∧
  (∀ prefix d, Forall is_byte (sidechain_public_key d) → Forall key_wf (permissioned_keys d) →
     permissioned_candidate_from_str (generic_line prefix d) = Ok d) ∧
  (∀ prefix sidechain aura grandpa, Forall is_byte sidechain → Forall is_byte aura → Forall is_byte grandpa →
     permissioned_candidate_from_str (legacy_line prefix sidechain aura grandpa)
     = Ok (mkPermissionedCandidateData sidechain [aura_key aura; grandpa_key grandpa])) ∧
  (∀ s address, address_from_str s = Ok address → from_utf8 s = Some s → from_hex s = None →
     ∃ text, address_to_str address = Ret text ∧ address_deserialize text = Ok address).
Proof.
  split_and!.
  - intros u Hu. rewrite utxo_id_from_str_display by done. destruct (Z.ltb_spec (utxo_index u) (2 ^ 15)); naive_solver lia.
  - apply asset_id_from_str_text.
  - apply generic_line_parse.
  - apply legacy_line_parse.
  - intros s address Hs Hutf Hhex. unfold address_from_str in Hs. case_decide as Hl; [|done]. injection Hs as <-.
    exists s. unfold address_to_str, address_deserialize. rewrite Hutf, Hhex. simpl. by rewrite decide_True.
Qed.

(** ** Witness: hexadecimal digits *)

Definition nibble (x : Z) : Z := if x <? 10 then 48 + x else 87 + x.
Definition nibble_value (x : Z) : option Z :=
  if (48 <=? x) && (x <=? 57) then Some (x - 48)
  else if (97 <=? x) && (x <=? 102) then Some (x - 87) else None.
Definition plain_encode (b : bytes) : bytes := concat ((λ x, [nibble (x / 16); nibble (x mod 16)]) <$> b).
Fixpoint plain_decode (s : bytes) : option bytes :=
  match s with
  | [] => Some []
  | x :: y :: s => h ← nibble_value x; l ← nibble_value y; b ← plain_decode s; Some (h * 16 + l :: b)
  | _ => None
  end.
#[local] Instance plain_hex : Hex := {|
  to_hex b := 48 :: 120 :: plain_encode b;
  from_hex s := plain_decode match s with 48 :: 120 :: s => s | _ => s end;
  hex_display := plain_encode;
  hex_encode := plain_encode;
  hex_decode := plain_decode;
|}.

Lemma nibble_spec x : 0 ≤ x < 16 → hex_digit (nibble x) ∧ nibble_value (nibble x) = Some x.
Proof.
  intros Hx. assert (x ∈ seqZ 0 16) as Hin by (apply elem_of_seqZ; lia). revert Hin. vm_compute seqZ.
  rewrite !elem_of_cons. unfold hex_digit. intros Hin.
  repeat (destruct Hin as [->|Hin]; [split; [vm_compute; first [left; split; discriminate|right; split; discriminate]|reflexivity]|]).
  by apply not_elem_of_nil in Hin.
Qed.
Lemma byte_nibbles x : is_byte x → 0 ≤ x / 16 < 16 ∧ 0 ≤ x mod 16 < 16.
Proof.
  intros [H1 H2]. change (u_bound 8) with 256 in H2. split; [|apply Z.mod_pos_bound; lia].
  split; [apply Z.div_pos; lia|apply Z.div_lt_upper_bound; lia].
Qed.
Lemma plain_decode_encode b : Forall is_byte b → plain_decode (plain_encode b) = Some b.
Proof.
  induction 1 as [|x b Hx _ IH]; [done|]. destruct (byte_nibbles x Hx) as [Hh Hl]. unfold plain_encode in *.
  cbn [fmap list_fmap concat app plain_decode]. rewrite (proj2 (nibble_spec _ Hh)), (proj2 (nibble_spec _ Hl)). simpl.
  rewrite IH. simpl. do 2 f_equal. rewrite (Z.div_mod x 16) at 3 by lia. lia.
Qed.
Lemma plain_encode_digits b : Forall is_byte b → Forall hex_digit (plain_encode b).
Proof.
  induction 1 as [|x b Hx _ IH]; [constructor|]. destruct (byte_nibbles x Hx) as [Hh Hl]. unfold plain_encode.
  cbn [fmap list_fmap concat app]. constructor; [by apply nibble_spec|]. constructor; [by apply nibble_spec|done].
Qed.
#[local] Instance plain_hex_laws : HexLaws.
Proof.
  split; simpl; try done.
  - apply plain_encode_digits.
  - apply plain_decode_encode.
  - intros b Hb. etrans; [|apply (plain_decode_encode b Hb)]. pose proof (plain_encode_digits b Hb) as Hd.
    destruct (plain_encode b) as [|x [|y s]]; [done|by repeat case_match|].
    apply Forall_cons in Hd as [_ [Hy _]%Forall_cons]. destruct (decide (y = 120)) as [->|]; [destruct Hy; lia|].
    repeat (case_match; simplify_eq; try done).
  - apply plain_decode_encode.
Qed.

Definition example_candidate : PermissionedCandidateData :=
  mkPermissionedCandidateData [2; 171] [mkCandidateKey AURA [255]; mkCandidateKey [98; 97; 98; 101] [16; 1]].

Lemma text_formats_roundtrip_witness :
  utxo_id_from_str (utxo_id_display (mkUtxoId (replicate 32 171) 32767)) = Ok (mkUtxoId (replicate 32 171) 32767) ∧
  permissioned_candidate_from_str (generic_line true example_candidate) = Ok example_candidate.
Proof.
  destruct text_formats_roundtrip as (Hutxo & _ & Hgeneric & _ & _). split.
  - apply Hutxo; [|done]. split_and!; [|done|by vm_compute]. apply Forall_replicate. by vm_compute.
  - apply Hgeneric; repeat constructor; try (by vm_compute); intros Hin%list_elem_of_In; simpl in Hin; lia.
Defined.
