(* ===== verification/GovernedMap.v ===== *)
(** * The Governed Map

    - [toolkit/governed-map/pallet/src/lib.rs]: the pallet that stores the
      key-value pairs and applies the changes observed on Cardano;
    - [toolkit/governed-map/primitives/src/lib.rs]: the inherent data provider
      that computes the changes, and the interface of its data source.

    Keys are the bytes of UTF-8 strings.  The handler of changes
    ([OnGovernedMappingChange]) is a function on its own state. *)

From S2P Require Import Prelude Domain.

Record MainChainScriptsV1 := mkScriptsV1 {
  validator_address : bytes;
  asset_policy_id : bytes;
}.

#[global] Instance MainChainScriptsV1_eq_dec : EqDecision MainChainScriptsV1.
Proof. solve_decision. Defined.

Inductive InherentError :=
  | InherentMissing
  | InherentNotExpected
  | IncorrectInherent
  | KeyExceedsBounds (key : bytes)
  | ValueExceedsBounds (key value : bytes)
  | TooManyChanges.

(** [Changes] and [GovernedMapInherentDataV1]: [None] is a deletion. *)
Abbreviation Changes := (gmap bytes (option bytes)).

(** ** The pallet *)

Record MapConfig := mkMapConfig {
  MaxChanges : Z;
  MaxKeyLength : Z;
  MaxValueLength : Z;
}.

Inductive MapError := InherentCalledTwice | MainChainScriptNotSet | MapBadOrigin.

Inductive MapCall :=
  | call_register_changes (changes : Changes)
  | call_set_main_chain_scripts (scripts : MainChainScriptsV1).

#[global] Instance MapCall_eq_dec : EqDecision MapCall.
Proof. solve_decision. Defined.

Class OnGovernedMappingChange (H : Type) :=
  on_governed_mapping_change : bytes → option bytes → option bytes → H → H.

Record MapState (H : Type) := mkMap {
  Initialized : bool;
  LastUpdateBlock : option Z;
  Mapping : gmap bytes bytes;
  MainChainScripts : option MainChainScriptsV1;
  handler_state : H;
}.
Arguments mkMap {H} _ _ _ _ _.
Arguments Initialized {H} _.
Arguments LastUpdateBlock {H} _.
Arguments Mapping {H} _.
Arguments MainChainScripts {H} _.
Arguments handler_state {H} _.

Section Pallet.
Context {H : Type} `{!OnGovernedMappingChange H} (config : MapConfig).

Definition map_genesis (scripts : option MainChainScriptsV1) (h : H) : MapState H :=
  mkMap false None ∅ scripts h.

Definition bound_key (key : bytes) : result InherentError bytes :=
  if Z.of_nat (length key) <=? MaxKeyLength config then Ok key else Err (KeyExceedsBounds key).

Definition bound_value (key value : bytes) : result InherentError bytes :=
  if Z.of_nat (length value) <=? MaxValueLength config then Ok value
  else Err (ValueExceedsBounds key value).

Fixpoint bound_changes (raw_changes : list (bytes * option bytes)) (changes : Changes) :
    result InherentError Changes :=
  match raw_changes with
  | [] => Ok changes
  | (key, new_value) :: raw_changes =>
      new_value ← match new_value with
                  | Some v => v ← bound_value key v; Ok (Some v)
                  | None => Ok None
                  end;
      key ← bound_key key;
      bound_changes raw_changes (<[key := new_value]> changes)
  end.

(** The data decoded from the inherent, if any; [s] is the state at the
    beginning of the block. *)
Definition create_inherent_or_err (s : MapState H) (data : option Changes) :
    result InherentError (option MapCall) :=
  match data with
  | None => Ok None
  | Some raw_changes =>
      if bool_decide (raw_changes = ∅) && Initialized s then Ok None
      else if MaxChanges config <? Z.of_nat (size raw_changes) then Err TooManyChanges
      else
        changes ← bound_changes (btree_iter raw_changes) ∅;
        Ok (Some (call_register_changes changes))
  end.

Definition create_inherent (s : MapState H) (data : option Changes) : outcome (option MapCall) :=
  match create_inherent_or_err s data with Ok c => Ret c | Err _ => Panic end.

Definition check_inherent (s : MapState H) (call : MapCall) (data : option Changes) :
    outcome (result InherentError unit) :=
  expected ← create_inherent s data;
  match expected with
  | None => Ret (Err InherentNotExpected)
  | Some expected_call =>
      if bool_decide (call ≠ expected_call) then Ret (Err IncorrectInherent) else Ret (Ok tt)
  end.

Definition is_inherent (call : MapCall) : bool :=
  match call with call_register_changes _ => true | _ => false end.

Definition is_inherent_required (s : MapState H) (data : option Changes) :
    result InherentError (option InherentError) :=
  match data with
  | None => Ok None
  | Some changes =>
      if bool_decide (changes = ∅) && Initialized s then Ok None else Ok (Some InherentMissing)
  end.

(** One iteration of the loop of [register_changes]: [Mapping::set] stores or
    removes, the handler is told the new and the old value. *)
Definition apply_change (change : bytes * option bytes) (m : gmap bytes bytes * H) : gmap bytes bytes * H :=
  let '(key, value) := change in
  let old_value := m.1 !! key in
  (partial_alter (λ _, value) key m.1, on_governed_mapping_change key value old_value m.2).

Definition register_changes (none_origin : bool) (current_block : Z) (changes : Changes) (s : MapState H) :
    result MapError (MapState H) :=
  _ ← ensure none_origin MapBadOrigin;
  _ ← ensure (match LastUpdateBlock s with None => true | Some last_block => last_block <? current_block end)
        InherentCalledTwice;
  _ ← ensure (bool_decide (is_Some (MainChainScripts s))) MainChainScriptNotSet;
  let '(mapping, h) := foldl (flip apply_change) (Mapping s, handler_state s) (btree_iter changes) in
  Ok (mkMap true (Some current_block) mapping (MainChainScripts s) h).

Definition set_main_chain_scripts (allowed : bool) (scripts : MainChainScriptsV1) (s : MapState H) :
    result MapError (MapState H) :=
  _ ← ensure allowed MapBadOrigin;
  Ok (mkMap false (LastUpdateBlock s) (Mapping s) (Some scripts) (handler_state s)).
End Pallet.

(** ** The inherent data provider *)

Inductive MapProvider := MapInert | MapActiveV1 (data : Changes).

Inductive InherentProviderCreationError (E F : Type) :=
  | MapApiError (e : E)
  | MapDataSourceError (e : F)
  | UnsupportedPalletVersion (version supported : Z).
Arguments MapApiError {E F} _.
Arguments MapDataSourceError {E F} _.
Arguments UnsupportedPalletVersion {E F} _ _.

Record MapApi (E : Type) := mkMapApi {
  has_map_api : result E bool;
  api_is_initialized : result E bool;
  api_get_current_state : result E (gmap bytes bytes);
  api_get_main_chain_scripts : result E (option MainChainScriptsV1);
  api_get_pallet_version : result E Z;
}.
Arguments mkMapApi {E} _ _ _ _ _.
Arguments has_map_api {E} _.
Arguments api_is_initialized {E} _.
Arguments api_get_current_state {E} _.
Arguments api_get_main_chain_scripts {E} _.
Arguments api_get_pallet_version {E} _.

(** The data source, and what its documentation promises with respect to the
    history of the map on Cardano: [state_at scripts block] is the content of
    the map after [block]. *)
Class GovernedMapDataSource (F : Type) := {
  get_state_at_block : bytes → MainChainScriptsV1 → result F (gmap bytes bytes);
  get_mapping_changes : option bytes → bytes → MainChainScriptsV1 → result F (list (bytes * option bytes));
}.

Definition apply_changes (changes : list (bytes * option bytes)) (m : gmap bytes bytes) : gmap bytes bytes :=
  foldl (λ m '(key, value), partial_alter (λ _, value) key m) m changes.

Class GovernedMapDataSourceLaws `{GovernedMapDataSource F}
    (state_at : MainChainScriptsV1 → bytes → gmap bytes bytes)
    (precedes : bytes → bytes → Prop) : Prop := {
  state_at_block_spec block scripts m :
    get_state_at_block block scripts = Ok m → m = state_at scripts block;
  mapping_changes_spec since up_to scripts changes :
    precedes since up_to → get_mapping_changes (Some since) up_to scripts = Ok changes →
    apply_changes changes (state_at scripts since) = state_at scripts up_to;
}.

Section Provider.
Context {E F : Type} `{!GovernedMapDataSource F}.
Abbreviation creation := (result (InherentProviderCreationError E F)).

Definition collect_changes (raw_changes : list (bytes * option bytes)) : Changes :=
  foldl (λ changes '(key, value), <[key := value]> changes) ∅ raw_changes.

(** The difference between the stored state and the state on Cardano. *)
Definition state_difference (current_state new_state : gmap bytes bytes) : Changes :=
  let changes := foldl (λ changes key,
      if bool_decide (is_Some (new_state !! key)) then changes else <[key := None]> changes)
    ∅ (btree_iter current_state).*1 in
  foldl (λ changes '(key, value),
      if bool_decide (current_state !! key ≠ Some value) then <[key := Some value]> changes else changes)
    changes (btree_iter new_state).

Definition new_v1 (api : MapApi E) (mc_hash : bytes) (parent_mc_hash : option bytes) : creation MapProvider :=
  scripts ← map_err MapApiError (api_get_main_chain_scripts api);
  match scripts with
  | None => Ok MapInert
  | Some main_chain_script =>
      initialized ← map_err MapApiError (api_is_initialized api);
      if (initialized : bool) then
        raw_changes ← map_err MapDataSourceError (get_mapping_changes parent_mc_hash mc_hash main_chain_script);
        Ok (MapActiveV1 (collect_changes raw_changes))
      else
        new_state ← map_err MapDataSourceError (get_state_at_block mc_hash main_chain_script);
        current_state ← map_err MapApiError (api_get_current_state api);
        Ok (MapActiveV1 (state_difference current_state new_state))
  end.

Definition new (api : MapApi E) (mc_hash : bytes) (parent_mc_hash : option bytes) : creation MapProvider :=
  has_api ← map_err MapApiError (has_map_api api);
  if negb has_api then Ok MapInert
  else
    version ← map_err MapApiError (api_get_pallet_version api);
    if version =? 1 then new_v1 api mc_hash parent_mc_hash
    else Err (UnsupportedPalletVersion version 1).
End Provider.

Definition provide_inherent_data (idp : MapProvider) : option Changes :=
  match idp with MapActiveV1 data => Some data | MapInert => None end.

(** ** Lemmas *)

(** The value a list of changes gives to a key: that of its last change. *)
Fixpoint last_change (k : bytes) (changes : list (bytes * option bytes)) : option (option bytes) :=
  match changes with
  | [] => None
  | (key, value) :: changes =>
      match last_change k changes with
      | Some v => Some v
      | None => if decide (key = k) then Some value else None
      end
  end.

Lemma lookup_apply_changes changes : ∀ m k,
  apply_changes changes m !! k = default (m !! k) (last_change k changes).
Proof.
  induction changes as [|[key value] changes IH]; intros m k; [done|].
  unfold apply_changes in *. simpl. rewrite IH.
  destruct (last_change k changes) as [v|]; simpl; [done|]. case_decide as Hk.
  - subst. by rewrite lookup_partial_alter_eq.
  - by rewrite lookup_partial_alter_ne.
Qed.

Lemma lookup_collect_changes changes k : collect_changes changes !! k = last_change k changes.
Proof.
  unfold collect_changes.
  cut (∀ acc : Changes, foldl (λ changes '(key, value), <[key := value]> changes) acc changes !! k
       = match last_change k changes with Some v => Some v | None => acc !! k end).
  { intros ->. rewrite lookup_empty. by destruct (last_change k changes). }
  induction changes as [|[key value] changes IH]; intros acc; [done|]. simpl. rewrite IH.
  destruct (last_change k changes) as [v|]; [done|]. case_decide as Hk; subst.
  - by rewrite lookup_insert_eq.
  - by rewrite lookup_insert_ne.
Qed.

(** The iterator of a map of changes changes each key once. *)
Lemma last_change_btree_iter (changes : Changes) k : last_change k (btree_iter changes) = changes !! k.
Proof.
  destruct (changes !! k) as [v|] eqn:Hk.
  - apply elem_of_btree_iter in Hk. pose proof (NoDup_btree_iter_keys changes) as Hnd.
    induction (btree_iter changes) as [|[key value] l IH]; [by apply elem_of_nil in Hk|].
    rewrite fmap_cons in Hnd. apply NoDup_cons in Hnd as [Hkey Hnd]. simpl.
    apply elem_of_cons in Hk as [[= <- <-]|Hin].
    + destruct (last_change k l) as [v'|] eqn:El; [|by rewrite decide_True].
      exfalso. apply Hkey. clear -El. induction l as [|[k' w] l IH]; [done|]. simpl in *.
      apply elem_of_cons. destruct (last_change k l); [right; by apply IH|]. case_decide; [by left|done].
    + by rewrite IH.
  - destruct (last_change k (btree_iter changes)) as [v|] eqn:El; [exfalso|done].
    assert ((k, v) ∈ btree_iter changes) as Hin%elem_of_btree_iter; [|congruence].
    clear Hk. induction (btree_iter changes) as [|[key value] l IH]; [done|]. simpl in El.
    apply elem_of_cons. destruct (last_change k l) as [v'|]; [right; by apply IH|].
    case_decide; [left|done]. by simplify_eq.
Qed.

Lemma bound_changes_lookup config l : ∀ acc changes,
  bound_changes config l acc = Ok changes →
  ∀ k, changes !! k = match last_change k l with Some v => Some v | None => acc !! k end.
Proof.
  induction l as [|[key value] l IH]; intros acc changes; simpl; [by intros [= ->]|].
  destruct (match value with Some v => _ | None => _ end) as [nv|] eqn:Ev; simpl; [|done].
  unfold bound_key. destruct (_ <=? MaxKeyLength config); simpl; [|done].
  assert (nv = value) as ->.
  { destruct value as [v|]; [|by injection Ev]. unfold bound_value in Ev.
    destruct (_ <=? MaxValueLength config); simpl in Ev; [|done]. by injection Ev. }
  intros Hc k. rewrite (IH _ _ Hc k). destruct (last_change k l); [done|]. case_decide; subst.
  - by rewrite lookup_insert_eq.
  - by rewrite lookup_insert_ne.
Qed.

(** The inherent carries the changes of the inherent data. *)
Lemma create_inherent_changes {H} config (s : MapState H) data call :
  create_inherent config s (Some data) = Ret (Some call) → call = call_register_changes data.
Proof.
  unfold create_inherent, create_inherent_or_err. destruct (bool_decide (data = ∅) && Initialized s); [done|].
  destruct (MaxChanges config <? _); [done|].
  destruct (bound_changes config (btree_iter data) ∅) as [changes|] eqn:Hb; simpl; [|done].
  intros [= <-]. f_equal. apply map_eq. intros k. rewrite (bound_changes_lookup _ _ _ _ Hb k).
  rewrite last_change_btree_iter, lookup_empty. by destruct (data !! k).
Qed.

Lemma create_inherent_none {H} config (s : MapState H) data :
  create_inherent config s (Some data) = Ret None → data = ∅ ∧ Initialized s = true.
Proof.
  unfold create_inherent, create_inherent_or_err. destruct (bool_decide (data = ∅)) eqn:Hd; simpl.
  - apply bool_decide_eq_true in Hd. destruct (Initialized s); [done|].
    destruct (MaxChanges config <? _); [done|]. by destruct (bound_changes _ _ _).
  - destruct (MaxChanges config <? _); [done|]. by destruct (bound_changes _ _ _).
Qed.

Lemma foldl_apply_change `{!OnGovernedMappingChange H} l : ∀ m (h : H),
  (foldl (flip apply_change) (m, h) l).1 = apply_changes l m.
Proof.
  induction l as [|[key value] l IH]; intros m h; [done|]. simpl. rewrite IH. done.
Qed.

Lemma register_changes_Ok `{!OnGovernedMappingChange H} none_origin block changes (s s' : MapState H) :
  register_changes none_origin block changes s = Ok s' →
  Initialized s' = true ∧ MainChainScripts s' = MainChainScripts s ∧
  Mapping s' = apply_changes (btree_iter changes) (Mapping s).
Proof.
  unfold register_changes. destruct (ensure none_origin _); simpl; [|done].
  destruct (ensure _ InherentCalledTwice); simpl; [|done]. destruct (ensure _ MainChainScriptNotSet); simpl; [|done].
  destruct (foldl _ _ _) as [m h] eqn:Ef. intros [= <-]. split_and!; [done..|]. simpl.
  by rewrite <-(foldl_apply_change _ _ (handler_state s)), Ef.
Qed.

Lemma lookup_fold_removed (new_state : gmap bytes bytes) k keys : ∀ acc : Changes,
  foldl (λ changes key,
      if bool_decide (is_Some (new_state !! key)) then changes else <[key := None]> changes) acc keys !! k
  = if bool_decide (k ∈ keys ∧ new_state !! k = None) then Some None else acc !! k.
Proof.
  induction keys as [|key keys IH]; intros acc; simpl.
  { done. }
  rewrite IH. destruct (decide (k = key)) as [->|Hne].
  - destruct (new_state !! key) as [v|] eqn:Hn; simpl.
    + rewrite !bool_decide_eq_false_2; [done|naive_solver..].
    + rewrite lookup_insert_eq, (bool_decide_eq_true_2 (key ∈ key :: keys ∧ _)) by (split; [by left|done]).
      by destruct (bool_decide _).
  - rewrite (bool_decide_ext (k ∈ key :: keys ∧ _) (k ∈ keys ∧ new_state !! k = None))
      by (rewrite elem_of_cons; naive_solver).
    case_bool_decide; [done|]. case_bool_decide; [done|]. by rewrite lookup_insert_ne.
Qed.

Lemma lookup_fold_updated (current_state : gmap bytes bytes) k l : ∀ acc : Changes,
  NoDup l.*1 →
  foldl (λ changes '(key, value),
      if bool_decide (current_state !! key ≠ Some value) then <[key := Some value]> changes else changes) acc l !! k
  = match (list_to_map l : gmap bytes bytes) !! k with
    | Some v => if bool_decide (current_state !! k ≠ Some v) then Some (Some v) else acc !! k
    | None => acc !! k
    end.
Proof.
  induction l as [|[key value] l IH]; intros acc Hnd; [done|]. rewrite fmap_cons in Hnd.
  apply NoDup_cons in Hnd as [Hkey Hnd]. cbn [foldl]. rewrite IH by done. rewrite list_to_map_cons.
  destruct (decide (k = key)) as [->|Hne].
  - rewrite not_elem_of_list_to_map_1, lookup_insert_eq by done.
    case_bool_decide; [by rewrite lookup_insert_eq|done].
  - rewrite (lookup_insert_ne (list_to_map l)) by done.
    destruct (list_to_map l !! k); [case_bool_decide; [done|]|]; case_bool_decide; by rewrite ?lookup_insert_ne.
Qed.

Lemma list_to_map_btree_iter (m : gmap bytes bytes) : list_to_map (btree_iter m) = m.
Proof.
  rewrite <-(list_to_map_to_list m) at 2.
  apply list_to_map_proper; [apply NoDup_btree_iter_keys|apply btree_iter_Permutation].
Qed.

(** Applying the difference gives the new state. *)
Lemma apply_state_difference current_state new_state :
  apply_changes (btree_iter (state_difference current_state new_state)) current_state = new_state.
Proof.
  apply map_eq. intros k. rewrite lookup_apply_changes, last_change_btree_iter. unfold state_difference.
  rewrite lookup_fold_updated, lookup_fold_removed, list_to_map_btree_iter, lookup_empty by apply NoDup_btree_iter_keys.
  destruct (new_state !! k) as [v|] eqn:Hn.
  - case_bool_decide as Hc; [done|]. rewrite bool_decide_eq_false_2 by naive_solver. simpl.
    destruct (decide (current_state !! k = Some v)); [done|tauto].
  - case_bool_decide as Hk; [done|]. simpl. destruct (current_state !! k) as [v|] eqn:Hc; [|done].
    exfalso. apply Hk. split; [|done]. apply elem_of_btree_iter in Hc. by apply (list_elem_of_fmap_2 fst) in Hc.
Qed.

(** ** The map on a chain of blocks

    A block refers to a Cardano block; the node computes the inherent data on
    the parent state.  Scripts can be changed at any time by governance. *)

Section Chain.
Context {H F : Type} `{!OnGovernedMappingChange H, !GovernedMapDataSource F} (config : MapConfig).
Context (state_at : MainChainScriptsV1 → bytes → gmap bytes bytes) (precedes : bytes → bytes → Prop).

Definition api_of (s : MapState H) : MapApi unit :=
  mkMapApi (Ok true) (Ok (Initialized s)) (Ok (Mapping s)) (Ok (MainChainScripts s)) (Ok 1).

Definition apply_inherent (block : Z) (idp : MapProvider) (s : MapState H) : option (MapState H) :=
  match create_inherent config s (provide_inherent_data idp) with
  | Ret None => Some s
  | Ret (Some (call_register_changes changes)) => ok (register_changes true block changes s)
  | _ => None
  end.

Inductive map_step : MapState H * option bytes → MapState H * option bytes → Prop :=
  | step_block s parent_mc_hash mc_hash block idp s' :
      (∀ p, parent_mc_hash = Some p → precedes p mc_hash) →
      new (api_of s) mc_hash parent_mc_hash = Ok idp →
      apply_inherent block idp s = Some s' →
      map_step (s, parent_mc_hash) (s', Some mc_hash)
  | step_scripts s mc_hash scripts s' :
      set_main_chain_scripts true scripts s = Ok s' →
      map_step (s, mc_hash) (s', mc_hash).

(** The stored map is that of the Cardano block the chain has reached, once
    the pallet is initialized for the current scripts. *)
Definition synced (s : MapState H) (mc_hash : option bytes) : Prop :=
  Initialized s = true →
  ∃ scripts h, MainChainScripts s = Some scripts ∧ mc_hash = Some h ∧ Mapping s = state_at scripts h.

Context `{!GovernedMapDataSourceLaws state_at precedes}.

Lemma collect_changes_apply changes m :
  apply_changes (btree_iter (collect_changes changes)) m = apply_changes changes m.
Proof.
  apply map_eq. intros k.
  by rewrite !lookup_apply_changes, last_change_btree_iter, lookup_collect_changes.
Qed.

(** The changes an active provider delivers lead to the state on Cardano. *)
Lemma new_changes s parent_mc_hash mc_hash idp :
  synced s parent_mc_hash → (∀ p, parent_mc_hash = Some p → precedes p mc_hash) →
  new (api_of s) mc_hash parent_mc_hash = Ok idp →
  match MainChainScripts s, provide_inherent_data idp with
  | None, data => data = None
  | Some scripts, Some data => apply_changes (btree_iter data) (Mapping s) = state_at scripts mc_hash
  | Some _, None => False
  end.
Proof.
  intros Hs Hp. unfold new, new_v1. simpl. destruct (MainChainScripts s) as [scripts|] eqn:Hsc; simpl; [|by intros [= <-]].
  destruct (Initialized s) eqn:Hi.
  - destruct (Hs Hi) as (sc & h & Hsc' & Hmc & Hm). rewrite Hsc in Hsc'. injection Hsc' as <-. subst parent_mc_hash.
    destruct (get_mapping_changes (Some h) mc_hash scripts) as [changes|] eqn:Hc; simpl; [|done]. intros [= <-]. simpl.
    rewrite collect_changes_apply, Hm. apply (mapping_changes_spec _ _ _ _ (Hp h eq_refl) Hc).
  - destruct (get_state_at_block mc_hash scripts) as [m|] eqn:Hst; simpl; [|done]. intros [= <-]. simpl.
    rewrite apply_state_difference. by eapply state_at_block_spec.
Qed.

Lemma block_synced s parent_mc_hash mc_hash block idp s' :
  synced s parent_mc_hash → (∀ p, parent_mc_hash = Some p → precedes p mc_hash) →
  new (api_of s) mc_hash parent_mc_hash = Ok idp → apply_inherent block idp s = Some s' →
  MainChainScripts s' = MainChainScripts s ∧
  match MainChainScripts s with
  | Some scripts => Initialized s' = true ∧ Mapping s' = state_at scripts mc_hash
  | None => s' = s
  end.
Proof.
  intros Hs Hp Hnew. pose proof (new_changes _ _ _ _ Hs Hp Hnew) as Hch. unfold apply_inherent.
  destruct (provide_inherent_data idp) as [data|]; destruct (MainChainScripts s) as [scripts|] eqn:Hsc;
    simpl in Hch; try done.
  - destruct (create_inherent config s (Some data)) as [[call|]|] eqn:Hc; [..|done].
    + rewrite (create_inherent_changes _ _ _ _ Hc). destruct (register_changes true block data s) as [s''|] eqn:Hr; [|done].
      intros [= <-]. destruct (register_changes_Ok _ _ _ _ _ Hr) as (Hi & Hsc' & Hm). by rewrite Hsc', Hm, Hch.
    + intros [= <-]. destruct (create_inherent_none _ _ _ Hc) as [-> Hi]. by rewrite <-Hch.
  - simpl. by intros [= <-].
Qed.

Lemma synced_step s mc s' mc' : synced s mc → map_step (s, mc) (s', mc') → synced s' mc'.
Proof.
  intros Hs Hstep. inversion Hstep as [? ? mc_hash block idp ? Hp Hnew Hex|? ? scripts ? Hset]; subst.
  - intros Hi. destruct (block_synced _ _ _ _ _ _ Hs Hp Hnew Hex) as [Hsc Hm].
    destruct (MainChainScripts s) as [scripts|] eqn:E.
    + destruct Hm as [_ Hm]. eauto.
    + subst s'. destruct (Hs Hi) as (sc & h & Hsc' & _). congruence.
  - injection Hset as <-. by intros [=].
Qed.

Lemma synced_reachable scripts h s mc :
  rtc map_step (map_genesis scripts h, None) (s, mc) → synced s mc.
Proof.
  intros Hr. remember (map_genesis scripts h, None) as x eqn:Hx. remember (s, mc) as y eqn:Hy.
  assert (synced x.1 x.2) as Hs by (subst x; by intros [=]). clear Hx.
  revert Hs Hy. induction Hr as [x|[s1 mc1] [s2 mc2] y Hstep Hr IH]; intros Hs Hy; subst; [done|].
  apply IH; [|done]. by eapply synced_step.
Qed.
End Chain.

(** ** Theorems *)

(** C18. The Governed Map follows Cardano.  Whenever the pallet is initialized, the
    stored map is exactly the map on Cardano at the block the chain has reached,
    for the current scripts; and every further block with scripts set ends in
    such a state for its own Cardano block, whether it starts from a change of
    scripts or from the previous block. *)
Theorem governed_map_tracks_cardano {H F : Type} `{!OnGovernedMappingChange H, !GovernedMapDataSource F} config
    state_at precedes `{!GovernedMapDataSourceLaws state_at precedes} scripts h (s : MapState H) mc :
  rtc (map_step config precedes) (map_genesis scripts h, None) (s, mc) →
  synced state_at s mc ∧
  ∀ current mc_hash block idp s',
    MainChainScripts s = Some current → (∀ p, mc = Some p → precedes p mc_hash) →
    new (api_of s) mc_hash mc = Ok idp → apply_inherent config block idp s = Some s' →
    Initialized s' = true ∧ MainChainScripts s' = Some current ∧ Mapping s' = state_at current mc_hash.
Proof.
  intros Hr. pose proof (synced_reachable config state_at precedes _ _ _ _ Hr) as Hs. split; [done|].
  intros current mc_hash block idp s' Hsc Hp Hnew Hex.
  destruct (block_synced config state_at precedes _ _ _ _ _ _ Hs Hp Hnew Hex) as [Hsc' Hm].
  rewrite Hsc in Hsc', Hm. naive_solver.
Qed.

(** The block author and the validators agree on the inherent. *)
Lemma create_check_agree {H} config (s : MapState H) data call :
  create_inherent config s data = Ret (Some call) → check_inherent config s call data = Ret (Ok tt).
Proof.
  intros Hc. unfold check_inherent. rewrite Hc. simpl. by rewrite bool_decide_eq_false_2 by naive_solver.
Qed.

(** ** Witness: a map with one entry that is removed in the second block *)

Definition example_map (scripts : MainChainScriptsV1) (h : bytes) : gmap bytes bytes :=
  if decide (h = [1]) then {[ [107] := [118] ]} else ∅.
#[local] Instance example_source : GovernedMapDataSource unit := {|
  get_state_at_block h scripts := Ok (example_map scripts h);
  get_mapping_changes since up_to scripts :=
    Ok (btree_iter (state_difference (from_option (example_map scripts) ∅ since) (example_map scripts up_to)));
|}.
#[local] Instance example_source_laws : GovernedMapDataSourceLaws example_map (λ _ _, True).
Proof.
  split.
  - by intros block scripts m [= <-].
  - intros since up_to scripts changes _ [= <-]. apply apply_state_difference.
Qed.
#[local] Instance no_handler : OnGovernedMappingChange unit := λ _ _ _ h, h.

Lemma governed_map_tracks_cardano_witness :
  ∃ s' : MapState unit, Initialized s' = true ∧ Mapping s' = ∅.
Proof.
  pose (scripts := mkScriptsV1 [97] [112]). pose (config := mkMapConfig 10 10 10).
  pose (s := mkMap true (Some 1) {[ [107] := [118] ]} (Some scripts) tt).
  pose (s' := mkMap true (Some 2) ∅ (Some scripts) tt).
  destruct (governed_map_tracks_cardano config example_map (λ _ _, True) (Some scripts) tt s (Some [1])) as [_ Hnext].
  - eapply rtc_l; [|apply rtc_refl].
    apply (step_block config _ _ _ [1] 1 (MapActiveV1 {[ [107] := Some [118] ]})); [done|vm_compute; reflexivity|].
    vm_compute. reflexivity.
  - destruct (Hnext scripts [2] 2 (MapActiveV1 {[ [107] := None ]}) s') as (Hi & _ & Hm).
    + reflexivity.
    + intros. exact I.
    + vm_compute. reflexivity.
    + vm_compute. reflexivity.
    + exists s'. split; [exact Hi|]. rewrite Hm. reflexivity.
Defined.
