(* ===== verification/DbSync.v ===== *)
(** * The db-sync database

    What the queries of [toolkit/data-sources/db-sync/src/db_model.rs] share: the
    two ways db-sync records the consumption of outputs, the asset a query asks
    for, and ORDER BY.  Rows that compare equal come in an order the database
    chooses, the parameter [row_order].  The caches of the sources are [LruCache] of
    the [lru] crate: the class [Lru]. *)

From S2P Require Import Prelude Domain PlutusData.

Inductive TxInConfiguration := TxInEnabled | TxInConsumed.

Record Asset := mkAsset { asset_policy : bytes; asset_asset_name : bytes }.
(** [Asset::new]: the asset with the empty name. *)
Definition Asset_new (policy : bytes) : Asset := mkAsset policy [].

(** Equality of datums, for UNION and for comparing queries. *)
Fixpoint datum_eq_dec (d1 d2 : Datum) : {d1 = d2} + {d1 ≠ d2}.
Proof.
  refine (match d1, d2 with
  | IntegerDatum i, IntegerDatum j => if Z.eq_dec i j then left _ else right _
  | ByteStringDatum b, ByteStringDatum c => if decide (b = c) then left _ else right _
  | ConstructorDatum c l, ConstructorDatum c' l' =>
      if Z.eq_dec c c' then if List.list_eq_dec datum_eq_dec l l' then left _ else right _ else right _
  | ListDatum l, ListDatum l' => if List.list_eq_dec datum_eq_dec l l' then left _ else right _
  | MapDatum m, MapDatum m' =>
      if List.list_eq_dec (λ x y : Datum * Datum,
           match x, y with
           | (a, b), (c, d) =>
               match datum_eq_dec a c, datum_eq_dec b d with
               | left _, left _ => left _
               | _, _ => right _
               end
           end) m m' then left _ else right _
  | _, _ => right _
  end); congruence.
Defined.
#[global] Instance Datum_eq_dec : EqDecision Datum := datum_eq_dec.

Section Query.
Context (row_order : ∀ A : Type, list A → list A).

(** ORDER BY *)
Definition order_by {A} (le : relation A) `{!RelDecision le} (rows : list A) : list A :=
  merge_sort le (row_order A rows).

Lemma order_by_Permutation {A} (le : relation A) `{!RelDecision le} rows :
  (∀ B (l : list B), row_order B l ≡ₚ l) → order_by le rows ≡ₚ rows.
Proof. intros Hr. unfold order_by. by rewrite merge_sort_Permutation, Hr. Qed.

(** ORDER BY with LIMIT 1 *)
Lemma head_order_by {A} (le : relation A) `{!RelDecision le, !Transitive le, !Total le} rows :
  (∀ B (l : list B), row_order B l ≡ₚ l) →
  match head (order_by le rows) with
  | Some x => x ∈ rows ∧ ∀ y, y ∈ rows → le x y
  | None => rows = []
  end.
Proof.
  intros Hr. pose proof (order_by_Permutation le rows Hr) as Hp.
  pose proof (StronglySorted_merge_sort le (row_order A rows)) as Hs. unfold order_by in *.
  destruct (merge_sort le (row_order A rows)) as [|x l]; simpl; [by apply Permutation_nil_l in Hp|].
  apply StronglySorted_inv in Hs as [_ Hx]. rewrite Forall_forall in Hx.
  split; [rewrite <-Hp; left|]. intros y. rewrite <-Hp, elem_of_cons. intros [->|Hy]; [|by apply Hx].
  by destruct (total le x x).
Qed.

(** A query that selects the only row with a property. *)
Lemma head_unique {A} (rows : list A) (P : A → Prop) `{∀ x, Decision (P x)} x :
  (∀ B (l : list B), row_order B l ≡ₚ l) →
  (∀ y, y ∈ rows → P y → y = x) →
  head (row_order A (filter P rows)) = Some x ↔ x ∈ rows ∧ P x.
Proof.
  intros Hr Hu. pose proof (Hr A (filter P rows)) as Hp.
  assert (∀ y, y ∈ row_order A (filter P rows) ↔ P y ∧ y ∈ rows) as Hin.
  { intros y. by rewrite Hp, list_elem_of_filter. }
  destruct (row_order A (filter P rows)) as [|y l]; simpl.
  - split; [done|]. intros [Hx HP]. exfalso. by apply (not_elem_of_nil x), Hin.
  - destruct (proj1 (Hin y)) as [HP Hy]; [left|]. assert (y = x) as -> by auto. by split; intros; [split|].
Qed.
End Query.

Lemma StronglySorted_filter {A} (R : relation A) (P : A → Prop) `{∀ x, Decision (P x)} l :
  StronglySorted R l → StronglySorted R (filter P l).
Proof.
  induction 1 as [|x l Hs IH Hx]; [constructor|]. rewrite filter_cons. case_decide; [|done].
  constructor; [done|]. rewrite Forall_forall in *. intros y [_ Hy]%list_elem_of_filter. by apply Hx.
Qed.

(** ** Caches *)

(** [LruCache]: [get] refreshes an entry, [put] may evict others. *)
Class Lru (C K V : Type) := {
  lru_peek : K → C → option V;
  lru_get : K → C → option V * C;
  lru_put : K → V → C → C;
}.
Class LruLaws (C K V : Type) `{!Lru C K V} : Prop := {
  lru_get_value k (c : C) : (lru_get k c).1 = lru_peek k c;
  lru_get_keeps k k' (c : C) : lru_peek k' (lru_get k c).2 = lru_peek k' c;
  lru_put_entries k v k' v' (c : C) : lru_peek k' (lru_put k v c) = Some v' →
    (k' = k ∧ v' = v) ∨ lru_peek k' c = Some v';
}.

(** A cache of two entries that evaluates. *)
Section ListCache.
Context {K V : Type} `{EqDecision K}.
Definition entry_of (k : K) (c : list (K * V)) : option V := snd <$> head (filter (λ e, e.1 = k) c).
Definition without (k : K) (c : list (K * V)) : list (K * V) := filter (λ e, e.1 ≠ k) c.
Definition list_lru : Lru (list (K * V)) K V := {|
  lru_peek := entry_of;
  lru_get k c := (entry_of k c, match entry_of k c with Some v => (k, v) :: without k c | None => c end);
  lru_put k v c := take 2 ((k, v) :: without k c);
|}.

Lemma entry_of_cons k k' v c : entry_of k' ((k, v) :: c) = if decide (k = k') then Some v else entry_of k' c.
Proof. unfold entry_of. rewrite filter_cons. simpl. by case_decide. Qed.
Lemma entry_of_without k k' c : k ≠ k' → entry_of k' (without k c) = entry_of k' c.
Proof.
  intros Hne. induction c as [|[k1 v1] c IH]; [done|]. unfold without in *. rewrite filter_cons. simpl.
  case_decide as Hk; rewrite !entry_of_cons; [by rewrite IH|]. rewrite IH, decide_False by congruence. done.
Qed.
Lemma entry_of_take n k v c : entry_of k (take n c) = Some v → entry_of k c = Some v.
Proof.
  revert n. induction c as [|[k1 v1] c IH]; intros [|n]; try done. simpl. rewrite !entry_of_cons.
  case_decide; [done|]. apply IH.
Qed.

Lemma list_lru_laws : @LruLaws (list (K * V)) K V list_lru.
Proof.
  split; simpl; [done|..].
  - intros k k' c. destruct (entry_of k c) as [v|] eqn:Hk; [|done]. rewrite entry_of_cons.
    case_decide as Heq; [by subst k'|by apply entry_of_without].
  - intros k v k' v' c Hput. change ((k, v) :: take 1 (without k c)) with (take 2 ((k, v) :: without k c)) in Hput.
    apply entry_of_take in Hput. rewrite entry_of_cons in Hput. case_decide as Heq; [left; by simplify_eq|right].
    by rewrite entry_of_without in Hput.
Qed.
End ListCache.
