(* ===== verification/GovernedMapSource.v ===== *)
(** * The db-sync data source of the Governed Map

    Models [toolkit/data-sources/db-sync/src/governed_map/mod.rs] and the queries
    of [toolkit/data-sources/db-sync/src/db_model.rs] it runs.  The database is
    the list of the transaction outputs it joins, with the position (block
    number, index in the block) where an output was created and where it was
    consumed; db-sync records the consumption in [tx_in] or in
    [consumed_by_tx_id] depending on its configuration.  Rows that compare equal
    in an ORDER BY come in an order the database chooses: [row_order]. *)

From S2P Require Import Prelude Domain PlutusData ContractDatums GovernedMap DbSync.

(** ** The database *)

Abbreviation position := (Z * Z)%type.

Definition pos_lt (p q : position) : Prop := p.1 < q.1 ∨ (p.1 = q.1 ∧ p.2 < q.2).
Definition pos_le (p q : position) : Prop := p.1 < q.1 ∨ (p.1 = q.1 ∧ p.2 ≤ q.2).

Record TxOut := mkTxOut {
  out_address : bytes;
  out_policy : bytes;
  out_asset_name : bytes;
  out_datum : Datum;
  out_created : position;
  out_tx_in : option position;
  out_consumed_by : option position;
}.

Inductive GovernedMapAction := Spend | Create.

Record DatumChangeOutput := mkDatumChange {
  dc_datum : Datum;
  dc_block_no : Z;
  dc_block_index : Z;
  dc_action : GovernedMapAction;
}.

#[global] Instance GovernedMapAction_eq_dec : EqDecision GovernedMapAction.
Proof. solve_decision. Defined.
#[global] Instance DatumChangeOutput_eq_dec : EqDecision DatumChangeOutput.
Proof. solve_decision. Defined.

Section Queries.
Context (row_order : ∀ A : Type, list A → list A).
Context (pool : list TxOut).

Definition at_address (address : bytes) (asset : Asset) (o : TxOut) : bool :=
  bool_decide (out_address o = address) && bool_decide (out_policy o = asset_policy asset)
  && bool_decide (out_asset_name o = asset_asset_name asset).

(** [($2 IS NULL OR block_no > $2) AND block_no <= $3] *)
Definition in_range (after_block : option Z) (to_block : Z) (block_no : Z) : bool :=
  match after_block with None => true | Some a => a <? block_no end && (block_no <=? to_block).

Definition action_order (a : GovernedMapAction) : Z := match a with Spend => -1 | Create => 1 end.

Definition change_le (x y : DatumChangeOutput) : Prop :=
  dc_block_no x < dc_block_no y ∨
  (dc_block_no x = dc_block_no y ∧
   (dc_block_index x < dc_block_index y ∨
    (dc_block_index x = dc_block_index y ∧ action_order (dc_action x) ≤ action_order (dc_action y)))).
#[export] Instance change_le_dec : RelDecision change_le.
Proof. intros x y. unfold change_le. apply _. Defined.

(** The rows of the two SELECTs of the change queries, with the column that
    records the consumption. *)
Definition create_row (address : bytes) (asset : Asset) (after_block : option Z) (to_block : Z) (o : TxOut) :
    option DatumChangeOutput :=
  if at_address address asset o && in_range after_block to_block (out_created o).1
  then Some (mkDatumChange (out_datum o) (out_created o).1 (out_created o).2 Create) else None.
Definition spend_row (consumed : TxOut → option position) (address : bytes) (asset : Asset)
    (after_block : option Z) (to_block : Z) (o : TxOut) : option DatumChangeOutput :=
  match consumed o with
  | Some p =>
      if at_address address asset o && in_range after_block to_block p.1
      then Some (mkDatumChange (out_datum o) p.1 p.2 Spend) else None
  | None => None
  end.

(** UNION removes duplicate rows. *)
Definition change_query (consumed : TxOut → option position) (address : bytes) (after_block : option Z)
    (to_block : Z) (asset : Asset) : list DatumChangeOutput :=
  order_by row_order change_le
    (remove_dups (filter_map (create_row address asset after_block to_block) pool
       ++ filter_map (spend_row consumed address asset after_block to_block) pool)).

Definition get_governed_map_changes_tx_in_enabled := change_query out_tx_in.
Definition get_governed_map_changes_tx_in_consumed := change_query out_consumed_by.
Definition get_governed_map_changes (address : bytes) (after_block : option Z) (to_block : Z) (asset : Asset)
    (tx_in_configuration : TxInConfiguration) : list DatumChangeOutput :=
  match tx_in_configuration with
  | TxInEnabled => get_governed_map_changes_tx_in_enabled address after_block to_block asset
  | TxInConsumed => get_governed_map_changes_tx_in_consumed address after_block to_block asset
  end.

(** The outputs that are unspent at a block, oldest first. *)
Definition created_le (x y : TxOut) : Prop := pos_le (out_created x) (out_created y).
#[export] Instance created_le_dec : RelDecision created_le.
Proof. intros x y. unfold created_le, pos_le. apply _. Defined.

Definition unspent_at (consumed : TxOut → option position) (block : Z) (o : TxOut) : bool :=
  ((out_created o).1 <=? block) && match consumed o with None => true | Some p => block <? p.1 end.

Definition datum_query (consumed : TxOut → option position) (address : bytes) (block : Z) (asset : Asset) :
    list Datum :=
  out_datum <$> order_by row_order created_le
    (filter (λ o, at_address address asset o && unspent_at consumed block o = true) pool).

Definition get_datums_at_address_with_token_tx_in_enabled := datum_query out_tx_in.
Definition get_datums_at_address_with_token_tx_in_consumed := datum_query out_consumed_by.
Definition get_datums_at_address_with_token (address : bytes) (block : Z) (asset : Asset)
    (tx_in_configuration : TxInConfiguration) : list Datum :=
  match tx_in_configuration with
  | TxInEnabled => get_datums_at_address_with_token_tx_in_enabled address block asset
  | TxInConsumed => get_datums_at_address_with_token_tx_in_consumed address block asset
  end.
End Queries.

(** ** The data source without a cache *)

Inductive DataSourceError := ExpectedDataNotFound (hash : bytes) | LatestBlockError.

Section Source.
Context (row_order : ∀ A : Type, list A → list A).
Context (pool : list TxOut) (block_no_of : bytes → option Z) (tx_in_config : TxInConfiguration).

Fixpoint insert_entries (entries : list Datum) (mappings : gmap bytes bytes) : outcome (gmap bytes bytes) :=
  match entries with
  | [] => Ret mappings
  | entry :: entries =>
      r ← governed_map_datum_try_from entry;
      match r with
      | Ok d => insert_entries entries (<[entry_key d := entry_value d]> mappings)
      | Err _ => insert_entries entries mappings
      end
  end.

Definition get_mappings_entries (hash : bytes) (scripts : MainChainScriptsV1) :
    outcome (result DataSourceError (gmap bytes bytes)) :=
  match block_no_of hash with
  | None => Ret (Err (ExpectedDataNotFound hash))
  | Some block =>
      Ok <$> insert_entries
        (get_datums_at_address_with_token row_order pool (validator_address scripts) block
           (Asset_new (asset_policy_id scripts)) tx_in_config) ∅
  end.

Definition get_mapping_changes_uncached (since_mc_block : option bytes) (up_to_mc_block : bytes)
    (scripts : MainChainScriptsV1) : outcome (result DataSourceError (list (bytes * option bytes))) :=
  current_mappings ←? get_mappings_entries up_to_mc_block scripts;
  match since_mc_block with
  | None => Ret (Ok ((λ '(key, value), (key, Some value)) <$> btree_iter current_mappings))
  | Some since_mc_block =>
      previous_mappings ←? get_mappings_entries since_mc_block scripts;
      let updated := filter_map (λ '(key, value),
        if bool_decide (previous_mappings !! key ≠ Some value) then Some (key, Some value) else None)
        (btree_iter current_mappings) in
      let removed := filter_map (λ key,
        if bool_decide (is_Some (current_mappings !! key)) then None else Some (key, None))
        (btree_iter previous_mappings).*1 in
      Ret (Ok (updated ++ removed))
  end.

(** ** The cached data source *)

Record Change := mkChange {
  ch_block_no : Z;
  ch_key : bytes;
  ch_value : option bytes;
}.

Record Cache := mkCache {
  highest_block_number : option Z;
  lowest_block_number : option Z;
  cached_changes : list Change;
  cached_address : option bytes;
  cached_policy_id : option bytes;
}.
Definition default_cache : Cache := mkCache None None [] None None.

Definition filter_changes_in_range (changes : list Change) (since_block : option Z) (up_to_block : Z) :
    list (bytes * option bytes) :=
  (λ c, (ch_key c, ch_value c)) <$>
    filter (λ c, (ch_block_no c <=? up_to_block)
                 && match since_block with Some b => b <? ch_block_no c | None => true end = true) changes.

Definition cache_get_changes_in_range (self : Cache) (since_block : option Z) (up_to_block : Z) :
    option (list (bytes * option bytes)) :=
  highest ← highest_block_number self;
  lowest ← lowest_block_number self;
  if (highest <? up_to_block) || match since_block with Some b => b <? lowest | None => false end then None
  else Some (filter_changes_in_range (cached_changes self) since_block up_to_block).

Definition min_block (changes : list Change) : Z :=
  match changes with [] => 0 | c :: cs => foldl (λ m x, Z.min m (ch_block_no x)) (ch_block_no c) cs end.
Definition max_block (changes : list Change) : Z :=
  match changes with [] => 0 | c :: cs => foldl (λ m x, Z.max m (ch_block_no x)) (ch_block_no c) cs end.

Definition cache_update (self : Cache) (changes : list Change) : Cache :=
  mkCache (Some (max_block changes)) (Some (min_block changes)) changes
    (cached_address self) (cached_policy_id self).

Definition cache_set_main_chain_scripts (self : Cache) (scripts : MainChainScriptsV1) : Cache :=
  if bool_decide (cached_address self ≠ Some (validator_address scripts))
     || bool_decide (cached_policy_id self ≠ Some (asset_policy_id scripts))
  then mkCache None None [] (Some (validator_address scripts)) (Some (asset_policy_id scripts))
  else self.

Fixpoint decode_changes (changes : list DatumChangeOutput) : outcome (list Change) :=
  match changes with
  | [] => Ret []
  | change :: changes =>
      r ← governed_map_datum_try_from (dc_datum change);
      result ← decode_changes changes;
      match r with
      | Err _ => Ret result
      | Ok d =>
          Ret (mkChange (dc_block_no change) (entry_key d)
                 (match dc_action change with Spend => None | Create => Some (entry_value d) end) :: result)
      end
  end.

Definition get_changes_in_range_to_cache (since_block : option Z) (up_to_block : Z) (scripts : MainChainScriptsV1) :
    outcome (list Change) :=
  decode_changes
    (get_governed_map_changes row_order pool (validator_address scripts) since_block up_to_block
       (Asset_new (asset_policy_id scripts)) tx_in_config).

(** [latest_stable_block] is what the block data source answers for the latest
    stable block. *)
Definition get_mapping_changes_cached (cache_size : Z) (latest_stable_block : result DataSourceError (option Z)) (cache : Cache)
    (since_mc_block : option bytes) (up_to_mc_block : bytes) (scripts : MainChainScriptsV1) :
    outcome (Cache * result DataSourceError (list (bytes * option bytes))) :=
  let cache := cache_set_main_chain_scripts cache scripts in
  match match since_mc_block with
        | Some hash => Some <$> ok_or (block_no_of hash) (ExpectedDataNotFound hash)
        | None => Ok None
        end with
  | Err e => Ret (cache, Err e)
  | Ok since_block_number =>
      match block_no_of up_to_mc_block with
      | None => Ret (cache, Err (ExpectedDataNotFound up_to_mc_block))
      | Some up_to_block_number =>
          match cache_get_changes_in_range cache since_block_number up_to_block_number with
          | Some cached_changes => Ret (cache, Ok cached_changes)
          | None =>
              match latest_stable_block with
              | Err e => Ret (cache, Err e)
              | Ok latest_stable_block =>
                  let latest_stable_block := default up_to_block_number latest_stable_block in
                  let since_block_plus := sat_add 32 (default 0 since_block_number) cache_size in
                  let max_search_block := Z.min latest_stable_block (Z.max up_to_block_number since_block_plus) in
                  changes ← get_changes_in_range_to_cache since_block_number max_search_block scripts;
                  Ret (cache_update cache changes,
                       Ok (filter_changes_in_range changes since_block_number up_to_block_number))
              end
          end
      end
  end.
End Source.

(** ** Lemmas on lists of changes *)

Lemma last_change_elem k l x : last_change k l = Some x → (k, x) ∈ l.
Proof.
  induction l as [|[key value] l IH]; simpl; [done|]. rewrite elem_of_cons.
  destruct (last_change k l); [naive_solver|]. case_decide; naive_solver.
Qed.
Lemma last_change_None k l : last_change k l = None → ∀ x, (k, x) ∉ l.
Proof.
  induction l as [|[key value] l IH]; simpl; intros Hl x Hin; [by apply elem_of_nil in Hin|].
  destruct (last_change k l); [done|]. case_decide; [done|].
  apply elem_of_cons in Hin as [[= -> ->]|Hin]; [done|]. by eapply IH.
Qed.

(** The last change of a key comes from the last row for that key. *)
Lemma last_change_filter_map {R} (f : R → option (bytes * option bytes)) k rows x :
  last_change k (filter_map f rows) = Some x →
  ∃ before r after, rows = before ++ r :: after ∧ f r = Some (k, x) ∧ ∀ r' y, r' ∈ after → f r' ≠ Some (k, y).
Proof.
  induction rows as [|r rows IH]; simpl; [done|].
  assert (∀ Q : Prop, (last_change k (filter_map f rows) = Some x → Q) →
    (last_change k (filter_map f rows) = None → f r = Some (k, x) → Q) →
    last_change k (match f r with Some y => y :: filter_map f rows | None => filter_map f rows end) = Some x → Q)
    as Hcase.
  { intros Q H1 H2. destruct (f r) as [[key value]|]; [|done]. simpl.
    destruct (last_change k (filter_map f rows)); [naive_solver|]. case_decide; naive_solver. }
  apply Hcase.
  - intros (before & r0 & after & -> & Hf & Hafter)%IH. by exists (r :: before), r0, after.
  - intros Hn Hf. exists [], r, rows. split_and!; [done..|]. intros r' y Hr' Hf'.
    eapply last_change_None; [exact Hn|]. apply elem_of_filter_map. eauto.
Qed.

Lemma filter_filter_map {A B} (f : A → option B) (P : B → Prop) (Q : A → Prop)
    `{∀ x, Decision (P x), ∀ x, Decision (Q x)} l :
  (∀ x y, f x = Some y → P y ↔ Q x) → filter P (filter_map f l) = filter_map f (filter Q l).
Proof.
  intros HPQ. induction l as [|x l IH]; [done|]. rewrite filter_cons. simpl.
  destruct (f x) as [y|] eqn:Hf.
  - rewrite filter_cons. specialize (HPQ x y Hf). rewrite IH. repeat case_decide; simpl; rewrite ?Hf; tauto.
  - rewrite IH. case_decide; simpl; [by rewrite Hf|done].
Qed.

Lemma StronglySorted_middle {A} (R : relation A) l1 x l2 :
  StronglySorted R (l1 ++ x :: l2) → ∀ y, y ∈ l1 → R y x.
Proof.
  intros Hs y Hy. eapply StronglySorted_app_1_elem_of; [exact Hs|done|]. by left.
Qed.

#[export] Instance change_le_trans : Transitive change_le.
Proof. intros x y z. unfold change_le. lia. Qed.
#[export] Instance change_le_total : Total change_le.
Proof. intros x y. unfold change_le. lia. Qed.

(** ** The history of the map in the database *)

Section History.
Context (row_order : ∀ A : Type, list A → list A) (Hrow : ∀ A (l : list A), row_order A l ≡ₚ l).
Context (pool : list TxOut) (consumed : TxOut → option position) (address : bytes) (asset : Asset).

Definition row_entry (d : Datum) : option (bytes * bytes) :=
  match governed_map_datum_try_from d with
  | Ret (Ok e) => Some (entry_key e, entry_value e)
  | _ => None
  end.

(** [o1] was consumed by the transaction that created [o2], or before it. *)
Definition consumed_before (o1 o2 : TxOut) : Prop :=
  ∃ p, consumed o1 = Some p ∧ pos_le p (out_created o2).

(** What the ledger and the contract guarantee: an output is consumed after it
    was created, and two outputs never hold the same key at the same time. *)
Record pool_wf : Prop := {
  wf_no_panic : ∀ o, o ∈ pool → at_address address asset o = true →
    governed_map_datum_try_from (out_datum o) ≠ Panic;
  wf_consumed_later : ∀ o p, o ∈ pool → consumed o = Some p → pos_lt (out_created o) p;
  wf_unique_keys : ∀ i j o1 o2 k v1 v2, i ≠ j → pool !! i = Some o1 → pool !! j = Some o2 →
    at_address address asset o1 = true → at_address address asset o2 = true →
    row_entry (out_datum o1) = Some (k, v1) → row_entry (out_datum o2) = Some (k, v2) →
    consumed_before o1 o2 ∨ consumed_before o2 o1;
}.

Definition live (block : Z) (o : TxOut) (k v : bytes) : Prop :=
  o ∈ pool ∧ at_address address asset o = true ∧ unspent_at consumed block o = true ∧
  row_entry (out_datum o) = Some (k, v).

(** The state the queries give for a block. *)
Definition state_of (block : Z) : outcome (gmap bytes bytes) :=
  insert_entries (datum_query row_order pool consumed address block asset) ∅.

Lemma insert_entries_changes entries : ∀ acc m,
  insert_entries entries acc = Ret m →
  m = apply_changes (filter_map (λ d, (λ kv, (kv.1, Some kv.2)) <$> row_entry d) entries) acc.
Proof.
  induction entries as [|d entries IH]; intros acc m; simpl; [by intros [= ->]|]. unfold row_entry at 1.
  destruct (governed_map_datum_try_from d) as [[e|]|]; simpl; [..|done]; intros Hm%IH; done.
Qed.

Lemma insert_entries_total entries acc :
  (∀ d, d ∈ entries → governed_map_datum_try_from d ≠ Panic) → ∃ m, insert_entries entries acc = Ret m.
Proof.
  revert acc. induction entries as [|d entries IH]; intros acc Hd; simpl; [by eexists|].
  destruct (governed_map_datum_try_from d) as [[e|]|] eqn:E; simpl.
  - apply IH. intros. apply Hd. by right.
  - apply IH. intros. apply Hd. by right.
  - exfalso. eapply Hd; [by left|done].
Qed.

Lemma elem_of_datum_query block d :
  d ∈ datum_query row_order pool consumed address block asset ↔
  ∃ o, d = out_datum o ∧ o ∈ pool ∧ at_address address asset o = true ∧ unspent_at consumed block o = true.
Proof.
  unfold datum_query. rewrite list_elem_of_fmap.
  setoid_rewrite (order_by_Permutation row_order created_le _ Hrow).
  setoid_rewrite list_elem_of_filter. split.
  - intros (o & -> & [[Ha Hu]%andb_true_iff Hin]). by exists o.
  - intros (o & -> & Hin & Ha & Hu). exists o. by rewrite Ha, Hu.
Qed.

Lemma live_unique block o1 o2 k v1 v2 :
  pool_wf → live block o1 k v1 → live block o2 k v2 → o1 = o2 ∧ v1 = v2.
Proof.
  intros Hwf (Hin1 & Ha1 & Hu1 & He1) (Hin2 & Ha2 & Hu2 & He2).
  apply list_elem_of_lookup in Hin1 as [i Hi], Hin2 as [j Hj].
  destruct (decide (i = j)) as [->|Hij]; [rewrite Hi in Hj; by simplify_eq|]. exfalso.
  unfold unspent_at in Hu1, Hu2.
  destruct (wf_unique_keys Hwf i j o1 o2 k v1 v2) as [(p & Hp & Hle)|(p & Hp & Hle)]; try done;
    rewrite Hp in *; unfold pos_le in Hle; lia.
Qed.

Lemma state_of_lookup block m k v :
  pool_wf → state_of block = Ret m → m !! k = Some v ↔ ∃ o, live block o k v.
Proof.
  intros Hwf Hm%insert_entries_changes. subst m. rewrite lookup_apply_changes, lookup_empty.
  set (l := filter_map _ _).
  assert (∀ x, (k, x) ∈ l ↔ ∃ o w, x = Some w ∧ live block o k w) as Hl.
  { intros x. unfold l. rewrite elem_of_filter_map. setoid_rewrite elem_of_datum_query. split.
    - intros (d & (o & -> & Hin & Ha & Hu) & Hf). exists o.
      destruct (row_entry (out_datum o)) as [[k' w]|] eqn:He; [|done]. injection Hf as -> <-. by exists w.
    - intros (o & w & -> & Hin & Ha & Hu & He). exists (out_datum o). rewrite He. split; [by exists o|done]. }
  destruct (last_change k l) as [x|] eqn:Hx; simpl.
  - apply last_change_elem, Hl in Hx as (o & w & -> & Hlive). split; [intros [= <-]; eauto|].
    intros (o' & Hlive'). by destruct (live_unique _ _ _ _ _ _ Hwf Hlive Hlive') as [_ ->].
  - split; [done|]. intros (o & Hlive). exfalso. eapply last_change_None; [exact Hx|]. apply Hl. eauto.
Qed.

Lemma state_of_total block : pool_wf → ∃ m, state_of block = Ret m.
Proof.
  intros Hwf. apply insert_entries_total. intros d (o & -> & Hin & Ha & _)%elem_of_datum_query.
  by apply (wf_no_panic Hwf).
Qed.

(** ** Changes between two blocks *)

Definition create_event (o : TxOut) : DatumChangeOutput :=
  mkDatumChange (out_datum o) (out_created o).1 (out_created o).2 Create.
Definition spend_event (o : TxOut) (p : position) : DatumChangeOutput :=
  mkDatumChange (out_datum o) p.1 p.2 Spend.

(** [r] records the creation or the consumption of [o]. *)
Definition event_of (r : DatumChangeOutput) (o : TxOut) : Prop :=
  o ∈ pool ∧ at_address address asset o = true ∧
  (r = create_event o ∨ ∃ p, consumed o = Some p ∧ r = spend_event o p).

Lemma elem_of_change_query after_block to_block r :
  r ∈ change_query row_order pool consumed address after_block to_block asset ↔
  in_range after_block to_block (dc_block_no r) = true ∧ ∃ o, event_of r o.
Proof.
  unfold change_query. rewrite order_by_Permutation, elem_of_remove_dups, elem_of_app, !elem_of_filter_map by done.
  unfold create_row, spend_row, event_of. split.
  - intros [(o & Hin & Hr)|(o & Hin & Hr)].
    + destruct (at_address address asset o) eqn:Ha; simpl in Hr; [|done].
      destruct (in_range _ _ _) eqn:Hrg; [|done]. injection Hr as <-. split; [done|]. exists o. auto.
    + destruct (consumed o) as [p|] eqn:Hp; [|done].
      destruct (at_address address asset o) eqn:Ha; simpl in Hr; [|done].
      destruct (in_range _ _ _) eqn:Hrg; [|done]. injection Hr as <-. split; [done|]. exists o. eauto 6.
  - intros (Hrg & o & Hin & Ha & [-> |(p & Hp & ->)]); [left|right]; exists o; split; [done| |done|].
    + rewrite Ha. simpl in *. by rewrite Hrg.
    + rewrite Hp, Ha. simpl in *. by rewrite Hrg.
Qed.

Lemma change_query_sorted after_block to_block :
  StronglySorted change_le (change_query row_order pool consumed address after_block to_block asset).
Proof. apply (StronglySorted_merge_sort _). Qed.

(** The key and the value a row changes. *)
Definition change_of (r : DatumChangeOutput) : option (bytes * option bytes) :=
  (λ kv, (kv.1, match dc_action r with Spend => None | Create => Some kv.2 end)) <$> row_entry (dc_datum r).

(** Rows in order that are all the events after block [b] up to block [n]. *)
Record all_events (b n : Z) (rows : list DatumChangeOutput) : Prop := {
  events_sorted : StronglySorted change_le rows;
  events_elem : ∀ r, r ∈ rows ↔ b < dc_block_no r ≤ n ∧ ∃ o, event_of r o;
}.

Lemma change_of_create o k v :
  row_entry (out_datum o) = Some (k, v) → change_of (create_event o) = Some (k, Some v).
Proof. intros He. unfold change_of. simpl. by rewrite He. Qed.
Lemma change_of_spend o p k v :
  row_entry (out_datum o) = Some (k, v) → change_of (spend_event o p) = Some (k, None).
Proof. intros He. unfold change_of. simpl. by rewrite He. Qed.

(** A key without events between the blocks keeps its outputs. *)
Lemma live_unchanged b n rows k v o :
  pool_wf → b ≤ n → all_events b n rows → (∀ r y, r ∈ rows → change_of r ≠ Some (k, y)) →
  live b o k v ↔ live n o k v.
Proof.
  intros Hwf Hbn Hev Hno. split; intros (Hin & Ha & Hu & He); split_and!; try done; unfold unspent_at in *.
  - destruct (consumed o) as [p|] eqn:Hp; [|lia]. destruct (decide (p.1 ≤ n)); [|lia]. exfalso.
    apply (Hno (spend_event o p) None); [|by eapply change_of_spend].
    apply (events_elem _ _ _ Hev). simpl. split; [lia|]. exists o. split_and!; eauto.
  - destruct (decide ((out_created o).1 ≤ b)).
    + destruct (consumed o) as [p|]; lia.
    + exfalso. apply (Hno (create_event o) (Some v)); [|by apply change_of_create].
      apply (events_elem _ _ _ Hev). simpl. split; [destruct (consumed o); lia|]. exists o. split_and!; eauto.
Qed.

(** The last event of a key decides its state. *)
Lemma last_create_live b n rows r k v :
  pool_wf → all_events b n rows → r ∈ rows → change_of r = Some (k, Some v) →
  (∀ r' y, r' ∈ rows → change_of r' = Some (k, y) → change_le r' r) → ∃ o, live n o k v.
Proof.
  intros Hwf Hev Hr Hc Hlast. destruct (proj1 (events_elem _ _ _ Hev r) Hr) as (Hb & o & Hin & Ha & Ho).
  unfold change_of in Hc. destruct (row_entry (dc_datum r)) as [[k' w]|] eqn:He; [|done].
  destruct Ho as [-> |(p & Hp & ->)]; [|done]. simpl in *. injection Hc as -> ->.
  exists o. split_and!; try done. unfold unspent_at.
  destruct (consumed o) as [p|] eqn:Hp; [|lia]. destruct (decide (p.1 ≤ n)); [|lia]. exfalso.
  pose proof (wf_consumed_later Hwf o p Hin Hp) as Hlt. unfold pos_lt in Hlt.
  assert (spend_event o p ∈ rows) as Hs.
  { apply (events_elem _ _ _ Hev). simpl. split; [lia|]. exists o. split_and!; eauto. }
  specialize (Hlast _ None Hs (change_of_spend _ _ _ _ He)). unfold change_le in Hlast. simpl in Hlast. lia.
Qed.

Lemma last_spend_dead b n rows r k o v :
  pool_wf → all_events b n rows → r ∈ rows → change_of r = Some (k, None) →
  (∀ r' y, r' ∈ rows → change_of r' = Some (k, y) → change_le r' r) → ¬ live n o k v.
Proof.
  intros Hwf Hev Hr Hc Hlast (Hinw & Haw & Huw & Hew).
  destruct (proj1 (events_elem _ _ _ Hev r) Hr) as (Hb & w & Hin & Ha & Hw).
  unfold change_of in Hc. destruct (row_entry (dc_datum r)) as [[k' v']|] eqn:He; [|done].
  destruct Hw as [-> |(q & Hq & ->)]; [done|]. simpl in *. injection Hc as ->.
  pose proof (wf_consumed_later Hwf w q Hin Hq) as Hlt. unfold unspent_at in Huw.
  apply list_elem_of_lookup in Hin as [i Hi], Hinw as [j Hj].
  destruct (decide (i = j)) as [->|Hij].
  { rewrite Hi in Hj. simplify_eq. rewrite Hq in Huw. lia. }
  destruct (wf_unique_keys Hwf i j w o k v' v) as [(p & Hp & Hle)|(p & Hp & Hle)]; try done.
  - rewrite Hq in Hp. injection Hp as <-. unfold pos_le in Hle.
    destruct (decide ((out_created o).1 ≤ b)); [lia|].
    assert (create_event o ∈ rows) as Hcr.
    { apply (events_elem _ _ _ Hev). simpl. split; [destruct (consumed o); lia|]. exists o.
      split_and!; [by eapply list_elem_of_lookup_2|done|by left]. }
    specialize (Hlast _ (Some v) Hcr (change_of_create _ _ _ Hew)). unfold change_le in Hlast. simpl in Hlast. lia.
  - rewrite Hp in Huw. unfold pos_le in Hle. unfold pos_lt in Hlt. lia.
Qed.

(** Applying all changes after [b] up to [n] to the state at [b] gives the state
    at [n]. *)
Lemma all_events_apply b n rows mb mn :
  pool_wf → b ≤ n → all_events b n rows → state_of b = Ret mb → state_of n = Ret mn →
  apply_changes (filter_map change_of rows) mb = mn.
Proof.
  intros Hwf Hbn Hev Hmb Hmn. apply map_eq. intros k. rewrite lookup_apply_changes.
  destruct (last_change k (filter_map change_of rows)) as [x|] eqn:Hx; simpl.
  - apply last_change_filter_map in Hx as (bef & r & aft & -> & Hc & Haft).
    assert (∀ r' y, r' ∈ bef ++ r :: aft → change_of r' = Some (k, y) → change_le r' r) as Hlast.
    { intros r' y Hin Hc'. apply elem_of_app in Hin as [Hin|[->|Hin]%elem_of_cons].
      - eapply StronglySorted_middle; [apply (events_sorted _ _ _ Hev)|done].
      - unfold change_le. lia.
      - exfalso. by eapply Haft. }
    assert (r ∈ bef ++ r :: aft) as Hr by (apply elem_of_app; right; by left).
    destruct x as [v|].
    + destruct (last_create_live _ _ _ _ _ _ Hwf Hev Hr Hc Hlast) as (o & Hlive).
      symmetry. apply (state_of_lookup n mn k v Hwf Hmn). eauto.
    + destruct (mn !! k) as [v|] eqn:Hv; [exfalso|done].
      apply (state_of_lookup n mn k v Hwf Hmn) in Hv as (o & Hlive). by eapply last_spend_dead.
  - assert (∀ r y, r ∈ rows → change_of r ≠ Some (k, y)) as Hno.
    { intros r y Hr Hc. eapply last_change_None; [exact Hx|]. apply elem_of_filter_map. eauto. }
    apply option_eq. intros v. rewrite (state_of_lookup b mb k v Hwf Hmb), (state_of_lookup n mn k v Hwf Hmn).
    split; intros (o & Hlive); exists o; by eapply (live_unchanged b n rows k v o).
Qed.
End History.

(** ** The cache *)

Definition decoded (r : DatumChangeOutput) : option Change :=
  (λ kv, mkChange (dc_block_no r) kv.1 (match dc_action r with Spend => None | Create => Some kv.2 end))
  <$> row_entry (dc_datum r).

Lemma decode_changes_Ret rows changes : decode_changes rows = Ret changes → changes = filter_map decoded rows.
Proof.
  revert changes. induction rows as [|r rows IH]; intros changes; simpl; [by intros [= ->]|].
  unfold decoded at 1, row_entry. destruct (governed_map_datum_try_from (dc_datum r)) as [[d|]|]; simpl; [..|done].
  - destruct (decode_changes rows) as [cs|]; simpl; [|done]. intros [= <-]. by rewrite (IH cs eq_refl).
  - destruct (decode_changes rows) as [cs|]; simpl; [|done]. intros [= <-]. by rewrite (IH cs eq_refl).
Qed.

Lemma filter_map_decoded rows :
  filter_map (λ r, (λ c, (ch_key c, ch_value c)) <$> decoded r) rows = filter_map change_of rows.
Proof.
  induction rows as [|r rows IH]; [done|]. simpl. unfold decoded at 1, change_of at 1.
  destruct (row_entry (dc_datum r)); simpl; by rewrite IH.
Qed.

Lemma decode_changes_total rows :
  (∀ r, r ∈ rows → governed_map_datum_try_from (dc_datum r) ≠ Panic) → ∃ changes, decode_changes rows = Ret changes.
Proof.
  induction rows as [|r rows IH]; intros Hr; simpl; [by eexists|].
  destruct IH as [cs Hcs]; [intros; apply Hr; by right|].
  destruct (governed_map_datum_try_from (dc_datum r)) as [[d|]|] eqn:E; simpl; rewrite ?Hcs; [by eexists..|].
  exfalso. eapply Hr; [by left|done].
Qed.

Lemma min_max_block_elem changes :
  changes ≠ [] →
  (∃ c, c ∈ changes ∧ ch_block_no c = min_block changes) ∧ (∃ c, c ∈ changes ∧ ch_block_no c = max_block changes).
Proof.
  destruct changes as [|c cs]; [done|]. intros _. simpl. split.
  - cut (∀ c, ∃ d, d ∈ c :: cs ∧ ch_block_no d = foldl (λ m x, Z.min m (ch_block_no x)) (ch_block_no c) cs); [auto|].
    clear c. induction cs as [|x cs IH]; intros c; [exists c; split; [by left|done]|]. simpl.
    destruct (Z.min_spec (ch_block_no c) (ch_block_no x)) as [[_ ->]|[_ ->]].
    + destruct (IH c) as (d & [-> |Hd]%elem_of_cons & He); [exists c|exists d]; (split; [|done]); [by left|].
      right. by right.
    + destruct (IH x) as (d & Hd & He). exists d. split; [by right|done].
  - cut (∀ c, ∃ d, d ∈ c :: cs ∧ ch_block_no d = foldl (λ m x, Z.max m (ch_block_no x)) (ch_block_no c) cs); [auto|].
    clear c. induction cs as [|x cs IH]; intros c; [exists c; split; [by left|done]|]. simpl.
    destruct (Z.max_spec (ch_block_no c) (ch_block_no x)) as [[_ ->]|[_ ->]].
    + destruct (IH x) as (d & Hd & He). exists d. split; [by right|done].
    + destruct (IH c) as (d & [-> |Hd]%elem_of_cons & He); [exists c|exists d]; (split; [|done]); [by left|].
      right. by right.
Qed.

Definition consumed_of (config : TxInConfiguration) : TxOut → option position :=
  match config with TxInEnabled => out_tx_in | TxInConsumed => out_consumed_by end.

Section CacheLemmas.
Context (row_order : ∀ A : Type, list A → list A) (Hrow : ∀ A (l : list A), row_order A l ≡ₚ l).
Context (pool : list TxOut) (tx_in_config : TxInConfiguration).

Abbreviation query scripts := (λ after_block to_block,
  change_query row_order pool (consumed_of tx_in_config) (validator_address scripts) after_block to_block
    (Asset_new (asset_policy_id scripts))).
Definition map_state_of (scripts : MainChainScriptsV1) : Z → outcome (gmap bytes bytes) :=
  state_of row_order pool (consumed_of tx_in_config) (validator_address scripts)
    (Asset_new (asset_policy_id scripts)).
Definition scripts_wf (scripts : MainChainScriptsV1) : Prop :=
  pool_wf pool (consumed_of tx_in_config) (validator_address scripts) (Asset_new (asset_policy_id scripts)).

Lemma get_changes_query since_block up_to_block scripts :
  get_changes_in_range_to_cache row_order pool tx_in_config since_block up_to_block scripts
  = decode_changes (query scripts since_block up_to_block).
Proof. unfold get_changes_in_range_to_cache, get_governed_map_changes. by destruct tx_in_config. Qed.

(** Cached changes are the result of a query for a range of blocks. *)
Definition cache_valid (cache : Cache) (scripts : MainChainScriptsV1) : Prop :=
  highest_block_number cache = None ∨
  ∃ after_block to_block, decode_changes (query scripts after_block to_block) = Ret (cached_changes cache) ∧
    highest_block_number cache = Some (max_block (cached_changes cache)) ∧
    lowest_block_number cache = Some (min_block (cached_changes cache)).

(** Every scripts the cache holds changes for. *)
Definition cache_inv (cache : Cache) : Prop :=
  ∀ scripts, cached_address cache = Some (validator_address scripts) →
    cached_policy_id cache = Some (asset_policy_id scripts) → cache_valid cache scripts.

Lemma cache_set_scripts_valid cache scripts :
  cache_inv cache → cache_valid (cache_set_main_chain_scripts cache scripts) scripts ∧
  cached_address (cache_set_main_chain_scripts cache scripts) = Some (validator_address scripts) ∧
  cached_policy_id (cache_set_main_chain_scripts cache scripts) = Some (asset_policy_id scripts).
Proof.
  intros Hinv. unfold cache_set_main_chain_scripts. case_bool_decide as Ha; simpl; [by split; [left|]|].
  case_bool_decide as Hp; simpl; [by split; [left|]|].
  destruct (decide (cached_address cache = Some (validator_address scripts))); [|tauto].
  destruct (decide (cached_policy_id cache = Some (asset_policy_id scripts))); [|tauto].
  split; [by apply Hinv|done].
Qed.

(** Filtering the result of a query that covers the blocks after [b] up to [n]. *)
Lemma filtered_changes_apply scripts after_block to_block changes b n mb mn :
  scripts_wf scripts → b ≤ n →
  (∀ block, b < block ≤ n → in_range after_block to_block block = true) →
  decode_changes (query scripts after_block to_block) = Ret changes →
  map_state_of scripts b = Ret mb → map_state_of scripts n = Ret mn →
  apply_changes (filter_changes_in_range changes (Some b) n) mb = mn.
Proof.
  intros Hwf Hbn Hcover Hdec%decode_changes_Ret Hmb Hmn. subst changes.
  unfold filter_changes_in_range.
  rewrite (filter_filter_map decoded _ (λ r, b < dc_block_no r ≤ n)), fmap_filter_map.
  - rewrite filter_map_decoded.
    apply (all_events_apply row_order Hrow pool _ _ _ b n _ mb mn Hwf Hbn); [|done..].
    split; [apply StronglySorted_filter, change_query_sorted|]. intros r.
    rewrite list_elem_of_filter, elem_of_change_query by done. naive_solver.
  - intros r c. unfold decoded. destruct (row_entry (dc_datum r)); [|done]. intros [= <-]. simpl.
    rewrite andb_true_iff. lia.
Qed.
End CacheLemmas.

Section Sources.
Context (row_order : ∀ A : Type, list A → list A) (Hrow : ∀ A (l : list A), row_order A l ≡ₚ l).
Context (pool : list TxOut) (block_no_of : bytes → option Z) (tx_in_config : TxInConfiguration).

Lemma get_mappings_entries_state hash scripts block :
  block_no_of hash = Some block →
  get_mappings_entries row_order pool block_no_of tx_in_config hash scripts
  = Ok <$> map_state_of row_order pool tx_in_config scripts block.
Proof.
  intros Hb. unfold get_mappings_entries, map_state_of, state_of, get_datums_at_address_with_token.
  rewrite Hb. by destruct tx_in_config.
Qed.

(** The uncached source computes the difference of the two states. *)
Lemma uncached_changes_apply since up_to scripts mb mn :
  get_mappings_entries row_order pool block_no_of tx_in_config since scripts = Ret (Ok mb) →
  get_mappings_entries row_order pool block_no_of tx_in_config up_to scripts = Ret (Ok mn) →
  ∃ changes,
    get_mapping_changes_uncached row_order pool block_no_of tx_in_config (Some since) up_to scripts
      = Ret (Ok changes) ∧ apply_changes changes mb = mn.
Proof.
  intros Hmb Hmn. unfold get_mapping_changes_uncached. rewrite Hmn. simpl. rewrite Hmb. simpl.
  set (updated := filter_map _ (btree_iter mn)). set (removed := filter_map _ (btree_iter mb).*1).
  eexists. split; [done|].
  assert (∀ k x, (k, x) ∈ updated ++ removed ↔
    (∃ v, x = Some v ∧ mn !! k = Some v ∧ mb !! k ≠ Some v) ∨ (x = None ∧ is_Some (mb !! k) ∧ mn !! k = None)) as Hin.
  { intros k x. rewrite elem_of_app. unfold updated, removed. rewrite !elem_of_filter_map. f_equiv; split.
    - intros ([key value] & Hkv%elem_of_btree_iter & Hf). case_bool_decide; naive_solver.
    - intros (v & -> & Hn & Hb). exists (k, v). rewrite elem_of_btree_iter, bool_decide_eq_true_2 by done. done.
    - intros (key & ([? v] & -> & Hv%elem_of_btree_iter)%list_elem_of_fmap & Hf). simpl in *.
      case_bool_decide as Hs; [done|]. injection Hf as -> <-. apply eq_None_not_Some in Hs. by rewrite Hv.
    - intros (-> & [v Hv] & Hn). exists k. rewrite Hn, bool_decide_eq_false_2 by (by intros []).
      split; [|done]. apply elem_of_btree_iter in Hv. by apply (list_elem_of_fmap_2 fst) in Hv. }
  apply map_eq. intros k. rewrite lookup_apply_changes.
  destruct (last_change k (updated ++ removed)) as [x|] eqn:Hl.
  - apply last_change_elem, Hin in Hl. naive_solver.
  - assert (∀ x, (k, x) ∉ updated ++ removed) as Hno by (by apply last_change_None). simpl.
    destruct (mn !! k) as [v|] eqn:Hn, (mb !! k) as [w|] eqn:Hb; try done.
    + destruct (decide (v = w)) as [->|]; [done|]. exfalso. apply (Hno (Some v)), Hin. left. naive_solver.
    + exfalso. apply (Hno (Some v)), Hin. left. naive_solver.
    + exfalso. apply (Hno None), Hin. right. naive_solver.
Qed.

Lemma cache_hit_covers changes after_block to_block scripts b n highest lowest :
  0 ≤ b →
  decode_changes (change_query row_order pool (consumed_of tx_in_config) (validator_address scripts)
    after_block to_block (Asset_new (asset_policy_id scripts))) = Ret changes →
  highest = max_block changes → lowest = min_block changes → n ≤ highest → lowest ≤ b →
  ∀ block, b < block ≤ n → in_range after_block to_block block = true.
Proof.
  intros Hb Hdec -> -> Hn Hlow block Hblock.
  destruct (decide (changes = [])) as [->|Hne]; [simpl in *; lia|].
  destruct (min_max_block_elem changes Hne) as [(c1 & Hc1 & Hmin) (c2 & Hc2 & Hmax)].
  assert (∀ c, c ∈ changes → in_range after_block to_block (ch_block_no c) = true) as Hrange.
  { apply decode_changes_Ret in Hdec. subst changes. intros c (r & Hr & Hd)%elem_of_filter_map.
    apply elem_of_change_query in Hr as [Hr _]; [|done]. unfold decoded in Hd.
    destruct (row_entry (dc_datum r)); [|done]. by injection Hd as <-. }
  pose proof (Hrange c1 Hc1) as H1. pose proof (Hrange c2 Hc2) as H2. rewrite Hmin in H1. rewrite Hmax in H2.
  unfold in_range in *. destruct after_block; lia.
Qed.
(** The upper end of the changes the cached source answers with: without a cached
    answer it does not look above the latest stable block. *)
Definition covered_up_to (cache : Cache) (scripts : MainChainScriptsV1) (stable : option Z) (b n : Z) : Z :=
  match cache_get_changes_in_range (cache_set_main_chain_scripts cache scripts) (Some b) n, stable with
  | None, Some s => Z.max b (Z.min s n)
  | _, _ => n
  end.

(** The changes of a search that ends below the range. *)
Lemma filter_changes_below scripts after_block max_search changes b n :
  decode_changes (change_query row_order pool (consumed_of tx_in_config) (validator_address scripts)
    after_block max_search (Asset_new (asset_policy_id scripts))) = Ret changes →
  filter_changes_in_range changes (Some b) n = filter_changes_in_range changes (Some b) (Z.max b (Z.min max_search n)).
Proof.
  intros Hdec%decode_changes_Ret. subst changes. unfold filter_changes_in_range. f_equal. apply list_filter_iff_elem.
  intros c (r & Hr & Hd)%elem_of_filter_map. apply elem_of_change_query in Hr as [Hr _]; [|done]. unfold decoded in Hd.
  destruct (row_entry (dc_datum r)); [|done]. injection Hd as <-. simpl. unfold in_range in Hr.
  apply andb_true_iff in Hr as [_ Hr]. rewrite !andb_true_iff. lia.
Qed.

(** The cached source, whether its cache answers or the database does. *)
Lemma cached_changes_apply cache_size stable cache since up_to scripts b n mb mc :
  scripts_wf pool tx_in_config scripts → cache_inv row_order pool tx_in_config cache →
  block_no_of since = Some b → block_no_of up_to = Some n → 0 ≤ b ≤ n →
  map_state_of row_order pool tx_in_config scripts b = Ret mb →
  map_state_of row_order pool tx_in_config scripts (covered_up_to cache scripts stable b n) = Ret mc →
  ∃ cached cache',
    get_mapping_changes_cached row_order pool block_no_of tx_in_config cache_size (Ok stable) cache
      (Some since) up_to scripts = Ret (cache', Ok cached) ∧ apply_changes cached mb = mc ∧
    cache_inv row_order pool tx_in_config cache'.
Proof.
  intros Hwf Hinv Hb Hn Hbn Hmb Hmc. unfold covered_up_to in Hmc.
  destruct (cache_set_scripts_valid row_order pool tx_in_config cache scripts Hinv) as (Hvalid & Hca & Hcp).
  unfold get_mapping_changes_cached. rewrite Hb, Hn. cbn [ok_or fmap result_fmap].
  set (c := cache_set_main_chain_scripts cache scripts) in *.
  assert (∀ c', cache_valid row_order pool tx_in_config c' scripts → cached_address c' = cached_address c →
    cached_policy_id c' = cached_policy_id c → cache_inv row_order pool tx_in_config c') as Hkeep.
  { intros c' Hv Ha Hp [a p] Ha' Hp'. destruct scripts as [a0 p0]. simpl in *. replace a with a0 by congruence.
    replace p with p0 by congruence. done. }
  destruct (cache_get_changes_in_range c (Some b) n) as [cached|] eqn:Hget.
  - exists cached, c. split_and!; try done; [|by apply Hkeep].
    unfold cache_get_changes_in_range in Hget. destruct Hvalid as [Hnone|(s0 & m0 & Hdec & Hhi & Hlo)].
    { rewrite Hnone in Hget. done. }
    rewrite Hhi, Hlo in Hget. simpl in Hget.
    destruct (_ || _) eqn:Hor in Hget; [done|]. injection Hget as <-.
    eapply (filtered_changes_apply row_order Hrow pool tx_in_config); [done|lia| |exact Hdec|done|done].
    eapply cache_hit_covers; [lia|exact Hdec|reflexivity|reflexivity|lia|lia].
  - set (max_search := Z.min (default n stable) (Z.max n (sat_add 32 (default 0 (Some b)) cache_size))).
    set (m := Z.max b (Z.min max_search n)).
    assert (match stable with Some s => Z.max b (Z.min s n) | None => n end = m) as Hm.
    { unfold m, max_search. destruct stable as [s|]; simpl; lia. }
    rewrite Hm in Hmc. rewrite get_changes_query.
    edestruct (decode_changes_total (change_query row_order pool (consumed_of tx_in_config)
      (validator_address scripts) (Some b) max_search (Asset_new (asset_policy_id scripts)))) as [changes Hdec].
    { intros r (_ & o & Hin & Ha & Ho)%elem_of_change_query; [|done].
      assert (dc_datum r = out_datum o) as -> by (destruct Ho as [-> |(p & _ & ->)]; done).
      by apply (wf_no_panic _ _ _ _ Hwf). }
    rewrite Hdec. cbn [mbind outcome_bind].
    exists (filter_changes_in_range changes (Some b) n), (cache_update c changes). split_and!; try done.
    + rewrite (filter_changes_below scripts _ max_search changes b n Hdec). fold m.
      eapply (filtered_changes_apply row_order Hrow pool tx_in_config); [done|lia| |exact Hdec|done|done].
      intros block Hblock. unfold in_range. lia.
    + apply Hkeep; [|done..]. right. by exists (Some b), max_search.
Qed.
End Sources.

(** ** Theorems *)


(** ** Witnesses and limits of the cache *)

Definition example_scripts : MainChainScriptsV1 := mkScriptsV1 [1] [2].
Definition example_entry (key value : bytes) : Datum :=
  governed_map_datum_to_plutus_data (mkGovernedMapDatum key value).
Definition example_out (key value : bytes) (created : position) (spent : option position) : TxOut :=
  mkTxOut [1] [2] [] (example_entry key value) created spent spent.
(** The value of one key is replaced in block 15. *)
Definition example_pool : list TxOut :=
  [example_out [97] [1] (5, 0) (Some (15, 1)); example_out [97] [2] (15, 1) None].
Definition example_block_no (h : bytes) : option Z := head h.
Definition id_order (A : Type) (l : list A) : list A := l.

Lemma example_pool_wf : scripts_wf example_pool TxInEnabled example_scripts.
Proof.
  split.
  - intros o Ho _. repeat (apply elem_of_cons in Ho as [->|Ho]; [vm_compute; congruence|]). by apply elem_of_nil in Ho.
  - intros o p Ho. repeat (apply elem_of_cons in Ho as [->|Ho]; [intros [= <-]; vm_compute; by left|]).
    by apply elem_of_nil in Ho.
  - intros [|[|i]] [|[|j]] o1 o2 k v1 v2 Hij [= <-] [= <-] _ _ _ _; try done; [left|right];
      (exists (15, 1); split; [done|right; done]).
Qed.


(** With no lower bound the cache answers with the changes it has, although the
    documentation asks for all changes since genesis: after a query for the
    blocks 10 to 20, the entry created in block 5 is missing. *)
Example cache_forgets_history :
  let pool := [example_out [97] [1] (5, 0) None; example_out [98] [2] (15, 0) None] in
  let run := get_mapping_changes_cached id_order pool example_block_no TxInEnabled 100 (Ok None) in
  ∃ cache, run default_cache (Some [10]) [20] example_scripts = Ret (cache, Ok [([98], Some [2])]) ∧
    run cache None [15] example_scripts = Ret (cache, Ok [([98], Some [2])]) ∧
    get_mapping_changes_uncached id_order pool example_block_no TxInEnabled None [15] example_scripts
      = Ret (Ok [([97], Some [1]); ([98], Some [2])]).
Proof. eexists. split_and!; vm_compute; reflexivity. Qed.

(** If two outputs hold the same key, spending one of them removes the key for
    the cached source and not for the plain one. *)
Example duplicate_key_diverges :
  let pool := [example_out [97] [1] (5, 0) None; example_out [97] [2] (6, 0) (Some (15, 0))] in
  (∃ cache, get_mapping_changes_cached id_order pool example_block_no TxInEnabled 100 (Ok None) default_cache
     (Some [10]) [20] example_scripts = Ret (cache, Ok [([97], None)])) ∧
  get_mapping_changes_uncached id_order pool example_block_no TxInEnabled (Some [10]) [20] example_scripts
    = Ret (Ok [([97], Some [1])]).
Proof. split; [eexists|]; vm_compute; reflexivity. Qed.

(** Above the latest stable block the cached source misses changes: with block 12 as
    the latest stable one, the replacement in block 15 is not in its answer. *)
Example change_above_stable_block_missed :
  (∃ cache, get_mapping_changes_cached id_order example_pool example_block_no TxInEnabled 100 (Ok (Some 12)) default_cache
     (Some [10]) [20] example_scripts = Ret (cache, Ok [])) ∧
  get_mapping_changes_uncached id_order example_pool example_block_no TxInEnabled (Some [10]) [20] example_scripts
    = Ret (Ok [([97], Some [2])]).
Proof. split; [eexists|]; vm_compute; reflexivity. Qed.
