(* ===== verification/Bridge.v ===== *)
(** * The token bridge

    - [toolkit/bridge/pallet/src/lib.rs]: the pallet that hands transfers to the
      chain's handler and keeps the checkpoint;
    - [toolkit/bridge/primitives/src/lib.rs]: the inherent data provider;
    - [toolkit/data-sources/db-sync/src/bridge/mod.rs] and [cache.rs]: the data
      source over db-sync, without and with a cache, and the queries of
      [db_model.rs] they run.

    The outputs db-sync knows are the parameter [pool]; an output records the
    hash of the transaction that consumed it. *)

From S2P Require Import Prelude Domain PlutusData ContractDatums DbSync.

Record MainChainScripts := mkBridgeScripts {
  token_policy_id : bytes;
  token_asset_name : bytes;
  illiquid_circulation_supply_validator_address : bytes;
}.

#[global] Instance MainChainScripts_eq_dec : EqDecision MainChainScripts.
Proof. solve_decision. Defined.

Inductive BridgeTransferV1 (R : Type) :=
  | UserTransfer (token_amount : Z) (recipient : R)
  | ReserveTransfer (token_amount : Z)
  | InvalidTransfer (token_amount : Z) (utxo_id : UtxoId).
Arguments UserTransfer {R} _ _.
Arguments ReserveTransfer {R} _.
Arguments InvalidTransfer {R} _ _.

#[global] Instance BridgeTransferV1_eq_dec `{EqDecision R} : EqDecision (BridgeTransferV1 R).
Proof. solve_decision. Defined.

Inductive BridgeDataCheckpoint := CheckpointUtxo (utxo : UtxoId) | CheckpointBlock (number : Z).

#[global] Instance BridgeDataCheckpoint_eq_dec : EqDecision BridgeDataCheckpoint.
Proof. solve_decision. Defined.

Record TokenBridgeTransfersV1 (R : Type) := mkTransfers {
  transfers : list (BridgeTransferV1 R);
  data_checkpoint : BridgeDataCheckpoint;
}.
Arguments mkTransfers {R} _ _.
Arguments transfers {R} _.
Arguments data_checkpoint {R} _.

Inductive InherentError := InherentRequired | InherentNotExpected | IncorrectInherent.

(** ** The pallet *)

Inductive BridgeCall (R : Type) :=
  | call_handle_transfers (transfers : list (BridgeTransferV1 R)) (data_checkpoint : BridgeDataCheckpoint)
  | call_set_main_chain_scripts (scripts : MainChainScripts) (data_checkpoint : BridgeDataCheckpoint).
Arguments call_handle_transfers {R} _ _.
Arguments call_set_main_chain_scripts {R} _ _.

#[global] Instance BridgeCall_eq_dec `{EqDecision R} : EqDecision (BridgeCall R).
Proof. solve_decision. Defined.

Class TransferHandler (R H : Type) := handle_incoming_transfer : BridgeTransferV1 R → H → H.

Record BridgeState (H : Type) := mkBridge {
  MainChainScriptsConfiguration : option MainChainScripts;
  DataCheckpoint : option BridgeDataCheckpoint;
  bridge_handler : H;
}.
Arguments mkBridge {H} _ _ _.
Arguments MainChainScriptsConfiguration {H} _.
Arguments DataCheckpoint {H} _.
Arguments bridge_handler {H} _.

Inductive BridgeError := BridgeBadOrigin.

Section Pallet.
Context {R H : Type} `{EqDecision R, !TransferHandler R H} (MaxTransfersPerBlock : Z).

Definition bridge_genesis (main_chain_scripts : option MainChainScripts) (initial_checkpoint : option UtxoId)
    (h : H) : BridgeState H :=
  mkBridge main_chain_scripts (CheckpointUtxo <$> initial_checkpoint) h.

Definition handle_transfers (none_origin : bool) (transfers : list (BridgeTransferV1 R))
    (data_checkpoint : BridgeDataCheckpoint) (s : BridgeState H) : result BridgeError (BridgeState H) :=
  _ ← ensure none_origin BridgeBadOrigin;
  Ok (mkBridge (MainChainScriptsConfiguration s) (Some data_checkpoint)
        (foldl (flip handle_incoming_transfer) (bridge_handler s) transfers)).

Definition set_main_chain_scripts (governance_origin : bool) (new_scripts : MainChainScripts)
    (data_checkpoint : BridgeDataCheckpoint) (s : BridgeState H) : result BridgeError (BridgeState H) :=
  _ ← ensure governance_origin BridgeBadOrigin;
  Ok (mkBridge (Some new_scripts) (Some data_checkpoint) (bridge_handler s)).

(** [create_inherent] on the decoded inherent data; the vector of transfers has
    to fit [MaxTransfersPerBlock]. *)
Definition create_inherent (data : option (TokenBridgeTransfersV1 R)) : outcome (option (BridgeCall R)) :=
  match data with
  | None => Ret None
  | Some data =>
      if Z.of_nat (length (transfers data)) <=? MaxTransfersPerBlock
      then Ret (Some (call_handle_transfers (transfers data) (data_checkpoint data)))
      else Panic
  end.

Definition check_inherent (call : BridgeCall R) (data : option (TokenBridgeTransfersV1 R)) :
    outcome (result InherentError unit) :=
  expected ← create_inherent data;
  match expected with
  | None => Ret (Err InherentNotExpected)
  | Some expected_call =>
      if bool_decide (call ≠ expected_call) then Ret (Err IncorrectInherent) else Ret (Ok tt)
  end.

Definition is_inherent (call : BridgeCall R) : bool :=
  match call with call_handle_transfers _ _ => true | _ => false end.

Definition is_inherent_required (data : option (TokenBridgeTransfersV1 R)) :
    result InherentError (option InherentError) :=
  match data with None => Ok None | Some _ => Ok (Some InherentRequired) end.
End Pallet.

(** ** The inherent data provider *)

Inductive BridgeProvider (R : Type) := BridgeInert | BridgeActiveV1 (data : TokenBridgeTransfersV1 R).
Arguments BridgeInert {R}.
Arguments BridgeActiveV1 {R} _.

Inductive InherentDataCreationError (E F : Type) :=
  | BridgeApiError (e : E)
  | BridgeDataSourceError (e : F)
  | UnsupportedPalletVersion (version supported : Z).
Arguments BridgeApiError {E F} _.
Arguments BridgeDataSourceError {E F} _.
Arguments UnsupportedPalletVersion {E F} _ _.

Record BridgeApi (E : Type) := mkBridgeApi {
  bridge_api_version : result E (option Z);
  api_get_max_transfers_per_block : result E Z;
  api_get_last_data_checkpoint : result E (option BridgeDataCheckpoint);
  api_get_main_chain_scripts : result E (option MainChainScripts);
}.
Arguments mkBridgeApi {E} _ _ _ _.
Arguments bridge_api_version {E} _.
Arguments api_get_max_transfers_per_block {E} _.
Arguments api_get_last_data_checkpoint {E} _.
Arguments api_get_main_chain_scripts {E} _.

Section Provider.
Context {R E F : Type}.
(** [TokenBridgeDataSource::get_transfers] *)
Context (get_transfers : MainChainScripts → BridgeDataCheckpoint → Z → bytes →
  result F (list (BridgeTransferV1 R) * BridgeDataCheckpoint)).

Definition new_v1 (api : BridgeApi E) (current_mc_hash : bytes) :
    result (InherentDataCreationError E F) (BridgeProvider R) :=
  max_transfers ← map_err BridgeApiError (api_get_max_transfers_per_block api);
  last_checkpoint ← map_err BridgeApiError (api_get_last_data_checkpoint api);
  main_chain_scripts ← map_err BridgeApiError (api_get_main_chain_scripts api);
  match last_checkpoint, main_chain_scripts with
  | Some last_checkpoint, Some main_chain_scripts =>
      r ← map_err BridgeDataSourceError
            (get_transfers main_chain_scripts last_checkpoint max_transfers current_mc_hash);
      Ok (BridgeActiveV1 (mkTransfers r.1 r.2))
  | _, _ => Ok BridgeInert
  end.

Definition new (api : BridgeApi E) (current_mc_hash : bytes) :
    result (InherentDataCreationError E F) (BridgeProvider R) :=
  version ← map_err BridgeApiError (bridge_api_version api);
  match version with
  | None => Ok BridgeInert
  | Some pallet_version =>
      if pallet_version =? 1 then new_v1 api current_mc_hash
      else Err (UnsupportedPalletVersion pallet_version 1)
  end.
End Provider.

Definition provide_inherent_data {R} (idp : BridgeProvider R) : option (TokenBridgeTransfersV1 R) :=
  match idp with BridgeInert => None | BridgeActiveV1 data => Some data end.

(** ** The data source *)

Record BridgeUtxo := mkBridgeUtxo {
  bu_block_number : Z;
  bu_tx_ix : Z;
  bu_tx_hash : bytes;
  bu_utxo_ix : Z;
  bu_tokens_out : Z;
  bu_tokens_in : Z;
  bu_datum : option Datum;
}.

Definition utxo_id_of (u : BridgeUtxo) : UtxoId := mkUtxoId (bu_tx_hash u) (bu_utxo_ix u).

(** The key [(block_number, tx_ix, utxo_ix)], compared lexicographically. *)
Definition ordering_key (u : BridgeUtxo) : Z * Z * Z := (bu_block_number u, bu_tx_ix u, bu_utxo_ix u).
Definition key_lt (a b : Z * Z * Z) : Prop :=
  a.1.1 < b.1.1 ∨ (a.1.1 = b.1.1 ∧ (a.1.2 < b.1.2 ∨ (a.1.2 = b.1.2 ∧ a.2 < b.2))).
Definition key_leb (a b : Z * Z * Z) : bool :=
  (a.1.1 <? b.1.1) || ((a.1.1 =? b.1.1) && ((a.1.2 <? b.1.2) || ((a.1.2 =? b.1.2) && (a.2 <=? b.2)))).

Inductive ResolvedBridgeDataCheckpoint :=
  | ResolvedUtxo (block_number tx_ix tx_out_ix : Z)
  | ResolvedBlock (number : Z).

Definition get_block_number (c : ResolvedBridgeDataCheckpoint) : Z :=
  match c with ResolvedBlock number => number | ResolvedUtxo block_number _ _ => block_number end.

Record LedgerOut := mkLedgerOut {
  lo_block : Z;
  lo_tx_ix : Z;
  lo_tx_hash : bytes;
  lo_index : Z;
  lo_address : bytes;
  lo_assets : list (bytes * bytes * Z);
  lo_datum : option Datum;
  lo_tx_in : option bytes;
  lo_consumed_by : option bytes;
}.

Inductive BridgeSourceError :=
  | BlockNotFound (hash : bytes)
  | CheckpointNotFound (utxo : UtxoId)
  | LatestBlockError
  | CacheNotFilled.

Section Queries.
Context (row_order : ∀ A : Type, list A → list A).
Context (pool : list LedgerOut) (tx_in_configuration : TxInConfiguration).

Definition quantity_of (native_token : Asset) (o : LedgerOut) : option Z :=
  head (filter_map (λ '(policy, name, quantity),
    if bool_decide (policy = asset_policy native_token) && bool_decide (name = asset_asset_name native_token)
    then Some quantity else None) (lo_assets o)).

Definition consuming_tx (o : LedgerOut) : option bytes :=
  match tx_in_configuration with TxInEnabled => lo_tx_in o | TxInConsumed => lo_consumed_by o end.

(** [coalesce(sum(input_tokens.quantity), 0)] over the inputs of a transaction
    that were at the address. *)
Definition tokens_in_of (icp_address : bytes) (native_token : Asset) (hash : bytes) : Z :=
  zsum ((λ i, if bool_decide (consuming_tx i = Some hash) && bool_decide (lo_address i = icp_address)
              then default 0 (quantity_of native_token i) else 0) <$> pool).

Definition bridge_row (icp_address : bytes) (native_token : Asset) (o : LedgerOut) : option BridgeUtxo :=
  if bool_decide (lo_address o = icp_address) then
    quantity ← quantity_of native_token o;
    Some (mkBridgeUtxo (lo_block o) (lo_tx_ix o) (lo_tx_hash o) (lo_index o) quantity
            (tokens_in_of icp_address native_token (lo_tx_hash o)) (lo_datum o))
  else None.

Definition after_checkpoint (checkpoint : ResolvedBridgeDataCheckpoint) (u : BridgeUtxo) : bool :=
  match checkpoint with
  | ResolvedBlock number => number <? bu_block_number u
  | ResolvedUtxo block_number tx_ix tx_out_ix => negb (key_leb (ordering_key u) (block_number, tx_ix, tx_out_ix))
  end.

Definition utxo_le (x y : BridgeUtxo) : Prop := key_leb (ordering_key x) (ordering_key y) = true.
#[export] Instance utxo_le_dec : RelDecision utxo_le.
Proof. intros x y. unfold utxo_le. apply _. Defined.

Definition get_bridge_utxos_tx (icp_address : bytes) (native_token : Asset)
    (checkpoint : ResolvedBridgeDataCheckpoint) (to_block : Z) (max_utxos : option Z) : list BridgeUtxo :=
  let rows := order_by row_order utxo_le
    (filter (λ u, (bu_block_number u <=? to_block) && after_checkpoint checkpoint u = true)
       (filter_map (bridge_row icp_address native_token) pool)) in
  match max_utxos with None => rows | Some n => take (Z.to_nat n) rows end.
End Queries.

Definition asset_of (scripts : MainChainScripts) : Asset :=
  mkAsset (token_policy_id scripts) (token_asset_name scripts).

Section Transfer.
Context {R : Type} (recipient_try_from : bytes → option R).

Definition utxo_to_transfer (utxo : BridgeUtxo) : option (BridgeTransferV1 R) :=
  token_delta ← checked_sub (bu_tokens_out utxo) (bu_tokens_in utxo);
  if token_delta =? 0 then None
  else
    let token_amount := wrap 64 token_delta in
    match bu_datum utxo with
    | None => Some (InvalidTransfer token_amount (utxo_id_of utxo))
    | Some datum =>
        Some (match token_transfer_decode datum with
              | Ok (UserTransferV1 receiver) =>
                  match recipient_try_from receiver with
                  | Some recipient => UserTransfer token_amount recipient
                  | None => InvalidTransfer token_amount (utxo_id_of utxo)
                  end
              | Ok ReserveTransferV1 => ReserveTransfer token_amount
              | Err _ => InvalidTransfer token_amount (utxo_id_of utxo)
              end)
    end.
End Transfer.

Section Source.
Context {R : Type} (recipient_try_from : bytes → option R).
Context (row_order : ∀ A : Type, list A → list A).
Context (pool : list LedgerOut) (tx_in_configuration : TxInConfiguration).
(** [get_block_by_hash] and [get_block_info_for_utxo]. *)
Context (block_no_of : bytes → option Z) (tx_info : bytes → option (Z * Z)).

Definition resolve_checkpoint_for_utxo (utxo : UtxoId) : result BridgeSourceError ResolvedBridgeDataCheckpoint :=
  info ← ok_or (tx_info (tx_hash utxo)) (CheckpointNotFound utxo);
  Ok (ResolvedUtxo info.1 info.2 (utxo_index utxo)).

Definition query (scripts : MainChainScripts) :=
  get_bridge_utxos_tx row_order pool tx_in_configuration
    (illiquid_circulation_supply_validator_address scripts) (asset_of scripts).

(** [TokenBridgeDataSourceImpl::get_transfers] *)
Definition get_transfers (main_chain_scripts : MainChainScripts) (data_checkpoint : BridgeDataCheckpoint)
    (max_transfers : Z) (current_mc_block_hash : bytes) :
    result BridgeSourceError (list (BridgeTransferV1 R) * BridgeDataCheckpoint) :=
  current_mc_block ← ok_or (block_no_of current_mc_block_hash) (BlockNotFound current_mc_block_hash);
  data_checkpoint ← match data_checkpoint with
                    | CheckpointUtxo utxo => resolve_checkpoint_for_utxo utxo
                    | CheckpointBlock number => Ok (ResolvedBlock number)
                    end;
  let utxos := query main_chain_scripts data_checkpoint current_mc_block (Some max_transfers) in
  let new_checkpoint :=
    match last utxos with
    | None => CheckpointBlock current_mc_block
    | Some utxo =>
        if Z.of_nat (length utxos) <? max_transfers then CheckpointBlock current_mc_block
        else CheckpointUtxo (utxo_id_of utxo)
    end in
  Ok (filter_map (utxo_to_transfer recipient_try_from) utxos, new_checkpoint).

(** ** The cached data source *)

Record TokenUtxoCache := mkTokenCache {
  mc_scripts : MainChainScripts;
  start_block : Z;
  end_block : Z;
  cached_transfers : list BridgeUtxo;
  utxo_cache : gmap UtxoId BridgeUtxo;
}.

Definition cache_new : TokenUtxoCache := mkTokenCache (mkBridgeScripts (replicate 28 0) [] []) 0 0 [] ∅.

Definition set_mc_scripts (self : TokenUtxoCache) (scripts : MainChainScripts) : TokenUtxoCache :=
  if decide (mc_scripts self = scripts) then self
  else mkTokenCache scripts 0 0 [] (utxo_cache self).

Definition set_cached_transfers (self : TokenUtxoCache) (start_block end_block : Z) (transfers : list BridgeUtxo) :
    TokenUtxoCache :=
  mkTokenCache (mc_scripts self) start_block end_block transfers
    (foldl (λ m u, <[utxo_id_of u := u]> m) ∅ transfers).

Definition serve_from_cache (self : TokenUtxoCache) (checkpoint : ResolvedBridgeDataCheckpoint)
    (to_block max_transfers : Z) : option (list BridgeUtxo) :=
  if end_block self <? to_block then None
  else
    skip_pred ←
      match checkpoint with
      | ResolvedBlock number =>
          if start_block self <=? sat_add 32 number 1
          then Some (λ u, bu_block_number u <=? number) else None
      | ResolvedUtxo block_number tx_ix tx_out_ix =>
          if start_block self <=? block_number
          then Some (λ u, key_leb (ordering_key u) (block_number, tx_ix, tx_out_ix)) else None
      end;
    Some (take (Z.to_nat max_transfers)
            (take_while (λ u, bu_block_number u <=? to_block) (skip_while skip_pred (cached_transfers self)))).

Definition try_resolve_checkpoint_from_cache (self : TokenUtxoCache) (utxo_id : UtxoId) :
    option ResolvedBridgeDataCheckpoint :=
  u ← utxo_cache self !! utxo_id;
  Some (ResolvedUtxo (bu_block_number u) (bu_tx_ix u) (bu_utxo_ix u)).

Definition resolve_data_checkpoint (self : TokenUtxoCache) (data_checkpoint : BridgeDataCheckpoint) :
    result BridgeSourceError ResolvedBridgeDataCheckpoint :=
  match data_checkpoint with
  | CheckpointBlock number => Ok (ResolvedBlock number)
  | CheckpointUtxo utxo =>
      match try_resolve_checkpoint_from_cache self utxo with
      | Some checkpoint => Ok checkpoint
      | None => resolve_checkpoint_for_utxo utxo
      end
  end.

(** [latest_stable_block] is what the block data source answers for the latest stable
    block. *)
Definition fill_cache (self : TokenUtxoCache) (cache_lookahead : Z)
    (latest_stable_block : result BridgeSourceError (option Z))
    (main_chain_scripts : MainChainScripts) (data_checkpoint : ResolvedBridgeDataCheckpoint) (to_block : Z) :
    result BridgeSourceError TokenUtxoCache :=
  let from_block := get_block_number data_checkpoint in
  let effective_data_checkpoint := ResolvedBlock (sat_sub from_block 1) in
  latest_stable_block ← latest_stable_block;
  let latest_block := default to_block latest_stable_block in
  let to_block := Z.min (sat_add 32 to_block cache_lookahead) latest_block in
  let utxos := query main_chain_scripts effective_data_checkpoint to_block None in
  Ok (set_cached_transfers self from_block to_block utxos).

(** [CachedTokenBridgeDataSourceImpl::get_transfers] *)
Definition get_transfers_cached (cache_lookahead : Z) (latest_stable_block : result BridgeSourceError (option Z))
    (cache : TokenUtxoCache) (main_chain_scripts : MainChainScripts) (data_checkpoint : BridgeDataCheckpoint)
    (max_transfers : Z) (current_mc_block_hash : bytes) :
    TokenUtxoCache * result BridgeSourceError (list (BridgeTransferV1 R) * BridgeDataCheckpoint) :=
  let cache := set_mc_scripts cache main_chain_scripts in
  match block_no_of current_mc_block_hash with
  | None => (cache, Err (BlockNotFound current_mc_block_hash))
  | Some to_block =>
      match resolve_data_checkpoint cache data_checkpoint with
      | Err e => (cache, Err e)
      | Ok data_checkpoint =>
          let finish (utxos : list BridgeUtxo) :=
            let new_checkpoint :=
              match last utxos with
              | Some utxo =>
                  if max_transfers <=? Z.of_nat (length utxos) then CheckpointUtxo (utxo_id_of utxo)
                  else CheckpointBlock to_block
              | None => CheckpointBlock to_block
              end in
            Ok (filter_map (utxo_to_transfer recipient_try_from) utxos, new_checkpoint) in
          match serve_from_cache cache data_checkpoint to_block max_transfers with
          | Some utxos => (cache, finish utxos)
          | None =>
              match fill_cache cache cache_lookahead latest_stable_block main_chain_scripts data_checkpoint to_block with
              | Err e => (cache, Err e)
              | Ok cache =>
                  match serve_from_cache cache data_checkpoint to_block max_transfers with
                  | Some utxos => (cache, finish utxos)
                  | None => (cache, Err CacheNotFilled)
                  end
              end
          end
      end
  end.
End Source.

(** ** Lemmas: the outputs of the bridge in order *)

Definition utxo_lt (x y : BridgeUtxo) : Prop := key_lt (ordering_key x) (ordering_key y).

#[export] Instance utxo_le_trans : Transitive utxo_le.
Proof. intros x y z. unfold utxo_le, key_leb, ordering_key. simpl. lia. Qed.
#[export] Instance utxo_le_total : Total utxo_le.
Proof. intros x y. unfold utxo_le, key_leb, ordering_key. simpl. lia. Qed.
#[export] Instance utxo_lt_antisymm : AntiSymm (=) utxo_lt.
Proof. intros x y. unfold utxo_lt, key_lt, ordering_key. simpl. lia. Qed.

Lemma sorted_strictly l :
  StronglySorted utxo_le l → NoDup (ordering_key <$> l) → StronglySorted utxo_lt l.
Proof.
  induction 1 as [|x l Hs IH Hx]; intros Hnd; [constructor|]. rewrite fmap_cons in Hnd.
  apply NoDup_cons in Hnd as [Hk Hnd]. constructor; [by apply IH|]. rewrite Forall_forall in *. intros y Hy.
  specialize (Hx y Hy). assert (ordering_key x ≠ ordering_key y) as Hne.
  { intros Heq. apply Hk. rewrite Heq. by apply list_elem_of_fmap_2. }
  unfold utxo_le, key_leb, utxo_lt, key_lt, ordering_key in *. simpl in *.
  destruct (decide (bu_block_number x = bu_block_number y)), (decide (bu_tx_ix x = bu_tx_ix y)),
    (decide (bu_utxo_ix x = bu_utxo_ix y)); try lia. exfalso. apply Hne. congruence.
Qed.

(** A downward closed test splits a sorted list. *)
Lemma sorted_split (p : BridgeUtxo → bool) l :
  StronglySorted utxo_lt l → (∀ x y, utxo_lt x y → p y = true → p x = true) →
  filter (λ x, p x = true) l ++ filter (λ x, p x = false) l = l ∧
  take_while p l = filter (λ x, p x = true) l ∧ skip_while p l = filter (λ x, p x = false) l.
Proof.
  intros Hs Hp. pose proof (StronglySorted_partitioned _ p l Hs Hp) as Hpart.
  rewrite <-(partitioned_take_while p l Hpart), <-(partitioned_skip_while p l Hpart).
  by rewrite take_skip_while.
Qed.

Lemma after_checkpoint_up c x y :
  utxo_lt x y → negb (after_checkpoint c y) = true → negb (after_checkpoint c x) = true.
Proof.
  unfold utxo_lt, key_lt, after_checkpoint, key_leb, ordering_key. destruct c as [b t i|n]; simpl; lia.
Qed.

Lemma filter_and {A} (P Q : A → bool) (l : list A) :
  filter (λ x, P x && Q x = true) l = filter (λ x, P x = true) (filter (λ x, Q x = true) l).
Proof.
  induction l as [|x l IH]; [done|]. rewrite !filter_cons. destruct (Q x) eqn:HQ.
  - rewrite andb_true_r. rewrite (decide_True (P:=true = true)) by done. rewrite filter_cons, IH. done.
  - rewrite andb_false_r. repeat (rewrite decide_False by done). done.
Qed.

Section Ordered.
Context (row_order : ∀ A : Type, list A → list A) (Hrow : ∀ A (l : list A), row_order A l ≡ₚ l).
Context (pool : list LedgerOut) (tx_in_configuration : TxInConfiguration).
Context (tx_info : bytes → option (Z * Z)).

Definition all_rows (scripts : MainChainScripts) : list BridgeUtxo :=
  filter_map (bridge_row pool tx_in_configuration
    (illiquid_circulation_supply_validator_address scripts) (asset_of scripts)) pool.

(** All outputs of the bridge, oldest first. *)
Definition all_utxos (scripts : MainChainScripts) : list BridgeUtxo :=
  order_by row_order utxo_le (all_rows scripts).

(** The database is consistent: an output is identified by its position, the
    transaction of an output is where the output says, and no bridge output is in
    the genesis block. *)
Record bridge_db_wf (scripts : MainChainScripts) : Prop := {
  wf_keys : NoDup (ordering_key <$> all_rows scripts);
  wf_tx_info : ∀ u, u ∈ all_rows scripts → tx_info (bu_tx_hash u) = Some (bu_block_number u, bu_tx_ix u);
  wf_blocks : ∀ u, u ∈ all_rows scripts → 1 ≤ bu_block_number u < u_bound 32;
}.

Context (scripts : MainChainScripts) (Hwf : bridge_db_wf scripts).

Lemma all_utxos_Permutation : all_utxos scripts ≡ₚ all_rows scripts.
Proof. by apply order_by_Permutation. Qed.

Lemma all_utxos_sorted : StronglySorted utxo_lt (all_utxos scripts).
Proof.
  apply sorted_strictly; [apply (StronglySorted_merge_sort _)|]. rewrite all_utxos_Permutation. apply (wf_keys _ Hwf).
Qed.

Lemma query_all checkpoint to_block :
  query row_order pool tx_in_configuration scripts checkpoint to_block None
  = filter (λ u, (bu_block_number u <=? to_block) && after_checkpoint checkpoint u = true) (all_utxos scripts).
Proof.
  unfold query, get_bridge_utxos_tx. fold (all_rows scripts).
  set (P := λ u, (bu_block_number u <=? to_block) && after_checkpoint checkpoint u = true).
  apply (StronglySorted_unique utxo_lt).
  - apply sorted_strictly; [apply (StronglySorted_merge_sort _)|].
    rewrite order_by_Permutation by done. pose proof (wf_keys _ Hwf) as Hnd. revert Hnd. generalize (all_rows scripts).
    intros l. induction l as [|x l IH]; [done|]. rewrite fmap_cons, NoDup_cons, filter_cons. intros [Hx Hnd].
    case_decide; [|by apply IH]. rewrite fmap_cons. apply NoDup_cons. split; [|by apply IH].
    intros (y & Hy & [_ Hin]%list_elem_of_filter)%list_elem_of_fmap. apply Hx. rewrite Hy. by apply list_elem_of_fmap_2.
  - apply StronglySorted_filter, all_utxos_sorted.
  - rewrite order_by_Permutation by done. by rewrite all_utxos_Permutation.
Qed.

Lemma query_limit checkpoint to_block max :
  query row_order pool tx_in_configuration scripts checkpoint to_block (Some max)
  = take (Z.to_nat max)
      (filter (λ u, (bu_block_number u <=? to_block) && after_checkpoint checkpoint u = true) (all_utxos scripts)).
Proof. by rewrite <-query_all. Qed.

(** The outputs between two checkpoints. *)
Definition between (c c' : ResolvedBridgeDataCheckpoint) : list BridgeUtxo :=
  filter (λ u, negb (after_checkpoint c' u) && after_checkpoint c u = true) (all_utxos scripts).

Definition later (c c' : ResolvedBridgeDataCheckpoint) : Prop :=
  ∀ u, after_checkpoint c' u = true → after_checkpoint c u = true.

Lemma between_app c0 c c' : later c0 c → later c c' → between c0 c ++ between c c' = between c0 c'.
Proof.
  intros H0 H1. unfold between.
  destruct (sorted_split (λ u, negb (after_checkpoint c u))
    (filter (λ u, negb (after_checkpoint c' u) && after_checkpoint c0 u = true) (all_utxos scripts))) as [<- _].
  { apply StronglySorted_filter, all_utxos_sorted. }
  { intros x y. apply after_checkpoint_up. }
  rewrite !list_filter_filter. f_equal; apply list_filter_iff_elem; intros u _.
  - specialize (H0 u). specialize (H1 u).
    destruct (after_checkpoint c u), (after_checkpoint c0 u), (after_checkpoint c' u); naive_solver.
  - specialize (H0 u). specialize (H1 u).
    destruct (after_checkpoint c u), (after_checkpoint c0 u), (after_checkpoint c' u); naive_solver.
Qed.

(** The checkpoint after a query, with its position. *)
Definition resolved_next (to_block max : Z) (utxos : list BridgeUtxo) : ResolvedBridgeDataCheckpoint :=
  match last utxos with
  | None => ResolvedBlock to_block
  | Some u =>
      if Z.of_nat (length utxos) <? max then ResolvedBlock to_block
      else ResolvedUtxo (bu_block_number u) (bu_tx_ix u) (bu_utxo_ix u)
  end.

Lemma later_block c n : get_block_number c ≤ n → later c (ResolvedBlock n).
Proof.
  intros Hc u. unfold after_checkpoint, key_leb, ordering_key. destruct c as [b t i|m]; simpl in *; lia.
Qed.

(** A limited query takes the outputs up to the last one it returns. *)
Lemma take_upto (l : list BridgeUtxo) k u :
  StronglySorted utxo_lt l → last (take k l) = Some u →
  take k l = filter (λ x, key_leb (ordering_key x) (ordering_key u) = true) l.
Proof.
  intros Hs Hlast. rewrite <-(take_drop k l) at 2. rewrite filter_app.
  rewrite <-(take_drop k l) in Hs. apply last_Some in Hlast as [l' Hl']. rewrite Hl' in Hs |- *.
  assert (∀ x, x ∈ l' → utxo_lt x u) as Hlow.
  { intros x Hx. eapply (StronglySorted_app_1_elem_of _ l' [u]);
      [by eapply StronglySorted_app_1_l|done|by left]. }
  assert (∀ x, x ∈ drop k l → utxo_lt u x) as Hhigh.
  { intros x Hx. eapply StronglySorted_app_1_elem_of; [exact Hs| |done]. apply elem_of_app. right. by left. }
  rewrite (filter_none _ (drop k l)), (filter_all _ (l' ++ [u])), app_nil_r; [done|..].
  - apply Forall_forall. intros x [Hx| ->%list_elem_of_singleton]%elem_of_app.
    + specialize (Hlow x Hx). unfold utxo_lt, key_lt, key_leb, ordering_key in *. simpl in *. lia.
    + unfold key_leb. simpl. lia.
  - apply Forall_forall. intros x Hx. specialize (Hhigh x Hx).
    unfold utxo_lt, key_lt, key_leb, ordering_key in *. simpl in *. lia.
Qed.

Lemma step_between c n max :
  1 ≤ max → get_block_number c ≤ n →
  let utxos := query row_order pool tx_in_configuration scripts c n (Some max) in
  let c' := resolved_next n max utxos in
  utxos = between c c' ∧ later c c' ∧ get_block_number c' ≤ n.
Proof.
  intros Hmax Hc. rewrite query_limit. set (pending := filter _ (all_utxos scripts)). simpl.
  assert (StronglySorted utxo_lt pending) as Hs by (apply StronglySorted_filter, all_utxos_sorted).
  assert (Z.of_nat (length (take (Z.to_nat max) pending)) < max →
    take (Z.to_nat max) pending = between c (ResolvedBlock n)) as Hblock.
  { rewrite length_take. intros Hlt. rewrite take_ge by lia. apply list_filter_iff_elem. intros u _. simpl.
    by rewrite Z.ltb_antisym, negb_involutive. }
  unfold resolved_next. destruct (last (take (Z.to_nat max) pending)) as [u|] eqn:Hlast.
  - destruct (Z.ltb_spec (Z.of_nat (length (take (Z.to_nat max) pending))) max) as [Hlt|Hge].
    { split_and!; [by apply Hblock|by apply later_block|done]. }
    assert (u ∈ pending) as [[Hun Huc]%andb_true_iff _]%list_elem_of_filter.
    { rewrite <-(take_drop (Z.to_nat max) pending). apply elem_of_app. left. by apply last_Some_elem_of. }
    split_and!; [|intros x Hx|simpl; lia].
    + rewrite (take_upto _ _ u Hs Hlast). unfold pending, between. rewrite list_filter_filter.
      apply list_filter_iff_elem. intros x _. simpl. rewrite negb_involutive, !andb_true_iff.
      split; [tauto|]. intros [Hk Ha]. split_and!; try done.
      unfold key_leb, ordering_key in Hk. simpl in Hk. lia.
    + destruct (after_checkpoint c x) eqn:Hcx; [done|exfalso].
      assert (negb (after_checkpoint c u) = true) as Hcu.
      { apply (after_checkpoint_up c u x); [|by rewrite Hcx].
        unfold utxo_lt, key_lt. simpl in Hx. unfold key_leb, ordering_key in *. simpl in *. lia. }
      by rewrite Huc in Hcu.
  - apply last_None in Hlast. split_and!; [apply Hblock; rewrite Hlast; simpl; lia|by apply later_block|done].
Qed.
End Ordered.

(** ** The bridge on a chain of blocks *)

Section Chain.
Context {R H : Type} `{EqDecision R, !TransferHandler R H} (MaxTransfersPerBlock : Z).
Context (recipient_try_from : bytes → option R).
Context (row_order : ∀ A : Type, list A → list A) (pool : list LedgerOut) (tx_in_configuration : TxInConfiguration).
Context (block_no_of : bytes → option Z) (tx_info : bytes → option (Z * Z)).

Definition bridge_api_of (s : BridgeState H) : BridgeApi unit :=
  mkBridgeApi (Ok (Some 1)) (Ok MaxTransfersPerBlock) (Ok (DataCheckpoint s)) (Ok (MainChainScriptsConfiguration s)).

Definition provider_at (s : BridgeState H) (mc_hash : bytes) :=
  new (get_transfers recipient_try_from row_order pool tx_in_configuration block_no_of tx_info) (bridge_api_of s) mc_hash.

Definition apply_inherent (idp : BridgeProvider R) (s : BridgeState H) : option (BridgeState H) :=
  match create_inherent MaxTransfersPerBlock (provide_inherent_data idp) with
  | Ret None => Some s
  | Ret (Some (call_handle_transfers transfers data_checkpoint)) => ok (handle_transfers true transfers data_checkpoint s)
  | _ => None
  end.

(** Blocks that refer to Cardano blocks [m0 <= ... <= m]. *)
Inductive bridge_run (s0 : BridgeState H) (m0 : Z) : BridgeState H → Z → Prop :=
  | bridge_run_start : bridge_run s0 m0 s0 m0
  | bridge_run_block s m mc_hash n idp s' :
      bridge_run s0 m0 s m → block_no_of mc_hash = Some n → m ≤ n →
      provider_at s mc_hash = Ok idp → apply_inherent idp s = Some s' →
      bridge_run s0 m0 s' n.

Definition resolve (c : BridgeDataCheckpoint) : result BridgeSourceError ResolvedBridgeDataCheckpoint :=
  match c with
  | CheckpointUtxo utxo => resolve_checkpoint_for_utxo tx_info utxo
  | CheckpointBlock number => Ok (ResolvedBlock number)
  end.

Abbreviation query_at scripts := (query row_order pool tx_in_configuration scripts).
Abbreviation transfers_of := (filter_map (utxo_to_transfer recipient_try_from)).

(** The checkpoint a query leads to resolves to the position of its last output. *)
Lemma resolve_next scripts utxos n max :
  bridge_db_wf pool tx_in_configuration tx_info scripts →
  (∀ u, u ∈ utxos → u ∈ all_rows pool tx_in_configuration scripts) →
  resolve (match last utxos with
           | None => CheckpointBlock n
           | Some utxo =>
               if Z.of_nat (length utxos) <? max then CheckpointBlock n else CheckpointUtxo (utxo_id_of utxo)
           end) = Ok (resolved_next n max utxos).
Proof.
  intros Hwf Hin. unfold resolved_next. destruct (last utxos) as [u|] eqn:Hl; [|done].
  destruct (_ <? max); [done|]. simpl. unfold resolve_checkpoint_for_utxo. simpl.
  rewrite (wf_tx_info _ _ _ _ Hwf u); [done|]. apply Hin. by apply last_Some_elem_of.
Qed.

Lemma query_subset scripts c n max u :
  (∀ A (l : list A), row_order A l ≡ₚ l) →
  u ∈ query_at scripts c n (Some max) → u ∈ all_rows pool tx_in_configuration scripts.
Proof.
  intros Hrow (i & Hi & _)%elem_of_take. apply list_elem_of_lookup_2 in Hi.
  rewrite order_by_Permutation in Hi by done. by apply list_elem_of_filter in Hi as [_ Hi].
Qed.

(** One block from a resolved checkpoint. *)
Lemma bridge_block scripts s c rc mc_hash n :
  (∀ A (l : list A), row_order A l ≡ₚ l) → bridge_db_wf pool tx_in_configuration tx_info scripts →
  1 ≤ MaxTransfersPerBlock → MainChainScriptsConfiguration s = Some scripts → DataCheckpoint s = Some c →
  resolve c = Ok rc → get_block_number rc ≤ n → block_no_of mc_hash = Some n →
  ∃ idp s' c' rc', provider_at s mc_hash = Ok idp ∧ apply_inherent idp s = Some s' ∧
    MainChainScriptsConfiguration s' = Some scripts ∧ DataCheckpoint s' = Some c' ∧
    resolve c' = Ok rc' ∧ get_block_number rc' ≤ n ∧ later rc rc' ∧
    bridge_handler s' = foldl (flip handle_incoming_transfer) (bridge_handler s)
      (transfers_of (between row_order pool tx_in_configuration scripts rc rc')).
Proof.
  intros Hrow Hwf Hmax Hsc Hc Hrc Hn Hmc.
  destruct (step_between row_order Hrow pool tx_in_configuration tx_info scripts Hwf rc n MaxTransfersPerBlock Hmax Hn)
    as (Hutxos & Hlater & Hblock).
  set (utxos := query_at scripts rc n (Some MaxTransfersPerBlock)) in *.
  pose proof (resolve_next scripts utxos n MaxTransfersPerBlock Hwf
    (λ u, query_subset scripts rc n MaxTransfersPerBlock u Hrow)) as Hres.
  set (c' := match last utxos with Some _ => _ | None => _ end) in Hres.
  assert (Z.of_nat (length utxos) ≤ MaxTransfersPerBlock) as Hlen.
  { unfold utxos, query, get_bridge_utxos_tx. rewrite length_take. lia. }
  exists (BridgeActiveV1 (mkTransfers (transfers_of utxos) c')).
  exists (mkBridge (Some scripts) (Some c')
    (foldl (flip handle_incoming_transfer) (bridge_handler s) (transfers_of utxos))).
  exists c', (resolved_next n MaxTransfersPerBlock utxos). split_and!; try done.
  - unfold provider_at, new, new_v1, bridge_api_of. simpl. rewrite Hc, Hsc. simpl.
    unfold get_transfers. rewrite Hmc. simpl. unfold resolve in Hrc.
    destruct c; rewrite Hrc; simpl; reflexivity.
  - unfold apply_inherent, create_inherent. simpl. pose proof (length_filter_map_le (utxo_to_transfer recipient_try_from) utxos).
    destruct (Z.leb_spec (Z.of_nat (length (transfers_of utxos))) MaxTransfersPerBlock); [|lia]. simpl. by rewrite Hsc.
  - simpl. by rewrite <-Hutxos.
Qed.

Lemma bridge_run_inv scripts s0 m0 c0 rc0 s m :
  (∀ A (l : list A), row_order A l ≡ₚ l) → bridge_db_wf pool tx_in_configuration tx_info scripts →
  1 ≤ MaxTransfersPerBlock → MainChainScriptsConfiguration s0 = Some scripts → DataCheckpoint s0 = Some c0 →
  resolve c0 = Ok rc0 → get_block_number rc0 ≤ m0 → bridge_run s0 m0 s m →
  ∃ c rc, MainChainScriptsConfiguration s = Some scripts ∧ DataCheckpoint s = Some c ∧ resolve c = Ok rc ∧
    get_block_number rc ≤ m ∧ later rc0 rc ∧
    bridge_handler s = foldl (flip handle_incoming_transfer) (bridge_handler s0)
      (transfers_of (between row_order pool tx_in_configuration scripts rc0 rc)).
Proof.
  intros Hrow Hwf Hmax Hsc0 Hc0 Hrc0 Hm0. induction 1 as [|s m mc_hash n idp s' Hrun IH Hmc Hmn Hidp Hex].
  - exists c0, rc0. split_and!; try done; [by intros u|]. unfold between. rewrite filter_none; [done|].
    apply Forall_forall. intros u _. destruct (after_checkpoint rc0 u); done.
  - destruct IH as (c & rc & Hsc & Hc & Hrc & Hm & Hlater & Hh).
    destruct (bridge_block scripts s c rc mc_hash n) as (idp' & s'' & c' & rc' & Hidp' & Hex' & Hsc' & Hc' & Hrc' & Hn & Hl' & Hh');
      try done; [lia|].
    rewrite Hidp in Hidp'. injection Hidp' as <-. rewrite Hex in Hex'. injection Hex' as <-.
    exists c', rc'. split_and!; try done; [intros u Hu; by apply Hlater, Hl'|].
    rewrite Hh', Hh, <-foldl_app, <-filter_map_app. by rewrite (between_app row_order Hrow pool _ tx_info).
Qed.
End Chain.

(** ** The cache *)

Section CacheLemmas.
Context {R : Type} (recipient_try_from : bytes → option R).
Context (row_order : ∀ A : Type, list A → list A) (Hrow : ∀ A (l : list A), row_order A l ≡ₚ l).
Context (pool : list LedgerOut) (tx_in_configuration : TxInConfiguration).
Context (block_no_of : bytes → option Z) (tx_info : bytes → option (Z * Z)).
Context (Hwf : ∀ scripts, bridge_db_wf pool tx_in_configuration tx_info scripts).

Abbreviation all scripts := (all_utxos row_order pool tx_in_configuration scripts).

(** The cache holds all outputs from its first to its last block, and positions
    of outputs that are right. *)
Record token_cache_inv (cache : TokenUtxoCache) : Prop := {
  inv_transfers : cached_transfers cache =
    filter (λ u, (start_block cache <=? bu_block_number u) && (bu_block_number u <=? end_block cache) = true)
      (all (mc_scripts cache));
  inv_positions : ∀ id u, utxo_cache cache !! id = Some u →
    id = utxo_id_of u ∧ tx_info (bu_tx_hash u) = Some (bu_block_number u, bu_tx_ix u);
}.

Lemma all_blocks scripts u : u ∈ all scripts → 1 ≤ bu_block_number u < u_bound 32.
Proof. rewrite (all_utxos_Permutation row_order Hrow). apply (wf_blocks _ _ _ _ (Hwf scripts)). Qed.

Lemma set_mc_scripts_inv cache scripts :
  token_cache_inv cache →
  token_cache_inv (set_mc_scripts cache scripts) ∧ mc_scripts (set_mc_scripts cache scripts) = scripts.
Proof.
  intros Hinv. unfold set_mc_scripts. case_decide; [by split|]. split; [|done].
  split; simpl; [|apply (inv_positions _ Hinv)]. symmetry. apply filter_none, Forall_forall.
  intros u Hu. apply all_blocks in Hu. lia.
Qed.

Lemma resolve_cached cache c : token_cache_inv cache → resolve_data_checkpoint tx_info cache c = resolve tx_info c.
Proof.
  intros Hinv. destruct c as [id|]; [|done]. unfold resolve_data_checkpoint, try_resolve_checkpoint_from_cache.
  destruct (utxo_cache cache !! id) as [u|] eqn:Hu; [|done].
  destruct (inv_positions _ Hinv id u Hu) as [-> Hinfo]. simpl. unfold resolve_checkpoint_for_utxo. simpl. by rewrite Hinfo.
Qed.

Lemma fill_cache_inv cache lookahead stable c to_block cache' :
  fill_cache row_order pool tx_in_configuration cache lookahead (Ok stable) (mc_scripts cache) c to_block = Ok cache' →
  token_cache_inv cache' ∧ mc_scripts cache' = mc_scripts cache.
Proof.
  unfold fill_cache. cbn [mbind result_bind]. set (last_block := Z.min _ _).
  rewrite (query_all row_order Hrow pool tx_in_configuration tx_info _ (Hwf _)).
  intros [= <-]. split; [|done]. split; simpl.
  - apply list_filter_iff_elem. intros u Hu. apply all_blocks in Hu. simpl. unfold sat_sub. lia.
  - intros id u.
    assert (∀ l (m : gmap UtxoId BridgeUtxo), (∀ v, v ∈ l → v ∈ all (mc_scripts cache)) →
      (∀ i v, m !! i = Some v → i = utxo_id_of v ∧ v ∈ all (mc_scripts cache)) →
      foldl (λ m u, <[utxo_id_of u := u]> m) m l !! id = Some u → id = utxo_id_of u ∧ u ∈ all (mc_scripts cache)) as Hfold.
    { induction l as [|v l IH]; intros m Hl Hm; simpl; [apply Hm|]. apply IH; [intros; apply Hl; by right|].
      intros i w. destruct (decide (utxo_id_of v = i)) as [<-|].
      - rewrite lookup_insert_eq. intros [= <-]. split; [done|]. apply Hl. by left.
      - rewrite lookup_insert_ne by done. apply Hm. }
    intros Hid. apply Hfold in Hid as [-> Hu];
      [|by intros v [_ Hv]%list_elem_of_filter|by intros i v; rewrite lookup_empty].
    split; [done|]. rewrite (all_utxos_Permutation row_order Hrow) in Hu. by apply (wf_tx_info _ _ _ _ (Hwf (mc_scripts cache))).
Qed.

(** What the cache serves is what the query returns. *)
Lemma serve_from_cache_query cache c to_block max utxos :
  token_cache_inv cache → serve_from_cache cache c to_block max = Some utxos →
  utxos = query row_order pool tx_in_configuration (mc_scripts cache) c to_block (Some max).
Proof.
  intros Hinv. unfold serve_from_cache. destruct (Z.ltb_spec (end_block cache) to_block) as [|Hend]; [done|].
  rewrite (query_limit row_order Hrow pool tx_in_configuration tx_info _ (Hwf _)).
  assert (StronglySorted utxo_lt (cached_transfers cache)) as Hs.
  { rewrite (inv_transfers _ Hinv). apply StronglySorted_filter.
    apply (all_utxos_sorted row_order Hrow pool tx_in_configuration tx_info _ (Hwf _)). }
  assert (∀ skip, (∀ x, skip x = negb (after_checkpoint c x)) →
    (∀ u, u ∈ all (mc_scripts cache) → after_checkpoint c u = true → start_block cache ≤ bu_block_number u) →
    take_while (λ u, bu_block_number u <=? to_block) (skip_while skip (cached_transfers cache))
    = filter (λ u, (bu_block_number u <=? to_block) && after_checkpoint c u = true) (all (mc_scripts cache))) as Hserve.
  { intros skip Hskip Hstart.
    destruct (sorted_split skip (cached_transfers cache) Hs) as (_ & _ & ->).
    { intros x y Hxy. rewrite !Hskip. by apply after_checkpoint_up. }
    destruct (sorted_split (λ u, bu_block_number u <=? to_block)
      (filter (λ x, skip x = false) (cached_transfers cache))) as (_ & -> & _).
    { by apply StronglySorted_filter. }
    { intros x y. unfold utxo_lt, key_lt, ordering_key. simpl. lia. }
    rewrite (inv_transfers _ Hinv), !list_filter_filter. apply list_filter_iff_elem. intros u Hu. simpl.
    specialize (Hstart u Hu). rewrite Hskip, negb_false_iff. rewrite !andb_true_iff. split; [tauto|].
    intros [? Ha]. specialize (Hstart Ha). split_and!; try done; lia. }
  destruct c as [b t i|number].
  - destruct (Z.leb_spec (start_block cache) b); simpl; [|done]. intros [= <-]. f_equal. apply Hserve.
    + intros x. simpl. by rewrite negb_involutive.
    + intros u _. simpl. unfold key_leb, ordering_key. simpl. lia.
  - unfold sat_add. destruct (Z.leb_spec (start_block cache) (Z.min (number + 1) (u_bound 32 - 1))); simpl; [|done].
    intros [= <-]. f_equal. apply Hserve; [intros x; simpl; lia|]. intros u _. simpl. lia.
Qed.

(** Filling the cache is enough unless the block is above the latest stable one. *)
Lemma serve_after_fill cache lookahead stable c to_block max cache' :
  0 ≤ lookahead → in_u 32 to_block → get_block_number c < u_bound 32 →
  fill_cache row_order pool tx_in_configuration cache lookahead (Ok stable) (mc_scripts cache) c to_block = Ok cache' →
  serve_from_cache cache' c to_block max = None ↔ ∃ b, stable = Some b ∧ b < to_block.
Proof.
  intros Hl Hto Hc [= <-]. unfold serve_from_cache. simpl. unfold sat_add, in_u in *.
  destruct (Z.ltb_spec (Z.min (Z.min (to_block + lookahead) (u_bound 32 - 1)) (default to_block stable)) to_block) as [Hlt|Hge].
  { split; [|done]. intros _. destruct stable as [b|]; simpl in *; [|lia]. exists b. split; [done|lia]. }
  split; [|intros (b & -> & Hb); simpl in Hge; lia].
  destruct c as [b t i|number]; simpl in *.
  - by rewrite Z.leb_refl.
  - destruct (Z.leb_spec number (Z.min (number + 1) (u_bound 32 - 1))); [done|lia].
Qed.
End CacheLemmas.

(** What db-sync guarantees about its tables: an output is identified by its
    position, the transaction of an output is where the output says, and no
    output is in the genesis block. *)
Record pool_wf (pool : list LedgerOut) (tx_info : bytes → option (Z * Z)) : Prop := {
  pool_positions : NoDup ((λ o, (lo_block o, lo_tx_ix o, lo_index o)) <$> pool);
  pool_tx_info : ∀ o, o ∈ pool → tx_info (lo_tx_hash o) = Some (lo_block o, lo_tx_ix o);
  pool_blocks : ∀ o, o ∈ pool → 1 ≤ lo_block o < u_bound 32;
}.

Lemma bridge_row_fields pool config address token o u :
  bridge_row pool config address token o = Some u →
  bu_block_number u = lo_block o ∧ bu_tx_ix u = lo_tx_ix o ∧ bu_tx_hash u = lo_tx_hash o ∧ bu_utxo_ix u = lo_index o.
Proof.
  unfold bridge_row. case_bool_decide; [|done]. destruct (quantity_of token o); [|done]. simpl. by intros [= <-].
Qed.

Lemma pool_wf_bridge pool config tx_info scripts : pool_wf pool tx_info → bridge_db_wf pool config tx_info scripts.
Proof.
  intros [Hpos Hinfo Hblk]. split.
  - unfold all_rows. set (f := bridge_row pool config _ _).
    assert (∀ o u, f o = Some u → ordering_key u = (lo_block o, lo_tx_ix o, lo_index o)) as Hf.
    { intros o u (Hb & Ht & _ & Hi)%bridge_row_fields. unfold ordering_key. congruence. }
    clearbody f. clear Hinfo Hblk. induction pool as [|o l IH]; [constructor|].
    rewrite fmap_cons in Hpos. apply NoDup_cons in Hpos as [Ho Hpos]. simpl.
    destruct (f o) as [u|] eqn:Hu; [|by apply IH]. rewrite fmap_cons. apply NoDup_cons. split; [|by apply IH].
    rewrite (Hf o u Hu). intros (v & Hv & (o' & Ho' & Hfo')%elem_of_filter_map)%list_elem_of_fmap.
    apply Ho. rewrite Hv, (Hf o' v Hfo'). by apply (list_elem_of_fmap_2 (λ o, (lo_block o, lo_tx_ix o, lo_index o))).
  - intros u (o & Ho & (-> & -> & -> & _)%bridge_row_fields)%elem_of_filter_map. by apply Hinfo.
  - intros u (o & Ho & (-> & _)%bridge_row_fields)%elem_of_filter_map. by apply Hblk.
Qed.

(** ** Theorems *)

(** C16. Every token transfer is handled exactly once and in order.  Starting from
    a checkpoint, after any number of blocks that refer to Cardano blocks in
    order, the handler has been run on the transfers of exactly the outputs
    between the first checkpoint and the stored one, oldest first; and the next
    block can always be built: the data source answers, the number of transfers
    fits the limit, and the inherent is accepted. *)
Theorem bridge_exactly_once {R H : Type} `{EqDecision R, !TransferHandler R H} MaxTransfersPerBlock recipient_try_from
    row_order pool tx_in_configuration block_no_of tx_info scripts (s0 : BridgeState H) m0 c0 rc0 s m :
  (∀ A (l : list A), row_order A l ≡ₚ l) → pool_wf pool tx_info →
  1 ≤ MaxTransfersPerBlock → MainChainScriptsConfiguration s0 = Some scripts → DataCheckpoint s0 = Some c0 →
  resolve tx_info c0 = Ok rc0 → get_block_number rc0 ≤ m0 →
  bridge_run MaxTransfersPerBlock recipient_try_from row_order pool tx_in_configuration block_no_of tx_info s0 m0 s m →
  (∃ c rc, DataCheckpoint s = Some c ∧ resolve tx_info c = Ok rc ∧ get_block_number rc ≤ m ∧
     bridge_handler s = foldl (flip handle_incoming_transfer) (bridge_handler s0)
       (filter_map (utxo_to_transfer recipient_try_from)
          (between row_order pool tx_in_configuration scripts rc0 rc))) ∧
  ∀ mc_hash n, block_no_of mc_hash = Some n → m ≤ n →
    ∃ idp s', provider_at MaxTransfersPerBlock recipient_try_from row_order pool tx_in_configuration block_no_of
        tx_info s mc_hash = Ok idp ∧ apply_inherent MaxTransfersPerBlock idp s = Some s'.
Proof.
  intros Hrow Hpool Hmax Hsc0 Hc0 Hrc0 Hm0 Hrun.
  pose proof (pool_wf_bridge pool tx_in_configuration tx_info scripts Hpool) as Hwf.
  destruct (bridge_run_inv _ _ _ _ _ _ _ scripts _ _ _ _ _ _ Hrow Hwf Hmax Hsc0 Hc0 Hrc0 Hm0 Hrun)
    as (c & rc & Hsc & Hc & Hrc & Hm & _ & Hh).
  split; [eauto 8|]. intros mc_hash n Hmc Hmn.
  destruct (bridge_block MaxTransfersPerBlock recipient_try_from row_order pool tx_in_configuration block_no_of tx_info
    scripts s c rc mc_hash n) as (idp & s' & c' & rc' & Hidp & Hex & _); try done; [lia|]. eauto.
Qed.

(** C17. The cache of the bridge data source is transparent.  With any valid cache
    the cached source answers exactly like the plain one, errors included, and
    leaves a valid cache, if the cache answers or the requested block is not above the
    latest stable block (or there is no stable block).  Otherwise, and only then, it
    does not answer: it reports that the data are missing from the cache, or the error
    of the block source when the latest stable block cannot be looked up. *)
Theorem bridge_cache_transparent {R : Type} (recipient_try_from : bytes → option R) row_order pool
    tx_in_configuration block_no_of tx_info lookahead stable cache scripts c max mc_hash :
  (∀ A (l : list A), row_order A l ≡ₚ l) → pool_wf pool tx_info →
  token_cache_inv row_order pool tx_in_configuration tx_info cache → 0 ≤ lookahead →
  (∀ n, block_no_of mc_hash = Some n → in_u 32 n) →
  (∀ rc, resolve tx_info c = Ok rc → get_block_number rc < u_bound 32) →
  let plain := get_transfers recipient_try_from row_order pool tx_in_configuration block_no_of tx_info
    scripts c max mc_hash in
  let missed n rc := block_no_of mc_hash = Some n ∧ resolve tx_info c = Ok rc ∧
    serve_from_cache (set_mc_scripts cache scripts) rc n max = None in
  ∃ cache' r, get_transfers_cached recipient_try_from row_order pool tx_in_configuration block_no_of tx_info
      lookahead stable cache scripts c max mc_hash = (cache', r) ∧
    token_cache_inv row_order pool tx_in_configuration tx_info cache' ∧
    ((∀ n rc, missed n rc → ∃ s, stable = Ok s ∧ ∀ b, s = Some b → n ≤ b) → r = plain) ∧
    (∀ n rc b, missed n rc → stable = Ok (Some b) → b < n → r = Err CacheNotFilled) ∧
    (∀ n rc e, missed n rc → stable = Err e → r = Err e).
Proof.
  intros Hrow Hpool Hinv0 Hla Hn Hc plain missed.
  assert (∀ scripts, bridge_db_wf pool tx_in_configuration tx_info scripts) as Hwf
    by (intros; by apply pool_wf_bridge).
  destruct (set_mc_scripts_inv row_order Hrow pool _ tx_info Hwf cache scripts Hinv0) as [Hinv Hsc].
  unfold missed, plain, get_transfers_cached, get_transfers. set (cache1 := set_mc_scripts cache scripts) in *.
  destruct (block_no_of mc_hash) as [n|]; simpl; [|eexists cache1, _; split_and!; naive_solver]. specialize (Hn n eq_refl).
  rewrite (resolve_cached row_order pool _ tx_info cache1 c Hinv).
  fold (resolve tx_info c). destruct (resolve tx_info c) as [rc|] eqn:Hrc; simpl;
    [|eexists cache1, _; split_and!; naive_solver].
  assert (∀ utxos, utxos = query row_order pool tx_in_configuration scripts rc n (Some max) →
    match last utxos with
    | Some u => if max <=? Z.of_nat (length utxos) then CheckpointUtxo (utxo_id_of u) else CheckpointBlock n
    | None => CheckpointBlock n
    end =
    match last utxos with
    | Some u => if Z.of_nat (length utxos) <? max then CheckpointBlock n else CheckpointUtxo (utxo_id_of u)
    | None => CheckpointBlock n
    end) as Hnext.
  { intros utxos _. destruct (last utxos); [|done]. rewrite Z.ltb_antisym. by destruct (max <=? _). }
  destruct (serve_from_cache cache1 rc n max) as [utxos|] eqn:Hserve.
  - pose proof (serve_from_cache_query row_order Hrow pool _ tx_info Hwf _ _ _ _ _ Hinv Hserve) as Hq. rewrite Hsc in Hq.
    eexists cache1, _. split; [done|]. split; [done|]. split; [|naive_solver].
    intros _. rewrite (Hnext utxos Hq). by subst utxos.
  - destruct stable as [stable|e]; [|eexists cache1, _; split_and!; naive_solver].
    destruct (fill_cache row_order pool tx_in_configuration cache1 lookahead (Ok stable) scripts rc n) as [cache2|] eqn:Hfill; [|done].
    rewrite <-Hsc in Hfill.
    destruct (fill_cache_inv row_order Hrow pool _ tx_info Hwf cache1 lookahead stable rc n cache2 Hfill) as [Hinv2 Hsc2].
    pose proof (serve_after_fill row_order pool tx_in_configuration cache1 lookahead stable rc n max cache2 Hla Hn (Hc rc eq_refl) Hfill)
      as Hmiss.
    destruct (serve_from_cache cache2 rc n max) as [utxos|] eqn:Hserve2; eexists cache2, _; (split; [done|]; split; [done|]).
    + pose proof (serve_from_cache_query row_order Hrow pool _ tx_info Hwf _ _ _ _ _ Hinv2 Hserve2) as Hq.
      rewrite Hsc2, Hsc in Hq. split; [intros _; rewrite (Hnext utxos Hq); by subst utxos|]. split; [|naive_solver].
      intros n' rc' b ([= <-] & _) [= ->] Hb. discriminate (proj2 Hmiss (ex_intro _ b (conj eq_refl Hb))).
    + split; [|split; [done|naive_solver]]. intros Hm. exfalso. destruct (proj1 Hmiss eq_refl) as (b & -> & Hb).
      destruct (Hm n rc) as (s & [= <-] & Hs); [done|]. specialize (Hs b eq_refl). lia.
Qed.

(** ** Witnesses: three transfers and a limit of two per block *)

Definition example_scripts : MainChainScripts := mkBridgeScripts [1] [2] [3].
Definition example_lock (block index amount : Z) (datum : option Datum) : LedgerOut :=
  mkLedgerOut block 0 [block] index [3] [([1], [2], amount)] datum None None.
Definition example_pool : list LedgerOut :=
  [example_lock 12 0 7 (Some (token_transfer_to_plutus (UserTransferV1 [42])));
   example_lock 11 0 5 (Some (token_transfer_to_plutus ReserveTransferV1));
   example_lock 11 1 6 None].
Definition example_tx_info (hash : bytes) : option (Z * Z) := (λ b, (b, 0)) <$> head hash.
Definition example_block_no (hash : bytes) : option Z := head hash.
Definition example_recipient (b : bytes) : option Z := head b.
Definition in_order (A : Type) (l : list A) : list A := l.
(** A handler that records the transfers. *)
#[local] Instance recorder : TransferHandler Z (list (BridgeTransferV1 Z)) := λ t h, h ++ [t].

Lemma example_bridge_pool_wf : pool_wf example_pool example_tx_info.
Proof.
  split.
  - repeat (apply NoDup_cons; split; [intros Hin; repeat (apply elem_of_cons in Hin as [[=]|Hin]); by apply elem_of_nil in Hin|]).
    constructor.
  - intros o Ho. repeat (apply elem_of_cons in Ho as [->|Ho]; [reflexivity|]). by apply elem_of_nil in Ho.
  - intros o Ho. repeat (apply elem_of_cons in Ho as [->|Ho]; [by split|]). by apply elem_of_nil in Ho.
Qed.

Definition example_handled : list (BridgeTransferV1 Z) :=
  [ReserveTransfer 5; InvalidTransfer 6 (mkUtxoId [11] 1)].

Lemma bridge_exactly_once_witness :
  ∃ c rc, CheckpointUtxo (mkUtxoId [11] 1) = c ∧ resolve example_tx_info c = Ok rc ∧
    example_handled = filter_map (utxo_to_transfer example_recipient)
      (between in_order example_pool TxInEnabled example_scripts (ResolvedBlock 10) rc).
Proof.
  pose (s0 := mkBridge (Some example_scripts) (Some (CheckpointBlock 10)) ([] : list (BridgeTransferV1 Z))).
  pose (s := mkBridge (Some example_scripts) (Some (CheckpointUtxo (mkUtxoId [11] 1))) example_handled).
  destruct (bridge_exactly_once 2 example_recipient in_order example_pool TxInEnabled example_block_no example_tx_info
    example_scripts s0 10 (CheckpointBlock 10) (ResolvedBlock 10) s 20) as [(c & rc & Hc & Hrc & _ & Hh) _].
  - intros. reflexivity.
  - exact example_bridge_pool_wf.
  - lia.
  - reflexivity.
  - reflexivity.
  - reflexivity.
  - simpl. lia.
  - eapply (bridge_run_block _ _ _ _ _ _ _ _ _ s0 10 [20] 20); [constructor|reflexivity|lia|vm_compute; reflexivity|].
    vm_compute. reflexivity.
  - exists c, rc. injection Hc as <-. split; [reflexivity|]. split; [exact Hrc|].
    vm_compute in Hrc. injection Hrc as <-. vm_compute. reflexivity.
Defined.

Lemma cache_new_inv : token_cache_inv in_order example_pool TxInEnabled example_tx_info cache_new.
Proof.
  split; [vm_compute; reflexivity|]. intros id u Hu. unfold cache_new in Hu. simpl in Hu. by rewrite lookup_empty in Hu.
Qed.

Lemma bridge_cache_transparent_witness :
  ∃ cache', get_transfers_cached example_recipient in_order example_pool TxInEnabled example_block_no example_tx_info
      100 (Ok (Some 50)) cache_new example_scripts (CheckpointBlock 10) 2 [20]
    = (cache', Ok (example_handled, CheckpointUtxo (mkUtxoId [11] 1))).
Proof.
  destruct (bridge_cache_transparent example_recipient in_order example_pool TxInEnabled example_block_no
    example_tx_info 100 (Ok (Some 50)) cache_new example_scripts (CheckpointBlock 10) 2 [20]) as (cache' & r & Hr & _ & Heq & _).
  - intros. reflexivity.
  - exact example_bridge_pool_wf.
  - exact cache_new_inv.
  - lia.
  - intros n [= <-]. by split.
  - intros rc [= <-]. reflexivity.
  - exists cache'. etransitivity; [exact Hr|]. rewrite Heq.
    + vm_compute. reflexivity.
    + intros n rc ([= <-] & _). exists (Some 50). split; [done|]. intros b [= <-]. lia.
Defined.
