(* ===== verification/McHash.v ===== *)
(** * References to the main chain

    Models [toolkit/sidechain/sidechain-mc-hash/src/lib.rs]: every block refers
    to a stable Cardano block.  The author of a block selects it
    ([new_proposal]), the hash travels in the digest of the header, and the nodes
    that import the block verify it ([new_verification]).

    The data source is an interface; a call may change the state of the source,
    which keeps a cache.  [BlockSource] implements it over db-sync. *)

From S2P Require Import Prelude Domain.

(** ** Calls of a data source

    A fallible call that works on the state of a data source. *)
Definition DS (S E A : Type) : Type := S → outcome (S * result E A).
#[global] Instance DS_ret S E : MRet (DS S E) := λ A a s, Ret (s, Ok a).
#[global] Instance DS_bind S E : MBind (DS S E) := λ A B k m s,
  '(s, r) ← m s;
  match r with Ok a => k a s | Err e => Ret (s, Err e) end.
Definition ds_lift {S E A} (r : result E A) : DS S E A := λ s, Ret (s, r).
Definition ds_map_err {S E F A} (f : E → F) (m : DS S E A) : DS S F A := λ s,
  '(s, r) ← m s; Ret (s, map_err f r).

Lemma DS_bind_Ok {S E A B} (m : DS S E A) (k : A → DS S E B) s s' a :
  m s = Ret (s', Ok a) → (m ≫= k) s = k a s'.
Proof. intros Hm. unfold mbind, DS_bind. by rewrite Hm. Qed.
Lemma DS_bind_Err {S E A B} (m : DS S E A) (k : A → DS S E B) s s' e :
  m s = Ret (s', Err e) → (m ≫= k) s = Ret (s', Err e).
Proof. intros Hm. unfold mbind, DS_bind. by rewrite Hm. Qed.
Lemma DS_bind_Panic {S E A B} (m : DS S E A) (k : A → DS S E B) s : m s = Panic → (m ≫= k) s = Panic.
Proof. intros Hm. unfold mbind, DS_bind. by rewrite Hm. Qed.
Lemma ds_map_err_Ok {S E F A} (f : E → F) (m : DS S E A) s s' a :
  m s = Ret (s', Ok a) → ds_map_err f m s = Ret (s', Ok a).
Proof. intros Hm. unfold ds_map_err. by rewrite Hm. Qed.

Lemma ds_map_err_Err {S E F A} (f : E → F) (m : DS S E A) s s' e :
  m s = Ret (s', Err e) → ds_map_err f m s = Ret (s', Err (f e)).
Proof. intros Hm. unfold ds_map_err. by rewrite Hm. Qed.

Class McHashDataSource (S F : Type) := {
  get_latest_stable_block_for (reference_timestamp : Z) : DS S F (option MainchainBlock);
  get_stable_block_for (hash : bytes) (reference_timestamp : Z) : DS S F (option MainchainBlock);
  get_block_by_hash (hash : bytes) : DS S F (option MainchainBlock);
}.

(** ** The digest *)

(** [sp_runtime::DigestItem] *)
Inductive DigestItem :=
  | PreRuntime (id data : bytes)
  | Consensus (id data : bytes)
  | Seal (id data : bytes)
  | Other (data : bytes)
  | RuntimeEnvironmentUpdated.

(** "mcsh" *)
Definition MC_HASH_DIGEST_ID : bytes := [109; 99; 115; 104].

Inductive DigestValueError :=
  | InvalidMcHash (data : bytes)
  | McHashMissingFromDigest.

Inductive InherentDigestError (F : Type) :=
  | InherentDataUnreadable (e : F)
  | McHashMissingFromInherentData.
Arguments InherentDataUnreadable {F} e.
Arguments McHashMissingFromInherentData {F}.

Definition from_mc_block_hash (mc_block_hash : bytes) : list DigestItem :=
  [PreRuntime MC_HASH_DIGEST_ID mc_block_hash].

(** [data] is what the inherent data hold under the identifier of this inherent. *)
Definition from_inherent_data {F} (data : result F (option bytes)) :
    result (InherentDigestError F) (list DigestItem) :=
  mc_hash ← map_err InherentDataUnreadable data;
  mc_hash ← ok_or mc_hash McHashMissingFromInherentData;
  Ok (from_mc_block_hash mc_hash).

Fixpoint value_from_digest (digest : list DigestItem) : result DigestValueError bytes :=
  match digest with
  | [] => Err McHashMissingFromDigest
  | PreRuntime id data :: digest =>
      if decide (id = MC_HASH_DIGEST_ID) then
        if decide (length data = 32%nat) then Ok data else Err (InvalidMcHash data)
      else value_from_digest digest
  | _ :: digest => value_from_digest digest
  end.

Inductive BlockDigestError (F : Type) :=
  | HeaderUnavailable (e : F)
  | HeaderDoesNotExist
  | NoInherentDigest (e : DigestValueError).
Arguments HeaderUnavailable {F} e.
Arguments HeaderDoesNotExist {F}.
Arguments NoInherentDigest {F} e.

(** [get_inherent_digest_value_for_block] at [McHashInherentDigest]; a header is
    its number and the items of its digest. *)
Definition get_mc_hash_for_block {H F} (header : H → result F (option (Z * list DigestItem)))
    (block_hash : H) : result (BlockDigestError F) (option bytes) :=
  header ← map_err HeaderUnavailable (header block_hash);
  '(number, logs) ← ok_or header HeaderDoesNotExist;
  if number =? 0 then Ok None
  else
    value ← map_err NoInherentDigest (value_from_digest logs);
    Ok (Some value).

(** ** The inherent data provider *)

Record McHashInherentDataProvider := mkMcHash {
  mc_block : MainchainBlock;
  previous_mc_block : option MainchainBlock;
}.

Inductive McHashInherentError (F : Type) :=
  | DataSourceError (e : F)
  | StableBlockNotFound (timestamp : Z)
  | SlotTooBig
  | McStateReferenceInvalid (hash : bytes) (timestamp : Z)
  | McStateReferenceRegressed (hash : bytes) (timestamp number parent_number : Z)
  | DigestError (e : DigestValueError)
  | StableBlockNotFoundByHash (hash : bytes).
Arguments DataSourceError {F} e.
Arguments StableBlockNotFound {F} timestamp.
Arguments SlotTooBig {F}.
Arguments McStateReferenceInvalid {F} hash timestamp.
Arguments McStateReferenceRegressed {F} hash timestamp number parent_number.
Arguments DigestError {F} e.
Arguments StableBlockNotFoundByHash {F} hash.

Definition mc_hash (self : McHashInherentDataProvider) : bytes := mb_hash (mc_block self).
Definition previous_mc_hash (self : McHashInherentDataProvider) : option bytes :=
  mb_hash <$> previous_mc_block self.

Section Provider.
Context {S F : Type} `{!McHashDataSource S F}.

(** [parent_logs] are the items of the digest of the parent header. *)
Definition new_proposal (parent_logs : list DigestItem) (timestamp : Z) :
    DS S (McHashInherentError F) McHashInherentDataProvider :=
  mc_block ← ds_map_err DataSourceError (get_latest_stable_block_for timestamp);
  mc_block ← ds_lift (ok_or mc_block (StableBlockNotFound timestamp));
  match ok (value_from_digest parent_logs) with
  | Some parent_mc_hash =>
      parent_stable_mc_block ← ds_map_err DataSourceError (get_block_by_hash parent_mc_hash);
      parent_stable_mc_block ←
        ds_lift (ok_or parent_stable_mc_block (StableBlockNotFoundByHash parent_mc_hash));
      if mb_number parent_stable_mc_block <=? mb_number mc_block
      then mret (mkMcHash mc_block (Some parent_stable_mc_block))
      else mret (mkMcHash parent_stable_mc_block (Some parent_stable_mc_block))
  | None => mret (mkMcHash mc_block None)
  end.

Definition get_mc_state_reference (timestamp : Z) (verified_block_mc_hash : bytes) :
    DS S (McHashInherentError F) MainchainBlock :=
  block ← ds_map_err DataSourceError (get_stable_block_for verified_block_mc_hash timestamp);
  ds_lift (ok_or block (McStateReferenceInvalid verified_block_mc_hash timestamp)).

Definition new_verification (parent_logs : list DigestItem) (parent_timestamp : option Z)
    (timestamp : Z) (mc_state_reference_hash : bytes) :
    DS S (McHashInherentError F) McHashInherentDataProvider :=
  mc_state_reference_block ← get_mc_state_reference timestamp mc_state_reference_hash;
  match parent_timestamp with
  | None => mret (mkMcHash mc_state_reference_block None)
  | Some parent_timestamp =>
      parent_mc_hash ← ds_lift (map_err DigestError (value_from_digest parent_logs));
      parent_mc_state_reference_block ← get_mc_state_reference parent_timestamp parent_mc_hash;
      if mb_number mc_state_reference_block <? mb_number parent_mc_state_reference_block
      then ds_lift (Err (McStateReferenceRegressed mc_state_reference_hash timestamp
             (mb_number mc_state_reference_block) (mb_number parent_mc_state_reference_block)))
      else mret (mkMcHash mc_state_reference_block (Some parent_mc_state_reference_block))
  end.
End Provider.

(** [provide_inherent_data]: the value put under the identifier. *)
Definition provide_inherent_data (self : McHashInherentDataProvider) : bytes := mc_hash self.

(** ** What a data source promises

    A source in state [s] knows blocks, considers some of them stable and offers
    some of the stable ones to authors.  A block can be referred to at a timestamp
    (in milliseconds) if its own is between [max_boundary] and [min_boundary]
    before it, the [allowable_range] of the documentation. *)

Definition allowable (min_boundary max_boundary : Z) (b : MainchainBlock) (timestamp : Z) : Prop :=
  timestamp - max_boundary ≤ 1000 * mb_timestamp b ≤ timestamp - min_boundary.

Record SourceView (S : Type) := mkView {
  source_ok : S → Prop;
  known : S → MainchainBlock → Prop;
  stable : S → MainchainBlock → Prop;
  offered : S → MainchainBlock → Prop;
  supported : Z → Prop;
}.
Arguments mkView {S} _ _ _ _ _.
Arguments source_ok {S} _ _.
Arguments known {S} _ _ _.
Arguments stable {S} _ _ _.
Arguments offered {S} _ _ _.
Arguments supported {S} _ _.

(** A call changes the cache only.  A source may answer that there is no such block
    with an error. *)
Definition unchanged {S} (v : SourceView S) (s s' : S) : Prop :=
  source_ok v s' ∧
  ∀ b, (known v s' b ↔ known v s b) ∧ (stable v s' b ↔ stable v s b) ∧ (offered v s' b ↔ offered v s b).

Class McHashDataSourceLaws {S F} `{!McHashDataSource S F} (v : SourceView S)
    (min_boundary max_boundary : Z) := {
  law_latest timestamp s : source_ok v s → supported v timestamp →
    ∃ s' r, get_latest_stable_block_for timestamp s = Ret (s', Ok r) ∧ unchanged v s s' ∧
      match r with
      | Some b => offered v s b ∧ allowable min_boundary max_boundary b timestamp ∧
          ∀ b', offered v s b' → allowable min_boundary max_boundary b' timestamp →
            mb_number b' ≤ mb_number b
      | None => ∀ b, offered v s b → ¬ allowable min_boundary max_boundary b timestamp
      end;
  law_stable hash timestamp s : source_ok v s → supported v timestamp →
    ∃ s' r, get_stable_block_for hash timestamp s = Ret (s', r) ∧ unchanged v s s' ∧
      ∀ b, r = Ok (Some b) ↔ stable v s b ∧ mb_hash b = hash ∧ allowable min_boundary max_boundary b timestamp;
  law_by_hash hash s : source_ok v s →
    ∃ s' r, get_block_by_hash hash s = Ret (s', r) ∧ unchanged v s s' ∧
      ∀ b, r = Ok (Some b) ↔ known v s b ∧ mb_hash b = hash;
  law_offered s b : source_ok v s → offered v s b → stable v s b;
  law_known s b : source_ok v s → stable v s b → known v s b;
  law_time s b b' : source_ok v s → stable v s b → stable v s b' →
    mb_number b ≤ mb_number b' → mb_timestamp b ≤ mb_timestamp b';
}.

(** ** The digest carries the reference *)

(** A header whose digest was made from the inherent data carries the hash,
    whatever other items precede it, as long as they are not references. *)
Lemma digest_roundtrip pre post hash items :
  length hash = 32%nat →
  Forall (λ item, ∀ data, item ≠ PreRuntime MC_HASH_DIGEST_ID data) pre →
  from_inherent_data (F:=unit) (Ok (Some hash)) = Ok items →
  value_from_digest (pre ++ items ++ post) = Ok hash.
Proof.
  intros Hlen Hpre [= <-]. induction Hpre as [|item pre Hitem _ IH]; simpl.
  - by rewrite !decide_True by done.
  - destruct item as [id data| | | |]; try done. rewrite decide_False; [done|]. intros ->. by apply (Hitem data).
Qed.

Section Reference.
Context {S F : Type} `{Hlaws : McHashDataSourceLaws S F v min_boundary max_boundary}.

Lemma unchanged_refl s : source_ok v s → unchanged v s s.
Proof. by split. Qed.
Lemma unchanged_trans s1 s2 s3 : unchanged v s1 s2 → unchanged v s2 s3 → unchanged v s1 s3.
Proof.
  intros [_ H12] [Hok H23]. split; [done|]. intros b.
  destruct (H12 b) as (? & ? & ?), (H23 b) as (? & ? & ?). split_and!; by etransitivity.
Qed.

Abbreviation in_range := (allowable min_boundary max_boundary).

(** Looking up a reference for a block of a given timestamp. *)
Lemma get_mc_state_reference_spec timestamp hash s :
  source_ok v s → supported v timestamp →
  ∃ s' r, get_mc_state_reference timestamp hash s = Ret (s', r) ∧ unchanged v s s' ∧
    ∀ b, r = Ok b ↔ stable v s b ∧ mb_hash b = hash ∧ in_range b timestamp.
Proof.
  intros Hok Hts. destruct (law_stable hash timestamp s Hok Hts) as (s' & r & Hcall & Hun & Hr).
  unfold get_mc_state_reference. destruct r as [r|e].
  - rewrite (DS_bind_Ok _ _ s s' r) by (by apply ds_map_err_Ok).
    eexists s', _. split; [done|]. split; [done|]. intros b. rewrite <-Hr. by destruct r; split; intros [=->].
  - rewrite (DS_bind_Err _ _ s s' (DataSourceError e)) by (by apply ds_map_err_Err).
    eexists s', _. split; [done|]. split; [done|]. intros b. by rewrite <-Hr.
Qed.

Lemma new_proposal_spec parent_logs timestamp s :
  source_ok v s → supported v timestamp →
  (∀ h, value_from_digest parent_logs = Ok h → ∃ pb, known v s pb ∧ mb_hash pb = h) →
  (∀ b, offered v s b → ¬ in_range b timestamp) ∧
    (∃ s', new_proposal parent_logs timestamp s = Ret (s', Err (StableBlockNotFound timestamp)) ∧ unchanged v s s')
  ∨ ∃ s' b p, new_proposal parent_logs timestamp s
      = Ret (s', Ok (mkMcHash match p with Some pb => if mb_number pb <=? mb_number b then b else pb | None => b end p))
    ∧ unchanged v s s' ∧ offered v s b ∧ in_range b timestamp ∧
    match ok (value_from_digest parent_logs) with
    | Some h => ∃ pb, p = Some pb ∧ known v s pb ∧ mb_hash pb = h
    | None => p = None
    end.
Proof.
  intros Hok Hts Hparent. destruct (law_latest timestamp s Hok Hts) as (s1 & r & Hcall & Hun & Hr).
  unfold new_proposal. rewrite (DS_bind_Ok _ _ s s1 r) by (by apply ds_map_err_Ok).
  destruct r as [b|]; [|left; split; [done|]; by exists s1].
  right. rewrite (DS_bind_Ok _ _ s1 s1 b) by done. destruct Hr as (Hoff & Hrange & _).
  destruct (value_from_digest parent_logs) as [h|] eqn:Hh; simpl; [|by exists s1, b, None].
  destruct (law_by_hash h s1 (proj1 Hun)) as (s2 & r2 & Hcall2 & Hun2 & Hr2).
  destruct (Hparent h eq_refl) as (pb & Hpk & Hph).
  assert (r2 = Ok (Some pb)) as ->. { apply Hr2. split; [|done]. by apply Hun. }
  rewrite (DS_bind_Ok _ _ s1 s2 (Some pb)) by (by apply ds_map_err_Ok).
  rewrite (DS_bind_Ok _ _ s2 s2 pb) by done.
  exists s2, b, (Some pb). split; [by destruct (_ <=? _)|].
  split; [by eapply unchanged_trans|]. split_and!; [done..|]. by exists pb.
Qed.

Lemma new_verification_spec parent_logs parent_timestamp timestamp hash s :
  source_ok v s → supported v timestamp → (∀ t, parent_timestamp = Some t → supported v t) →
  ∃ s' r, new_verification parent_logs parent_timestamp timestamp hash s = Ret (s', r) ∧ unchanged v s s' ∧
    ∀ b p, r = Ok (mkMcHash b p) ↔
      stable v s b ∧ mb_hash b = hash ∧ in_range b timestamp ∧
      match parent_timestamp with
      | None => p = None
      | Some t => ∃ pb, p = Some pb ∧ stable v s pb ∧ in_range pb t ∧
          value_from_digest parent_logs = Ok (mb_hash pb) ∧ mb_number pb ≤ mb_number b
      end.
Proof.
  intros Hok Hts Hpts.
  destruct (get_mc_state_reference_spec timestamp hash s Hok Hts) as (s1 & r1 & Hcall & Hun & Hr1).
  unfold new_verification. destruct r1 as [b0|e]; [rewrite (DS_bind_Ok _ _ s s1 b0) by done|
    rewrite (DS_bind_Err _ _ s s1 e) by done; eexists s1, _; split_and!; [done..|]; intros b p; split; [done|];
    intros (Hst & Hh & Hrg & _); discriminate (proj2 (Hr1 b) (conj Hst (conj Hh Hrg)))].
  pose proof (proj1 (Hr1 b0) eq_refl) as (Hb1 & Hb2 & Hb3).
  assert (∀ b, stable v s b → mb_hash b = hash → in_range b timestamp → b = b0) as Huniq.
  { intros b H1 H2 H3. by injection (proj2 (Hr1 b) (conj H1 (conj H2 H3))). }
  destruct parent_timestamp as [t|]; simpl.
  2:{ eexists s1, _. split_and!; [done..|]. intros b p. split; [by intros [= <- <-]|].
      intros (H1 & H2 & H3 & ->). by rewrite (Huniq b). }
  destruct (value_from_digest parent_logs) as [h|e] eqn:Hh; simpl.
  2:{ rewrite (DS_bind_Err _ _ s1 s1 (DigestError e)) by done. eexists s1, _. split_and!; [done..|]. intros b p. split; [done|]. intros (_ & _ & _ & pb & _ & _ & _ & [=] & _). }
  destruct (get_mc_state_reference_spec t h s1 (proj1 Hun) (Hpts t eq_refl)) as (s2 & r2 & Hcall2 & Hun2 & Hr2).
  rewrite (DS_bind_Ok _ _ s1 s1 h) by done.
  assert (unchanged v s s2) as Hun12 by (by eapply unchanged_trans).
  assert (∀ pb, r2 = Ok pb ↔ stable v s pb ∧ mb_hash pb = h ∧ in_range pb t) as Hr2'.
  { intros pb. rewrite Hr2. by rewrite (proj1 (proj2 (proj2 Hun pb))). }
  destruct r2 as [pb0|e2]; [rewrite (DS_bind_Ok _ _ s1 s2 pb0) by done|].
  2:{ rewrite (DS_bind_Err _ _ s1 s2 e2) by done. eexists s2, _. split_and!; [done..|]. intros b p. split; [done|].
      intros (_ & _ & _ & pb & _ & H1 & H2 & [= ->] & _). discriminate (proj2 (Hr2' pb) (conj H1 (conj eq_refl H2))). }
  pose proof (proj1 (Hr2' pb0) eq_refl) as (Hp1 & Hp2 & Hp3).
  assert (∀ pb, stable v s pb → mb_hash pb = h → in_range pb t → pb = pb0) as Hpuniq.
  { intros pb H1 H2 H3. by injection (proj2 (Hr2' pb) (conj H1 (conj H2 H3))). }
  destruct (Z.ltb_spec (mb_number b0) (mb_number pb0)) as [Hlt|Hge]; eexists s2, _; split_and!; try done.
  - intros b p. split; [done|]. intros (H1 & H2 & H3 & pb & -> & H4 & H5 & [= ->] & H6).
    rewrite (Huniq b), (Hpuniq pb) in H6 by done. lia.
  - intros b p. split.
    + intros [= <- <-]. split_and!; try done. exists pb0. by rewrite Hp2.
    + intros (H1 & H2 & H3 & pb & -> & H4 & H5 & [= ->] & H6). by rewrite (Huniq b), (Hpuniq pb).
Qed.

End Reference.

Lemma reference_agreement {S1 S2 F1 F2 : Type} `{McHashDataSourceLaws S1 F1 v1 min_boundary max_boundary}
    `{!McHashDataSource S2 F2} {v2 : SourceView S2} `{!McHashDataSourceLaws v2 min_boundary max_boundary}
    (author : S1) (verifier : S2) parent_logs parent_timestamp timestamp :
  source_ok v1 author → source_ok v2 verifier → supported v1 timestamp → supported v2 timestamp →
  (∀ b, offered v1 author b → stable v2 verifier b) →
  match parent_timestamp with
  | None => ok (value_from_digest parent_logs) = None
  | Some t => supported v2 t ∧ t ≤ timestamp ∧ ∃ pb,
      value_from_digest parent_logs = Ok (mb_hash pb) ∧
      stable v2 verifier pb ∧ allowable min_boundary max_boundary pb t ∧
      known v1 author pb ∧ ∀ pb', known v1 author pb' → mb_hash pb' = mb_hash pb → pb' = pb
  end →
  ∃ author' proposal, new_proposal parent_logs timestamp author = Ret (author', proposal) ∧
    unchanged v1 author author' ∧
    (is_ok proposal = true ↔ ∃ b, offered v1 author b ∧ allowable min_boundary max_boundary b timestamp) ∧
    ∀ idp, proposal = Ok idp →
      (∀ p, previous_mc_block idp = Some p → mb_number p ≤ mb_number (mc_block idp)) ∧
      ∃ verifier', new_verification parent_logs parent_timestamp timestamp (mc_hash idp) verifier
        = Ret (verifier', Ok idp) ∧ unchanged v2 verifier verifier'.
Proof.
  intros Hoka Hokv Hts Hts2 Hsub Hparent.
  destruct (new_proposal_spec parent_logs timestamp author Hoka Hts)
    as [[Hnone (s' & Hcall & Hun)]|(s' & b & p & Hcall & Hun & Hoff & Hrange & Hp)].
  { intros h Hh. destruct parent_timestamp as [t|].
    - destruct Hparent as (_ & _ & pb & Hv & _ & _ & Hk & _). exists pb. by rewrite Hh in Hv; injection Hv.
    - by rewrite Hh in Hparent. }
  { exists s', (Err (StableBlockNotFound timestamp)). split_and!; [done..| |done].
    split; [done|]. intros (b & Hb & Hr). by destruct (Hnone b). }
  eexists s', _. split; [exact Hcall|]. split; [done|]. split; [split; [by exists b|done]|].
  intros idp [= <-]. split; [intros pb; simpl; intros ->; destruct (Z.leb_spec (mb_number pb) (mb_number b)); lia|].
  destruct (new_verification_spec (v:=v2) parent_logs parent_timestamp timestamp
    (mc_hash (mkMcHash match p with Some pb => if mb_number pb <=? mb_number b then b else pb | None => b end p))
    verifier Hokv Hts2) as (s2 & r & Hver & Hun2 & Hr).
  { intros t ->. apply Hparent. }
  exists s2. split; [|done]. rewrite Hver. f_equal. f_equal. apply Hr. clear Hr Hver.
  destruct parent_timestamp as [t|].
  - destruct Hparent as (_ & Hle & pb & Hv & Hst & Hpr & Hk & Huniq). rewrite Hv in Hp. simpl in Hp.
    destruct Hp as (pb' & -> & Hk' & Hh'). rewrite (Huniq pb' Hk' Hh') in *. unfold mc_hash. simpl.
    destruct (Z.leb_spec (mb_number pb) (mb_number b)) as [Hge|Hlt].
    + split_and!; [by apply Hsub|done..|]. by exists pb.
    + split_and!; [done..| |by exists pb]. unfold allowable in *.
      pose proof (law_time verifier b pb Hokv (Hsub b Hoff) Hst). lia.
  - rewrite Hparent in Hp. simplify_eq/=. split_and!; [by apply Hsub|done..].
Qed.

(** C7. Authors and verifiers agree on references.  An author finds a reference
    exactly if its source offers a block in the allowable range.  If the
    verifier's source considers stable what the author's source offers, and the
    verifier accepted the reference of the parent block, then the reference that
    travels in the digest is accepted, with the same block and the same previous
    block, and references never go back.  The two may use different kinds of
    sources. *)
Theorem mc_reference_agreement {S1 S2 F1 F2 : Type} `{McHashDataSourceLaws S1 F1 v1 min_boundary max_boundary}
    `{!McHashDataSource S2 F2} {v2 : SourceView S2} `{!McHashDataSourceLaws v2 min_boundary max_boundary}
    (author : S1) (verifier : S2) parent_logs parent_timestamp timestamp :
  source_ok v1 author → source_ok v2 verifier → supported v1 timestamp → supported v2 timestamp →
  (∀ b, offered v1 author b → stable v2 verifier b) →
  match parent_timestamp with
  | None => ok (value_from_digest parent_logs) = None
  | Some t => supported v2 t ∧ t ≤ timestamp ∧ ∃ pb,
      value_from_digest parent_logs = Ok (mb_hash pb) ∧
      stable v2 verifier pb ∧ allowable min_boundary max_boundary pb t ∧
      known v1 author pb ∧ ∀ pb', known v1 author pb' → mb_hash pb' = mb_hash pb → pb' = pb
  end →
  ∃ author' proposal, new_proposal parent_logs timestamp author = Ret (author', proposal) ∧
    unchanged v1 author author' ∧
    (is_ok proposal = true ↔ ∃ b, offered v1 author b ∧ allowable min_boundary max_boundary b timestamp) ∧
    ∀ idp, proposal = Ok idp →
      (∀ p, previous_mc_block idp = Some p → mb_number p ≤ mb_number (mc_block idp)) ∧
      ∃ verifier', new_verification parent_logs parent_timestamp timestamp (mc_hash idp) verifier
        = Ret (verifier', Ok idp) ∧ unchanged v2 verifier verifier'.
Proof. apply reference_agreement. Qed.

(** Verification is exact.  It always returns; it accepts a reference exactly
    if the hash is that of a stable block in the allowable range and, after the
    first block, the parent's reference is valid for the parent's timestamp and
    not above the new one; what it returns are these two blocks. *)
Theorem mc_reference_sound {S F : Type} `{McHashDataSourceLaws S F v min_boundary max_boundary}
    parent_logs parent_timestamp timestamp hash s :
  source_ok v s → supported v timestamp → (∀ t, parent_timestamp = Some t → supported v t) →
  ∃ s' r, new_verification parent_logs parent_timestamp timestamp hash s = Ret (s', r) ∧ unchanged v s s' ∧
    ∀ b p, r = Ok (mkMcHash b p) ↔
      stable v s b ∧ mb_hash b = hash ∧ allowable min_boundary max_boundary b timestamp ∧
      match parent_timestamp with
      | None => p = None
      | Some t => ∃ pb, p = Some pb ∧ stable v s pb ∧ allowable min_boundary max_boundary pb t ∧
          value_from_digest parent_logs = Ok (mb_hash pb) ∧ mb_number pb ≤ mb_number b
      end.
Proof. apply new_verification_spec. Qed.
