(* ===== verification/BlockSource.v ===== *)
(** * The db-sync source of Cardano blocks

    Models [toolkit/data-sources/db-sync/src/block/mod.rs] and the queries of
    [toolkit/data-sources/db-sync/src/db_model.rs] it runs; it implements the
    interface of [McHash] ([toolkit/data-sources/db-sync/src/mc_hash/mod.rs]).

    The table of blocks is a list.  Epoch boundary blocks of the Byron era, which
    have no number, are left out of it: the queries skip them, and asking for one
    by its hash is an error.  Times are in milliseconds since the Unix epoch;
    [datetime_min] and [datetime_max] are the limits of [chrono]'s date type. *)

From S2P Require Import Prelude Domain MainchainEpoch PlutusData DbSync McHash.

(** ** Data *)

Record Block := mkBlock {
  block_no : Z;
  hash : bytes;
  epoch_no : Z;
  slot_no : Z;
  time : Z;
}.
#[global] Instance Block_eq_dec : EqDecision Block.
Proof. solve_decision. Defined.

Inductive SourceError :=
  | BadRequest
  | InternalDataSourceError
  | ExpectedDataNotFound.

(** [impl From<Block> for MainchainBlock]; the timestamp is in seconds. *)
Definition mainchain_block (b : Block) : MainchainBlock :=
  mkMainchainBlock (block_no b) (hash b) (epoch_no b) (slot_no b) (time b / 1000).
Definition from_block (b : Block) : outcome MainchainBlock :=
  _ ← expect (try_into 64 (time b / 1000)); Ret (mainchain_block b).
Definition from_block_opt (b : option Block) : outcome (option MainchainBlock) :=
  match b with Some b => Some <$> from_block b | None => Ret None end.

(** ** Queries *)

Section Queries.
Context (row_order : ∀ A : Type, list A → list A).

Definition by_number_desc (b b' : Block) : Prop := block_no b' ≤ block_no b.
#[global] Instance by_number_desc_dec : RelDecision by_number_desc.
Proof. intros b b'. unfold by_number_desc. apply _. Defined.
Definition by_number_asc (b b' : Block) : Prop := block_no b ≤ block_no b'.
#[global] Instance by_number_asc_dec : RelDecision by_number_asc.
Proof. intros b b'. unfold by_number_asc. apply _. Defined.

Definition get_latest_block_info (pool : list Block) : option Block :=
  head (order_by row_order by_number_desc pool).

Definition get_blocks_by_numbers (pool : list Block) (from to : Z) : list Block :=
  order_by row_order by_number_asc (filter (λ b, from ≤ block_no b ∧ block_no b ≤ to) pool).

Definition get_highest_block (pool : list Block) (max_block_number min_time min_slot max_time max_slot : Z) :
    option Block :=
  head (order_by row_order by_number_desc
    (filter (λ b, block_no b ≤ max_block_number ∧ min_slot ≤ slot_no b ∧ slot_no b ≤ max_slot ∧
                  min_time ≤ time b ∧ time b ≤ max_time) pool)).

Definition query_block_by_hash (pool : list Block) (h : bytes) : option Block :=
  head (row_order _ (filter (λ b, hash b = h) pool)).
End Queries.

(** ** The data source *)

Record BlockDataSourceImpl := mkBlockSource {
  pool : list Block;
  stable_blocks_cache : list Block;
}.

Definition cache_find_by_hash (cache : list Block) (h : bytes) : option Block :=
  head (filter (λ b, hash b = h) cache).

Section Source.
Context (row_order : ∀ A : Type, list A → list A) (datetime_min datetime_max : Z).
Context (security_parameter min_slot_boundary max_slot_boundary : Z)
  (mainchain_epoch_config : MainchainEpochConfig) (block_stability_margin cache_size : Z).

Definition timestamp_to_db_type (timestamp : Z) : result SourceError Z :=
  if (timestamp <? 2 ^ 63) && (timestamp <=? datetime_max) then Ok timestamp else Err BadRequest.

(** [NaiveDateTime - TimeDelta] *)
Definition datetime_sub (dt delta : Z) : outcome Z :=
  if (datetime_min <=? dt - delta) && (dt - delta <=? datetime_max) then Ret (dt - delta) else Panic.

Definition min_block_allowed_time (reference_timestamp : Z) : outcome Z :=
  datetime_sub reference_timestamp max_slot_boundary.
Definition max_allowed_block_time (reference_timestamp : Z) : outcome Z :=
  datetime_sub reference_timestamp min_slot_boundary.

Definition is_block_time_valid (block : Block) (timestamp : Z) : outcome bool :=
  min_time ← min_block_allowed_time timestamp;
  if min_time <=? time block then
    max_time ← max_allowed_block_time timestamp;
    Ret (time block <=? max_time)
  else Ret false.

Definition date_time_to_slot (dt : Z) : outcome (result SourceError Z) :=
  match try_into 64 dt with
  | None => Ret (Err BadRequest)
  | Some millis =>
      slot ← timestamp_to_mainchain_slot_number mainchain_epoch_config millis;
      Ret (Ok (match slot with Ok slot => slot | Err _ => first_slot_number mainchain_epoch_config end))
  end.

Definition get_latest_block_info_source (pool : list Block) : outcome (result SourceError MainchainBlock) :=
  block ← from_block_opt (get_latest_block_info row_order pool);
  Ret (ok_or block ExpectedDataNotFound).

Definition get_latest_block (pool : list Block) (max_block reference_timestamp : Z) :
    outcome (result SourceError (option Block)) :=
  min_time ← min_block_allowed_time reference_timestamp;
  min_slot ←? date_time_to_slot min_time;
  max_time ← max_allowed_block_time reference_timestamp;
  max_slot ←? date_time_to_slot max_time;
  Ret (Ok (get_highest_block row_order pool max_block min_time min_slot max_time max_slot)).

Definition source_latest_stable_block_for (reference_timestamp : Z) :
    DS BlockDataSourceImpl SourceError (option MainchainBlock) := λ s,
  r ← (reference_timestamp ←? Ret (timestamp_to_db_type reference_timestamp);
       latest ←? get_latest_block_info_source (pool s);
       let offset := wadd 32 security_parameter block_stability_margin in
       let stable := sat_sub (mb_number latest) offset in
       block ←? get_latest_block (pool s) stable reference_timestamp;
       block ← from_block_opt block;
       Ret (Ok block));
  Ret (s, r).

Definition get_stable_block_by_hash_from_cache (s : BlockDataSourceImpl) (h : bytes)
    (reference_timestamp : Z) : outcome (option Block) :=
  match cache_find_by_hash (stable_blocks_cache s) h with
  | None => Ret None
  | Some block =>
      valid ← is_block_time_valid block reference_timestamp;
      Ret (if valid : bool then Some block else None)
  end.

Definition get_stable_block_by_hash_from_db (s : BlockDataSourceImpl) (h : bytes)
    (reference_timestamp : Z) : outcome (option Block) :=
  match query_block_by_hash row_order (pool s) h, get_latest_block_info row_order (pool s) with
  | Some block, Some latest_block =>
      if sat_add 32 (block_no block) security_parameter <=? block_no latest_block then
        valid ← is_block_time_valid block reference_timestamp;
        Ret (if valid : bool then Some block else None)
      else Ret None
  | _, _ => Ret None
  end.

Definition fill_cache (from : Block) (s : BlockDataSourceImpl) :
    BlockDataSourceImpl * result SourceError unit :=
  match get_latest_block_info row_order (pool s) with
  | None => (s, Err InternalDataSourceError)
  | Some latest_block =>
      let from_block_no := block_no from in
      let stable_block_num := sat_sub (block_no latest_block) security_parameter in
      let to_block_no := Z.min (sat_add 32 from_block_no cache_size) stable_block_num in
      let blocks := if from_block_no <? to_block_no
                    then get_blocks_by_numbers row_order (pool s) from_block_no to_block_no
                    else [from] in
      (mkBlockSource (pool s) blocks, Ok tt)
  end.

Definition get_stable_block_by_hash (h : bytes) (reference_timestamp : Z) :
    DS BlockDataSourceImpl SourceError (option MainchainBlock) := λ s,
  cached ← get_stable_block_by_hash_from_cache s h reference_timestamp;
  match cached with
  | Some block => block ← from_block block; Ret (s, Ok (Some block))
  | None =>
      found ← get_stable_block_by_hash_from_db s h reference_timestamp;
      match found with
      | Some block_by_hash =>
          match fill_cache block_by_hash s with
          | (s, Err e) => Ret (s, Err e)
          | (s, Ok _) => block ← from_block block_by_hash; Ret (s, Ok (Some block))
          end
      | None => Ret (s, Ok None)
      end
  end.

Definition source_stable_block_for (h : bytes) (reference_timestamp : Z) :
    DS BlockDataSourceImpl SourceError (option MainchainBlock) :=
  reference_timestamp ← ds_lift (timestamp_to_db_type reference_timestamp);
  get_stable_block_by_hash h reference_timestamp.

Definition source_block_by_hash (h : bytes) : DS BlockDataSourceImpl SourceError (option MainchainBlock) := λ s,
  let block_opt := match cache_find_by_hash (stable_blocks_cache s) h with
                   | Some block => Some block
                   | None => query_block_by_hash row_order (pool s) h
                   end in
  block ← from_block_opt block_opt;
  Ret (s, Ok block).

(** The latest stable block as the caches of the bridge and the Governed Map look it
    up.  The timestamp of a block is in seconds and [Timestamp::from] takes it for
    milliseconds. *)
Definition latest_block_info : DS BlockDataSourceImpl SourceError MainchainBlock := λ s,
  block ← get_latest_block_info_source (pool s); Ret (s, block).
Definition get_latest_stable_block : DS BlockDataSourceImpl SourceError (option Z) :=
  latest ← latest_block_info;
  block ← source_latest_stable_block_for (mb_timestamp latest);
  mret (mb_number <$> block).

Definition block_source : McHashDataSource BlockDataSourceImpl SourceError := {|
  get_latest_stable_block_for := source_latest_stable_block_for;
  get_stable_block_for := source_stable_block_for;
  get_block_by_hash := source_block_by_hash;
|}.
End Source.

(** ** A well-formed database *)

(** The highest block number. *)
Definition tip (l : list Block) : Z := foldr (λ b n, Z.max (block_no b) n) 0 l.

(** The blocks of a chain: hashes and numbers identify a block, later blocks have
    later times, numbers fit the 31 bits of their column, slots start at whole seconds, and the slot of a block is that of
    its time; blocks from before the configured first epoch have lower slots. *)
Record chain_wf (config : MainchainEpochConfig) (l : list Block) : Prop := {
  wf_hash b b' : b ∈ l → b' ∈ l → hash b = hash b' → b = b';
  wf_number b b' : b ∈ l → b' ∈ l → block_no b = block_no b' → b = b';
  wf_block b : b ∈ l → in_u 31 (block_no b) ∧ 0 ≤ time b < 2 ^ 64 ∧ (1000 | time b);
  wf_time b b' : b ∈ l → b' ∈ l → block_no b ≤ block_no b' → time b ≤ time b';
  wf_slot b : b ∈ l →
    if decide (first_epoch_timestamp_millis config ≤ time b)
    then slot_no b = first_slot_number config
           + (time b - first_epoch_timestamp_millis config) / slot_duration_millis config
    else slot_no b < first_slot_number config;
}.

#[global] Instance by_number_desc_trans : Transitive by_number_desc.
Proof. intros ???. unfold by_number_desc. lia. Qed.
#[global] Instance by_number_desc_total : Total by_number_desc.
Proof. intros ??. unfold by_number_desc. lia. Qed.

Lemma tip_ge l b : b ∈ l → block_no b ≤ tip l.
Proof. induction 1 as [b l|b b' l _ IH]; simpl; [lia|]. fold (tip l). lia. Qed.
Lemma tip_le l n : 0 ≤ n → (∀ b, b ∈ l → block_no b ≤ n) → tip l ≤ n.
Proof.
  intros Hn. induction l as [|b l IH]; intros Hle; [done|]. simpl. fold (tip l).
  pose proof (Hle b ltac:(left)). specialize (IH (λ b' Hb', Hle b' (list_elem_of_further _ _ _ Hb'))). lia.
Qed.

Section Spec.
Context (row_order : ∀ A : Type, list A → list A) (datetime_min datetime_max : Z).
Context (security_parameter min_slot_boundary max_slot_boundary : Z)
  (mainchain_epoch_config : MainchainEpochConfig) (block_stability_margin cache_size : Z).
Abbreviation first_time := (first_epoch_timestamp_millis mainchain_epoch_config).
Abbreviation first_slot := (first_slot_number mainchain_epoch_config).

(** The configuration is in range. *)
Record source_params_wf : Prop := {
  params_rows : ∀ A (l : list A), row_order A l ≡ₚ l;
  params_dates : datetime_min ≤ 0 ∧ first_slot + datetime_max < 2 ^ 64;
  params_stability : 0 ≤ security_parameter ∧ 0 ≤ block_stability_margin ∧
    security_parameter + block_stability_margin < 2 ^ 32;
  params_boundary : 0 ≤ min_slot_boundary ≤ max_slot_boundary;
  params_slots : 0 < slot_duration_millis mainchain_epoch_config ∧ 0 ≤ first_time ∧ 0 ≤ first_slot;
}.
Context (Hparams : source_params_wf).

Definition supported_timestamp (timestamp : Z) : Prop :=
  max_slot_boundary ≤ timestamp ≤ datetime_max ∧ timestamp < 2 ^ 63.

Lemma allowed_times timestamp : supported_timestamp timestamp →
  min_block_allowed_time datetime_min datetime_max max_slot_boundary timestamp
    = Ret (timestamp - max_slot_boundary) ∧
  max_allowed_block_time datetime_min datetime_max min_slot_boundary timestamp
    = Ret (timestamp - min_slot_boundary).
Proof.
  intros [Hts _]. destruct (params_dates Hparams), (params_boundary Hparams).
  unfold min_block_allowed_time, max_allowed_block_time, datetime_sub.
  split; rewrite (proj2 (Z.leb_le _ _)), (proj2 (Z.leb_le _ _)) by lia; done.
Qed.

Definition time_in_range (timestamp : Z) (b : Block) : Prop :=
  timestamp - max_slot_boundary ≤ time b ≤ timestamp - min_slot_boundary.
#[local] Instance time_in_range_dec timestamp b : Decision (time_in_range timestamp b).
Proof. unfold time_in_range. apply _. Defined.

Lemma is_block_time_valid_spec b timestamp : supported_timestamp timestamp →
  is_block_time_valid datetime_min datetime_max min_slot_boundary max_slot_boundary b timestamp
  = Ret (bool_decide (time_in_range timestamp b)).
Proof.
  intros Hts. destruct (allowed_times timestamp Hts) as [Hmin Hmax].
  unfold is_block_time_valid. rewrite Hmin, Hmax. simpl. unfold time_in_range.
  destruct (Z.leb_spec (timestamp - max_slot_boundary) (time b)).
  - destruct (Z.leb_spec (time b) (timestamp - min_slot_boundary)).
    + by rewrite bool_decide_true.
    + by rewrite bool_decide_false by lia.
  - by rewrite bool_decide_false by lia.
Qed.

Definition slot_of_time (dt : Z) : Z :=
  first_slot + Z.max 0 (dt - first_time) / slot_duration_millis mainchain_epoch_config.

Lemma date_time_to_slot_spec dt : 0 ≤ dt ≤ datetime_max →
  date_time_to_slot mainchain_epoch_config dt = Ret (Ok (slot_of_time dt)).
Proof.
  intros Hdt. destruct (params_dates Hparams) as [_ Hmax], (params_slots Hparams) as (Hd & Hft & Hfs).
  unfold date_time_to_slot. assert (try_into 64 dt = Some dt) as ->.
  { apply try_into_Some. split; [|done]. unfold in_u, u_bound. lia. }
  unfold timestamp_to_mainchain_slot_number, slot_of_time.
  destruct (checked_sub dt first_time) as [elapsed|] eqn:He; simpl.
  - apply checked_sub_Some in He as [Hle ->]. unfold checked_div. rewrite (proj2 (Z.eqb_neq _ _)) by lia.
    simpl. rewrite Z.max_r by lia. rewrite wadd_exact; [done|]. unfold in_u, u_bound.
    assert (0 ≤ (dt - first_time) / slot_duration_millis mainchain_epoch_config ≤ dt - first_time); [|lia].
    split; [apply Z.div_pos; lia|]. apply Z.div_le_upper_bound; nia.
  - apply checked_sub_None in He. by rewrite Z.max_l, Z.div_0_l, Z.add_0_r by lia.
Qed.

(** The bounds on slots only repeat the bounds on times, for blocks that are not
    from before the first epoch. *)
Lemma slot_bounds_redundant l b min_time max_time :
  chain_wf mainchain_epoch_config l → b ∈ l →
  slot_of_time min_time ≤ slot_no b ∧ slot_no b ≤ slot_of_time max_time ∧ min_time ≤ time b ∧ time b ≤ max_time
  ↔ first_time ≤ time b ∧ min_time ≤ time b ≤ max_time.
Proof.
  intros Hwf Hb. pose proof (wf_slot _ _ Hwf b Hb) as Hslot. destruct (params_slots Hparams) as (Hd & _ & _).
  unfold slot_of_time.
  assert (∀ x y, x ≤ y → x / slot_duration_millis mainchain_epoch_config ≤ y / slot_duration_millis mainchain_epoch_config)
    as Hmono by (intros; apply Z.div_le_mono; lia).
  case_decide as Hf.
  - split; [intros (_ & _ & ? & ?); lia|]. intros (_ & H1 & H2). rewrite Hslot.
    pose proof (Hmono (Z.max 0 (min_time - first_time)) (time b - first_time)).
    pose proof (Hmono (time b - first_time) (Z.max 0 (max_time - first_time))). lia.
  - split; [|lia]. intros (H1 & _). exfalso.
    pose proof (Z.div_pos (Z.max 0 (min_time - first_time)) _ ltac:(lia) Hd). lia.
Qed.

(** ** Lookups *)

Definition confirmed (n : Z) (l : list Block) (b : Block) : Prop := block_no b + n ≤ tip l.

Record block_source_wf (s : BlockDataSourceImpl) : Prop := {
  ok_chain : chain_wf mainchain_epoch_config (pool s);
  ok_nonempty : pool s ≠ [];
  ok_cache b : b ∈ stable_blocks_cache s → b ∈ pool s ∧ confirmed security_parameter (pool s) b;
}.
(** The chain is long enough for a block with the required confirmations. *)
Record block_source_ok (s : BlockDataSourceImpl) : Prop := {
  ok_wf : block_source_wf s;
  ok_long : security_parameter + block_stability_margin ≤ tip (pool s);
}.

Lemma from_block_ok l b : chain_wf mainchain_epoch_config l → b ∈ l → from_block b = Ret (mainchain_block b).
Proof.
  intros Hwf Hb. destruct (wf_block _ _ Hwf b Hb) as (_ & Ht & _). unfold from_block.
  assert (try_into 64 (time b / 1000) = Some (time b / 1000)) as ->; [|done].
  apply try_into_Some. split; [|done]. unfold in_u, u_bound. split; [apply Z.div_pos; lia|].
  apply Z.div_lt_upper_bound; lia.
Qed.

Lemma allowable_block l b timestamp : chain_wf mainchain_epoch_config l → b ∈ l →
  allowable min_slot_boundary max_slot_boundary (mainchain_block b) timestamp ↔ time_in_range timestamp b.
Proof.
  intros Hwf Hb. destruct (wf_block _ _ Hwf b Hb) as (_ & _ & n & Hn). unfold allowable, time_in_range. simpl.
  rewrite Hn, Z.div_mul by lia. lia.
Qed.

Lemma get_latest_block_info_spec l : chain_wf mainchain_epoch_config l → l ≠ [] →
  ∃ b, get_latest_block_info row_order l = Some b ∧ b ∈ l ∧ block_no b = tip l.
Proof.
  intros Hwf Hne. unfold get_latest_block_info.
  pose proof (head_order_by row_order by_number_desc l (params_rows Hparams)) as Hh.
  destruct (head _) as [b|]; [|done]. destruct Hh as [Hb Hmax]. exists b. split_and!; [done..|].
  pose proof (tip_ge l b Hb). destruct (wf_block _ _ Hwf b Hb) as ([Hpos _] & _).
  pose proof (tip_le l (block_no b) Hpos Hmax). lia.
Qed.

Lemma query_block_by_hash_spec l h b : chain_wf mainchain_epoch_config l →
  query_block_by_hash row_order l h = Some b ↔ b ∈ l ∧ hash b = h.
Proof.
  intros Hwf. unfold query_block_by_hash. split.
  - intros Hq. pose proof (params_rows Hparams _ (filter (λ b, hash b = h) l)) as Hp.
    destruct (row_order _ _) as [|b' rest]; [done|]. injection Hq as ->.
    assert (b ∈ filter (λ b, hash b = h) l) as [? ?]%list_elem_of_filter by (rewrite <-Hp; left). done.
  - intros [Hb <-]. apply head_unique; [apply (params_rows Hparams)| |done].
    intros y Hy Heq. by apply (wf_hash _ _ Hwf).
Qed.

Lemma cache_find_spec s h b : block_source_wf s →
  cache_find_by_hash (stable_blocks_cache s) h = Some b →
  b ∈ pool s ∧ hash b = h ∧ confirmed security_parameter (pool s) b.
Proof.
  intros Hok Hf. unfold cache_find_by_hash in Hf.
  assert (b ∈ filter (λ b, hash b = h) (stable_blocks_cache s)) as [Hh Hin]%list_elem_of_filter.
  { destruct (filter _ _); [done|]. injection Hf as ->. left. }
  by destruct (ok_cache s Hok b Hin).
Qed.

(** ** Selection of the latest stable block *)

(** Subtracting the confirmations saturates at zero. *)
Definition selectable_wf (l : list Block) (timestamp : Z) (b : Block) : Prop :=
  b ∈ l ∧ block_no b ≤ Z.max 0 (tip l - (security_parameter + block_stability_margin)) ∧
  first_time ≤ time b ∧ time_in_range timestamp b.
Definition selectable (l : list Block) (timestamp : Z) (b : Block) : Prop :=
  b ∈ l ∧ confirmed (security_parameter + block_stability_margin) l b ∧
  first_time ≤ time b ∧ time_in_range timestamp b.

Lemma latest_stable_block_wf s timestamp :
  block_source_wf s → supported_timestamp timestamp →
  ∃ r, source_latest_stable_block_for row_order datetime_min datetime_max security_parameter min_slot_boundary
      max_slot_boundary mainchain_epoch_config block_stability_margin timestamp s
    = Ret (s, Ok (mainchain_block <$> r)) ∧
    match r with
    | Some b => selectable_wf (pool s) timestamp b ∧
        ∀ b', selectable_wf (pool s) timestamp b' → block_no b' ≤ block_no b
    | None => ∀ b, ¬ selectable_wf (pool s) timestamp b
    end.
Proof.
  intros [Hwf Hne _] Hts. destruct (allowed_times timestamp Hts) as [Hmin Hmax].
  destruct (get_latest_block_info_spec _ Hwf Hne) as (latest & Hlatest & Hl & Htip).
  destruct (params_stability Hparams) as (Hk & Hm & Hkm), (params_boundary Hparams) as [Hb0 Hb1].
  unfold source_latest_stable_block_for, timestamp_to_db_type.
  destruct Hts as [Hts1 Hts2]. rewrite (proj2 (Z.ltb_lt _ _)), (proj2 (Z.leb_le _ _)) by lia. simpl.
  unfold get_latest_block_info_source. rewrite Hlatest. simpl. rewrite (from_block_ok _ _ Hwf Hl). simpl.
  rewrite Htip, wadd_exact by (unfold in_u, u_bound; lia).
  unfold get_latest_block. rewrite Hmin. simpl. rewrite date_time_to_slot_spec by lia. simpl.
  rewrite Hmax. simpl. rewrite date_time_to_slot_spec by lia. simpl. unfold get_highest_block.
  match goal with |- context [head (order_by _ _ ?rows)] =>
    pose proof (head_order_by row_order by_number_desc rows (params_rows Hparams)) as Hh;
    assert (∀ b, b ∈ rows ↔ selectable_wf (pool s) timestamp b) as Hrows
  end.
  { intros b. rewrite list_elem_of_filter. unfold selectable_wf, time_in_range.
    pose proof (slot_bounds_redundant (pool s) b (timestamp - max_slot_boundary) (timestamp - min_slot_boundary) Hwf) as Hred.
    unfold sat_sub. split.
    - intros ((Hno & Hslots) & Hb). specialize (Hred Hb). split_and!; [done|lia|tauto..].
    - intros (Hb & Hc & Hf & Ht). specialize (Hred Hb). split_and!; [lia|tauto..|done]. }
  destruct (head _) as [b|]; simpl.
  - destruct Hh as [Hb Hbest]. exists (Some b). pose proof (proj1 (Hrows b) Hb) as Hsel.
    rewrite (from_block_ok _ _ Hwf) by apply Hsel. split; [done|]. split; [done|].
    intros b' Hb'%Hrows. by apply Hbest.
  - exists None. split; [done|]. intros b Hb%Hrows. rewrite Hh in Hb. by apply not_elem_of_nil in Hb.
Qed.

Lemma latest_stable_block_spec s timestamp :
  block_source_ok s → supported_timestamp timestamp →
  ∃ r, source_latest_stable_block_for row_order datetime_min datetime_max security_parameter min_slot_boundary
      max_slot_boundary mainchain_epoch_config block_stability_margin timestamp s
    = Ret (s, Ok (mainchain_block <$> r)) ∧
    match r with
    | Some b => selectable (pool s) timestamp b ∧
        ∀ b', selectable (pool s) timestamp b' → block_no b' ≤ block_no b
    | None => ∀ b, ¬ selectable (pool s) timestamp b
    end.
Proof.
  intros [Hwf Hlong] Hts. destruct (latest_stable_block_wf s timestamp Hwf Hts) as (r & Hcall & Hr).
  exists r. split; [done|].
  assert (∀ b, selectable_wf (pool s) timestamp b ↔ selectable (pool s) timestamp b) as Hiff.
  { intros b. unfold selectable_wf, selectable, confirmed. rewrite Z.max_r by lia.
    split; intros (? & ? & ?); (split; [done|]; split; [lia|done]). }
  destruct r as [b|]; [|intros b Hb; apply (Hr b); by rewrite Hiff].
  destruct Hr as [Hb Hbest]. split; [by rewrite <-Hiff|]. intros b' Hb'. apply Hbest. by rewrite Hiff.
Qed.

(** ** Lookup of stable blocks *)

Definition stable_at (l : list Block) (h : bytes) (timestamp : Z) (b : Block) : Prop :=
  b ∈ l ∧ hash b = h ∧ confirmed security_parameter l b ∧ time_in_range timestamp b.

Lemma fill_cache_spec s b :
  block_source_wf s → b ∈ pool s → confirmed security_parameter (pool s) b →
  ∃ s', fill_cache row_order security_parameter cache_size b s = (s', Ok tt) ∧
    pool s' = pool s ∧ block_source_wf s'.
Proof.
  intros [Hwf Hne _] Hb Hc. destruct (get_latest_block_info_spec _ Hwf Hne) as (latest & Hlatest & _ & Htip).
  unfold fill_cache. rewrite Hlatest, Htip. eexists. split_and!; [done..|]. split; try done; simpl.
  intros b'. destruct (Z.ltb_spec (block_no b) (Z.min (sat_add 32 (block_no b) cache_size) (sat_sub (tip (pool s)) security_parameter)))
    as [Hlt|_].
  - unfold get_blocks_by_numbers. rewrite order_by_Permutation by apply (params_rows Hparams).
    rewrite list_elem_of_filter. intros [[_ Hto] Hin]. split; [done|]. unfold confirmed, sat_sub in *.
    destruct (wf_block _ _ Hwf b Hb) as ([? _] & _). lia.
  - by rewrite list_elem_of_singleton; intros ->.
Qed.

Lemma stable_from_db_spec s h timestamp :
  block_source_wf s → supported_timestamp timestamp →
  ∃ r, get_stable_block_by_hash_from_db row_order datetime_min datetime_max security_parameter
      min_slot_boundary max_slot_boundary s h timestamp = Ret r ∧
    ∀ b, r = Some b ↔ stable_at (pool s) h timestamp b.
Proof.
  intros [Hwf Hne Hcache] Hts. destruct (get_latest_block_info_spec _ Hwf Hne) as (latest & Hlatest & _ & Htip).
  unfold get_stable_block_by_hash_from_db. rewrite Hlatest.
  pose proof (λ b, query_block_by_hash_spec (pool s) h b Hwf) as Hq.
  destruct (query_block_by_hash row_order (pool s) h) as [b0|].
  2:{ exists None. split; [done|]. intros b. split; [done|]. intros (Hb & Hh & _). by apply Hq. }
  destruct (proj1 (Hq b0) eq_refl) as [Hb0 Hh0].
  assert (∀ b, stable_at (pool s) h timestamp b → b = b0) as Hu.
  { intros b (Hb & Hh & _). by apply (wf_hash _ _ Hwf); [..|congruence]. }
  rewrite Htip. destruct (wf_block _ _ Hwf b0 Hb0) as ([Hpos Hbound] & _).
  assert (tip (pool s) < u_bound 31) as Htip31.
  { enough (tip (pool s) ≤ u_bound 31 - 1) by lia. apply tip_le; [unfold u_bound; lia|]. intros b Hb. destruct (wf_block _ _ Hwf b Hb) as ([_ ?] & _). lia. }
  destruct (Z.leb_spec (sat_add 32 (block_no b0) security_parameter) (tip (pool s))) as [Hle|Hgt];
    [rewrite is_block_time_valid_spec by done; simpl|].
  - destruct (bool_decide_reflect (time_in_range timestamp b0)) as [Ht|Ht].
    + destruct (Z.le_gt_cases (block_no b0 + security_parameter) (tip (pool s))) as [Hc|Hc].
      * exists (Some b0). split; [done|]. intros b. split; [intros [= <-]; done|].
        by intros Hst; rewrite (Hu b Hst).
      * exfalso. unfold sat_add, u_bound in *. lia.
    + exists None. split; [done|]. intros b. split; [done|]. intros Hst. rewrite (Hu b Hst) in Hst. by destruct Hst as (_ & _ & _ & ?).
  - exists None. split; [done|]. intros b. split; [done|]. intros Hst. rewrite (Hu b Hst) in Hst.
    destruct Hst as (_ & _ & Hc & _). unfold confirmed, sat_add in *. lia.
Qed.

Lemma serve_from_db s h timestamp :
  block_source_wf s → supported_timestamp timestamp →
  ∃ s' r,
    (found ← get_stable_block_by_hash_from_db row_order datetime_min datetime_max security_parameter
       min_slot_boundary max_slot_boundary s h timestamp;
     match found with
     | Some block_by_hash =>
         match fill_cache row_order security_parameter cache_size block_by_hash s with
         | (s, Err e) => Ret (s, Err e)
         | (s, Ok _) => block ← from_block block_by_hash; Ret (s, Ok (Some block))
         end
     | None => Ret (s, Ok None)
     end) = Ret (s', Ok (mainchain_block <$> r)) ∧
    pool s' = pool s ∧ block_source_wf s' ∧ ∀ b, r = Some b ↔ stable_at (pool s) h timestamp b.
Proof.
  intros Hok Hts. destruct (stable_from_db_spec s h timestamp Hok Hts) as ([b|] & Hdb & Hr); rewrite Hdb; simpl.
  - destruct (proj1 (Hr b) eq_refl) as (Hb & _ & Hc & _).
    destruct (fill_cache_spec s b Hok Hb Hc) as (s' & Hfill & Hpool & Hok'). rewrite Hfill.
    exists s', (Some b). by rewrite (from_block_ok _ _ (ok_chain s Hok) Hb).
  - by exists s, None.
Qed.

Lemma stable_block_wf s h timestamp :
  block_source_wf s → supported_timestamp timestamp →
  ∃ s' r, source_stable_block_for row_order datetime_min datetime_max security_parameter min_slot_boundary
      max_slot_boundary cache_size h timestamp s = Ret (s', Ok (mainchain_block <$> r)) ∧
    pool s' = pool s ∧ block_source_wf s' ∧ ∀ b, r = Some b ↔ stable_at (pool s) h timestamp b.
Proof.
  intros Hok Hts. pose proof (ok_chain s Hok) as Hwf. unfold source_stable_block_for, timestamp_to_db_type.
  rewrite (proj2 (Z.ltb_lt _ _)), (proj2 (Z.leb_le _ _)) by (destruct Hts; lia).
  rewrite (DS_bind_Ok _ _ s s timestamp) by done. unfold get_stable_block_by_hash, get_stable_block_by_hash_from_cache.
  destruct (cache_find_by_hash (stable_blocks_cache s) h) as [b0|] eqn:Hfind; [|by apply serve_from_db].
  destruct (cache_find_spec s h b0 Hok Hfind) as (Hb0 & Hh0 & Hc0). rewrite is_block_time_valid_spec by done.
  destruct (bool_decide_reflect (time_in_range timestamp b0)) as [Ht|Ht]; [|by apply serve_from_db].
  exists s, (Some b0). simpl. rewrite (from_block_ok _ _ Hwf Hb0). split_and!; [done..|].
  intros b. split; [by intros [= <-]|]. intros (Hb & Hh & _). f_equal. apply (wf_hash _ _ Hwf); [done..|congruence].
Qed.

Lemma stable_block_spec s h timestamp :
  block_source_ok s → supported_timestamp timestamp →
  ∃ s' r, source_stable_block_for row_order datetime_min datetime_max security_parameter min_slot_boundary
      max_slot_boundary cache_size h timestamp s = Ret (s', Ok (mainchain_block <$> r)) ∧
    pool s' = pool s ∧ block_source_ok s' ∧ ∀ b, r = Some b ↔ stable_at (pool s) h timestamp b.
Proof.
  intros [Hwf Hlong] Hts. destruct (stable_block_wf s h timestamp Hwf Hts) as (s' & r & Hcall & Hpool & Hwf' & Hr).
  exists s', r. split_and!; [done..| |done]. split; [done|]. by rewrite Hpool.
Qed.

Lemma block_by_hash_spec s h :
  block_source_wf s →
  ∃ r, source_block_by_hash row_order h s = Ret (s, Ok (mainchain_block <$> r)) ∧
    ∀ b, r = Some b ↔ b ∈ pool s ∧ hash b = h.
Proof.
  intros Hok. pose proof (ok_chain s Hok) as Hwf. unfold source_block_by_hash.
  destruct (cache_find_by_hash (stable_blocks_cache s) h) as [b0|] eqn:Hfind.
  - destruct (cache_find_spec s h b0 Hok Hfind) as (Hb0 & Hh0 & _). exists (Some b0). simpl.
    rewrite (from_block_ok _ _ Hwf Hb0). split; [done|]. intros b. split; [by intros [= <-]|].
    intros [Hb Hh]. f_equal. apply (wf_hash _ _ Hwf); [done..|congruence].
  - exists (query_block_by_hash row_order (pool s) h). pose proof (λ b, query_block_by_hash_spec (pool s) h b Hwf) as Hq.
    split; [|done]. destruct (query_block_by_hash row_order (pool s) h) as [b|]; [|done]. simpl.
    by rewrite (from_block_ok _ _ Hwf) by (by apply Hq).
Qed.

(** On a network that did not start within weeks of 1970 the caches never learn of a
    stable block. *)
Lemma caches_know_no_stable_block s b :
  block_source_wf s → b ∈ pool s → block_no b = tip (pool s) →
  supported_timestamp (time b / 1000) → time b / 1000 < first_time →
  get_latest_stable_block row_order datetime_min datetime_max security_parameter min_slot_boundary
    max_slot_boundary mainchain_epoch_config block_stability_margin s = Ret (s, Ok None).
Proof.
  intros Hok Hb Htip Hts Hold. pose proof Hok as [Hwf Hne _].
  destruct (get_latest_block_info_spec _ Hwf Hne) as (latest & Hlatest & Hl & Hltip).
  assert (latest = b) as -> by (apply (wf_number _ _ Hwf); [done..|congruence]).
  unfold get_latest_stable_block. rewrite (DS_bind_Ok _ _ s s (mainchain_block b)).
  2:{ unfold latest_block_info, get_latest_block_info_source. rewrite Hlatest. simpl. by rewrite (from_block_ok _ _ Hwf Hb). }
  destruct (latest_stable_block_wf s (time b / 1000) Hok Hts) as (r & Hcall & Hr).
  rewrite (DS_bind_Ok _ _ s s (mainchain_block <$> r)) by done.
  destruct r as [b'|]; [|done]. exfalso. destruct Hr as [(_ & _ & Hfirst & _ & Hlast) _].
  destruct (params_boundary Hparams). lia.
Qed.

(** ** The source keeps the promises of the interface *)

Definition block_view : SourceView BlockDataSourceImpl := mkView
  block_source_ok
  (λ s mb, ∃ b, b ∈ pool s ∧ mb = mainchain_block b)
  (λ s mb, ∃ b, b ∈ pool s ∧ confirmed security_parameter (pool s) b ∧ mb = mainchain_block b)
  (λ s mb, ∃ b, b ∈ pool s ∧ confirmed (security_parameter + block_stability_margin) (pool s) b ∧
     first_time ≤ time b ∧ mb = mainchain_block b)
  supported_timestamp.

Lemma same_pool_unchanged s s' : block_source_ok s' → pool s' = pool s → unchanged block_view s s'.
Proof. intros Hok Hp. split; [done|]. simpl. intros b. by rewrite Hp. Qed.

Lemma fmap_mainchain_block_iff (r : option Block) (P : Block → Prop) mb :
  (∀ b, r = Some b ↔ P b) →
  Ok (E:=SourceError) (mainchain_block <$> r) = Ok (Some mb) ↔ ∃ b, P b ∧ mb = mainchain_block b.
Proof.
  intros Hr. split.
  - intros [= (b & Hb & ->)%fmap_Some]. exists b. by rewrite <-Hr.
  - intros (b & Hb%Hr & ->). by rewrite Hb.
Qed.

#[local] Instance the_block_source : McHashDataSource BlockDataSourceImpl SourceError :=
  block_source row_order datetime_min datetime_max security_parameter min_slot_boundary max_slot_boundary
    mainchain_epoch_config block_stability_margin cache_size.

Lemma block_source_laws :
  McHashDataSourceLaws (S:=BlockDataSourceImpl) (F:=SourceError) block_view min_slot_boundary max_slot_boundary.
Proof.
  split; simpl.
  - intros timestamp s Hok Hts. destruct (latest_stable_block_spec s timestamp Hok Hts) as (r & Hcall & Hr).
    exists s, (mainchain_block <$> r). split; [done|]. split; [by apply same_pool_unchanged|].
    pose proof (λ b, allowable_block (pool s) b timestamp (ok_chain s (ok_wf s Hok))) as Hall.
    destruct r as [b|]; simpl.
    + destruct Hr as [(Hb & Hc & Hf & Ht) Hmax]. split; [by exists b|]. split; [by apply Hall|].
      intros mb (b' & Hb' & Hc' & Hf' & ->) Ht'. apply Hmax. split_and!; [done..|]. by apply Hall.
    + intros mb (b & Hb & Hc & Hf & ->) Ht. apply (Hr b). split_and!; [done..|]. by apply Hall.
  - intros h timestamp s Hok Hts. destruct (stable_block_spec s h timestamp Hok Hts) as (s' & r & Hcall & Hp & Hok' & Hr).
    exists s', (Ok (mainchain_block <$> r)). split; [done|]. split; [by apply same_pool_unchanged|].
    intros mb. rewrite (fmap_mainchain_block_iff r _ mb Hr).
    split.
    + intros (b & (Hb & Hh & Hc & Ht) & ->). split_and!; [by exists b|done|].
      by apply (allowable_block (pool s) b timestamp (ok_chain s (ok_wf s Hok))).
    + intros ((b & Hb & Hc & ->) & Hh & Ht). exists b. split; [|done]. split_and!; [done..|].
      by apply (allowable_block (pool s) b timestamp (ok_chain s (ok_wf s Hok))).
  - intros h s Hok. destruct (block_by_hash_spec s h (ok_wf s Hok)) as (r & Hcall & Hr).
    exists s, (Ok (mainchain_block <$> r)). split; [done|]. split; [by apply same_pool_unchanged|].
    intros mb. rewrite (fmap_mainchain_block_iff r _ mb Hr). split.
    + intros (b & [Hb Hh] & ->). split; [by exists b|done].
    + intros ((b & Hb & ->) & Hh). by exists b.
  - intros s mb Hok (b & Hb & Hc & _ & ->). exists b. split_and!; [done| |done].
    destruct (params_stability Hparams). unfold confirmed in *. lia.
  - intros s mb Hok (b & Hb & _ & ->). by exists b.
  - intros s mb mb' Hok (b & Hb & _ & ->) (b' & Hb' & _ & ->) Hle. simpl in *.
    apply Z.div_le_mono; [lia|]. by apply (wf_time _ _ (ok_chain s (ok_wf s Hok))).
Qed.

(** ** The chain moves on

    Blocks are added, and only blocks that are not stable are replaced. *)
Definition rolls_forward (l l' : list Block) : Prop :=
  tip l ≤ tip l' ∧ ∀ b, b ∈ l → confirmed security_parameter l b → b ∈ l'.

Lemma block_source_wf_forward s l' :
  block_source_wf s → chain_wf mainchain_epoch_config l' → l' ≠ [] → rolls_forward (pool s) l' →
  block_source_wf (mkBlockSource l' (stable_blocks_cache s)).
Proof.
  intros Hok Hwf Hne [Htip Hkeep]. split; simpl; [done..|].
  intros b Hb. destruct (ok_cache s Hok b Hb) as [Hin Hc]. split; [by apply Hkeep|].
  unfold confirmed in *. lia.
Qed.
End Spec.

(** C8. The source answers from the chain as it is at the time of the call,
    whatever its cache holds from before the chain moved on, on chains of any length.
    The latest stable block is the highest one in the range of times that has the
    required confirmations (or has number 0, if the chain is shorter than the security
    parameter and the margin) and is not from before the configured first
    epoch; the range of slots in the query has no other effect than to leave out
    those earlier blocks.  A lookup finds exactly the stable block with the hash
    in the range of times. *)
Theorem block_source_exact row_order datetime_min datetime_max security_parameter min_slot_boundary
    max_slot_boundary config margin cache_size s l timestamp :
  source_params_wf row_order datetime_min datetime_max security_parameter min_slot_boundary
    max_slot_boundary config margin →
  block_source_wf security_parameter config s →
  chain_wf config l → l ≠ [] → rolls_forward security_parameter (pool s) l →
  supported_timestamp datetime_max max_slot_boundary timestamp →
  let s' := mkBlockSource l (stable_blocks_cache s) in
  let in_range b := timestamp - max_slot_boundary ≤ time b ≤ timestamp - min_slot_boundary in
  let candidate b := b ∈ l ∧ block_no b ≤ Z.max 0 (tip l - (security_parameter + margin)) ∧
    first_epoch_timestamp_millis config ≤ time b ∧ in_range b in
  (∃ r, source_latest_stable_block_for row_order datetime_min datetime_max security_parameter min_slot_boundary
       max_slot_boundary config margin timestamp s' = Ret (s', Ok (mainchain_block <$> r)) ∧
     match r with
     | Some b => candidate b ∧ ∀ b', candidate b' → block_no b' ≤ block_no b
     | None => ∀ b, ¬ candidate b
     end) ∧
  (∀ h, ∃ s'' r, source_stable_block_for row_order datetime_min datetime_max security_parameter min_slot_boundary
       max_slot_boundary cache_size h timestamp s' = Ret (s'', Ok (mainchain_block <$> r)) ∧
     pool s'' = l ∧ block_source_wf security_parameter config s'' ∧
     ∀ b, r = Some b ↔ b ∈ l ∧ hash b = h ∧ block_no b + security_parameter ≤ tip l ∧ in_range b) ∧
  (∀ h, ∃ r, source_block_by_hash row_order h s' = Ret (s', Ok (mainchain_block <$> r)) ∧
     ∀ b, r = Some b ↔ b ∈ l ∧ hash b = h).
Proof.
  intros Hp Hok Hwf Hne Hroll Hts. pose proof (block_source_wf_forward _ _ s l Hok Hwf Hne Hroll) as Hok'.
  split_and!.
  - by apply (latest_stable_block_wf _ _ _ _ _ _ _ _ Hp _ _ Hok').
  - intros h. by apply (stable_block_wf _ _ _ _ _ _ _ _ _ Hp _ _ _ Hok').
  - intros h. by eapply block_by_hash_spec.
Qed.

(** ** A chain that is too short

    Subtracting the required confirmations saturates at zero: while the chain is
    shorter, the source offers block 0 to authors, and rejects the reference. *)
Definition example_config : MainchainEpochConfig := mkEpochConfig 100000 1000 0 0 0.
Definition rows_as_stored (A : Type) (l : list A) : list A := l.
Definition example_hash (i : Z) : bytes := replicate 31 0 ++ [i].
Definition example_block (i : Z) : Block := mkBlock i (example_hash i) 1 i (1000 * i).

Example short_chain_offers_unstable_block :
  let s := mkBlockSource [example_block 0; example_block 1] [] in
  source_latest_stable_block_for rows_as_stored (-1) (2 ^ 60) 10 2000 6000 example_config 0 6000 s
    = Ret (s, Ok (Some (mainchain_block (example_block 0)))) ∧
  source_stable_block_for rows_as_stored (-1) (2 ^ 60) 10 2000 6000 100 (example_hash 0) 6000 s = Ret (s, Ok None).
Proof. split; vm_compute; reflexivity. Qed.

(** The latest block of the Cardano mainnet, of 2025, is stable, and the caches do not
    find it. *)
Example mainnet_block_unknown_to_caches :
  let b := mkBlock 12000000 (example_hash 1) 560 158433709 1750000000000 in
  let s := mkBlockSource [b] [] in
  source_latest_stable_block_for rows_as_stored (-1) (2 ^ 60) 0 0 129600000 mainnet 0 1750000000000 s
    = Ret (s, Ok (Some (mainchain_block b))) ∧
  get_latest_stable_block rows_as_stored (-1) (2 ^ 60) 0 0 129600000 mainnet 0 s = Ret (s, Ok None).
Proof. split; vm_compute; reflexivity. Qed.

(** ** Witnesses *)

Definition example_chain (n : Z) : list Block := example_block <$> seqZ 0 n.
Definition example_source (n : Z) : BlockDataSourceImpl := mkBlockSource (example_chain n) [example_block 1].

Lemma elem_of_example_chain n b : b ∈ example_chain n ↔ ∃ i, b = example_block i ∧ 0 ≤ i < n.
Proof.
  unfold example_chain. rewrite list_elem_of_fmap. split.
  - intros (i & -> & Hi%elem_of_seqZ). exists i. split; [done|lia].
  - intros (i & -> & Hi). exists i. split; [done|]. apply elem_of_seqZ. lia.
Qed.

Lemma example_chain_wf n : n ≤ 10 → chain_wf example_config (example_chain n).
Proof.
  intros Hn. split.
  - intros b b' (i & -> & Hi)%elem_of_example_chain (j & -> & Hj)%elem_of_example_chain Hh.
    by apply app_inv_head in Hh as [= ->].
  - intros b b' (i & -> & Hi)%elem_of_example_chain (j & -> & Hj)%elem_of_example_chain. by intros [= ->].
  - intros b (i & -> & Hi)%elem_of_example_chain. cbn [example_block block_no time]. unfold in_u, u_bound.
    split_and!; try lia. exists i. lia.
  - intros b b' (i & -> & Hi)%elem_of_example_chain (j & -> & Hj)%elem_of_example_chain.
    cbn [example_block block_no time]. lia.
  - intros b (i & -> & Hi)%elem_of_example_chain. cbn [example_block slot_no time example_config
      first_epoch_timestamp_millis first_slot_number slot_duration_millis].
    rewrite decide_True by lia. rewrite Z.sub_0_r, Z.mul_comm, Z.div_mul; lia.
Qed.

Lemma example_params : source_params_wf rows_as_stored (-1) (2 ^ 60) 2 2000 6000 example_config 0.
Proof. split; simpl; first [done|lia|by split_and!]. Qed.

Lemma example_source_ok n : 4 ≤ n ≤ 10 → block_source_ok 2 example_config 0 (example_source n).
Proof.
  intros Hn. assert (tip (example_chain n) = n - 1) as Htip.
  { apply Z.le_antisymm.
    - apply tip_le; [lia|]. intros b (i & -> & Hi)%elem_of_example_chain. simpl. lia.
    - apply (tip_ge _ (example_block (n - 1))). apply elem_of_example_chain. exists (n - 1). split; [done|lia]. }
  assert (example_block 1 ∈ example_chain n) as H1 by (apply elem_of_example_chain; exists 1; split; [done|lia]).
  split; [|unfold example_source; cbn [pool]; rewrite Htip; lia].
  split; unfold example_source; cbn [pool stable_blocks_cache].
  - apply example_chain_wf. lia.
  - intros Hnil. rewrite Hnil in H1. by apply not_elem_of_nil in H1.
  - intros b Hb%list_elem_of_singleton. rewrite Hb. split; [done|]. unfold confirmed. rewrite Htip.
    cbn [example_block block_no]. lia.
Qed.

Lemma block_source_exact_witness :
  ∃ s r, source_stable_block_for rows_as_stored (-1) (2 ^ 60) 2 2000 6000 100 (example_hash 3) 8000
      (mkBlockSource (example_chain 8) [example_block 1]) = Ret (s, Ok (mainchain_block <$> r)) ∧
    r = Some (example_block 3).
Proof.
  destruct (block_source_exact rows_as_stored (-1) (2 ^ 60) 2 2000 6000 example_config 0 100
    (example_source 5) (example_chain 8) 8000 example_params) as (_ & Hstable & _).
  - apply (ok_wf _ _ 0). by apply example_source_ok.
  - by apply example_chain_wf.
  - discriminate.
  - split; [vm_compute; discriminate|]. intros b (i & -> & Hi)%elem_of_example_chain _.
    apply elem_of_example_chain. exists i. split; [done|lia].
  - unfold supported_timestamp. lia.
  - destruct (Hstable (example_hash 3)) as (s & r & Hcall & _ & _ & Hr). exists s, r. split; [exact Hcall|].
    apply Hr. split; [apply elem_of_example_chain; by exists 3|]. vm_compute. by split_and!.
Defined.

#[local] Instance example_data_source : McHashDataSource BlockDataSourceImpl SourceError :=
  block_source rows_as_stored (-1) (2 ^ 60) 2 2000 6000 example_config 0 100.
Definition example_view : SourceView BlockDataSourceImpl := block_view (2 ^ 60) 2 6000 example_config 0.
#[local] Instance example_laws :
  McHashDataSourceLaws (S:=BlockDataSourceImpl) (F:=SourceError) example_view 2000 6000.
Proof. exact (block_source_laws rows_as_stored (-1) (2 ^ 60) 2 2000 6000 example_config 0 100 example_params). Qed.

Lemma example_supported timestamp : 6000 ≤ timestamp ≤ 1000000 → supported example_view timestamp.
Proof. intros ?. unfold example_view. cbn [block_view supported]. unfold supported_timestamp. lia. Qed.

(** A verifier that knows one block more. *)
Lemma example_offered mb : offered example_view (example_source 6) mb → stable example_view (example_source 7) mb.
Proof.
  intros (b & (i & -> & Hi)%elem_of_example_chain & Hc & _ & ->). exists (example_block i).
  split_and!; [apply elem_of_example_chain; exists i; split; [done|lia]| |done].
  revert Hc. unfold confirmed. cbn [example_block block_no].
  change (tip (pool (example_source 6))) with 5. change (tip (pool (example_source 7))) with 6. lia.
Qed.

Lemma example_stable n i : 0 ≤ i → i + 2 < n → stable example_view (example_source n) (mainchain_block (example_block i)).
Proof.
  intros Hi Hn. exists (example_block i). split_and!; [apply elem_of_example_chain; exists i; split; [done|lia]| |done].
  unfold confirmed. cbn [example_block block_no].
  pose proof (tip_ge (pool (example_source n)) (example_block (n - 1))) as Htip. cbn [example_block block_no] in Htip.
  enough (example_block (n - 1) ∈ pool (example_source n)) by (specialize (Htip ltac:(done)); lia).
  apply elem_of_example_chain. exists (n - 1). split; [done|lia].
Qed.

Lemma example_known n i : 0 ≤ i < n → known example_view (example_source n) (mainchain_block (example_block i)).
Proof. intros Hi. exists (example_block i). split; [apply elem_of_example_chain; by exists i|done]. Qed.

Lemma example_known_unique n i pb :
  known example_view (example_source n) pb → mb_hash pb = example_hash i → pb = mainchain_block (example_block i).
Proof. intros (b & (j & -> & Hj)%elem_of_example_chain & ->) Hh. by apply app_inv_head in Hh as [= ->]. Qed.

(** The parent block refers to block 2; the author, who knows one block less than
    the verifier, refers to block 3. *)
Lemma mc_reference_agreement_witness :
  ∃ author' proposal,
    new_proposal (S:=BlockDataSourceImpl) (F:=SourceError) (from_mc_block_hash (example_hash 2)) 8000 (example_source 6)
      = Ret (author', proposal) ∧ is_ok proposal = true.
Proof.
  destruct (mc_reference_agreement (F1:=SourceError) (F2:=SourceError) (v1:=example_view) (v2:=example_view) (example_source 6) (example_source 7)
    (from_mc_block_hash (example_hash 2)) (Some 7000) 8000)
    as (author' & proposal & Hcall & _ & Hiff & _).
  - by apply example_source_ok.
  - by apply example_source_ok.
  - by apply example_supported.
  - by apply example_supported.
  - apply example_offered.
  - split; [by apply example_supported|]. split; [lia|].
    exists (mainchain_block (example_block 2)). split_and!.
    + vm_compute. reflexivity.
    + by apply example_stable.
    + vm_compute. by split.
    + by apply example_known.
    + intros pb'. apply example_known_unique.
  - exists author', proposal. split; [exact Hcall|]. apply Hiff.
    exists (mainchain_block (example_block 3)). split.
    + exists (example_block 3). split_and!; [apply elem_of_example_chain; by exists 3|vm_compute; discriminate..|done].
    + vm_compute. by split.
Defined.

Lemma mc_reference_sound_witness :
  ∃ s r, new_verification (S:=BlockDataSourceImpl) (F:=SourceError) [] None 8000 (example_hash 3) (example_source 7)
      = Ret (s, r) ∧ r = Ok (mkMcHash (mainchain_block (example_block 3)) None).
Proof.
  destruct (mc_reference_sound (F:=SourceError) (v:=example_view) [] None 8000 (example_hash 3) (example_source 7))
    as (s & r & Hcall & _ & Hr).
  - by apply example_source_ok.
  - unfold example_view. cbn [block_view supported]. unfold supported_timestamp. lia.
  - intros t Ht. discriminate Ht.
  - exists s, r. split; [exact Hcall|]. apply Hr. split_and!; [|reflexivity|vm_compute; by split|reflexivity].
    exists (example_block 3). split_and!; [apply elem_of_example_chain; by exists 3|vm_compute; discriminate|done].
Defined.
