(* ===== verification/ProducerPallets.v ===== *)
(** * Fees, metadata and address associations

    - [toolkit/block-producer-fees/pallet/src/lib.rs]: the margin fee of a block
      producer and its history;
    - [toolkit/block-producer-metadata/pallet/src/lib.rs] and the signed message
      of [toolkit/block-producer-metadata/primitives/src/lib.rs]: metadata of
      block producers, kept for a deposit;
    - [toolkit/address-associations/pallet/src/lib.rs]: associations of Cardano
      stake keys with partner chain addresses, for a burnt fee.

    The currency is the [fungible] interface of FRAME: the class [Currency] with
    what its documentation promises.  Hashing and signatures are parameters. *)

From S2P Require Import Prelude Domain CandidateKeys.

(** ** Block producer fees *)

Section Fees.
Context {AccountId Moment : Type} `{Countable AccountId}.

(** The deque of an account, most recent change first. *)
Abbreviation FeesChanges := (gmap AccountId (list (Moment * Z))).

Inductive FeeError := FeeNumeratorOutOfRange.

Definition set_fee (HistoricalChangesPerProducer : Z) (current_moment : Moment) (account_id : AccountId)
    (fee_numerator : Z) (s : FeesChanges) : result FeeError FeesChanges :=
  if 10000 <? fee_numerator then Err FeeNumeratorOutOfRange
  else
    let fees_log := default [] (s !! account_id) in
    let fees_log := if HistoricalChangesPerProducer <? Z.of_nat (length fees_log)
                    then removelast fees_log else fees_log in
    Ok (<[account_id := (current_moment, fee_numerator) :: fees_log]> s).

Definition get_all (s : FeesChanges) : list (AccountId * list (Moment * Z)) := map_to_list s.
Definition get_all_latest (s : FeesChanges) : outcome (list (AccountId * (Moment * Z))) :=
  mapM (λ '(account_id, changes), change ← expect (head changes); Ret (account_id, change)) (get_all s).
Definition get (s : FeesChanges) (id : AccountId) : list (Moment * Z) := default [] (s !! id).
Definition get_latest (s : FeesChanges) (id : AccountId) : option (Moment * Z) := head (get s id).
End Fees.

(** ** The currency *)

(** [hold] and [release] (with [Precision::BestEffort]) under the reason
    [MetadataDeposit], [burn_from] with the arguments the pallet gives. *)
Class Currency (Sys AccountId : Type) := {
  on_hold : AccountId → Sys → Z;
  total_issuance : Sys → Z;
  hold : AccountId → Z → Sys → option Sys;
  release : AccountId → Z → Sys → option Sys;
  burn_from : AccountId → Z → Sys → option Sys;
}.
Class CurrencyLaws (Sys AccountId : Type) `{EqDecision AccountId} `{!Currency Sys AccountId} : Prop := {
  hold_spec a x (s s' : Sys) b : 0 ≤ x → hold a x s = Some s' →
    on_hold b s' = on_hold b s + (if decide (b = a) then x else 0);
  release_spec a x (s s' : Sys) b : 0 ≤ x → release a x s = Some s' →
    on_hold b s' = on_hold b s - (if decide (b = a) then Z.min x (on_hold a s) else 0);
  release_succeeds a x (s : Sys) : 0 ≤ x ≤ on_hold a s → is_Some (release a x s);
  burn_spec a x (s s' : Sys) : burn_from a x s = Some s' → total_issuance s' = total_issuance s - x;
}.

(** ** Block producer metadata *)

Record MetadataSignedMessage (M AccountId : Type) := mkMetadataMessage {
  cross_chain_pub_key : bytes;
  metadata : option M;
  msg_genesis_utxo : UtxoId;
  valid_before : Z;
  owner : AccountId;
}.
Arguments mkMetadataMessage {M AccountId} _ _ _ _ _.
Arguments cross_chain_pub_key {M AccountId} _.
Arguments metadata {M AccountId} _.
Arguments msg_genesis_utxo {M AccountId} _.
Arguments valid_before {M AccountId} _.
Arguments owner {M AccountId} _.

Inductive MetadataError :=
  | InvalidMainchainSignature
  | InsufficientBalance
  | NotTheOwner
  | PastValidityTime
  | ReleaseFailed.

Definition le (k : nat) (n : Z) : bytes := reverse (be k n).

Section Metadata.
Context {M AccountId Sys : Type} `{Countable AccountId} `{!Currency Sys AccountId} `{!Scale}.
Context (encode_metadata : M → bytes) (encode_account : AccountId → bytes).
Context (key_hash : bytes → bytes) (verify : bytes → bytes → bytes → bool) (genesis_utxo : UtxoId).

(** [UtxoId] and the message as [derive(Encode)] encodes them. *)
Definition encode_utxo_id (u : UtxoId) : bytes := tx_hash u ++ le 2 (utxo_index u).
Definition encode_message (m : MetadataSignedMessage M AccountId) : bytes :=
  vec_encode (cross_chain_pub_key m)
  ++ match metadata m with Some x => 1 :: encode_metadata x | None => [0] end
  ++ encode_utxo_id (msg_genesis_utxo m)
  ++ le 8 (valid_before m)
  ++ encode_account (owner m).

(** [BlockProducerMetadataStorage] *)
Abbreviation MetadataStorage := (gmap bytes (M * AccountId * Z)).

Definition hold_deposit (HoldAmount : Z) (account : AccountId) (sys : Sys) : result MetadataError (Z * Sys) :=
  sys ← ok_or (hold account HoldAmount sys) InsufficientBalance;
  Ok (HoldAmount, sys).

Definition release_deposit (depositor : AccountId) (amount : Z) (sys : Sys) : result MetadataError Sys :=
  ok_or (release depositor amount sys) ReleaseFailed.

Definition upsert_metadata (HoldAmount current_time : Z) (origin_account : AccountId) (new_metadata : M)
    (signature cross_chain_pub_key : bytes) (valid_before : Z) (s : MetadataStorage) (sys : Sys) :
    result MetadataError (MetadataStorage * Sys) :=
  let cross_chain_key_hash := key_hash cross_chain_pub_key in
  let metadata_message :=
    mkMetadataMessage cross_chain_pub_key (Some new_metadata) genesis_utxo valid_before origin_account in
  let is_valid_signature := verify signature cross_chain_pub_key (encode_message metadata_message) in
  _ ← ensure (current_time <=? valid_before) PastValidityTime;
  _ ← ensure is_valid_signature InvalidMainchainSignature;
  match s !! cross_chain_key_hash with
  | None =>
      '(deposit, sys) ← hold_deposit HoldAmount origin_account sys;
      Ok (<[cross_chain_key_hash := (new_metadata, origin_account, deposit)]> s, sys)
  | Some (_, owner, deposit) =>
      _ ← ensure (bool_decide (owner = origin_account)) NotTheOwner;
      Ok (<[cross_chain_key_hash := (new_metadata, owner, deposit)]> s, sys)
  end.

Definition delete_metadata (current_time : Z) (origin_account : AccountId)
    (cross_chain_pub_key signature : bytes) (valid_before : Z) (s : MetadataStorage) (sys : Sys) :
    result MetadataError (MetadataStorage * Sys) :=
  let metadata_message :=
    mkMetadataMessage cross_chain_pub_key None genesis_utxo valid_before origin_account in
  let cross_chain_key_hash := key_hash cross_chain_pub_key in
  let is_valid_signature := verify signature cross_chain_pub_key (encode_message metadata_message) in
  _ ← ensure (current_time <=? valid_before) PastValidityTime;
  _ ← ensure is_valid_signature InvalidMainchainSignature;
  match s !! cross_chain_key_hash with
  | Some (_, owner, deposit) =>
      _ ← ensure (bool_decide (owner = origin_account)) NotTheOwner;
      sys ← release_deposit owner deposit sys;
      Ok (delete cross_chain_key_hash s, sys)
  | None => Ok (s, sys)
  end.

Definition get_metadata_for (cross_chain_pub_key : bytes) (s : MetadataStorage) : option M :=
  (λ x, x.1.1) <$> s !! key_hash cross_chain_pub_key.

(** A block: a call of the pallet that succeeds, with the deposit the runtime
    asks for at that time, or activity elsewhere that leaves the holds of the
    pallet alone. *)
Inductive metadata_step : MetadataStorage * Sys → MetadataStorage * Sys → Prop :=
  | step_upsert HoldAmount current_time signer new signature key before s sys s' sys' :
      0 ≤ HoldAmount →
      upsert_metadata HoldAmount current_time signer new signature key before s sys = Ok (s', sys') →
      metadata_step (s, sys) (s', sys')
  | step_delete current_time signer key signature before s sys s' sys' :
      delete_metadata current_time signer key signature before s sys = Ok (s', sys') →
      metadata_step (s, sys) (s', sys')
  | step_elsewhere s sys sys' :
      (∀ a, on_hold a sys' = on_hold a sys) → metadata_step (s, sys) (s, sys').

(** The deposits of an account. *)
Definition deposits (a : AccountId) (s : MetadataStorage) : Z :=
  map_fold (λ _ '(_, o, d) acc, if decide (o = a) then d + acc else acc) 0 s.
End Metadata.

(** ** Address associations *)

Record AddressAssociationSignedMessage (Address : Type) := mkAssociationMessage {
  stake_public_key : bytes;
  partnerchain_address : Address;
  assoc_genesis_utxo : UtxoId;
}.
Arguments mkAssociationMessage {Address} _ _ _.
Arguments stake_public_key {Address} _.
Arguments partnerchain_address {Address} _.
Arguments assoc_genesis_utxo {Address} _.

Inductive AssociationError :=
  | MainchainKeyAlreadyAssociated
  | AssociationInvalidSignature
  | AssociationInsufficientBalance.

Class OnNewAssociation (Address H : Type) := on_new_association : Address → bytes → H → H.
(** [impl OnNewAssociation for ()] *)
Definition no_association_handler {Address H} : OnNewAssociation Address H := λ _ _ h, h.

Section Associations.
Context {Address AccountId Sys H : Type} `{EqDecision AccountId} `{!Currency Sys AccountId, !OnNewAssociation Address H}.
Context (encode_address : Address → bytes) (stake_key_hash : bytes → bytes)
  (verify : bytes → bytes → bytes → bool) (genesis_utxo : UtxoId).

Definition encode_association (m : AddressAssociationSignedMessage Address) : bytes :=
  stake_public_key m ++ encode_address (partnerchain_address m) ++ encode_utxo_id (assoc_genesis_utxo m).

Record AssociationState := mkAssociations {
  AddressAssociations : gmap bytes Address;
  assoc_sys : Sys;
  assoc_handler : H;
}.

Definition associate_address (BurnAmount : Z) (origin_account_id : AccountId) (address : Address)
    (signature key : bytes) (s : AssociationState) : result AssociationError AssociationState :=
  let hash := stake_key_hash key in
  _ ← ensure (bool_decide (AddressAssociations s !! hash = None)) MainchainKeyAlreadyAssociated;
  sys ← ok_or (burn_from origin_account_id BurnAmount (assoc_sys s)) AssociationInsufficientBalance;
  let message := mkAssociationMessage key address genesis_utxo in
  _ ← ensure (verify signature key (encode_association message)) AssociationInvalidSignature;
  Ok (mkAssociations (<[hash := address]> (AddressAssociations s)) sys
        (on_new_association address hash (assoc_handler s))).

Definition get_partner_chain_address_for (key : bytes) (s : AssociationState) : option Address :=
  AddressAssociations s !! stake_key_hash key.

(** A sequence of extrinsics; one that fails is rolled back. *)
Definition associate_all (BurnAmount : Z) (calls : list (AccountId * Address * bytes * bytes))
    (s : AssociationState) : AssociationState :=
  foldl (λ s '(account, address, signature, key),
    match associate_address BurnAmount account address signature key s with
    | Ok s' => s'
    | Err _ => s
    end) s calls.
End Associations.
Arguments mkAssociations {Address Sys H} _ _ _.
Arguments AddressAssociations {Address Sys H} _.
Arguments assoc_sys {Address Sys H} _.
Arguments assoc_handler {Address Sys H} _.
Arguments AssociationState : clear implicits.

(** ** The history of fees *)

Section FeesHistory.
Context {AccountId Moment : Type} `{Countable AccountId}.
Implicit Types calls : list (AccountId * Moment * Z).

(** A sequence of extrinsics; one that fails is rolled back. *)
Definition set_fees (Historical : Z) calls (s : gmap AccountId (list (Moment * Z))) :=
  foldl (λ s '(account, moment, fee),
    match set_fee Historical moment account fee s with Ok s' => s' | Err _ => s end) s calls.

(** The changes of an account that were in range, oldest first. *)
Definition accepted (a : AccountId) calls : list (Moment * Z) :=
  filter_map (λ '(account, moment, fee),
    if decide (account = a ∧ fee ≤ 10000) then Some (moment, fee) else None) calls.

Lemma accepted_app a calls calls' : accepted a (calls ++ calls') = accepted a calls ++ accepted a calls'.
Proof. apply filter_map_app. Qed.

Lemma accepted_one a b m f :
  accepted a [(b, m, f)] = if decide (b = a ∧ f ≤ 10000) then [(m, f)] else [].
Proof. unfold accepted. simpl. by case_decide. Qed.

Lemma removelast_take {A} (l : list A) n : (n < length l)%nat → removelast (take (S n) l) = take n l.
Proof.
  intros Hn. destruct (lookup_lt_is_Some_2 l n Hn) as [x Hx].
  by rewrite (take_S_r _ _ _ Hx), removelast_last.
Qed.

Lemma set_fees_log H' calls a :
  0 ≤ H' →
  get (set_fees H' calls ∅) a = take (S (Z.to_nat H')) (reverse (accepted a calls)) ∧
  (is_Some (set_fees H' calls ∅ !! a) ↔ accepted a calls ≠ []).
Proof.
  intros HH. induction calls as [|[[b m] f] calls IH] using rev_ind; [by split; [|split; [intros [? [=]]|]]|].
  unfold set_fees in *. rewrite foldl_app, accepted_app, reverse_app, accepted_one. cbn [foldl].
  set (s := foldl _ _ _) in *. destruct IH as [Hlog Hsome]. unfold set_fee.
  destruct (Z.ltb_spec 10000 f) as [Hf|Hf].
  - rewrite decide_False by lia.
    by rewrite reverse_nil, app_nil_l, app_nil_r.
  - unfold get in *. destruct (decide (b = a)) as [->|Hne].
    + rewrite decide_True by done. rewrite lookup_insert_eq, reverse_singleton. simpl. split; [|split; [by destruct (accepted a calls)|done]].
      f_equal. rewrite Hlog, length_take.
      destruct (Z.ltb_spec H' (Z.of_nat (S (Z.to_nat H') `min` length (reverse (accepted a calls))))) as [Hlt|Hge].
      * rewrite removelast_take by lia. done.
      * rewrite !take_ge by lia. done.
    + rewrite decide_False by naive_solver. rewrite lookup_insert_ne by done. by rewrite reverse_nil, app_nil_l, app_nil_r.
Qed.

Lemma get_all_latest_spec (s : gmap AccountId (list (Moment * Z))) :
  (∀ a l, s !! a = Some l → l ≠ []) →
  ∃ l, get_all_latest s = Ret l ∧ ∀ a c, (a, c) ∈ l ↔ get_latest s a = Some c.
Proof.
  intros Hne. unfold get_all_latest, get_all.
  assert (∀ l : list (AccountId * list (Moment * Z)), (∀ a log, (a, log) ∈ l → log ≠ []) →
    ∃ l', mapM (λ '(account_id, changes), change ← expect (head changes); Ret (account_id, change)) l = Ret l' ∧
      ∀ a c, (a, c) ∈ l' ↔ ∃ log, (a, log) ∈ l ∧ head log = Some c) as Hmap.
  { induction l as [|[a log] l IH]; intros Hl.
    - exists []. split; [done|]. intros a c. split; [by intros ?%elem_of_nil|by intros (? & ?%elem_of_nil & _)].
    - destruct (IH (λ a' log' Hin, Hl a' log' (list_elem_of_further _ _ _ Hin))) as (l' & Hl' & Hin).
      destruct log as [|c log]; [by destruct (Hl a []); [left|]|]. exists ((a, c) :: l'). split.
      { simpl. change (mapM _ l) with (mapM (λ '(account_id, changes),
          change ← expect (head changes); Ret (account_id, change)) l). by rewrite Hl'. }
      intros a' c'. rewrite elem_of_cons, Hin. setoid_rewrite elem_of_cons. naive_solver. }
  destruct (Hmap (map_to_list s)) as (l & Hl & Hin).
  { intros a log Ha%elem_of_map_to_list. by eapply Hne. }
  exists l. split; [done|]. intros a c. rewrite Hin. unfold get_latest, get.
  setoid_rewrite elem_of_map_to_list. destruct (s !! a) as [log|]; simpl; naive_solver.
Qed.
End FeesHistory.

(** The fee log of an account is exact: it holds the most recent changes
    that were in range, newest first, the current one and up to
    [HistoricalChangesPerProducer] earlier ones, whatever other accounts do.
    Every fee is at most 10000, and listing the latest fees never meets an empty
    log: it returns the last accepted fee of every account that set one. *)
Theorem fees_log_exact {AccountId Moment : Type} `{Countable AccountId} Historical
    (calls : list (AccountId * Moment * Z)) :
  0 ≤ Historical →
  let s := set_fees Historical calls ∅ in
  (∀ a, get s a = take (S (Z.to_nat Historical)) (reverse (accepted a calls))) ∧
  (∀ a m f, (m, f) ∈ get s a → f ≤ 10000) ∧
  ∃ latest, get_all_latest s = Ret latest ∧
    ∀ a c, (a, c) ∈ latest ↔ last (accepted a calls) = Some c.
Proof.
  intros HH s. pose proof (λ a, set_fees_log Historical calls a HH) as Hlog. fold s in Hlog.
  split; [apply Hlog|]. split.
  - intros a m f. rewrite (proj1 (Hlog a)). intros Hin%(subseteq_take _ _). rewrite elem_of_reverse in Hin.
    apply elem_of_filter_map in Hin as ([[b m'] f'] & _ & Heq). case_decide; naive_solver.
  - destruct (get_all_latest_spec s) as (latest & Hl & Hin).
    { intros a l Ha ->. destruct (Hlog a) as [Hget Hsome]. unfold get in Hget. rewrite Ha in Hget, Hsome. simpl in Hget.
      assert (accepted a calls ≠ []) as Hne by (by apply Hsome).
      destruct (accepted a calls) as [|c l] using rev_ind; [done|]. by rewrite reverse_snoc in Hget. }
    exists latest. split; [done|]. intros a c. rewrite Hin. unfold get_latest.
    rewrite (proj1 (Hlog a)), <-head_reverse. by destruct (reverse (accepted a calls)).
Qed.

(** ** Deposits and authorisation of metadata *)

Section MetadataInvariant.
Context {M AccountId Sys : Type} `{Countable AccountId} `{!Currency Sys AccountId, !CurrencyLaws Sys AccountId} `{!Scale}.
Context (encode_metadata : M → bytes) (encode_account : AccountId → bytes).
Context (key_hash : bytes → bytes) (verify : bytes → bytes → bytes → bool) (genesis_utxo : UtxoId).
Abbreviation Storage := (gmap bytes (M * AccountId * Z)).
Abbreviation step := (metadata_step (Sys:=Sys) encode_metadata encode_account key_hash verify genesis_utxo).

Implicit Types (a o signer : AccountId) (h key signature : bytes) (m new : M) (d now before HoldAmount : Z) (sys : Sys) (s : Storage).

Lemma deposits_insert a h m o d (s : Storage) : s !! h = None →
  deposits a (<[h := (m, o, d)]> s) = (if decide (o = a) then d else 0) + deposits a s.
Proof.
  intros Hs. unfold deposits. rewrite map_fold_insert_L; [by case_decide| |done].
  intros j1 j2 [[m1 o1] d1] [[m2 o2] d2] y _ _ _. repeat case_decide; lia.
Qed.

Lemma deposits_delete a h m o d (s : Storage) : s !! h = Some (m, o, d) →
  deposits a s = (if decide (o = a) then d else 0) + deposits a (delete h s).
Proof.
  intros Hs. rewrite <-(insert_delete_id s h (m, o, d) Hs) at 1.
  apply deposits_insert. apply lookup_delete_eq.
Qed.

Lemma deposits_update a h m m' o d (s : Storage) : s !! h = Some (m, o, d) →
  deposits a (<[h := (m', o, d)]> s) = deposits a s.
Proof.
  intros Hs. rewrite (deposits_delete a h m o d s Hs), <-insert_delete_eq.
  apply deposits_insert. apply lookup_delete_eq.
Qed.

Lemma deposits_nonneg a (s : Storage) :
  (∀ h m o d, s !! h = Some (m, o, d) → 0 ≤ d) → 0 ≤ deposits a s.
Proof.
  induction s as [|h [[m o] d] s Hh IH] using map_ind; intros Hd; [done|].
  rewrite deposits_insert by done. pose proof (Hd h m o d (lookup_insert_eq _ _ _)).
  assert (0 ≤ deposits a s); [|case_decide; lia].
  apply IH. intros h' m' o' d' Hh'. apply (Hd h' m' o' d'). rewrite lookup_insert_ne; [done|congruence].
Qed.

(** The metadata [m] of the key with hash [h] was signed for the account [o]. *)
Definition signed_for (h : bytes) (m : M) (o : AccountId) : Prop :=
  ∃ key signature before, key_hash key = h ∧
    verify signature key (encode_message encode_metadata encode_account
      (mkMetadataMessage key (Some m) genesis_utxo before o)) = true.

Definition metadata_inv (st : Storage * Sys) : Prop :=
  (∀ a, on_hold a st.2 = deposits a st.1) ∧
  ∀ h m o d, st.1 !! h = Some (m, o, d) → 0 ≤ d ∧ signed_for h m o.

Lemma deposit_held st h m o d : metadata_inv st → st.1 !! h = Some (m, o, d) → 0 ≤ d ≤ on_hold o st.2.
Proof.
  intros [Hhold Hst] Hh. destruct (Hst h m o d Hh) as [Hd _]. split; [done|].
  rewrite Hhold, (deposits_delete o h m o d) by done. rewrite decide_True by done.
  assert (0 ≤ deposits o (delete h st.1)); [|lia]. apply deposits_nonneg.
  intros h' m' o' d' [_ Hh']%lookup_delete_Some. by apply (Hst h' m' o' d').
Qed.

(** What the two calls do when they succeed. *)
Lemma upsert_Ok HoldAmount now signer new signature key before (s : Storage) (sys : Sys) s' sys' :
  upsert_metadata encode_metadata encode_account key_hash verify genesis_utxo
    HoldAmount now signer new signature key before s sys = Ok (s', sys') →
  signed_for (key_hash key) new signer ∧
  ((s !! key_hash key = None ∧ hold signer HoldAmount sys = Some sys' ∧
    s' = <[key_hash key := (new, signer, HoldAmount)]> s) ∨
   ∃ m d, s !! key_hash key = Some (m, signer, d) ∧ sys' = sys ∧ s' = <[key_hash key := (new, signer, d)]> s).
Proof.
  unfold upsert_metadata, ensure. intros Hcall.
  destruct (now <=? before); simpl in Hcall; [|done].
  destruct (verify signature key _) eqn:Hsig; simpl in Hcall; [|done].
  split; [by exists key, signature, before|].
  destruct (s !! key_hash key) as [[[m o] d]|] eqn:Hs.
  - right. case_bool_decide; simplify_eq/=. by exists m, d.
  - left. unfold hold_deposit in Hcall. destruct (hold signer HoldAmount sys); simplify_eq/=. done.
Qed.

Lemma delete_Ok now signer key signature before (s : Storage) (sys : Sys) s' sys' :
  delete_metadata encode_metadata encode_account key_hash verify genesis_utxo
    now signer key signature before s sys = Ok (s', sys') →
  (s !! key_hash key = None ∧ s' = s ∧ sys' = sys) ∨
  ∃ m d, s !! key_hash key = Some (m, signer, d) ∧ release signer d sys = Some sys' ∧ s' = delete (key_hash key) s.
Proof.
  unfold delete_metadata, ensure. intros Hcall.
  destruct (now <=? before); simpl in Hcall; [|done]. destruct (verify signature key _); simpl in Hcall; [|done].
  destruct (s !! key_hash key) as [[[m o] d]|] eqn:Hs; [right|left; by injection Hcall as <- <-].
  case_bool_decide; simplify_eq/=. unfold release_deposit in Hcall.
  destruct (release signer d sys) eqn:Hrel; simplify_eq/=. by exists m, d.
Qed.

Lemma metadata_inv_step st st' : metadata_inv st → step st st' → metadata_inv st'.
Proof.
  intros Hinv Hstep. pose proof Hinv as [Hhold Hst]. inversion Hstep as [HoldAmount now signer new signature key before s sys s' sys' Hamount Hcall|
    now signer key signature before s sys s' sys' Hcall|s sys sys' Hsame]; subst; simpl in *.
  - destruct (upsert_Ok _ _ _ _ _ _ _ _ _ _ _ Hcall) as [Hsig [(Hnone & Hh & ->)|(m & d & Hs & -> & ->)]].
    + split; simpl.
      * intros a. rewrite (hold_spec _ _ _ _ _ Hamount Hh), Hhold, deposits_insert by done.
        repeat case_decide; simplify_eq; lia.
      * intros h m o d [[<- [= <- <- <-]]|[_ Hh']]%lookup_insert_Some; [by split|by apply Hst].
    + split; simpl.
      * intros a. by rewrite (deposits_update a _ m), Hhold.
      * intros h m' o d' [[<- [= <- <- <-]]|[_ Hh']]%lookup_insert_Some; [|by apply Hst].
        split; [by apply (Hst _ _ _ _ Hs)|done].
  - destruct (delete_Ok _ _ _ _ _ _ _ _ _ Hcall) as [(_ & -> & ->)|(m & d & Hs & Hrel & ->)]; [done|].
    pose proof (deposit_held (s, sys) _ _ _ _ Hinv Hs) as Hd. simpl in Hd. split; simpl.
    + intros a. rewrite (release_spec _ _ _ _ _ (proj1 Hd) Hrel), Hhold, (deposits_delete a _ _ _ _ s Hs).
      rewrite Z.min_l by lia. repeat case_decide; simplify_eq; lia.
    + intros h m' o d' [_ Hh]%lookup_delete_Some. by apply Hst.
  - split; [|done]. intros a. simpl. by rewrite Hsame.
Qed.

Lemma metadata_inv_reachable sys st : (∀ a, on_hold a sys = 0) → rtc step (∅, sys) st → metadata_inv st.
Proof.
  intros Hzero Hrun. assert (metadata_inv (∅, sys)) as Hinv by (split; [done|by intros ???? Hl; simpl in Hl]).
  remember (∅, sys) as st0 eqn:E. clear E. induction Hrun as [|???? _ IH]; [done|]. by eapply IH, metadata_inv_step.
Qed.

Lemma step_keeps_owner (s : Storage) (sys : Sys) s' sys' h m o d :
  step (s, sys) (s', sys') → s !! h = Some (m, o, d) → s' !! h = None ∨ ∃ m', s' !! h = Some (m', o, d).
Proof.
  intros Hstep Hh. inversion Hstep as [? ? signer ? ? key ? ? ? ? ? _ Hcall|? signer key ? ? ? ? ? ? Hcall|]; subst.
  - destruct (upsert_Ok _ _ _ _ _ _ _ _ _ _ _ Hcall) as [_ [(Hnone & _ & ->)|(m' & d' & Hs & _ & ->)]]; right;
      destruct (decide (key_hash key = h)) as [<-|Hne]; simplify_eq.
    + rewrite lookup_insert_ne by done. by exists m.
    + rewrite lookup_insert_eq. by eexists.
    + rewrite lookup_insert_ne by done. by exists m.
  - destruct (delete_Ok _ _ _ _ _ _ _ _ _ Hcall) as [(_ & -> & _)|(m' & d' & Hs & _ & ->)]; [right; by exists m|].
    destruct (decide (key_hash key = h)) as [<-|Hne]; [left; apply lookup_delete_eq|right].
    rewrite lookup_delete_ne by done. by exists m.
  - right. by exists m.
Qed.
End MetadataInvariant.

(** C25. Metadata are kept for an exact deposit and on the key's authority.  In
    every reachable state the amount on hold for an account is the sum of the
    deposits of the entries it owns, even if the required deposit changed in
    between; every entry was signed, for this chain and its owner, by the key it
    is stored under; a call neither changes the owner of an entry nor its
    deposit; and the owner can always delete an entry with a valid signature and
    gets its whole deposit back. *)
Theorem metadata_deposits {M AccountId Sys : Type} `{Countable AccountId}
    `{!Currency Sys AccountId, !CurrencyLaws Sys AccountId} `{!Scale}
    (encode_metadata : M → bytes) (encode_account : AccountId → bytes)
    (key_hash : bytes → bytes) (verify : bytes → bytes → bytes → bool) (genesis_utxo : UtxoId)
    (sys0 sys : Sys) (s : gmap bytes (M * AccountId * Z)) :
  (∀ a : AccountId, on_hold a sys0 = 0) →
  rtc (metadata_step encode_metadata encode_account key_hash verify genesis_utxo) (∅, sys0) (s, sys) →
  (∀ a, on_hold a sys = deposits a s) ∧
  ∀ key m o d, s !! key_hash key = Some (m, o, d) →
    signed_for encode_metadata encode_account key_hash verify genesis_utxo (key_hash key) m o ∧
    (∀ s' sys', metadata_step encode_metadata encode_account key_hash verify genesis_utxo (s, sys) (s', sys') →
       s' !! key_hash key = None ∨ ∃ m', s' !! key_hash key = Some (m', o, d)) ∧
    ∀ now before signature, now ≤ before →
      verify signature key (encode_message encode_metadata encode_account
        (mkMetadataMessage key None genesis_utxo before o)) = true →
      ∃ sys', delete_metadata encode_metadata encode_account key_hash verify genesis_utxo
          now o key signature before s sys = Ok (delete (key_hash key) s, sys') ∧
        on_hold o sys' = on_hold o sys - d.
Proof.
  intros Hzero Hrun. pose proof (metadata_inv_reachable _ _ _ _ _ _ _ Hzero Hrun) as Hinv.
  split; [apply Hinv|]. intros key m o d Hs. split; [by apply (proj2 Hinv _ _ _ _ Hs)|].
  split; [intros s' sys' Hstep; by eapply step_keeps_owner|]. intros now before signature Hnow Hsig.
  pose proof (deposit_held _ _ _ _ _ _ _ _ _ _ Hinv Hs) as Hd. simpl in Hd.
  destruct (release_succeeds o d sys Hd) as [sys' Hrel]. exists sys'.
  unfold delete_metadata, ensure. rewrite (proj2 (Z.leb_le _ _) Hnow), Hsig, Hs. simpl.
  rewrite bool_decide_true by done. unfold release_deposit. rewrite Hrel. split; [done|].
  rewrite (release_spec _ _ _ _ _ (proj1 Hd) Hrel), decide_True by done. lia.
Qed.

(** ** Associations are permanent *)

Section AssociationHistory.
Context {Address AccountId Sys H : Type} `{EqDecision AccountId}.
Context `{!Currency Sys AccountId, !CurrencyLaws Sys AccountId, !OnNewAssociation Address H}.
Context (encode_address : Address → bytes) (stake_key_hash : bytes → bytes)
  (verify : bytes → bytes → bytes → bool) (genesis_utxo : UtxoId) (BurnAmount : Z).
Implicit Types (s : AssociationState Address Sys H) (calls : list (AccountId * Address * bytes * bytes)).
Abbreviation associate := (associate_address encode_address stake_key_hash verify genesis_utxo BurnAmount).
Abbreviation all := (associate_all encode_address stake_key_hash verify genesis_utxo BurnAmount).

Definition association_signed key address signature : Prop :=
  verify signature key (encode_association encode_address (mkAssociationMessage key address genesis_utxo)) = true.

Lemma associate_Ok (account : AccountId) address signature key s s' :
  associate account address signature key s = Ok s' →
  AddressAssociations s !! stake_key_hash key = None ∧ association_signed key address signature ∧
  AddressAssociations s' = <[stake_key_hash key := address]> (AddressAssociations s) ∧
  total_issuance (assoc_sys s') = total_issuance (assoc_sys s) - BurnAmount ∧
  assoc_handler s' = on_new_association address (stake_key_hash key) (assoc_handler s).
Proof.
  unfold associate_address, ensure. intros Hcall. case_bool_decide as Hnone; [|done].
  destruct (burn_from account BurnAmount (assoc_sys s)) as [sys|] eqn:Hburn; [|done].
  destruct (verify signature key _) eqn:Hsig; [|done]. injection Hcall as <-.
  split_and!; [done..| |done]. by apply (burn_spec account).
Qed.

Lemma associate_all_app calls calls' s : all (calls ++ calls') s = all calls' (all calls s).
Proof. apply foldl_app. Qed.

Lemma associate_all_grows calls s : AddressAssociations s ⊆ AddressAssociations (all calls s).
Proof.
  induction calls as [|[[[account address] signature] key] calls IH] using rev_ind; [done|].
  rewrite associate_all_app. simpl. destruct (associate _ _ _ _ _) as [s'|] eqn:Hcall; [|done].
  apply associate_Ok in Hcall as (Hnone & _ & -> & _). etransitivity; [done|]. by apply insert_subseteq.
Qed.

(** The associations that a sequence of extrinsics made, in order. *)
Lemma associate_all_log calls sys h :
  ∃ log : list (bytes * Address),
    let s := all calls (mkAssociations ∅ sys h) in
    NoDup log.*1 ∧ AddressAssociations s = list_to_map log ∧
    assoc_handler s = foldl (λ h '(k, address), on_new_association address k h) h log ∧
    total_issuance (assoc_sys s) = total_issuance sys - BurnAmount * Z.of_nat (length log) ∧
    ∀ k address, (k, address) ∈ log → ∃ account signature key,
      (account, address, signature, key) ∈ calls ∧ stake_key_hash key = k ∧ association_signed key address signature.
Proof.
  induction calls as [|[[[account address] signature] key] calls IH] using rev_ind.
  { exists []. simpl. split_and!; [constructor|done|done|lia|]. by intros ?? ?%elem_of_nil. }
  rewrite associate_all_app. set (s := all calls _) in *. simpl in *.
  destruct IH as (log & Hnd & Hmap & Hh & Hiss & Hlog).
  destruct (associate _ _ _ _ _) as [s'|] eqn:Hcall.
  2:{ exists log. split_and!; try done. intros k a Hin. destruct (Hlog k a Hin) as (acc & sig & key' & Hc & ?).
      exists acc, sig, key'. split; [|done]. apply elem_of_app. by left. }
  apply associate_Ok in Hcall as (Hnone & Hsig & -> & -> & ->).
  assert (stake_key_hash key ∉ log.*1) as Hnotin.
  { apply not_elem_of_list_to_map_2. by rewrite <-Hmap. }
  exists (log ++ [(stake_key_hash key, address)]). rewrite fmap_app, foldl_app, length_app, Hmap, Hh, Hiss. simpl.
  split_and!; [| |done|lia|].
  - apply NoDup_app. split; [done|]. split; [|apply NoDup_singleton]. intros k Hk Hk'%list_elem_of_singleton. congruence.
  - rewrite list_to_map_snoc; done.
  - intros k a [Hin|Hin]%elem_of_app.
    + destruct (Hlog k a Hin) as (acc & sig & key' & Hc & ?).
      exists acc, sig, key'. split; [|done]. apply elem_of_app. by left.
    + apply list_elem_of_singleton in Hin as [= -> ->]. exists account, signature, key.
      split; [|done]. apply elem_of_app. right. left.
Qed.
End AssociationHistory.

(** Associations of stake keys are permanent and paid for: a sequence of
    extrinsics makes some associations, each once, signed by the stake key for
    the address and this chain; every one burnt the fee and was announced to the
    handler exactly once and in order, extrinsics that fail have no effect, and
    no later extrinsic changes or removes an association. *)
Theorem associations_permanent {Address AccountId Sys H : Type} `{EqDecision AccountId}
    `{!Currency Sys AccountId, !CurrencyLaws Sys AccountId, !OnNewAssociation Address H}
    (encode_address : Address → bytes) stake_key_hash verify genesis_utxo BurnAmount
    (calls : list (AccountId * Address * bytes * bytes)) (sys : Sys) (h : H) :
  let run := associate_all encode_address stake_key_hash verify genesis_utxo BurnAmount in
  let s := run calls (mkAssociations ∅ sys h) in
  (∃ log : list (bytes * Address),
     NoDup log.*1 ∧ AddressAssociations s = list_to_map log ∧
     assoc_handler s = foldl (λ h '(k, address), on_new_association address k h) h log ∧
     total_issuance (assoc_sys s) = total_issuance sys - BurnAmount * Z.of_nat (length log) ∧
     ∀ k address, (k, address) ∈ log → ∃ account signature key,
       (account, address, signature, key) ∈ calls ∧ stake_key_hash key = k ∧
       association_signed encode_address verify genesis_utxo key address signature) ∧
  ∀ later key address,
    get_partner_chain_address_for stake_key_hash key s = Some address →
    get_partner_chain_address_for stake_key_hash key (run later s) = Some address.
Proof.
  intros run s. split; [apply associate_all_log|]. intros later key address Hs.
  eapply lookup_weaken; [exact Hs|apply associate_all_grows].
Qed.

(** ** Witnesses

    A small currency that evaluates. *)

Record Bank := mkBank { held : gmap Z Z; issuance : Z }.
Definition held_by (a : Z) (b : Bank) : Z := default 0 (held b !! a).
#[local] Instance bank_currency : Currency Bank Z := {|
  on_hold := held_by;
  total_issuance := issuance;
  hold a x b := if x <=? 100 then Some (mkBank (<[a := held_by a b + x]> (held b)) (issuance b)) else None;
  release a x b := Some (mkBank (<[a := held_by a b - Z.min x (held_by a b)]> (held b)) (issuance b));
  burn_from a x b := if x <=? issuance b then Some (mkBank (held b) (issuance b - x)) else None;
|}.
#[local] Instance bank_laws : CurrencyLaws Bank Z.
Proof.
  split; simpl; unfold held_by.
  - intros a x s s' b _ Hs. destruct (x <=? 100); [|done]. injection Hs as <-. simpl.
    case_decide as Hb; [subst b; by rewrite lookup_insert_eq|rewrite lookup_insert_ne by done; lia].
  - intros a x s s' b _ Hs. injection Hs as <-. simpl.
    case_decide as Hb; [subst b; by rewrite lookup_insert_eq|rewrite lookup_insert_ne by done; lia].
  - intros a x s _. by eexists.
  - intros a x s s' Hs. destruct (x <=? issuance s); [|done]. by injection Hs as <-.
Qed.
#[local] Instance no_scale : Scale := {|
  compact n := [n]; decode_compact b := None; keys_encode k := []; keys_decode b := None;
|}.

Lemma fees_log_exact_witness :
  get (set_fees 1 [(7, 100, 5); (8, 101, 20000); (7, 102, 6); (7, 103, 7)] ∅) 7 = [(103, 7); (102, 6)].
Proof.
  destruct (fees_log_exact 1 [(7, 100, 5); (8, 101, 20000); (7, 102, 6); (7, 103, 7)] ltac:(lia)) as [Hlog _].
  exact (Hlog 7).
Defined.

(** Account 7 stores metadata 5 under the key [[1]], signed by anyone who knows
    the message. *)
Definition example_utxo : UtxoId := mkUtxoId [0] 0.
Definition example_verify (signature key data : bytes) : bool := bool_decide (signature = key ++ data).
Definition example_message (m : option Z) : MetadataSignedMessage Z Z := mkMetadataMessage [1] m example_utxo 50 7.
Definition example_signature (m : option Z) : bytes :=
  [1] ++ encode_message (λ x, [x]) (λ x, [x]) (example_message m).

Lemma metadata_deposits_witness :
  ∃ sys', delete_metadata (λ x : Z, [x]) (λ x, [x]) id example_verify example_utxo 40 7 [1]
      (example_signature None) 50 {[ [1] := (5, 7, 30) ]} (mkBank {[ 7 := 30 ]} 1000)
    = Ok (delete [1] {[ [1] := (5, 7, 30) ]}, sys') ∧ on_hold 7 sys' = 0.
Proof.
  destruct (metadata_deposits (λ x : Z, [x]) (λ x : Z, [x]) id example_verify example_utxo
    (mkBank ∅ 1000) (mkBank {[ 7 := 30 ]} 1000) {[ [1] := (5, 7, 30) ]}) as [_ Hentry].
  - intros a. reflexivity.
  - apply rtc_once. apply (step_upsert _ _ _ _ _ 30 40 7 5 (example_signature (Some 5)) [1] 50); [lia|].
    vm_compute. reflexivity.
  - destruct (Hentry [1] 5 7 30 (lookup_singleton_eq _ _)) as (_ & _ & Hdelete).
    apply (Hdelete 40 50 (example_signature None)); [lia|vm_compute; reflexivity].
Defined.

#[local] Instance example_handler : OnNewAssociation Z (list Z) := λ address _ h, h ++ [address].

Lemma associations_permanent_witness :
  get_partner_chain_address_for id [1] (associate_all (λ x : Z, [x]) id (λ _ _ _, true) example_utxo 10
    [(7, 99, [], [1])] (associate_all (λ x : Z, [x]) id (λ _ _ _, true) example_utxo 10
    [(8, 42, [], [1])] (mkAssociations ∅ (mkBank ∅ 1000) []))) = Some 42.
Proof.
  apply (associations_permanent (AccountId:=Z) (Sys:=Bank) (H:=list Z) (λ x : Z, [x]) id (λ _ _ _, true)
    example_utxo 10 [(8, 42, [], [1])] (mkBank ∅ 1000) []).
  vm_compute. reflexivity.
Defined.
