(* ===== verification/CandidateSource.v ===== *)
(** * The db-sync source of committee candidates

    Models [toolkit/data-sources/db-sync/src/candidates/mod.rs], its cache
    [candidates/cached.rs], and the queries of
    [toolkit/data-sources/db-sync/src/db_model.rs] they run.  It is the source of
    the inputs of [AuthoritySelection].

    The database is a record of tables.  The inputs of a transaction are listed
    with its outputs, and the consumption of outputs is a table of its own with
    the block and the epoch of the consuming transaction, whichever of the two
    ways db-sync records it.  The order of rows and of the entries of a
    [HashMap] are the parameters [row_order] and [hash_order]. *)

From S2P Require Import Prelude Domain PlutusData CandidateKeys ContractDatums DbSync AuthoritySelection McHash BlockSource.

(** ** The database *)

Record LedgerTxOut := mkLedgerTxOut {
  out_utxo_id : UtxoId;
  out_block_no : Z;
  out_slot_no : Z;
  out_epoch_no : Z;
  out_tx_index : Z;
  out_address : bytes;
  out_assets : list (bytes * bytes);
  out_datum : option Datum;
  out_tx_inputs : list UtxoId;
}.
#[global] Instance LedgerTxOut_eq_dec : EqDecision LedgerTxOut.
Proof. solve_decision. Defined.

Record EpochStake := mkEpochStake { es_epoch : Z; es_pool_hash : bytes; es_amount : Z }.

Record CandidateDb := mkCandidateDb {
  db_blocks : list Block;
  db_outputs : list LedgerTxOut;
  (** output, block number and epoch of its consumption *)
  db_consumed : list (UtxoId * Z * Z);
  db_epoch_stake : list EpochStake;
  db_nonces : list (Z * bytes);
}.

Record MainchainTxOutput := mkMainchainTxOutput {
  mto_utxo_id : UtxoId;
  mto_tx_block_no : Z;
  mto_tx_slot_no : Z;
  mto_tx_epoch_no : Z;
  mto_tx_index_in_block : Z;
  mto_address : bytes;
  mto_datum : option Datum;
  mto_tx_inputs : list UtxoId;
}.

Record StakePoolEntry := mkStakePoolEntry { pool_hash : bytes; stake : Z }.

Inductive CandidateSourceError :=
  | EpochTooSmall (epoch_of_data_usage : Z)
  | StakeOutOfRange
  | NotFound (what : string)
  | Undecodable (e : DataDecodingError).

(** ** Queries *)

Section CandidateQueries.
Context (row_order : ∀ A : Type, list A → list A) (db : CandidateDb).

Definition by_slot_desc (b b' : Block) : Prop := slot_no b' ≤ slot_no b.
#[global] Instance by_slot_desc_dec : RelDecision by_slot_desc.
Proof. intros b b'. unfold by_slot_desc. apply _. Defined.

Definition get_latest_block_for_epoch (epoch : Z) : option Block :=
  head (order_by row_order by_slot_desc (filter (λ b, epoch_no b ≤ epoch) (db_blocks db))).

(** The block joined with the one [security_parameter] blocks below. *)
Definition by_first_number_desc (p p' : Block * Block) : Prop := block_no p'.1 ≤ block_no p.1.
#[global] Instance by_first_number_desc_dec : RelDecision by_first_number_desc.
Proof. intros p p'. unfold by_first_number_desc. apply _. Defined.

Definition get_latest_stable_epoch (security_parameter : Z) : option Z :=
  (λ p, epoch_no p.2 - 1) <$> head (order_by row_order by_first_number_desc
    (filter (λ p, block_no p.1 - security_parameter = block_no p.2)
       (block ← db_blocks db; stable_block ← db_blocks db; [(block, stable_block)]))).

(** SUM grouped by pool; the sum is decoded to a [u64]. *)
Definition get_stake_distribution (epoch : Z) : result CandidateSourceError (list StakePoolEntry) :=
  let rows := filter (λ r, es_epoch r = epoch) (db_epoch_stake db) in
  let pools := remove_dups (es_pool_hash <$> rows) in
  let sums := (λ p, mkStakePoolEntry p (zsum (es_amount <$> filter (λ r, es_pool_hash r = p) rows)))
                <$> row_order _ pools in
  if decide (Forall (λ e, in_u 64 (stake e)) sums) then Ok sums else Err StakeOutOfRange.

Definition by_position_desc (o o' : LedgerTxOut) : Prop :=
  out_block_no o' < out_block_no o ∨
  (out_block_no o' = out_block_no o ∧ out_tx_index o' ≤ out_tx_index o).
#[global] Instance by_position_desc_dec : RelDecision by_position_desc.
Proof. intros o o'. unfold by_position_desc. apply _. Defined.

Definition get_token_utxo_for_epoch (policy : bytes) (epoch : Z) : option LedgerTxOut :=
  let asset := Asset_new policy in
  head (order_by row_order by_position_desc
    (filter (λ o, (asset_policy asset, asset_asset_name asset) ∈ out_assets o ∧ out_epoch_no o ≤ epoch)
       (db_outputs db))).

Definition get_epoch_nonce_query (epoch : Z) : option bytes :=
  snd <$> head (row_order _ (filter (λ r, r.1 = epoch) (db_nonces db))).

(** Not consumed, or consumed above the block. *)
Definition unspent_at (o : LedgerTxOut) (block : Z) : Prop :=
  Forall (λ c, c.1.1 = out_utxo_id o → block < c.1.2) (db_consumed db).
#[global] Instance unspent_at_dec o block : Decision (unspent_at o block).
Proof. unfold unspent_at. apply _. Defined.

Definition output_row (o : LedgerTxOut) : MainchainTxOutput :=
  mkMainchainTxOutput (out_utxo_id o) (out_block_no o) (out_slot_no o) (out_epoch_no o) (out_tx_index o)
    (out_address o) (out_datum o) (out_tx_inputs o).

Definition get_utxos_for_address_tx_in_enabled (address : bytes) (block : Z) : list MainchainTxOutput :=
  row_order _ (output_row <$>
    filter (λ o, out_address o = address ∧ out_block_no o ≤ block ∧ unspent_at o block) (db_outputs db)).
Definition get_utxos_for_address_tx_in_consumed (address : bytes) (block : Z) : list MainchainTxOutput :=
  row_order _ (output_row <$>
    filter (λ o, out_address o = address ∧ out_block_no o ≤ block ∧ unspent_at o block) (db_outputs db)).
Definition get_utxos_for_address (address : bytes) (block : Z) (tx_in_configuration : TxInConfiguration) :
    list MainchainTxOutput :=
  match tx_in_configuration with
  | TxInEnabled => get_utxos_for_address_tx_in_enabled address block
  | TxInConsumed => get_utxos_for_address_tx_in_consumed address block
  end.
End CandidateQueries.

(** ** Converters *)

Record ParsedCandidate := mkParsedCandidate {
  parsed_utxo_info : UtxoInfo;
  parsed_datum : RegisterValidatorDatum;
  parsed_tx_inputs : list UtxoId;
}.

(** [RegisteredCandidate] of the source: the pool and its registration. *)
Record RegisteredCandidate := mkRegisteredCandidate {
  rc_stake_pool_pub_key : bytes;
  rc_registration_utxo : UtxoId;
  rc_tx_inputs : list UtxoId;
  rc_sidechain_signature : bytes;
  rc_mainchain_signature : bytes;
  rc_cross_chain_signature : bytes;
  rc_sidechain_pub_key : bytes;
  rc_cross_chain_pub_key : bytes;
  rc_keys : CandidateKeys;
  rc_utxo_info : UtxoInfo;
}.

Definition make_registration_data (c : RegisteredCandidate) : RegistrationData :=
  mkRegistrationData (rc_registration_utxo c) (rc_sidechain_signature c) (rc_mainchain_signature c)
    (rc_cross_chain_signature c) (rc_sidechain_pub_key c) (rc_cross_chain_pub_key c) (rc_utxo_info c)
    (rc_tx_inputs c) (rc_keys c).

Definition parse_candidate (output : MainchainTxOutput) : option ParsedCandidate :=
  datum ← mto_datum output;
  register_validator_datum ← ok (decode_with_legacy (T:=RegisterValidatorDatum) datum);
  Some (mkParsedCandidate
          (mkUtxoInfo (mto_utxo_id output) (mto_tx_epoch_no output) (mto_tx_block_no output)
             (mto_tx_slot_no output) (mto_tx_index_in_block output))
          register_validator_datum (mto_tx_inputs output)).
Definition parse_candidates (outputs : list MainchainTxOutput) : list ParsedCandidate :=
  filter_map parse_candidate outputs.

Definition to_registered_candidate (c : ParsedCandidate) : RegisteredCandidate :=
  match parsed_datum c with
  | RegisterV0 stake_ownership sidechain_pub_key sidechain_signature registration_utxo _ aura grandpa =>
      mkRegisteredCandidate (ada_pub_key stake_ownership) registration_utxo (parsed_tx_inputs c)
        sidechain_signature (ada_signature stake_ownership) sidechain_signature sidechain_pub_key
        sidechain_pub_key [aura_key aura; grandpa_key grandpa] (parsed_utxo_info c)
  | RegisterV1 stake_ownership sidechain_pub_key sidechain_signature registration_utxo _ keys =>
      mkRegisteredCandidate (ada_pub_key stake_ownership) registration_utxo (parsed_tx_inputs c)
        sidechain_signature (ada_signature stake_ownership) sidechain_signature sidechain_pub_key
        sidechain_pub_key keys (parsed_utxo_info c)
  end.
Definition convert_utxos_to_candidates (outputs : list MainchainTxOutput) : list RegisteredCandidate :=
  to_registered_candidate <$> parse_candidates outputs.

Definition make_stake_map (stake_pool_entries : list StakePoolEntry) : gmap bytes Z :=
  foldl (λ m e, <[pool_hash e := stake e]> m) ∅ stake_pool_entries.

Definition get_stake_delegation (from_vkey : bytes → bytes) (stake_map : gmap bytes Z)
    (stake_pool_pub_key : bytes) : option Z :=
  if decide (stake_map = ∅) then None else Some (default 0 (stake_map !! from_vkey stake_pool_pub_key)).

(** [into_group_map_by], with the entries in the order of the [HashMap]. *)
Definition group_candidates_by_mc_pub_key (hash_order : ∀ A : Type, list A → list A)
    (candidates : list RegisteredCandidate) : list (bytes * list RegisteredCandidate) :=
  (λ key, (key, filter (λ c, rc_stake_pool_pub_key c = key) candidates))
    <$> hash_order _ (remove_dups (rc_stake_pool_pub_key <$> candidates)).

(** ** The data source *)

Definition get_epoch_of_data_storage (epoch_of_data_usage : Z) : result CandidateSourceError Z :=
  map_err (λ _, EpochTooSmall epoch_of_data_usage) (offset_data_epoch epoch_of_data_usage).

Section CandidatesSource.
Context (row_order hash_order : ∀ A : Type, list A → list A) (from_vkey : bytes → bytes)
  (tx_in_configuration : TxInConfiguration) (db : CandidateDb).

Definition get_last_block_for_epoch (epoch : Z) : option Z :=
  block_no <$> get_latest_block_for_epoch row_order db epoch.

Definition get_registered_candidates (epoch : Z) (committee_candidate_address : bytes) :
    list RegisteredCandidate :=
  let active_utxos :=
    match get_last_block_for_epoch epoch with
    | Some block => get_utxos_for_address row_order db committee_candidate_address block tx_in_configuration
    | None => []
    end in
  convert_utxos_to_candidates active_utxos.

Definition source_ariadne_parameters (epoch : Z) (d_parameter_policy permissioned_candidate_policy : bytes) :
    result CandidateSourceError AriadneParameters :=
  epoch ← get_epoch_of_data_storage epoch;
  let candidates_output_opt := get_token_utxo_for_epoch row_order db permissioned_candidate_policy epoch in
  let d_output_opt := get_token_utxo_for_epoch row_order db d_parameter_policy epoch in
  d_output ← ok_or d_output_opt (NotFound "DParameter");
  d_datum ← ok_or (out_datum d_output) (NotFound "DParameter Datum");
  d_parameter ← map_err Undecodable (d_param_from_datum <$> decode_with_legacy (T:=DParamDatum) d_datum);
  permissioned_candidates ←
    match candidates_output_opt with
    | None => Ok None
    | Some candidates_output =>
        candidates_datum ← ok_or (out_datum candidates_output) (NotFound "Permissioned Candidates List Datum");
        candidates ← map_err Undecodable
          (permissioned_from_datums <$> decode_with_legacy (T:=PermissionedCandidateDatums) candidates_datum);
        Ok (Some candidates)
    end;
  Ok (mkAriadneParameters d_parameter permissioned_candidates).

Definition source_candidates (epoch : Z) (committee_candidate_address : bytes) :
    result CandidateSourceError (list CandidateRegistrations) :=
  epoch ← get_epoch_of_data_storage epoch;
  let candidates := get_registered_candidates epoch committee_candidate_address in
  distribution ← get_stake_distribution row_order db epoch;
  let stake_map := make_stake_map distribution in
  Ok ((λ '(mainchain_pub_key, candidate_registrations),
         mkCandidateRegistrations mainchain_pub_key (make_registration_data <$> candidate_registrations)
           (get_stake_delegation from_vkey stake_map mainchain_pub_key))
        <$> group_candidates_by_mc_pub_key hash_order candidates).

Definition source_epoch_nonce (epoch : Z) : result CandidateSourceError (option bytes) :=
  epoch ← get_epoch_of_data_storage epoch;
  Ok (get_epoch_nonce_query row_order db epoch).

Definition candidates_data_source : AuthoritySelectionDataSource CandidateSourceError :=
  mkDataSource source_ariadne_parameters source_candidates source_epoch_nonce
    get_epoch_of_data_storage.
End CandidatesSource.

(** ** The cached data source *)

Section Cached.
Context {C1 C2 : Type} `{!Lru C1 (Z * bytes * bytes) AriadneParameters}
  `{!Lru C2 (Z * bytes) (list CandidateRegistrations)}.

Record CandidateCache := mkCandidateCache {
  ariadne_parameters_cache : C1;
  candidates_cache : C2;
  highest_seen_stable_epoch : option Z;
}.

Context (row_order hash_order : ∀ A : Type, list A → list A) (from_vkey : bytes → bytes)
  (tx_in_configuration : TxInConfiguration) (security_parameter : Z) (db : CandidateDb).

Definition can_use_caching_for_request (request_epoch : Z) (c : CandidateCache) :
    CandidateCache * result CandidateSourceError bool :=
  match get_epoch_of_data_storage request_epoch with
  | Err e => (c, Err e)
  | Ok data_epoch =>
      if match highest_seen_stable_epoch c with Some stable_epoch => data_epoch <=? stable_epoch | None => false end
      then (c, Ok true)
      else
        match get_latest_stable_epoch row_order db security_parameter with
        | Some stable_epoch =>
            (mkCandidateCache (ariadne_parameters_cache c) (candidates_cache c) (Some stable_epoch),
             Ok (data_epoch <=? stable_epoch))
        | None => (c, Ok false)
        end
  end.

Definition get_candidates_with_caching (epoch : Z) (committee_candidate_address : bytes) (c : CandidateCache) :
    CandidateCache * result CandidateSourceError (list CandidateRegistrations) :=
  let key := (epoch, committee_candidate_address) in
  let '(resp, lru) := lru_get key (candidates_cache c) in
  let c := mkCandidateCache (ariadne_parameters_cache c) lru (highest_seen_stable_epoch c) in
  match resp with
  | Some resp => (c, Ok resp)
  | None =>
      match source_candidates row_order hash_order from_vkey tx_in_configuration db epoch committee_candidate_address with
      | Err e => (c, Err e)
      | Ok response =>
          (mkCandidateCache (ariadne_parameters_cache c) (lru_put key response (candidates_cache c))
             (highest_seen_stable_epoch c), Ok response)
      end
  end.

Definition get_ariadne_parameters_with_caching (epoch : Z)
    (d_parameter_validator permissioned_candidates_validator : bytes) (c : CandidateCache) :
    CandidateCache * result CandidateSourceError AriadneParameters :=
  let key := (epoch, d_parameter_validator, permissioned_candidates_validator) in
  let '(resp, lru) := lru_get key (ariadne_parameters_cache c) in
  let c := mkCandidateCache lru (candidates_cache c) (highest_seen_stable_epoch c) in
  match resp with
  | Some resp => (c, Ok resp)
  | None =>
      match source_ariadne_parameters row_order db epoch d_parameter_validator permissioned_candidates_validator with
      | Err e => (c, Err e)
      | Ok response =>
          (mkCandidateCache (lru_put key response (ariadne_parameters_cache c)) (candidates_cache c)
             (highest_seen_stable_epoch c), Ok response)
      end
  end.

Definition cached_candidates (epoch : Z) (committee_candidate_address : bytes) (c : CandidateCache) :
    CandidateCache * result CandidateSourceError (list CandidateRegistrations) :=
  match can_use_caching_for_request epoch c with
  | (c, Err e) => (c, Err e)
  | (c, Ok true) => get_candidates_with_caching epoch committee_candidate_address c
  | (c, Ok false) =>
      (c, source_candidates row_order hash_order from_vkey tx_in_configuration db epoch committee_candidate_address)
  end.

Definition cached_ariadne_parameters (epoch : Z) (d_parameter_policy permissioned_candidates_policy : bytes)
    (c : CandidateCache) : CandidateCache * result CandidateSourceError AriadneParameters :=
  match can_use_caching_for_request epoch c with
  | (c, Err e) => (c, Err e)
  | (c, Ok true) => get_ariadne_parameters_with_caching epoch d_parameter_policy permissioned_candidates_policy c
  | (c, Ok false) =>
      (c, source_ariadne_parameters row_order db epoch d_parameter_policy permissioned_candidates_policy)
  end.
End Cached.
Arguments mkCandidateCache {C1 C2} _ _ _.
Arguments ariadne_parameters_cache {C1 C2} _.
Arguments candidates_cache {C1 C2} _.
Arguments highest_seen_stable_epoch {C1 C2} _.
Arguments CandidateCache : clear implicits.

(** ** What the source answers

    The outputs at an address that were created up to an epoch and not consumed up
    to that epoch. *)
Definition active_in (db : CandidateDb) (e : Z) (address : bytes) (o : LedgerTxOut) : Prop :=
  out_address o = address ∧ out_epoch_no o ≤ e ∧
  Forall (λ c, c.1.1 = out_utxo_id o → e < c.2) (db_consumed db).
#[global] Instance active_in_dec db e address o : Decision (active_in db e address o).
Proof. unfold active_in. apply _. Defined.

Definition registration_of (o : LedgerTxOut) : option RegisteredCandidate :=
  to_registered_candidate <$> parse_candidate (output_row o).

(** The registrations that are active in an epoch. *)
Definition active_registrations (db : CandidateDb) (e : Z) (address : bytes) : list RegisteredCandidate :=
  filter_map registration_of (filter (active_in db e address) (db_outputs db)).

(** The stake of a pool in an epoch: unknown if nothing is recorded for the epoch. *)
Definition stake_rows (db : CandidateDb) (e : Z) : list EpochStake :=
  filter (λ r, es_epoch r = e) (db_epoch_stake db).
Definition pool_stake (rows : list EpochStake) (p : bytes) : Z :=
  zsum (es_amount <$> filter (λ r, es_pool_hash r = p) rows).
Definition known_stake (db : CandidateDb) (e : Z) (p : bytes) : option Z :=
  if is_empty (stake_rows db e) then None else Some (pool_stake (stake_rows db e) p).

(** One entry for every pool with an active registration, with all of them and
    the stake of the pool. *)
Definition candidates_exact (from_vkey : bytes → bytes) (db : CandidateDb) (e : Z) (address : bytes)
    (l : list CandidateRegistrations) : Prop :=
  NoDup (stake_pool_public_key <$> l) ∧
  (∀ key, key ∈ stake_pool_public_key <$> l ↔
     key ∈ rc_stake_pool_pub_key <$> active_registrations db e address) ∧
  ∀ c, c ∈ l →
    registrations c ≡ₚ make_registration_data <$>
      filter (λ r, rc_stake_pool_pub_key r = stake_pool_public_key c) (active_registrations db e address) ∧
    stake_delegation c = known_stake db e (from_vkey (stake_pool_public_key c)).

(** Blocks are numbered in the order of their slots and epochs, and outputs are
    created and consumed in blocks. *)
Record candidate_db_wf (db : CandidateDb) : Prop := {
  cdb_outputs : NoDup (db_outputs db);
  cdb_number b b' : b ∈ db_blocks db → b' ∈ db_blocks db → slot_no b ≤ slot_no b' → block_no b ≤ block_no b';
  cdb_epoch b b' : b ∈ db_blocks db → b' ∈ db_blocks db → block_no b ≤ block_no b' → epoch_no b ≤ epoch_no b';
  cdb_created o : o ∈ db_outputs db →
    ∃ b, b ∈ db_blocks db ∧ block_no b = out_block_no o ∧ epoch_no b = out_epoch_no o;
  cdb_consumed c : c ∈ db_consumed db → ∃ b, b ∈ db_blocks db ∧ block_no b = c.1.2 ∧ epoch_no b = c.2;
  cdb_stake e p : in_u 64 (pool_stake (stake_rows db e) p);
}.

#[global] Instance by_slot_desc_trans : Transitive by_slot_desc.
Proof. intros ???. unfold by_slot_desc. lia. Qed.
#[global] Instance by_slot_desc_total : Total by_slot_desc.
Proof. intros ??. unfold by_slot_desc. lia. Qed.

#[global] Instance by_position_desc_trans : Transitive by_position_desc.
Proof. intros ???. unfold by_position_desc. lia. Qed.
#[global] Instance by_position_desc_total : Total by_position_desc.
Proof. intros ??. unfold by_position_desc. lia. Qed.

Section Exact.
Context (row_order hash_order : ∀ A : Type, list A → list A) (from_vkey : bytes → bytes)
  (tx_in_configuration : TxInConfiguration).
Context (Hrows : ∀ A (l : list A), row_order A l ≡ₚ l) (Hhash : ∀ A (l : list A), hash_order A l ≡ₚ l).

(** The last block of an epoch separates the epochs. *)
Lemma last_block_spec db e :
  candidate_db_wf db →
  match get_last_block_for_epoch row_order db e with
  | Some n => ∀ b, b ∈ db_blocks db → block_no b ≤ n ↔ epoch_no b ≤ e
  | None => ∀ b, b ∈ db_blocks db → e < epoch_no b
  end.
Proof.
  intros Hwf. unfold get_last_block_for_epoch, get_latest_block_for_epoch.
  pose proof (head_order_by row_order by_slot_desc (filter (λ b, epoch_no b ≤ e) (db_blocks db)) Hrows) as Hh.
  destruct (head _) as [lb|]; simpl.
  - destruct Hh as [[Hle Hlb]%list_elem_of_filter Hmax]. intros b Hb. split.
    + intros Hn. pose proof (cdb_epoch db Hwf b lb Hb Hlb Hn). lia.
    + intros He. apply (cdb_number db Hwf); [done..|]. apply Hmax. by apply list_elem_of_filter.
  - intros b Hb. destruct (Z.lt_ge_cases e (epoch_no b)) as [?|Hge]; [done|].
    assert (b ∈ filter (λ b, epoch_no b ≤ e) (db_blocks db)) as Hin by (by apply list_elem_of_filter).
    rewrite Hh in Hin. by apply not_elem_of_nil in Hin.
Qed.

Lemma registered_candidates_spec db e address :
  candidate_db_wf db →
  get_registered_candidates row_order tx_in_configuration db e address ≡ₚ active_registrations db e address.
Proof.
  intros Hwf. pose proof (last_block_spec db e Hwf) as Hlast. unfold get_registered_candidates.
  destruct (get_last_block_for_epoch row_order db e) as [n|].
  - assert (get_utxos_for_address row_order db address n tx_in_configuration
      = row_order _ (output_row <$> filter (λ o, out_address o = address ∧ out_block_no o ≤ n ∧ unspent_at db o n) (db_outputs db)))
      as -> by (by destruct tx_in_configuration).
    unfold convert_utxos_to_candidates, parse_candidates, active_registrations.
    rewrite Hrows, filter_map_fmap, fmap_filter_map.
    rewrite (list_filter_iff_elem _ (active_in db e address)); [done|].
    intros o Ho. destruct (cdb_created db Hwf o Ho) as (b & Hb & Hbn & Hbe).
    unfold active_in, unspent_at. rewrite <-Hbn, <-Hbe, (Hlast b Hb), !Forall_forall.
    split; (intros (? & ? & Hc); split_and!; [done..|]; intros c Hin Heq; specialize (Hc c Hin Heq);
      destruct (cdb_consumed db Hwf c Hin) as (b' & Hb' & Hn & He); specialize (Hlast b' Hb'); lia).
  - unfold active_registrations. rewrite filter_none; [done|]. apply Forall_forall.
    intros o Ho (_ & He & _). destruct (cdb_created db Hwf o Ho) as (b & Hb & _ & Heq).
    specialize (Hlast b Hb). lia.
Qed.

(** The stake map holds the sum of every pool with stake. *)
Lemma make_stake_map_lookup entries p :
  NoDup (pool_hash <$> entries) →
  make_stake_map entries !! p = stake <$> head (filter (λ e, pool_hash e = p) entries).
Proof.
  unfold make_stake_map. induction entries as [|e entries IH] using rev_ind; [done|].
  rewrite fmap_app, NoDup_app, foldl_app, filter_app. intros (Hnd & Hdisj & _). simpl.
  destruct (decide (pool_hash e = p)) as [<-|Hne].
  - rewrite lookup_insert_eq, (filter_none (λ e', pool_hash e' = pool_hash e) entries).
    { simpl. by rewrite filter_cons_True. }
    apply Forall_forall. intros e' He' Heq. apply (Hdisj (pool_hash e')); [by apply list_elem_of_fmap_2|].
    rewrite Heq. apply list_elem_of_singleton. done.
  - rewrite lookup_insert_ne, filter_cons_False, filter_nil, app_nil_r by done. by apply IH.
Qed.

Lemma stake_distribution_spec db e :
  candidate_db_wf db →
  ∃ entries, get_stake_distribution row_order db e = Ok entries ∧
    ∀ p, get_stake_delegation from_vkey (make_stake_map entries) p = known_stake db e (from_vkey p).
Proof.
  intros Hwf. unfold get_stake_distribution. fold (stake_rows db e). set (rows := stake_rows db e).
  set (entries := (λ p, mkStakePoolEntry p _) <$> _). change (λ p, mkStakePoolEntry p _) with
    (λ p, mkStakePoolEntry p (pool_stake rows p)) in entries.
  assert (pool_hash <$> entries = row_order _ (remove_dups (es_pool_hash <$> rows))) as Hkeys.
  { unfold entries. rewrite <-list_fmap_compose. apply list_fmap_id. }
  assert (∀ p, p ∈ pool_hash <$> entries ↔ p ∈ es_pool_hash <$> rows) as Hin.
  { intros p. by rewrite Hkeys, Hrows, elem_of_remove_dups. }
  exists entries. rewrite decide_True.
  2:{ apply Forall_fmap, Forall_forall. intros p _. apply (cdb_stake db Hwf). }
  split; [done|]. intros p. unfold get_stake_delegation, known_stake. fold rows.
  assert (∀ q, make_stake_map entries !! q = if decide (q ∈ es_pool_hash <$> rows) then Some (pool_stake rows q) else None)
    as Hlook.
  { intros q. rewrite make_stake_map_lookup by (rewrite Hkeys, Hrows; apply NoDup_remove_dups).
    destruct (filter (λ e, pool_hash e = q) entries) as [|x l] eqn:Hf; simpl.
    - rewrite decide_False; [done|]. intros (y & -> & Hy)%Hin%list_elem_of_fmap.
      by apply (filter_nil_not_elem_of _ _ y) in Hf.
    - assert (x ∈ filter (λ e, pool_hash e = q) entries) as [Hq Hx]%list_elem_of_filter by (rewrite Hf; left).
      rewrite decide_True by (apply Hin; rewrite <-Hq; by apply list_elem_of_fmap_2).
      apply list_elem_of_fmap in Hx as (q' & -> & _). by simpl in Hq; subst q'. }
  assert (∀ q, default 0 (make_stake_map entries !! q) = pool_stake rows q) as Hdefault.
  { intros q. rewrite Hlook. case_decide as Hq; [done|]. unfold pool_stake. rewrite filter_none; [done|].
    apply Forall_forall. intros r Hr Heq. apply Hq. rewrite <-Heq. by apply list_elem_of_fmap_2. }
  rewrite Hdefault. destruct rows as [|r rows'] eqn:Hrows'; simpl.
  - rewrite decide_True; [done|]. apply map_empty. intros q. rewrite Hlook. rewrite decide_False; [done|].
    apply not_elem_of_nil.
  - rewrite decide_False; [done|]. intros Hempty. specialize (Hlook (es_pool_hash r)).
    rewrite Hempty, lookup_empty, decide_True in Hlook by left. done.
Qed.

Lemma source_candidates_spec db epoch e address :
  candidate_db_wf db → get_epoch_of_data_storage epoch = Ok e →
  ∃ l, source_candidates row_order hash_order from_vkey tx_in_configuration db epoch address = Ok l ∧
    candidates_exact from_vkey db e address l.
Proof.
  intros Hwf He. destruct (stake_distribution_spec db e Hwf) as (entries & Hdist & Hstake).
  pose proof (registered_candidates_spec db e address Hwf) as Hcs.
  unfold source_candidates. rewrite He. simpl. rewrite Hdist. simpl. eexists. split; [done|].
  set (cs := get_registered_candidates _ _ _ _ _) in *. unfold group_candidates_by_mc_pub_key.
  rewrite <-list_fmap_compose. unfold compose. unfold candidates_exact.
  rewrite <-list_fmap_compose. unfold compose. simpl. rewrite list_fmap_id.
  split_and!.
  - rewrite Hhash. apply NoDup_remove_dups.
  - intros key. by rewrite Hhash, elem_of_remove_dups, Hcs.
  - intros c (key & -> & _)%list_elem_of_fmap. simpl. split; [by rewrite Hcs|apply Hstake].
Qed.

(** ** Settled epochs

    The data of epochs up to [settled] do not change any more. *)
Record agree_up_to (settled : Z) (db db' : CandidateDb) : Prop := {
  agree_outputs o : out_epoch_no o ≤ settled → o ∈ db_outputs db ↔ o ∈ db_outputs db';
  agree_consumed c : c.2 ≤ settled → c ∈ db_consumed db ↔ c ∈ db_consumed db';
  agree_stake e : e ≤ settled → stake_rows db e ≡ₚ stake_rows db' e;
}.

Lemma active_registrations_agree settled db db' e address :
  candidate_db_wf db → candidate_db_wf db' → agree_up_to settled db db' → e ≤ settled →
  active_registrations db e address ≡ₚ active_registrations db' e address.
Proof.
  intros Hwf Hwf' Hag He. unfold active_registrations. apply filter_map_Permutation, NoDup_Permutation.
  - apply NoDup_filter, Hwf.
  - apply NoDup_filter, Hwf'.
  - intros o. rewrite !list_elem_of_filter. unfold active_in. rewrite !Forall_forall.
    split; intros ((Ha & Hle & Hc) & Ho).
    + split; [|apply (agree_outputs _ _ _ Hag); [lia|done]]. split_and!; [done..|].
      intros c Hin Heq. destruct (Z.lt_ge_cases e c.2) as [?|Hge]; [done|].
      apply Hc; [|done]. apply (agree_consumed _ _ _ Hag); [lia|done].
    + split; [|apply (agree_outputs _ _ _ Hag); [lia|done]]. split_and!; [done..|].
      intros c Hin Heq. destruct (Z.lt_ge_cases e c.2) as [?|Hge]; [done|].
      apply Hc; [|done]. apply (agree_consumed _ _ _ Hag); [lia|done].
Qed.

Lemma known_stake_agree settled db db' e p :
  agree_up_to settled db db' → e ≤ settled → known_stake db e p = known_stake db' e p.
Proof.
  intros Hag He. pose proof (agree_stake _ _ _ Hag e He) as Hp. unfold known_stake, pool_stake. by rewrite !Hp.
Qed.

Lemma candidates_exact_agree settled db db' e address l :
  candidate_db_wf db → candidate_db_wf db' → agree_up_to settled db db' → e ≤ settled →
  candidates_exact from_vkey db e address l → candidates_exact from_vkey db' e address l.
Proof.
  intros Hwf Hwf' Hag He (Hnd & Hkeys & Hl).
  pose proof (active_registrations_agree settled db db' e address Hwf Hwf' Hag He) as Hact.
  split_and!; [done| |].
  - intros key. by rewrite Hkeys, Hact.
  - intros c Hc. destruct (Hl c Hc) as [Hregs Hst]. rewrite Hregs, Hst. split; [by rewrite Hact|].
    by apply (known_stake_agree settled).
Qed.

(** A transaction moves the token of a policy to one output. *)
Definition single_output (db : CandidateDb) (policy : bytes) : Prop :=
  ∀ o o', o ∈ db_outputs db → o' ∈ db_outputs db → (policy, []) ∈ out_assets o → (policy, []) ∈ out_assets o' →
    out_block_no o = out_block_no o' → out_tx_index o = out_tx_index o' → o = o'.

Lemma token_utxo_agree settled db db' policy e :
  single_output db' policy → agree_up_to settled db db' → e ≤ settled →
  get_token_utxo_for_epoch row_order db policy e = get_token_utxo_for_epoch row_order db' policy e.
Proof.
  intros Hu' Hag He. unfold get_token_utxo_for_epoch. cbn [Asset_new asset_policy asset_asset_name].
  match goal with |- head (order_by _ _ ?r) = head (order_by _ _ ?r') =>
    pose proof (head_order_by row_order by_position_desc r Hrows) as Hh;
    pose proof (head_order_by row_order by_position_desc r' Hrows) as Hh';
    assert (∀ o, o ∈ r ↔ o ∈ r') as Hin
  end.
  { intros o. rewrite !list_elem_of_filter. split; intros ((Ha & Hle) & Ho); (split; [done|]);
      apply (agree_outputs _ _ _ Hag); [lia|done|lia|done]. }
  destruct (head (order_by row_order by_position_desc (filter _ (db_outputs db)))) as [o|],
    (head (order_by row_order by_position_desc (filter _ (db_outputs db')))) as [o'|].
  - destruct Hh as [Ho Hmax], Hh' as [Ho' Hmax']. f_equal.
    pose proof (Hmax o' (proj2 (Hin o') Ho')) as Hle. pose proof (Hmax' o (proj1 (Hin o) Ho)) as Hle'.
    apply Hin in Ho. apply list_elem_of_filter in Ho as [[Ha _] Ho]. apply list_elem_of_filter in Ho' as [[Ha' _] Ho'].
    unfold by_position_desc in *. apply Hu'; try done; lia.
  - destruct Hh as [Ho _]. apply Hin in Ho. rewrite Hh' in Ho. by apply not_elem_of_nil in Ho.
  - destruct Hh' as [Ho _]. apply Hin in Ho. rewrite Hh in Ho. by apply not_elem_of_nil in Ho.
  - done.
Qed.

Lemma ariadne_parameters_agree settled db db' epoch e d p :
  single_output db' d → single_output db' p → agree_up_to settled db db' →
  get_epoch_of_data_storage epoch = Ok e → e ≤ settled →
  source_ariadne_parameters row_order db epoch d p = source_ariadne_parameters row_order db' epoch d p.
Proof.
  intros Hd Hp Hag Hoff He. unfold source_ariadne_parameters. rewrite Hoff. simpl.
  by rewrite !(token_utxo_agree settled db db').
Qed.

(** ** Transparency of the cache *)

Context {C1 C2 : Type} `{!Lru C1 (Z * bytes * bytes) AriadneParameters, !LruLaws C1 (Z * bytes * bytes) AriadneParameters}
  `{!Lru C2 (Z * bytes) (list CandidateRegistrations), !LruLaws C2 (Z * bytes) (list CandidateRegistrations)}.
Context (security_parameter : Z).
Implicit Types c : CandidateCache C1 C2.

(** Cached answers are of settled epochs, and right. *)
Record candidate_cache_inv (settled : Z) (db : CandidateDb) (c : CandidateCache C1 C2) : Prop := {
  inv_seen s : highest_seen_stable_epoch c = Some s → s ≤ settled;
  inv_candidates epoch address l : lru_peek (epoch, address) (candidates_cache c) = Some l →
    ∃ e, get_epoch_of_data_storage epoch = Ok e ∧ e ≤ settled ∧ candidates_exact from_vkey db e address l;
  inv_parameters epoch d p v : lru_peek (epoch, d, p) (ariadne_parameters_cache c) = Some v →
    single_output db d ∧ single_output db p ∧
    ∃ e, get_epoch_of_data_storage epoch = Ok e ∧ e ≤ settled ∧
      source_ariadne_parameters row_order db epoch d p = Ok v;
}.

(** The database moves on: what is settled stays, and tokens that were kept in
    one output stay so. *)
Record db_moves_on (settled settled' : Z) (db db' : CandidateDb) : Prop := {
  moves_wf : candidate_db_wf db;
  moves_wf' : candidate_db_wf db';
  moves_agree : agree_up_to settled db db';
  moves_settled : settled ≤ settled';
  moves_single policy : single_output db policy → single_output db' policy;
  moves_stable s : get_latest_stable_epoch row_order db' security_parameter = Some s → s ≤ settled';
}.

Lemma candidate_cache_inv_moves settled settled' db db' c :
  db_moves_on settled settled' db db' → candidate_cache_inv settled db c → candidate_cache_inv settled' db' c.
Proof.
  intros [Hwf Hwf' Hag Hle Hsingle _] [Hseen Hcand Hpar]. split.
  - intros s Hs. specialize (Hseen s Hs). lia.
  - intros epoch address l Hl. destruct (Hcand _ _ _ Hl) as (e & He & Hes & Hex). exists e. split_and!; [done|lia|].
    by apply (candidates_exact_agree settled db db').
  - intros epoch d p v Hv. destruct (Hpar _ _ _ _ Hv) as (Hd & Hp & e & He & Hes & Heq).
    split_and!; [by apply Hsingle..|]. exists e. split_and!; [done|lia|].
    by rewrite <-(ariadne_parameters_agree settled db db' epoch e) by auto.
Qed.

Lemma can_use_caching_spec settled db epoch e c :
  candidate_cache_inv settled db c → get_epoch_of_data_storage epoch = Ok e →
  (∀ s, get_latest_stable_epoch row_order db security_parameter = Some s → s ≤ settled) →
  ∃ c' b, can_use_caching_for_request row_order security_parameter db epoch c = (c', Ok b) ∧
    candidate_cache_inv settled db c' ∧ (b = true → e ≤ settled).
Proof.
  intros Hinv He Hst. unfold can_use_caching_for_request. rewrite He.
  destruct (highest_seen_stable_epoch c) as [s|] eqn:Hs; [destruct (Z.leb_spec e s) as [Hle|_]|].
  - exists c, true. split_and!; [done..|]. intros _. pose proof (inv_seen _ _ _ Hinv s Hs). lia.
  - destruct (get_latest_stable_epoch row_order db security_parameter) as [s'|];
      [|exists c, false; by split_and!]. eexists _, _. split; [done|]. destruct Hinv as [_ Hc Hp].
    specialize (Hst s' eq_refl). split; [split; [by intros ? [= <-]|done..]|]. intros Hle%Z.leb_le. lia.
  - destruct (get_latest_stable_epoch row_order db security_parameter) as [s'|];
      [|exists c, false; by split_and!]. eexists _, _. split; [done|]. destruct Hinv as [_ Hc Hp].
    specialize (Hst s' eq_refl). split; [split; [by intros ? [= <-]|done..]|]. intros Hle%Z.leb_le. lia.
Qed.

Lemma candidates_with_caching_spec settled db epoch e address c :
  candidate_db_wf db → candidate_cache_inv settled db c →
  get_epoch_of_data_storage epoch = Ok e → e ≤ settled →
  ∃ c' l, get_candidates_with_caching row_order hash_order from_vkey tx_in_configuration db epoch address c = (c', Ok l) ∧
    candidate_cache_inv settled db c' ∧ candidates_exact from_vkey db e address l.
Proof.
  intros Hwf [Hseen Hcand Hpar] He Hle. unfold get_candidates_with_caching.
  pose proof (lru_get_value (epoch, address) (candidates_cache c)) as Hget.
  pose proof (λ k, lru_get_keeps (epoch, address) k (candidates_cache c)) as Hkeep.
  destruct (lru_get (epoch, address) (candidates_cache c)) as [resp lru]. simpl in *.
  assert (∀ epoch address l, lru_peek (epoch, address) lru = Some l →
    ∃ e, get_epoch_of_data_storage epoch = Ok e ∧ e ≤ settled ∧ candidates_exact from_vkey db e address l) as Hlru.
  { intros ep a l. rewrite Hkeep. apply Hcand. }
  destruct resp as [l|].
  - eexists _, l. split; [done|]. split; [by split|]. symmetry in Hget.
    destruct (Hcand _ _ _ Hget) as (e' & He' & _ & Hex). by rewrite He in He'; injection He' as ->.
  - destruct (source_candidates_spec db epoch e address Hwf He) as (l & Hl & Hex). rewrite Hl.
    eexists _, l. split; [done|]. split; [|done]. split; [done| |done]. simpl. intros ep a l' Hp.
    destruct (lru_put_entries _ _ _ _ _ Hp) as [[[= -> ->] ->]|Hp']; [by exists e|by apply Hlru].
Qed.

Lemma parameters_with_caching_spec settled db epoch e d p c :
  candidate_cache_inv settled db c → single_output db d → single_output db p →
  get_epoch_of_data_storage epoch = Ok e → e ≤ settled →
  ∃ c', get_ariadne_parameters_with_caching row_order db epoch d p c
      = (c', source_ariadne_parameters row_order db epoch d p) ∧ candidate_cache_inv settled db c'.
Proof.
  intros [Hseen Hcand Hpar] Hd Hp He Hle. unfold get_ariadne_parameters_with_caching.
  pose proof (lru_get_value (epoch, d, p) (ariadne_parameters_cache c)) as Hget.
  pose proof (λ k, lru_get_keeps (epoch, d, p) k (ariadne_parameters_cache c)) as Hkeep.
  destruct (lru_get (epoch, d, p) (ariadne_parameters_cache c)) as [resp lru]. simpl in *.
  assert (∀ epoch d p v, lru_peek (epoch, d, p) lru = Some v → single_output db d ∧ single_output db p ∧
    ∃ e, get_epoch_of_data_storage epoch = Ok e ∧ e ≤ settled ∧
      source_ariadne_parameters row_order db epoch d p = Ok v) as Hlru.
  { intros ep d' p' v. rewrite Hkeep. apply Hpar. }
  destruct resp as [v|].
  - symmetry in Hget. destruct (Hpar _ _ _ _ Hget) as (_ & _ & _ & _ & _ & ->). eexists. split; [done|by split].
  - destruct (source_ariadne_parameters row_order db epoch d p) as [v|err] eqn:Hv; eexists; (split; [done|]);
      [|by split]. split; [done..|]. simpl. intros ep d' p' v' Hput.
    destruct (lru_put_entries _ _ _ _ _ Hput) as [[[= -> -> ->] ->]|Hput']; [|by apply Hlru].
    split_and!; [done..|]. by exists e.
Qed.
End Exact.

(** C23. The sources of committee candidates are exact, with and without cache.
    For a data usage epoch, two epochs after the data epoch [e], both answer with
    one entry for every pool that has an active registration at the end of [e],
    holding all of its active registrations and its stake in [e]; and the cached
    source gives the same Ariadne parameters, errors included, as the plain one.
    This holds whatever the cache holds from before the database moved on, as
    long as settled epochs do not change. *)
Theorem candidate_sources_exact {C1 C2 : Type}
    `{!Lru C1 (Z * bytes * bytes) AriadneParameters, !LruLaws C1 (Z * bytes * bytes) AriadneParameters}
    `{!Lru C2 (Z * bytes) (list CandidateRegistrations), !LruLaws C2 (Z * bytes) (list CandidateRegistrations)}
    row_order hash_order from_vkey tx_in_configuration security_parameter settled settled' db db'
    (c : CandidateCache C1 C2) :
  (∀ A (l : list A), row_order A l ≡ₚ l) → (∀ A (l : list A), hash_order A l ≡ₚ l) →
  candidate_cache_inv row_order from_vkey settled db c →
  db_moves_on row_order security_parameter settled settled' db db' →
  (∀ epoch e address, get_epoch_of_data_storage epoch = Ok e →
     ∃ plain cached c',
       source_candidates row_order hash_order from_vkey tx_in_configuration db' epoch address = Ok plain ∧
       candidates_exact from_vkey db' e address plain ∧
       cached_candidates row_order hash_order from_vkey tx_in_configuration security_parameter db' epoch address c
         = (c', Ok cached) ∧
       candidates_exact from_vkey db' e address cached ∧
       candidate_cache_inv row_order from_vkey settled' db' c') ∧
  ∀ epoch d p, single_output db' d → single_output db' p →
    ∃ c', cached_ariadne_parameters row_order security_parameter db' epoch d p c
        = (c', source_ariadne_parameters row_order db' epoch d p) ∧
      candidate_cache_inv row_order from_vkey settled' db' c'.
Proof.
  intros Hrows Hhash Hinv0 Hmove.
  pose proof (candidate_cache_inv_moves _ _ Hrows _ _ _ _ _ _ Hmove Hinv0) as Hinv.
  destruct Hmove as [_ Hwf _ _ _ Hst]. split.
  - intros epoch e address He.
    destruct (source_candidates_spec row_order hash_order from_vkey tx_in_configuration Hrows Hhash db' epoch e address Hwf He)
      as (plain & Hplain & Hex).
    destruct (can_use_caching_spec row_order from_vkey security_parameter settled' db' epoch e c Hinv He Hst)
      as (c1 & b & Hcan & Hinv1 & Hb). unfold cached_candidates. rewrite Hcan. destruct b.
    + destruct (candidates_with_caching_spec row_order hash_order from_vkey tx_in_configuration Hrows Hhash
        settled' db' epoch e address c1 Hwf Hinv1 He (Hb eq_refl)) as (c2 & cached & -> & Hinv2 & Hex2).
      by exists plain, cached, c2.
    + exists plain, plain, c1. by rewrite Hplain.
  - intros epoch d p Hd Hp. unfold cached_ariadne_parameters.
    destruct (get_epoch_of_data_storage epoch) as [e|err] eqn:He.
    + destruct (can_use_caching_spec row_order from_vkey security_parameter settled' db' epoch e c Hinv He Hst)
        as (c1 & b & -> & Hinv1 & Hb). destruct b; [|by exists c1].
      apply (parameters_with_caching_spec row_order from_vkey settled' db' epoch e); [done..|by apply Hb].
    + exists c. unfold can_use_caching_for_request, source_ariadne_parameters. by rewrite He.
Qed.

(** ** Witness

    A chain on which a registration of epoch 1 is consumed in epoch 3. *)
#[local] Existing Instances list_lru list_lru_laws.

Definition candidate_block (i : Z) : Block := mkBlock i [i] i i 0.
Definition candidate_datum : Datum :=
  register_to_plutus (RegisterV1 (mkAdaBasedStaking [9] [1]) [2] [3] (mkUtxoId (replicate 32 0) 0) (replicate 28 0) []).
Definition candidate_output (i : Z) : LedgerTxOut :=
  mkLedgerTxOut (mkUtxoId [i] 0) i i i 0 [7] [] (Some candidate_datum) [].
Definition candidate_db (n : Z) : CandidateDb :=
  mkCandidateDb (candidate_block <$> seqZ 0 n) (candidate_output <$> seqZ 1 (n - 1))
    [(mkUtxoId [1] 0, 3, 3)] [mkEpochStake 2 [9] 100] [].

Lemma elem_of_candidate_blocks n b : b ∈ db_blocks (candidate_db n) ↔ ∃ i, b = candidate_block i ∧ 0 ≤ i < n.
Proof.
  simpl. rewrite list_elem_of_fmap. split.
  - intros (i & -> & Hi%elem_of_seqZ). exists i. split; [done|lia].
  - intros (i & -> & Hi). exists i. split; [done|]. apply elem_of_seqZ. lia.
Qed.
Lemma elem_of_candidate_outputs n o : o ∈ db_outputs (candidate_db n) ↔ ∃ i, o = candidate_output i ∧ 1 ≤ i < n.
Proof.
  simpl. rewrite list_elem_of_fmap. split.
  - intros (i & -> & Hi%elem_of_seqZ). exists i. split; [done|lia].
  - intros (i & -> & Hi). exists i. split; [done|]. apply elem_of_seqZ. lia.
Qed.

Lemma candidate_db_is_wf n : 4 ≤ n → candidate_db_wf (candidate_db n).
Proof.
  intros Hn. split.
  - simpl. apply NoDup_fmap_2; [by intros i j [= ->]|apply NoDup_seqZ].
  - intros b b' (i & -> & _)%elem_of_candidate_blocks (j & -> & _)%elem_of_candidate_blocks. done.
  - intros b b' (i & -> & _)%elem_of_candidate_blocks (j & -> & _)%elem_of_candidate_blocks. done.
  - intros o (i & -> & Hi)%elem_of_candidate_outputs. exists (candidate_block i). split; [|done].
    apply elem_of_candidate_blocks. exists i. split; [done|lia].
  - intros c ->%list_elem_of_singleton. exists (candidate_block 3). split; [|done].
    apply elem_of_candidate_blocks. exists 3. split; [done|lia].
  - intros e p. unfold pool_stake, stake_rows. simpl. rewrite filter_cons. simpl.
    case_decide; [rewrite filter_cons; simpl; case_decide|]; vm_compute; by split.
Qed.

Lemma candidate_sources_exact_witness :
  ∃ cached (c' : CandidateCache (list (Z * bytes * bytes * AriadneParameters))
                   (list (Z * bytes * list CandidateRegistrations))),
    cached_candidates (λ _ l, l) (λ _ l, l) id TxInEnabled 1 (candidate_db 6) 4 [7] (mkCandidateCache [] [] None)
      = (c', Ok cached) ∧ candidates_exact id (candidate_db 6) 2 [7] cached.
Proof.
  destruct (candidate_sources_exact (λ _ l, l) (λ _ l, l) id TxInEnabled 1 2 3 (candidate_db 5) (candidate_db 6)
    (mkCandidateCache (C1:=list (Z * bytes * bytes * AriadneParameters))
       (C2:=list (Z * bytes * list CandidateRegistrations)) [] [] None)) as [Hc _].
  - intros A l. reflexivity.
  - intros A l. reflexivity.
  - split; discriminate.
  - split.
    + by apply candidate_db_is_wf.
    + by apply candidate_db_is_wf.
    + split; [|done..]. intros o Ho. rewrite !elem_of_candidate_outputs.
      split; intros (i & -> & Hi); exists i; simpl in Ho; (split; [done|lia]).
    + lia.
    + intros policy Hs o o' (i & -> & _)%elem_of_candidate_outputs _ Ha. by apply not_elem_of_nil in Ha.
    + intros s Hs. vm_compute in Hs. injection Hs as <-. lia.
  - destruct (Hc 4 2 [7]) as (plain & cached & c' & _ & _ & Hcall & Hex & _); [reflexivity|].
    exists cached, c'. split; [exact Hcall|exact Hex].
Defined.
