(* ===== verification/StakeSource.v ===== *)
(** * The db-sync source of stake delegations

    Models [toolkit/data-sources/db-sync/src/stake_distribution/mod.rs] and the
    query [get_stake_pool_delegations_for_pools] of
    [toolkit/data-sources/db-sync/src/db_model.rs]: the delegations of stake
    pools that the data of block participation are joined with
    ([BlockProductionLog]). *)

From S2P Require Import Prelude Domain PlutusData DbSync BlockProductionLog.

Record StakePoolDelegationOutputRow := mkDelegationRow {
  epoch_stake_amount : Z;
  pool_hash_raw : bytes;
  stake_address_hash_raw : bytes;
  stake_address_script_hash : option bytes;
}.

(** The rows of [epoch_stake] with their epoch, joined with pools and addresses. *)
Abbreviation EpochStakeTable := (list (Z * StakePoolDelegationOutputRow)).

Definition get_stake_pool_delegations_for_pools (row_order : ∀ A : Type, list A → list A)
    (table : EpochStakeTable) (epoch : Z) (stake_pool_hashes : list bytes) : list StakePoolDelegationOutputRow :=
  row_order _ (snd <$> filter (λ r, r.1 = epoch ∧ 0 < epoch_stake_amount r.2 ∧ pool_hash_raw r.2 ∈ stake_pool_hashes) table).

Inductive DelegatorKeyError := ScriptHashMissing | InvalidStakeAddressHash.

Definition get_delegator_key (row : StakePoolDelegationOutputRow) : result DelegatorKeyError DelegatorKey :=
  match stake_address_hash_raw row with
  | tag :: rest =>
      if (tag =? 224) || (tag =? 225) then Ok (StakeKeyHash rest)
      else if (tag =? 240) || (tag =? 241) then
        script_hash ← ok_or (stake_address_script_hash row) ScriptHashMissing;
        Ok (ScriptKeyHash rest script_hash)
      else Err InvalidStakeAddressHash
  | [] => Err InvalidStakeAddressHash
  end.

(** One row is added to the delegations of its pool; a row that can not be parsed
    is skipped. *)
Definition add_row (res : StakeDistribution) (row : StakePoolDelegationOutputRow) : StakeDistribution :=
  match get_delegator_key row with
  | Ok delegator_key =>
      let pool := default (mkPoolDelegation 0 ∅) (res !! pool_hash_raw row) in
      let delegators := match delegators pool !! delegator_key with
                        | Some _ => delegators pool
                        | None => <[delegator_key := epoch_stake_amount row]> (delegators pool)
                        end in
      <[pool_hash_raw row := mkPoolDelegation (wadd 64 (total_stake pool) (epoch_stake_amount row)) delegators]> res
  | Err _ => res
  end.
Definition rows_to_distribution (rows : list StakePoolDelegationOutputRow) : StakeDistribution :=
  foldl add_row ∅ rows.

Section StakeCache.
Context {C : Type} `{!Lru C (Z * bytes) PoolDelegation}.

Definition get_distribution_for_pool (epoch : Z) (pool_hash : bytes) (cache : C) : option PoolDelegation * C :=
  lru_get (epoch, pool_hash) cache.

Definition put_distribution_for_pools (epoch : Z) (stake_distribution : StakeDistribution) (cache : C) : C :=
  foldl (λ cache '(pool_hash, pool_delegation), lru_put (epoch, pool_hash) pool_delegation cache)
    cache (btree_iter stake_distribution).

(** The loop over the requested pools: what the cache holds, and what it does not. *)
Definition lookup_pools (epoch : Z) (pool_hashes : list bytes) (cache : C) : C * list bytes * StakeDistribution :=
  foldl (λ '(cache, pool_hashes_to_query, stake_distribution) pool_hash,
    match get_distribution_for_pool epoch pool_hash cache with
    | (Some pool_delegation, cache) => (cache, pool_hashes_to_query, <[pool_hash := pool_delegation]> stake_distribution)
    | (None, cache) => (cache, pool_hashes_to_query ++ [pool_hash], stake_distribution)
    end) (cache, [], ∅) pool_hashes.

Definition get_stake_pool_delegation_distribution_for_pools (row_order : ∀ A : Type, list A → list A)
    (table : EpochStakeTable) (epoch : Z) (pool_hashes : list bytes) (cache : C) : C * StakeDistribution :=
  let '(cache, pool_hashes_to_query, stake_distribution) := lookup_pools epoch pool_hashes cache in
  let rows := get_stake_pool_delegations_for_pools row_order table epoch pool_hashes_to_query in
  let queried_pool_delegations := rows_to_distribution rows in
  let cache := put_distribution_for_pools epoch queried_pool_delegations cache in
  (cache, queried_pool_delegations ∪ stake_distribution).
End StakeCache.

(** ** What the source answers *)

(** The delegators of a pool in an epoch with their stakes. *)
Definition delegations (table : EpochStakeTable) (epoch : Z) (p : bytes) : list (DelegatorKey * Z) :=
  filter_map (λ r,
    if decide (r.1 = epoch ∧ 0 < epoch_stake_amount r.2 ∧ pool_hash_raw r.2 = p)
    then (λ k, (k, epoch_stake_amount r.2)) <$> ok (get_delegator_key r.2) else None) table.

(** A pool is known if it has delegators; its stake is the sum of theirs. *)
Definition pool_delegation (table : EpochStakeTable) (epoch : Z) (p : bytes) : option PoolDelegation :=
  match delegations table epoch p with
  | [] => None
  | l => Some (mkPoolDelegation (zsum l.*2) (list_to_map l))
  end.

Record stake_table_wf (table : EpochStakeTable) : Prop := {
  stw_delegators epoch p : NoDup (delegations table epoch p).*1;
  stw_total epoch p : zsum (delegations table epoch p).*2 < u_bound 64;
}.

Section Distribution.
Implicit Types (rows : list StakePoolDelegationOutputRow) (p : bytes).

(** The delegators of a pool among some rows. *)
Definition row_delegations rows p : list (DelegatorKey * Z) :=
  filter_map (λ r, if decide (pool_hash_raw r = p)
                   then (λ k, (k, epoch_stake_amount r)) <$> ok (get_delegator_key r) else None) rows.

Definition distribution_entry (l : list (DelegatorKey * Z)) : option PoolDelegation :=
  match l with [] => None | _ => Some (mkPoolDelegation (wrap 64 (zsum l.*2)) (list_to_map l)) end.

Lemma distribution_entry_snoc l k a :
  distribution_entry (l ++ [(k, a)])
  = let pool := default (mkPoolDelegation 0 ∅) (distribution_entry l) in
    Some (mkPoolDelegation (wadd 64 (total_stake pool) a)
      match delegators pool !! k with Some _ => delegators pool | None => <[k := a]> (delegators pool) end).
Proof.
  assert (default (mkPoolDelegation 0 ∅) (distribution_entry l)
    = mkPoolDelegation (wrap 64 (zsum l.*2)) (list_to_map l)) as -> by (by destruct l).
  assert (distribution_entry (l ++ [(k, a)])
    = Some (mkPoolDelegation (wrap 64 (zsum (l ++ [(k, a)]).*2)) (list_to_map (l ++ [(k, a)])))) as ->
    by (by destruct l).
  simpl. f_equal. f_equal.
  - rewrite fmap_app, zsum_app. simpl. rewrite Z.add_0_r. unfold wadd, wrap. by rewrite Zplus_mod_idemp_l.
  - rewrite list_to_map_app. simpl. destruct (list_to_map l !! k) as [a'|] eqn:Hk.
    + apply map_eq. intros k'. rewrite lookup_union. destruct (decide (k = k')) as [<-|Hne].
      * rewrite Hk. by destruct (<[k:=a]> ∅ !! k).
      * rewrite lookup_insert_ne, lookup_empty by done. by destruct (list_to_map l !! k').
    + by rewrite <-insert_union_r, map_union_empty.
Qed.

Lemma rows_to_distribution_spec rows p :
  rows_to_distribution rows !! p = distribution_entry (row_delegations rows p).
Proof.
  unfold rows_to_distribution. induction rows as [|r rows IH] using rev_ind; [done|].
  rewrite foldl_app. unfold row_delegations in *. rewrite filter_map_app. simpl. unfold add_row at 1.
  destruct (decide (pool_hash_raw r = p)) as [Hp|Hne].
  - destruct (get_delegator_key r) as [k|]; simpl; [|by rewrite app_nil_r].
    by rewrite distribution_entry_snoc, <-IH, <-Hp, lookup_insert_eq.
  - rewrite app_nil_r, <-IH. destruct (get_delegator_key r); [|done]. by rewrite lookup_insert_ne.
Qed.
End Distribution.

Section StakeExact.
Context (row_order : ∀ A : Type, list A → list A) (Hrows : ∀ A (l : list A), row_order A l ≡ₚ l).
Context (table : EpochStakeTable) (Hwf : stake_table_wf table).

Lemma queried_delegations epoch pools p :
  row_delegations (get_stake_pool_delegations_for_pools row_order table epoch pools) p
  ≡ₚ if decide (p ∈ pools) then delegations table epoch p else [].
Proof.
  unfold get_stake_pool_delegations_for_pools, row_delegations, delegations.
  rewrite Hrows, filter_map_fmap. clear Hwf.
  destruct (decide (p ∈ pools)) as [Hin|Hin]; induction table as [|[e r] rows IH]; try done;
    rewrite filter_cons; simpl.
  - destruct (decide (e = epoch ∧ 0 < epoch_stake_amount r ∧ pool_hash_raw r = p)) as [(He & Ha & Hp)|Hn].
    + rewrite decide_True by (subst p; tauto). simpl. rewrite (decide_True (P:=pool_hash_raw r = p)) by done.
      destruct (ok (get_delegator_key r)); simpl; [by constructor|done].
    + case_decide as Hc; simpl; [|done]. by rewrite decide_False by tauto.
  - case_decide as Hc; simpl; [|done]. rewrite decide_False; [done|]. intros <-. tauto.
Qed.

Lemma delegations_pos epoch p : Forall (λ x, 0 ≤ x) (delegations table epoch p).*2.
Proof.
  clear Hwf Hrows. apply Forall_fmap, Forall_forall. intros [k a] Hin. unfold delegations in Hin.
  apply elem_of_filter_map in Hin as ([e r] & _ & Heq). simpl in *. case_decide as Hc; [|done].
  apply fmap_Some in Heq as (k' & _ & [= -> ->]). simpl. lia.
Qed.

(** Rows with the right delegators give the right entry, in whatever order. *)
Lemma distribution_of_delegations rows epoch (pools : list bytes) p :
  row_delegations rows p ≡ₚ (if decide (p ∈ pools) then delegations table epoch p else []) →
  rows_to_distribution rows !! p = if decide (p ∈ pools) then pool_delegation table epoch p else None.
Proof.
  intros Hp. rewrite rows_to_distribution_spec.
  case_decide; [|by apply Permutation_nil_r in Hp as ->]. unfold pool_delegation, distribution_entry.
  destruct (delegations table epoch p) as [|x l] eqn:Hd; [by apply Permutation_nil_r in Hp as ->|].
  destruct (row_delegations _ p) as [|y l'] eqn:Hr; [by apply Permutation_nil_l in Hp|]. rewrite <-Hd in *.
  f_equal. f_equal.
  - rewrite <-Hr, (zsum_Permutation _ (delegations table epoch p).*2) by (by rewrite Hr, Hp).
    apply wrap_id. split; [apply zsum_nonneg, delegations_pos|apply (stw_total _ Hwf)].
  - rewrite <-Hr. symmetry. apply list_to_map_proper; [apply (stw_delegators _ Hwf)|by rewrite Hr, Hp].
Qed.

Lemma queried_distribution epoch pools p :
  rows_to_distribution (get_stake_pool_delegations_for_pools row_order table epoch pools) !! p
  = if decide (p ∈ pools) then pool_delegation table epoch p else None.
Proof. apply distribution_of_delegations, queried_delegations. Qed.
End StakeExact.

(** ** The cache *)

Section StakeCacheSpec.
Context {C : Type} `{!Lru C (Z * bytes) PoolDelegation, !LruLaws C (Z * bytes) PoolDelegation}.
Implicit Types cache : C.

Definition stake_cache_ok (table : EpochStakeTable) (cache : C) : Prop :=
  ∀ epoch p d, lru_peek (epoch, p) cache = Some d → pool_delegation table epoch p = Some d.

Lemma lookup_pools_spec epoch pools cache :
  let '(cache', to_query, dist) := lookup_pools epoch pools cache in
  (∀ k, lru_peek k cache' = lru_peek k cache) ∧
  (∀ p, p ∈ to_query ↔ p ∈ pools ∧ lru_peek (epoch, p) cache = None) ∧
  ∀ p, dist !! p = if decide (p ∈ pools) then lru_peek (epoch, p) cache else None.
Proof.
  unfold lookup_pools. induction pools as [|q pools IH] using rev_ind.
  { split_and!; [done| |done]. intros p. by rewrite elem_of_nil; split; [|intros []]. }
  rewrite foldl_app. cbn [foldl]. destruct (foldl _ _ pools) as [[cache' to_query] dist].
  destruct IH as (Hpeek & Hq & Hdist). unfold get_distribution_for_pool.
  pose proof (lru_get_value (epoch, q) cache') as Hget. pose proof (λ k, lru_get_keeps (epoch, q) k cache') as Hkeep.
  destruct (lru_get (epoch, q) cache') as [[d|] cache'']; simpl in *; rewrite Hpeek in Hget; (split_and!;
    [intros k; by rewrite Hkeep|intros p|intros p]).
  - rewrite Hq, elem_of_app, list_elem_of_singleton. naive_solver congruence.
  - destruct (decide (p = q)) as [->|Hne].
    + rewrite lookup_insert_eq, decide_True; [done|]. apply elem_of_app. right. left.
    + rewrite lookup_insert_ne, Hdist by done. apply decide_ext. rewrite elem_of_app, list_elem_of_singleton. tauto.
  - rewrite !elem_of_app, Hq, list_elem_of_singleton. naive_solver congruence.
  - rewrite Hdist. destruct (decide (p = q)) as [->|Hne].
    + rewrite <-Hget. by repeat case_decide.
    + apply decide_ext. rewrite elem_of_app, list_elem_of_singleton. tauto.
Qed.

Lemma put_distribution_spec table epoch dist cache :
  (∀ p d, dist !! p = Some d → pool_delegation table epoch p = Some d) →
  stake_cache_ok table cache → stake_cache_ok table (put_distribution_for_pools epoch dist cache).
Proof.
  intros Hdist Hok. unfold put_distribution_for_pools.
  assert (∀ p d, (p, d) ∈ btree_iter dist → pool_delegation table epoch p = Some d) as Hin.
  { intros p d Hp%elem_of_btree_iter. by apply Hdist. }
  revert cache Hok. induction (btree_iter dist) as [|[p d] l IH]; intros cache Hok; [done|].
  simpl. apply IH; [intros; apply Hin; by right|]. intros e q d' Hpeek.
  destruct (lru_put_entries _ _ _ _ _ Hpeek) as [[[= -> ->] ->]|Hold]; [apply Hin; left|by apply Hok].
Qed.

Lemma stake_source_spec row_order table epoch pools cache :
  (∀ A (l : list A), row_order A l ≡ₚ l) → stake_table_wf table → stake_cache_ok table cache →
  let '(cache', dist) :=
    get_stake_pool_delegation_distribution_for_pools row_order table epoch pools cache in
  stake_cache_ok table cache' ∧
  ∀ p, dist !! p = if decide (p ∈ pools) then pool_delegation table epoch p else None.
Proof.
  intros Hrows Hwf Hok. unfold get_stake_pool_delegation_distribution_for_pools.
  pose proof (lookup_pools_spec epoch pools cache) as Hlook.
  destruct (lookup_pools epoch pools cache) as [[cache' to_query] dist]. destruct Hlook as (Hpeek & Hq & Hdist).
  pose proof (queried_distribution row_order Hrows table Hwf epoch to_query) as Hqueried. split.
  - apply put_distribution_spec; [|intros e p d; rewrite Hpeek; apply Hok].
    intros p d. rewrite Hqueried. by case_decide.
  - intros p. rewrite lookup_union, Hqueried, Hdist.
    destruct (decide (p ∈ to_query)) as [Hp|Hp].
    + apply Hq in Hp as [Hin Hnone]. rewrite !(decide_True (P:=p ∈ pools)), Hnone by done.
      by destruct (pool_delegation table epoch p).
    + case_decide as Hin; [|done]. destruct (lru_peek (epoch, p) cache) as [d|] eqn:Hd.
      * by rewrite (Hok _ _ _ Hd).
      * destruct Hp. by apply Hq.
Qed.
End StakeCacheSpec.

(** C24. The source of delegations is exact and the same on all nodes: whatever
    valid content its cache has and in whatever order pools are asked for and
    rows come, it answers with exactly the requested pools that have delegators,
    each with its delegators and the sum of their stakes, and leaves a valid
    cache. *)
Theorem stake_distribution_exact {C : Type} `{!Lru C (Z * bytes) PoolDelegation, !LruLaws C (Z * bytes) PoolDelegation}
    row_order row_order' table epoch pools pools' (cache cache' : C) :
  (∀ A (l : list A), row_order A l ≡ₚ l) → (∀ A (l : list A), row_order' A l ≡ₚ l) →
  stake_table_wf table → stake_cache_ok table cache → stake_cache_ok table cache' → pools ≡ₚ pools' →
  ∃ cache1 cache1' dist,
    get_stake_pool_delegation_distribution_for_pools row_order table epoch pools cache = (cache1, dist) ∧
    get_stake_pool_delegation_distribution_for_pools row_order' table epoch pools' cache' = (cache1', dist) ∧
    stake_cache_ok table cache1 ∧ stake_cache_ok table cache1' ∧
    ∀ p, dist !! p = if decide (p ∈ pools) then pool_delegation table epoch p else None.
Proof.
  intros Hrows Hrows' Hwf Hok Hok' Hpools.
  pose proof (stake_source_spec row_order table epoch pools cache Hrows Hwf Hok) as H1.
  pose proof (stake_source_spec row_order' table epoch pools' cache' Hrows' Hwf Hok') as H2.
  destruct (get_stake_pool_delegation_distribution_for_pools row_order table epoch pools cache) as [cache1 dist].
  destruct (get_stake_pool_delegation_distribution_for_pools row_order' table epoch pools' cache') as [cache1' dist'].
  destruct H1 as [Hc1 Hd1], H2 as [Hc2 Hd2]. exists cache1, cache1', dist.
  assert (dist' = dist) as ->; [|done]. apply map_eq. intros p. rewrite Hd1, Hd2. apply decide_ext. by rewrite Hpools.
Qed.

(** ** Witness *)

#[local] Existing Instances list_lru list_lru_laws.
Definition example_rows : EpochStakeTable :=
  [(5, mkDelegationRow 60 [1] (224 :: [7]) None); (5, mkDelegationRow 40 [1] (240 :: [8]) (Some [9]));
   (5, mkDelegationRow 30 [2] (99 :: [7]) None); (6, mkDelegationRow 10 [1] (224 :: [7]) None)].

Lemma example_delegations epoch p :
  delegations example_rows epoch p
  = if decide (p = [1]) then
      if decide (epoch = 5) then [(StakeKeyHash [7], 60); (ScriptKeyHash [8] [9], 40)]
      else if decide (epoch = 6) then [(StakeKeyHash [7], 10)] else []
    else [].
Proof. unfold delegations, example_rows. simpl. repeat case_decide; naive_solver. Qed.

Lemma example_rows_wf : stake_table_wf example_rows.
Proof.
  split; intros epoch p; rewrite example_delegations; repeat case_decide; simpl; try (vm_compute; reflexivity);
    repeat (apply NoDup_cons; split; [intros Hin; repeat (apply elem_of_cons in Hin as [[=]|Hin]); by apply elem_of_nil in Hin|]);
    apply NoDup_nil_2.
Qed.

Lemma stake_distribution_exact_witness :
  ∃ (c1 : list (Z * bytes * PoolDelegation)) dist,
    get_stake_pool_delegation_distribution_for_pools (λ _ l, l) example_rows 5 [[1]; [2]] [] = (c1, dist) ∧
    dist !! [1] = Some (mkPoolDelegation 100 {[ StakeKeyHash [7] := 60; ScriptKeyHash [8] [9] := 40 ]}) ∧
    dist !! [2] = None.
Proof.
  destruct (stake_distribution_exact (C:=list (Z * bytes * PoolDelegation)) (λ _ l, l) (λ _ l, l) example_rows 5
    [[1]; [2]] [[2]; [1]] [] [] ltac:(done) ltac:(done) example_rows_wf ltac:(by intros ???) ltac:(by intros ???)
    ltac:(apply perm_swap)) as (c1 & c1' & dist & Hcall & _ & _ & _ & Hdist).
  exists c1, dist. split; [exact Hcall|]. rewrite !Hdist. split; vm_compute; reflexivity.
Defined.
