(* ===== verification/DolosBlocks.v ===== *)
(** * The Dolos source of Cardano blocks

    Models [toolkit/data-sources/dolos/src/block.rs], [mc_hash.rs],
    [client/conversions.rs] and the pagination of [client/minibf.rs]: a second
    implementation of the interface of [McHash], over the block endpoints of a
    Dolos node.  The node is a class with laws; its ledger is a chain of blocks
    as in [BlockSource], whose conversions of times ([timestamp_to_db_type],
    [min_block_allowed_time], [max_allowed_block_time], [date_time_to_slot]) the
    source repeats literally. *)

From S2P Require Import Prelude Domain MainchainEpoch McHash BlockSource TextFormats.

(** ** The client *)

(** [DataSourceError]; errors of decoding a hash and other messages are boxed
    with them. *)
Inductive DolosError :=
  | DolosBadRequest
  | DolosCallError
  | DolosResponseParseError
  | DolosExpectedDataNotFound
  | DolosInvalidData
  | DolosDecodeError (e : DecodeHexError)
  | DolosMessage (text : string).

(** The 32-bit fields of [BlockContent]; the hash is text. *)
Record BlockContent := mkBlockContent {
  bc_height : option Z;
  bc_hash : bytes;
  bc_epoch : option Z;
  bc_slot : option Z;
  bc_time : Z;
}.

Definition from_block_content `{!Hex} (value : BlockContent) : result DolosError MainchainBlock :=
  number ← ok_or (wrap 32 <$> bc_height value) DolosInvalidData;
  hash ← map_err DolosDecodeError (decode_hex_array 32 (bc_hash value));
  epoch ← ok_or (wrap 32 <$> bc_epoch value) DolosInvalidData;
  slot ← ok_or (wrap 64 <$> bc_slot value) DolosInvalidData;
  Ok (mkMainchainBlock number hash epoch slot (wrap 64 (bc_time value))).

(** [paginated_request_all]: pages of a hundred items until one is not full;
    [request page] is the request for one page. *)
Definition PAGE_COUNT : nat := 100.
Fixpoint paginated_request_loop {T} (fuel : nat) (request : Z → result DolosError (list T)) (page : Z) (res : list T) :
    outcome (result DolosError (list T)) :=
  match fuel with
  | O => Panic
  | S fuel =>
      match request page with
      | Err e => Ret (Err e)
      | Ok resp =>
          if (length resp <? PAGE_COUNT)%nat then Ret (Ok (res ++ resp))
          else paginated_request_loop fuel request (page + 1) (res ++ resp)
      end
  end.
Definition paginated_request_all {T} (fuel : nat) (request : Z → result DolosError (list T)) :
    outcome (result DolosError (list T)) :=
  paginated_request_loop fuel request 1 [].

(** The block endpoints of a node whose ledger is a chain: [blocks/latest] and
    [blocks/{id}] for a number and for a hash. *)
Class MiniBFBlocks := {
  blocks_latest : list Block → result DolosError BlockContent;
  blocks_by_number : list Block → Z → result DolosError BlockContent;
  blocks_by_hash : list Block → bytes → result DolosError BlockContent;
}.

(** ** The data source *)

Record DolosBlockSource := mkDolosSource {
  dolos_chain : list Block;
  blocks_cache : list MainchainBlock;
}.

Definition find_by_hash (cache : list MainchainBlock) (h : bytes) : option MainchainBlock :=
  head (filter (λ b, mb_hash b = h) cache).

(** [timestamp()] of a date is in whole seconds. *)
Definition convert_naive_datetime (d : Z) : outcome Z := expect (try_into 64 (d / 1000)).

Section Source.
Context `{!Hex, !MiniBFBlocks} (datetime_min datetime_max : Z).
Context (security_parameter min_slot_boundary max_slot_boundary : Z)
  (mainchain_epoch_config : MainchainEpochConfig) (block_stability_margin cache_size : Z).

Abbreviation min_allowed := (min_block_allowed_time datetime_min datetime_max max_slot_boundary).
Abbreviation max_allowed := (max_allowed_block_time datetime_min datetime_max min_slot_boundary).

Definition fetch (r : result DolosError BlockContent) : result DolosError MainchainBlock :=
  content ← r; from_block_content content.

Definition dolos_latest_block_info (chain : list Block) : result DolosError MainchainBlock :=
  content ← map_err (λ _, DolosExpectedDataNotFound) (blocks_latest chain); from_block_content content.

Fixpoint get_latest_block_loop (fuel : nat) (chain : list Block) (min_time min_slot max_time max_slot : Z)
    (current_block_number : Z) : outcome (result DolosError (option MainchainBlock)) :=
  match fuel with
  | O => Panic
  | S fuel =>
      match blocks_by_number chain current_block_number with
      | Err _ => Ret (Ok None)
      | Ok b =>
          block ←? Ret (from_block_content b);
          let is_time_match := (min_time <=? mb_timestamp block) && (mb_timestamp block <=? max_time) in
          let is_slot_match := (min_slot <=? mb_slot block) && (mb_slot block <=? max_slot) in
          if is_time_match && is_slot_match then Ret (Ok (Some block))
          else if (mb_timestamp block <? min_time) || (mb_slot block <? min_slot) || (mb_number block =? 0)
          then Ret (Ok None)
          else get_latest_block_loop fuel chain min_time min_slot max_time max_slot (sat_sub (mb_number block) 1)
      end
  end.

Definition dolos_latest_block (chain : list Block) (max_block reference_timestamp : Z) :
    outcome (result DolosError (option MainchainBlock)) :=
  min_time_naive ← min_allowed reference_timestamp;
  min_time ← convert_naive_datetime min_time_naive;
  min_slot ←? map_err (λ _, DolosBadRequest) <$> date_time_to_slot mainchain_epoch_config min_time_naive;
  max_time_naive ← max_allowed reference_timestamp;
  max_time ← convert_naive_datetime max_time_naive;
  max_slot ←? map_err (λ _, DolosBadRequest) <$> date_time_to_slot mainchain_epoch_config max_time_naive;
  get_latest_block_loop (S (Z.to_nat max_block)) chain min_time min_slot max_time max_slot max_block.

Definition dolos_latest_stable_block_for (reference_timestamp : Z) :
    DS DolosBlockSource DolosError (option MainchainBlock) := λ s,
  r ← (reference_timestamp ←? Ret (map_err (λ _, DolosBadRequest) (timestamp_to_db_type datetime_max reference_timestamp));
       latest ←? Ret (dolos_latest_block_info (dolos_chain s));
       let offset := wadd 32 security_parameter block_stability_margin in
       let stable := sat_sub (mb_number latest) offset in
       dolos_latest_block (dolos_chain s) stable reference_timestamp);
  Ret (s, r).

Definition dolos_is_block_time_valid (block : MainchainBlock) (timestamp : Z) : outcome bool :=
  min_time_naive ← min_allowed timestamp;
  min_time ← convert_naive_datetime min_time_naive;
  if min_time <=? mb_timestamp block then
    max_time_naive ← max_allowed timestamp;
    max_time ← convert_naive_datetime max_time_naive;
    Ret (mb_timestamp block <=? max_time)
  else Ret false.

Definition dolos_stable_from_cache (s : DolosBlockSource) (h : bytes) (reference_timestamp : Z) :
    outcome (option MainchainBlock) :=
  match find_by_hash (blocks_cache s) h with
  | None => Ret None
  | Some block =>
      valid ← dolos_is_block_time_valid block reference_timestamp;
      Ret (if valid : bool then Some block else None)
  end.

Definition dolos_stable_from_db (s : DolosBlockSource) (h : bytes) (reference_timestamp : Z) :
    outcome (result DolosError (option MainchainBlock)) :=
  block ←? Ret (fetch (blocks_by_hash (dolos_chain s) h));
  latest_block ←? Ret (fetch (blocks_latest (dolos_chain s)));
  if sat_add 32 (mb_number block) security_parameter <=? mb_number latest_block then
    valid ← dolos_is_block_time_valid block reference_timestamp;
    Ret (Ok (if valid : bool then Some block else None))
  else Ret (Ok None).

(** [try_join_all] of the requests for the blocks [from_block_no..=to_block_no]. *)
Definition dolos_fill_cache (from_block : MainchainBlock) (s : DolosBlockSource) :
    DolosBlockSource * result DolosError unit :=
  let from_block_no := mb_number from_block in
  match fetch (blocks_latest (dolos_chain s)) with
  | Err e => (s, Err e)
  | Ok latest_block =>
      let stable_block_num := sat_sub (mb_number latest_block) security_parameter in
      let to_block_no := Z.min (sat_add 32 from_block_no cache_size) stable_block_num in
      let blocks :=
        if from_block_no <? to_block_no
        then mapM (λ block_no, fetch (blocks_by_number (dolos_chain s) block_no))
               (seqZ from_block_no (to_block_no - from_block_no + 1))
        else Ok [from_block] in
      match blocks with
      | Err e => (s, Err e)
      | Ok blocks => (mkDolosSource (dolos_chain s) blocks, Ok tt)
      end
  end.

Definition dolos_stable_block_by_hash (h : bytes) (reference_timestamp : Z) :
    DS DolosBlockSource DolosError (option MainchainBlock) := λ s,
  cached ← dolos_stable_from_cache s h reference_timestamp;
  match cached with
  | Some block => Ret (s, Ok (Some block))
  | None =>
      found ← dolos_stable_from_db s h reference_timestamp;
      match found with
      | Err e => Ret (s, Err e)
      | Ok None => Ret (s, Ok None)
      | Ok (Some block_by_hash) =>
          match dolos_fill_cache block_by_hash s with
          | (s, Err e) => Ret (s, Err e)
          | (s, Ok _) => Ret (s, Ok (Some block_by_hash))
          end
      end
  end.

Definition dolos_stable_block_for (h : bytes) (reference_timestamp : Z) :
    DS DolosBlockSource DolosError (option MainchainBlock) :=
  reference_timestamp ← ds_lift (map_err (λ _, DolosBadRequest) (timestamp_to_db_type datetime_max reference_timestamp));
  dolos_stable_block_by_hash h reference_timestamp.

Definition dolos_block_by_hash (h : bytes) : DS DolosBlockSource DolosError (option MainchainBlock) := λ s,
  match find_by_hash (blocks_cache s) h with
  | Some block => Ret (s, Ok (Some block))
  | None => Ret (s, Some <$> fetch (blocks_by_hash (dolos_chain s) h))
  end.

Definition dolos_block_source : McHashDataSource DolosBlockSource DolosError := {|
  get_latest_stable_block_for := dolos_latest_stable_block_for;
  get_stable_block_for := dolos_stable_block_for;
  get_block_by_hash := dolos_block_by_hash;
|}.
End Source.

(** ** What the node promises *)

Definition content_of `{!Hex} (r : result DolosError BlockContent) (b : Block) : Prop :=
  fetch r = Ok (mainchain_block b).

(** A block the 31-bit fields of an answer can hold. *)
Record representable (b : Block) : Prop := {
  rep_number : in_u 31 (block_no b);
  rep_epoch : in_u 31 (epoch_no b);
  rep_slot : in_u 31 (slot_no b);
  rep_time : in_u 31 (time b / 1000);
  rep_hash : Forall is_byte (hash b) ∧ length (hash b) = 32%nat;
}.

Class MiniBFBlocksLaws `{!Hex, !MiniBFBlocks} : Prop := {
  law_blocks_latest l b : Forall representable l → b ∈ l → (∀ b', b' ∈ l → block_no b' = tip l → b' = b) → block_no b = tip l →
    content_of (blocks_latest l) b;
  law_by_number l n : Forall representable l → (∃ b, b ∈ l ∧ block_no b = n ∧ content_of (blocks_by_number l n) b) ∨
    (∃ e, blocks_by_number l n = Err e) ∧ ∀ b, b ∈ l → block_no b ≠ n;
  law_by_block_hash l h : Forall representable l → (∃ b, b ∈ l ∧ hash b = h ∧ content_of (blocks_by_hash l h) b) ∨
    (∃ e, blocks_by_hash l h = Err e) ∧ ∀ b, b ∈ l → hash b ≠ h;
}.

(** ** Pagination *)

(** The pages of a list. *)
Definition pages {T} (l : list T) (page : Z) : result DolosError (list T) :=
  Ok (take PAGE_COUNT (drop (PAGE_COUNT * (Z.to_nat page - 1)) l)).

Lemma paginated_request_loop_pages {T} (l : list T) fuel n res :
  res = take (PAGE_COUNT * n) l → (length l < PAGE_COUNT * (n + fuel))%nat → (PAGE_COUNT * n ≤ length l)%nat →
  paginated_request_loop fuel (pages l) (Z.of_nat (S n)) res = Ret (Ok l).
Proof.
  revert n res. induction fuel as [|fuel IH]; intros n res -> Hf Hn; [lia|]. cbn [paginated_request_loop].
  unfold pages at 1. replace (Z.to_nat (Z.of_nat (S n)) - 1)%nat with n by lia.
  destruct (Nat.ltb_spec (length (take PAGE_COUNT (drop (PAGE_COUNT * n) l))) PAGE_COUNT) as [Hlt|Hge];
    rewrite length_take, length_drop in *.
  - by rewrite (take_ge (drop _ _)), take_drop by (rewrite length_drop; lia).
  - replace (Z.of_nat (S n) + 1) with (Z.of_nat (S (S n))) by lia. apply IH; [|lia..].
    replace (PAGE_COUNT * S n)%nat with (PAGE_COUNT * n + PAGE_COUNT)%nat by lia. by rewrite take_take_drop.
Qed.

(** ** Correctness of the source *)

Section Spec.
Context `{!Hex, !MiniBFBlocks, !MiniBFBlocksLaws} (row_order : ∀ A : Type, list A → list A) (datetime_min datetime_max : Z).
Context (security_parameter min_slot_boundary max_slot_boundary : Z)
  (mainchain_epoch_config : MainchainEpochConfig) (block_stability_margin cache_size : Z).
Context (Hparams : source_params_wf row_order datetime_min datetime_max security_parameter min_slot_boundary
  max_slot_boundary mainchain_epoch_config block_stability_margin).
Abbreviation first_time := (first_epoch_timestamp_millis mainchain_epoch_config).
Abbreviation in_range := (time_in_range min_slot_boundary max_slot_boundary).
Abbreviation select_ok := (selectable security_parameter min_slot_boundary max_slot_boundary mainchain_epoch_config
  block_stability_margin).

(** The chain is well-formed, without gaps and long enough, and the cache holds
    stable blocks. *)
Record dolos_ok (s : DolosBlockSource) : Prop := {
  dolos_wf : chain_wf mainchain_epoch_config (dolos_chain s);
  dolos_representable : Forall representable (dolos_chain s);
  dolos_gapless n : 0 ≤ n ≤ tip (dolos_chain s) → ∃ b, b ∈ dolos_chain s ∧ block_no b = n;
  dolos_long : security_parameter + block_stability_margin ≤ tip (dolos_chain s);
  dolos_cache_ok mb : mb ∈ blocks_cache s →
    ∃ b, b ∈ dolos_chain s ∧ confirmed security_parameter (dolos_chain s) b ∧ mb = mainchain_block b;
}.

(** Slots start at whole seconds, as do the bounds on the time of a block. *)
Definition dolos_supported (timestamp : Z) : Prop :=
  supported_timestamp datetime_max max_slot_boundary timestamp ∧ (1000 | timestamp - max_slot_boundary).

Lemma seconds_of t : 0 ≤ t < 2 ^ 63 → convert_naive_datetime t = Ret (t / 1000).
Proof.
  intros Ht. unfold convert_naive_datetime. assert (try_into 64 (t / 1000) = Some (t / 1000)) as ->; [|done].
  apply try_into_Some. split; [|done]. unfold in_u, u_bound. split; [apply Z.div_pos; lia|].
  apply Z.div_lt_upper_bound; lia.
Qed.

(** Comparing whole seconds is comparing the times of blocks. *)
Lemma seconds_in_range l b timestamp : chain_wf mainchain_epoch_config l → b ∈ l → dolos_supported timestamp →
  ((timestamp - max_slot_boundary) / 1000 ≤ time b / 1000 ↔ timestamp - max_slot_boundary ≤ time b) ∧
  (time b / 1000 ≤ (timestamp - min_slot_boundary) / 1000 ↔ time b ≤ timestamp - min_slot_boundary).
Proof.
  intros Hwf Hb [_ [k Hk]]. destruct (wf_block _ _ Hwf b Hb) as (_ & _ & n & Hn). rewrite Hk, Hn, !Z.div_mul by lia.
  split; [lia|]. pose proof (Z.div_mod (timestamp - min_slot_boundary) 1000 ltac:(lia)).
  pose proof (Z.mod_pos_bound (timestamp - min_slot_boundary) 1000 ltac:(lia)). lia.
Qed.

Lemma dolos_time_valid l b timestamp : chain_wf mainchain_epoch_config l → b ∈ l → dolos_supported timestamp →
  dolos_is_block_time_valid datetime_min datetime_max min_slot_boundary max_slot_boundary (mainchain_block b) timestamp
  = Ret (bool_decide (in_range timestamp b)).
Proof.
  intros Hwf Hb Hts. destruct (allowed_times _ _ _ _ _ _ _ _ Hparams timestamp (proj1 Hts)) as [Hmin Hmax].
  destruct (seconds_in_range l b timestamp Hwf Hb Hts) as [Hlo Hhi].
  destruct (params_boundary _ _ _ _ _ _ _ _ Hparams). destruct (proj1 Hts) as [[? ?] ?].
  unfold dolos_is_block_time_valid. rewrite Hmin. simpl. rewrite seconds_of by lia. simpl.
  unfold time_in_range. destruct (Z.leb_spec ((timestamp - max_slot_boundary) / 1000) (time b / 1000)) as [Hle|Hgt].
  - rewrite Hmax. simpl. rewrite seconds_of by lia. simpl. f_equal.
    destruct (Z.leb_spec (time b / 1000) ((timestamp - min_slot_boundary) / 1000));
      [rewrite bool_decide_true by lia|rewrite bool_decide_false by lia]; done.
  - by rewrite bool_decide_false by lia.
Qed.

Lemma dolos_latest s : dolos_ok s →
  ∃ b, b ∈ dolos_chain s ∧ block_no b = tip (dolos_chain s) ∧ content_of (blocks_latest (dolos_chain s)) b.
Proof.
  intros Hok. destruct (dolos_gapless s Hok (tip (dolos_chain s))) as (b & Hb & Hn).
  { split; [|done]. destruct (params_stability _ _ _ _ _ _ _ _ Hparams) as (? & ? & _). pose proof (dolos_long s Hok). lia. }
  exists b. split_and!; [done..|]. apply law_blocks_latest; [by apply dolos_representable|done| |done].
  intros b' Hb' Hn'. apply (wf_number _ _ (dolos_wf s Hok)); [done..|congruence].
Qed.

Lemma dolos_by_number s b : dolos_ok s → b ∈ dolos_chain s → content_of (blocks_by_number (dolos_chain s) (block_no b)) b.
Proof.
  intros Hok Hb. destruct (law_by_number (dolos_chain s) (block_no b) (dolos_representable s Hok)) as [(b' & Hb' & Hn & Hc)|[_ Hno]]; [|by destruct (Hno b)].
  assert (b' = b) as -> by (by apply (wf_number _ _ (dolos_wf s Hok))). done.
Qed.

Lemma content_of_fetch r b : content_of r b →
  ∃ c, r = Ok c ∧ from_block_content c = Ok (mainchain_block b).
Proof. unfold content_of, fetch. destruct r as [c|]; [|done]. simpl. eauto. Qed.
(** The loop finds the highest block in range. *)
Lemma latest_block_loop_spec s timestamp fuel n :
  dolos_ok s → dolos_supported timestamp → 0 ≤ n ≤ tip (dolos_chain s) → (Z.to_nat n < fuel)%nat →
  let found b := b ∈ dolos_chain s ∧ block_no b ≤ n ∧ first_time ≤ time b ∧ in_range timestamp b in
  ∃ r, get_latest_block_loop fuel (dolos_chain s) ((timestamp - max_slot_boundary) / 1000)
      (slot_of_time mainchain_epoch_config (timestamp - max_slot_boundary))
      ((timestamp - min_slot_boundary) / 1000)
      (slot_of_time mainchain_epoch_config (timestamp - min_slot_boundary)) n
    = Ret (Ok (mainchain_block <$> r)) ∧
    match r with
    | Some b => found b ∧ ∀ b', found b' → block_no b' ≤ block_no b
    | None => ∀ b, ¬ found b
    end.
Proof.
  intros Hok Hts. pose proof (dolos_wf s Hok) as Hwf. revert n. induction fuel as [|fuel IH]; intros n Hn Hf; [lia|].
  intros found. destruct (dolos_gapless s Hok n Hn) as (b & Hb & Hbn).
  destruct (content_of_fetch _ _ (dolos_by_number s b Hok Hb)) as (c & Hc & Hfrom). rewrite Hbn in Hc.
  cbn [get_latest_block_loop]. rewrite Hc. simpl. rewrite Hfrom. simpl.
  destruct (seconds_in_range _ b timestamp Hwf Hb Hts) as [Hlo Hhi].
  pose proof (slot_bounds_redundant _ _ _ _ _ _ _ _ Hparams (dolos_chain s) b (timestamp - max_slot_boundary)
    (timestamp - min_slot_boundary) Hwf Hb) as Hslots.
  assert (∀ b', b' ∈ dolos_chain s → block_no b' ≤ n → b' = b ∨ block_no b' ≤ n - 1) as Hbelow.
  { intros b' Hb' Hle. destruct (decide (block_no b' = n)); [|right; lia]. left.
    apply (wf_number _ _ Hwf); [done..|congruence]. }
  set (lo := slot_of_time mainchain_epoch_config (timestamp - max_slot_boundary)) in *.
  set (hi := slot_of_time mainchain_epoch_config (timestamp - min_slot_boundary)) in *.
  destruct (_ && _ && _) eqn:Hmatch.
  - exists (Some b). split; [done|].
    rewrite !andb_true_iff, !Z.leb_le in Hmatch. unfold found, time_in_range.
    split; [split_and!; [done|lia|tauto..]|]. intros b' (_ & Hle & _). lia.
  - assert (¬ found b) as Hnot.
    { intros (_ & _ & Hfirst & Hr). unfold time_in_range in Hr.
      destruct (proj2 Hslots) as (Hs1 & Hs2 & Ht1 & Ht2); [tauto|]. apply Hlo in Ht1. apply Hhi in Ht2.
      rewrite !andb_false_iff, !Z.leb_gt in Hmatch. lia. }
    destruct (_ || _ || _) eqn:Hstop.
    + exists None. split; [done|]. intros b' (Hb' & Hle & Hfirst & Hr).
      destruct (Hbelow b' Hb' Hle) as [->|Hlt]; [apply Hnot; by split_and!|].
      pose proof (wf_time _ _ Hwf b' b Hb' Hb ltac:(lia)) as Hmono. unfold time_in_range in Hr.
      rewrite !orb_true_iff, !Z.ltb_lt, Z.eqb_eq in Hstop.
      destruct (wf_block _ _ Hwf b' Hb') as ([Hpos _] & _).
      destruct Hstop as [[Hlow|Hlow]|Hzero]; [| |lia].
      * enough (¬ (time b / 1000 < (timestamp - max_slot_boundary) / 1000)) by done. apply Z.nlt_ge, Hlo. lia.
      * pose proof (wf_slot _ _ Hwf b Hb) as Hs. rewrite decide_True in Hs by lia.
        destruct (params_slots _ _ _ _ _ _ _ _ Hparams) as (Hd & _).
        enough (lo ≤ slot_no b) by lia. unfold lo, slot_of_time. rewrite Hs.
        apply Z.add_le_mono_l, Z.div_le_mono; lia.
    + rewrite !orb_false_iff, Z.eqb_neq in Hstop. rewrite Hbn in *.
      replace (sat_sub n 1) with (n - 1) by (unfold sat_sub; lia).
      destruct (IH (n - 1)) as (r & Hr & Hbest); [lia|lia|]. exists r. split; [done|].
      destruct r as [b'|].
      * destruct Hbest as ((Hb' & Hle & Hrest) & Hmax). split; [split_and!; [done|lia|apply Hrest..]|].
        intros b'' (Hb'' & Hle'' & Hrest''). destruct (Hbelow b'' Hb'' Hle'') as [->|Hlt]; [|by apply Hmax].
        exfalso. apply Hnot. split_and!; [done|lia|apply Hrest''..].
      * intros b'' (Hb'' & Hle'' & Hrest''). destruct (Hbelow b'' Hb'' Hle'') as [->|Hlt]; [|by apply (Hbest b'')].
        exfalso. apply Hnot. split_and!; [done|lia|apply Hrest''..].
Qed.

Lemma dolos_latest_stable_spec s timestamp : dolos_ok s → dolos_supported timestamp →
  ∃ r, dolos_latest_stable_block_for datetime_min datetime_max security_parameter min_slot_boundary max_slot_boundary
      mainchain_epoch_config block_stability_margin timestamp s = Ret (s, Ok (mainchain_block <$> r)) ∧
    match r with
    | Some b => select_ok (dolos_chain s) timestamp b ∧ ∀ b', select_ok (dolos_chain s) timestamp b' → block_no b' ≤ block_no b
    | None => ∀ b, ¬ select_ok (dolos_chain s) timestamp b
    end.
Proof.
  intros Hok Hts. destruct (allowed_times _ _ _ _ _ _ _ _ Hparams timestamp (proj1 Hts)) as [Hmin Hmax].
  destruct (params_stability _ _ _ _ _ _ _ _ Hparams) as (Hk & Hm & Hkm), (params_boundary _ _ _ _ _ _ _ _ Hparams).
  pose proof (dolos_long s Hok) as Hlong. destruct (dolos_latest s Hok) as (latest & Hl & Htip & Hc).
  destruct (content_of_fetch _ _ Hc) as (c & Hc' & Hfrom).
  pose proof (proj1 Hts) as [[Hts1 Hts2] Hts3].
  unfold dolos_latest_stable_block_for, timestamp_to_db_type, dolos_latest_block_info.
  rewrite (proj2 (Z.ltb_lt _ _)), (proj2 (Z.leb_le _ _)), Hc' by lia. simpl. rewrite Hfrom. simpl.
  rewrite Htip, wadd_exact by (unfold in_u, u_bound; lia).
  unfold dolos_latest_block. remember (S (Z.to_nat _)) as fuel eqn:Hfuel. rewrite Hmin. simpl. rewrite seconds_of by lia. simpl.
  rewrite (date_time_to_slot_spec _ _ _ _ _ _ _ _ Hparams) by lia. simpl.
  rewrite Hmax. simpl. rewrite seconds_of by lia. simpl.
  rewrite (date_time_to_slot_spec _ _ _ _ _ _ _ _ Hparams) by lia. cbn [fmap outcome_fmap map_err mbind outcome_bind].
  destruct (latest_block_loop_spec s timestamp fuel
    (sat_sub (tip (dolos_chain s)) (security_parameter + block_stability_margin)) Hok Hts) as (r & Hr & Hbest);
    [unfold sat_sub; lia|lia|].
  rewrite Hr. exists r. split; [done|].
  assert (∀ b, b ∈ dolos_chain s → (block_no b ≤ sat_sub (tip (dolos_chain s)) (security_parameter + block_stability_margin)
    ↔ confirmed (security_parameter + block_stability_margin) (dolos_chain s) b)) as Hconf.
  { intros b _. unfold confirmed, sat_sub. lia. }
  destruct r as [b|].
  - destruct Hbest as ((Hb & Hle & Hrest) & Hbest). split; [split_and!; [done|by apply Hconf|apply Hrest..]|].
    intros b' (Hb' & Hc1 & Hrest'). apply Hbest. split_and!; [done|by apply Hconf|apply Hrest'..].
  - intros b (Hb & Hc1 & Hrest). apply (Hbest b). split_and!; [done|by apply Hconf|apply Hrest..].
Qed.

Abbreviation stable_ok := (stable_at security_parameter min_slot_boundary max_slot_boundary).

Lemma dolos_fill_cache_spec s b :
  dolos_ok s → b ∈ dolos_chain s → confirmed security_parameter (dolos_chain s) b →
  ∃ s', dolos_fill_cache security_parameter cache_size (mainchain_block b) s = (s', Ok tt) ∧
    dolos_chain s' = dolos_chain s ∧ dolos_ok s'.
Proof.
  intros Hok Hb Hconf. pose proof (dolos_wf s Hok) as Hwf. destruct (dolos_latest s Hok) as (latest & Hl & Htip & Hc).
  unfold dolos_fill_cache. rewrite Hc. cbn [mainchain_block mb_number]. rewrite Htip.
  set (to := Z.min _ _). destruct (wf_block _ _ Hwf b Hb) as ([Hpos _] & _).
  assert (∀ blocks, (∀ mb, mb ∈ blocks → ∃ b, b ∈ dolos_chain s ∧ confirmed security_parameter (dolos_chain s) b ∧ mb = mainchain_block b) →
    dolos_ok (mkDolosSource (dolos_chain s) blocks)) as Hnew by (intros blocks Hbl; by destruct Hok).
  destruct (Z.ltb_spec (block_no b) to) as [Hlt|_].
  2:{ eexists. split; [done|]. split; [done|]. apply Hnew. intros mb ->%list_elem_of_singleton. by exists b. }
  assert (∀ ns, (∀ n, n ∈ ns → 0 ≤ n ∧ n + security_parameter ≤ tip (dolos_chain s)) →
    ∃ blocks, mapM (λ n, fetch (blocks_by_number (dolos_chain s) n)) ns = Ok blocks ∧
      ∀ mb, mb ∈ blocks → ∃ b, b ∈ dolos_chain s ∧ confirmed security_parameter (dolos_chain s) b ∧ mb = mainchain_block b) as Hmap.
  { induction ns as [|n ns IH]; intros Hns; [exists []; split; [done|]; intros ? []%not_elem_of_nil|].
    destruct (params_stability _ _ _ _ _ _ _ _ Hparams) as (Hk & _).
    destruct (Hns n ltac:(left)) as [Hn0 Hn1]. destruct (dolos_gapless s Hok n) as (b' & Hb' & Hbn); [lia|].
    destruct IH as (blocks & Hblocks & Hin); [intros n' ?; apply Hns; by right|].
    exists (mainchain_block b' :: blocks). split.
    - cbn [mapM]. pose proof (dolos_by_number s b' Hok Hb') as Hf. rewrite Hbn in Hf. unfold content_of in Hf. rewrite Hf. simpl.
      by rewrite Hblocks.
    - intros mb [->|Hmb]%elem_of_cons; [|by apply Hin]. exists b'. split_and!; [done| |done]. unfold confirmed. lia. }
  destruct (Hmap (seqZ (block_no b) (to - block_no b + 1))) as (blocks & Hblocks & Hin).
  { intros n Hn%elem_of_seqZ. unfold to, sat_sub in *. lia. }
  rewrite Hblocks. eexists. split; [done|]. split; [done|]. by apply Hnew.
Qed.

Lemma stable_found s h timestamp b0 mb : dolos_ok s →
  stable_ok (dolos_chain s) h timestamp b0 →
  Ok (E:=DolosError) (Some (mainchain_block b0)) = Ok (Some mb)
  ↔ ∃ b, stable_ok (dolos_chain s) h timestamp b ∧ mb = mainchain_block b.
Proof.
  intros Hok Hst. split; [intros [= <-]; by exists b0|]. intros (b & (Hb & Hh & _) & ->). destruct Hst as (Hb0 & Hh0 & _).
  do 3 f_equal. apply (wf_hash _ _ (dolos_wf s Hok)); [done..|congruence].
Qed.

Lemma dolos_from_db_spec s h timestamp : dolos_ok s → dolos_supported timestamp →
  ∃ r, dolos_stable_from_db datetime_min datetime_max security_parameter min_slot_boundary max_slot_boundary s h timestamp
      = Ret r ∧ ∀ mb, r = Ok (Some mb) ↔ ∃ b, stable_ok (dolos_chain s) h timestamp b ∧ mb = mainchain_block b.
Proof.
  intros Hok Hts. pose proof (dolos_wf s Hok) as Hwf. destruct (dolos_latest s Hok) as (latest & Hl & Htip & Hc).
  unfold dolos_stable_from_db. destruct (law_by_block_hash (dolos_chain s) h (dolos_representable s Hok)) as [(b0 & Hb0 & Hh0 & Hc0)|[[e He] Hno]].
  2:{ rewrite He. eexists. split; [done|]. intros mb. split; [done|]. intros (b & (Hb & Hh & _) & _). by destruct (Hno b). }
  assert (∀ b, stable_ok (dolos_chain s) h timestamp b → b = b0) as Hu.
  { intros b (Hb & Hh & _). apply (wf_hash _ _ Hwf); [done..|congruence]. }
  rewrite Hc0. cbn [mbind outcome_bind]. rewrite Hc. cbn [mbind outcome_bind mainchain_block mb_number]. rewrite Htip.
  fold (mainchain_block b0).
  destruct (wf_block _ _ Hwf b0 Hb0) as ([Hpos Hb31] & _). destruct (wf_block _ _ Hwf latest Hl) as ([_ Hl31] & _).
  rewrite Htip in Hl31.
  assert (sat_add 32 (block_no b0) security_parameter ≤ tip (dolos_chain s) ↔ confirmed security_parameter (dolos_chain s) b0) as Hiff.
  { unfold confirmed, sat_add, u_bound in *. lia. }
  destruct (Z.leb_spec (sat_add 32 (block_no b0) security_parameter) (tip (dolos_chain s))) as [Hle|Hgt].
  2:{ eexists. split; [done|]. intros mb. split; [done|]. intros (b & Hst & _).
      rewrite (Hu b Hst) in Hst. destruct Hst as (_ & _ & Hcf & _). apply Hiff in Hcf. lia. }
  rewrite (dolos_time_valid _ _ _ Hwf Hb0 Hts). cbn [mbind outcome_bind]. eexists. split; [done|]. intros mb.
  destruct (bool_decide_reflect (in_range timestamp b0)) as [Hr|Hr].
  - apply stable_found; [done|]. split_and!; [done..|by apply Hiff|done].
  - split; [done|]. intros (b & Hst & _). rewrite (Hu b Hst) in Hst. by destruct Hst as (_ & _ & _ & ?).
Qed.

(** What the node answers fills the cache. *)
Lemma dolos_serve s h timestamp r : dolos_ok s →
  (∀ mb, r = Ok (Some mb) ↔ ∃ b, stable_ok (dolos_chain s) h timestamp b ∧ mb = mainchain_block b) →
  ∃ s' r',
    match r with
    | Err e => Ret (s, Err e)
    | Ok None => Ret (s, Ok None)
    | Ok (Some block_by_hash) =>
        match dolos_fill_cache security_parameter cache_size block_by_hash s with
        | (s, Err e) => Ret (s, Err e)
        | (s, Ok _) => Ret (s, Ok (Some block_by_hash))
        end
    end = Ret (s', r') ∧ dolos_chain s' = dolos_chain s ∧ dolos_ok s' ∧
    ∀ mb, r' = Ok (Some mb) ↔ ∃ b, stable_ok (dolos_chain s) h timestamp b ∧ mb = mainchain_block b.
Proof.
  intros Hok Hr. destruct r as [[mb|]|e]; [|by eexists s, _|by eexists s, _].
  destruct (proj1 (Hr mb) eq_refl) as (b & (Hb & _ & Hc & _) & ->).
  destruct (dolos_fill_cache_spec s b Hok Hb Hc) as (s' & Hfill & Hch & Hok'). rewrite Hfill. by eexists s', _.
Qed.

Lemma dolos_stable_spec s h timestamp : dolos_ok s → dolos_supported timestamp →
  ∃ s' r, dolos_stable_block_for datetime_min datetime_max security_parameter min_slot_boundary max_slot_boundary
      cache_size h timestamp s = Ret (s', r) ∧ dolos_chain s' = dolos_chain s ∧ dolos_ok s' ∧
    ∀ mb, r = Ok (Some mb) ↔ ∃ b, stable_ok (dolos_chain s) h timestamp b ∧ mb = mainchain_block b.
Proof.
  intros Hok Hts. pose proof (dolos_wf s Hok) as Hwf. unfold dolos_stable_block_for, timestamp_to_db_type.
  pose proof (proj1 Hts) as [[Hts1 Hts2] Hts3]. rewrite (proj2 (Z.ltb_lt _ _)), (proj2 (Z.leb_le _ _)) by lia.
  rewrite (DS_bind_Ok _ _ s s timestamp) by done. unfold dolos_stable_block_by_hash, dolos_stable_from_cache.
  destruct (dolos_from_db_spec s h timestamp Hok Hts) as (r & Hdb & Hr).
  destruct (find_by_hash (blocks_cache s) h) as [mb0|] eqn:Hfind.
  2:{ cbn [mbind outcome_bind]. rewrite Hdb. by apply dolos_serve. }
  assert (mb0 ∈ filter (λ b, mb_hash b = h) (blocks_cache s)) as [Hh0 Hin]%list_elem_of_filter.
  { unfold find_by_hash in Hfind. destruct (filter _ _); [done|]. injection Hfind as ->. left. }
  destruct (dolos_cache_ok s Hok mb0 Hin) as (b0 & Hb0 & Hc0 & ->). rewrite (dolos_time_valid _ _ _ Hwf Hb0 Hts).
  cbn [mbind outcome_bind]. destruct (bool_decide_reflect (in_range timestamp b0)) as [Hrange|_].
  - eexists s, _. split_and!; [done..|]. intros mb. by apply stable_found.
  - rewrite Hdb. by apply dolos_serve.
Qed.

Lemma dolos_by_hash_spec s h : dolos_ok s →
  ∃ r, dolos_block_by_hash h s = Ret (s, r) ∧
    ∀ mb, r = Ok (Some mb) ↔ ∃ b, b ∈ dolos_chain s ∧ hash b = h ∧ mb = mainchain_block b.
Proof.
  intros Hok. unfold dolos_block_by_hash.
  assert (∀ b0 mb, b0 ∈ dolos_chain s → hash b0 = h → Ok (E:=DolosError) (Some (mainchain_block b0)) = Ok (Some mb)
    ↔ ∃ b, b ∈ dolos_chain s ∧ hash b = h ∧ mb = mainchain_block b) as Hfound.
  { intros b0 mb Hb0 Hh0. split; [intros [= <-]; by exists b0|]. intros (b & Hb & Hh & ->).
    do 3 f_equal. apply (wf_hash _ _ (dolos_wf s Hok)); [done..|congruence]. }
  destruct (find_by_hash (blocks_cache s) h) as [mb0|] eqn:Hfind.
  - assert (mb0 ∈ filter (λ b, mb_hash b = h) (blocks_cache s)) as [Hh0 Hin]%list_elem_of_filter.
    { unfold find_by_hash in Hfind. destruct (filter _ _); [done|]. injection Hfind as ->. left. }
    destruct (dolos_cache_ok s Hok mb0 Hin) as (b0 & Hb0 & _ & ->). eexists. split; [done|]. intros mb. by apply Hfound.
  - destruct (law_by_block_hash (dolos_chain s) h (dolos_representable s Hok)) as [(b0 & Hb0 & Hh0 & Hc0)|[[e He] Hno]].
    + rewrite Hc0. eexists. split; [done|]. intros mb. by apply Hfound.
    + rewrite He. eexists. split; [done|]. intros mb. split; [done|]. intros (b & Hb & Hh & _). by destruct (Hno b).
Qed.

(** The source keeps the promises of the interface. *)
Definition dolos_view : SourceView DolosBlockSource := mkView
  dolos_ok
  (λ s mb, ∃ b, b ∈ dolos_chain s ∧ mb = mainchain_block b)
  (λ s mb, ∃ b, b ∈ dolos_chain s ∧ confirmed security_parameter (dolos_chain s) b ∧ mb = mainchain_block b)
  (λ s mb, ∃ b, b ∈ dolos_chain s ∧ confirmed (security_parameter + block_stability_margin) (dolos_chain s) b ∧
     first_time ≤ time b ∧ mb = mainchain_block b)
  dolos_supported.

Lemma same_chain_unchanged s s' : dolos_ok s' → dolos_chain s' = dolos_chain s → unchanged dolos_view s s'.
Proof. intros Hok Hp. split; [done|]. simpl. intros b. by rewrite Hp. Qed.

#[local] Instance the_dolos_source : McHashDataSource DolosBlockSource DolosError :=
  dolos_block_source datetime_min datetime_max security_parameter min_slot_boundary max_slot_boundary
    mainchain_epoch_config block_stability_margin cache_size.

Lemma dolos_block_source_laws :
  McHashDataSourceLaws (S:=DolosBlockSource) (F:=DolosError) dolos_view min_slot_boundary max_slot_boundary.
Proof.
  split; simpl.
  - intros timestamp s Hok Hts. destruct (dolos_latest_stable_spec s timestamp Hok Hts) as (r & Hcall & Hr).
    exists s, (mainchain_block <$> r). split; [done|]. split; [by apply same_chain_unchanged|].
    pose proof (λ b, allowable_block min_slot_boundary max_slot_boundary mainchain_epoch_config
      (dolos_chain s) b timestamp (dolos_wf s Hok)) as Hall.
    destruct r as [b|]; simpl.
    + destruct Hr as [(Hb & Hc & Hf & Ht) Hmax]. split; [by exists b|]. split; [by apply Hall|].
      intros mb (b' & Hb' & Hc' & Hf' & ->) Ht'. apply Hmax. split_and!; [done..|]. by apply Hall.
    + intros mb (b & Hb & Hc & Hf & ->) Ht. apply (Hr b). split_and!; [done..|]. by apply Hall.
  - intros h timestamp s Hok Hts. destruct (dolos_stable_spec s h timestamp Hok Hts) as (s' & r & Hcall & Hp & Hok' & Hr).
    exists s', r. split; [done|]. split; [by apply same_chain_unchanged|]. intros mb. rewrite Hr. split.
    + intros (b & (Hb & Hh & Hc & Ht) & ->). split_and!; [by exists b|done|].
      by apply (allowable_block _ _ _ (dolos_chain s) b timestamp (dolos_wf s Hok)).
    + intros ((b & Hb & Hc & ->) & Hh & Ht). exists b. split; [|done]. split_and!; [done..|].
      by apply (allowable_block _ _ _ (dolos_chain s) b timestamp (dolos_wf s Hok)).
  - intros h s Hok. destruct (dolos_by_hash_spec s h Hok) as (r & Hcall & Hr).
    exists s, r. split; [done|]. split; [by apply same_chain_unchanged|]. intros mb. rewrite Hr. split.
    + intros (b & Hb & Hh & ->). split; [by exists b|done].
    + intros ((b & Hb & ->) & Hh). by exists b.
  - intros s mb Hok (b & Hb & Hc & _ & ->). exists b. split_and!; [done| |done].
    destruct (params_stability _ _ _ _ _ _ _ _ Hparams). unfold confirmed in *. lia.
  - intros s mb Hok (b & Hb & _ & ->). by exists b.
  - intros s mb mb' Hok (b & Hb & _ & ->) (b' & Hb' & _ & ->) Hle. simpl in *.
    apply Z.div_le_mono; [lia|]. by apply (wf_time _ _ (dolos_wf s Hok)).
Qed.
End Spec.

(** C9. The two sources of Cardano blocks are interchangeable.  On the same chain, if it
    has as many blocks as the security parameter and the margin require,
    and for timestamps whose bounds fall on whole seconds, the source over Dolos
    and the source over db-sync, each with its own cache, select the same block for
    an author and accept the same references from others. *)
Theorem dolos_matches_db_sync `{!Hex, !MiniBFBlocks, !MiniBFBlocksLaws} row_order datetime_min datetime_max
    security_parameter min_boundary max_boundary config margin cache_size
    (s : BlockDataSourceImpl) (d : DolosBlockSource) timestamp :
  source_params_wf row_order datetime_min datetime_max security_parameter min_boundary max_boundary config margin →
  block_source_ok security_parameter config margin s → dolos_ok security_parameter config margin d →
  pool s = dolos_chain d → dolos_supported datetime_max max_boundary timestamp →
  (∃ r,
    source_latest_stable_block_for row_order datetime_min datetime_max security_parameter min_boundary max_boundary
      config margin timestamp s = Ret (s, Ok r) ∧
    dolos_latest_stable_block_for datetime_min datetime_max security_parameter min_boundary max_boundary
      config margin timestamp d = Ret (d, Ok r)) ∧
  (∀ h, ∃ s' d' r r',
    source_stable_block_for row_order datetime_min datetime_max security_parameter min_boundary max_boundary
      cache_size h timestamp s = Ret (s', Ok r) ∧
    dolos_stable_block_for datetime_min datetime_max security_parameter min_boundary max_boundary
      cache_size h timestamp d = Ret (d', r') ∧
    (∀ mb, r' = Ok (Some mb) ↔ r = Some mb) ∧
    pool s' = pool s ∧ dolos_chain d' = dolos_chain d ∧
    block_source_ok security_parameter config margin s' ∧ dolos_ok security_parameter config margin d').
Proof.
  intros Hp Hs Hd Hsame Hts. split.
  - destruct (latest_stable_block_spec _ _ _ _ _ _ _ _ Hp s timestamp Hs (proj1 Hts)) as (r & Hcall & Hr).
    destruct (dolos_latest_stable_spec _ _ _ _ _ _ _ _ Hp d timestamp Hd Hts) as (r' & Hcall' & Hr').
    exists (mainchain_block <$> r). split; [done|]. rewrite Hcall'. do 3 f_equal. rewrite Hsame in Hr.
    destruct r as [b|], r' as [b'|]; simpl; [|by destruct (Hr' b); apply Hr|by destruct (Hr b'); apply Hr'|done].
    destruct Hr as [Hb Hbest], Hr' as [Hb' Hbest']. do 2 f_equal.
    apply (wf_number _ _ (dolos_wf _ _ _ d Hd)); [apply Hb'|apply Hb|]. pose proof (Hbest b' Hb'). pose proof (Hbest' b Hb). lia.
  - intros h. destruct (stable_block_spec _ _ _ _ _ _ _ _ cache_size Hp s h timestamp Hs (proj1 Hts)) as (s' & r & Hcall & Hpool & Hok & Hr).
    destruct (dolos_stable_spec _ _ _ _ _ _ _ _ cache_size Hp d h timestamp Hd Hts) as (d' & r' & Hcall' & Hchain & Hok' & Hr').
    exists s', d', (mainchain_block <$> r), r'. split_and!; try done. intros mb. rewrite Hr', fmap_Some, <-Hsame. clear -Hr. split.
    + intros (b & Hb%Hr & ->). by exists b.
    + intros (b & Hb%Hr & ->). by exists b.
Qed.

(** Reading all pages of a listing of the node ends, with exactly the listed
    items, one request after the last full page. *)
Theorem pagination_complete {T} (l : list T) (fuel : nat) :
  (length l / PAGE_COUNT < fuel)%nat → paginated_request_all fuel (pages l) = Ret (Ok l).
Proof.
  intros Hf. apply (paginated_request_loop_pages l fuel 0); [done| |simpl; lia].
  pose proof (Nat.div_mod (length l) PAGE_COUNT ltac:(done)). pose proof (Nat.mod_upper_bound (length l) PAGE_COUNT ltac:(done)).
  nia.
Qed.

(** ** Witnesses: a node that lists a chain *)

#[local] Existing Instances plain_hex plain_hex_laws.
Definition block_content (b : Block) : BlockContent :=
  mkBlockContent (Some (block_no b)) (hex_encode (hash b)) (Some (epoch_no b)) (Some (slot_no b)) (time b / 1000).
Definition answer (o : option Block) : result DolosError BlockContent := ok_or (block_content <$> o) DolosCallError.
#[local] Instance listed_blocks : MiniBFBlocks := {|
  blocks_latest l := answer (head (filter (λ b, block_no b = tip l) l));
  blocks_by_number l n := answer (head (filter (λ b, block_no b = n) l));
  blocks_by_hash l h := answer (head (filter (λ b, hash b = h) l));
|}.

Lemma block_content_of b : representable b → from_block_content (block_content b) = Ok (mainchain_block b).
Proof.
  intros [Hn He Hs Ht [Hh Hl]]. unfold from_block_content, block_content, decode_hex_array.
  cbn [bc_height bc_hash bc_epoch bc_slot bc_time]. rewrite from_hex_plain by done. simpl. rewrite decide_True by done. simpl.
  unfold in_u, u_bound in *. unfold wrap, u_bound. rewrite !Z.mod_small by lia. done.
Qed.
Lemma answer_head (P : Block → Prop) `{∀ b, Decision (P b)} l : Forall representable l →
  (∃ b, b ∈ l ∧ P b ∧ content_of (answer (head (filter P l))) b) ∨
  (∃ e, answer (head (filter P l)) = Err e) ∧ ∀ b, b ∈ l → ¬ P b.
Proof.
  intros Hrep. destruct (filter P l) as [|b l'] eqn:Hf.
  - right. split; [by eexists|]. intros b Hb HP.
    assert (b ∈ filter P l) as Hin by (by apply list_elem_of_filter). rewrite Hf in Hin. by apply not_elem_of_nil in Hin.
  - left. assert (b ∈ filter P l) as [HP Hb]%list_elem_of_filter by (rewrite Hf; left). exists b. split_and!; [done..|].
    unfold content_of, fetch. simpl. apply block_content_of. by eapply Forall_forall in Hrep.
Qed.
#[local] Instance listed_blocks_laws : MiniBFBlocksLaws.
Proof.
  split.
  - intros l b Hrep Hb Hu Htip. destruct (answer_head (λ b, block_no b = tip l) l Hrep) as [(b' & Hb' & Htip' & Hc)|[_ Hno]].
    + assert (b' = b) as -> by (by apply Hu). done.
    + by destruct (Hno b).
  - intros l n. apply (answer_head (λ b, block_no b = n)).
  - intros l h. apply (answer_head (λ b, hash b = h)).
Qed.

Lemma example_representable n : n ≤ 10 → Forall representable (example_chain n).
Proof.
  intros Hn. apply Forall_forall. intros b (i & -> & Hi)%elem_of_example_chain. unfold example_block, example_hash.
  split; cbn [block_no epoch_no slot_no time hash]; unfold in_u, u_bound; try lia.
  - rewrite Z.mul_comm, Z.div_mul by lia. lia.
  - split; [|by rewrite length_app, length_replicate]. apply Forall_app. split; [apply Forall_replicate; by vm_compute|].
    apply Forall_singleton. unfold is_byte, in_u. change (u_bound 8) with 256. lia.
Qed.

Definition example_dolos (n : Z) : DolosBlockSource := mkDolosSource (example_chain n) [].

Lemma example_dolos_ok n : 4 ≤ n ≤ 10 → dolos_ok 2 example_config 0 (example_dolos n).
Proof.
  intros Hn. destruct (example_source_ok n Hn) as [[Hwf _ _] Hlong]. split; [done|apply example_representable; lia| |done|].
  - intros i Hi. exists (example_block i). split; [|done]. apply elem_of_example_chain. exists i. split; [done|].
    simpl in Hi. enough (tip (example_chain n) ≤ n - 1) by lia.
    apply tip_le; [lia|]. intros b (j & -> & Hj)%elem_of_example_chain. simpl. lia.
  - intros mb []%not_elem_of_nil.
Qed.

Lemma dolos_matches_db_sync_witness :
  ∃ r, dolos_latest_stable_block_for (-1) (2 ^ 60) 2 2000 6000 example_config 0 8000 (example_dolos 7)
    = Ret (example_dolos 7, Ok r) ∧ r = Some (mainchain_block (example_block 4)).
Proof.
  destruct (dolos_matches_db_sync rows_as_stored (-1) (2 ^ 60) 2 2000 6000 example_config 0 100
    (BlockSource.example_source 7) (example_dolos 7) 8000) as [(r & Hdb & Hdolos) _].
  - apply example_params.
  - by apply example_source_ok.
  - by apply example_dolos_ok.
  - reflexivity.
  - split; [|by exists 2]. unfold supported_timestamp. lia.
  - exists r. split; [exact Hdolos|]. vm_compute in Hdb. injection Hdb as <-. reflexivity.
Defined.

Lemma pagination_complete_witness :
  paginated_request_all 3 (pages (seqZ 0 200)) = Ret (Ok (seqZ 0 200)).
Proof. apply (pagination_complete (seqZ 0 200) 3). vm_compute. lia. Defined.

(** Other timestamps: the bound is rounded down to a whole second, and a block that
    is up to a second too old is accepted. *)
Example dolos_accepts_older_block :
  (∃ s, source_stable_block_for rows_as_stored (-1) (2 ^ 60) 2 2000 6000 100 (example_hash 2) 8500
     (BlockSource.example_source 7) = Ret (s, Ok None)) ∧
  ∃ s, dolos_stable_block_for (-1) (2 ^ 60) 2 2000 6000 100 (example_hash 2) 8500 (example_dolos 7)
    = Ret (s, Ok (Some (mainchain_block (example_block 2)))).
Proof. split; eexists; vm_compute; reflexivity. Qed.

(** A hash that is not on the chain is an error instead of [None]. *)
Example dolos_unknown_hash_is_error :
  dolos_block_by_hash (example_hash 99) (example_dolos 7) = Ret (example_dolos 7, Err DolosCallError).
Proof. vm_compute. reflexivity. Qed.
