(* ===== verification/DolosSources.v ===== *)
(** * The Dolos sources of the Governed Map and of bridge transfers

    Models [toolkit/data-sources/dolos/src/governed_map.rs] and [bridge.rs]: the
    counterparts over a Dolos node of [GovernedMapSource] and of the data source
    of [Bridge], whose [utxo_to_transfer] and [ordering_key] the source repeats.
    The endpoints of the node and [PlutusData::from_hex] of the Cardano library
    are parameters.  Requests that are joined concurrently are made in order:
    they read one ledger, and only the choice among several errors could differ. *)

From S2P Require Import Prelude Domain PlutusData ContractDatums TextFormats GovernedMap DbSync Bridge DolosBlocks.

(** ** The node *)

(** The fields of the endpoints' answers that the sources read. *)
Record TxAmount := mkTxAmount { unit_of : bytes; quantity : bytes }.

Record AddressUtxo := mkAddressUtxo {
  au_tx_hash : bytes;
  au_tx_index : Z;
  au_block : bytes;
  au_amount : list TxAmount;
  au_inline_datum : option bytes;
}.

Record AssetTransaction := mkAssetTransaction { at_tx_hash : bytes; at_block_height : Z }.

Record TxContent := mkTxContent { tc_hash : bytes; tc_block_height : Z; tc_index : Z }.

Record TxInput := mkTxInput {
  ti_address : bytes;
  ti_amount : list TxAmount;
  ti_tx_hash : bytes;
  ti_output_index : Z;
}.
Record TxOutput := mkTxOutput {
  to_address : bytes;
  to_amount : list TxAmount;
  to_output_index : Z;
  to_inline_datum : option bytes;
}.
Record TxContentUtxo := mkTxContentUtxo { tu_inputs : list TxInput; tu_outputs : list TxOutput }.

Class MiniBF := {
  bf_blocks_by_hash : bytes → result DolosError BlockContent;
  bf_addresses_utxos : bytes → result DolosError (list AddressUtxo);
  bf_assets_transactions : bytes → result DolosError (list AssetTransaction);
  bf_transaction_by_hash : bytes → result DolosError TxContent;
  bf_transactions_utxos : bytes → result DolosError TxContentUtxo;
  plutus_from_hex : bytes → option Datum;
}.

(** [as i32] *)
Definition as_i32 (z : Z) : Z := let u := wrap 32 z in if u <? 2 ^ 31 then u else u - 2 ^ 32.

Section Sources.
Context {HX : Hex} {BF : MiniBF}.

(** The conversion of a value out of range is the default. *)
Definition block_number_of (block : BlockContent) : Z := default 0 (try_into 32 (default 0 (bc_height block))).

(** ** The Governed Map *)

Definition format_asset_unit (policy_id : bytes) : bytes := drop 2 (to_hex_string policy_id).

Definition parse_governed_map_datum (datum_hex : bytes) : outcome (option (bytes * bytes)) :=
  match plutus_from_hex datum_hex with
  | Some plutus_data =>
      r ← governed_map_datum_try_from plutus_data;
      Ret (match r with Ok datum => Some (entry_key datum, entry_value datum) | Err _ => None end)
  | None => Ret None
  end.

(** One round of the loop over the outputs at the address. *)
Definition map_utxo (asset_unit : bytes) (block_number : Z) (mappings : gmap bytes bytes) (utxo : AddressUtxo) :
    outcome (result DolosError (gmap bytes bytes)) :=
  match decode_hex_array 32 (au_tx_hash utxo) with
  | Err _ => Ret (Ok mappings)
  | Ok tx_hash =>
      tx ←? Ret (bf_transaction_by_hash tx_hash);
      if block_number <? wrap 32 (tc_block_height tx) then Ret (Ok mappings)
      else if negb (existsb (λ a, bool_decide (unit_of a = asset_unit)) (au_amount utxo)) then Ret (Ok mappings)
      else
        match au_inline_datum utxo with
        | None => Ret (Ok mappings)
        | Some datum_hex =>
            entry ← parse_governed_map_datum datum_hex;
            Ret (Ok (match entry with Some (key, value) => <[key := value]> mappings | None => mappings end))
        end
  end.

Fixpoint map_utxos (asset_unit : bytes) (block_number : Z) (utxos : list AddressUtxo) (mappings : gmap bytes bytes) :
    outcome (result DolosError (gmap bytes bytes)) :=
  match utxos with
  | [] => Ret (Ok mappings)
  | utxo :: utxos =>
      mappings ←? map_utxo asset_unit block_number mappings utxo;
      map_utxos asset_unit block_number utxos mappings
  end.

Definition dolos_state_at_block (mc_block : bytes) (scripts : MainChainScriptsV1) :
    outcome (result DolosError (gmap bytes bytes)) :=
  block ←? Ret (bf_blocks_by_hash mc_block);
  let utxos := match bf_addresses_utxos (validator_address scripts) with Ok utxos => utxos | Err _ => [] end in
  map_utxos (format_asset_unit (asset_policy_id scripts)) (block_number_of block) utxos ∅.

Definition dolos_mapping_changes (since_mc_block : option bytes) (up_to_mc_block : bytes) (scripts : MainChainScriptsV1) :
    outcome (result DolosError (list (bytes * option bytes))) :=
  current_mappings ←? dolos_state_at_block up_to_mc_block scripts;
  match since_mc_block with
  | None => Ret (Ok ((λ '(key, value), (key, Some value)) <$> btree_iter current_mappings))
  | Some since_mc_block =>
      previous_mappings ←? dolos_state_at_block since_mc_block scripts;
      Ret (Ok (filter_map (λ '(key, value),
                 if bool_decide (previous_mappings !! key = Some value) then None else Some (key, Some value))
                 (btree_iter current_mappings)
               ++ filter_map (λ key,
                 if bool_decide (is_Some (current_mappings !! key)) then None else Some (key, None))
                 (btree_iter previous_mappings).*1))
  end.

(** ** Bridge transfers *)

Definition format_asset_id (asset_id : Asset) : bytes :=
  drop 2 (to_hex_string (asset_policy asset_id)) ++ drop 2 (to_hex_string (asset_asset_name asset_id)).

Definition get_all_tokens (amount : list TxAmount) (asset_id : Asset) : outcome Z :=
  quantities ← mapM (M:=outcome) (λ v,
    if bool_decide (unit_of v = format_asset_id asset_id) then expect (uint_from_str 128 (quantity v)) else Ret 0) amount;
  Ret (foldl (wadd 128) 0 quantities).

(** [get_block_info_for_utxo] *)
Definition dolos_block_info_for_utxo (tx_hash : bytes) : result DolosError (option (Z * Z)) :=
  tx ← bf_transaction_by_hash tx_hash;
  Ok (Some (wrap 32 (tc_block_height tx), wrap 32 (tc_index tx))).

(** The transactions of the window, with their inputs and outputs. *)
Fixpoint window_transactions (from to : Z) (txs : list AssetTransaction) :
    outcome (result DolosError (list (TxContentUtxo * TxContent))) :=
  match txs with
  | [] => Ret (Ok [])
  | a :: txs =>
      let block_no := wrap 32 (at_block_height a) in
      if (from <? block_no) && (block_no <=? to) then
        tx_hash ← from_hex_unsafe (decode_hex_array 32) (at_tx_hash a);
        utxos ←? Ret (bf_transactions_utxos tx_hash);
        tx ←? Ret (bf_transaction_by_hash tx_hash);
        rest ←? window_transactions from to txs;
        Ret (Ok ((utxos, tx) :: rest))
      else window_transactions from to txs
  end.

(** Whether the guard of the [match] on the checkpoint drops an output. *)
Definition before_checkpoint (checkpoint : ResolvedBridgeDataCheckpoint) (tx : TxContent) (output : TxOutput) : bool :=
  match checkpoint with
  | ResolvedUtxo _ tx_ix tx_out_ix =>
      (tc_block_height tx <=? as_i32 tx_ix) && (to_output_index output <=? tx_out_ix)
  | ResolvedBlock _ => false
  end.

Definition bridge_output (icp_address : bytes) (native_token : Asset) (checkpoint : ResolvedBridgeDataCheckpoint)
    (utxos : TxContentUtxo) (tx : TxContent) (output : TxOutput) : outcome (option BridgeUtxo) :=
  output_tokens ← get_all_tokens (to_amount output) native_token;
  input_tokens ← mapM (M:=outcome) (λ input, get_all_tokens (ti_amount input) native_token)
                   (filter (λ i, ti_address i = icp_address) (tu_inputs utxos));
  if before_checkpoint checkpoint tx output then Ret None
  else
    datum ← match to_inline_datum output with
            | Some d => datum ← expect (plutus_from_hex d); Ret (Some datum)
            | None => Ret None
            end;
    tx_hash ← from_hex_unsafe (decode_hex_array 32) (tc_hash tx);
    Ret (Some (mkBridgeUtxo (wrap 32 (tc_block_height tx)) (wrap 32 (tc_index tx)) tx_hash
                 (wrap 16 (to_output_index output)) output_tokens (foldl (wadd 128) 0 input_tokens) datum)).

Definition bridge_outputs (icp_address : bytes) (native_token : Asset) (checkpoint : ResolvedBridgeDataCheckpoint)
    (entry : TxContentUtxo * TxContent) : outcome (list BridgeUtxo) :=
  rows ← mapM (M:=outcome) (bridge_output icp_address native_token checkpoint entry.1 entry.2)
           (filter (λ o, to_address o = icp_address) (tu_outputs entry.1));
  Ret (filter_map id rows).

(** [get_bridge_utxos_tx]; the address is compared as text. *)
Definition dolos_bridge_utxos_tx (icp_address : bytes) (native_token : Asset)
    (checkpoint : ResolvedBridgeDataCheckpoint) (to_block : Z) (max_utxos : option Z) :
    outcome (result DolosError (list BridgeUtxo)) :=
  txs ←? Ret (bf_assets_transactions (format_asset_id native_token));
  entries ←? window_transactions (get_block_number checkpoint) to_block txs;
  icp_address ← (if forallb (λ entry, is_empty (tu_outputs entry.1)) entries then Ret icp_address
                 else address_to_str icp_address);
  rows ← mapM (M:=outcome) (bridge_outputs icp_address native_token checkpoint) entries;
  let bridge_utxos := merge_sort utxo_le (mjoin rows) in
  Ret (Ok (match max_utxos with None => bridge_utxos | Some n => take (Z.to_nat n) bridge_utxos end)).

Definition dolos_get_transfers {R} (recipient_try_from : bytes → option R) (main_chain_scripts : MainChainScripts)
    (data_checkpoint : BridgeDataCheckpoint) (max_transfers : Z) (current_mc_block_hash : bytes) :
    outcome (result DolosError (list (BridgeTransferV1 R) * BridgeDataCheckpoint)) :=
  current_mc_block ←? Ret (bf_blocks_by_hash current_mc_block_hash);
  data_checkpoint ←?
    Ret (match data_checkpoint with
         | CheckpointUtxo utxo =>
             info ← dolos_block_info_for_utxo (tx_hash utxo);
             info ← ok_or info (DolosMessage "Could not find block info for data checkpoint");
             Ok (ResolvedUtxo info.1 info.2 (utxo_index utxo))
         | CheckpointBlock number => Ok (ResolvedBlock number)
         end);
  height ← expect (bc_height current_mc_block);
  let current_mc_block_height := wrap 32 height in
  utxos ←? dolos_bridge_utxos_tx (illiquid_circulation_supply_validator_address main_chain_scripts)
             (asset_of main_chain_scripts) data_checkpoint current_mc_block_height (Some max_transfers);
  let new_checkpoint :=
    match last utxos with
    | None => CheckpointBlock current_mc_block_height
    | Some utxo =>
        if Z.of_nat (length utxos) <? max_transfers then CheckpointBlock current_mc_block_height
        else CheckpointUtxo (utxo_id_of utxo)
    end in
  Ret (Ok (filter_map (utxo_to_transfer recipient_try_from) utxos, new_checkpoint)).
End Sources.

(** ** Lemmas *)

Lemma last_change_iff (l : list (bytes * option bytes)) k v : NoDup l.*1 → last_change k l = Some v ↔ (k, v) ∈ l.
Proof.
  induction l as [|[key value] l IH]; simpl.
  { intros _. split; [done|]. intros H. by apply elem_of_nil in H. }
  intros [Hkey Hnd]%NoDup_cons. rewrite elem_of_cons, <- (IH Hnd).
  assert (last_change key l = None) as Hnone.
  { destruct (last_change key l) as [w|] eqn:E; [exfalso; apply Hkey|done].
    assert (∀ l', last_change key l' = Some w → key ∈ l'.*1) as Hin; [|by apply Hin].
    clear. induction l' as [|[key' w'] l' IH]; simpl; [done|]. intros Hl. apply elem_of_cons.
    destruct (last_change key l'); [right; by apply IH|]. case_decide; [by left|done]. }
  destruct (decide (key = k)) as [->|Hne].
  - rewrite Hnone. split; [intros [= ->]; by left|]. intros [[= ->]|]; done.
  - split; [|intros [[= <- <-]|Hl]; [done|by rewrite Hl]]. destruct (last_change k l) as [w|]; [|done]. intros [= ->]. by right.
Qed.

(** A list of changes of distinct keys that lists just the differences between
    two states leads from one to the other. *)
Lemma apply_differences (changes : list (bytes * option bytes)) (previous current : gmap bytes bytes) :
  NoDup changes.*1 →
  (∀ k v, (k, v) ∈ changes ↔ current !! k = v ∧ previous !! k ≠ v) →
  apply_changes changes previous = current.
Proof.
  intros Hnd Hd. apply map_eq. intros k. rewrite lookup_apply_changes.
  destruct (last_change k changes) as [v|] eqn:E; simpl.
  - by apply (last_change_iff _ _ _ Hnd), Hd in E as [-> _].
  - destruct (decide (previous !! k = current !! k)) as [|Hne]; [done|].
    assert ((k, current !! k) ∈ changes) as Hin by (apply Hd; done).
    by rewrite (proj2 (last_change_iff _ _ _ Hnd) Hin) in E.
Qed.

(** The changes that the source lists, by keys. *)
Definition changes_between (previous current : gmap bytes bytes) : list (bytes * option bytes) :=
  filter_map (λ '(key, value),
    if bool_decide (previous !! key = Some value) then None else Some (key, Some value)) (btree_iter current)
  ++ filter_map (λ key,
    if bool_decide (is_Some (current !! key)) then None else Some (key, None)) (btree_iter previous).*1.

Lemma elem_of_changes_between previous current k v :
  (k, v) ∈ changes_between previous current ↔ current !! k = v ∧ previous !! k ≠ v.
Proof.
  unfold changes_between. rewrite elem_of_app, !elem_of_filter_map. split.
  - intros [([k' v'] & Hin%elem_of_btree_iter & Hc)|(k' & Hin & Hc)]; case_bool_decide as Hp; simplify_eq.
    + split; [done|]. congruence.
    + apply list_elem_of_fmap in Hin as ([k' v'] & -> & Hin%elem_of_btree_iter). simpl in *.
      rewrite <- eq_None_not_Some in Hp. split; [done|]. congruence.
  - intros [Hc Hp]. destruct v as [v|].
    + left. exists (k, v). split; [by apply elem_of_btree_iter|]. by rewrite bool_decide_false.
    + right. exists k. destruct (previous !! k) as [w|] eqn:Hw; [|done]. split.
      * apply list_elem_of_fmap. exists (k, w). split; [done|]. by apply elem_of_btree_iter.
      * rewrite bool_decide_false; [done|]. rewrite Hc. by intros [? ?].
Qed.

Lemma sublist_filter_map_keys {A B K} (f : A → option B) (key : A → K) (key' : B → K) l :
  (∀ x y, f x = Some y → key' y = key x) → sublist (key' <$> filter_map f l) (key <$> l).
Proof.
  intros Hf. induction l as [|x l IH]; simpl; [constructor|].
  destruct (f x) as [y|] eqn:E; simpl; [rewrite (Hf _ _ E)|]; by constructor.
Qed.

Lemma NoDup_changes_between previous current : NoDup (changes_between previous current).*1.
Proof.
  unfold changes_between. rewrite fmap_app. apply NoDup_app. split_and!.
  - eapply sublist_NoDup; [apply (NoDup_btree_iter_keys current)|].
    apply sublist_filter_map_keys. intros [k v] y H. by case_bool_decide; simplify_eq.
  - intros k ([k1 v1] & -> & H1)%list_elem_of_fmap ([k2 v2] & Hk & H2)%list_elem_of_fmap. simpl in *. subst.
    apply elem_of_filter_map in H1 as ([k v] & Hin%elem_of_btree_iter & H1).
    apply elem_of_filter_map in H2 as (k' & _ & H2).
    case_bool_decide; simplify_eq. case_bool_decide; simplify_eq. naive_solver.
  - eapply sublist_NoDup; [apply (NoDup_btree_iter_keys previous)|].
    rewrite <- (list_fmap_id (btree_iter previous).*1) at 2. apply sublist_filter_map_keys.
    intros k y H. by case_bool_decide; simplify_eq.
Qed.

(** ** Properties *)

(** The Dolos source of the Governed Map reports changes that fit its own
    states: whenever it has a state for both blocks (the empty one if there is no
    lower block) it does return a list of changes; applied to the lower state the
    list gives the upper one; and it is as short as possible: no key is changed
    twice, and it contains a change exactly for the keys whose value differs. *)
Theorem dolos_changes_lead {HX : Hex} {BF : MiniBF} since_mc_block up_to_mc_block scripts previous current :
  match since_mc_block with
  | None => previous = ∅
  | Some since_mc_block => dolos_state_at_block since_mc_block scripts = Ret (Ok previous)
  end →
  dolos_state_at_block up_to_mc_block scripts = Ret (Ok current) →
  ∃ changes,
    dolos_mapping_changes since_mc_block up_to_mc_block scripts = Ret (Ok changes) ∧
    apply_changes changes previous = current ∧
    NoDup changes.*1 ∧
    ∀ k v, (k, v) ∈ changes ↔ current !! k = v ∧ previous !! k ≠ v.
Proof.
  intros Hp Hc. unfold dolos_mapping_changes. rewrite Hc.
  assert (∃ changes, match since_mc_block with
    | None => changes = (λ '(key, value), (key, Some value)) <$> btree_iter current
    | Some _ => changes = changes_between previous current end ∧ NoDup changes.*1 ∧
    ∀ k v, (k, v) ∈ changes ↔ current !! k = v ∧ previous !! k ≠ v) as (changes & Hch & Hnd & Hd).
  { destruct since_mc_block as [b|].
    - exists (changes_between previous current). split; [done|].
      split; [apply NoDup_changes_between|]. apply elem_of_changes_between.
    - subst. eexists. split; [done|]. split.
      + rewrite <- list_fmap_compose. erewrite list_fmap_ext; [apply (NoDup_btree_iter_keys current)|].
        by intros _ [k v] _.
      + intros k v. rewrite list_elem_of_fmap, lookup_empty. split.
        * intros ([k' v'] & [= -> ->] & Hin%elem_of_btree_iter). done.
        * intros [Hk Hv]. destruct v as [v|]; [|done]. exists (k, v). split; [done|]. by apply elem_of_btree_iter. }
  exists changes. split; [|split; [by apply apply_differences|done]].
  destruct since_mc_block as [b|]; simpl; [rewrite Hp; simpl|]; by rewrite Hch.
Qed.

(** ** A node *)

(** Blocks 1 and 2 with one transaction each, and block 10 with two; a datum is
    written as its key and its value, and that of a transfer as one byte. *)
#[local] Existing Instance plain_hex.

Definition example_address : bytes := [97].
Definition example_policy : bytes := replicate 28 7.
Definition example_tx (i : Z) : bytes := replicate 32 i.
Definition example_amount : list TxAmount :=
  [mkTxAmount (drop 2 (to_hex_string example_policy)) [53]].
Definition example_utxo (i : Z) : AddressUtxo :=
  mkAddressUtxo (to_hex_string (example_tx i)) 0 [i] example_amount (Some [96 + i; i]).

#[local] Instance example_node (unspent : list AddressUtxo) : MiniBF := {|
  bf_blocks_by_hash h :=
    match h with [n] => Ok (mkBlockContent (Some n) h (Some 0) (Some n) n) | _ => Err DolosCallError end;
  bf_addresses_utxos _ := Ok unspent;
  bf_assets_transactions _ :=
    Ok [mkAssetTransaction (to_hex_string (example_tx 20)) 10; mkAssetTransaction (to_hex_string (example_tx 21)) 10];
  bf_transaction_by_hash h :=
    match h with
    | i :: _ => if i <? 20 then Ok (mkTxContent (to_hex_string h) i 0) else Ok (mkTxContent (to_hex_string h) 10 (i - 20))
    | [] => Err DolosCallError
    end;
  bf_transactions_utxos h :=
    Ok (mkTxContentUtxo [] [mkTxOutput example_address example_amount 0 (Some [1])]);
  plutus_from_hex s :=
    match s with
    | [k; v] => Some (governed_map_datum_to_plutus_data (mkGovernedMapDatum [k] [v]))
    | [_] => Some (token_transfer_to_plutus (UserTransferV1 [42]))
    | _ => None
    end;
|}.

Definition example_map_scripts : MainChainScriptsV1 := mkScriptsV1 example_address example_policy.

Lemma dolos_changes_lead_witness :
  ∃ changes,
    dolos_mapping_changes (BF:=example_node [example_utxo 1; example_utxo 2]) (Some [1]) [2] example_map_scripts
      = Ret (Ok changes) ∧
    apply_changes changes {[[97] := [1]]} = {[[97] := [1]; [98] := [2]]}.
Proof.
  destruct (dolos_changes_lead (BF:=example_node [example_utxo 1; example_utxo 2]) (Some [1]) [2]
    example_map_scripts {[[97] := [1]]} {[[97] := [1]; [98] := [2]]}) as (changes & Hr & Ha & _).
  - vm_compute. reflexivity.
  - vm_compute. reflexivity.
  - exists changes. split; [exact Hr|exact Ha].
Defined.

(** The state at a block is read from the outputs that are unspent now: once a
    later transaction spends one, the state at the same block lacks its entry. *)
Example dolos_state_forgets :
  dolos_state_at_block (BF:=example_node [example_utxo 1]) [1] example_map_scripts = Ret (Ok {[[97] := [1]]}) ∧
  dolos_state_at_block (BF:=example_node [example_utxo 2]) [1] example_map_scripts = Ret (Ok ∅).
Proof. split; vm_compute; reflexivity. Qed.

(** Two transfers in one block and room for one at a time: the second request
    starts from the first transfer, finds nothing and moves on to the block, so
    that the second transfer is never reported. *)
Example dolos_loses_transfer :
  let scripts := mkBridgeScripts example_policy [] example_address in
  let get := dolos_get_transfers (BF:=example_node []) (R:=bytes) Some scripts in
  get (CheckpointBlock 9) 2 [10] = Ret (Ok ([UserTransfer 5 [42]; UserTransfer 5 [42]],
                                            CheckpointUtxo (mkUtxoId (example_tx 21) 0))) ∧
  get (CheckpointBlock 9) 1 [10] = Ret (Ok ([UserTransfer 5 [42]], CheckpointUtxo (mkUtxoId (example_tx 20) 0))) ∧
  get (CheckpointUtxo (mkUtxoId (example_tx 20) 0)) 1 [10] = Ret (Ok ([], CheckpointBlock 10)).
Proof. split_and!; vm_compute; reflexivity. Qed.
