(* ===== verification/DolosCandidates.v ===== *)
(** * The Dolos sources of candidates and of stake delegations

    Models [toolkit/data-sources/dolos/src/candidate.rs] and
    [stake_distribution.rs]: the counterparts over a Dolos node of
    [CandidateSource], whose types and conversions ([make_registration_data],
    [get_stake_delegation], the registration of a datum) the source repeats, and
    of [StakeSource].  The Bech32 decoder is a parameter with the endpoints. *)

From S2P Require Import Prelude Domain PlutusData CandidateKeys ContractDatums TextFormats DbSync AuthoritySelection BlockProductionLog.
From S2P Require Import CandidateSource StakeSource DolosBlocks DolosSources.

(** A row of [epochs/{number}/stakes/{pool_id}], with its amount as text. *)
Record EpochStakePool := mkEpochStakePool { stake_address : bytes; amount : bytes }.

(** The endpoints that only these sources use.  [bf_blocks_by_text] is
    [blocks/{id}] for a hash taken from an answer; [bf_epoch_nonce] is the field
    [nonce] of [epochs/{number}/parameters]; the histories of pools are lists of
    epochs and active stakes. *)
Class MiniBFEpochs := {
  bf_blocks_by_number : Z → result DolosError BlockContent;
  bf_blocks_by_text : bytes → result DolosError BlockContent;
  bf_blocks_txs : bytes → result DolosError (list bytes);
  bf_epochs_blocks : Z → result DolosError (list bytes);
  bf_epoch_nonce : Z → result DolosError bytes;
  bf_epochs_stakes_by_pool : Z → bytes → result DolosError (list EpochStakePool);
  bf_pools_extended : result DolosError (list bytes);
  bf_pools_history : bytes → result DolosError (list (Z * bytes));
  bech32_decode : bytes → option bytes;
}.

Section Candidates.
Context {HX : Hex} {BF : MiniBF} {BE : MiniBFEpochs} (hash_order : ∀ A : Type, list A → list A)
  (from_vkey : bytes → bytes).

(** ** Ariadne parameters *)

(** The transactions up to the epoch; [Option]s compare with [None] first. *)
Fixpoint epoch_transactions (epoch : Z) (txs : list AssetTransaction) : outcome (result DolosError (list bytes)) :=
  match txs with
  | [] => Ret (Ok [])
  | x :: txs =>
      tx_hash ← from_hex_unsafe (decode_hex_array 32) (at_tx_hash x);
      tx ←? Ret (bf_transaction_by_hash tx_hash);
      block ←? Ret (bf_blocks_by_number (wrap 32 (tc_block_height tx)));
      rest ←? epoch_transactions epoch txs;
      Ret (Ok (if match bc_epoch block with None => true | Some e => e <=? as_i32 epoch end
               then tx_hash :: rest else rest))
  end.

Definition get_token_utxo_datum_for_epoch (policy_id : bytes) (epoch : Z) : outcome (result DolosError (option Datum)) :=
  asset_utxos ←? Ret (bf_assets_transactions (format_asset_id (mkAsset policy_id [])));
  tx_hashes ←? epoch_transactions epoch asset_utxos;
  tx_hash ←? Ret (ok_or (head tx_hashes) (DolosMessage "No policy utxo found after epoch"));
  utxos ←? Ret (bf_transactions_utxos tx_hash);
  let datum := head (filter_map (λ o,
    if existsb (λ a, bool_decide (unit_of a = format_asset_unit policy_id)) (to_amount o)
    then to_inline_datum o else None) (tu_outputs utxos)) in
  Ret (match datum with
       | Some datum => d ← ok_or (plutus_from_hex datum) (DolosMessage "from_hex"); Ok (Some d)
       | None => Ok None
       end).

Definition dolos_epoch_of_data_storage (epoch_of_data_usage : Z) : result DolosError Z :=
  map_err (λ _, DolosBadRequest) (offset_data_epoch epoch_of_data_usage).

Definition dolos_ariadne_parameters (epoch_number : Z) (d_parameter_policy permissioned_candidate_policy : bytes) :
    outcome (result DolosError AriadneParameters) :=
  epoch ←? Ret (dolos_epoch_of_data_storage epoch_number);
  candidates_output_opt ←? get_token_utxo_datum_for_epoch permissioned_candidate_policy epoch;
  d_output_opt ←? get_token_utxo_datum_for_epoch d_parameter_policy epoch;
  d_datum ←? Ret (ok_or d_output_opt DolosExpectedDataNotFound);
  d_parameter ←? Ret (map_err (λ _, DolosMessage "DParamDatum")
                        (d_param_from_datum <$> decode_with_legacy (T:=DParamDatum) d_datum));
  permissioned_candidates ←?
    Ret (match candidates_output_opt with
         | None => Ok None
         | Some candidates_datum =>
             candidates ← map_err (λ _, DolosMessage "PermissionedCandidateDatums")
               (permissioned_from_datums <$> decode_with_legacy (T:=PermissionedCandidateDatums) candidates_datum);
             Ok (Some candidates)
         end);
  Ret (Ok (mkAriadneParameters d_parameter permissioned_candidates)).

Definition dolos_epoch_nonce (epoch_number : Z) : result DolosError (option bytes) :=
  epoch ← dolos_epoch_of_data_storage epoch_number;
  nonce ← bf_epoch_nonce epoch;
  nonce ← map_err DolosDecodeError (decode_hex_vec nonce);
  Ok (Some nonce).

(** ** Registered candidates *)

Definition mckeyhash_from_bech32 (bech32_str : bytes) : result DolosError bytes :=
  val ← ok_or (bech32_decode bech32_str) (DolosMessage "bech32");
  ok_or (as_byte_array 28 val) (DolosMessage "failed to convert vec to array").

(** The position of the first transaction of that hash. *)
Fixpoint position_of (h : bytes) (txs : list bytes) : option Z :=
  match txs with
  | [] => None
  | tx :: txs => if bool_decide (tx = h) then Some 0 else Z.succ <$> position_of h txs
  end.

Definition dolos_tx_input (input : TxInput) : result DolosError UtxoId :=
  tx_hash ← map_err DolosDecodeError (decode_hex_array 32 (ti_tx_hash input));
  index ← ok_or (try_into 16 (ti_output_index input)) (DolosMessage "TryFromIntError");
  Ok (mkUtxoId tx_hash index).

Definition dolos_parse_candidate (output : AddressUtxo) : result DolosError ParsedCandidate :=
  datum_str ← ok_or (au_inline_datum output) (DolosMessage "Missing registration datum");
  datum ← ok_or (plutus_from_hex datum_str) (DolosMessage "Failed to parse datum string");
  tx_hash ← map_err DolosDecodeError (decode_hex_array 32 (au_tx_hash output));
  index ← ok_or (try_into 16 (au_tx_index output)) (DolosMessage "TryFromIntError");
  register_validator_datum ← map_err (λ _, DolosMessage "Invalid registration datum")
    (decode_with_legacy (T:=RegisterValidatorDatum) datum);
  block ← bf_blocks_by_text (au_block output);
  block_txs ← bf_blocks_txs (au_block output);
  tx_index_within_block ← ok_or (wrap 32 <$> position_of (au_tx_hash output) block_txs)
    (DolosMessage "output tx hash not found in blocks/txs response");
  utxos ← bf_transactions_utxos tx_hash;
  tx_inputs ← mapM (M:=result DolosError) dolos_tx_input (tu_inputs utxos);
  epoch ← ok_or (bc_epoch block) (DolosMessage "block epoch missing");
  height ← ok_or (bc_height block) (DolosMessage "block number missing");
  slot ← ok_or (bc_slot block) (DolosMessage "block slot missing");
  Ok (mkParsedCandidate
        (mkUtxoInfo (mkUtxoId tx_hash index) (wrap 32 epoch) (wrap 32 height) (wrap 64 slot) tx_index_within_block)
        register_validator_datum tx_inputs).

Definition dolos_parse_candidates (outputs : list AddressUtxo) : list ParsedCandidate :=
  filter_map (λ output, ok (dolos_parse_candidate output)) outputs.

Definition dolos_convert_utxos_to_candidates (outputs : list AddressUtxo) : list RegisteredCandidate :=
  to_registered_candidate <$> dolos_parse_candidates outputs.

Definition dolos_last_block_for_epoch (epoch_number : Z) : result DolosError (option BlockContent) :=
  blocks ← bf_epochs_blocks epoch_number;
  match last blocks with
  | Some block => content ← bf_blocks_by_text block; Ok (Some content)
  | None => Ok None
  end.

Definition registered_up_to (registrations_block_for_epoch : BlockContent) (utxo : AddressUtxo) :
    result DolosError bool :=
  block ← bf_blocks_by_text (au_block utxo);
  height ← ok_or (bc_height block) (DolosMessage "committee candidate block height missing");
  last_height ← ok_or (bc_height registrations_block_for_epoch)
    (DolosMessage "last_block_for_epoch block height missing");
  Ok (wrap 32 height <=? wrap 32 last_height).

Definition dolos_registered_candidates (epoch : Z) (committee_candidate_address : bytes) :
    result DolosError (list RegisteredCandidate) :=
  registrations_block_for_epoch_opt ← dolos_last_block_for_epoch epoch;
  utxos ← bf_addresses_utxos committee_candidate_address;
  active_utxos ←
    match registrations_block_for_epoch_opt with
    | Some registrations_block_for_epoch =>
        active ← mapM (M:=result DolosError) (registered_up_to registrations_block_for_epoch) utxos;
        Ok (filter_map (λ '(utxo, b), if (b : bool) then Some utxo else None) (zip utxos active))
    | None => Ok []
    end;
  Ok (dolos_convert_utxos_to_candidates active_utxos).

Definition pool_stake_entry (epoch : Z) (pool : bytes) : result DolosError (option StakePoolEntry) :=
  pool_id ← mckeyhash_from_bech32 pool;
  history ← bf_pools_history pool_id;
  match head (filter (λ h, h.1 = as_i32 epoch) history) with
  | Some e =>
      active_stake ← ok_or (uint_from_str 64 e.2) (DolosMessage "ParseIntError");
      Ok (Some (mkStakePoolEntry pool_id active_stake))
  | None => Ok None
  end.

Definition dolos_candidates (epoch_number : Z) (committee_candidate_address : bytes) :
    result DolosError (list CandidateRegistrations) :=
  epoch ← dolos_epoch_of_data_storage epoch_number;
  candidates ← dolos_registered_candidates epoch committee_candidate_address;
  pools ← bf_pools_extended;
  entries ← mapM (M:=result DolosError) (pool_stake_entry epoch) pools;
  let stake_map := make_stake_map (filter_map id entries) in
  Ok ((λ '(mainchain_pub_key, candidate_registrations),
         mkCandidateRegistrations mainchain_pub_key (make_registration_data <$> candidate_registrations)
           (get_stake_delegation from_vkey stake_map mainchain_pub_key))
        <$> group_candidates_by_mc_pub_key hash_order candidates).

(** ** Stake delegations *)

(** A stake address is 29 bytes, or its conversion panics. *)
Definition dolos_delegator_key (row : EpochStakePool) : outcome (result DolosError DelegatorKey) :=
  match bech32_decode (stake_address row) with
  | None => Ret (Err (DolosMessage "bech32"))
  | Some (tag :: rest) =>
      if (tag =? 224) || (tag =? 225) then
        rest ← expect (as_byte_array 28 rest); Ret (Ok (StakeKeyHash rest))
      else if (tag =? 240) || (tag =? 241) then
        rest ← expect (as_byte_array 28 rest); Ret (Ok (ScriptKeyHash rest (replicate 28 0)))
      else Ret (Err (DolosMessage "invalid stake address hash"))
  | Some [] => Ret (Err (DolosMessage "invalid stake address hash"))
  end.

Definition dolos_add_row (res : StakeDistribution) (pool_id : bytes) (stake : EpochStakePool) : outcome StakeDistribution :=
  key ← dolos_delegator_key stake;
  match key with
  | Ok delegator_key =>
      let pool := default (mkPoolDelegation 0 ∅) (res !! pool_id) in
      stake_amount ← expect (uint_from_str 64 (amount stake));
      let delegators := match delegators pool !! delegator_key with
                        | Some _ => delegators pool
                        | None => <[delegator_key := stake_amount]> (delegators pool)
                        end in
      Ret (<[pool_id := mkPoolDelegation (wadd 64 (total_stake pool) stake_amount) delegators]> res)
  | Err _ => Ret res
  end.

Fixpoint dolos_add_rows (rows : list (bytes * EpochStakePool)) (res : StakeDistribution) : outcome StakeDistribution :=
  match rows with
  | [] => Ret res
  | (pool_id, stake) :: rows => res ← dolos_add_row res pool_id stake; dolos_add_rows rows res
  end.
Definition dolos_rows_to_distribution (rows : list (bytes * EpochStakePool)) : outcome StakeDistribution :=
  dolos_add_rows rows ∅.

Definition pool_rows (epoch_number : Z) (pool_id : bytes) : result DolosError (list (bytes * EpochStakePool)) :=
  ss ← bf_epochs_stakes_by_pool epoch_number pool_id;
  Ok (fmap (M:=list) (λ s, (pool_id, s)) ss).

Definition dolos_stake_distribution (epoch_number : Z) (pool_hashes : list bytes) :
    outcome (result DolosError StakeDistribution) :=
  pools ←? Ret (mapM (M:=result DolosError) (pool_rows epoch_number) pool_hashes);
  distribution ← dolos_rows_to_distribution (mjoin pools);
  Ret (Ok distribution).
End Candidates.

(** ** The distribution of stake *)

(** A row of the node shows a row of the ledger. *)
Definition row_shows {BE : MiniBFEpochs} (p : bytes) (r : EpochStakePool) (d : StakePoolDelegationOutputRow) : Prop :=
  pool_hash_raw d = p ∧
  bech32_decode (stake_address r) = Some (stake_address_hash_raw d) ∧
  uint_from_str 64 (amount r) = Some (epoch_stake_amount d).

(** The ledger's rows of a pool in an epoch. *)
Definition ledger_rows (table : EpochStakeTable) (epoch : Z) (p : bytes) : list StakePoolDelegationOutputRow :=
  snd <$> filter (λ r, r.1 = epoch ∧ 0 < epoch_stake_amount r.2 ∧ pool_hash_raw r.2 = p) table.

(** The node answers with the rows of its ledger in some order. *)
Definition node_stakes {BE : MiniBFEpochs} (table : EpochStakeTable) : Prop :=
  ∀ epoch p, ∃ rows shown, bf_epochs_stakes_by_pool epoch p = Ok rows ∧
    Forall2 (row_shows p) rows shown ∧ shown ≡ₚ ledger_rows table epoch p.

(** Addresses are 29 bytes, and none is of a script. *)
Definition no_script_delegators (table : EpochStakeTable) : Prop :=
  ∀ r, r ∈ table → ∃ tag rest, stake_address_hash_raw r.2 = tag :: rest ∧ length rest = 28%nat ∧
    tag ≠ 240 ∧ tag ≠ 241.

Section StakeLemmas.
Context {BE : MiniBFEpochs}.

Lemma dolos_add_row_shows res p r d tag rest :
  row_shows p r d → stake_address_hash_raw d = tag :: rest → length rest = 28%nat → tag ≠ 240 → tag ≠ 241 →
  dolos_add_row res p r = Ret (add_row res d).
Proof.
  intros (Hp & Hb & Ha) Hraw Hlen H0 H1. unfold dolos_add_row, dolos_delegator_key, add_row, get_delegator_key.
  rewrite Hb, Hraw, Ha, Hp. unfold as_byte_array. rewrite decide_True by done.
  apply Z.eqb_neq in H0 as ->, H1 as ->. simpl. by destruct ((tag =? 224) || (tag =? 225)).
Qed.

Lemma dolos_add_rows_show (rows : list (bytes * EpochStakePool)) shown : ∀ res,
  Forall2 (λ pr d, row_shows pr.1 pr.2 d) rows shown →
  (∀ d, d ∈ shown → ∃ tag rest, stake_address_hash_raw d = tag :: rest ∧ length rest = 28%nat ∧ tag ≠ 240 ∧ tag ≠ 241) →
  dolos_add_rows rows res = Ret (foldl add_row res shown).
Proof.
  intros res Hs. revert res. induction Hs as [|[p r] d rows shown Hr Hs IH]; intros res Hk; [done|]. simpl.
  destruct (Hk d) as (tag & rest & Hraw & Hlen & H0 & H1); [by left|].
  rewrite (dolos_add_row_shows res p r d tag rest) by done. simpl. apply IH. intros d' Hd. apply Hk. by right.
Qed.

(** The rows that are asked for show the rows of the pools in the ledger. *)
Lemma pool_rows_show table epoch pools :
  node_stakes table → NoDup pools →
  ∃ rows shown, mapM (M:=result DolosError) (pool_rows epoch) pools = Ok rows ∧
    Forall2 (λ pr d, row_shows pr.1 pr.2 d) (mjoin rows) shown ∧
    shown ≡ₚ get_stake_pool_delegations_for_pools (λ _ l, l) table epoch pools.
Proof.
  intros Hn. unfold get_stake_pool_delegations_for_pools. induction pools as [|p pools IH].
  { intros _. exists [], []. clear Hn. split; [done|]. split; [constructor|].
    induction table as [|r table IH]; [done|]. rewrite filter_cons, decide_False; [done|].
    intros (_ & _ & Hin). by apply elem_of_nil in Hin. }
  intros [Hp Hnd]%NoDup_cons. destruct (IH Hnd) as (rows & shown & Hm & Hs & Hperm).
  destruct (Hn epoch p) as (prows & pshown & Hc & Hps & Hpperm).
  exists (((λ s, (p, s)) <$> prows) :: rows), (pshown ++ shown). split; [|split].
  - assert (pool_rows epoch p = Ok ((λ s, (p, s)) <$> prows)) as Hpr by (unfold pool_rows; by rewrite Hc).
    simpl. rewrite Hpr. simpl. by rewrite Hm.
  - simpl. apply Forall2_app; [|done]. apply Forall2_fmap_l. eapply Forall2_impl; [done|]. done.
  - rewrite Hperm, Hpperm. unfold ledger_rows. rewrite <- fmap_app. apply fmap_Permutation.
    clear -Hp. induction table as [|r table IH]; [done|]. rewrite !filter_cons.
    destruct (decide (r.1 = epoch ∧ 0 < epoch_stake_amount r.2 ∧ pool_hash_raw r.2 = p)) as [(He & Ha & Hr)|Hno].
    + rewrite decide_False by (rewrite Hr; tauto).
      rewrite decide_True by (split_and!; [done|done|rewrite Hr; by left]). simpl. by constructor.
    + destruct (decide (r.1 = epoch ∧ 0 < epoch_stake_amount r.2 ∧ pool_hash_raw r.2 ∈ pools)) as [(He & Ha & Hr)|Hno'].
      * rewrite decide_True by (split_and!; [done|done|by right]). rewrite <- IH.
        symmetry. apply Permutation_middle.
      * rewrite decide_False; [done|]. rewrite elem_of_cons. tauto.
Qed.
End StakeLemmas.

(** The two sources of stake delegations agree: if the node's ledger has
    the rows of the database and no delegator is a script, then for distinct
    pools the Dolos source does answer, and with the distribution that the
    db-sync source gives whatever valid cache it has. *)
Theorem dolos_stake_matches_db_sync {BE : MiniBFEpochs} {C : Type}
    `{!Lru C (Z * bytes) PoolDelegation, !LruLaws C (Z * bytes) PoolDelegation}
    row_order table epoch pools (cache : C) :
  (∀ A (l : list A), row_order A l ≡ₚ l) → stake_table_wf table → stake_cache_ok table cache →
  node_stakes table → no_script_delegators table → NoDup pools →
  ∃ cache' distribution,
    dolos_stake_distribution epoch pools = Ret (Ok distribution) ∧
    get_stake_pool_delegation_distribution_for_pools row_order table epoch pools cache = (cache', distribution).
Proof.
  intros Hrows Hwf Hok Hnode Hscript Hnd.
  destruct (pool_rows_show table epoch pools Hnode Hnd) as (rows & shown & Hm & Hs & Hperm).
  pose proof (stake_source_spec row_order table epoch pools cache Hrows Hwf Hok) as Hdb.
  destruct (get_stake_pool_delegation_distribution_for_pools row_order table epoch pools cache) as [cache' dist].
  exists cache', dist. split; [|done]. destruct Hdb as [_ Hdb].
  unfold dolos_stake_distribution. rewrite Hm. cbn. unfold dolos_rows_to_distribution.
  rewrite (dolos_add_rows_show _ shown ∅ Hs).
  - cbn. do 2 f_equal. apply map_eq. intros p. rewrite Hdb.
    apply distribution_of_delegations; [done|]. rewrite <- (queried_delegations (λ _ l, l)) by done.
    unfold row_delegations. by rewrite Hperm.
  - intros d Hd. rewrite Hperm in Hd. apply list_elem_of_fmap in Hd as (r & -> & Hr).
    apply list_elem_of_filter in Hr as [_ Hr]. by apply Hscript.
Qed.

(** ** A node *)

#[local] Existing Instances plain_hex list_lru list_lru_laws.

Definition example_key_address : bytes := 224 :: replicate 28 7.
Definition example_script_address : bytes := 240 :: replicate 28 8.

(** Pool [1] has one delegator in epoch 5; addresses are written as they are. *)
Definition example_epochs (address : bytes) : MiniBFEpochs := {|
  bf_blocks_by_number n := Ok (mkBlockContent (Some n) [] (Some n) (Some n) n);
  bf_blocks_by_text _ := Err DolosCallError;
  bf_blocks_txs _ := Err DolosCallError;
  bf_epochs_blocks _ := Ok [];
  bf_epoch_nonce _ := Err DolosCallError;
  bf_epochs_stakes_by_pool e p :=
    Ok (if decide (e = 5 ∧ p = [1]) then [mkEpochStakePool address [54; 48]] else []);
  bf_pools_extended := Ok [];
  bf_pools_history _ := Ok [];
  bech32_decode s := Some s;
|}.

Definition example_table : EpochStakeTable := [(5, mkDelegationRow 60 [1] example_key_address None)].

Lemma example_table_delegations epoch p :
  delegations example_table epoch p
  = if decide (epoch = 5 ∧ p = [1]) then [(StakeKeyHash (replicate 28 7), 60)] else [].
Proof. unfold delegations, example_table. simpl. repeat case_decide; naive_solver. Qed.

Lemma example_table_wf : stake_table_wf example_table.
Proof.
  split; intros epoch p; rewrite example_table_delegations; case_decide; simpl; try (vm_compute; reflexivity).
  - apply NoDup_singleton.
  - apply NoDup_nil_2.
Qed.

Lemma example_node_stakes : node_stakes (BE:=example_epochs example_key_address) example_table.
Proof.
  intros epoch p. unfold example_epochs, ledger_rows, example_table. simpl.
  rewrite filter_cons, filter_nil. simpl. destruct (decide (epoch = 5 ∧ p = [1])) as [[-> ->]|Hno].
  - eexists _, [mkDelegationRow 60 [1] example_key_address None]. split; [done|]. split; [|done].
    repeat constructor.
  - eexists _, []. split; [done|]. split; [constructor|]. rewrite decide_False; [done|]. naive_solver.
Qed.

Lemma dolos_stake_matches_db_sync_witness :
  ∃ (cache : list (Z * bytes * PoolDelegation)) distribution,
    dolos_stake_distribution (BE:=example_epochs example_key_address) 5 [[1]; [2]] = Ret (Ok distribution) ∧
    get_stake_pool_delegation_distribution_for_pools (λ _ l, l) example_table 5 [[1]; [2]] []
      = (cache, distribution).
Proof.
  apply (dolos_stake_matches_db_sync (BE:=example_epochs example_key_address)
    (C:=list (Z * bytes * PoolDelegation)) (λ _ l, l) example_table 5 [[1]; [2]] []).
  - done.
  - exact example_table_wf.
  - by intros ???.
  - exact example_node_stakes.
  - intros r Hr. apply list_elem_of_singleton in Hr as ->. by eexists _, _.
  - apply NoDup_cons. split; [|apply NoDup_singleton]. intros Hin. by apply list_elem_of_singleton in Hin.
Defined.

(** The hash of a script delegator is lost: the Dolos source gives zeros. *)
Example dolos_script_hash_zero :
  dolos_delegator_key (BE:=example_epochs []) (mkEpochStakePool example_script_address [54; 48])
    = Ret (Ok (ScriptKeyHash (replicate 28 8) (replicate 28 0))) ∧
  get_delegator_key (mkDelegationRow 60 [1] example_script_address (Some (replicate 28 8)))
    = Ok (ScriptKeyHash (replicate 28 8) (replicate 28 8)).
Proof. split; vm_compute; reflexivity. Qed.

(** Pools that are asked for twice are counted twice. *)
Example dolos_pool_twice :
  match dolos_stake_distribution (BE:=example_epochs example_key_address) 5 [[1]; [1]] with
  | Ret (Ok distribution) => total_stake <$> distribution !! [1]
  | _ => None
  end = Some 120.
Proof. vm_compute. reflexivity. Qed.

(** The token of a policy moves with each update of its datum.  The transactions
    of the asset come with the oldest first, and the source takes the first one:
    after an update it still answers with the datum that was replaced. *)
#[local] Instance example_updates : MiniBF := {|
  bf_blocks_by_hash _ := Err DolosCallError;
  bf_addresses_utxos _ := Ok [];
  bf_assets_transactions _ :=
    Ok [mkAssetTransaction (to_hex_string (example_tx 1)) 1; mkAssetTransaction (to_hex_string (example_tx 2)) 2];
  bf_transaction_by_hash h := match h with i :: _ => Ok (mkTxContent (to_hex_string h) i 0) | [] => Err DolosCallError end;
  bf_transactions_utxos h :=
    Ok (mkTxContentUtxo [] [mkTxOutput example_address example_amount 0 (Some (take 1 h))]);
  plutus_from_hex s := match s with [i] => Some (IntegerDatum i) | _ => None end;
|}.

Example dolos_reads_oldest_datum :
  get_token_utxo_datum_for_epoch (BE:=example_epochs []) example_policy 2 = Ret (Ok (Some (IntegerDatum 1))).
Proof. vm_compute. reflexivity. Qed.
