(* ===== verification/AuraConsensus.v ===== *)
(** * Aura with an inherent digest

    Models [substrate-extensions/aura]: a block carries in its header a value taken
    from its inherent data ([InherentDigest] of [primitives]).  The proposer
    appends it to the digest ([block_proposal.rs]), the verifier of the import
    queue reads it back and passes it, with the slot, to the creation of the
    inherent data that the block is checked against ([import_queue.rs]), and the
    slot worker makes the blocks ([consensus/src/lib.rs]).

    The Aura functions of the Substrate libraries, the client and the runtime are
    parameters: the record [AuraClient]. *)

From S2P Require Import Prelude Domain McHash.

(** A header of [sp_runtime]: its number, the hash of its parent, the state and
    extrinsics roots and the items of its digest. *)
Record Header := mkHeader {
  number : Z;
  parent_hash : bytes;
  roots : bytes * bytes;
  logs : list DigestItem;
}.

(** ** The digest and the proposer *)

(** [D] is the inherent data, [V] the value. *)
Class InherentDigest (D V E : Type) := {
  digest_from_inherent_data : D → result E (list DigestItem);
  digest_value : list DigestItem → result E V;
}.

(** The implementation for [()]. *)
#[export] Instance unit_digest D E : InherentDigest D unit E := {|
  digest_from_inherent_data _ := Ok [];
  digest_value _ := Ok tt;
|}.

(** [McHashInherentDigest], for inherent data from which [mc_hash_of] reads what is
    stored under the identifier of the main chain hash. *)
Definition mc_hash_digest {D F} (mc_hash_of : D → result F (option bytes)) :
    InherentDigest D bytes (InherentDigestError F + DigestValueError) := {|
  digest_from_inherent_data data := map_err inl (from_inherent_data (mc_hash_of data));
  digest_value logs := map_err inr (value_from_digest logs);
|}.

(** [PartnerChainsProposer::propose]; [propose_inner] is the wrapped proposer, which
    takes the inherent data, the digest, the maximal duration and the size limit. *)
Definition propose `{InherentDigest D V E} {Proposal} (propose_inner : D → list DigestItem → Z → option Z → Proposal)
    (inherent_data : D) (inherent_digests : list DigestItem) (max_duration : Z) (block_size_limit : option Z) :
    outcome Proposal :=
  inherent_logs ← expect (ok (digest_from_inherent_data inherent_data));
  Ret (propose_inner inherent_data (inherent_digests ++ inherent_logs) max_duration block_size_limit).

(** ** Third-party functions *)

Inductive SealVerificationError (Pre : Type) :=
  | Deferred (header : Header) (slot : Z)
  | Unsealed
  | BadSeal
  | BadSignature
  | SlotAuthorNotFound
  | InvalidPreDigest (e : Pre).
Arguments Deferred {Pre} header slot.
Arguments Unsealed {Pre}.
Arguments BadSeal {Pre}.
Arguments BadSignature {Pre}.
Arguments SlotAuthorNotFound {Pre}.
Arguments InvalidPreDigest {Pre} e.

(** [X] is the auxiliary store of the node, [A] an authority, [B] a body, [SA] a state
    action, [O] the changes [initialize_block] makes to a runtime instance, [IDP] the
    inherent data providers, [D] the inherent data and [E] an error. *)
Record AuraClient (X A B SA O IDP D E : Type) := mkAuraClient {
  header_hash : Header → bytes;
  with_state : SA → bool;
  skip_execution_checks : SA → bool;
  initialize_block : bytes → Header → result E O;
  api_authorities : option O → bytes → result E (list A);
  check_header_slot_and_seal : Z → Header → list A → result (SealVerificationError E) (Header * Z * DigestItem);
  slot_author : Z → list A → option A;
  check_equivocation : Z → Z → Header → A → DS X E (option (Header * Header));
  block_builder_api_at_least_2 : bytes → result E bool;
  create_inherent_data : IDP → result E D;
  check_inherents_with_data : bytes → Header → B → IDP → D → result E unit;
}.
Arguments mkAuraClient {X A B SA O IDP D E} _ _ _ _ _ _ _ _ _ _ _.
Arguments header_hash {X A B SA O IDP D E} _ _.
Arguments with_state {X A B SA O IDP D E} _ _.
Arguments skip_execution_checks {X A B SA O IDP D E} _ _.
Arguments initialize_block {X A B SA O IDP D E} _ _ _.
Arguments api_authorities {X A B SA O IDP D E} _ _ _.
Arguments check_header_slot_and_seal {X A B SA O IDP D E} _ _ _ _.
Arguments slot_author {X A B SA O IDP D E} _ _ _.
Arguments check_equivocation {X A B SA O IDP D E} _ _ _ _ _.
Arguments block_builder_api_at_least_2 {X A B SA O IDP D E} _ _.
Arguments create_inherent_data {X A B SA O IDP D E} _ _.
Arguments check_inherents_with_data {X A B SA O IDP D E} _ _ _ _ _ _.

Inductive ForkChoiceStrategy := LongestChain | Custom (b : bool).

Record BlockImportParams (B SA : Type) := mkImport {
  header : Header;
  body : option B;
  post_digests : list DigestItem;
  state_action : SA;
  fork_choice : option ForkChoiceStrategy;
  post_hash : option bytes;
}.
Arguments mkImport {B SA} _ _ _ _ _ _.
Arguments header {B SA} _.
Arguments body {B SA} _.
Arguments post_digests {B SA} _.
Arguments state_action {B SA} _.
Arguments fork_choice {B SA} _.
Arguments post_hash {B SA} _.

Inductive CompatibilityMode := NoCompatibility | UseInitializeBlock (until : Z).

(** The error of [authorities]. *)
Inductive ConsensusError := InvalidAuthoritiesSet.

(** The errors of [check_header]. *)
Inductive HeaderError (E : Type) :=
  | Client (e : E)
  | HeaderUnsealed (hash : bytes)
  | HeaderBadSeal (hash : bytes)
  | HeaderBadSignature (hash : bytes)
  | HeaderSlotAuthorNotFound
  | PreDigest (e : E).
Arguments Client {E} e.
Arguments HeaderUnsealed {E} hash.
Arguments HeaderBadSeal {E} hash.
Arguments HeaderBadSignature {E} hash.
Arguments HeaderSlotAuthorNotFound {E}.
Arguments PreDigest {E} e.

Inductive CheckedHeader :=
  | Checked (header : Header) (slot : Z) (seal : DigestItem)
  | CheckDeferred (header : Header) (slot : Z).

(** The messages of [verify]. *)
Inductive VerifyError (E C I : Type) :=
  | CouldNotFetchAuthorities (parent : bytes) (e : ConsensusError)
  | HeaderRejected (e : HeaderError E)
  | NoDigestValue (parent : bytes) (e : I)
  | CidpError (e : C)
  | RuntimeError (e : E)
  | InherentsRejected (e : E)
  | TooFarInTheFuture (hash : bytes).
Arguments CouldNotFetchAuthorities {E C I} parent e.
Arguments HeaderRejected {E C I} e.
Arguments NoDigestValue {E C I} parent e.
Arguments CidpError {E C I} e.
Arguments RuntimeError {E C I} e.
Arguments InherentsRejected {E C I} e.
Arguments TooFarInTheFuture {E C I} hash.

(** ** The import queue

    The state of the importing node: its data sources and the auxiliary store. *)

Definition on_source {S X E A} (m : DS S E A) : DS (S * X) E A := λ '(s, x),
  '(s, r) ← m s; Ret ((s, x), r).
Definition on_aux {S X E A} (m : DS X E A) : DS (S * X) E A := λ '(s, x),
  '(x, r) ← m x; Ret ((s, x), r).

Section Verifier.
Context {S X A B SA O IDP D V E C I : Type} `{!InherentDigest D V I}.
Context (client : AuraClient X A B SA O IDP D E) (compatibility_mode : CompatibilityMode).

Definition authorities (parent_hash : bytes) (context_block_number : Z) : result ConsensusError (list A) :=
  overlay ←
    match compatibility_mode with
    | NoCompatibility => Ok None
    | UseInitializeBlock until =>
        if context_block_number <? until then
          map_err (λ _, InvalidAuthoritiesSet)
            (overlay ← initialize_block client parent_hash
               (mkHeader context_block_number parent_hash (replicate 32 0, replicate 32 0) []);
             Ok (Some overlay))
        else Ok None
    end;
  ok_or (ok (api_authorities client overlay parent_hash)) InvalidAuthoritiesSet.

Definition check_header (check_for_equivocation : bool) (slot_now : Z) (header : Header) (hash : bytes)
    (authorities : list A) : DS X (HeaderError E) CheckedHeader :=
  match check_header_slot_and_seal client slot_now header authorities with
  | Ok (header, slot, seal) =>
      let expected_author := slot_author client slot authorities in
      _ ← match check_for_equivocation, expected_author with
          | true, Some expected => ds_map_err Client (check_equivocation client slot_now slot header expected)
          | _, _ => mret None
          end;
      mret (Checked header slot seal)
  | Err (Deferred header slot) => mret (CheckDeferred header slot)
  | Err Unsealed => ds_lift (Err (HeaderUnsealed hash))
  | Err BadSeal => ds_lift (Err (HeaderBadSeal hash))
  | Err BadSignature => ds_lift (Err (HeaderBadSignature hash))
  | Err SlotAuthorNotFound => ds_lift (Err HeaderSlotAuthorNotFound)
  | Err (InvalidPreDigest e) => ds_lift (Err (PreDigest e))
  end.

(** The part of [verify] that checks a body; [value] is the inherent digest. *)
Definition verify_body (create_inherent_data_providers : bytes → Z → V → DS S C IDP)
    (parent_hash : bytes) (pre_header : Header) (slot : Z) (value : V) (inner_body : B) :
    DS S (VerifyError E C I) unit :=
  inherent_data_providers ← ds_map_err CidpError (create_inherent_data_providers parent_hash slot value);
  has_api ← ds_lift (map_err RuntimeError (block_builder_api_at_least_2 client parent_hash));
  if (has_api : bool) then
    inherent_data ← ds_lift (map_err RuntimeError (create_inherent_data client inherent_data_providers));
    ds_lift (map_err InherentsRejected
      (check_inherents_with_data client parent_hash pre_header inner_body inherent_data_providers inherent_data))
  else mret tt.

(** [current_slot] is the slot of the node's clock ([CurrentSlotProvider::slot]). *)
Definition verify (create_inherent_data_providers : bytes → Z → V → DS S C IDP) (check_for_equivocation : bool)
    (current_slot : Z) (block : BlockImportParams B SA) : DS (S * X) (VerifyError E C I) (BlockImportParams B SA) :=
  if with_state client (state_action block) || skip_execution_checks client (state_action block) then
    mret (mkImport (header block) (body block) (post_digests block) (state_action block)
      (Some (Custom (with_state client (state_action block)))) (post_hash block))
  else
    let hash := header_hash client (header block) in
    let parent := parent_hash (header block) in
    authorities ← ds_lift (map_err (CouldNotFetchAuthorities parent) (authorities parent (number (header block))));
    checked_header ← on_aux (ds_map_err HeaderRejected
      (check_header check_for_equivocation (wadd 64 current_slot 1) (header block) hash authorities));
    inherent_digest ← ds_lift (map_err (NoDigestValue parent) (digest_value (logs (header block))));
    match checked_header with
    | Checked pre_header slot seal =>
        _ ← match body block with
            | Some inner_body =>
                on_source (verify_body create_inherent_data_providers parent pre_header slot inherent_digest inner_body)
            | None => mret tt
            end;
        mret (mkImport pre_header (body block) (post_digests block ++ [seal]) (state_action block)
          (Some LongestChain) (Some hash))
    | CheckDeferred _ _ => ds_lift (Err (TooFarInTheFuture hash))
    end.
End Verifier.

(** ** The slot worker *)

Section Worker.
Context {X A B SA O IDP D E : Type}.
Context (client : AuraClient X A B SA O IDP D E) (compatibility_mode : CompatibilityMode).
(** [sc_consensus_aura::standalone::pre_digest], [::seal], [find_pre_digest] and
    [StateAction::ApplyChanges] of given storage changes. *)
Context {Claim Changes : Type} (pre_digest : Z → DigestItem) (make_seal : bytes → Claim → result E DigestItem).
Context (find_pre_digest : Header → result E Z) (apply_changes : Changes → SA).

Definition aux_data (header : Header) : result ConsensusError (list A) :=
  authorities client compatibility_mode (header_hash client header) (wadd 32 (number header) 1).

Definition authorities_len (authorities : list A) : option nat := Some (length authorities).

Definition pre_digest_data (slot : Z) : list DigestItem := [pre_digest slot].

Definition block_import_params (header : Header) (header_hash : bytes) (body : B) (storage_changes : Changes)
    (public : Claim) : result E (BlockImportParams B SA) :=
  signature_digest_item ← make_seal header_hash public;
  Ok (mkImport header (Some body) [signature_digest_item] (apply_changes storage_changes) (Some LongestChain) None).

(** [strategy] is [BackoffAuthoringBlocksStrategy::should_backoff] of the number and
    the slot of the chain head, the last finalized number and the slot. *)
Definition should_backoff (backoff_authoring_blocks : option (Z → Z → Z → Z → bool)) (finalized_number slot : Z)
    (chain_head : Header) : bool :=
  match backoff_authoring_blocks with
  | Some strategy =>
      match find_pre_digest chain_head with
      | Ok chain_head_slot => strategy (number chain_head) chain_head_slot finalized_number slot
      | Err _ => false
      end
  | None => false
  end.

(** [remaining] is [sc_consensus_slots::proposing_remaining_duration] of the slot of
    the parent, the head of the chain and the configured portions of a slot. *)
Definition proposing_remaining_duration {Portion} (remaining : option Z → Header → Portion → option Portion → Z)
    (chain_head : Header) (block_proposal_slot_portion : Portion) (max_portion : option Portion) : Z :=
  remaining (ok (find_pre_digest chain_head)) chain_head block_proposal_slot_portion max_portion.
End Worker.

(** ** Lemmas *)

(** A proposal whose inherent data hold a main chain hash passes it on in the digest. *)
Lemma propose_mc_hash {D F Proposal} (mc_hash_of : D → result F (option bytes))
    (inner : D → list DigestItem → Z → option Z → Proposal) data digests duration limit hash :
  mc_hash_of data = Ok (Some hash) →
  propose (H:=mc_hash_digest mc_hash_of) inner data digests duration limit
  = Ret (inner data (digests ++ from_mc_block_hash hash) duration limit).
Proof. intros Hdata. unfold propose. simpl. unfold from_inherent_data. by rewrite Hdata. Qed.

Section VerifierLemmas.
Context {S X A B SA O IDP D V E C I : Type} `{!InherentDigest D V I}.
Context (client : AuraClient X A B SA O IDP D E) (compatibility_mode : CompatibilityMode).
Context (cidp : bytes → Z → V → DS S C IDP).

(** When the check of a body succeeds. *)
Lemma verify_body_Ok parent pre_header slot value inner_body s s' :
  verify_body (I:=I) client cidp parent pre_header slot value inner_body s = Ret (s', Ok tt) ↔
  ∃ idps has_api, cidp parent slot value s = Ret (s', Ok idps) ∧
    block_builder_api_at_least_2 client parent = Ok has_api ∧
    (has_api = true → ∃ data, create_inherent_data client idps = Ok data ∧
      check_inherents_with_data client parent pre_header inner_body idps data = Ok tt).
Proof.
  unfold verify_body, ds_map_err, ds_lift, mbind, DS_bind, mbind, outcome_bind.
  destruct (cidp parent slot value s) as [[s1 [idps|e]]|]; simpl;
    [|split; [done|by intros (? & ? & [=] & _)]..].
  destruct (block_builder_api_at_least_2 client parent) as [[]|e]; simpl;
    [|split; [intros [= <-]; by exists idps, false|by intros (? & ? & [= <- <-] & _)]
     |split; [done|by intros (? & ? & _ & [=] & _)]].
  split.
  - intros Hcheck. exists idps, true. revert Hcheck. destruct (create_inherent_data client idps) as [data|e]; simpl; [|done].
    destruct (check_inherents_with_data _ _ _ _ _ _) as [[]|e] eqn:Hc; simpl; [|done].
    intros [= <-]. split_and!; [done..|]. intros _. by exists data.
  - intros (? & ? & [= <- <-] & [= <-] & Hdata). destruct (Hdata eq_refl) as (data & -> & Hc). simpl. by rewrite Hc.
Qed.

(** A header that passes the check passed that of the library. *)
Lemma check_header_Checked equivocation slot_now h hash auths x x' pre_header slot seal :
  check_header client equivocation slot_now h hash auths x = Ret (x', Ok (Checked pre_header slot seal)) →
  check_header_slot_and_seal client slot_now h auths = Ok (pre_header, slot, seal).
Proof.
  unfold check_header. destruct (check_header_slot_and_seal _ _ _ _) as [[[? ?] ?]|[]]; try done.
  unfold ds_map_err, mbind, DS_bind, mbind, outcome_bind.
  destruct equivocation; [|by intros [= _ -> -> ->]].
  destruct (slot_author client _ _) as [expected|]; [|by intros [= _ -> -> ->]].
  destruct (check_equivocation client _ _ _ _ _) as [[? []]|]; simpl; try done. by intros [= _ -> -> ->].
Qed.

(** When a block that is not exempt from the checks is accepted, and what is
    imported. *)
Lemma verify_Ok equivocation current_slot block s x s' x' imported :
  with_state client (state_action block) || skip_execution_checks client (state_action block) = false →
  verify client compatibility_mode cidp equivocation current_slot block (s, x) = Ret (s', x', Ok imported) ↔
  ∃ auths pre_header slot seal value,
    authorities client compatibility_mode (parent_hash (header block)) (number (header block)) = Ok auths ∧
    check_header client equivocation (wadd 64 current_slot 1) (header block)
      (header_hash client (header block)) auths x = Ret (x', Ok (Checked pre_header slot seal)) ∧
    digest_value (logs (header block)) = Ok value ∧
    match body block with
    | Some inner_body =>
        verify_body (I:=I) client cidp (parent_hash (header block)) pre_header slot value inner_body s = Ret (s', Ok tt)
    | None => s' = s
    end ∧
    imported = mkImport pre_header (body block) (post_digests block ++ [seal]) (state_action block)
      (Some LongestChain) (Some (header_hash client (header block))).
Proof.
  intros Hskip. unfold verify. rewrite Hskip.
  unfold ds_map_err, ds_lift, on_aux, on_source, mbind, DS_bind, mbind, outcome_bind.
  destruct (authorities _ _ _ _) as [auths|e]; simpl; [|split; [done|by intros (? & ? & ? & ? & ? & [=] & _)]].
  destruct (check_header _ _ _ _ _ _ _) as [[x1 [ch|e]]|] eqn:Hch; simpl;
    [|split; [done|intros (? & ? & ? & ? & ? & [= <-] & Hc & _); congruence]..].
  destruct (digest_value _) as [value|e]; simpl; [|split; [done|by intros (? & ? & ? & ? & ? & _ & _ & [=] & _)]].
  destruct ch as [pre_header slot seal|]; simpl.
  2:{ split; [done|]. intros (? & ? & ? & ? & ? & [= <-] & Hc & _). congruence. }
  split.
  - intros Hv. exists auths, pre_header, slot, seal, value. split; [done|].
    destruct (body block) as [b|]; simpl in Hv.
    + destruct (verify_body _ _ _ _ _ _ _ s) as [[s1 [[]|]]|]; try done.
      injection Hv as <- <- <-. by rewrite Hch.
    + injection Hv as <- <- <-. by rewrite Hch.
  - intros (? & ? & ? & ? & ? & [= <-] & Hc & [= <-] & Hb & ->). rewrite Hch in Hc. simplify_eq.
    destruct (body block) as [b|]; [by rewrite Hb|by subst].
Qed.

End VerifierLemmas.
