(* ===== verification/NodeInherents.v ===== *)
(** * The inherent data of a node

    Models [demo/node/src/inherent_data.rs], which composes the providers of the
    other files: [ProposalCIDP] for the author of a block and [VerifierCIDP] for the
    nodes that import it.  The two differ: the author has a clock and selects the
    main chain reference, the verifier approximates the time of the block by the
    start of its slot and takes the reference from the header.  The theorems
    compose them with the references ([McHash]) and the import queue
    ([AuraConsensus]). *)

From S2P Require Import Prelude Domain MainchainEpoch CommitteePallet AuthoritySelection.
From S2P Require Import BlockProductionLog GovernedMap Bridge McHash BlockSource AuraConsensus.

Record CreateInherentDataConfig := mkConfig {
  mc_epoch_config : MainchainEpochConfig;
  slot_duration : Z;
  sc_epoch_duration_millis : Z;
}.

Definition slot_start_time (config : CreateInherentDataConfig) (slot : Z) : Z :=
  wmul 64 (slot_duration config) slot.

(** What the providers ask the runtime, by the hash of a block. *)
Record NodeClient (P E : Type) := mkClient {
  expect_header : bytes → result E Header;
  committee_api : bytes → CommitteeApi E;
  participation_api : bytes → ParticipationApi P E;
  map_api : bytes → MapApi E;
  bridge_api : bytes → BridgeApi E;
}.
Arguments mkClient {P E} _ _ _ _ _.
Arguments expect_header {P E} _ _.
Arguments committee_api {P E} _ _.
Arguments participation_api {P E} _ _.
Arguments map_api {P E} _ _.
Arguments bridge_api {P E} _ _.

(** The data sources other than that of the references, which has a state, and the
    Governed Map's, which is an instance. *)
Record NodeSources (R E F : Type) := mkSources {
  authority_selection_source : AuthoritySelectionDataSource E;
  block_participation_source : Z → list bytes → result F StakeDistribution;
  bridge_source : Bridge.MainChainScripts → BridgeDataCheckpoint → Z → bytes →
    result F (list (BridgeTransferV1 R) * BridgeDataCheckpoint);
}.
Arguments mkSources {R E F} _ _ _.
Arguments authority_selection_source {R E F} _.
Arguments block_participation_source {R E F} _ _ _.
Arguments bridge_source {R E F} _ _ _ _ _.

Inductive CidpError (P E F : Type) :=
  | HeaderError (e : E)
  | ReferenceError (e : McHashInherentError F)
  | AriadneError (e : AuthoritySelection.InherentProviderCreationError E)
  | ParticipationError (e : BlockProductionLog.InherentDataCreationError P E F)
  | MapError (e : GovernedMap.InherentProviderCreationError E F)
  | BridgeError (e : Bridge.InherentDataCreationError E F).
Arguments HeaderError {P E F} e.
Arguments ReferenceError {P E F} e.
Arguments AriadneError {P E F} e.
Arguments ParticipationError {P E F} e.
Arguments MapError {P E F} e.
Arguments BridgeError {P E F} e.

(** The providers that both sides create from the parent block and the reference. *)
Record CommonProviders (P D R : Type) := mkProviders {
  ariadne : option AuthoritySelectionInputs;
  payouts : ParticipationProvider P D;
  governed_map : MapProvider;
  bridge : BridgeProvider R;
}.
Arguments mkProviders {P D R} _ _ _ _.
Arguments ariadne {P D R} _.
Arguments payouts {P D R} _.
Arguments governed_map {P D R} _.
Arguments bridge {P D R} _.

Definition ds_outcome {S E A} (r : outcome (result E A)) : DS S E A := λ s, r ← r; Ret (s, r).

Section Providers.
Context {S P D R E F : Type} `{Countable P, EqDecision D, !Ord P, !Ord D}.
Context `{!McHashDataSource S F, !GovernedMapDataSource F}.
Context (as_cardano_spo : P → option bytes) (from_delegator_key : DelegatorKey → D).
(** [Slot::from_timestamp] and [find_pre_digest]. *)
Context (slot_from_timestamp : Z → Z → Z) (find_pre_digest : Header → result E Z).
(** The iteration order of the hash maps of this node. *)
Context (hash_order : ∀ A : Type, list A → list A).
Context (config : CreateInherentDataConfig) (client : NodeClient P E) (sources : NodeSources R E F).

(** [AuraIDP] and [TimestampIDP] for the time of the clock. *)
Definition timestamp_and_slot_cidp (current_time_millis : Z) : Z * Z :=
  let timestamp := current_time_millis in
  let slot := slot_from_timestamp timestamp (slot_duration config) in
  (slot, timestamp).

Definition slot_from_predigest (header : Header) : result (CidpError P E F) (option Z) :=
  if number header =? 0 then Ok None
  else
    slot ← map_err HeaderError (find_pre_digest header);
    Ok (Some slot).

(** The providers for [timestamp], [slot] and a reference, created in this order by
    both sides. *)
Definition common_providers (parent_hash : bytes) (timestamp slot reference_epoch : Z) (mc_hash : bytes)
    (previous_mc_hash : option bytes) : DS S (CidpError P E F) (CommonProviders P D R) :=
  ariadne_data_provider ← ds_outcome (map_err AriadneError <$>
    new_ariadne_provider (committee_api client parent_hash) (sc_epoch_duration_millis config)
      (mc_epoch_config config) timestamp (authority_selection_source sources) reference_epoch);
  payouts ← ds_outcome (map_err ParticipationError <$>
    BlockProductionLog.new as_cardano_spo from_delegator_key hash_order (block_participation_source sources)
      (mc_epoch_config config) (participation_api client parent_hash) slot);
  governed_map ← ds_lift (map_err MapError
    (GovernedMap.new (map_api client parent_hash) mc_hash previous_mc_hash));
  bridge ← ds_lift (map_err BridgeError
    (Bridge.new (bridge_source sources) (bridge_api client parent_hash) mc_hash));
  mret (mkProviders ariadne_data_provider payouts governed_map bridge).

(** [ProposalCIDP::create_inherent_data_providers] *)
Definition proposal_providers (current_time_millis : Z) (parent_hash : bytes) :
    DS S (CidpError P E F) (Z * Z * McHashInherentDataProvider * CommonProviders P D R) :=
  let '(slot, timestamp) := timestamp_and_slot_cidp current_time_millis in
  parent_header ← ds_lift (map_err HeaderError (expect_header client parent_hash));
  let slot_start_timestamp := slot_start_time config slot in
  mc_hash ← ds_map_err ReferenceError (new_proposal (logs parent_header) slot_start_timestamp);
  providers ← common_providers parent_hash timestamp slot (mb_epoch (mc_block mc_hash))
    (McHash.mc_hash mc_hash) (previous_mc_hash mc_hash);
  mret (slot, timestamp, mc_hash, providers).

(** [VerifierCIDP::slot] *)
Definition current_slot (current_time_millis : Z) : Z :=
  (timestamp_and_slot_cidp current_time_millis).1.

(** [VerifierCIDP::create_inherent_data_providers] *)
Definition verifier_providers (parent_hash : bytes) (verified_block_slot : Z) (mc_hash : bytes) :
    DS S (CidpError P E F) (Z * CommonProviders P D R) :=
  let timestamp := slot_start_time config verified_block_slot in
  parent_header ← ds_lift (map_err HeaderError (expect_header client parent_hash));
  parent_slot ← ds_lift (slot_from_predigest parent_header);
  let parent_slot_timestamp := slot_start_time config <$> parent_slot in
  mc_state_reference ← ds_map_err ReferenceError
    (new_verification (logs parent_header) parent_slot_timestamp timestamp mc_hash);
  providers ← common_providers parent_hash timestamp verified_block_slot (mb_epoch (mc_block mc_state_reference))
    mc_hash (previous_mc_hash mc_state_reference);
  mret (timestamp, providers).
End Providers.

(** ** Lemmas *)

(** The start of the slot of a timestamp is in the same partner chain epoch, if the
    epochs consist of whole slots. *)
Lemma slot_start_same_epoch config timestamp :
  0 < slot_duration config → 0 < sc_epoch_duration_millis config →
  (slot_duration config | sc_epoch_duration_millis config) → in_u 64 timestamp →
  let start := slot_start_time config (timestamp / slot_duration config) in
  start ≤ timestamp < start + slot_duration config ∧
  timestamp / sc_epoch_duration_millis config = start / sc_epoch_duration_millis config.
Proof.
  intros Hd Hsc [k Hk] [Hts1 Hts2]. simpl. unfold slot_start_time, wmul, wrap.
  set (d := slot_duration config) in *. rewrite Hk in *.
  pose proof (Z.div_mod timestamp d ltac:(lia)). pose proof (Z.mod_pos_bound timestamp d Hd).
  pose proof (Z.div_pos timestamp d Hts1 Hd).
  rewrite Z.mod_small by nia. split; [lia|].
  assert (0 < k) by nia. rewrite (Z.mul_comm k d), Z.div_mul_cancel_l by lia. by rewrite Z.div_div by lia.
Qed.

(** ** Two nodes

    The author and the verifier of a block have their own clients and sources.  Both
    hold the parent block and run its runtime on its state. *)
Record clients_agree {P E} (client1 client2 : NodeClient P E) (parent : bytes) (parent_header : Header) : Prop := {
  ca_header1 : expect_header client1 parent = Ok parent_header;
  ca_header2 : expect_header client2 parent = Ok parent_header;
  ca_committee : committee_api client1 parent = committee_api client2 parent;
  ca_participation : participation_api client1 parent = participation_api client2 parent;
  ca_map : map_api client1 parent = map_api client2 parent;
  ca_bridge : bridge_api client1 parent = bridge_api client2 parent;
}.

(** What the first sources answer about the main chain as of block [b], the second
    ones answer as well: the parameters, candidates and nonces of the epochs
    whose data are complete before the epoch of [b], stake distributions, and the Governed
    Map and the bridge up to [b]. *)
Record sources_agree {R E F} (sources1 sources2 : NodeSources R E F) (map1 map2 : GovernedMapDataSource F)
    (b : MainchainBlock) : Prop := {
  sa_data_epoch e de :
    AuthoritySelection.data_epoch (authority_selection_source sources1) e = Ok de → AuthoritySelection.data_epoch (authority_selection_source sources2) e = Ok de;
  sa_parameters e de d p x : AuthoritySelection.data_epoch (authority_selection_source sources1) e = Ok de → de < mb_epoch b →
    get_ariadne_parameters (authority_selection_source sources1) e d p = Ok x →
    get_ariadne_parameters (authority_selection_source sources2) e d p = Ok x;
  sa_candidates e de a x : AuthoritySelection.data_epoch (authority_selection_source sources1) e = Ok de → de < mb_epoch b →
    get_candidates (authority_selection_source sources1) e a = Ok x →
    get_candidates (authority_selection_source sources2) e a = Ok x;
  sa_nonce e de x : AuthoritySelection.data_epoch (authority_selection_source sources1) e = Ok de → de < mb_epoch b →
    get_epoch_nonce (authority_selection_source sources1) e = Ok x →
    get_epoch_nonce (authority_selection_source sources2) e = Ok x;
  sa_stakes epoch pools1 pools2 x : pools1 ≡ₚ pools2 →
    block_participation_source sources1 epoch pools1 = Ok x → block_participation_source sources2 epoch pools2 = Ok x;
  sa_map_state scripts x :
    @get_state_at_block F map1 (mb_hash b) scripts = Ok x → @get_state_at_block F map2 (mb_hash b) scripts = Ok x;
  sa_map_changes since scripts x :
    @get_mapping_changes F map1 since (mb_hash b) scripts = Ok x →
    @get_mapping_changes F map2 since (mb_hash b) scripts = Ok x;
  sa_transfers scripts checkpoint max x :
    bridge_source sources1 scripts checkpoint max (mb_hash b) = Ok x →
    bridge_source sources2 scripts checkpoint max (mb_hash b) = Ok x;
}.

Section AgreeingSources.
Context {R E F : Type} (sources1 sources2 : NodeSources R E F) (map1 map2 : GovernedMapDataSource F).
Context (b : MainchainBlock) (Hagree : sources_agree sources1 sources2 map1 map2 b).

Lemma inputs_agree e de scripts inputs :
  AuthoritySelection.data_epoch (authority_selection_source sources1) e = Ok de → de < mb_epoch b →
  authority_selection_inputs_from_mc_data (authority_selection_source sources1) e scripts = Ok inputs →
  authority_selection_inputs_from_mc_data (authority_selection_source sources2) e scripts = Ok inputs.
Proof.
  intros He Hlt. unfold authority_selection_inputs_from_mc_data.
  destruct (get_ariadne_parameters (authority_selection_source sources1) _ _ _) as [x|] eqn:Hx; [|done].
  rewrite (sa_parameters _ _ _ _ _ Hagree _ _ _ _ _ He Hlt Hx). simpl.
  destruct (ap_permissioned_candidates x) as [l|]; simpl.
  2: destruct (num_permissioned_candidates (ap_d_parameter x) =? 0); simpl; [|done].
  all: destruct (get_candidates (authority_selection_source sources1) _ _) as [y|] eqn:Hy; [|done];
    rewrite (sa_candidates _ _ _ _ _ Hagree _ _ _ _ He Hlt Hy); simpl;
    destruct (get_epoch_nonce (authority_selection_source sources1) _) as [z|] eqn:Hz; [|done];
    by rewrite (sa_nonce _ _ _ _ _ Hagree _ _ _ He Hlt Hz).
Qed.

Lemma ariadne_agree api duration config timestamp1 timestamp2 x :
  0 < duration → timestamp1 / duration = timestamp2 / duration →
  new_ariadne_provider api duration config timestamp1 (authority_selection_source sources1) (mb_epoch b) = Ret (Ok x) →
  new_ariadne_provider api duration config timestamp2 (authority_selection_source sources2) (mb_epoch b) = Ret (Ok x).
Proof.
  intros Hd Hts. rewrite (ariadne_inputs_deterministic _ _ _ _ _ _ _ Hd Hts). unfold new_ariadne_provider.
  destruct (mc_epoch_for_next_ariadne_cidp _ _ _ _) as [[e|]|]; simpl; [|done..]. intros [= Hx]. f_equal. revert Hx.
  destruct (AuthoritySelection.data_epoch (authority_selection_source sources1) e) as [de|] eqn:He; [|done].
  rewrite (sa_data_epoch _ _ _ _ _ Hagree _ _ He). simpl.
  destruct (AuthoritySelection.api_get_main_chain_scripts api) as [scripts|]; simpl; [|done].
  destruct (Z.ltb_spec de (mb_epoch b)) as [Hlt|]; [|done].
  destruct (authority_selection_inputs_from_mc_data (authority_selection_source sources1) e scripts) as [inputs|] eqn:Hi; [|done].
  by rewrite (inputs_agree e de scripts inputs He Hlt Hi).
Qed.

Lemma map_agree (api : MapApi E) previous x :
  @GovernedMap.new E F map1 api (mb_hash b) previous = Ok x → @GovernedMap.new E F map2 api (mb_hash b) previous = Ok x.
Proof.
  unfold GovernedMap.new, GovernedMap.new_v1. destruct (has_map_api api) as [[]|]; simpl; try done.
  destruct (api_get_pallet_version api) as [version|]; simpl; [|done]. destruct (version =? 1); [|done].
  destruct (GovernedMap.api_get_main_chain_scripts api) as [[scripts|]|]; simpl; try done.
  destruct (api_is_initialized api) as [[]|]; simpl; try done.
  - destruct (@get_mapping_changes F map1 _ _ _) as [y|] eqn:Hy; [|done]. by rewrite (sa_map_changes _ _ _ _ _ Hagree _ _ _ Hy).
  - destruct (@get_state_at_block F map1 _ _) as [y|] eqn:Hy; [|done]. by rewrite (sa_map_state _ _ _ _ _ Hagree _ _ Hy).
Qed.

Lemma bridge_agree (api : BridgeApi E) x :
  Bridge.new (bridge_source sources1) api (mb_hash b) = Ok x → Bridge.new (bridge_source sources2) api (mb_hash b) = Ok x.
Proof.
  unfold Bridge.new, Bridge.new_v1. destruct (bridge_api_version api) as [[version|]|]; simpl; try done.
  destruct (version =? 1); [|done]. destruct (api_get_max_transfers_per_block api); simpl; [|done].
  destruct (api_get_last_data_checkpoint api) as [[checkpoint|]|]; simpl; try done;
    destruct (Bridge.api_get_main_chain_scripts api) as [[scripts|]|]; simpl; try done.
  destruct (bridge_source sources1 _ _ _ _) as [y|] eqn:Hy; [|done]. by rewrite (sa_transfers _ _ _ _ _ Hagree _ _ _ _ Hy).
Qed.
End AgreeingSources.

Section Agreement.
Context {S P D R E F : Type} `{Countable P, EqDecision D, !Ord P, !Ord D}.
Context `{Hlaws : McHashDataSourceLaws S F v min_boundary max_boundary}.
Context (as_cardano_spo : P → option bytes) (from_delegator_key : DelegatorKey → D).
Context (slot_from_timestamp : Z → Z → Z) (find_pre_digest : Header → result E Z).
Context (config : CreateInherentDataConfig) (client1 client2 : NodeClient P E) (sources1 sources2 : NodeSources R E F).
Context (map1 map2 : GovernedMapDataSource F).

(** The providers depend neither on the order of the node's hash maps nor on the
    timestamp within a partner chain epoch, and only on data that the nodes share. *)
Lemma common_providers_agree order1 order2 parent parent_header timestamp1 timestamp2 slot b previous (s1 s1' s2 : S) idps :
  (∀ A (l : list A), order1 A l ≡ₚ l) → (∀ A (l : list A), order2 A l ≡ₚ l) →
  clients_agree client1 client2 parent parent_header → sources_agree sources1 sources2 map1 map2 b →
  0 < sc_epoch_duration_millis config →
  timestamp1 / sc_epoch_duration_millis config = timestamp2 / sc_epoch_duration_millis config →
  common_providers (GovernedMapDataSource0:=map1) as_cardano_spo from_delegator_key order1 config client1 sources1
    parent timestamp1 slot (mb_epoch b) (mb_hash b) previous s1 = Ret (s1', Ok idps) →
  s1' = s1 ∧
  common_providers (GovernedMapDataSource0:=map2) as_cardano_spo from_delegator_key order2 config client2 sources2
    parent timestamp2 slot (mb_epoch b) (mb_hash b) previous s2 = Ret (s2, Ok idps).
Proof.
  intros H1 H2 [_ _ Hc1 Hc2 Hc3 Hc4] Hsa Hd Hts. unfold common_providers. rewrite Hc1, Hc2, Hc3, Hc4.
  unfold ds_outcome, ds_lift, mbind, DS_bind, mbind, outcome_bind.
  destruct (new_ariadne_provider _ _ _ timestamp1 _ _) as [[inputs|]|] eqn:Ha; simpl; try done.
  rewrite (ariadne_agree _ _ _ _ _ Hsa _ _ _ _ _ _ Hd Hts Ha). simpl.
  destruct (BlockProductionLog.new _ _ order1 _ _ _ _) as [[payouts|]|] eqn:Hp; simpl; try done.
  rewrite (participation_data_deterministic _ _ _ _ _ _ _ _ _ _ H1 H2 (sa_stakes _ _ _ _ _ Hsa) Hp). simpl.
  destruct (@GovernedMap.new _ _ map1 _ _ _) as [m|] eqn:Hm; simpl; [|done]. rewrite (map_agree _ _ _ _ _ Hsa _ _ _ Hm). simpl.
  destruct (Bridge.new _ _ _) as [br|] eqn:Hb; simpl; [|done]. rewrite (bridge_agree _ _ _ _ _ Hsa _ _ Hb). simpl.
  by intros [= -> ->].
Qed.

(** The reference of the parent is one the verifier accepted and the author knows,
    and the parent is not in a later slot. *)
Definition parent_accepted (author verifier : S) (parent_header : Header) (timestamp : Z) : Prop :=
  if number parent_header =? 0 then ok (value_from_digest (logs parent_header)) = None
  else ∃ parent_slot pb, find_pre_digest parent_header = Ok parent_slot ∧
    supported v (slot_start_time config parent_slot) ∧ slot_start_time config parent_slot ≤ timestamp ∧
    value_from_digest (logs parent_header) = Ok (mb_hash pb) ∧ stable v verifier pb ∧
    allowable min_boundary max_boundary pb (slot_start_time config parent_slot) ∧
    known v author pb ∧ ∀ pb', known v author pb' → mb_hash pb' = mb_hash pb → pb' = pb.

(** The reference, the slot and the providers of an author are those the verifier
    computes from the header. *)
Lemma providers_agree order1 order2 now parent parent_header author author' verifier slot timestamp reference idps :
  (∀ A (l : list A), order1 A l ≡ₚ l) → (∀ A (l : list A), order2 A l ≡ₚ l) →
  clients_agree client1 client2 parent parent_header →
  (∀ b, stable v verifier b → sources_agree sources1 sources2 map1 map2 b) →
  (∀ ts d, 0 < d → slot_from_timestamp ts d = ts / d) →
  0 < slot_duration config → 0 < sc_epoch_duration_millis config →
  (slot_duration config | sc_epoch_duration_millis config) → in_u 64 now →
  source_ok v author → source_ok v verifier → (∀ b, offered v author b → stable v verifier b) →
  supported v (slot_start_time config (now / slot_duration config)) →
  parent_accepted author verifier parent_header (slot_start_time config (now / slot_duration config)) →
  proposal_providers (GovernedMapDataSource0:=map1) as_cardano_spo from_delegator_key slot_from_timestamp order1 config
    client1 sources1 now parent author = Ret (author', Ok (slot, timestamp, reference, idps)) →
  slot = now / slot_duration config ∧ timestamp = now ∧ stable v verifier (mc_block reference) ∧ ∃ verifier',
    verifier_providers (GovernedMapDataSource0:=map2) as_cardano_spo from_delegator_key find_pre_digest order2 config
      client2 sources2 parent slot (McHash.mc_hash reference) verifier
    = Ret (verifier', Ok (slot_start_time config slot, idps)) ∧ unchanged v verifier verifier'.
Proof.
  intros H1 H2 Hclients Hsources Hslot Hd Hsc Hdiv Hnow Hoka Hokv Hsub Hts Hparent.
  destruct (slot_start_same_epoch config now Hd Hsc Hdiv Hnow) as [_ Hepoch].
  set (start := slot_start_time config (now / slot_duration config)) in *.
  unfold proposal_providers, timestamp_and_slot_cidp. rewrite Hslot, (ca_header1 _ _ _ _ Hclients) by done. fold start.
  rewrite (DS_bind_Ok _ _ author author parent_header) by done.
  destruct (slot_from_predigest (F:=F) (P:=P) find_pre_digest parent_header) as [pslot|e] eqn:Hps.
  2:{ revert Hps Hparent. unfold slot_from_predigest, parent_accepted. destruct (_ =? _); [done|].
      by intros Hps (? & ? & Hf & _); rewrite Hf in Hps. }
  assert (match slot_start_time config <$> pslot with
    | None => ok (value_from_digest (logs parent_header)) = None
    | Some t => supported v t ∧ t ≤ start ∧ ∃ pb, value_from_digest (logs parent_header) = Ok (mb_hash pb) ∧
        stable v verifier pb ∧ allowable min_boundary max_boundary pb t ∧
        known v author pb ∧ ∀ pb', known v author pb' → mb_hash pb' = mb_hash pb → pb' = pb
    end) as Hpar.
  { revert Hps Hparent. unfold slot_from_predigest, parent_accepted. destruct (_ =? _); [by intros [= <-]|].
    intros Hps (parent_slot & pb & Hf & Hsup & Hle & Hrest). rewrite Hf in Hps. injection Hps as <-.
    split; [done|]. split; [done|]. by exists pb. }
  destruct (reference_agreement author verifier (logs parent_header) (slot_start_time config <$> pslot) start Hoka Hokv Hts Hts Hsub Hpar)
    as (a1 & r & Hcall & Huna & _ & Hver).
  destruct r as [idp|e]; [rewrite (DS_bind_Ok _ _ author a1 idp) by (by apply ds_map_err_Ok)|
    unfold mbind, DS_bind, ds_map_err; by rewrite Hcall].
  destruct (Hver idp eq_refl) as (_ & v1 & Hv & Hunv).
  unfold mbind at 1, DS_bind at 1. unfold mbind at 1, outcome_bind at 1.
  destruct (common_providers _ _ order1 _ _ _ _ _ _ _ _ _ a1) as [[a2 [idps'|]]|] eqn:Hc; [|done..].
  intros [= -> <- <- -> ->]. split; [done|]. split; [done|].
  assert (stable v verifier (mc_block reference)) as Hstable.
  { destruct (new_verification_spec (v:=v) (logs parent_header) (slot_start_time config <$> pslot) start
      (McHash.mc_hash reference) verifier Hokv Hts) as (v1' & r & Hv' & _ & Hr).
    - intros t Ht. rewrite Ht in Hpar. apply Hpar.
    - rewrite Hv in Hv'. injection Hv' as <- <-. destruct reference as [rb rp]. by apply (Hr rb rp). }
  split; [done|].
  destruct (common_providers_agree order1 order2 parent parent_header now start _ (mc_block reference) _ a1 author' v1 idps
    H1 H2 Hclients (Hsources _ Hstable) Hsc Hepoch Hc) as [_ Hcv].
  exists v1. split; [|done]. unfold verifier_providers. rewrite (ca_header2 _ _ _ _ Hclients). fold start.
  rewrite (DS_bind_Ok _ _ verifier verifier parent_header) by done.
  rewrite (DS_bind_Ok _ _ verifier verifier pslot) by (by rewrite Hps).
  rewrite (DS_bind_Ok _ _ verifier v1 reference) by (by apply ds_map_err_Ok).
  by rewrite (DS_bind_Ok _ _ v1 v1 idps).
Qed.
End Agreement.

(** ** Nodes

    What the theorems rely on: slots are whole quotients ([Slot::from_timestamp]) and
    partner chain epochs consist of whole slots. *)
Record node_wf (slot_from_timestamp : Z → Z → Z) (config : CreateInherentDataConfig) : Prop := {
  wf_slot ts d : 0 < d → slot_from_timestamp ts d = ts / d;
  wf_slot_duration : 0 < slot_duration config;
  wf_epoch_duration : 0 < sc_epoch_duration_millis config;
  wf_whole_slots : (slot_duration config | sc_epoch_duration_millis config);
}.

(** The header with the seal of its author. *)
Definition sealed (h : Header) (seal : DigestItem) : Header :=
  mkHeader (number h) (parent_hash h) (roots h) (logs h ++ [seal]).

(** C5. A block that a node authors is imported by another node that does not lag
    behind: every main chain block that the author's source offers is already stable
    for the verifier, the verifier's sources answer what the author's answer about the
    main chain up to stable blocks, and the reference of the parent block is one that the
    verifier accepted and the author knows.  The proposer never panics, the reference
    it selected is in the header it proposes and is stable for the verifier.  From the
    header alone the verifier computes the same committee inputs, block
    participation data, Governed Map changes and bridge transfers, although it has
    another clock, another order of hash maps, its own client and sources and a
    different cache: if the seal is valid and the runtime accepts the inherents for
    these data, the block is imported unchanged, its seal moved aside. *)
Theorem authored_block_imported {S P D R E F X A B SA O DD FD : Type} `{Countable P, EqDecision D, !Ord P, !Ord D}
    `{McHashDataSourceLaws S F v min_boundary max_boundary}
    as_cardano_spo from_delegator_key slot_from_timestamp find_pre_digest order1 order2
    config (client1 client2 : NodeClient P E) (sources1 sources2 : NodeSources R E F) (map1 map2 : GovernedMapDataSource F)
    (aura : AuraClient X A B SA O (Z * CommonProviders P D R) DD E) mode equivocation
    (mc_hash_of : DD → result FD (option bytes)) pre_digest (build : DD → list DigestItem → Z → option Z → Header * B)
    now parent parent_header author author' verifier slot timestamp reference idps data duration limit :
  node_wf slot_from_timestamp config →
  (∀ A (l : list A), order1 A l ≡ₚ l) → (∀ A (l : list A), order2 A l ≡ₚ l) →
  in_u 64 now → clients_agree client1 client2 parent parent_header →
  (∀ b, stable v verifier b → sources_agree sources1 sources2 map1 map2 b) →
  source_ok v author → source_ok v verifier → (∀ b, offered v author b → stable v verifier b) →
  supported v (slot_start_time config (now / slot_duration config)) →
  parent_accepted (v:=v) (min_boundary:=min_boundary) (max_boundary:=max_boundary) find_pre_digest config author verifier parent_header
    (slot_start_time config (now / slot_duration config)) →
  proposal_providers (GovernedMapDataSource0:=map1) as_cardano_spo from_delegator_key slot_from_timestamp order1 config
    client1 sources1 now parent author = Ret (author', Ok (slot, timestamp, reference, idps)) →
  length (McHash.mc_hash reference) = 32%nat →
  mc_hash_of data = Ok (Some (McHash.provide_inherent_data reference)) →
  (∀ slot data, pre_digest slot ≠ PreRuntime MC_HASH_DIGEST_ID data) →
  (∀ data digests duration limit, ∃ rest, logs (build data digests duration limit).1 = digests ++ rest) →
  stable v verifier (mc_block reference) ∧
  (∃ verifier', verifier_providers (GovernedMapDataSource0:=map2) as_cardano_spo from_delegator_key find_pre_digest order2
      config client2 sources2 parent slot (McHash.mc_hash reference) verifier
    = Ret (verifier', Ok (slot_start_time config slot, idps))) ∧
  ∃ pre_header body,
    propose (H:=mc_hash_digest mc_hash_of) build data (pre_digest_data pre_digest slot) duration limit
      = Ret (pre_header, body) ∧
    (∀ seal, value_from_digest (logs (sealed pre_header seal)) = Ok (McHash.mc_hash reference)) ∧
    ∀ seal auths x x' clock action post fork_choice post_hash has_api,
      parent_hash pre_header = parent →
      with_state aura action || skip_execution_checks aura action = false →
      authorities aura mode parent (number pre_header) = Ok auths →
      check_header aura equivocation (wadd 64 clock 1) (sealed pre_header seal)
        (header_hash aura (sealed pre_header seal)) auths x = Ret (x', Ok (Checked pre_header slot seal)) →
      block_builder_api_at_least_2 aura parent = Ok has_api →
      (has_api = true → ∃ data', create_inherent_data aura (slot_start_time config slot, idps) = Ok data' ∧
        check_inherents_with_data aura parent pre_header body (slot_start_time config slot, idps) data' = Ok tt) →
      ∃ verifier',
        verify (InherentDigest0:=mc_hash_digest mc_hash_of) aura mode
          (verifier_providers (GovernedMapDataSource0:=map2) as_cardano_spo from_delegator_key find_pre_digest order2
             config client2 sources2)
          equivocation clock (mkImport (sealed pre_header seal) (Some body) post action fork_choice post_hash) (verifier, x)
        = Ret (verifier', x', Ok (mkImport pre_header (Some body) (post ++ [seal]) action (Some LongestChain)
            (Some (header_hash aura (sealed pre_header seal))))) ∧
        unchanged v verifier verifier'.
Proof.
  intros [Hslot Hsd Hsc Hwhole] H1 H2 Hnow Hclients Hsources Hoka Hokv Hsub Hts Hparent Hprop Hlen Hdata Hpre Hbuild.
  destruct (providers_agree _ _ _ _ _ _ _ _ _ _ _ _ _ _ _ _ _ _ _ _ _ _ _ H1 H2 Hclients Hsources Hslot
    Hsd Hsc Hwhole Hnow Hoka Hokv Hsub Hts Hparent Hprop) as (-> & -> & Hstable & verifier' & Hver & Hun).
  split; [done|]. split; [by exists verifier'|]. rewrite (propose_mc_hash _ _ _ _ _ _ _ Hdata).
  destruct (Hbuild data (pre_digest_data pre_digest (now / slot_duration config) ++
    from_mc_block_hash (McHash.provide_inherent_data reference)) duration limit) as [rest Hrest].
  destruct (build _ _ _ _) as [pre_header body]. cbn [fst] in Hrest. exists pre_header, body. split; [done|].
  assert (∀ seal, value_from_digest (logs (sealed pre_header seal)) = Ok (McHash.mc_hash reference)) as Hvalue.
  { intros seal. simpl. rewrite Hrest, <-!app_assoc, (digest_roundtrip _ _ (McHash.mc_hash reference)); [done|done| |done].
    apply Forall_singleton. auto. }
  split; [done|].
  intros seal auths x x' clock action post fork_choice post_hash has_api <- Hskip Hauths Hcheck Hapi Hok.
  exists verifier'. split; [|done]. apply verify_Ok; [done|].
  exists auths, pre_header, (now / slot_duration config), seal, (McHash.mc_hash reference).
  split_and!; [done|done| |apply verify_body_Ok; eauto|done].
  change (map_err inr (value_from_digest (logs (sealed pre_header seal)))
    = Ok (E:=InherentDigestError FD + DigestValueError) (McHash.mc_hash reference)).
  by rewrite Hvalue.
Qed.

(** ** Imported chains

    A node imports blocks, whose headers its database then holds, while the main
    chain progresses: what is stable stays stable. *)

Record Node (S X : Type) := mkNode {
  node_source : S;
  node_aux : X;
  node_headers : gmap bytes Header;
}.
Arguments mkNode {S X} _ _ _.
Arguments node_source {S X} _.
Arguments node_aux {S X} _.
Arguments node_headers {S X} _.

Section Chain.
Context {S P D R E F X A B SA O DD FD : Type} `{Countable P, EqDecision D, !Ord P, !Ord D}.
Context `{Hlaws : McHashDataSourceLaws S F v min_boundary max_boundary} `{!GovernedMapDataSource F}.
Context (as_cardano_spo : P → option bytes) (from_delegator_key : DelegatorKey → D).
Context (find_pre_digest : Header → result E Z) (order : ∀ A : Type, list A → list A).
Context (config : CreateInherentDataConfig) (client : NodeClient P E) (sources : NodeSources R E F).
Context (aura : AuraClient X A B SA O (Z * CommonProviders P D R) DD E) (mode : CompatibilityMode) (equivocation : bool).
Context (mc_hash_of : DD → result FD (option bytes)) (unknown_header : E).
(** The first and the last slot of the blocks the node imports. *)
Context (first_slot last_slot : Z).

(** The client of a node that holds [headers]. *)
Definition client_of (headers : gmap bytes Header) : NodeClient P E :=
  mkClient (λ hash, ok_or (headers !! hash) unknown_header) (committee_api client) (participation_api client)
    (map_api client) (bridge_api client).

Abbreviation verifier_of headers :=
  (verifier_providers as_cardano_spo from_delegator_key find_pre_digest order config (client_of headers) sources).

Inductive node_step : Node S X → Node S X → Prop :=
  | import_block clock block s x s' x' headers imported :
      with_state aura (state_action block) || skip_execution_checks aura (state_action block) = false →
      body block ≠ None → headers !! header_hash aura (header block) = None →
      (∀ slot, find_pre_digest (header block) = Ok slot → first_slot ≤ slot) → wadd 64 clock 1 ≤ last_slot →
      verify (InherentDigest0:=mc_hash_digest mc_hash_of) aura mode (verifier_of headers) equivocation clock block (s, x)
        = Ret (s', x', Ok imported) →
      node_step (mkNode s x headers) (mkNode s' x' (<[header_hash aura (header block) := header block]> headers))
  | main_chain_progress s s' x headers :
      source_ok v s' → (∀ b, stable v s b → stable v s' b) →
      node_step (mkNode s x headers) (mkNode s' x headers).

(** The block of the main chain a header refers to. *)
Definition refers_to (s : S) (h : Header) (b : MainchainBlock) : Prop :=
  value_from_digest (logs h) = Ok (mb_hash b) ∧ stable v s b ∧
  ∃ slot, find_pre_digest h = Ok slot ∧ allowable min_boundary max_boundary b (slot_start_time config slot).

(** One of the headers is the child of the other, which is not a genesis block. *)
Definition child_of (headers : gmap bytes Header) (h p : Header) : Prop :=
  (∃ k, headers !! k = Some h) ∧ number h ≠ 0 ∧ number p ≠ 0 ∧ headers !! parent_hash h = Some p.

Definition references_ok (n : Node S X) : Prop :=
  source_ok v (node_source n) ∧ ∀ k h, node_headers n !! k = Some h → number h ≠ 0 →
    ∃ p b, node_headers n !! parent_hash h = Some p ∧ refers_to (node_source n) h b ∧
      (number p ≠ 0 → ∃ pb, refers_to (node_source n) p pb ∧ mb_number pb ≤ mb_number b).

(** The slots of checked headers are those of their digests and not in the future. *)
Context (Hslot : ∀ slot_now h auths pre_header slot seal,
  check_header_slot_and_seal aura slot_now h auths = Ok (pre_header, slot, seal) →
  find_pre_digest h = Ok slot ∧ slot ≤ slot_now).
Context (Hsupported : ∀ slot, first_slot ≤ slot ≤ last_slot → supported v (slot_start_time config slot)).

Lemma common_providers_state client' parent timestamp slot epoch hash previous (s s' : S) r :
  common_providers (D:=D) as_cardano_spo from_delegator_key order config client' sources parent timestamp slot epoch hash previous s
    = Ret (s', r) → s' = s.
Proof.
  unfold common_providers, ds_outcome, ds_lift, mbind, DS_bind, mbind, outcome_bind.
  destruct (new_ariadne_provider _ _ _ _ _ _) as [[]|]; simpl; [|by intros [= -> _]|done].
  destruct (BlockProductionLog.new _ _ _ _ _ _ _) as [[]|]; simpl; [|by intros [= -> _]|done].
  destruct (GovernedMap.new _ _ _); simpl; [|by intros [= -> _]].
  destruct (Bridge.new _ _ _); simpl; by intros [= -> _].
Qed.

(** What the providers of the verifier check. *)
Lemma verifier_providers_Ok headers parent slot hash s s' idps :
  verifier_of headers parent slot hash s = Ret (s', Ok idps) →
  ∃ p pslot reference, headers !! parent = Some p ∧
    slot_from_predigest (P:=P) (F:=F) find_pre_digest p = Ok pslot ∧
    new_verification (logs p) (slot_start_time config <$> pslot) (slot_start_time config slot) hash s = Ret (s', Ok reference).
Proof.
  unfold verifier_providers. cbn [client_of expect_header].
  destruct (headers !! parent) as [p|]; [|done]. rewrite (DS_bind_Ok _ _ s s p) by done.
  destruct (slot_from_predigest _ p) as [pslot|] eqn:Hps; [rewrite (DS_bind_Ok _ _ s s pslot) by done|done].
  destruct (new_verification (logs p) (slot_start_time config <$> pslot) (slot_start_time config slot) hash s)
    as [[s1 [reference|]]|] eqn:Hv;
    [rewrite (DS_bind_Ok _ _ s s1 reference) by (by apply ds_map_err_Ok)|unfold mbind, DS_bind, ds_map_err; by rewrite Hv..].
  intros Hc. exists p, pslot, reference. split_and!; [done..|].
  unfold mbind, DS_bind, mbind, outcome_bind in Hc.
  destruct (common_providers _ _ _ _ _ _ _ _ _ _ _ _ s1) as [[s2 []]|] eqn:Hcp; try done.
  apply common_providers_state in Hcp as ->. by injection Hc as -> _.
Qed.

(** The block a header refers to is unique, and stays while the main chain
    progresses. *)
Lemma refers_to_unique s h b b' :
  source_ok v s → (∀ slot, find_pre_digest h = Ok slot → first_slot ≤ slot ≤ last_slot) →
  refers_to s h b → refers_to s h b' → b' = b.
Proof.
  intros Hok Hlast (Hd & Hst & slot & Hsl & Hr) (Hd' & Hst' & slot' & Hsl' & Hr').
  assert (slot' = slot) as -> by congruence. assert (mb_hash b' = mb_hash b) as Hhash by congruence.
  destruct (law_stable (mb_hash b) (slot_start_time config slot) s Hok (Hsupported _ (Hlast _ Hsl)))
    as (_ & r & _ & _ & Hiff).
  pose proof (proj2 (Hiff b) (conj Hst (conj eq_refl Hr))). pose proof (proj2 (Hiff b') (conj Hst' (conj Hhash Hr'))).
  congruence.
Qed.

Lemma refers_to_stable s s' h b : (∀ b, stable v s b → stable v s' b) → refers_to s h b → refers_to s' h b.
Proof. intros Hst (? & ? & ?). split_and!; auto. Qed.

(** A node that imports a block accepts its reference. *)
Lemma import_reference clock block s x s' x' headers imported :
  source_ok v s → (∀ slot, find_pre_digest (header block) = Ok slot → first_slot ≤ slot) → wadd 64 clock 1 ≤ last_slot →
  (∀ k h slot, headers !! k = Some h → number h ≠ 0 → find_pre_digest h = Ok slot → first_slot ≤ slot ≤ last_slot) →
  with_state aura (state_action block) || skip_execution_checks aura (state_action block) = false →
  body block ≠ None →
  verify (InherentDigest0:=mc_hash_digest mc_hash_of) aura mode (verifier_of headers) equivocation clock block (s, x)
    = Ret (s', x', Ok imported) →
  unchanged v s s' ∧ (∃ slot, find_pre_digest (header block) = Ok slot ∧ first_slot ≤ slot ≤ last_slot) ∧
  ∃ p b, headers !! parent_hash (header block) = Some p ∧ refers_to s (header block) b ∧
    (number p ≠ 0 → ∃ pb, refers_to s p pb ∧ mb_number pb ≤ mb_number b).
Proof.
  intros Hok Hfirst Hclock Hslots Hskip Hbody Hv. apply verify_Ok in Hv; [|done].
  destruct Hv as (auths & pre_header & slot & seal & value & _ & Hcheck & Hvalue & Hb & _).
  apply check_header_Checked in Hcheck as [Hpre Hle]%Hslot. pose proof (Hfirst _ Hpre).
  destruct (body block) as [inner|]; [|done]. apply verify_body_Ok in Hb as (idps & _ & Hidps & _).
  apply verifier_providers_Ok in Hidps as (p & pslot & [b pr] & Hp & Hps & Hnv).
  assert (value_from_digest (logs (header block)) = Ok value) as Hval.
  { revert Hvalue. simpl. by destruct (value_from_digest _); intros [= <-]. }
  destruct (new_verification_spec (v:=v) (logs p) (slot_start_time config <$> pslot) (slot_start_time config slot) value s Hok)
    as (s1 & r & Hnv' & Hun & Hr); [apply Hsupported; lia| |].
  { intros t Ht. apply fmap_Some in Ht as (ps & -> & ->). apply Hsupported. revert Hps. unfold slot_from_predigest.
    destruct (Z.eqb_spec (number p) 0); [done|].
    destruct (find_pre_digest p) as [ps'|] eqn:Hf; [|done]. intros [= <-]. by eapply Hslots. }
  rewrite Hnv' in Hnv. injection Hnv as -> ->. destruct (proj1 (Hr b pr) eq_refl) as (Hst & Hh & Hrange & Hparent).
  split; [done|]. split; [exists slot; split; [done|lia]|]. exists p, b. split; [done|].
  split; [split_and!; [by rewrite Hh|done|by exists slot]|]. intros Hnz. revert Hps Hparent. unfold slot_from_predigest.
  destruct (Z.eqb_spec (number p) 0); [done|]. destruct (find_pre_digest p) as [ps|] eqn:Hf; [|done].
  intros [= <-]. simpl. intros (pb & _ & Hpst & Hpr & Hpd & Hnum). exists pb. split; [|done].
  split_and!; [done..|]. by exists ps.
Qed.

(** The invariant of a node: every header refers to a block not below that of its
    parent. *)
Definition node_ok (n : Node S X) : Prop :=
  references_ok n ∧
  ∀ k h, node_headers n !! k = Some h → number h ≠ 0 → ∃ slot, find_pre_digest h = Ok slot ∧ first_slot ≤ slot ≤ last_slot.

Lemma node_step_ok n n' : node_ok n → node_step n n' → node_ok n'.
Proof.
  intros [[Hok Hrefs] Hslots]. destruct 1 as [clock block s x s' x' headers imported Hskip Hbody Hnew Hfirst Hclock Hv|
    s s' x headers Hok' Hst]; simpl in *.
  - assert (∀ k h slot, headers !! k = Some h → number h ≠ 0 → find_pre_digest h = Ok slot → first_slot ≤ slot ≤ last_slot) as Hs.
    { intros k h slot Hk Hn Hf. destruct (Hslots k h Hk Hn) as (slot' & Hf' & Hle). rewrite Hf in Hf'. injection Hf' as ->. exact Hle. }
    destruct (import_reference _ _ _ _ _ _ _ _ Hok Hfirst Hclock Hs Hskip Hbody Hv)
      as (Hun & (slot & Hf & Hle) & p & b & Hp & Hb & Hpb).
    assert (∀ h b, refers_to s h b → refers_to s' h b) as Href.
    { intros h b0. apply refers_to_stable. intros b1. apply Hun. }
    assert (∀ k h, headers !! k = Some h → <[header_hash aura (header block) := header block]> headers !! k = Some h) as Hkeep.
    { intros k h Hk. rewrite lookup_insert_ne; [done|]. intros <-. by rewrite Hnew in Hk. }
    split; [split; [apply Hun|]|]; simpl.
    + intros k h [[<- <-]|[_ Hk]]%lookup_insert_Some Hn.
      * exists p, b. split_and!; [by apply Hkeep|by apply Href|]. intros [pb [? ?]]%Hpb. eauto.
      * destruct (Hrefs k h Hk Hn) as (p0 & b0 & ? & ? & Hpb0). exists p0, b0. split_and!; [by apply Hkeep|by apply Href|].
        intros [pb [? ?]]%Hpb0. eauto.
    + intros k h [[<- <-]|[_ Hk]]%lookup_insert_Some Hn; eauto.
  - split; [split; [done|]|done]. simpl. intros k h Hk Hn.
    destruct (Hrefs k h Hk Hn) as (p & b & ? & ? & Hpb). exists p, b. split_and!; [done|by eapply refers_to_stable|].
    intros [pb [? ?]]%Hpb. exists pb. split; [by eapply refers_to_stable|done].
Qed.

Lemma descendants_ok n h a :
  node_ok n → number h ≠ 0 → (∃ k, node_headers n !! k = Some h) → rtc (child_of (node_headers n)) h a →
  ∃ b ab, refers_to (node_source n) h b ∧ refers_to (node_source n) a ab ∧ mb_number ab ≤ mb_number b.
Proof.
  intros [[Hok Hrefs] Hslots] Hn Hh Hrtc. revert Hn Hh. induction Hrtc as [h|h p a (_ & _ & Hpn & Hp) _ IH]; intros Hn [k Hk].
  - destruct (Hrefs k h Hk Hn) as (_ & b & _ & Hb & _). by exists b, b.
  - destruct (Hrefs k h Hk Hn) as (p' & b & Hp' & Hb & Hpb). simplify_eq.
    destruct (Hpb Hpn) as (pb & Hpbr & Hle). destruct IH as (pb' & ab & Hpb' & Hab & Hle'); [done|by eexists|].
    assert (pb' = pb) as ->; [|exists b, ab; split_and!; [done..|lia]].
    apply (refers_to_unique _ _ _ _ Hok) with (2:=Hpbr) (3:=Hpb').
    intros slot Hf. destruct (Hslots _ _ Hp Hpn) as (slot' & Hf' & ?). rewrite Hf in Hf'. by injection Hf' as ->.
Qed.
End Chain.

(** C6. The references of imported chains never go back.  Starting from a genesis
    block, a node imports blocks on any branches while the main chain progresses.
    Every header it holds refers to a main chain block that is stable for the node
    and in the allowable range of the slot of the header, and no header refers to
    a block below that of one of its ancestors. *)
Theorem imported_references_monotone {S P D R E F X A B SA O DD FD : Type} `{Countable P, EqDecision D, !Ord P, !Ord D}
    `{McHashDataSourceLaws S F v min_boundary max_boundary} `{!GovernedMapDataSource F}
    as_cardano_spo from_delegator_key find_pre_digest order config (client : NodeClient P E) (sources : NodeSources R E F)
    (aura : AuraClient X A B SA O (Z * CommonProviders P D R) DD E) mode equivocation
    (mc_hash_of : DD → result FD (option bytes)) unknown_header first_slot last_slot genesis s x n h a k :
  (∀ slot_now h auths pre_header slot seal,
    check_header_slot_and_seal aura slot_now h auths = Ok (pre_header, slot, seal) →
    find_pre_digest h = Ok slot ∧ slot ≤ slot_now) →
  (∀ slot, first_slot ≤ slot ≤ last_slot → supported v (slot_start_time config slot)) →
  source_ok v s → number genesis = 0 →
  rtc (node_step (v:=v) as_cardano_spo from_delegator_key find_pre_digest order config client sources aura mode
         equivocation mc_hash_of unknown_header first_slot last_slot)
    (mkNode s x {[header_hash aura genesis := genesis]}) n →
  node_headers n !! k = Some h → number h ≠ 0 → rtc (child_of (node_headers n)) h a →
  ∃ b ab,
    refers_to (v:=v) (min_boundary:=min_boundary) (max_boundary:=max_boundary) find_pre_digest config (node_source n) h b ∧
    refers_to (v:=v) (min_boundary:=min_boundary) (max_boundary:=max_boundary) find_pre_digest config (node_source n) a ab ∧
    mb_number ab ≤ mb_number b.
Proof.
  intros Hslot Hsup Hok Hg Hsteps Hk Hn Hrtc.
  apply (descendants_ok find_pre_digest config first_slot last_slot Hsup n); [|done|by exists k|done].
  assert (node_ok (v:=v) (min_boundary:=min_boundary) (max_boundary:=max_boundary) find_pre_digest config first_slot last_slot
    (mkNode s x {[header_hash aura genesis := genesis]})) as Hinit.
  { repeat split; [done|..]; simpl; intros ? ? [<- <-]%lookup_singleton_Some; done. }
  clear Hk Hrtc. revert Hinit. induction Hsteps as [|n1 n2 n3 Hstep _ IH]; [done|]. intros H1. apply IH.
  by eapply node_step_ok.
Qed.

(** ** Witnesses: slots of one second, epochs of four *)

#[local] Existing Instances example_data_source example_laws.
#[local] Instance example_map_source : GovernedMapDataSource SourceError := {|
  get_state_at_block _ _ := Ok ∅;
  get_mapping_changes _ _ _ := Ok [];
|}.
Definition example_node_config : CreateInherentDataConfig := mkConfig example_config 1000 4000.
Definition example_pre_digest (slot : Z) : DigestItem := PreRuntime [97; 117; 114; 97] [slot].
Definition example_find_pre_digest (h : Header) : result unit Z :=
  match logs h with PreRuntime _ [slot] :: _ => Ok slot | _ => Err tt end.
Definition example_genesis : Header := mkHeader 0 [] ([], []) [].
Definition example_parent : Header :=
  mkHeader 1 [0] ([], []) (example_pre_digest 7 :: from_mc_block_hash (example_hash 2) ++ [Seal [] []]).
(** The committee is selected for the current epoch; the other features are not in
    use. *)
Definition example_client : NodeClient Z unit :=
  mkClient (λ hash, if decide (hash = [1]) then Ok example_parent else Ok example_genesis)
    (λ _, mkCommitteeApi (Ok 1) (Ok (mkScripts [1] [2] [3])))
    (λ _, mkParticipationApi (Ok false) (λ _, Ok []) (Ok []) (λ _, Err tt))
    (λ _, mkMapApi (Ok false) (Ok false) (Ok ∅) (Ok None) (Ok 1))
    (λ _, mkBridgeApi (Ok None) (Ok 10) (Ok None) (Ok None)).
Definition example_sources : NodeSources bytes unit SourceError :=
  mkSources (mkDataSource (λ _ _ _, Ok (mkAriadneParameters (mkDParameter 0 3) None)) (λ _ _, Ok [])
      (λ _, Ok (Some [7])) (λ e, Ok e))
    (λ _ _, Ok ∅) (λ _ checkpoint _ _, Ok ([], checkpoint)).
(** The author has other sources: they know no stakes, and its Governed Map fails. *)
Definition example_author_sources : NodeSources bytes unit SourceError :=
  mkSources (authority_selection_source example_sources) (λ _ _, Err ExpectedDataNotFound) (bridge_source example_sources).
Definition example_author_map : GovernedMapDataSource SourceError := {|
  get_state_at_block _ _ := Err ExpectedDataNotFound;
  get_mapping_changes _ _ _ := Err ExpectedDataNotFound;
|}.
Definition example_author_client : NodeClient Z unit :=
  mkClient (λ hash, if decide (hash = [1]) then Ok example_parent else Err tt)
    (committee_api example_client) (participation_api example_client) (map_api example_client) (bridge_api example_client).
Definition example_inputs : AuthoritySelectionInputs := mkInputs (mkDParameter 0 3) [] [] [7].
Definition example_aura : AuraClient unit unit unit unit unit (Z * CommonProviders Z Z bytes) (option bytes) unit :=
  mkAuraClient (λ h, [number h]) (λ _, false) (λ _, false) (λ _ _, Ok tt) (λ _ _, Ok [tt])
    (λ slot_now h _,
      match example_find_pre_digest h with
      | Ok slot =>
          if bool_decide (0 ≤ slot ≤ slot_now)
          then Ok (mkHeader (number h) (parent_hash h) (roots h) (removelast (logs h)), slot, List.last (logs h) (Other []))
          else Err (Deferred h slot)
      | Err e => Err (InvalidPreDigest e)
      end)
    (λ _ _, Some tt) (λ _ _ _ _ s, Ret (s, Ok None)) (λ _, Ok true) (λ _, Ok None)
    (λ _ _ _ idps _, if bool_decide (0 ≤ idps.1) then Ok tt else Err tt).

Definition example_build (data : option bytes) (digests : list DigestItem) (_ : Z) (_ : option Z) : Header * unit :=
  (mkHeader 2 [1] ([], []) (digests ++ [RuntimeEnvironmentUpdated]), tt).
Abbreviation example_verifier_providers :=
  (verifier_providers (D:=Z) (S:=BlockDataSourceImpl) (F:=SourceError) (λ _, None) (λ _, 0) example_find_pre_digest
     (λ _ l, reverse l) example_node_config example_client example_sources).

Lemma example_node_wf : node_wf Z.div example_node_config.
Proof. split; try done. by exists 4. Qed.

(** The author, at 8.3 s, refers to block 3, and its block of slot 8 is imported. *)
Lemma authored_block_imported_witness :
  ∃ pre_header body verifier' imported,
    propose (H:=mc_hash_digest (F:=unit) Ok) example_build (Some (example_hash 3)) (pre_digest_data example_pre_digest 8) 500 None
      = Ret (pre_header, body) ∧
    verify (InherentDigest0:=mc_hash_digest (F:=unit) Ok) example_aura NoCompatibility example_verifier_providers true 8
      (mkImport (sealed pre_header (Seal [] [])) (Some body) [] tt None None) (BlockSource.example_source 7, tt)
      = Ret (verifier', tt, Ok imported).
Proof.
  destruct (authored_block_imported (S:=BlockDataSourceImpl) (F:=SourceError) (v:=example_view) (D:=Z) (λ _, None) (λ _, 0) Z.div example_find_pre_digest
    (λ _ l, l) (λ _ l, reverse l) example_node_config example_author_client example_client
    example_author_sources example_sources example_author_map example_map_source example_aura NoCompatibility true
    (Ok (E:=unit)) example_pre_digest example_build 8300 [1] example_parent (BlockSource.example_source 6)
    (mkBlockSource (example_chain 6) [example_block 1]) (BlockSource.example_source 7) 8 8300
    (mkMcHash (mainchain_block (example_block 3)) (Some (mainchain_block (example_block 2))))
    (mkProviders (Some example_inputs) Inert MapInert BridgeInert)
    (Some (example_hash 3)) 500 None)
    as (_ & _ & pre_header & body & Hpropose & _ & Himport).
  - apply example_node_wf.
  - done.
  - intros A l. by rewrite reverse_Permutation.
  - by vm_compute.
  - by split.
  - intros b _. split; try done; by intros.
  - by apply example_source_ok.
  - by apply example_source_ok.
  - apply example_offered.
  - by apply example_supported.
  - exists 7, (mainchain_block (example_block 2)). split_and!; try reflexivity.
    + by apply example_supported.
    + vm_compute. discriminate.
    + by apply example_stable.
    + vm_compute. by split.
    + by apply example_known.
    + intros pb'. apply example_known_unique.
  - vm_compute. reflexivity.
  - reflexivity.
  - reflexivity.
  - discriminate.
  - intros data digests duration limit. by eexists.
  - vm_compute in Hpropose. injection Hpropose as <- <-.
    destruct (Himport (Seal [] []) [tt] tt tt 8 tt [] None None true) as (verifier' & Hv & _); try reflexivity.
    + intros _. by exists None.
    + exists (mkHeader 2 [1] ([], []) (pre_digest_data example_pre_digest 8 ++ from_mc_block_hash (example_hash 3) ++ [RuntimeEnvironmentUpdated])), tt.
      eexists verifier', _. split; [reflexivity|exact Hv].
Defined.

Definition example_child : Header :=
  mkHeader 2 [1] ([], []) (example_pre_digest 8 :: from_mc_block_hash (example_hash 3) ++ [Seal [] []]).
Definition example_headers : gmap bytes Header :=
  <[[2] := example_child]> (<[[1] := example_parent]> {[[0] := example_genesis]}).

Abbreviation example_step := (node_step (S:=BlockDataSourceImpl) (F:=SourceError) (v:=example_view) (D:=Z) (FD:=unit)
  (λ _, None) (λ _, 0) example_find_pre_digest (λ _ l, l) example_node_config example_client example_sources example_aura
  NoCompatibility true Ok tt 6 10).

Lemma example_node_steps :
  ∃ n, rtc example_step (mkNode (BlockSource.example_source 7) tt {[[0] := example_genesis]}) n ∧
    node_headers n = example_headers.
Proof.
  pose (cached := mkBlockSource (example_chain 7) [example_block 2; example_block 3; example_block 4]).
  exists (mkNode cached tt example_headers). split; [|done].
  apply (rtc_l _ _ (mkNode cached tt (<[[1] := example_parent]> {[[0] := example_genesis]}))); [|apply rtc_once].
  - apply (import_block (v:=example_view)) with (clock := 7) (block := mkImport example_parent (Some tt) [] tt None None)
      (imported := mkImport (mkHeader 1 [0] ([], []) (removelast (logs example_parent))) (Some tt) [Seal [] []] tt
        (Some LongestChain) (Some [1])); try (vm_compute; reflexivity); [done|by intros slot [= <-]|done].
  - apply (import_block (v:=example_view)) with (clock := 8) (block := mkImport example_child (Some tt) [] tt None None)
      (imported := mkImport (mkHeader 2 [1] ([], []) (removelast (logs example_child))) (Some tt) [Seal [] []] tt
        (Some LongestChain) (Some [2])); try (vm_compute; reflexivity); [done|by intros slot [= <-]|done].
Qed.

(** A node imports a block of slot 7 that refers to block 2 and its child of slot 8
    that refers to block 3. *)
Lemma imported_references_monotone_witness :
  ∃ (n : Node BlockDataSourceImpl unit) b ab, node_headers n = example_headers ∧
    refers_to (v:=example_view) (min_boundary:=2000) (max_boundary:=6000) example_find_pre_digest example_node_config
      (node_source n) example_child b ∧
    refers_to (v:=example_view) (min_boundary:=2000) (max_boundary:=6000) example_find_pre_digest example_node_config
      (node_source n) example_parent ab ∧ mb_number ab ≤ mb_number b.
Proof.
  destruct example_node_steps as (n & Hsteps & Hheaders).
  destruct (imported_references_monotone (S:=BlockDataSourceImpl) (F:=SourceError) (v:=example_view) (D:=Z) (FD:=unit)
    (λ _, None) (λ _, 0) example_find_pre_digest
    (λ _ l, l) example_node_config example_client example_sources example_aura NoCompatibility true Ok tt 6 10
    example_genesis (BlockSource.example_source 7) tt n example_child example_parent [2]) as (b & ab & Hb & Hab & Hle).
  - intros slot_now h auths pre_header slot seal. simpl. destruct (example_find_pre_digest h) as [slot'|]; [|done].
    case_bool_decide as Hle; [|done]. intros [= _ -> _]. split; [done|apply Hle].
  - intros slot Hslot. apply example_supported. unfold slot_start_time, wmul, wrap, u_bound.
    cbn [example_node_config slot_duration]. rewrite Z.mod_small; lia.
  - by apply example_source_ok.
  - reflexivity.
  - exact Hsteps.
  - rewrite Hheaders. vm_compute. reflexivity.
  - done.
  - apply rtc_once. rewrite Hheaders. split_and!; [exists [2]; vm_compute; reflexivity|done|done|vm_compute; reflexivity].
  - by exists n, b, ab.
Defined.
