(* ===== verification/OffchainTx.v ===== *)
(** * Cardano transactions of the off-chain code

    Models [toolkit/smart-contracts/offchain/src/csl.rs], [await_tx.rs],
    [plutus_script.rs] and the types of
    [toolkit/utils/ogmios-client/src/types.rs]: building, balancing, pricing and
    signing a transaction, and waiting for it.

    The Cardano serialization library ([Csl]) and the Ogmios node ([Ogmios]) are
    classes; a builder of the library is the record of what was put into it.
    Where the code passes the bytes of a transaction to the node, the model
    passes the transaction, and an address is its Bech32 text.  The state of the
    node is threaded with [DS]. *)

From S2P Require Import Prelude Domain PlutusData ContractDatums McHash.

(** ** What Ogmios answers *)

Inductive NativeScript :=
  | NSignature (from : bytes)
  | NAll (from : list NativeScript)
  | NAny (from : list NativeScript)
  | NSome (from : list NativeScript) (at_least : Z)
  | NBefore (slot : Z).

Record OgmiosScript := mkOgmiosScript {
  os_language : string;
  os_cbor : bytes;
  os_json : option NativeScript;
}.

(** Policies and their assets, with names and amounts. *)
Abbreviation native_tokens := (gmap bytes (list (bytes * Z))).

Record OgmiosUtxo := mkOgmiosUtxo {
  ou_transaction : bytes;
  ou_index : Z;
  ou_address : bytes;
  ou_lovelace : Z;
  ou_native_tokens : native_tokens;
  ou_datum : option bytes;
  ou_script : option OgmiosScript;
}.

(** [utxo_id]; [to_csl_tx_input] is the same pair. *)
Definition utxo_id_of (u : OgmiosUtxo) : UtxoId := mkUtxoId (ou_transaction u) (ou_index u).

(** The parameters that the code reads; a fraction is its numerator and
    denominator, and that of a floating point number is the conversion of the
    library [fraction]. *)
Record ProtocolParameters := mkProtocolParameters {
  min_fee_coefficient : Z;
  min_fee_constant : Z;
  stake_pool_deposit : Z;
  stake_credential_deposit : Z;
  max_value_size : Z;
  max_transaction_size : Z;
  script_execution_prices : (Z * Z) * (Z * Z);
  min_utxo_deposit_coefficient : Z;
  min_fee_reference_scripts : option (Z * Z);
  plutus_cost_models : list Z * list Z * list Z;
  max_collateral_inputs : Z;
  collateral_percentage : Z;
}.

Record EvaluateResponse := mkEvaluate { er_purpose : string; er_index : Z; er_memory : Z; er_cpu : Z }.

Inductive OffchainError :=
  | JsError (text : string)
  | OgmiosError
  | Anyhow (text : string).

(** ** Scripts *)

Inductive Network := Mainnet | Testnet.
Definition network_id_kind_to_u8 (network : Network) : Z := match network with Mainnet => 1 | Testnet => 0 end.

Inductive Language := PlutusV1 | PlutusV2 | PlutusV3.
Definition language_to_u8 (language : Language) : Z :=
  match language with PlutusV1 => 1 | PlutusV2 => 2 | PlutusV3 => 3 end.

Record PlutusScript := mkPlutusScript { ps_bytes : bytes; ps_language : Language }.

#[global] Instance Language_eq_dec : EqDecision Language.
Proof. solve_decision. Defined.
#[global] Instance PlutusScript_eq_dec : EqDecision PlutusScript.
Proof. solve_decision. Defined.

(** A native script of the library is [atLeast] of key hashes. *)
Inductive Script :=
  | ScriptPlutus (script : PlutusScript)
  | ScriptNative (threshold : Z) (key_hashes : list bytes).

(** [TryFrom<OgmiosScript> for PlutusScript] *)
Definition plutus_script_try_from (script : OgmiosScript) : result OffchainError PlutusScript :=
  if decide (os_language script = "plutus:v1")%string then Ok (mkPlutusScript (os_cbor script) PlutusV1)
  else if decide (os_language script = "plutus:v2")%string then Ok (mkPlutusScript (os_cbor script) PlutusV2)
  else if decide (os_language script = "plutus:v3")%string then Ok (mkPlutusScript (os_cbor script) PlutusV3)
  else Err (Anyhow "Unsupported Plutus language version").

Definition plutus_script_to_ogmios (val : PlutusScript) : OgmiosScript :=
  mkOgmiosScript
    (match ps_language val with PlutusV1 => "plutus:v1" | PlutusV2 => "plutus:v2" | PlutusV3 => "plutus:v3" end)%string
    (ps_bytes val) None.

(** ** Transactions *)

Record ExUnits := mkExUnits { mem : Z; steps : Z }.
Definition zero_ex_units : ExUnits := mkExUnits 0 0.
Definition ex_units_from_response (resp : EvaluateResponse) : ExUnits := mkExUnits (er_memory resp) (er_cpu resp).

Record TxOutput := mkTxOutput {
  txo_address : bytes;
  txo_lovelace : Z;
  txo_tokens : native_tokens;
  txo_datum : option Datum;
  txo_script_ref : option Script;
}.

(** A script input has a script, in the transaction or in the output of a
    reference input, a redeemer and its units. *)
Inductive SpendWitness :=
  | SpendPlutus (script : PlutusScript) (redeemer : Datum) (units : ExUnits)
  | SpendPlutusRef (script : PlutusScript) (ref_input : UtxoId) (redeemer : Datum) (units : ExUnits).
Record TxInput := mkTxInput {
  txi_id : UtxoId;
  txi_witness : option SpendWitness;
}.

(** Where a minting script comes from, with the redeemer of a Plutus script. *)
Inductive MintWitness :=
  | MintPlutus (script : PlutusScript) (redeemer : Datum) (units : ExUnits)
  | MintPlutusRef (script : PlutusScript) (ref_input : UtxoId) (redeemer : Datum) (units : ExUnits)
  | MintNative (threshold : Z) (key_hashes : list bytes).

Record Mint := mkMint { mint_witness : MintWitness; mint_asset_name : bytes; mint_amount : Z }.

Record TxBuilder := mkTxBuilder {
  b_config : ProtocolParameters;
  b_inputs : list TxInput;
  b_outputs : list TxOutput;
  b_mint : list Mint;
  (** with the size of the script, for the fee *)
  b_reference_inputs : list (UtxoId * Z);
  b_required_signers : list bytes;
  b_collateral : list UtxoId;
  b_validity_start : option Z;
}.

Definition builder_new (config : ProtocolParameters) : TxBuilder := mkTxBuilder config [] [] [] [] [] [] None.
Definition set_inputs (inputs : list TxInput) (b : TxBuilder) : TxBuilder :=
  mkTxBuilder (b_config b) inputs (b_outputs b) (b_mint b) (b_reference_inputs b) (b_required_signers b)
    (b_collateral b) (b_validity_start b).
Definition add_output (output : TxOutput) (b : TxBuilder) : TxBuilder :=
  mkTxBuilder (b_config b) (b_inputs b) (b_outputs b ++ [output]) (b_mint b) (b_reference_inputs b)
    (b_required_signers b) (b_collateral b) (b_validity_start b).
Definition add_asset (mint : Mint) (b : TxBuilder) : TxBuilder :=
  mkTxBuilder (b_config b) (b_inputs b) (b_outputs b) (b_mint b ++ [mint]) (b_reference_inputs b)
    (b_required_signers b) (b_collateral b) (b_validity_start b).
Definition add_script_reference_input (input : UtxoId) (script_size : Z) (b : TxBuilder) : TxBuilder :=
  mkTxBuilder (b_config b) (b_inputs b) (b_outputs b) (b_mint b) (b_reference_inputs b ++ [(input, script_size)])
    (b_required_signers b) (b_collateral b) (b_validity_start b).
Definition add_reference_input (input : UtxoId) (b : TxBuilder) : TxBuilder := add_script_reference_input input 0 b.
Definition add_required_signer (key_hash : bytes) (b : TxBuilder) : TxBuilder :=
  mkTxBuilder (b_config b) (b_inputs b) (b_outputs b) (b_mint b) (b_reference_inputs b)
    (b_required_signers b ++ [key_hash]) (b_collateral b) (b_validity_start b).
Definition set_collateral (collateral : list UtxoId) (b : TxBuilder) : TxBuilder :=
  mkTxBuilder (b_config b) (b_inputs b) (b_outputs b) (b_mint b) (b_reference_inputs b)
    (b_required_signers b) collateral (b_validity_start b).
Definition set_validity_start_interval (slot : Z) (b : TxBuilder) : TxBuilder :=
  mkTxBuilder (b_config b) (b_inputs b) (b_outputs b) (b_mint b) (b_reference_inputs b)
    (b_required_signers b) (b_collateral b) (Some slot).

Record TxBody := mkTxBody {
  inputs : list UtxoId;
  outputs : list TxOutput;
  (** the policies of the mint, in the order of its map *)
  mint_policies : list bytes;
  reference_inputs : list UtxoId;
  required_signers : list bytes;
  collateral : list UtxoId;
  validity_start_interval : option Z;
}.

Record Tx := mkTx {
  body : TxBody;
  (** public keys and signatures *)
  vkeys : list (bytes * bytes);
  native_scripts : list (Z * list bytes);
  plutus_scripts : list PlutusScript;
}.

Definition remove_native_script_witnesses (self : Tx) : Tx :=
  mkTx (body self) (vkeys self) [] (plutus_scripts self).

(** ** The libraries *)

Class Csl := {
  PrivateKey : Type;
  blake2b_224 : bytes → bytes;
  blake2b_256 : bytes → bytes;
  enterprise_script_address : Z → bytes → bytes;
  enterprise_key_address : Z → bytes → bytes;
  to_public : PrivateKey → bytes;
  public_hash : bytes → bytes;
  sign_bytes : PrivateKey → bytes → bytes;
  native_script_hash : Z → list bytes → bytes;
  native_script_to_bytes : Z → list bytes → bytes;
  body_to_bytes : TxBody → bytes;
  datum_to_bytes : Datum → bytes;
  datum_from_bytes : bytes → option Datum;
  (** [AssetName::new] *)
  asset_name_new : bytes → result OffchainError bytes;
  (** [MinOutputAdaCalculator] *)
  calculate_ada : TxOutput → Z → result OffchainError Z;
  (** [Value::checked_add] and [Value::clamped_sub] *)
  value_checked_add : Z * native_tokens → Z * native_tokens → result OffchainError (Z * native_tokens);
  value_clamped_sub : Z * native_tokens → Z * native_tokens → Z * native_tokens;
  (** [add_inputs_from_and_change], and with the percentage of a collateral return *)
  add_inputs_from_and_change : list OgmiosUtxo → bytes → TxBuilder → result OffchainError TxBuilder;
  add_inputs_with_collateral_return : list OgmiosUtxo → bytes → Z → TxBuilder → result OffchainError TxBuilder;
  calc_script_data_hash : list Z * list Z * list Z → TxBuilder → result OffchainError TxBuilder;
  build_tx : TxBuilder → result OffchainError Tx;
}.

Class Ogmios (L : Type) := {
  shelley_network : L → result OffchainError Network;
  query_protocol_parameters : L → result OffchainError ProtocolParameters;
  query_utxos : bytes → L → result OffchainError (list OgmiosUtxo);
  query_utxo_by_id : UtxoId → L → result OffchainError (option OgmiosUtxo);
  evaluate_transaction : Tx → L → result OffchainError (list EvaluateResponse);
  submit_transaction : Tx → L → L * result OffchainError bytes;
  (** the slot of the tip *)
  get_tip_slot : L → result OffchainError Z;
  (** the state of the node after a delay *)
  wait : Z → L → L;
}.

Abbreviation Off L A := (DS L OffchainError A).

Section Offchain.
Context `{!Csl} {L : Type} `{!Ogmios L}.
(** The order in which a [HashMap] is visited. *)
Context (hash_order : ∀ A : Type, list A → list A).

Definition query {A} (q : L → result OffchainError A) : Off L A := λ s, Ret (s, q s).

(** ** Addresses and hashes *)

Definition plutus_script_hash (script_bytes : bytes) (language : Language) : bytes :=
  blake2b_224 (language_to_u8 language :: script_bytes).
Definition script_hash (self : PlutusScript) : bytes := plutus_script_hash (ps_bytes self) (ps_language self).
Definition script_address (script_bytes : bytes) (network : Network) (language : Language) : bytes :=
  enterprise_script_address (network_id_kind_to_u8 network) (plutus_script_hash script_bytes language).
(** [PlutusScript::address]; [address_bech32] is its text. *)
Definition plutus_address (self : PlutusScript) (network : Network) : bytes :=
  script_address (ps_bytes self) network (ps_language self).
Definition key_hash_address (pub_key_hash : bytes) (network : Network) : bytes :=
  enterprise_key_address (network_id_kind_to_u8 network) pub_key_hash.

Definition empty_asset_name : bytes := [].
Definition unit_plutus_data : Datum := new_empty_constr_plutus_data 0.

(** ** Execution costs *)

Inductive Costs :=
  | ZeroCosts
  | CostsOf (mints : gmap bytes ExUnits) (spends : gmap Z ExUnits).

Definition get_mint (self : Costs) (script : PlutusScript) : outcome ExUnits :=
  match self with
  | ZeroCosts => Ret zero_ex_units
  | CostsOf mints _ => expect (mints !! script_hash script)
  end.
Definition get_spend (self : Costs) (spend_ix : Z) : outcome ExUnits :=
  match self with
  | ZeroCosts => Ret zero_ex_units
  | CostsOf _ spends => expect (spends !! spend_ix)
  end.
Definition get_one_spend (self : Costs) : outcome ExUnits :=
  match self with
  | ZeroCosts => Ret zero_ex_units
  | CostsOf _ spends => match map_to_list spends with [(_, x)] => Ret x | _ => Panic end
  end.
Definition get_spend_indices (self : Costs) : list Z :=
  match self with
  | ZeroCosts => []
  | CostsOf _ spends => hash_order Z (map_to_list spends).*1
  end.

Definition add_cost (tx : Tx) (costs : outcome (gmap bytes ExUnits * gmap Z ExUnits)) (er : EvaluateResponse) :
    outcome (gmap bytes ExUnits * gmap Z ExUnits) :=
  '(mints, spends) ← costs;
  if decide (er_purpose er = "mint")%string then
    policy ← expect (mint_policies (body tx) !! Z.to_nat (er_index er));
    Ret (<[policy := ex_units_from_response er]> mints, spends)
  else if decide (er_purpose er = "spend")%string then
    Ret (mints, <[er_index er := ex_units_from_response er]> spends)
  else Ret (mints, spends).

Definition from_ogmios (tx : Tx) : Off L Costs := λ s,
  match evaluate_transaction tx s with
  | Err e => Ret (s, Err e)
  | Ok evaluate_response =>
      '(mints, spends) ← foldl (add_cost tx) (Ret (∅, ∅)) evaluate_response;
      Ret (s, Ok (CostsOf mints spends))
  end.

(** A transaction that is built for some costs. *)
Definition made (make_tx : Costs → outcome (result OffchainError Tx)) (costs : Costs) : Off L Tx := λ s,
  r ← make_tx costs; Ret (s, r).

Definition calculate_costs (make_tx : Costs → outcome (result OffchainError Tx)) : Off L Tx :=
  tx ← made make_tx ZeroCosts;
  costs ← from_ogmios tx;
  tx ← made make_tx costs;
  costs ← from_ogmios tx;
  made make_tx costs.

(** ** The context of a transaction *)

Record TransactionContext := mkContext {
  payment_key : PrivateKey;
  payment_key_utxos : list OgmiosUtxo;
  network : Network;
  protocol_parameters : ProtocolParameters;
  change_address : bytes;
}.

Definition for_payment_key (payment_key : PrivateKey) : Off L TransactionContext :=
  network ← query shelley_network;
  protocol_parameters ← query query_protocol_parameters;
  let payment_address := key_hash_address (public_hash (to_public payment_key)) network in
  payment_key_utxos ← query (query_utxos payment_address);
  mret (mkContext payment_key payment_key_utxos network protocol_parameters payment_address).

Definition with_change_address (self : TransactionContext) (change_address : bytes) : TransactionContext :=
  mkContext (payment_key self) (payment_key_utxos self) (network self) (protocol_parameters self) change_address.

Definition payment_key_hash (self : TransactionContext) : bytes := public_hash (to_public (payment_key self)).

Definition sign (self : TransactionContext) (tx : Tx) : Tx :=
  let tx_hash := blake2b_256 (body_to_bytes (body tx)) in
  let signature := sign_bytes (payment_key self) tx_hash in
  mkTx (body tx) (vkeys tx ++ [(to_public (payment_key self), signature)]) (native_scripts tx) (plutus_scripts tx).

(** ** Conversions of Ogmios values *)

(** The names of the assets are checked; the order of policies does not matter. *)
Definition value_to_csl (lovelace : Z) (tokens : native_tokens) : result OffchainError (Z * native_tokens) :=
  _ ← mapM (M:=result OffchainError) (λ '(policy_id, assets),
        mapM (M:=result OffchainError) (λ asset, map_err (λ _, JsError "asset name is invalid") (asset_name_new asset.1)) assets)
        (map_to_list tokens);
  Ok (lovelace, tokens).

(** [MultiAsset::get_asset], and the same on the tokens of an output. *)
Definition asset_amount (tokens : native_tokens) (asset : AssetId) : Z :=
  match head (filter (λ a, a.1 = asset_name asset) (default [] (tokens !! policy_id asset))) with
  | Some a => a.2
  | None => 0
  end.
Definition get_asset_amount (self : OgmiosUtxo) (asset_id : AssetId) : Z := asset_amount (ou_native_tokens self) asset_id.

Definition get_plutus_data (self : OgmiosUtxo) : option Datum := bytes ← ou_datum self; datum_from_bytes bytes.

(** [get_builder_config] *)
Definition get_builder_config (context : TransactionContext) : result OffchainError ProtocolParameters :=
  _ ← ok_or (min_fee_reference_scripts (protocol_parameters context)) (JsError "Failed to decode cost base");
  Ok (protocol_parameters context).

(** ** Building *)

(** [MultiAsset::set_asset], and subtracting all there is of an asset. *)
Definition set_asset (asset : AssetId) (amount : Z) (ma : native_tokens) : native_tokens :=
  <[policy_id asset := (asset_name asset, amount)
      :: filter (λ a, a.1 ≠ asset_name asset) (default [] (ma !! policy_id asset))]> ma.
Definition remove_asset (asset : AssetId) (ma : native_tokens) : native_tokens :=
  match filter (λ a, a.1 ≠ asset_name asset) (default [] (ma !! policy_id asset)) with
  | [] => delete (policy_id asset) ma
  | assets => <[policy_id asset := assets]> ma
  end.

Definition with_asset_amount (asset : AssetId) (amount : Z) (ma : native_tokens) : result OffchainError native_tokens :=
  name ← asset_name_new (asset_name asset);
  let asset := mkAssetId (policy_id asset) name in
  if 0 <? amount then Ok (set_asset asset amount ma)
  else if 0 <? asset_amount ma asset then Ok (remove_asset asset ma)
  else Ok ma.

(** [MultiAsset::new().with_asset_amount(asset, amount)] for a positive amount. *)
Definition single_asset (policy_id asset_name : bytes) (amount : Z) : result OffchainError native_tokens :=
  asset_name ← asset_name_new asset_name;
  Ok {[policy_id := [(asset_name, amount)]]}.

Definition with_minimum_ada (output : TxOutput) (ctx : TransactionContext) : result OffchainError TxOutput :=
  min_ada ← calculate_ada
              (mkTxOutput (txo_address output) 0 (txo_tokens output) (txo_datum output) (txo_script_ref output))
              (min_utxo_deposit_coefficient (protocol_parameters ctx));
  Ok (mkTxOutput (txo_address output) min_ada (txo_tokens output) (txo_datum output) (txo_script_ref output)).

Definition with_minimum_ada_and_asset (output : TxOutput) (ma : native_tokens) (ctx : TransactionContext) :
    result OffchainError TxOutput :=
  with_minimum_ada (mkTxOutput (txo_address output) 0 ma (txo_datum output) (txo_script_ref output)) ctx.

Definition add_output_with_one_script_token (validator policy : PlutusScript) (datum : Datum)
    (ctx : TransactionContext) (b : TxBuilder) : result OffchainError TxBuilder :=
  let amount_builder := mkTxOutput (plutus_address validator (network ctx)) 0 ∅ (Some datum) None in
  ma ← single_asset (script_hash policy) empty_asset_name 1;
  output ← with_minimum_ada_and_asset amount_builder ma ctx;
  Ok (add_output output b).

Definition add_mint_script_tokens (script : PlutusScript) (asset_name : bytes) (redeemer_data : Datum)
    (ex_units : ExUnits) (amount : Z) (b : TxBuilder) : TxBuilder :=
  add_asset (mkMint (MintPlutus script redeemer_data ex_units) asset_name amount) b.
Definition add_mint_one_script_token (script : PlutusScript) (asset_name : bytes) (redeemer_data : Datum)
    (ex_units : ExUnits) (b : TxBuilder) : TxBuilder :=
  add_asset (mkMint (MintPlutus script redeemer_data ex_units) asset_name 1) b.

Definition add_mint_script_token_using_reference_script (script : Script) (ref_input : UtxoId) (amount : Z)
    (costs : Costs) (b : TxBuilder) : outcome TxBuilder :=
  match script with
  | ScriptPlutus script =>
      units ← get_mint costs script;
      Ret (add_asset (mkMint (MintPlutusRef script ref_input unit_plutus_data units) empty_asset_name amount) b)
  | ScriptNative threshold key_hashes =>
      Ret (add_reference_input ref_input
             (add_asset (mkMint (MintNative threshold key_hashes) empty_asset_name amount) b))
  end.
Definition add_mint_one_script_token_using_reference_script (script : Script) (ref_input : UtxoId) (costs : Costs)
    (b : TxBuilder) : outcome TxBuilder :=
  add_mint_script_token_using_reference_script script ref_input 1 costs b.

Definition add_script_utxo_input (utxo : OgmiosUtxo) (script : PlutusScript) (data : Datum) (ex_units : ExUnits)
    (inputs : list TxInput) : result OffchainError (list TxInput) :=
  _ ← value_to_csl (ou_lovelace utxo) (ou_native_tokens utxo);
  Ok (inputs ++ [mkTxInput (utxo_id_of utxo) (Some (SpendPlutus script data ex_units))]).

Fixpoint add_regular_inputs (utxos : list OgmiosUtxo) (inputs : list TxInput) : result OffchainError (list TxInput) :=
  match utxos with
  | [] => Ok inputs
  | utxo :: utxos =>
      _ ← value_to_csl (ou_lovelace utxo) (ou_native_tokens utxo);
      add_regular_inputs utxos (inputs ++ [mkTxInput (utxo_id_of utxo) None])
  end.

Fixpoint add_collateral_inputs (inputs : list OgmiosUtxo) (acc : list UtxoId) (b : TxBuilder) :
    result OffchainError TxBuilder :=
  match inputs with
  | [] => Ok (set_collateral acc b)
  | utxo :: inputs =>
      _ ← value_to_csl (ou_lovelace utxo) (ou_native_tokens utxo);
      add_collateral_inputs inputs (acc ++ [utxo_id_of utxo]) b
  end.

(** ** Balancing *)

(** The stable sort by descending lovelace. *)
Fixpoint insert_by_lovelace (u : OgmiosUtxo) (l : list OgmiosUtxo) : list OgmiosUtxo :=
  match l with
  | [] => [u]
  | v :: l => if ou_lovelace v <=? ou_lovelace u then u :: v :: l else v :: insert_by_lovelace u l
  end.
Definition max_possible_collaterals (ctx : TransactionContext) : list OgmiosUtxo :=
  take (Z.to_nat (max_collateral_inputs (protocol_parameters ctx)))
    (foldr insert_by_lovelace [] (payment_key_utxos ctx)).

(** The payment outputs are converted first, which checks the names of assets. *)
Definition try_balance (b : TxBuilder) (collateral_inputs : list OgmiosUtxo) (ctx : TransactionContext) :
    result OffchainError Tx :=
  let b := add_required_signer (payment_key_hash ctx) b in
  b ← (if is_empty collateral_inputs then
         _ ← mapM (M:=result OffchainError) (λ u, value_to_csl (ou_lovelace u) (ou_native_tokens u)) (payment_key_utxos ctx);
         add_inputs_from_and_change (payment_key_utxos ctx) (change_address ctx) b
       else
         b ← add_collateral_inputs collateral_inputs [] b;
         _ ← mapM (M:=result OffchainError) (λ u, value_to_csl (ou_lovelace u) (ou_native_tokens u)) (payment_key_utxos ctx);
         b ← add_inputs_with_collateral_return (payment_key_utxos ctx) (change_address ctx)
               (collateral_percentage (protocol_parameters ctx)) b;
         calc_script_data_hash (plutus_cost_models (protocol_parameters ctx)) b);
  build_tx b.

Fixpoint balance_loop (b : TxBuilder) (ctx : TransactionContext) (selected candidates : list OgmiosUtxo) :
    result OffchainError Tx :=
  match candidates with
  | [] => map_err (λ _, JsError "Could not balance transaction") (try_balance b selected ctx)
  | input :: candidates =>
      match try_balance b selected ctx with
      | Ok tx => Ok tx
      | Err _ => balance_loop b ctx (selected ++ [input]) candidates
      end
  end.
Definition balance_update_and_build (b : TxBuilder) (ctx : TransactionContext) : result OffchainError Tx :=
  balance_loop b ctx [] (max_possible_collaterals ctx).

(** ** Waiting for a transaction *)

(** [FixedDelayRetries::await_tx_output]: a first probe and then [retries] more. *)
Fixpoint await_tx_output (delay : Z) (retries : nat) (tx_hash : bytes) : Off L unit := λ s,
  match query_utxo_by_id (mkUtxoId tx_hash 0) s with
  | Ok (Some _) => Ret (s, Ok tt)
  | _ =>
      match retries with
      | O => Ret (s, Err (Anyhow "Retries for confirmation exceeded the limit"))
      | S retries => await_tx_output delay retries tx_hash (wait delay s)
      end
  end.
End Offchain.

(** ** The laws of the libraries *)

(** A builder that was completed with inputs among some outputs and with change. *)
Definition completes (utxos : list OgmiosUtxo) (change_address : bytes) (b b' : TxBuilder) : Prop :=
  ∃ extra change,
    b_inputs b' = b_inputs b ++ extra ∧ (∀ i, i ∈ extra → txi_id i ∈ utxo_id_of <$> utxos) ∧
    b_outputs b' = b_outputs b ++ change ∧ (∀ o, o ∈ change → txo_address o = change_address).

Class CslLaws `{!Csl} : Prop := {
  blake2b_224_length b : length (blake2b_224 b) = 28%nat;
  datum_bytes_roundtrip d : datum_from_bytes (datum_to_bytes d) = Some d;
  key_address_not_script n h n' h' : enterprise_key_address n h ≠ enterprise_script_address n' h';
  asset_name_new_Ok name name' : asset_name_new name = Ok name' → name' = name;
  add_inputs_completes utxos address b b' :
    add_inputs_from_and_change utxos address b = Ok b' → completes utxos address b b';
  add_inputs_collateral_completes utxos address p b b' :
    add_inputs_with_collateral_return utxos address p b = Ok b' → completes utxos address b b';
  calc_script_data_hash_keeps models b b' :
    calc_script_data_hash models b = Ok b' → b_inputs b' = b_inputs b ∧ b_outputs b' = b_outputs b;
  build_tx_body b tx :
    build_tx b = Ok tx → inputs (body tx) ≡ₚ txi_id <$> b_inputs b ∧ outputs (body tx) = b_outputs b;
}.

(** A script of an output, as the node shows it. *)
Definition node_script `{!Csl} (script : Script) : OgmiosScript :=
  match script with
  | ScriptPlutus script => plutus_script_to_ogmios script
  | ScriptNative threshold key_hashes =>
      mkOgmiosScript "native" (native_script_to_bytes threshold key_hashes)
        (Some (NSome (NSignature <$> key_hashes) threshold))
  end.

(** The output of a transaction on the ledger. *)
Definition output_utxo `{!Csl} (id : bytes) (i : nat) (o : TxOutput) : OgmiosUtxo :=
  mkOgmiosUtxo id (Z.of_nat i) (txo_address o) (txo_lovelace o) (txo_tokens o) (datum_to_bytes <$> txo_datum o)
    (node_script <$> txo_script_ref o).

(** The node answers from the unspent outputs of its ledger; a transaction that
    it accepts is applied, and nobody else submits one in the meantime. *)
Class OgmiosLaws `{!Csl} (L : Type) `{!Ogmios L} (unspent : L → list OgmiosUtxo) : Prop := {
  unspent_unique s : NoDup (utxo_id_of <$> unspent s);
  query_utxos_Ok address s utxos :
    query_utxos address s = Ok utxos → utxos ≡ₚ filter (λ u, ou_address u = address) (unspent s);
  submit_Ok tx s s' id :
    submit_transaction tx s = (s', Ok id) →
    unspent s' ≡ₚ filter (λ u, utxo_id_of u ∉ inputs (body tx)) (unspent s) ++ imap (output_utxo id) (outputs (body tx));
  submit_Err tx s s' e : submit_transaction tx s = (s', Err e) → unspent s' = unspent s;
  wait_unspent d s : unspent (wait d s) = unspent s;
  (** a node serves one network *)
  one_network s s' n n' : shelley_network s = Ok n → shelley_network s' = Ok n' → n = n';
}.

(** ** Lemmas *)

(** Inversion of a step of [DS]. *)
Lemma DS_bind_inv {S E A B} (m : DS S E A) (k : A → DS S E B) s s' r :
  (m ≫= k) s = Ret (s', r) →
  (∃ s1 a, m s = Ret (s1, Ok a) ∧ k a s1 = Ret (s', r)) ∨ (∃ e, m s = Ret (s', Err e) ∧ r = Err e).
Proof.
  unfold mbind at 1, DS_bind. destruct (m s) as [[s1 [a|e]]|] eqn:Hm; simpl; [| |done]; intros Hr.
  - left. by exists s1, a.
  - right. injection Hr as -> <-. by exists e.
Qed.

Section Lemmas.
Context `{!Csl, !CslLaws} {L : Type} `{!Ogmios L} {unspent : L → list OgmiosUtxo} `{!OgmiosLaws L unspent}.
Implicit Types (s : L) (ctx : TransactionContext).

Lemma add_collateral_inputs_keeps utxos : ∀ acc b b',
  add_collateral_inputs utxos acc b = Ok b' → b_inputs b' = b_inputs b ∧ b_outputs b' = b_outputs b.
Proof.
  induction utxos as [|u utxos IH]; simpl; intros acc b b'; [by intros [= <-]|].
  destruct (value_to_csl _ _); simpl; [apply IH|done].
Qed.

(** What a transaction of the builder spends and pays. *)
Definition makes ctx (removed : list UtxoId) (Q : list TxOutput → Prop) (tx : Tx) : Prop :=
  ∃ outs extra change,
    Q outs ∧ inputs (body tx) ≡ₚ removed ++ extra ∧ (∀ i, i ∈ extra → i ∈ utxo_id_of <$> payment_key_utxos ctx) ∧
    outputs (body tx) = outs ++ change ∧ (∀ o, o ∈ change → txo_address o = change_address ctx).

(** Witnesses do not matter. *)
Lemma makes_body ctx removed Q tx tx' : body tx' = body tx → makes ctx removed Q tx → makes ctx removed Q tx'.
Proof. unfold makes. by intros ->. Qed.

Lemma completes_makes ctx b b' tx :
  completes (payment_key_utxos ctx) (change_address ctx) b b' → build_tx b' = Ok tx →
  makes ctx (txi_id <$> b_inputs b) (λ outs, outs = b_outputs b) tx.
Proof.
  intros (extra & change & Hi & Hextra & Ho & Hchange) [Htx Htxo]%build_tx_body.
  exists (b_outputs b), (txi_id <$> extra), change. split_and!; [done| | |by rewrite Htxo|done].
  - by rewrite Htx, Hi, fmap_app.
  - intros i (j & -> & Hj)%list_elem_of_fmap. by apply Hextra.
Qed.

Lemma try_balance_makes b collaterals ctx tx :
  try_balance b collaterals ctx = Ok tx → makes ctx (txi_id <$> b_inputs b) (λ outs, outs = b_outputs b) tx.
Proof.
  unfold try_balance. set (b0 := add_required_signer _ b). destruct (is_empty collaterals).
  - destruct (mapM _ _); simpl; [|done]. destruct (add_inputs_from_and_change _ _ b0) as [b1|] eqn:H1; simpl; [|done].
    intros Hb. apply add_inputs_completes in H1. by apply (completes_makes ctx b0 b1).
  - destruct (add_collateral_inputs _ _ b0) as [b1|] eqn:H1; simpl; [|done]. destruct (mapM _ _); simpl; [|done].
    destruct (add_inputs_with_collateral_return _ _ _ b1) as [b2|] eqn:H2; simpl; [|done].
    destruct (calc_script_data_hash _ b2) as [b3|] eqn:H3; simpl; [|done]. intros Hb.
    apply add_collateral_inputs_keeps in H1 as [Hi1 Ho1]. apply calc_script_data_hash_keeps in H3 as [Hi3 Ho3].
    destruct (add_inputs_collateral_completes _ _ _ _ _ H2) as (extra & change & Hi & Hextra & Ho & Hchange).
    apply (completes_makes ctx b0 b3); [|done]. exists extra, change.
    by rewrite Hi3, Hi, Hi1, Ho3, Ho, Ho1.
Qed.

Lemma balance_makes b ctx tx :
  balance_update_and_build b ctx = Ok tx → makes ctx (txi_id <$> b_inputs b) (λ outs, outs = b_outputs b) tx.
Proof.
  unfold balance_update_and_build. generalize (@nil OgmiosUtxo) as selected.
  induction (max_possible_collaterals ctx) as [|u us IH]; simpl; intros selected.
  - destruct (try_balance b selected ctx) as [tx'|] eqn:Hb; [|done]. intros [= <-]. by apply try_balance_makes in Hb.
  - destruct (try_balance b selected ctx) as [tx'|] eqn:Hb; [|apply IH].
    intros [= <-]. by apply try_balance_makes in Hb.
Qed.

(** ** Effects on the ledger *)

Definition at_address (address : bytes) s : list OgmiosUtxo := filter (λ u, ou_address u = address) (unspent s).
Definition is_script_address (address : bytes) : Prop := ∃ n h, address = enterprise_script_address n h.
Definition is_key_address (address : bytes) : Prop := ∃ n h, address = enterprise_key_address n h.

Lemma script_not_key a a' : is_script_address a → is_key_address a' → a ≠ a'.
Proof. intros (n & h & ->) (n' & h' & ->) Heq. symmetry in Heq. by apply key_address_not_script in Heq. Qed.

(** The outputs of the context are unspent and at the address of a key, and the
    network is that of the node. *)
Definition context_ok s ctx : Prop :=
  (∀ u, u ∈ payment_key_utxos ctx → u ∈ unspent s ∧ is_key_address (ou_address u)) ∧
  is_key_address (change_address ctx) ∧ ∃ s0 : L, shelley_network s0 = Ok (network ctx).

Lemma for_payment_key_Ok key s s' ctx :
  for_payment_key key s = Ret (s', Ok ctx) → s' = s ∧ context_ok s ctx ∧ payment_key ctx = key.
Proof.
  unfold for_payment_key, query, mbind, DS_bind. simpl.
  destruct (shelley_network s) as [n|] eqn:Hn; simpl; [|done].
  destruct (query_protocol_parameters s) as [pp|]; simpl; [|done].
  destruct (query_utxos _ s) as [us|] eqn:Hus; simpl; [|done]. intros [= <- <-]. split; [done|]. split; [|done].
  split; [|split; [by eexists _, _|by exists s]]. simpl. intros u Hu. rewrite (query_utxos_Ok _ _ _ Hus) in Hu.
  apply list_elem_of_filter in Hu as [-> Hu]. split; [done|]. by eexists _, _.
Qed.

Lemma for_payment_key_state key s s' r : for_payment_key key s = Ret (s', r) → s' = s.
Proof.
  unfold for_payment_key, query, mbind, DS_bind. simpl.
  destruct (shelley_network s) as [n|]; simpl; [|by intros [= <-]].
  destruct (query_protocol_parameters s) as [pp|]; simpl; [|by intros [= <-]].
  by destruct (query_utxos _ s) as [us|]; simpl; intros [= <-].
Qed.

Lemma unspent_same_id s u u' : u ∈ unspent s → u' ∈ unspent s → utxo_id_of u = utxo_id_of u' → u = u'.
Proof.
  intros Hu Hu' Hid. apply list_elem_of_lookup in Hu as [i Hi]. apply list_elem_of_lookup in Hu' as [j Hj].
  assert (i = j) as ->; [|congruence].
  eapply NoDup_lookup; [apply (unspent_unique s)| |]; rewrite list_lookup_fmap; [by rewrite Hi|]. rewrite Hj. simpl. by rewrite Hid.
Qed.

(** At the address of a script, an accepted transaction removes the outputs it
    was made to spend and adds those it was made to pay. *)
Lemma submit_effect s s' ctx removed Q tx id address :
  context_ok s ctx → makes ctx removed Q tx → is_script_address address →
  submit_transaction tx s = (s', Ok id) →
  ∃ outs, Q outs ∧ at_address address s' ≡ₚ
    filter (λ u, utxo_id_of u ∉ removed) (at_address address s)
    ++ filter (λ u, ou_address u = address) (imap (output_utxo id) outs).
Proof.
  intros (Hpay & Hchange & _) (outs & extra & change & HQ & Hin & Hextra & Hout & Hch) Haddr Hsub.
  exists outs. split; [done|]. unfold at_address at 1. rewrite (submit_Ok _ _ _ _ Hsub), filter_app.
  rewrite Hout, imap_app, filter_app.
  rewrite (filter_none _ (imap _ change)).
  - rewrite app_nil_r. apply Permutation_app; [|done].
    assert (filter (λ u, ou_address u = address) (filter (λ u, utxo_id_of u ∉ inputs (body tx)) (unspent s))
      = filter (λ u, utxo_id_of u ∉ removed) (at_address address s)) as ->; [|done].
    unfold at_address. rewrite !list_filter_filter. apply list_filter_iff_elem. intros u Hu.
    split; intros [H1 H2]; (split; [|done]) || (split; [done|]).
    + intros Hr. apply H2. rewrite Hin. apply elem_of_app. by left.
    + intros Hi. rewrite Hin in Hi. apply elem_of_app in Hi as [Hi|Hi]; [done|].
      apply Hextra, list_elem_of_fmap in Hi as (v & Hid & Hv). apply Hpay in Hv as [Hv Hkey].
      rewrite (unspent_same_id s u v) in H2 by done. by apply (script_not_key _ _ Haddr Hkey).
  - apply Forall_forall. intros u Hu. apply elem_of_lookup_imap in Hu as (i & o & -> & Ho).
    apply list_elem_of_lookup_2, Hch in Ho. simpl. rewrite Ho. intros <-. by apply (script_not_key _ _ Haddr Hchange).
Qed.

(** Pricing asks the node and changes nothing. *)
Lemma from_ogmios_state tx s s' r : from_ogmios tx s = Ret (s', r) → s' = s.
Proof.
  unfold from_ogmios. destruct (evaluate_transaction tx s); [|by intros [= <-]].
  destruct (foldl _ _ _) as [[m sp]|]; simpl; [|done]. by intros [= <-].
Qed.

Lemma calculate_costs_spec (P : Tx → Prop) make_tx s s' r :
  (∀ costs tx, make_tx costs = Ret (Ok tx) → P tx) →
  calculate_costs make_tx s = Ret (s', r) →
  s' = s ∧ match r with Ok tx => P tx | Err _ => True end.
Proof.
  intros HP. unfold calculate_costs, made.
  assert (∀ costs s1 s2 r', (r0 ← make_tx costs; Ret (s1, r0)) = Ret (s2, r') →
    s2 = s1 ∧ match r' with Ok tx => P tx | Err _ => True end) as Hmade.
  { intros costs s1 s2 r'. destruct (make_tx costs) as [r0|] eqn:Hm; [|done]. intros [= <- <-]. split; [done|].
    destruct r0; [by eapply HP|done]. }
  intros [(s1 & tx1 & H1 & Hk)|(e & Hk & ->)]%DS_bind_inv; [|by apply Hmade in Hk as [-> _]].
  apply Hmade in H1 as [-> _].
  apply DS_bind_inv in Hk as [(s2 & c1 & H2 & Hk)|(e & Hk & ->)]; [|by apply from_ogmios_state in Hk as ->].
  apply from_ogmios_state in H2 as ->.
  apply DS_bind_inv in Hk as [(s3 & tx2 & H3 & Hk)|(e & Hk & ->)]; [|by apply Hmade in Hk as [-> _]].
  apply Hmade in H3 as [-> _].
  apply DS_bind_inv in Hk as [(s4 & c2 & H4 & Hk)|(e & Hk & ->)]; [|by apply from_ogmios_state in Hk as ->].
  apply from_ogmios_state in H4 as ->. by apply Hmade in Hk.
Qed.

Lemma await_unspent delay retries tx_hash : ∀ s s' r,
  await_tx_output delay retries tx_hash s = Ret (s', r) → unspent s' = unspent s.
Proof.
  induction retries as [|n IH]; simpl; intros s s' r.
  - destruct (query_utxo_by_id _ s) as [[u|]|]; by intros [= <- _].
  - destruct (query_utxo_by_id _ s) as [[u|]|]; [by intros [= <- _]| |]; intros Hr%IH; by rewrite Hr, wait_unspent.
Qed.

(** The wait succeeds once the first output of the transaction is seen within the
    retries. *)
Lemma await_succeeds delay tx_hash : ∀ retries n s,
  (n ≤ retries)%nat → (∃ u, query_utxo_by_id (mkUtxoId tx_hash 0) (Nat.iter n (wait delay) s) = Ok (Some u)) →
  ∃ s', await_tx_output delay retries tx_hash s = Ret (s', Ok tt).
Proof.
  induction retries as [|k IH]; intros n s Hn Hu.
  - destruct n as [|n]; [|lia]. destruct Hu as [u Hu]. simpl in *. rewrite Hu. by eexists.
  - destruct n as [|n]; simpl.
    + destruct Hu as [u Hu]. simpl in Hu. rewrite Hu. by eexists.
    + rewrite Nat.iter_succ_r in Hu. destruct (IH n (wait delay s)) as [s' Hs]; [lia|done|].
      destruct (query_utxo_by_id _ s) as [[u'|]|]; [by eexists| |]; by exists s'.
Qed.
End Lemmas.
