(* ===== verification/OffchainGovernance.v ===== *)
(** * Scripts, governance and submission of the off-chain code

    Models [scripts_data.rs], [governance.rs] and [multisig.rs] of
    [toolkit/smart-contracts/offchain/src]: the scripts of a partner chain, the
    governance policy that is read from Cardano, and the submission of a
    transaction by a single governance authority or its preparation for several.

    The raw scripts, their application to data and the key of the temporary
    wallet come from libraries and are parameters. *)

From S2P Require Import Prelude Domain PlutusData ContractDatums McHash OffchainTx.

(** ** The scripts of a partner chain *)

Inductive RawScript :=
  | COMMITTEE_CANDIDATE_VALIDATOR | D_PARAMETER_POLICY | D_PARAMETER_VALIDATOR | GOVERNED_MAP_POLICY
  | GOVERNED_MAP_VALIDATOR | ILLIQUID_CIRCULATION_SUPPLY_AUTHORITY_TOKEN_POLICY
  | ILLIQUID_CIRCULATION_SUPPLY_VALIDATOR | PERMISSIONED_CANDIDATES_POLICY | PERMISSIONED_CANDIDATES_VALIDATOR
  | RESERVE_AUTH_POLICY | RESERVE_VALIDATOR | VERSION_ORACLE_POLICY | VERSION_ORACLE_VALIDATOR.

Inductive ScriptId :=
  | IdGovernancePolicy | IdGovernedMapPolicy | IdGovernedMapValidator | IdReserveValidator | IdReserveAuthPolicy
  | IdIlliquidCirculationSupplyValidator | IdIlliquidCirculationSupplyAuthorityTokenPolicy.

(** The crates [raw-scripts] and [uplc]. *)
Class Scripts := {
  raw_script : RawScript → bytes;
  script_id_u32 : ScriptId → Z;
  script_id_try_from : Z → option ScriptId;
  apply_data : PlutusScript → Datum → result OffchainError PlutusScript;
  (** the decoding of a script panics *)
  unapply_data : PlutusScript → outcome (result OffchainError Datum);
  (** an address as data *)
  address_to_data : bytes → result OffchainError Datum;
}.

Class ScriptsLaws `{!Scripts} : Prop := {
  script_id_width id : in_u 32 (script_id_u32 id);
  script_id_of_u32 n id : script_id_try_from n = Some id → script_id_u32 id = n;
}.

Record PlutusScriptData := mkScriptData {
  sd_validator : PlutusScript;
  sd_validator_address : bytes;
  sd_policy : PlutusScript;
}.

Section ScriptsData.
Context `{!Csl, !Scripts}.

(** The macro [plutus_script!] *)
Definition plutus_script (ps : RawScript) (args : list Datum) : result OffchainError PlutusScript :=
  foldl (λ r arg, ps ← r; apply_data ps arg) (Ok (mkPlutusScript (raw_script ps) PlutusV2)) args.

Definition script_id_data (id : ScriptId) : Datum := uint_to_datum (script_id_u32 id).
Definition policy_id (self : PlutusScriptData) : bytes := script_hash (sd_policy self).
Definition policy_id_as_plutus_data (self : PlutusScriptData) : Datum := ByteStringDatum (script_hash (sd_policy self)).

Definition version_oracle_scripts (genesis_utxo : UtxoId) (network : Network) : result OffchainError PlutusScriptData :=
  validator ← plutus_script VERSION_ORACLE_VALIDATOR [to_datum genesis_utxo];
  let validator_address := plutus_address validator network in
  address_data ← address_to_data validator_address;
  policy ← plutus_script VERSION_ORACLE_POLICY [to_datum genesis_utxo; address_data];
  Ok (mkScriptData validator validator_address policy).

Definition governed_map_scripts (genesis_utxo : UtxoId) (network : Network) : result OffchainError PlutusScriptData :=
  version_oracle_data ← version_oracle_scripts genesis_utxo network;
  validator ← plutus_script GOVERNED_MAP_VALIDATOR
    [script_id_data IdGovernedMapValidator; to_datum genesis_utxo; to_datum (policy_id version_oracle_data)];
  let validator_address := plutus_address validator network in
  policy ← plutus_script GOVERNED_MAP_POLICY
    [script_id_data IdGovernedMapPolicy; to_datum genesis_utxo; to_datum (policy_id version_oracle_data)];
  Ok (mkScriptData validator validator_address policy).

Definition d_parameter_scripts (genesis_utxo : UtxoId) (network : Network) : result OffchainError PlutusScriptData :=
  version_oracle_data ← version_oracle_scripts genesis_utxo network;
  validator ← plutus_script D_PARAMETER_VALIDATOR [to_datum genesis_utxo; to_datum (policy_id version_oracle_data)];
  let validator_address := plutus_address validator network in
  address_data ← address_to_data validator_address;
  policy ← plutus_script D_PARAMETER_POLICY
    [to_datum genesis_utxo; to_datum (policy_id version_oracle_data); address_data];
  Ok (mkScriptData validator validator_address policy).

Definition permissioned_candidates_scripts (genesis_utxo : UtxoId) (network : Network) :
    result OffchainError PlutusScriptData :=
  version_oracle_data ← version_oracle_scripts genesis_utxo network;
  validator ← plutus_script PERMISSIONED_CANDIDATES_VALIDATOR
    [to_datum genesis_utxo; to_datum (policy_id version_oracle_data)];
  let validator_address := plutus_address validator network in
  address_data ← address_to_data validator_address;
  policy ← plutus_script PERMISSIONED_CANDIDATES_POLICY
    [to_datum genesis_utxo; to_datum (policy_id version_oracle_data); address_data];
  Ok (mkScriptData validator validator_address policy).

Definition registered_candidates_scripts (genesis_utxo : UtxoId) : result OffchainError PlutusScript :=
  plutus_script COMMITTEE_CANDIDATE_VALIDATOR [to_datum genesis_utxo].

(** Validator and authority token policy. *)
Definition reserve_scripts (genesis_utxo : UtxoId) (network : Network) :
    result OffchainError (PlutusScript * PlutusScript) :=
  version_oracle_data ← version_oracle_scripts genesis_utxo network;
  validator ← plutus_script RESERVE_VALIDATOR [policy_id_as_plutus_data version_oracle_data];
  auth_policy ← plutus_script RESERVE_AUTH_POLICY [policy_id_as_plutus_data version_oracle_data];
  Ok (validator, auth_policy).
Definition ics_scripts (genesis_utxo : UtxoId) (network : Network) :
    result OffchainError (PlutusScript * PlutusScript) :=
  version_oracle_data ← version_oracle_scripts genesis_utxo network;
  validator ← plutus_script ILLIQUID_CIRCULATION_SUPPLY_VALIDATOR [policy_id_as_plutus_data version_oracle_data];
  auth_policy ← plutus_script ILLIQUID_CIRCULATION_SUPPLY_AUTHORITY_TOKEN_POLICY
    [script_id_data IdIlliquidCirculationSupplyAuthorityTokenPolicy; policy_id_as_plutus_data version_oracle_data];
  Ok (validator, auth_policy).

(** [Addresses] and [PolicyIds] in the order of their fields. *)
Record ScriptsData := mkScriptsData {
  addresses : list bytes;
  policy_ids : list bytes;
}.
Definition get_scripts_data (genesis_utxo : UtxoId) (network : Network) : result OffchainError ScriptsData :=
  version_oracle_data ← version_oracle_scripts genesis_utxo network;
  committee_candidate_validator ← plutus_script COMMITTEE_CANDIDATE_VALIDATOR [to_datum genesis_utxo];
  d_parameter_data ← d_parameter_scripts genesis_utxo network;
  permissioned_candidates_data ← permissioned_candidates_scripts genesis_utxo network;
  reserve ← reserve_scripts genesis_utxo network;
  ics ← ics_scripts genesis_utxo network;
  governed_map_data ← governed_map_scripts genesis_utxo network;
  Ok (mkScriptsData
    [plutus_address committee_candidate_validator network; sd_validator_address d_parameter_data;
     plutus_address ics.1 network; sd_validator_address permissioned_candidates_data;
     plutus_address reserve.1 network; sd_validator_address version_oracle_data;
     sd_validator_address governed_map_data]
    [policy_id d_parameter_data; policy_id permissioned_candidates_data; script_hash reserve.2;
     policy_id version_oracle_data; policy_id governed_map_data; script_hash ics.2]).
End ScriptsData.

(** ** The governance policy *)

Inductive GovernancePolicyScript :=
  | MultiSig (script : PlutusScript) (key_hashes : list bytes) (threshold : Z)
  | AtLeastNNativeScript (threshold : Z) (key_hashes : list bytes).

Definition policy_script (self : GovernancePolicyScript) : Script :=
  match self with
  | MultiSig script _ _ => ScriptPlutus script
  | AtLeastNNativeScript threshold key_hashes => ScriptNative threshold key_hashes
  end.

Definition is_single_key_policy_for (self : GovernancePolicyScript) (key_hash : bytes) : bool :=
  match self with
  | MultiSig _ key_hashes threshold | AtLeastNNativeScript threshold key_hashes =>
      (threshold =? 1) && (length key_hashes =? 1)%nat && existsb (λ h, bool_decide (h = key_hash)) key_hashes
  end.

Definition contains_authority (self : GovernancePolicyScript) (key_hash : bytes) : bool :=
  match self with
  | MultiSig _ key_hashes _ | AtLeastNNativeScript _ key_hashes =>
      existsb (λ h, bool_decide (h = key_hash)) key_hashes
  end.

Record GovernanceData := mkGovernanceData {
  gov_policy : GovernancePolicyScript;
  gov_utxo : OgmiosUtxo;
}.

(** [utxo_id_as_tx_input] *)
Definition gov_tx_input (self : GovernanceData) : UtxoId := utxo_id_of (gov_utxo self).

Definition parse_simple_at_least_n_native_script (script : OgmiosScript) : option GovernancePolicyScript :=
  match os_json script with
  | Some (NSome from at_least) =>
      keys ← mapM (M:=option) (λ x, match x with NSignature key_hash => Some key_hash | _ => None end) from;
      Some (AtLeastNNativeScript at_least keys)
  | _ => None
  end.

(** Parameters of a new policy. *)
Record MultiSigParameters := mkMultiSigParameters {
  governance_authorities : list bytes;
  msp_threshold : Z;
}.
Definition multisig_parameters_new (governance_authorities : list bytes) (threshold : Z) :
    result string MultiSigParameters :=
  if is_empty governance_authorities then Err "governance authorities cannot be be empty"%string
  else if threshold =? 0 then Err "threshold has to be a positive number"%string
  else if Z.of_nat (length governance_authorities) <? threshold
  then Err "threshold cannot be greater than governance authorities length"%string
  else Ok (mkMultiSigParameters governance_authorities threshold).
Definition new_one_of_one (governance_authority : bytes) : MultiSigParameters :=
  mkMultiSigParameters [governance_authority] 1.
Definition as_simple_at_least_n (self : MultiSigParameters) : GovernancePolicyScript :=
  AtLeastNNativeScript (msp_threshold self) (governance_authorities self).

(** ** Results *)

Record MultiSigTransactionData := mkMultiSigTx {
  ms_tx_name : string;
  (** address and key hash of the temporary wallet *)
  temporary_wallet : bytes * bytes;
  ms_tx : Tx;
}.

Inductive MultiSigSmartContractResult :=
  | TransactionSubmitted (hash : bytes)
  | TransactionToSign (data : MultiSigTransactionData).

Section Governance.
Context `{!Csl, !Scripts} {L : Type} `{!Ogmios L}.

Definition parse_pc_multisig (script : PlutusScript) : outcome (option GovernancePolicyScript) :=
  r ← unapply_data script;
  Ret (data ← ok r;
       list ← as_list data;
       key_hashes_data ← list !! 0%nat;
       key_hashes_list ← as_list key_hashes_data;
       let key_hashes := filter_map (λ item, b ← as_bytes item; as_byte_array 28 b) key_hashes_list in
       threshold_data ← list !! 1%nat;
       threshold ← as_u32 threshold_data;
       Some (MultiSig script key_hashes threshold)).

Definition read_policy (governance_utxo : OgmiosUtxo) : outcome (result OffchainError GovernancePolicyScript) :=
  match ou_script governance_utxo with
  | None => Ret (Err (JsError "No 'script' in governance UTXO"))
  | Some script =>
      plutus_multisig ← match plutus_script_try_from script with
                        | Ok plutus => parse_pc_multisig plutus
                        | Err _ => Ret None
                        end;
      let policy := match plutus_multisig with
                    | Some policy => Some policy
                    | None => parse_simple_at_least_n_native_script script
                    end in
      Ret (ok_or policy (JsError "Cannot convert script from UTXO into a multisig policy"))
  end.

Definition is_governance_utxo (version_oracle_data : PlutusScriptData) (utxo : OgmiosUtxo) : bool :=
  match get_plutus_data utxo with
  | Some plutus_data =>
      match VersionOracleDatum_try_from plutus_data with
      | Ok data => version_oracle data =? script_id_u32 IdGovernancePolicy
      | Err _ => false
      end
  | None => false
  end && bool_decide (is_Some (ou_native_tokens utxo !! policy_id version_oracle_data)).

Definition get_governance_utxo (genesis_utxo : UtxoId) : Off L (option OgmiosUtxo) :=
  network ← query shelley_network;
  version_oracle_data ← ds_lift (version_oracle_scripts genesis_utxo network);
  utxos ← query (query_utxos (sd_validator_address version_oracle_data));
  mret (head (filter (λ u, is_governance_utxo version_oracle_data u = true) utxos)).

Definition lift_outcome {A} (r : outcome (result OffchainError A)) : Off L A := λ s, a ← r; Ret (s, a).

(** [GovernanceData::get] *)
Definition governance_data_get (genesis_utxo : UtxoId) : Off L GovernanceData :=
  utxo ← get_governance_utxo genesis_utxo;
  utxo ← ds_lift (ok_or utxo (JsError "Could not find governance versioning UTXO"));
  policy ← lift_outcome (read_policy utxo);
  mret (mkGovernanceData policy utxo).

(** Key hashes and threshold of the policy, if there is one. *)
Definition get_governance_policy_summary (genesis_utxo : UtxoId) : Off L (option (list bytes * Z)) :=
  utxo ← get_governance_utxo genesis_utxo;
  match utxo with
  | Some utxo =>
      policy ← lift_outcome (read_policy utxo);
      mret (Some match policy with
                 | MultiSig _ key_hashes threshold | AtLeastNNativeScript threshold key_hashes => (key_hashes, threshold)
                 end)
  | None => mret None
  end.

(** ** Submission *)

(** The key of the temporary wallet and the writing of its file. *)
Context (generate_ed25519 : result OffchainError PrivateKey) (save_wallet_file : result OffchainError unit).
(** The strategy of waiting. *)
Context (delay : Z) (retries : nat).

Abbreviation MakeTx := (Costs → TransactionContext → outcome (result OffchainError Tx)).

(** A transaction is priced, signed by the payment key, submitted and awaited. *)
Definition sign_submit_await (failure : OffchainError → OffchainError) (ctx : TransactionContext)
    (make_tx : Costs → outcome (result OffchainError Tx)) : Off L bytes :=
  tx ← calculate_costs make_tx;
  tx_id ← (λ s, let '(s, r) := submit_transaction (sign ctx tx) s in Ret (s, map_err failure r));
  _ ← await_tx_output delay retries tx_id;
  mret tx_id.

Definition submit_single_governance_key_tx (payment_ctx : TransactionContext) (make_tx : MakeTx) : Off L bytes :=
  sign_submit_await (λ _, Anyhow "transaction request failed") payment_ctx (λ c, make_tx c payment_ctx).

(** The value of the inputs of the payment key, without change, and 5 ADA. *)
Definition sum_values (values : list (Z * native_tokens)) : result OffchainError (Z * native_tokens) :=
  foldl (λ acc v, acc ← acc; value_checked_add acc v) (Ok (0, ∅)) values.
Definition estimate_required_value (tx : TxBody) (ctx : TransactionContext) : result OffchainError (Z * native_tokens) :=
  change ← sum_values ((λ o, (txo_lovelace o, txo_tokens o)) <$>
             filter (λ o, txo_address o = change_address ctx) (outputs tx));
  used ← mapM (M:=result OffchainError) (λ u, value_to_csl (ou_lovelace u) (ou_native_tokens u))
           (filter_map (λ i, head (filter (λ u, utxo_id_of u = i) (payment_key_utxos ctx))) (inputs tx));
  total_input ← sum_values used;
  value_checked_add (value_clamped_sub total_input change) (5000000, ∅).

Definition transfer_to_temporary_wallet (payment_ctx : TransactionContext) (address : bytes)
    (value : Z * native_tokens) : Off L unit :=
  config ← ds_lift (get_builder_config payment_ctx);
  let funding_tx_builder := add_output (mkTxOutput address value.1 value.2 None None) (builder_new config) in
  funding_tx ← ds_lift (balance_update_and_build funding_tx_builder payment_ctx);
  let tx_hash := blake2b_256 (body_to_bytes (body funding_tx)) in
  _ ← (λ s, let '(s, r) := submit_transaction (sign payment_ctx funding_tx) s in Ret (s, r));
  await_tx_output delay retries tx_hash.

Definition fund_temporary_wallet (make_tx : MakeTx) (payment_ctx : TransactionContext) : Off L PrivateKey :=
  private_key ← ds_lift generate_ed25519;
  let address := key_hash_address (public_hash (to_public private_key)) (network payment_ctx) in
  tx_to_estimate_costs ← calculate_costs (λ c, make_tx c payment_ctx);
  value ← ds_lift (estimate_required_value (body tx_to_estimate_costs) payment_ctx);
  _ ← ds_lift save_wallet_file;
  _ ← transfer_to_temporary_wallet payment_ctx address value;
  mret private_key.

Definition create_transaction_to_sign (payment_ctx : TransactionContext) (make_tx : MakeTx)
    (governance_data : GovernanceData) (tx_name : string) : Off L MultiSigTransactionData :=
  private_key ← ds_map_err (λ _, Anyhow "Failed to create temporary wallet") (fund_temporary_wallet make_tx payment_ctx);
  temp_wallet_ctx ← for_payment_key private_key;
  let temp_wallet_ctx := with_change_address temp_wallet_ctx (change_address payment_ctx) in
  tx ← ds_map_err (λ _, Anyhow "Failed to create transaction using temporary wallet")
         (calculate_costs (λ c, make_tx c temp_wallet_ctx));
  let signed_tx_by_caller :=
    if contains_authority (gov_policy governance_data) (payment_key_hash payment_ctx)
    then sign payment_ctx tx else tx in
  let signed_tx := sign temp_wallet_ctx signed_tx_by_caller in
  mret (mkMultiSigTx tx_name
          (key_hash_address (public_hash (to_public private_key)) (network payment_ctx), public_hash (to_public private_key))
          signed_tx).

Definition submit_or_create_tx_to_sign (governance_data : GovernanceData) (payment_ctx : TransactionContext)
    (make_tx : MakeTx) (tx_name : string) : Off L MultiSigSmartContractResult :=
  if is_single_key_policy_for (gov_policy governance_data) (payment_key_hash payment_ctx) then
    hash ← submit_single_governance_key_tx payment_ctx make_tx;
    mret (TransactionSubmitted hash)
  else
    data ← create_transaction_to_sign payment_ctx make_tx governance_data tx_name;
    mret (TransactionToSign data).

(** The wait that ends every command. *)
Definition await_result (r : option MultiSigSmartContractResult) : Off L (option MultiSigSmartContractResult) :=
  match r with
  | Some (TransactionSubmitted tx_hash) => _ ← await_tx_output delay retries tx_hash; mret r
  | _ => mret r
  end.

(** Steps that the transactions of all commands share: the governance token is
    minted, and the transaction balanced. *)
Definition with_governance (governance_data : GovernanceData) (costs : Costs) (b : TxBuilder) : outcome TxBuilder :=
  add_mint_one_script_token_using_reference_script (policy_script (gov_policy governance_data))
    (gov_tx_input governance_data) costs b.
Definition balance_and_strip (b : TxBuilder) (ctx : TransactionContext) : outcome (result OffchainError Tx) :=
  tx ←? Ret (balance_update_and_build b ctx);
  Ret (Ok (remove_native_script_witnesses tx)).

(** A transaction that mints a token of the policy and pays it to the validator
    with a datum; the commands that create an entry build it. *)
Definition mint_token_tx (validator policy : PlutusScript) (redeemer datum : Datum) (governance_data : GovernanceData)
    (costs : Costs) (ctx : TransactionContext) : outcome (result OffchainError Tx) :=
  config ←? Ret (get_builder_config ctx);
  units ← get_mint costs policy;
  let b := add_mint_one_script_token policy empty_asset_name redeemer units (builder_new config) in
  b ←? Ret (add_output_with_one_script_token validator policy datum ctx b);
  b ← with_governance governance_data costs b;
  balance_and_strip b ctx.
End Governance.

(** ** Lemmas *)

(** Computations that ask the node and change nothing. *)
Class ReadOnly {S E A} (m : DS S E A) : Prop := read_only s s' r : m s = Ret (s', r) → s' = s.

#[export] Instance ReadOnly_bind {S E A B} (m : DS S E A) (k : A → DS S E B) :
  ReadOnly m → (∀ a, ReadOnly (k a)) → ReadOnly (m ≫= k).
Proof.
  intros Hm Hk s s' r [(s1 & a & Ha & Hr)|(e & He & _)]%DS_bind_inv; [|by apply Hm in He].
  apply Hm in Ha as ->. by apply Hk in Hr.
Qed.
#[export] Instance ReadOnly_ret {S E A} (a : A) : ReadOnly (mret a : DS S E A).
Proof. by intros s s' r [= <-]. Qed.
#[export] Instance ReadOnly_lift {S E A} (r : result E A) : ReadOnly (ds_lift r : DS S E A).
Proof. by intros s s' r' [= <-]. Qed.
#[export] Instance ReadOnly_query {L A} (q : L → result OffchainError A) : ReadOnly (query q).
Proof. by intros s s' r [= <-]. Qed.

Lemma read_start {S E A B} (m : DS S E A) `{!ReadOnly m} (k : A → DS S E B) s s' r :
  (m ≫= k) s = Ret (s', r) →
  (s' = s ∧ ∃ e, r = Err e) ∨ ∃ a, m s = Ret (s, Ok a) ∧ k a s = Ret (s', r).
Proof.
  intros [(s1 & a & Ha & Hk)|(e & He & ->)]%DS_bind_inv; [|apply read_only in He as ->; by eauto].
  pose proof (read_only _ _ _ Ha) as ->. eauto.
Qed.

Lemma DS_bind_assoc {S E A B C} (m : DS S E A) (k : A → DS S E B) (k' : B → DS S E C) s :
  ((m ≫= k) ≫= k') s = (m ≫= λ a, k a ≫= k') s.
Proof. unfold mbind, DS_bind. by destruct (m s) as [[s1 [a|e]]|]. Qed.

(** The same inside a computation whose result is used. *)
Lemma read_start_nested {S E A B C} (m : DS S E A) `{!ReadOnly m} (k : A → DS S E B) (k' : B → DS S E C) s s' r :
  ((m ≫= k) ≫= k') s = Ret (s', r) →
  (s' = s ∧ ∃ e, r = Err e) ∨ ∃ a, m s = Ret (s, Ok a) ∧ (k a ≫= k') s = Ret (s', r).
Proof. rewrite DS_bind_assoc. apply read_start; apply _. Qed.

Section GovernanceLemmas.
Context `{!Csl, !CslLaws, !Scripts} {L : Type} `{!Ogmios L} {unspent : L → list OgmiosUtxo} `{!OgmiosLaws L unspent}.
Context (generate_ed25519 : result OffchainError PrivateKey) (save_wallet_file : result OffchainError unit)
  (delay : Z) (retries : nat).
Implicit Types (s : L) (ctx : TransactionContext).

Abbreviation at_address := (at_address (unspent:=unspent)).
Abbreviation context_ok := (context_ok (unspent:=unspent)).

(** Nothing changed at the addresses of scripts. *)
Definition scripts_kept s s' : Prop := ∀ a, is_script_address a → at_address a s' ≡ₚ at_address a s.

Lemma scripts_kept_refl s s' : unspent s' = unspent s → scripts_kept s s'.
Proof. intros Hk a _. unfold OffchainTx.at_address. by rewrite Hk. Qed.

Lemma transfer_kept ctx address value s s' r :
  context_ok s ctx → is_key_address address →
  transfer_to_temporary_wallet delay retries ctx address value s = Ret (s', r) → scripts_kept s s'.
Proof.
  intros Hctx Hkey. unfold transfer_to_temporary_wallet.
  intros [(s1 & config & [= <- Hc] & Hk)|(e & [= <- Hc] & _)]%DS_bind_inv; [|by apply scripts_kept_refl].
  apply DS_bind_inv in Hk as [(s1 & tx & [= <- Htx] & Hk)|(e & [= <- Hc'] & _)]; [|by apply scripts_kept_refl].
  apply balance_makes in Htx. simpl in Htx.
  apply DS_bind_inv in Hk as [(s1 & id & Hsub & Hk)|(e & Hsub & _)].
  - destruct (submit_transaction _ s) as [s2 r2] eqn:Hs. injection Hsub as -> ->.
    apply await_unspent in Hk. intros a Ha.
    destruct (submit_effect s s1 ctx _ _ _ _ a Hctx (makes_body _ _ _ tx (sign ctx tx) eq_refl Htx) Ha Hs) as (outs & -> & Heff).
    unfold OffchainTx.at_address at 1. rewrite Hk. fold (at_address a s1). rewrite Heff. simpl.
    rewrite filter_all by (apply Forall_forall; intros u _ Hu; by apply elem_of_nil in Hu).
    rewrite filter_cons_False; [by rewrite filter_nil, app_nil_r|]. simpl. intros <-. by apply (script_not_key _ _ Ha Hkey).
  - destruct (submit_transaction _ s) as [s2 r2] eqn:Hs. injection Hsub as -> ->.
    apply scripts_kept_refl. by apply submit_Err in Hs.
Qed.

(** A way to make transactions on the network of the node that spend [removed]
    and pay [Q], whoever bears the fees. *)
Definition maker (make_tx : Costs → TransactionContext → outcome (result OffchainError Tx))
    (removed : list UtxoId) (Q : list TxOutput → Prop) : Prop :=
  ∀ costs ctx (s0 : L) tx, shelley_network s0 = Ok (network ctx) → make_tx costs ctx = Ret (Ok tx) → makes ctx removed Q tx.

(** The transaction was submitted in [s] with the identifier [id]. *)
Definition submitted removed (Q : list TxOutput → Prop) s s' id : Prop :=
  ∃ ctx tx s1, context_ok s ctx ∧ makes ctx removed Q tx ∧ submit_transaction tx s = (s1, Ok id) ∧ unspent s' = unspent s1.

(** Signing, submission and the wait. *)
Lemma submit_tail_spec (failure : OffchainError → OffchainError) ctx tx removed Q s s' r :
  context_ok s ctx → makes ctx removed Q tx →
  (tx_id ← (λ s, let '(s, r) := submit_transaction (sign ctx tx) s in Ret (s, map_err failure r));
   _ ← await_tx_output delay retries tx_id;
   mret tx_id) s = Ret (s', r) →
  match r with
  | Ok id => submitted removed Q s s' id
  | Err _ => scripts_kept s s' ∨ ∃ id, submitted removed Q s s' id
  end.
Proof.
  intros Hctx Htx [(s2 & id & Hs & Hk)|(e & Hs & ->)]%DS_bind_inv.
  - destruct (submit_transaction _ s) as [s3 [id'|]] eqn:Hsub; [|done]. injection Hs as <- <-.
    assert (∀ s4, unspent s4 = unspent s3 → submitted removed Q s s4 id') as Hdone.
    { intros s4 Hs4. exists ctx, (sign ctx tx), s3. split_and!; [done|by eapply makes_body|done|done]. }
    apply DS_bind_inv in Hk as [(s4 & [] & Haw & Hk)|(e & Haw & ->)]; apply await_unspent in Haw.
    + injection Hk as <- <-. by apply Hdone.
    + right. exists id'. by apply Hdone.
  - destruct (submit_transaction _ s) as [s3 [id'|]] eqn:Hsub; [done|]. injection Hs as <- _. left.
    apply scripts_kept_refl. by apply submit_Err in Hsub.
Qed.

Lemma sign_submit_spec failure ctx make_tx removed Q s s' r :
  context_ok s ctx → (∀ costs tx, make_tx costs = Ret (Ok tx) → makes ctx removed Q tx) →
  sign_submit_await delay retries failure ctx make_tx s = Ret (s', r) →
  match r with
  | Ok id => submitted removed Q s s' id
  | Err _ => scripts_kept s s' ∨ ∃ id, submitted removed Q s s' id
  end.
Proof.
  intros Hctx Hmake. unfold sign_submit_await.
  intros [(s1 & tx & Htx & Hk)|(e & Hk & ->)]%DS_bind_inv.
  - apply (calculate_costs_spec (makes ctx removed Q)) in Htx as [-> Htx]; [|done]. by eapply submit_tail_spec.
  - apply (calculate_costs_spec (λ _, True)) in Hk as [-> _]; [|done]. left. by apply scripts_kept_refl.
Qed.

Lemma submit_single_spec ctx make_tx removed Q s s' r :
  context_ok s ctx → maker make_tx removed Q →
  submit_single_governance_key_tx delay retries ctx make_tx s = Ret (s', r) →
  match r with
  | Ok id => submitted removed Q s s' id
  | Err _ => scripts_kept s s' ∨ ∃ id, submitted removed Q s s' id
  end.
Proof.
  intros Hctx Hmake. apply sign_submit_spec; [done|]. intros costs tx.
  destruct Hctx as (_ & _ & s0 & Hs0). by apply (Hmake costs ctx s0).
Qed.

Lemma fund_wallet_kept make_tx ctx s s' r :
  context_ok s ctx →
  fund_temporary_wallet generate_ed25519 save_wallet_file delay retries make_tx ctx s = Ret (s', r) → scripts_kept s s'.
Proof.
  intros Hctx. unfold fund_temporary_wallet.
  intros [(s1 & key & [= <- Hg] & Hk)|(e & [= <- Hg] & _)]%DS_bind_inv; [|by apply scripts_kept_refl].
  apply DS_bind_inv in Hk as [(s1 & tx & Hc & Hk)|(e & Hc & _)];
    (apply (calculate_costs_spec (λ _, True)) in Hc as [-> _]; [|done]); [|by apply scripts_kept_refl].
  apply DS_bind_inv in Hk as [(s1 & value & [= <- Hv] & Hk)|(e & [= <- Hv] & _)]; [|by apply scripts_kept_refl].
  apply DS_bind_inv in Hk as [(s1 & [] & [= <- Hw] & Hk)|(e & [= <- Hw] & _)]; [|by apply scripts_kept_refl].
  assert (∀ s2 r2, transfer_to_temporary_wallet delay retries ctx
    (key_hash_address (public_hash (to_public key)) (network ctx)) value s = Ret (s2, r2) → scripts_kept s s2) as Ht.
  { intros s2 r2. apply transfer_kept; [done|]. by eexists _, _. }
  apply DS_bind_inv in Hk as [(s1 & [] & Htr & Hk)|(e & Htr & _)]; [|by eapply Ht].
  injection Hk as <- _. by eapply Ht.
Qed.

Lemma create_to_sign_spec ctx make_tx governance name removed Q s s' r :
  context_ok s ctx → maker make_tx removed Q →
  create_transaction_to_sign generate_ed25519 save_wallet_file delay retries ctx make_tx governance name s = Ret (s', r) →
  scripts_kept s s' ∧
  match r with
  | Ok data => ∃ ctx', context_ok s' ctx' ∧ makes ctx' removed Q (ms_tx data)
  | Err _ => True
  end.
Proof.
  intros Hctx Hmake. unfold create_transaction_to_sign, ds_map_err.
  intros [(s1 & key & Hf & Hk)|(e & Hf & ->)]%DS_bind_inv.
  2: { destruct (fund_temporary_wallet _ _ _ _ _ _ s) as [[s1 r1]|] eqn:Hfund; [|done]. injection Hf as -> _.
       split; [|done]. by eapply fund_wallet_kept. }
  destruct (fund_temporary_wallet _ _ _ _ _ _ s) as [[s2 r2]|] eqn:Hfund; [|done]. injection Hf as -> _.
  apply fund_wallet_kept in Hfund as Hkept; [|done].
  apply DS_bind_inv in Hk as [(s2 & wctx & Hw & Hk)|(e & Hw & ->)]; [|by apply for_payment_key_state in Hw as ->].
  apply for_payment_key_Ok in Hw as (-> & Hwctx & _).
  assert (context_ok s1 (with_change_address wctx (change_address ctx))) as Hwctx'.
  { destruct Hwctx as (Hp & _ & Hn), Hctx as (_ & Hc & _). by split_and!. }
  apply DS_bind_inv in Hk as [(s2 & tx & Hc & Hk)|(e & Hc & ->)];
    (destruct (calculate_costs _ s1) as [[s3 r3]|] eqn:Hcost; [|done]); injection Hc as -> Hr3.
  - apply (calculate_costs_spec (makes (with_change_address wctx (change_address ctx)) removed Q)) in Hcost as [-> Htx];
      [|intros costs tx'; destruct Hwctx' as (_ & _ & s0 & Hs0); by apply (Hmake costs _ s0)].
    destruct r3 as [tx'|]; [|done]. injection Hr3 as <-. injection Hk as <- <-. split; [done|].
    eexists. split; [exact Hwctx'|]. eapply makes_body; [|exact Htx]. simpl. by destruct (contains_authority _ _).
  - apply (calculate_costs_spec (λ _, True)) in Hcost as [-> _]; [|done]. done.
Qed.

(** Either the transaction was submitted, or it waits for signatures and nothing
    happened to the scripts. *)
Lemma submit_or_create_spec governance ctx make_tx name removed Q s s' r :
  context_ok s ctx → maker make_tx removed Q →
  submit_or_create_tx_to_sign generate_ed25519 save_wallet_file delay retries governance ctx make_tx name s = Ret (s', r) →
  match r with
  | Ok (TransactionSubmitted id) => submitted removed Q s s' id
  | Ok (TransactionToSign data) =>
      scripts_kept s s' ∧ ∃ ctx', context_ok s' ctx' ∧ makes ctx' removed Q (ms_tx data)
  | Err _ => scripts_kept s s' ∨ ∃ id, submitted removed Q s s' id
  end.
Proof.
  intros Hctx Hmake. unfold submit_or_create_tx_to_sign. destruct (is_single_key_policy_for _ _).
  - intros [(s1 & id & Hs & [= <- <-])|(e & Hs & ->)]%DS_bind_inv; by eapply submit_single_spec in Hs.
  - intros [(s1 & data & Hs & [= <- <-])|(e & Hs & ->)]%DS_bind_inv; eapply create_to_sign_spec in Hs as [Hk Hr]; eauto.
Qed.

(** What a submitted transaction does at the address of a script. *)
Lemma submitted_effect removed Q s s' id a :
  submitted removed Q s s' id → is_script_address a →
  ∃ outs, Q outs ∧ at_address a s' ≡ₚ
    filter (λ u, utxo_id_of u ∉ removed) (at_address a s)
    ++ filter (λ u, ou_address u = a) (imap (output_utxo id) outs).
Proof.
  intros (ctx & tx & s1 & Hctx & Hm & Hsub & Hun) Ha.
  destruct (submit_effect s s1 ctx removed Q tx id a Hctx Hm Ha Hsub) as (outs & HQ & Heff).
  exists outs. split; [done|]. unfold OffchainTx.at_address at 1. rewrite Hun. exact Heff.
Qed.

(** Some output at an address has the entry. *)
Definition has {E} (entry : OgmiosUtxo → E → Prop) (address : bytes) s (e : E) : Prop :=
  ∃ u, u ∈ at_address address s ∧ entry u e.

(** A transaction that spends the outputs of the entries that shall go and pays at
    most one new entry. *)
Lemma submitted_entries {E} (entry : OgmiosUtxo → E → Prop) (gone : E → Prop) (new : option E) address removed Q s s' id :
  is_script_address address →
  (∀ u e, u ∈ at_address address s → entry u e → utxo_id_of u ∈ removed ↔ gone e) →
  (∀ outs, Q outs → ∀ e,
     (∃ u, u ∈ filter (λ u, ou_address u = address) (imap (output_utxo id) outs) ∧ entry u e) ↔ new = Some e) →
  submitted removed Q s s' id →
  ∀ e, has entry address s' e ↔ new = Some e ∨ (has entry address s e ∧ ¬ gone e).
Proof.
  intros Ha Hgone Hnew Hsub e. destruct (submitted_effect _ _ _ _ _ _ Hsub Ha) as (outs & HQ & Heff).
  rewrite <-(Hnew outs HQ e). unfold has. setoid_rewrite Heff. setoid_rewrite elem_of_app.
  setoid_rewrite list_elem_of_filter at 1. split.
  - intros (u & [[Hno Hu]|Hu] & He); [right|left; by exists u]. split; [by exists u|]. by rewrite <-(Hgone u e Hu He).
  - intros [(u & Hu & He)|[(u & Hu & He) Hg]]; [by eauto|]. exists u. split; [|done]. left. by rewrite (Hgone u e Hu He).
Qed.

Lemma has_kept {E} (entry : OgmiosUtxo → E → Prop) address s s' :
  is_script_address address → scripts_kept s s' → ∀ e, has entry address s' e ↔ has entry address s e.
Proof. intros Ha Hk e. unfold has. by setoid_rewrite (Hk _ Ha). Qed.

Lemma lift_bind_inv {A B} (o : outcome A) (k : A → Off L B) s s' r :
  (a ← lift_outcome (v ← o; Ret (Ok v)); k a) s = Ret (s', r) → ∃ a, o = Ret a ∧ k a s = Ret (s', r).
Proof. unfold lift_outcome, mbind at 1, DS_bind. destruct o as [a|]; simpl; [|done]. by exists a. Qed.

(** Reading the governance policy changes nothing. *)
Lemma governance_data_get_state genesis s s' r : governance_data_get genesis s = Ret (s', r) → s' = s.
Proof.
  unfold governance_data_get, get_governance_utxo, query, ds_lift, lift_outcome, mbind, DS_bind. simpl.
  destruct (shelley_network s); simpl; [|by intros [= <-]].
  destruct (version_oracle_scripts _ _); simpl; [|by intros [= <-]].
  destruct (query_utxos _ s); simpl; [|by intros [= <-]].
  destruct (head _); simpl; [|by intros [= <-]].
  destruct (read_policy _) as [[p|]|]; simpl; try done; by intros [= <-].
Qed.

Lemma with_governance_keeps governance costs b b' :
  with_governance governance costs b = Ret b' → b_inputs b' = b_inputs b ∧ b_outputs b' = b_outputs b.
Proof.
  unfold with_governance, add_mint_one_script_token_using_reference_script, add_mint_script_token_using_reference_script.
  destruct (policy_script _); [|by intros [= <-]]. destruct (get_mint costs script); simpl; [|done]. by intros [= <-].
Qed.

Lemma balance_and_strip_makes b ctx tx :
  balance_and_strip b ctx = Ret (Ok tx) → makes ctx (txi_id <$> b_inputs b) (λ outs, outs = b_outputs b) tx.
Proof.
  unfold balance_and_strip. destruct (balance_update_and_build b ctx) as [tx'|] eqn:Hb; simpl; [|done].
  intros [= <-]. eapply makes_body; [|by apply balance_makes]. done.
Qed.

(** An output with a token of the policy and a datum. *)
Definition token_output (address token : bytes) (datum : Datum) (o : TxOutput) : Prop :=
  txo_address o = address ∧ txo_tokens o = {[token := [([], 1)]]} ∧ txo_datum o = Some datum.

Lemma add_output_token validator policy datum ctx b b' :
  add_output_with_one_script_token validator policy datum ctx b = Ok b' →
  b_inputs b' = b_inputs b ∧
  ∃ o, b_outputs b' = b_outputs b ++ [o] ∧
    token_output (plutus_address validator (network ctx)) (script_hash policy) datum o.
Proof.
  unfold add_output_with_one_script_token, single_asset.
  destruct (asset_name_new empty_asset_name) as [name|] eqn:Hn; simpl; [|done].
  apply asset_name_new_Ok in Hn as ->. unfold with_minimum_ada_and_asset, with_minimum_ada.
  destruct (calculate_ada _ _); simpl; [|done]. intros [= <-]. split; [done|]. eexists. split; [done|]. done.
Qed.

Section TokenTx.
Context (scripts : PlutusScriptData) (n : Network) (governance : GovernanceData).
Context (Haddress : sd_validator_address scripts = plutus_address (sd_validator scripts) n)
  (Hnetwork : ∀ s n', shelley_network s = Ok n' → n' = n).

(** One output, with a token of the policy and the datum, at the validator. *)
Definition pays_token (datum : Datum) (outs : list TxOutput) : Prop :=
  ∃ o, outs = [o] ∧ token_output (sd_validator_address scripts) (policy_id scripts) datum o.

(** A balanced transaction of a builder whose last output is such an output. *)
Lemma token_tx_makes (datum : Datum) ctx s0 b b' b'' tx :
  shelley_network s0 = Ok (network ctx) →
  add_output_with_one_script_token (sd_validator scripts) (sd_policy scripts) datum ctx b = Ok b' →
  b_outputs b = [] → b_inputs b'' = b_inputs b' → b_outputs b'' = b_outputs b' →
  balance_and_strip b'' ctx = Ret (Ok tx) → makes ctx (txi_id <$> b_inputs b) (pays_token datum) tx.
Proof.
  intros Hs0%Hnetwork (Hi' & o & Ho & Htok)%add_output_token Hnil Hi Hout Htx%balance_and_strip_makes.
  rewrite Hi, Hi', Hout, Ho, Hnil in Htx. destruct Htx as (outs & extra & change & -> & Hrest).
  exists [o], extra, change. split; [|done]. exists o. split; [done|]. by rewrite Haddress, <-Hs0.
Qed.

Lemma mint_token_maker (redeemer datum : Datum) :
  maker (mint_token_tx (sd_validator scripts) (sd_policy scripts) redeemer datum governance) [] (pays_token datum).
Proof.
  intros costs ctx s0 tx Hs0. unfold mint_token_tx.
  destruct (get_builder_config ctx) as [config|]; simpl; [|done].
  destruct (get_mint costs _) as [units|]; simpl; [|done].
  destruct (add_output_with_one_script_token _ _ _ _ _) as [b|] eqn:Ho; simpl; [|done].
  destruct (with_governance governance costs b) as [b'|] eqn:Hg; simpl; [|done].
  apply with_governance_keeps in Hg as [Hi Hout]. intros Htx.
  exact (token_tx_makes _ ctx s0 _ b b' tx Hs0 Ho eq_refl Hi Hout Htx).
Qed.

(** The output on the ledger. *)
Lemma paid_token datum outs id :
  pays_token datum outs →
  ∃ u, filter (λ u, ou_address u = sd_validator_address scripts) (imap (output_utxo id) outs) = [u] ∧
    is_Some (ou_native_tokens u !! policy_id scripts) ∧ get_plutus_data u = Some datum.
Proof.
  intros (o & -> & Haddr & Htok & Hdat). simpl. rewrite filter_cons_True by done. eexists. split; [done|].
  unfold get_plutus_data. simpl. rewrite Htok, Hdat, lookup_singleton_eq. simpl. by rewrite datum_bytes_roundtrip.
Qed.
End TokenTx.

#[global] Instance governance_data_read_only genesis : ReadOnly (governance_data_get (L:=L) genesis).
Proof. intros s s' r. apply governance_data_get_state. Qed.
#[global] Instance payment_key_read_only key : ReadOnly (for_payment_key (L:=L) key).
Proof. intros s s' r. apply for_payment_key_state. Qed.

(** ** A command that submits a transaction *)

(** The outcome of a command that makes transactions of a plan. *)
Definition outcome_of removed (Q : list TxOutput → Prop) s s' (r : result OffchainError (option MultiSigSmartContractResult)) : Prop :=
  match r with
  | Ok (Some (TransactionSubmitted id)) => submitted removed Q s s' id
  | Ok (Some (TransactionToSign data)) =>
      scripts_kept s s' ∧
      ∀ tx s'' id, body tx = body (ms_tx data) → submit_transaction tx s' = (s'', Ok id) → submitted removed Q s' s'' id
  | Ok None => False
  | Err _ => scripts_kept s s' ∨ ∃ id, submitted removed Q s s' id
  end.

Lemma submit_outcome governance ctx make_tx name removed Q s s' r :
  context_ok s ctx → maker make_tx removed Q →
  (r ← submit_or_create_tx_to_sign generate_ed25519 save_wallet_file delay retries governance ctx make_tx name;
   mret (Some r)) s = Ret (s', r) →
  outcome_of removed Q s s' r.
Proof.
  intros Hctx Hmake [(s1 & r1 & Hr & [= <- <-])|(e & Hr & ->)]%DS_bind_inv;
    (eapply submit_or_create_spec in Hr; [|done|done]); simpl; [|done].
  destruct r1 as [id|data]; [done|]. destruct Hr as (Hkept & ctx' & Hc & Hm). split; [done|].
  intros tx s'' id Hb Hsub. exists ctx', tx, s''. split_and!; [done|by eapply makes_body|done|done].
Qed.

Lemma await_outcome removed Q s s1 s' r1 r :
  outcome_of removed Q s s1 (Ok (Some r1)) → await_result delay retries (Some r1) s1 = Ret (s', r) → outcome_of removed Q s s' r.
Proof.
  destruct r1 as [id|data]; simpl; intros Hr Hk; [|by injection Hk as <- <-].
  assert (∀ s3, unspent s3 = unspent s1 → submitted removed Q s s3 id) as Hdone.
  { destruct Hr as (ctx' & tx & s3 & Hc & Hm & Hsub & Hun). intros s4 Hs4. exists ctx', tx, s3. by rewrite Hs4. }
  apply DS_bind_inv in Hk as [(s3 & [] & Haw & [= <- <-])|(e & Haw & ->)]; apply await_unspent in Haw; simpl.
  - by apply Hdone.
  - right. exists id. by apply Hdone.
Qed.

Lemma submit_await_spec genesis ctx make_tx name removed Q s s' r :
  context_ok s ctx → (∀ governance, maker (make_tx governance) removed Q) →
  (r ← (governance_data ← governance_data_get genesis;
        submit_or_create_tx_to_sign generate_ed25519 save_wallet_file delay retries governance_data ctx
          (make_tx governance_data) name);
   await_result delay retries (Some r)) s = Ret (s', r) →
  outcome_of removed Q s s' r.
Proof.
  intros Hctx Hmake [(s1 & r1 & Hr & Hk)|(e & Hr & ->)]%DS_bind_inv;
    (apply DS_bind_inv in Hr as [(s2 & governance & Hg & Hr)|(e' & Hg & Heq)]; apply governance_data_get_state in Hg as ->).
  - eapply await_outcome; [|exact Hk]. eapply (submit_outcome governance); [done|apply Hmake|].
    by rewrite (DS_bind_Ok _ _ s s1 r1).
  - done.
  - by eapply submit_or_create_spec in Hr; [|done|apply Hmake].
  - left. by apply scripts_kept_refl.
Qed.

(** ** The start of a command *)

(** The context and the scripts. *)
Lemma context_start {A B} key n x (get_scripts : Network → result OffchainError A) s s' r
    (k : TransactionContext → A → Off L B) :
  (∀ s0 n', shelley_network s0 = Ok n' → n' = n) → get_scripts n = Ok x →
  (ctx ← for_payment_key key; scripts ← ds_lift (get_scripts (network ctx)); k ctx scripts) s = Ret (s', r) →
  (s' = s ∧ ∃ e, r = Err e) ∨
  ∃ ctx, context_ok s ctx ∧ network ctx = n ∧ k ctx x s = Ret (s', r).
Proof.
  intros Hnet Hx [(s1 & ctx & Hctx & Hk)|(e & Hk & ->)]%DS_bind_inv; [|apply for_payment_key_state in Hk as ->; by eauto].
  apply for_payment_key_Ok in Hctx as (-> & Hctx & _). right. exists ctx. destruct Hctx as (Hp & Hc & s0 & Hs0).
  apply Hnet in Hs0 as Hn. rewrite Hn in Hk. split; [split_and!; [done|done|by exists s0]|]. split; [done|].
  by rewrite (DS_bind_Ok _ _ s s x) in Hk by (unfold ds_lift; by rewrite Hx).
Qed.

(** The outputs at an address. *)
Lemma query_utxos_start {B} address s s' r (k : list OgmiosUtxo → Off L B) :
  (utxos ← query (query_utxos address); k utxos) s = Ret (s', r) →
  (s' = s ∧ ∃ e, r = Err e) ∨ ∃ utxos, utxos ≡ₚ at_address address s ∧ k utxos s = Ret (s', r).
Proof.
  intros [(s1 & utxos & [= <- Hq] & Hk)|(e & [= <- Hq] & ->)]%DS_bind_inv; [|by eauto].
  right. exists utxos. split; [by apply query_utxos_Ok|done].
Qed.

(** A computation that does not touch the node. *)
Lemma ds_lift_start {A B} (m : result OffchainError A) s s' r (k : A → Off L B) :
  (a ← ds_lift m; k a) s = Ret (s', r) →
  (s' = s ∧ ∃ e, r = Err e) ∨ ∃ a, m = Ok a ∧ k a s = Ret (s', r).
Proof. intros [(s1 & a & [= <- Hq] & Hk)|(e & [= <- Hq] & ->)]%DS_bind_inv; eauto. Qed.
End GovernanceLemmas.
