(* ===== verification/OffchainExample.v ===== *)
(** * A small Cardano

    Instances of the classes of [OffchainTx] and [OffchainGovernance] that
    evaluate: datums are written as lists of numbers, hashes are the text they
    hash, the node keeps a list of outputs and accepts every transaction that
    leaves their identifiers distinct.  The witnesses of the off-chain commands
    run on it. *)

From S2P Require Import Prelude Domain PlutusData ContractDatums McHash OffchainTx OffchainGovernance.
From stdpp Require Import countable.
Local Open Scope Z_scope.

(** ** Datums as numbers *)

Fixpoint datum_tree (d : Datum) : gen_tree Z :=
  match d with
  | IntegerDatum i => GenNode 0 [GenLeaf i]
  | ByteStringDatum b => GenNode 1 (GenLeaf <$> b)
  | ConstructorDatum c l => GenNode 2 (GenLeaf c :: (datum_tree <$> l))
  | ListDatum l => GenNode 3 (datum_tree <$> l)
  | MapDatum l => GenNode 4 ((λ e, GenNode 5 [datum_tree e.1; datum_tree e.2]) <$> l)
  end.

Fixpoint tree_datum (t : gen_tree Z) : Datum :=
  match t with
  | GenNode 0 [GenLeaf i] => IntegerDatum i
  | GenNode 1 l => ByteStringDatum ((λ t : gen_tree Z, match t with GenLeaf z => z | _ => 0 end) <$> l)
  | GenNode 2 (GenLeaf c :: l) => ConstructorDatum c (tree_datum <$> l)
  | GenNode 3 l => ListDatum (tree_datum <$> l)
  | GenNode 4 l =>
      MapDatum ((λ t : gen_tree Z, match t with GenNode 5 [k; v] => (tree_datum k, tree_datum v) | _ => (IntegerDatum 0, IntegerDatum 0) end) <$> l)
  | _ => IntegerDatum 0
  end.

Fixpoint tree_datum_tree (d : Datum) : tree_datum (datum_tree d) = d.
Proof.
  destruct d as [i|b|c l|l|l]; simpl.
  - done.
  - f_equal. rewrite <-list_fmap_compose. induction b as [|z b IH]; [done|]. rewrite fmap_cons. by f_equal.
  - f_equal. induction l as [|d l IH]; [done|]. rewrite !fmap_cons. by rewrite tree_datum_tree, IH.
  - f_equal. induction l as [|d l IH]; [done|]. rewrite !fmap_cons. by rewrite tree_datum_tree, IH.
  - f_equal. induction l as [|[k v] l IH]; [done|]. rewrite !fmap_cons. simpl. by rewrite !tree_datum_tree, IH.
Qed.

Fixpoint items_numbers (l : list (nat * nat + Z)) : bytes :=
  match l with
  | inl (a, b) :: l => 0 :: Z.of_nat a :: Z.of_nat b :: items_numbers l
  | inr z :: l => 1 :: z :: items_numbers l
  | [] => []
  end.
Fixpoint numbers_items (l : bytes) : list (nat * nat + Z) :=
  match l with
  | 0 :: a :: b :: l => inl (Z.to_nat a, Z.to_nat b) :: numbers_items l
  | 1 :: z :: l => inr z :: numbers_items l
  | _ => []
  end.
Lemma numbers_items_numbers l : numbers_items (items_numbers l) = l.
Proof. induction l as [|[[a b]|z] l IH]; [done| |]; simpl; rewrite IH; by rewrite ?Nat2Z.id. Qed.

Definition example_to_bytes (d : Datum) : bytes := items_numbers (gen_tree_to_list (datum_tree d)).
Definition example_from_bytes (b : bytes) : option Datum := tree_datum <$> gen_tree_of_list [] (numbers_items b).

Lemma example_bytes_roundtrip d : example_from_bytes (example_to_bytes d) = Some d.
Proof.
  unfold example_from_bytes, example_to_bytes. rewrite numbers_items_numbers.
  rewrite <-(app_nil_r (gen_tree_to_list _)), gen_tree_of_to_list. simpl. by rewrite tree_datum_tree.
Qed.

(** ** The libraries *)

Definition example_outputs (utxos : list OgmiosUtxo) (address : bytes) (b : TxBuilder) : TxBuilder :=
  let used := match utxos with u :: _ => [mkTxInput (utxo_id_of u) None] | [] => [] end in
  mkTxBuilder (b_config b) (b_inputs b ++ used) (b_outputs b ++ [mkTxOutput address 1 ∅ None None]) (b_mint b)
    (b_reference_inputs b) (b_required_signers b) (b_collateral b) (b_validity_start b).

Definition witness_hash (w : MintWitness) : bytes :=
  match w with
  | MintPlutus script _ _ | MintPlutusRef script _ _ _ => take 28 ((language_to_u8 (ps_language script) :: ps_bytes script) ++ replicate 28 0)
  | MintNative threshold key_hashes => threshold :: mjoin key_hashes
  end.

Definition example_build (b : TxBuilder) : result OffchainError Tx :=
  Ok (mkTx (mkTxBody (txi_id <$> b_inputs b) (b_outputs b) (witness_hash ∘ mint_witness <$> b_mint b)
              (b_reference_inputs b).*1 (b_required_signers b) (b_collateral b) (b_validity_start b)) [] [] []).

#[local] Instance example_csl : Csl := {|
  PrivateKey := Z;
  blake2b_224 b := take 28 (b ++ replicate 28 0);
  blake2b_256 b := b;
  enterprise_script_address n h := 115 :: n :: h;
  enterprise_key_address n h := 107 :: n :: h;
  to_public k := [k];
  public_hash b := b;
  sign_bytes k b := k :: b;
  native_script_hash threshold key_hashes := threshold :: mjoin key_hashes;
  native_script_to_bytes threshold key_hashes := [];
  body_to_bytes b := [1 + foldr Z.max 0 ((λ i, hd 0 (tx_hash i)) <$> inputs b)];
  datum_to_bytes := example_to_bytes;
  datum_from_bytes := example_from_bytes;
  asset_name_new name := Ok name;
  calculate_ada o c := Ok c;
  value_checked_add v w := Ok (v.1 + w.1, v.2 ∪ w.2);
  value_clamped_sub v w := (Z.max 0 (v.1 - w.1), v.2);
  add_inputs_from_and_change utxos address b := Ok (example_outputs utxos address b);
  add_inputs_with_collateral_return utxos address p b := Ok (example_outputs utxos address b);
  calc_script_data_hash models b := Ok b;
  build_tx := example_build;
|}.

Lemma example_completes utxos address b : completes utxos address b (example_outputs utxos address b).
Proof.
  eexists _, _. split; [done|]. split; [|split; [done|]].
  - intros i Hi. destruct utxos as [|u utxos]; [by apply elem_of_nil in Hi|].
    apply list_elem_of_singleton in Hi as ->. simpl. by left.
  - intros o Ho. by apply list_elem_of_singleton in Ho as ->.
Qed.

#[local] Instance example_csl_laws : CslLaws.
Proof.
  split; simpl.
  - intros b. apply length_take_le. rewrite length_app. simpl. lia.
  - apply example_bytes_roundtrip.
  - done.
  - by intros name name' [= ->].
  - intros utxos address b b' [= <-]. apply example_completes.
  - intros utxos address p b b' [= <-]. apply example_completes.
  - by intros models b b' [= <-].
  - by intros b tx [= <-].
Qed.

#[local] Instance example_scripts : Scripts := {|
  raw_script r :=
    match r with
    | COMMITTEE_CANDIDATE_VALIDATOR => [1] | D_PARAMETER_POLICY => [2] | D_PARAMETER_VALIDATOR => [3]
    | GOVERNED_MAP_POLICY => [4] | GOVERNED_MAP_VALIDATOR => [5]
    | ILLIQUID_CIRCULATION_SUPPLY_AUTHORITY_TOKEN_POLICY => [6] | ILLIQUID_CIRCULATION_SUPPLY_VALIDATOR => [7]
    | PERMISSIONED_CANDIDATES_POLICY => [8] | PERMISSIONED_CANDIDATES_VALIDATOR => [9]
    | RESERVE_AUTH_POLICY => [10] | RESERVE_VALIDATOR => [11] | VERSION_ORACLE_POLICY => [12] | VERSION_ORACLE_VALIDATOR => [13]
    end;
  script_id_u32 i :=
    match i with
    | IdGovernancePolicy => 32 | IdGovernedMapPolicy => 33 | IdGovernedMapValidator => 34 | IdReserveValidator => 35
    | IdReserveAuthPolicy => 36 | IdIlliquidCirculationSupplyValidator => 37
    | IdIlliquidCirculationSupplyAuthorityTokenPolicy => 38
    end;
  script_id_try_from n :=
    (list_to_map
      [(32, IdGovernancePolicy); (33, IdGovernedMapPolicy); (34, IdGovernedMapValidator); (35, IdReserveValidator);
       (36, IdReserveAuthPolicy); (37, IdIlliquidCirculationSupplyValidator);
       (38, IdIlliquidCirculationSupplyAuthorityTokenPolicy)] : gmap Z ScriptId) !! n;
  apply_data ps d := Ok (mkPlutusScript (ps_bytes ps ++ [0]) (ps_language ps));
  unapply_data ps := Ret (Err OgmiosError);
  address_to_data a := Ok (ByteStringDatum a);
|}.

#[local] Instance example_scripts_laws : ScriptsLaws.
Proof.
  split.
  - by intros [].
  - intros n id Hid. unfold script_id_try_from, example_scripts in Hid. apply elem_of_list_to_map_2 in Hid.
    repeat (apply elem_of_cons in Hid as [[= -> ->]|Hid]; [done|]). by apply elem_of_nil in Hid.
Qed.

(** ** The node *)

Definition Ledger : Type := {l : list OgmiosUtxo | NoDup (utxo_id_of <$> l)}.
Definition ledger_utxos (s : Ledger) : list OgmiosUtxo := proj1_sig s.

Definition example_parameters : ProtocolParameters :=
  mkProtocolParameters 1 1 1 1 1 1 ((1, 1), (1, 1)) 1 (Some (1, 1)) ([], [], []) 1 1.

(** A transaction has the hash of its body as identifier, here one above those of
    its inputs. *)
Definition tx_id (tx : Tx) : bytes := blake2b_256 (body_to_bytes (body tx)).

Definition apply_tx (tx : Tx) (l : list OgmiosUtxo) : list OgmiosUtxo :=
  filter (λ u, utxo_id_of u ∉ inputs (body tx)) l ++ imap (output_utxo (tx_id tx)) (outputs (body tx)).

Definition example_submit (tx : Tx) (s : Ledger) : Ledger * result OffchainError bytes :=
  match decide (NoDup (utxo_id_of <$> apply_tx tx (ledger_utxos s))) with
  | left Hnd => (exist _ (apply_tx tx (ledger_utxos s)) Hnd, Ok (tx_id tx))
  | right _ => (s, Err OgmiosError)
  end.

(** Every policy and every input from the address of a script is priced. *)
Definition example_spend (l : list OgmiosUtxo) (i : nat) (id : UtxoId) : list EvaluateResponse :=
  match filter (λ u, utxo_id_of u = id ∧ head (ou_address u) = Some 115) l with
  | [] => []
  | _ => [mkEvaluate "spend" (Z.of_nat i) 1 1]
  end.
Definition example_evaluate (tx : Tx) (l : list OgmiosUtxo) : list EvaluateResponse :=
  imap (λ i _, mkEvaluate "mint" (Z.of_nat i) 1 1) (mint_policies (body tx))
  ++ mjoin (imap (example_spend l) (inputs (body tx))).

#[local] Instance example_ogmios : Ogmios Ledger := {|
  shelley_network s := Ok Testnet;
  query_protocol_parameters s := Ok example_parameters;
  query_utxos address s := Ok (filter (λ u, ou_address u = address) (ledger_utxos s));
  query_utxo_by_id id s := Ok (head (filter (λ u, utxo_id_of u = id) (ledger_utxos s)));
  evaluate_transaction tx s := Ok (example_evaluate tx (ledger_utxos s));
  submit_transaction := example_submit;
  get_tip_slot s := Ok 5;
  wait d s := s;
|}.

#[local] Instance example_ogmios_laws : OgmiosLaws Ledger ledger_utxos.
Proof.
  split; simpl.
  - intros [l Hl]. exact Hl.
  - by intros address s utxos [= <-].
  - intros tx s s' id. unfold example_submit. destruct (decide _); [|done]. by intros [= <- <-].
  - intros tx s s' e. unfold example_submit. destruct (decide _); [done|]. by intros [= <-].
  - done.
  - by intros s s' n n' [= <-] [= <-].
Qed.

(** Key 7 is the only governance authority and has one output. *)
Definition example_genesis : UtxoId := mkUtxoId [0] 0.
Definition governance_utxo : OgmiosUtxo :=
  mkOgmiosUtxo [1] 0 (plutus_address (mkPlutusScript [13; 0] PlutusV2) Testnet) 1
    {[ script_hash (mkPlutusScript [12; 0; 0] PlutusV2) := [([], 1)] ]}
    (Some (example_to_bytes (version_oracle_datum_to_plutus (mkVersionOracleDatum 32 (replicate 28 0)))))
    (Some (mkOgmiosScript "native" [] (Some (NSome [NSignature [7]] 1)))).
Definition payment_utxo : OgmiosUtxo := mkOgmiosUtxo [2] 0 [107; 0; 7] 100 ∅ None None.

Program Definition example_ledger : Ledger := exist _ [governance_utxo; payment_utxo] _.
Next Obligation. by apply (bool_decide_unpack _). Qed.
