(* ===== verification/OffchainMap.v ===== *)
(** * Commands of the Governed Map

    Models [toolkit/smart-contracts/offchain/src/governed_map/mod.rs]: inserting,
    updating, removing and reading the entries that the nodes observe
    ([GovernedMapSource]).  An entry is an output at the address of the validator
    that holds a token of the policy and has the entry as its datum. *)

From S2P Require Import Prelude Domain PlutusData ContractDatums McHash OffchainTx OffchainGovernance OffchainExample.

Section GovernedMapCommands.
Context `{!Csl, !Scripts} {L : Type} `{!Ogmios L} (hash_order : ∀ A : Type, list A → list A).
Context (generate_ed25519 : result OffchainError PrivateKey) (save_wallet_file : result OffchainError unit)
  (delay : Z) (retries : nat).

(** ** Reading *)

(** The entry of an output, a step of [ogmios_utxos_to_governed_map_utxos]; the
    decoder of datums panics on short lists. *)
Definition governed_entry (token : bytes) (utxo : OgmiosUtxo) : outcome (option GovernedMapDatum) :=
  match ou_native_tokens utxo !! token, get_plutus_data utxo with
  | Some _, Some datum_plutus_data => r ← governed_map_datum_try_from datum_plutus_data; Ret (ok r)
  | _, _ => Ret None
  end.

(** The iterator stops at the entry it finds. *)
Fixpoint get_current_value (validator_utxos : list OgmiosUtxo) (key token : bytes) : outcome (option bytes) :=
  match validator_utxos with
  | [] => Ret None
  | utxo :: validator_utxos =>
      entry ← governed_entry token utxo;
      match entry with
      | Some datum =>
          if decide (entry_key datum = key) then Ret (Some (entry_value datum))
          else get_current_value validator_utxos key token
      | None => get_current_value validator_utxos key token
      end
  end.

(** [ogmios_utxos_to_governed_map_utxos], read to its end. *)
Fixpoint governed_map_utxos (utxos : list OgmiosUtxo) (token : bytes) : outcome (list (OgmiosUtxo * GovernedMapDatum)) :=
  match utxos with
  | [] => Ret []
  | utxo :: utxos =>
      entry ← governed_entry token utxo;
      rest ← governed_map_utxos utxos token;
      Ret (match entry with Some datum => (utxo, datum) :: rest | None => rest end)
  end.

Definition get_utxos_for_key (validator_utxos : list OgmiosUtxo) (key token : bytes) : outcome (list OgmiosUtxo) :=
  entries ← governed_map_utxos validator_utxos token;
  Ret (filter (λ e, entry_key e.2 = key) entries).*1.

Definition run_list (genesis_utxo : UtxoId) : Off L (list GovernedMapDatum) :=
  network ← query shelley_network;
  scripts ← ds_lift (governed_map_scripts genesis_utxo network);
  validator_utxos ← query (query_utxos (sd_validator_address scripts));
  entries ← lift_outcome (entries ← governed_map_utxos validator_utxos (policy_id scripts); Ret (Ok entries.*2));
  mret entries.

Definition run_get (genesis_utxo : UtxoId) (key : bytes) : Off L (option bytes) :=
  network ← query shelley_network;
  scripts ← ds_lift (governed_map_scripts genesis_utxo network);
  validator_utxos ← query (query_utxos (sd_validator_address scripts));
  lift_outcome (v ← get_current_value validator_utxos key (policy_id scripts); Ret (Ok v)).

(** ** Transactions *)

Definition insert_key_value_tx (validator policy : PlutusScript) (key value : bytes)
    (governance_data : GovernanceData) : Costs → TransactionContext → outcome (result OffchainError Tx) :=
  mint_token_tx validator policy unit_plutus_data (governed_map_datum_to_plutus_data (mkGovernedMapDatum key value))
    governance_data.

(** The loop over the outputs of a key; [ix] counts them. *)
Fixpoint spend_utxos (validator : PlutusScript) (redeemer : Datum) (costs : Costs) (spend_indices : list Z) (ix : nat)
    (utxos : list OgmiosUtxo) (inputs : list TxInput) : outcome (result OffchainError (list TxInput)) :=
  match utxos with
  | [] => Ret (Ok inputs)
  | utxo :: utxos =>
      units ← get_spend costs (default 0 (spend_indices !! ix));
      inputs ←? Ret (add_script_utxo_input utxo validator redeemer units inputs);
      spend_utxos validator redeemer costs spend_indices (S ix) utxos inputs
  end.

Definition update_key_value_tx (validator policy : PlutusScript) (key value : bytes) (utxos_for_key : list OgmiosUtxo)
    (governance_data : GovernanceData) (costs : Costs) (ctx : TransactionContext) : outcome (result OffchainError Tx) :=
  config ←? Ret (get_builder_config ctx);
  b ← with_governance governance_data costs (builder_new config);
  let spend_indicies := get_spend_indices hash_order costs in
  inputs ←? spend_utxos validator (new_bytes []) costs spend_indicies 0 utxos_for_key [];
  let b := set_inputs inputs b in
  b ← (if (1 <? length utxos_for_key)%nat then
         let burn_amount := - (Z.of_nat (length utxos_for_key) - 1) in
         units ← get_mint costs policy;
         Ret (add_mint_script_tokens policy empty_asset_name unit_plutus_data units burn_amount b)
       else Ret b);
  b ←? Ret (add_output_with_one_script_token validator policy
              (governed_map_datum_to_plutus_data (mkGovernedMapDatum key value)) ctx b);
  balance_and_strip b ctx.

Definition remove_key_value_tx (validator policy : PlutusScript) (utxos_for_key : list OgmiosUtxo)
    (governance_data : GovernanceData) (costs : Costs) (ctx : TransactionContext) : outcome (result OffchainError Tx) :=
  config ←? Ret (get_builder_config ctx);
  b ← with_governance governance_data costs (builder_new config);
  let spend_indices := get_spend_indices hash_order costs in
  inputs ←? spend_utxos validator unit_plutus_data costs spend_indices 0 utxos_for_key [];
  let b := set_inputs inputs b in
  let burn_amount := - Z.of_nat (length utxos_for_key) in
  units ← get_mint costs policy;
  let b := add_mint_script_tokens policy empty_asset_name unit_plutus_data units burn_amount b in
  balance_and_strip b ctx.

(** ** Commands *)

Abbreviation submit := (submit_or_create_tx_to_sign generate_ed25519 save_wallet_file delay retries).

(** [insert], [update] and [remove] read the policy and submit. *)
Definition insert (scripts : PlutusScriptData) (key value : bytes) (ctx : TransactionContext) (genesis_utxo : UtxoId) :
    Off L MultiSigSmartContractResult :=
  governance_data ← governance_data_get genesis_utxo;
  submit governance_data ctx
    (insert_key_value_tx (sd_validator scripts) (sd_policy scripts) key value governance_data) "Insert Key-Value pair".
Definition update (scripts : PlutusScriptData) (key value : bytes) (utxos_for_key : list OgmiosUtxo)
    (ctx : TransactionContext) (genesis_utxo : UtxoId) : Off L MultiSigSmartContractResult :=
  governance_data ← governance_data_get genesis_utxo;
  submit governance_data ctx
    (update_key_value_tx (sd_validator scripts) (sd_policy scripts) key value utxos_for_key governance_data)
    "Update Key-Value pair".
Definition remove (scripts : PlutusScriptData) (utxos_for_key : list OgmiosUtxo) (ctx : TransactionContext)
    (genesis_utxo : UtxoId) : Off L MultiSigSmartContractResult :=
  governance_data ← governance_data_get genesis_utxo;
  submit governance_data ctx
    (remove_key_value_tx (sd_validator scripts) (sd_policy scripts) utxos_for_key governance_data)
    "Remove Key-Value pair".

Definition run_insert (genesis_utxo : UtxoId) (key value : bytes) (payment_signing_key : PrivateKey) :
    Off L (option MultiSigSmartContractResult) :=
  ctx ← for_payment_key payment_signing_key;
  scripts ← ds_lift (governed_map_scripts genesis_utxo (network ctx));
  validator_utxos ← query (query_utxos (sd_validator_address scripts));
  current ← lift_outcome (v ← get_current_value validator_utxos key (policy_id scripts); Ret (Ok v));
  match current with
  | Some current_value =>
      if decide (current_value ≠ value) then ds_lift (Err (Anyhow "There is already a value stored for key"))
      else await_result delay retries None
  | None => r ← insert scripts key value ctx genesis_utxo; await_result delay retries (Some r)
  end.

(** Without a look at the map, for tests of keys with several entries. *)
Definition run_insert_with_force (genesis_utxo : UtxoId) (key value : bytes) (payment_signing_key : PrivateKey) :
    Off L (option MultiSigSmartContractResult) :=
  ctx ← for_payment_key payment_signing_key;
  scripts ← ds_lift (governed_map_scripts genesis_utxo (network ctx));
  r ← insert scripts key value ctx genesis_utxo;
  await_result delay retries (Some r).

Definition run_update (genesis_utxo : UtxoId) (key value : bytes) (expected_current_value : option bytes)
    (payment_signing_key : PrivateKey) : Off L (option MultiSigSmartContractResult) :=
  ctx ← for_payment_key payment_signing_key;
  scripts ← ds_lift (governed_map_scripts genesis_utxo (network ctx));
  validator_utxos ← query (query_utxos (sd_validator_address scripts));
  utxos_for_key ← lift_outcome (l ← get_utxos_for_key validator_utxos key (policy_id scripts); Ret (Ok l));
  current ← lift_outcome (v ← get_current_value validator_utxos key (policy_id scripts); Ret (Ok v));
  match current with
  | None => ds_lift (Err (Anyhow "Cannot update nonexistent key"))
  | Some actual_current_value =>
      if match expected_current_value with Some e => bool_decide (e ≠ actual_current_value) | None => false end
      then ds_lift (Err (Anyhow "Value for key is set to a different value than expected"))
      else if decide (actual_current_value ≠ value) then
        r ← update scripts key value utxos_for_key ctx genesis_utxo; await_result delay retries (Some r)
      else await_result delay retries None
  end.

Definition run_remove (genesis_utxo : UtxoId) (key : bytes) (payment_signing_key : PrivateKey) :
    Off L (option MultiSigSmartContractResult) :=
  ctx ← for_payment_key payment_signing_key;
  scripts ← ds_lift (governed_map_scripts genesis_utxo (network ctx));
  validator_utxos ← query (query_utxos (sd_validator_address scripts));
  utxos_for_key ← lift_outcome (l ← get_utxos_for_key validator_utxos key (policy_id scripts); Ret (Ok l));
  if is_empty utxos_for_key then await_result delay retries None
  else r ← remove scripts utxos_for_key ctx genesis_utxo; await_result delay retries (Some r).
End GovernedMapCommands.

(** ** Lemmas *)

Section MapLemmas.
Context `{!Csl, !CslLaws, !Scripts} {L : Type} `{!Ogmios L} {unspent : L → list OgmiosUtxo} `{!OgmiosLaws L unspent}.
Context (hash_order : ∀ A : Type, list A → list A).
Implicit Types (s : L) (ctx : TransactionContext).

Lemma governed_map_utxos_spec token utxos : ∀ entries,
  governed_map_utxos utxos token = Ret entries →
  ∀ u d, (u, d) ∈ entries ↔ u ∈ utxos ∧ governed_entry token u = Ret (Some d).
Proof.
  induction utxos as [|u utxos IH]; simpl; intros entries.
  { intros [= <-] u d. split; [|intros [Hu _]]; intros; exfalso; by eapply elem_of_nil. }
  destruct (governed_entry token u) as [entry|] eqn:Hu; simpl; [|done].
  destruct (governed_map_utxos utxos token) as [rest|] eqn:Hr; simpl; [|done]. intros [= <-] v d.
  specialize (IH rest eq_refl v d). rewrite elem_of_cons. destruct entry as [d'|].
  - rewrite elem_of_cons, IH. split; [intros [[= -> ->]|[Hin He]]; auto|].
    intros [[->|Hin] He]; [left; congruence|by right].
  - rewrite IH. split; [intros [Hin He]; auto|]. intros [[->|Hin] He]; [congruence|done].
Qed.

Lemma get_utxos_for_key_spec token key utxos l :
  get_utxos_for_key utxos key token = Ret l →
  ∀ u, u ∈ l ↔ u ∈ utxos ∧ ∃ v, governed_entry token u = Ret (Some (mkGovernedMapDatum key v)).
Proof.
  unfold get_utxos_for_key. destruct (governed_map_utxos utxos token) as [entries|] eqn:He; simpl; [|done].
  intros [= <-] u. pose proof (governed_map_utxos_spec token utxos entries He) as Hs. rewrite list_elem_of_fmap. split.
  - intros ([u' [k v]] & -> & Hin). apply list_elem_of_filter in Hin as [Hk Hin]. simpl in *. subst.
    apply Hs in Hin as [Hin He']. eauto.
  - intros [Hin [v Hv]]. exists (u, mkGovernedMapDatum key v). split; [done|].
    apply list_elem_of_filter. split; [done|]. by apply Hs.
Qed.

Lemma get_current_value_spec token key utxos : ∀ r,
  get_current_value utxos key token = Ret r →
  match r with
  | Some v => ∃ u, u ∈ utxos ∧ governed_entry token u = Ret (Some (mkGovernedMapDatum key v))
  | None => ∀ u v, u ∈ utxos → governed_entry token u ≠ Ret (Some (mkGovernedMapDatum key v))
  end.
Proof.
  induction utxos as [|u utxos IH]; simpl; intros r.
  { intros [= <-] u v Hu. by apply elem_of_nil in Hu. }
  destruct (governed_entry token u) as [[[k v]|]|] eqn:Hu; simpl; [|intros Hr|done].
  - destruct (decide (k = key)) as [->|Hne]; [intros [= <-]; exists u; split; [by left|done]|].
    intros Hr. specialize (IH r Hr). destruct r as [w|].
    + destruct IH as (u' & Hin & He). exists u'. split; [by right|done].
    + intros u' w [->|Hin]%elem_of_cons; [congruence|by apply IH].
  - specialize (IH r Hr). destruct r as [w|].
    + destruct IH as (u' & Hin & He). exists u'. split; [by right|done].
    + intros u' w [->|Hin]%elem_of_cons; [congruence|by apply IH].
Qed.

(** ** What the transactions spend and pay *)

Lemma spend_utxos_inputs validator redeemer costs indices utxos : ∀ ix inputs inputs',
  spend_utxos validator redeemer costs indices ix utxos inputs = Ret (Ok inputs') →
  txi_id <$> inputs' = (txi_id <$> inputs) ++ (utxo_id_of <$> utxos).
Proof.
  induction utxos as [|u utxos IH]; simpl; intros ix inputs inputs'; [intros [= <-]; by rewrite app_nil_r|].
  destruct (get_spend costs _) as [units|]; simpl; [|done]. unfold add_script_utxo_input.
  destruct (value_to_csl _ _); simpl; [|done]. intros Hs%IH. rewrite Hs, fmap_app. simpl. by rewrite <-app_assoc.
Qed.

Section Makers.
Context (scripts : PlutusScriptData) (n : Network) (governance : GovernanceData).
Context (Haddress : sd_validator_address scripts = plutus_address (sd_validator scripts) n)
  (Hnetwork : ∀ s n', shelley_network s = Ok n' → n' = n).

Definition pays_entry (key value : bytes) : list TxOutput → Prop :=
  pays_token scripts (governed_map_datum_to_plutus_data (mkGovernedMapDatum key value)).

Lemma insert_maker key value :
  maker (L:=L) (insert_key_value_tx (sd_validator scripts) (sd_policy scripts) key value governance) [] (pays_entry key value).
Proof. by apply mint_token_maker with n. Qed.

Lemma update_maker key value utxos :
  maker (L:=L) (update_key_value_tx hash_order (sd_validator scripts) (sd_policy scripts) key value utxos governance)
    (utxo_id_of <$> utxos) (pays_entry key value).
Proof.
  intros costs ctx s0 tx Hs0. unfold update_key_value_tx.
  destruct (get_builder_config ctx) as [config|]; simpl; [|done].
  destruct (with_governance governance costs _) as [b|] eqn:Hg; simpl; [|done].
  destruct (spend_utxos _ _ _ _ _ _ _) as [[ins|]|] eqn:Hsp; simpl; [|done|done].
  destruct (if (1 <? length utxos)%nat then _ else _) as [b1|] eqn:Hb1; simpl; [|done].
  destruct (add_output_with_one_script_token _ _ _ _ b1) as [b2|] eqn:Ho; simpl; [|done].
  apply with_governance_keeps in Hg as [Hi Hout]. apply spend_utxos_inputs in Hsp. simpl in Hsp, Hi, Hout.
  assert (b_inputs b1 = ins ∧ b_outputs b1 = []) as [Hi1 Ho1].
  { destruct (1 <? length utxos)%nat; [|by injection Hb1 as <-].
    destruct (get_mint costs _); simpl in Hb1; [|done]. by injection Hb1 as <-. }
  intros Htx. pose proof (token_tx_makes scripts n Haddress Hnetwork _ ctx s0 b1 b2 b2 tx Hs0 Ho Ho1 eq_refl eq_refl Htx) as Hm.
  by rewrite Hi1, Hsp in Hm.
Qed.

Lemma remove_maker utxos :
  maker (L:=L) (remove_key_value_tx hash_order (sd_validator scripts) (sd_policy scripts) utxos governance)
    (utxo_id_of <$> utxos) (λ outs, outs = []).
Proof.
  intros costs ctx s0 tx _. unfold remove_key_value_tx.
  destruct (get_builder_config ctx) as [config|]; simpl; [|done].
  destruct (with_governance governance costs _) as [b|] eqn:Hg; simpl; [|done].
  destruct (spend_utxos _ _ _ _ _ _ _) as [[ins|]|] eqn:Hsp; simpl; [|done|done].
  destruct (get_mint costs _) as [units|]; simpl; [|done]. intros Htx%balance_and_strip_makes.
  apply with_governance_keeps in Hg as [Hi Hout]. apply spend_utxos_inputs in Hsp. simpl in *.
  by rewrite Hsp, Hout in Htx.
Qed.
End Makers.
End MapLemmas.

(** ** The map on the ledger *)

Inductive MapCommand :=
  | InsertEntry (key value : bytes)
  | UpdateEntry (key value : bytes) (expected_current_value : option bytes)
  | RemoveEntry (key : bytes).

Definition command_key (c : MapCommand) : bytes :=
  match c with InsertEntry key _ | UpdateEntry key _ _ | RemoveEntry key => key end.
(** The value that the key shall have. *)
Definition command_value (c : MapCommand) : option bytes :=
  match c with InsertEntry _ value | UpdateEntry _ value _ => Some value | RemoveEntry _ => None end.

Section MapSpec.
Context `{!Csl, !CslLaws, !Scripts} {L : Type} `{!Ogmios L} {unspent : L → list OgmiosUtxo} `{!OgmiosLaws L unspent}.
Context (hash_order : ∀ A : Type, list A → list A).
Context (generate_ed25519 : result OffchainError PrivateKey) (save_wallet_file : result OffchainError unit)
  (delay : Z) (retries : nat).
Implicit Types (s : L) (ctx : TransactionContext).

Definition run_command (genesis_utxo : UtxoId) (c : MapCommand) (payment_signing_key : PrivateKey) :
    Off L (option MultiSigSmartContractResult) :=
  match c with
  | InsertEntry key value => run_insert generate_ed25519 save_wallet_file delay retries genesis_utxo key value payment_signing_key
  | UpdateEntry key value expected =>
      run_update hash_order generate_ed25519 save_wallet_file delay retries genesis_utxo key value expected payment_signing_key
  | RemoveEntry key => run_remove hash_order generate_ed25519 save_wallet_file delay retries genesis_utxo key payment_signing_key
  end.

(** An output of the ledger has the entry. *)
Definition holds (unspent : L → list OgmiosUtxo) (scripts : PlutusScriptData) s (key value : bytes) : Prop :=
  ∃ u, u ∈ at_address (unspent:=unspent) (sd_validator_address scripts) s ∧
    governed_entry (policy_id scripts) u = Ret (Some (mkGovernedMapDatum key value)).

(** The entries of the command's key were replaced, all others are as before. *)
Definition executed (unspent : L → list OgmiosUtxo) (scripts : PlutusScriptData) (c : MapCommand) s s' : Prop :=
  ∀ k v, holds unspent scripts s' k v ↔
    if decide (k = command_key c) then command_value c = Some v else holds unspent scripts s k v.

(** The commands act only on maps on which they are meant to act. *)
Definition admissible (unspent : L → list OgmiosUtxo) (scripts : PlutusScriptData) (c : MapCommand) s : Prop :=
  match c with
  | InsertEntry key _ => ∀ v, ¬ holds unspent scripts s key v
  | UpdateEntry key value expected =>
      ∃ v, holds unspent scripts s key v ∧ v ≠ value ∧ match expected with Some e => e = v | None => True end
  | RemoveEntry key => ∃ v, holds unspent scripts s key v
  end.

Section Fixed.
Context (scripts : PlutusScriptData) (genesis : UtxoId) (n : Network).
Context (Hscripts : governed_map_scripts genesis n = Ok scripts) (Hnetwork : ∀ s n', shelley_network s = Ok n' → n' = n).
Abbreviation holds' := (holds unspent scripts).

Lemma validator_address : sd_validator_address scripts = plutus_address (sd_validator scripts) n.
Proof.
  clear -Hscripts. revert Hscripts. unfold governed_map_scripts.
  destruct (version_oracle_scripts _ _); simpl; [|done]. destruct (plutus_script GOVERNED_MAP_VALIDATOR _); simpl; [|done].
  destruct (plutus_script GOVERNED_MAP_POLICY _); simpl; [|done]. by intros [= <-].
Qed.
Lemma validator_is_script : is_script_address (sd_validator_address scripts).
Proof. rewrite validator_address. by eexists _, _. Qed.

Lemma scripts_kept_holds s s' : scripts_kept (unspent:=unspent) s s' → ∀ k v, holds' s' k v ↔ holds' s k v.
Proof.
  intros Hk k v. by apply (has_kept (λ u e, governed_entry (policy_id scripts) u = Ret (Some e)) _ _ _ validator_is_script Hk).
Qed.

(** The outputs that a command spends are those of its key, and it pays an entry
    of that key or none. *)
Definition plan_of (c : MapCommand) s (removed : list UtxoId) (Q : list TxOutput → Prop) : Prop :=
  (∀ u k v, u ∈ at_address (unspent:=unspent) (sd_validator_address scripts) s →
     governed_entry (policy_id scripts) u = Ret (Some (mkGovernedMapDatum k v)) →
     utxo_id_of u ∈ removed ↔ k = command_key c) ∧
  Q = match command_value c with Some value => pays_entry scripts (command_key c) value | None => λ outs, outs = [] end.

Lemma paid_entry key value outs id :
  from_utf8 key = Some key → pays_entry scripts key value outs →
  ∃ u, filter (λ u, ou_address u = sd_validator_address scripts) (imap (output_utxo id) outs) = [u] ∧
    governed_entry (policy_id scripts) u = Ret (Some (mkGovernedMapDatum key value)).
Proof.
  intros Hutf (u & Hf & [tokens Htok] & Hdat)%(paid_token _ _ _ id). exists u. split; [done|].
  unfold governed_entry. rewrite Htok, Hdat. unfold governed_map_datum_try_from. simpl. by rewrite Hutf.
Qed.

Lemma plan_executed c s s' id removed Q :
  from_utf8 (command_key c) = Some (command_key c) →
  plan_of c s removed Q → submitted (unspent:=unspent) removed Q s s' id → executed unspent scripts c s s'.
Proof.
  intros Hutf [Hrem ->] Hsub k v.
  pose (entry u e := governed_entry (policy_id scripts) u = Ret (Some e)).
  enough (has (unspent:=unspent) entry (sd_validator_address scripts) s' (mkGovernedMapDatum k v) ↔
    mkGovernedMapDatum (command_key c) <$> command_value c = Some (mkGovernedMapDatum k v) ∨
    (has (unspent:=unspent) entry (sd_validator_address scripts) s (mkGovernedMapDatum k v) ∧ k ≠ command_key c)) as Hent.
  { unfold holds. unfold has, entry in Hent. rewrite Hent. destruct (command_value c); simpl; case_decide; naive_solver. }
  eapply (submitted_entries entry (λ e, entry_key e = command_key c));
    [apply validator_is_script|by intros u [k' v']; apply Hrem| |exact Hsub].
  intros outs HQ [k' v']. destruct (command_value c) as [value|] eqn:Hv; simpl.
  - destruct (paid_entry _ _ _ id Hutf HQ) as (u & Hf & He). rewrite Hf. setoid_rewrite list_elem_of_singleton.
    split; [intros (? & -> & He'); unfold entry in He'; congruence|]. intros [= <- <-]. by exists u.
  - subst. split; [intros (u & Hu & _); by apply elem_of_nil in Hu|done].
Qed.

(** The start of every command: the context, the scripts and the outputs of the
    validator, read from one state. *)
Lemma command_start key s s' r (k : TransactionContext → PlutusScriptData → list OgmiosUtxo → Off L (option MultiSigSmartContractResult)) :
  (ctx ← for_payment_key key;
   scripts ← ds_lift (governed_map_scripts genesis (network ctx));
   validator_utxos ← query (query_utxos (sd_validator_address scripts));
   k ctx scripts validator_utxos) s = Ret (s', r) →
  (s' = s ∧ ∃ e, r = Err e) ∨
  ∃ ctx utxos, context_ok (unspent:=unspent) s ctx ∧
    utxos ≡ₚ at_address (unspent:=unspent) (sd_validator_address scripts) s ∧ k ctx scripts utxos s = Ret (s', r).
Proof.
  intros [Hr|(ctx & Hctx & _ & Hk)]%(context_start (unspent:=unspent) key n scripts); [by left| |done|done].
  apply query_utxos_start in Hk as [Hr|(utxos & Hutxos & Hk)]; [by left|]. right. by exists ctx, utxos.
Qed.

(** The outputs of a key are those that have an entry of it. *)
Lemma key_outputs key utxos l s :
  utxos ≡ₚ at_address (unspent:=unspent) (sd_validator_address scripts) s →
  get_utxos_for_key utxos key (policy_id scripts) = Ret l →
  ∀ u k v, u ∈ at_address (unspent:=unspent) (sd_validator_address scripts) s →
    governed_entry (policy_id scripts) u = Ret (Some (mkGovernedMapDatum k v)) →
    utxo_id_of u ∈ utxo_id_of <$> l ↔ k = key.
Proof.
  intros Hutxos Hl u k v Hu He. pose proof (get_utxos_for_key_spec _ _ _ _ Hl) as Hkey. split.
  - intros (x & Hid & Hx)%list_elem_of_fmap. apply Hkey in Hx as [Hx [y Hy]]. rewrite Hutxos in Hx.
    assert (u = x) as ->; [|congruence]. apply list_elem_of_filter in Hu as [_ Hu], Hx as [_ Hx].
    by eapply unspent_same_id.
  - intros ->. apply list_elem_of_fmap. exists u. split; [done|]. apply Hkey. rewrite Hutxos. eauto.
Qed.

(** What a command does. *)
Lemma run_command_spec c key s s' r :
  run_command genesis c key s = Ret (s', r) →
  (s' = s ∧ ∃ e, r = Err e) ∨
  (s' = s ∧ r = Ok None ∧ match command_value c with
                         | Some v => holds' s (command_key c) v
                         | None => ∀ v, ¬ holds' s (command_key c) v end) ∨
  (admissible unspent scripts c s ∧ ∃ removed Q, plan_of c s removed Q ∧ outcome_of (unspent:=unspent) removed Q s s' r).
Proof.
  pose proof validator_address as Haddr.
  destruct c as [k v|k v expected|k]; simpl; unfold run_insert, run_update, run_remove;
    intros [Hr|(ctx & utxos & Hctx & Hutxos & Hk)]%command_start; try (by left).
  - apply lift_bind_inv in Hk as (current & Hcur & Hk). apply get_current_value_spec in Hcur.
    destruct current as [v'|].
    + destruct (decide (v' ≠ v)) as [Hne|Heq%dec_stable]; injection Hk as <- <-; [by eauto|]. subst.
      right; left. split_and!; [done|done|]. destruct Hcur as (u & Hu & He). exists u. by rewrite <-Hutxos.
    + right; right. split.
      { intros w (u & Hu & He). rewrite <-Hutxos in Hu. by apply (Hcur u w Hu). }
      exists [], (pays_entry scripts k v). split.
      { split; [|done]. intros u k' v' Hu He. split; [by intros []%elem_of_nil|]. simpl. intros ->.
        rewrite <-Hutxos in Hu. by destruct (Hcur u v' Hu). }
      eapply submit_await_spec; [done| |exact Hk]. intros governance. by apply insert_maker with n.
  - apply lift_bind_inv in Hk as (l & Hl & Hk). apply lift_bind_inv in Hk as (current & Hcur & Hk).
    apply get_current_value_spec in Hcur. pose proof (get_utxos_for_key_spec _ _ _ _ Hl) as Hkey.
    destruct current as [v'|]; [|injection Hk as <- <-; by eauto].
    destruct (match expected with Some e => _ | None => _ end) eqn:Hexp; [injection Hk as <- <-; by eauto|].
    destruct Hcur as (u & Hu & He).
    destruct (decide (v' ≠ v)) as [Hne|Heq%dec_stable].
    + right; right. split.
      { exists v'. split_and!; [exists u; by rewrite <-Hutxos|done|]. destruct expected; [|done].
        by apply bool_decide_eq_false, dec_stable in Hexp. }
      exists (utxo_id_of <$> l), (pays_entry scripts k v). split.
      { split; [|done]. by eapply key_outputs. }
      eapply submit_await_spec; [done| |exact Hk]. intros governance. by apply update_maker with n.
    + subst. injection Hk as <- <-. right; left. split_and!; [done|done|]. exists u. by rewrite <-Hutxos.
  - apply lift_bind_inv in Hk as (l & Hl & Hk). pose proof (get_utxos_for_key_spec _ _ _ _ Hl) as Hkey.
    destruct l as [|u0 l]; simpl in Hk.
    + injection Hk as <- <-. right; left. split_and!; [done|done|]. intros v (u & Hu & He). rewrite <-Hutxos in Hu.
      eapply (elem_of_nil u), Hkey; eauto.
    + right; right. split.
      { destruct (proj1 (Hkey u0)) as [Hu [v Hv]]; [by left|]. exists v, u0. by rewrite <-Hutxos. }
      exists (utxo_id_of <$> u0 :: l), (λ outs, outs = []). split.
      { split; [|done]. by eapply key_outputs. }
      eapply submit_await_spec; [done| |exact Hk]. intros governance. by apply remove_maker.
Qed.
End Fixed.
End MapSpec.

(** ** The commands refine a map *)

(** C30. The commands act on the Governed Map as on a map.  If a command returns
    without a transaction, the map already was as requested; if it submitted one,
    the map was one the command is meant for (no value to insert over, a value to
    update that is the expected one, a value to remove), its key has the new
    value and no other, or none, and all other entries are as they were; if the
    transaction waits for signatures, nothing changed so far and the same will
    hold when it is submitted with them; and if the command fails, the map is
    either unchanged or, when only the wait for confirmation failed, changed as
    requested. *)
Theorem governed_map_commands {CS : Csl} {CL : CslLaws} {SC : Scripts} {L : Type} {OG : Ogmios L}
    (unspent : L → list OgmiosUtxo) {OL : OgmiosLaws L unspent} hash_order generate_ed25519 save_wallet_file delay retries
    genesis (c : MapCommand) payment_signing_key (s s' : L) r n scripts :
  shelley_network s = Ok n → governed_map_scripts genesis n = Ok scripts →
  from_utf8 (command_key c) = Some (command_key c) →
  run_command hash_order generate_ed25519 save_wallet_file delay retries genesis c payment_signing_key s = Ret (s', r) →
  match r with
  | Ok None =>
      (∀ k v, holds unspent scripts s' k v ↔ holds unspent scripts s k v) ∧
      match command_value c with
      | Some v => holds unspent scripts s (command_key c) v
      | None => ∀ v, ¬ holds unspent scripts s (command_key c) v
      end
  | Ok (Some (TransactionSubmitted id)) => admissible unspent scripts c s ∧ executed unspent scripts c s s'
  | Ok (Some (TransactionToSign data)) =>
      admissible unspent scripts c s ∧
      (∀ k v, holds unspent scripts s' k v ↔ holds unspent scripts s k v) ∧
      ∀ tx s'' id, body tx = body (ms_tx data) → submit_transaction tx s' = (s'', Ok id) →
        executed unspent scripts c s' s''
  | Err _ =>
      (∀ k v, holds unspent scripts s' k v ↔ holds unspent scripts s k v) ∨ executed unspent scripts c s s'
  end.
Proof.
  intros Hn Hscripts Hutf Hrun.
  assert (∀ s0 n', shelley_network s0 = Ok n' → n' = n) as Hnet by (intros s0 n' Hs0; by eapply one_network).
  pose proof (scripts_kept_holds (unspent:=unspent) scripts genesis n Hscripts) as Hkeep.
  pose proof (plan_executed (unspent:=unspent) scripts genesis n Hscripts) as Hplan.
  destruct (run_command_spec hash_order generate_ed25519 save_wallet_file delay retries scripts genesis n Hscripts Hnet
    c payment_signing_key s s' r Hrun) as [(-> & e & ->)|[(-> & -> & Hv)|(Hadm & removed & Q & Hp & Hout)]];
    [by left|done|].
  destruct r as [[[id|data]|]|e]; simpl in Hout.
  - split; [done|]. by eapply Hplan.
  - destruct Hout as [Hk Hsub]. split_and!; [done|by apply Hkeep|]. intros tx s'' id Hb Hs.
    eapply (Hplan c s' s'' id removed Q); [done| |by eapply Hsub].
    destruct Hp as [Hrem HQ]. split; [|done]. intros u k v Hu. apply Hrem.
    by rewrite <-(Hk _ (validator_is_script scripts genesis n Hscripts)).
  - done.
  - destruct Hout as [Hk|[id Hsub]]; [left; by apply Hkeep|right; by eapply Hplan].
Qed.

(** ** Witness *)

#[local] Existing Instances example_csl example_csl_laws example_scripts example_ogmios example_ogmios_laws.

Definition example_map_scripts : PlutusScriptData :=
  mkScriptData (mkPlutusScript [5; 0; 0; 0] PlutusV2) (plutus_address (mkPlutusScript [5; 0; 0; 0] PlutusV2) Testnet)
    (mkPlutusScript [4; 0; 0; 0] PlutusV2).

Definition example_run (c : MapCommand) (s : Ledger) : outcome (Ledger * result OffchainError (option MultiSigSmartContractResult)) :=
  run_command (λ _ l, l) (Ok 9) (Ok tt) 1 0 example_genesis c 7 s.

(** An insertion into the empty map, submitted by the only authority. *)
Lemma governed_map_commands_witness :
  ∃ s', executed ledger_utxos example_map_scripts (InsertEntry [97] [1]) example_ledger s' ∧
    holds ledger_utxos example_map_scripts s' [97] [1].
Proof.
  destruct (example_run (InsertEntry [97] [1]) example_ledger) as [[s' r]|] eqn:Hrun;
    [|exfalso; revert Hrun; vm_compute; discriminate].
  assert (∃ id, r = Ok (Some (TransactionSubmitted id))) as [id ->].
  { assert (match example_run (InsertEntry [97] [1]) example_ledger with
            | Ret (_, Ok (Some (TransactionSubmitted _))) => true | _ => false end = true) as Hok
      by (vm_compute; reflexivity).
    rewrite Hrun in Hok. destruct r as [[[id|]|]|]; [exists id; reflexivity|discriminate Hok..]. }
  destruct (governed_map_commands (CS:=example_csl) (SC:=example_scripts) (OG:=example_ogmios) ledger_utxos
    (λ _ l, l) (Ok 9) (Ok tt) 1 0 example_genesis (InsertEntry [97] [1]) 7
    example_ledger s' (Ok (Some (TransactionSubmitted id))) Testnet example_map_scripts
    ltac:(reflexivity) ltac:(vm_compute; reflexivity) ltac:(vm_compute; reflexivity) Hrun) as [_ Hexec].
  exists s'. split; [exact Hexec|]. apply Hexec. simpl. reflexivity.
Defined.
