(* ===== verification/OffchainCandidates.v ===== *)
(** * Commands on the candidates of the committee

    Models [d_param/mod.rs], [permissioned_candidates.rs] and [register.rs] of
    [toolkit/smart-contracts/offchain/src]: setting the D-parameter and the list of
    permissioned candidates, and registering and deregistering a candidate.  The
    nodes observe what these commands write ([CandidateSource]).

    The D-parameter and the list are each the datum of the one output at the
    address of their validator that holds a token of their policy. *)

From S2P Require Import Prelude Domain CandidateKeys PlutusData ContractDatums McHash.
From S2P Require Import OffchainTx OffchainGovernance OffchainExample.

(** The derived [Ord] of [PermissionedCandidateData] and of its parts: the fields
    in order. *)
Definition candidate_key_fields (k : CandidateKey) : bytes * bytes := (key_id k, key_bytes k).
#[export] Instance candidate_key_fields_inj : Inj (=) (=) candidate_key_fields.
Proof. intros [] [] [=]; by subst. Qed.
#[export] Instance CandidateKey_ord : Ord CandidateKey := ord_via candidate_key_fields.

Definition permissioned_candidate_fields (c : PermissionedCandidateData) : bytes * CandidateKeys :=
  (sidechain_public_key c, permissioned_keys c).
#[export] Instance permissioned_candidate_fields_inj : Inj (=) (=) permissioned_candidate_fields.
Proof. intros [] [] [=]; by subst. Qed.
#[export] Instance PermissionedCandidateData_ord : Ord PermissionedCandidateData := ord_via permissioned_candidate_fields.

#[export] Instance DParameter_eq_dec : EqDecision DParameter.
Proof. solve_decision. Defined.

Section CandidateCommands.
Context `{!Csl, !Scripts} {L : Type} `{!Ogmios L}.
Context (generate_ed25519 : result OffchainError PrivateKey) (save_wallet_file : result OffchainError unit)
  (delay : Z) (retries : nat).

Abbreviation submit := (submit_or_create_tx_to_sign generate_ed25519 save_wallet_file delay retries).

(** ** A setting that is the datum of one output *)

Definition with_token (scripts : PlutusScriptData) (utxos : list OgmiosUtxo) : list OgmiosUtxo :=
  filter (λ u, is_Some (ou_native_tokens u !! policy_id scripts)) utxos.

(** The functions [get_current_d_parameter] and [get_current_permissioned_candidates]
    differ in the type of the datum. *)
Definition get_current {A} (decode : Datum → result OffchainError A) (validator_utxos : list OgmiosUtxo)
    (scripts : PlutusScriptData) : result OffchainError (option (OgmiosUtxo * A)) :=
  let utxos_with_token := with_token scripts validator_utxos in
  if (1 <? length utxos_with_token)%nat then Err (Anyhow "Multiple UTXOs with token found")
  else match head utxos_with_token with
       | Some utxo =>
           datum ← ok_or (ou_datum utxo) (Anyhow "an UTXO at the validator script address does not have a datum");
           datum_plutus_data ← ok_or (datum_from_bytes datum) (Anyhow "could not decode datum of validator script");
           current ← decode datum_plutus_data;
           Ok (Some (utxo, current))
       | None => Ok None
       end.

Definition decode_d_parameter (datum : Datum) : result OffchainError DParameter :=
  map_err (λ _, Anyhow "could not decode datum of D-parameter validator script")
    (d_param_from_datum <$> decode_with_legacy datum).
Definition decode_permissioned_candidates (datum : Datum) : result OffchainError (list PermissionedCandidateData) :=
  map_err (λ _, Anyhow "could not decode datum of permissioned candidates validator script")
    (sort <$> (permissioned_from_datums <$> decode_with_legacy datum)).

Definition get_current_d_parameter : list OgmiosUtxo → PlutusScriptData → result OffchainError (option (OgmiosUtxo * DParameter)) :=
  get_current decode_d_parameter.
Definition get_current_permissioned_candidates : list OgmiosUtxo → PlutusScriptData →
    result OffchainError (option (OgmiosUtxo * list PermissionedCandidateData)) :=
  get_current decode_permissioned_candidates.

(** A transaction that spends the output and pays another one with its token. *)
Definition update_token_tx (validator policy : PlutusScript) (redeemer datum : Datum) (script_utxo : OgmiosUtxo)
    (governance_data : GovernanceData) (costs : Costs) (ctx : TransactionContext) : outcome (result OffchainError Tx) :=
  config ←? Ret (get_builder_config ctx);
  units ← get_one_spend costs;
  inputs ←? Ret (add_script_utxo_input script_utxo validator redeemer units []);
  let b := set_inputs inputs (builder_new config) in
  b ←? Ret (add_output_with_one_script_token validator policy datum ctx b);
  b ← with_governance governance_data costs b;
  balance_and_strip b ctx.

(** ** The D-parameter *)

Definition mint_d_param_token_tx (validator policy : PlutusScript) (d_parameter : DParameter)
    (governance_data : GovernanceData) : Costs → TransactionContext → outcome (result OffchainError Tx) :=
  mint_token_tx validator policy unit_plutus_data (d_parameter_to_plutus_data d_parameter) governance_data.
Definition update_d_param_tx (validator policy : PlutusScript) (d_parameter : DParameter) (script_utxo : OgmiosUtxo)
    (governance_data : GovernanceData) : Costs → TransactionContext → outcome (result OffchainError Tx) :=
  update_token_tx validator policy unit_plutus_data (d_parameter_to_plutus_data d_parameter) script_utxo governance_data.

Definition insert_d_param (scripts : PlutusScriptData) (d_parameter : DParameter) (ctx : TransactionContext)
    (genesis_utxo : UtxoId) : Off L MultiSigSmartContractResult :=
  gov_data ← governance_data_get genesis_utxo;
  submit gov_data ctx (mint_d_param_token_tx (sd_validator scripts) (sd_policy scripts) d_parameter gov_data)
    "Insert D-parameter".
Definition update_d_param (scripts : PlutusScriptData) (d_parameter : DParameter) (current_utxo : OgmiosUtxo)
    (ctx : TransactionContext) (genesis_utxo : UtxoId) : Off L MultiSigSmartContractResult :=
  governance_data ← governance_data_get genesis_utxo;
  submit governance_data ctx
    (update_d_param_tx (sd_validator scripts) (sd_policy scripts) d_parameter current_utxo governance_data)
    "Update D-parameter".

Definition upsert_d_param (genesis_utxo : UtxoId) (d_parameter : DParameter) (payment_signing_key : PrivateKey) :
    Off L (option MultiSigSmartContractResult) :=
  ctx ← for_payment_key payment_signing_key;
  scripts ← ds_lift (d_parameter_scripts genesis_utxo (network ctx));
  validator_utxos ← query (query_utxos (sd_validator_address scripts));
  current ← ds_lift (get_current_d_parameter validator_utxos scripts);
  match current with
  | Some (current_utxo, current_d_param) =>
      if decide (current_d_param = d_parameter) then await_result delay retries None
      else r ← update_d_param scripts d_parameter current_utxo ctx genesis_utxo; await_result delay retries (Some r)
  | None => r ← insert_d_param scripts d_parameter ctx genesis_utxo; await_result delay retries (Some r)
  end.

Definition get_d_param (genesis_utxo : UtxoId) : Off L (option DParameter) :=
  network ← query shelley_network;
  scripts ← ds_lift (d_parameter_scripts genesis_utxo network);
  validator_utxos ← query (query_utxos (sd_validator_address scripts));
  current ← ds_lift (get_current_d_parameter validator_utxos scripts);
  mret (snd <$> current).

(** ** The permissioned candidates *)

Definition permissioned_candidates_policy_redeemer_data : Datum := new_integer 0.

Definition mint_permissioned_candidates_token_tx (validator policy : PlutusScript)
    (permissioned_candidates : list PermissionedCandidateData) (governance_data : GovernanceData) :
    Costs → TransactionContext → outcome (result OffchainError Tx) :=
  mint_token_tx validator policy permissioned_candidates_policy_redeemer_data
    (permissioned_candidates_to_plutus_data permissioned_candidates) governance_data.
Definition update_permissioned_candidates_tx (validator policy : PlutusScript)
    (permissioned_candidates : list PermissionedCandidateData) (script_utxo : OgmiosUtxo)
    (governance_data : GovernanceData) : Costs → TransactionContext → outcome (result OffchainError Tx) :=
  update_token_tx validator policy permissioned_candidates_policy_redeemer_data
    (permissioned_candidates_to_plutus_data permissioned_candidates) script_utxo governance_data.

Definition insert_permissioned_candidates (scripts : PlutusScriptData) (candidates : list PermissionedCandidateData)
    (governance_data : GovernanceData) (payment_ctx : TransactionContext) : Off L MultiSigSmartContractResult :=
  submit governance_data payment_ctx
    (mint_permissioned_candidates_token_tx (sd_validator scripts) (sd_policy scripts) candidates governance_data)
    "Insert Permissioned Candidates".
Definition update_permissioned_candidates (scripts : PlutusScriptData) (candidates : list PermissionedCandidateData)
    (current_utxo : OgmiosUtxo) (governance_data : GovernanceData) (payment_ctx : TransactionContext) :
    Off L MultiSigSmartContractResult :=
  submit governance_data payment_ctx
    (update_permissioned_candidates_tx (sd_validator scripts) (sd_policy scripts) candidates current_utxo governance_data)
    "Update Permissioned Candidates".

Definition upsert_permissioned_candidates (genesis_utxo : UtxoId) (candidates : list PermissionedCandidateData)
    (payment_signing_key : PrivateKey) : Off L (option MultiSigSmartContractResult) :=
  ctx ← for_payment_key payment_signing_key;
  scripts ← ds_lift (permissioned_candidates_scripts genesis_utxo (network ctx));
  governance_data ← governance_data_get genesis_utxo;
  validator_utxos ← query (query_utxos (sd_validator_address scripts));
  let candidates := sort candidates in
  current ← ds_lift (get_current_permissioned_candidates validator_utxos scripts);
  match current with
  | Some (current_utxo, current_permissioned_candidates) =>
      if decide (current_permissioned_candidates = candidates) then mret None
      else r ← update_permissioned_candidates scripts candidates current_utxo governance_data ctx; mret (Some r)
  | None => r ← insert_permissioned_candidates scripts candidates governance_data ctx; mret (Some r)
  end.

Definition get_permissioned_candidates (genesis_utxo : UtxoId) (network : Network) :
    Off L (option (list PermissionedCandidateData)) :=
  scripts ← ds_lift (permissioned_candidates_scripts genesis_utxo network);
  validator_utxos ← query (query_utxos (sd_validator_address scripts));
  current ← ds_lift (get_current_permissioned_candidates validator_utxos scripts);
  mret (snd <$> current).

(** ** Registrations *)

Definition register_redeemer_data : Datum := unit_plutus_data.

Definition get_candidate_registration (validator_utxo : OgmiosUtxo) : result OffchainError CandidateRegistration :=
  datum ← ok_or (ou_datum validator_utxo) (Anyhow "UTXO does not have a datum");
  datum_plutus_data ← ok_or (datum_from_bytes datum) (Anyhow "Could not decode datum of validator script");
  map_err (λ _, Anyhow "Could not decode datum of validator script")
    (registration_from_datum <$> decode_with_legacy datum_plutus_data).

Definition get_own_registrations (own_key_hash spo_pub_key : bytes) (validator_utxos : list OgmiosUtxo) :
    list (OgmiosUtxo * CandidateRegistration) :=
  filter_map (λ validator_utxo,
    match get_candidate_registration validator_utxo with
    | Ok candidate_registration =>
        if decide (ada_pub_key (stake_ownership candidate_registration) = spo_pub_key
                   ∧ own_pkh candidate_registration = own_key_hash)
        then Some (validator_utxo, candidate_registration) else None
    | Err _ => None
    end) validator_utxos.

(** The loop over the own registrations. *)
Fixpoint spend_registrations (validator : PlutusScript) (costs : Costs) (own_registration_utxos : list OgmiosUtxo)
    (inputs : list TxInput) : outcome (result OffchainError (list TxInput)) :=
  match own_registration_utxos with
  | [] => Ret (Ok inputs)
  | own_registration_utxo :: own_registration_utxos =>
      units ← get_one_spend costs;
      inputs ←? Ret (add_script_utxo_input own_registration_utxo validator register_redeemer_data units inputs);
      spend_registrations validator costs own_registration_utxos inputs
  end.

Definition register_tx (validator : PlutusScript) (candidate_registration : CandidateRegistration)
    (registration_utxo : OgmiosUtxo) (own_registration_utxos : list OgmiosUtxo) (ctx : TransactionContext)
    (costs : Costs) : outcome (result OffchainError Tx) :=
  config ←? Ret (get_builder_config ctx);
  inputs ←? spend_registrations validator costs own_registration_utxos [];
  inputs ←? Ret (add_regular_inputs [registration_utxo] inputs);
  let b := set_inputs inputs (builder_new config) in
  let datum := candidate_registration_to_plutus_data candidate_registration in
  output ←? Ret (with_minimum_ada (mkTxOutput (plutus_address validator (network ctx)) 0 ∅ (Some datum) None) ctx);
  Ret (balance_update_and_build (add_output output b) ctx).

Definition deregister_tx (validator : PlutusScript) (own_registration_utxos : list OgmiosUtxo) (ctx : TransactionContext)
    (costs : Costs) : outcome (result OffchainError Tx) :=
  config ←? Ret (get_builder_config ctx);
  inputs ←? spend_registrations validator costs own_registration_utxos [];
  Ret (balance_update_and_build (set_inputs inputs (builder_new config)) ctx).

Definition run_register (genesis_utxo : UtxoId) (candidate_registration : CandidateRegistration)
    (payment_signing_key : PrivateKey) : Off L (option bytes) :=
  ctx ← for_payment_key payment_signing_key;
  validator ← ds_lift (registered_candidates_scripts genesis_utxo);
  registration_utxo ← ds_lift (ok_or
    (head (filter (λ u, utxo_id_of u = reg_utxo candidate_registration) (payment_key_utxos ctx)))
    (Anyhow "registration utxo not found at payment address"));
  all_registration_utxos ← query (query_utxos (plutus_address validator (network ctx)));
  let own_registrations := get_own_registrations (own_pkh candidate_registration)
    (ada_pub_key (stake_ownership candidate_registration)) all_registration_utxos in
  if existsb (λ r, matches_keys candidate_registration r.2) own_registrations then mret None
  else
    tx_id ← sign_submit_await delay retries (λ _, Anyhow "Submit candidate registration transaction request failed") ctx
      (register_tx validator candidate_registration registration_utxo own_registrations.*1 ctx);
    mret (Some tx_id).

Definition run_deregister (genesis_utxo : UtxoId) (payment_signing_key : PrivateKey) (stake_ownership_pub_key : bytes) :
    Off L (option bytes) :=
  ctx ← for_payment_key payment_signing_key;
  validator ← ds_lift (registered_candidates_scripts genesis_utxo);
  all_registration_utxos ← query (query_utxos (plutus_address validator (network ctx)));
  let own_registrations := get_own_registrations (public_hash (to_public payment_signing_key)) stake_ownership_pub_key
    all_registration_utxos in
  if is_empty own_registrations then mret None
  else
    tx_id ← sign_submit_await delay retries (λ _, Anyhow "Submit candidate deregistration transaction request failed") ctx
      (deregister_tx validator own_registrations.*1 ctx);
    mret (Some tx_id).
End CandidateCommands.

(** ** Lemmas: settings *)

Section SettingLemmas.
Context `{!Csl, !CslLaws, !Scripts} {L : Type} `{!Ogmios L} {unspent : L → list OgmiosUtxo} `{!OgmiosLaws L unspent}.
Context (scripts : PlutusScriptData) (n : Network).
Context (Haddress : sd_validator_address scripts = plutus_address (sd_validator scripts) n)
  (Hnetwork : ∀ (s : L) n', shelley_network s = Ok n' → n' = n).
Implicit Types (s : L) (ctx : TransactionContext).

(** The outputs of the validator that hold a token. *)
Definition tokens (unspent : L → list OgmiosUtxo) s : list OgmiosUtxo :=
  with_token scripts (at_address (unspent:=unspent) (sd_validator_address scripts) s).

(** There is one such output, and its datum is [x]. *)
Definition stored {A} (decode : Datum → result OffchainError A) (unspent : L → list OgmiosUtxo) s (x : A) : Prop :=
  ∃ u d, tokens unspent s = [u] ∧ get_plutus_data u = Some d ∧ decode d = Ok x.

Lemma validator_script : is_script_address (sd_validator_address scripts).
Proof. rewrite Haddress. by eexists _, _. Qed.

Lemma tokens_permutation utxos s :
  utxos ≡ₚ at_address (unspent:=unspent) (sd_validator_address scripts) s → with_token scripts utxos ≡ₚ tokens unspent s.
Proof. unfold tokens, with_token. by intros ->. Qed.

Lemma get_current_spec {A} (decode : Datum → result OffchainError A) utxos s current :
  utxos ≡ₚ at_address (unspent:=unspent) (sd_validator_address scripts) s →
  get_current decode utxos scripts = Ok current →
  match current with
  | Some (u, x) => tokens unspent s = [u] ∧ stored decode unspent s x
  | None => tokens unspent s = []
  end.
Proof.
  intros Hp%tokens_permutation. unfold get_current. destruct (Nat.ltb_spec 1 (length (with_token scripts utxos))); [done|].
  destruct (with_token scripts utxos) as [|u [|u' l]]; simpl in *; [|intros Hc|lia].
  - intros [= <-]. by apply Permutation_nil in Hp.
  - apply Permutation_singleton_l in Hp. unfold stored, get_plutus_data. rewrite <-Hp.
    destruct (ou_datum u) as [bytes|] eqn:Hd; simpl in Hc; [|done].
    destruct (datum_from_bytes bytes) as [d|] eqn:Hb; simpl in Hc; [|done].
    destruct (decode d) as [x|] eqn:Hx; simpl in Hc; [|done]. injection Hc as <-. split; [done|].
    exists u, d. split; [done|]. by rewrite Hd.
Qed.

Lemma stored_current {A} (decode : Datum → result OffchainError A) utxos s x :
  utxos ≡ₚ at_address (unspent:=unspent) (sd_validator_address scripts) s → stored decode unspent s x →
  ∃ u, get_current decode utxos scripts = Ok (Some (u, x)).
Proof.
  intros Hp%tokens_permutation (u & d & Hu & Hd & Hx). rewrite Hu in Hp. apply Permutation_singleton_r in Hp.
  exists u. unfold get_current. rewrite Hp. simpl. unfold get_plutus_data in Hd.
  destruct (ou_datum u) as [bytes|]; simpl in *; [|done]. rewrite Hd. simpl. by rewrite Hx.
Qed.

Lemma stored_kept {A} (decode : Datum → result OffchainError A) s s' :
  scripts_kept (unspent:=unspent) s s' → ∀ x, stored decode unspent s' x ↔ stored decode unspent s x.
Proof.
  assert (∀ s1 s2, scripts_kept (unspent:=unspent) s1 s2 → ∀ x, stored decode unspent s2 x → stored decode unspent s1 x) as Hone.
  { intros s1 s2 Hk x (u & d & Hu & Hrest). exists u, d. split; [|done].
    pose proof (tokens_permutation _ s2 (symmetry (Hk _ validator_script))) as Hp. rewrite Hu in Hp.
    by apply Permutation_singleton_r in Hp. }
  intros Hk x. split; [by apply Hone|]. apply Hone. intros a Ha. symmetry. by apply Hk.
Qed.

(** A transaction that spends the outputs with a token and pays one sets the value. *)
Lemma submitted_stored {A} (decode : Datum → result OffchainError A) datum x removed s s' id :
  (∀ v, v ∈ tokens unspent s → utxo_id_of v ∈ removed) → decode datum = Ok x →
  submitted (unspent:=unspent) removed (pays_token scripts datum) s s' id → stored decode unspent s' x.
Proof.
  intros Hall Hx Hsub. destruct (submitted_effect _ _ _ _ _ _ Hsub validator_script) as (outs & HQ & Heff).
  destruct (paid_token _ _ _ id HQ) as (u & Hf & Htok & Hd). exists u, datum. split; [|done].
  apply Permutation_singleton_r. rewrite <-(tokens_permutation _ _ (symmetry Heff)), Hf. unfold with_token.
  rewrite filter_app, filter_cons_True, filter_nil by done. rewrite filter_none; [done|].
  apply Forall_forall. intros v Hv Htv. apply list_elem_of_filter in Hv as [Hno Hv]. apply Hno, Hall.
  apply list_elem_of_filter. by split.
Qed.

Lemma update_token_maker redeemer datum script_utxo governance :
  maker (L:=L) (update_token_tx (sd_validator scripts) (sd_policy scripts) redeemer datum script_utxo governance)
    [utxo_id_of script_utxo] (pays_token scripts datum).
Proof.
  intros costs ctx s0 tx Hs0. unfold update_token_tx.
  destruct (get_builder_config ctx) as [config|]; simpl; [|done].
  destruct (get_one_spend costs) as [units|]; simpl; [|done].
  unfold add_script_utxo_input. destruct (value_to_csl _ _); simpl; [|done].
  destruct (add_output_with_one_script_token _ _ _ _ _) as [b|] eqn:Ho; simpl; [|done].
  destruct (with_governance governance costs b) as [b'|] eqn:Hg; simpl; [|done].
  apply with_governance_keeps in Hg as [Hi Hout]. intros Htx.
  exact (token_tx_makes scripts n Haddress Hnetwork _ ctx s0 _ b b' tx Hs0 Ho eq_refl Hi Hout Htx).
Qed.
End SettingLemmas.

(** ** The settings on the ledger *)

Inductive Setting :=
  | SetDParameter (d_parameter : DParameter)
  | SetPermissioned (candidates : list PermissionedCandidateData).

(** The value that an upsert compares with, and the one that is read after it. *)
Definition requested (st : Setting) : Setting :=
  match st with SetDParameter d => SetDParameter d | SetPermissioned cs => SetPermissioned (sort cs) end.
Definition read_back (st : Setting) : Setting :=
  match st with
  | SetDParameter d => SetDParameter d
  | SetPermissioned cs => SetPermissioned (sort (read_back_candidates (sort cs)))
  end.
Definition setting_datum (st : Setting) : Datum :=
  match st with
  | SetDParameter d => d_parameter_to_plutus_data d
  | SetPermissioned cs => permissioned_candidates_to_plutus_data (sort cs)
  end.

(** What the types of the values guarantee. *)
Definition setting_wf (st : Setting) : Prop :=
  match st with
  | SetDParameter d => in_u 16 (num_permissioned_candidates d) ∧ in_u 16 (num_registered_candidates d)
  | SetPermissioned cs => Forall (λ c, Forall (λ k, length (key_id k) = 4%nat) (permissioned_keys c)) cs
  end.

Section SettingSpec.
Context `{!Csl, !CslLaws, !Scripts} {L : Type} `{!Ogmios L} {unspent : L → list OgmiosUtxo} `{!OgmiosLaws L unspent}.
Context (generate_ed25519 : result OffchainError PrivateKey) (save_wallet_file : result OffchainError unit)
  (delay : Z) (retries : nat).
Implicit Types (s : L) (st : Setting).

Definition run_setting (genesis_utxo : UtxoId) st (payment_signing_key : PrivateKey) : Off L (option MultiSigSmartContractResult) :=
  match st with
  | SetDParameter d => upsert_d_param generate_ed25519 save_wallet_file delay retries genesis_utxo d payment_signing_key
  | SetPermissioned cs =>
      upsert_permissioned_candidates generate_ed25519 save_wallet_file delay retries genesis_utxo cs payment_signing_key
  end.
Definition setting_scripts (genesis_utxo : UtxoId) (n : Network) st : result OffchainError PlutusScriptData :=
  match st with
  | SetDParameter _ => d_parameter_scripts genesis_utxo n
  | SetPermissioned _ => permissioned_candidates_scripts genesis_utxo n
  end.

(** The ledger has the value. *)
Definition is_set (scripts : PlutusScriptData) (unspent : L → list OgmiosUtxo) s st : Prop :=
  match st with
  | SetDParameter d => stored scripts decode_d_parameter unspent s d
  | SetPermissioned cs => stored scripts decode_permissioned_candidates unspent s cs
  end.

(** Reading returns the value. *)
Definition reads (genesis_utxo : UtxoId) (n : Network) s st : Prop :=
  match st with
  | SetDParameter d => get_d_param genesis_utxo s = Ret (s, Ok (Some d))
  | SetPermissioned cs => get_permissioned_candidates genesis_utxo n s = Ret (s, Ok (Some cs))
  end.

Section Fixed.
Context (scripts : PlutusScriptData) (genesis : UtxoId) (n : Network) (Hnetwork : ∀ s n', shelley_network s = Ok n' → n' = n).

Lemma setting_address st :
  setting_scripts genesis n st = Ok scripts → sd_validator_address scripts = plutus_address (sd_validator scripts) n.
Proof.
  clear -st. destruct st; simpl; unfold d_parameter_scripts, permissioned_candidates_scripts;
    (destruct (version_oracle_scripts _ _); simpl; [|done]); (destruct (plutus_script _ _); simpl; [|done]);
    (destruct (address_to_data _); simpl; [|done]); (destruct (plutus_script _ _); simpl; [|done]); by intros [= <-].
Qed.

Lemma is_set_kept st st' s s' :
  setting_scripts genesis n st' = Ok scripts →
  scripts_kept (unspent:=unspent) s s' → is_set scripts unspent s' st ↔ is_set scripts unspent s st.
Proof. intros Ha%setting_address Hk. destruct st; by apply stored_kept with n. Qed.

Lemma is_set_reads st s utxos :
  setting_scripts genesis n st = Ok scripts → shelley_network s = Ok n →
  query_utxos (sd_validator_address scripts) s = Ok utxos → is_set scripts unspent s st → reads genesis n s st.
Proof.
  intros Hscripts Hn Hq Hset. destruct st as [d|cs]; simpl in *;
    destruct (stored_current scripts _ utxos s _ (query_utxos_Ok _ _ _ Hq) Hset) as [u Hu].
  - unfold get_d_param. rewrite (DS_bind_Ok _ _ s s n), (DS_bind_Ok _ _ s s scripts), (DS_bind_Ok _ _ s s utxos).
    + unfold get_current_d_parameter. by rewrite Hu.
    + unfold query. by rewrite Hq.
    + unfold ds_lift. by rewrite Hscripts.
    + unfold query. by rewrite Hn.
  - unfold get_permissioned_candidates. rewrite (DS_bind_Ok _ _ s s scripts), (DS_bind_Ok _ _ s s utxos).
    + unfold get_current_permissioned_candidates. by rewrite Hu.
    + unfold query. by rewrite Hq.
    + unfold ds_lift. by rewrite Hscripts.
Qed.

Lemma submitted_set st removed s s' id :
  setting_wf st → setting_scripts genesis n st = Ok scripts →
  (∀ v, v ∈ tokens scripts unspent s → utxo_id_of v ∈ removed) →
  submitted (unspent:=unspent) removed (pays_token scripts (setting_datum st)) s s' id →
  is_set scripts unspent s' (read_back st).
Proof.
  intros Hwf Ha%setting_address Hall Hsub. destruct st as [d|cs]; (eapply submitted_stored; [done|done| |exact Hsub]).
  - simpl. unfold decode_d_parameter. by rewrite decode_d_param by apply Hwf.
  - simpl. unfold decode_permissioned_candidates. rewrite decode_permissioned; [done|]. by rewrite sort_Permutation.
Qed.

(** What an upsert does: nothing, or a transaction that replaces the outputs with
    a token by one that has the value. *)
Lemma run_setting_spec st key s s' r :
  setting_scripts genesis n st = Ok scripts →
  run_setting genesis st key s = Ret (s', r) →
  (s' = s ∧ ∃ e, r = Err e) ∨ (s' = s ∧ r = Ok None ∧ is_set scripts unspent s (requested st)) ∨
  outcome_of (unspent:=unspent) (utxo_id_of <$> tokens scripts unspent s) (pays_token scripts (setting_datum st)) s s' r.
Proof.
  intros Hscripts. pose proof (setting_address st Hscripts) as Ha.
  destruct st as [d|cs]; simpl in *; unfold upsert_d_param, upsert_permissioned_candidates;
    (intros [Hr|(ctx & Hctx & _ & Hk)]%(context_start (unspent:=unspent) key n scripts); [by left| |done|done]).
  - apply query_utxos_start in Hk as [Hr|(utxos & Hutxos & Hk)]; [by left|].
    apply ds_lift_start in Hk as [Hr|(current & Hc & Hk)]; [by left|]. apply (get_current_spec (unspent:=unspent) _ _ _ s) in Hc; [|done].
    destruct current as [[u d']|].
    + destruct Hc as [Ht Hs0]. case_decide as Hd; [subst; injection Hk as <- <-; by eauto|]. right; right. rewrite Ht.
      eapply submit_await_spec; [done| |exact Hk]. intros governance. by apply update_token_maker with n.
    + right; right. rewrite Hc. eapply submit_await_spec; [done| |exact Hk]. intros governance. by apply mint_token_maker with n.
  - apply DS_bind_inv in Hk as [(s1 & governance & Hg & Hk)|(e & Hg & ->)]; apply governance_data_get_state in Hg as ->; [|by eauto].
    apply query_utxos_start in Hk as [Hr|(utxos & Hutxos & Hk)]; [by left|].
    apply ds_lift_start in Hk as [Hr|(current & Hc & Hk)]; [by left|]. apply (get_current_spec (unspent:=unspent) _ _ _ s) in Hc; [|done].
    destruct current as [[u cs']|].
    + destruct Hc as [Ht Hs0]. case_decide as Hd; [subst; injection Hk as <- <-; by eauto|]. right; right. rewrite Ht.
      eapply submit_outcome; [done| |exact Hk]. by apply update_token_maker with n.
    + right; right. rewrite Hc. eapply submit_outcome; [done| |exact Hk]. by apply mint_token_maker with n.
Qed.
End Fixed.
End SettingSpec.

(** ** The registrations on the ledger *)

Inductive RegistrationCommand :=
  | Register (candidate_registration : CandidateRegistration)
  | Deregister (stake_ownership_pub_key : bytes).

(** The registration that is read after the command. *)
Definition new_registration (c : RegistrationCommand) : option CandidateRegistration :=
  match c with
  | Register reg => Some (with_keys reg (normalised (reg_keys reg)))
  | Deregister _ => None
  end.
Definition command_wf (c : RegistrationCommand) : Prop :=
  match c with Register reg => registration_wf reg | Deregister _ => True end.

Section RegistrationSpec.
Context `{!Csl, !CslLaws, !Scripts} {L : Type} `{!Ogmios L} {unspent : L → list OgmiosUtxo} `{!OgmiosLaws L unspent}.
Context (delay : Z) (retries : nat).
Implicit Types (s : L) (ctx : TransactionContext) (c : RegistrationCommand).

Definition run_registration (genesis_utxo : UtxoId) c (payment_signing_key : PrivateKey) : Off L (option bytes) :=
  match c with
  | Register reg => run_register delay retries genesis_utxo reg payment_signing_key
  | Deregister spo_key => run_deregister delay retries genesis_utxo payment_signing_key spo_key
  end.

(** The registrations that are the command's own. *)
Definition own_keys c (payment_signing_key : PrivateKey) : bytes * bytes :=
  match c with
  | Register reg => (own_pkh reg, ada_pub_key (stake_ownership reg))
  | Deregister spo_key => (public_hash (to_public payment_signing_key), spo_key)
  end.
Definition is_own c key (r : CandidateRegistration) : Prop :=
  ada_pub_key (stake_ownership r) = (own_keys c key).2 ∧ own_pkh r = (own_keys c key).1.

Definition registration_of (u : OgmiosUtxo) (r : CandidateRegistration) : Prop := get_candidate_registration u = Ok r.
Definition registered (unspent : L → list OgmiosUtxo) (address : bytes) s (r : CandidateRegistration) : Prop :=
  has (unspent:=unspent) registration_of address s r.

Lemma elem_of_own_registrations c key utxos u r :
  (u, r) ∈ get_own_registrations (own_keys c key).1 (own_keys c key).2 utxos ↔
  u ∈ utxos ∧ registration_of u r ∧ is_own c key r.
Proof.
  unfold get_own_registrations, registration_of, is_own. rewrite elem_of_filter_map. split.
  - intros (v & Hv & Heq). destruct (get_candidate_registration v) as [r'|] eqn:Hr; [|done].
    case_decide; [|done]. by simplify_eq.
  - intros (Hu & Hr & Hown). exists u. rewrite Hr. split; [done|]. by rewrite decide_True.
Qed.

Lemma spend_registrations_inputs validator costs utxos : ∀ inputs inputs',
  spend_registrations validator costs utxos inputs = Ret (Ok inputs') →
  txi_id <$> inputs' = (txi_id <$> inputs) ++ (utxo_id_of <$> utxos).
Proof.
  induction utxos as [|u utxos IH]; simpl; intros inputs inputs'; [intros [= <-]; by rewrite app_nil_r|].
  destruct (get_one_spend costs) as [units|]; simpl; [|done]. unfold add_script_utxo_input.
  destruct (value_to_csl _ _); simpl; [|done]. intros Hs%IH. rewrite Hs, fmap_app. simpl. by rewrite <-app_assoc.
Qed.

Definition pays_registration (address : bytes) (reg : CandidateRegistration) (outs : list TxOutput) : Prop :=
  ∃ o, outs = [o] ∧ txo_address o = address ∧ txo_datum o = Some (candidate_registration_to_plutus_data reg).

(** The registration UTXO is one more output of the payment key that is spent. *)
Lemma register_tx_makes validator reg u own ctx costs tx :
  u ∈ payment_key_utxos ctx → register_tx validator reg u own ctx costs = Ret (Ok tx) →
  makes ctx (utxo_id_of <$> own) (pays_registration (plutus_address validator (network ctx)) reg) tx.
Proof.
  intros Hu. unfold register_tx. destruct (get_builder_config ctx) as [config|]; simpl; [|done].
  destruct (spend_registrations _ _ _ _) as [[ins|]|] eqn:Hsp; simpl; [|done|done].
  destruct (value_to_csl _ _); simpl; [|done]. unfold with_minimum_ada.
  destruct (calculate_ada _ _) as [ada|]; simpl; [|done]. intros [= Htx%balance_makes]. simpl in Htx.
  apply spend_registrations_inputs in Hsp. simpl in Hsp. rewrite fmap_app, Hsp in Htx.
  destruct Htx as (outs & extra & change & Houts & Hin & Hextra & Hrest).
  exists outs, (utxo_id_of u :: extra), change. split; [rewrite Houts; eexists; split; [reflexivity|done]|]. split; [by rewrite Hin, <-app_assoc|].
  split; [|done]. intros i [->|Hi]%elem_of_cons; [by apply list_elem_of_fmap_2|by apply Hextra].
Qed.

Lemma deregister_tx_makes validator own ctx costs tx :
  deregister_tx validator own ctx costs = Ret (Ok tx) → makes ctx (utxo_id_of <$> own) (λ outs, outs = []) tx.
Proof.
  unfold deregister_tx. destruct (get_builder_config ctx) as [config|]; simpl; [|done].
  destruct (spend_registrations _ _ _ _) as [[ins|]|] eqn:Hsp; simpl; [|done|done].
  intros [= Htx%balance_makes]. apply spend_registrations_inputs in Hsp. simpl in *. by rewrite Hsp in Htx.
Qed.

Definition registration_plan c (address : bytes) : list TxOutput → Prop :=
  match c with Register reg => pays_registration address reg | Deregister _ => λ outs, outs = [] end.

Lemma paid_registration c address outs id e :
  command_wf c → registration_plan c address outs →
  (∃ u, u ∈ filter (λ u, ou_address u = address) (imap (output_utxo id) outs) ∧ registration_of u e) ↔
  new_registration c = Some e.
Proof.
  destruct c as [reg|spo]; simpl; intros Hwf.
  - intros (o & -> & Haddr & Hd). simpl. rewrite filter_cons_True, filter_nil by done. setoid_rewrite list_elem_of_singleton.
    assert (registration_of (output_utxo id 0 o) (with_keys reg (normalised (reg_keys reg)))) as Ho.
    { unfold registration_of, get_candidate_registration. simpl. rewrite Hd. simpl.
      rewrite datum_bytes_roundtrip. simpl. by rewrite decode_registration. }
    split; [intros (u & -> & He); unfold registration_of in *; congruence|]. intros [= <-]. by eexists.
  - intros ->. split; [intros (u & Hu & _); by apply elem_of_nil in Hu|done].
Qed.

Section Fixed.
Context (validator : PlutusScript) (genesis : UtxoId) (n : Network) (Hnetwork : ∀ s n', shelley_network s = Ok n' → n' = n).
Context (Hvalidator : registered_candidates_scripts genesis = Ok validator).
Abbreviation address := (plutus_address validator n).

(** The command decides on the own registrations and then submits. *)
Definition submits c s own (make_tx : TransactionContext → Costs → outcome (result OffchainError Tx)) s' r : Prop :=
  ∃ ctx failure, context_ok (unspent:=unspent) s ctx ∧ network ctx = n ∧
    (tx_id ← sign_submit_await delay retries failure ctx (make_tx ctx); mret (Some tx_id)) s = Ret (s', r) ∧
    match c with
    | Register reg => ∃ u, u ∈ payment_key_utxos ctx ∧ make_tx = register_tx validator reg u own
    | Deregister _ => make_tx = deregister_tx validator own
    end.

Lemma registration_start c key s s' r :
  run_registration genesis c key s = Ret (s', r) →
  (s' = s ∧ ∃ e, r = Err e) ∨
  ∃ utxos, utxos ≡ₚ at_address (unspent:=unspent) address s ∧
    let own := get_own_registrations (own_keys c key).1 (own_keys c key).2 utxos in
    (s' = s ∧ r = Ok None ∧
     match c with Register reg => ∃ o, o ∈ own ∧ matches_keys reg o.2 = true | Deregister _ => own = [] end) ∨
    ∃ make_tx, submits c s own.*1 make_tx s' r.
Proof.
  destruct c as [reg|spo]; simpl; unfold run_register, run_deregister;
    (intros [Hr|(ctx & Hctx & Hn & Hk)]%(context_start (unspent:=unspent) key n validator (λ _, registered_candidates_scripts genesis));
     [by left| |done|done]).
  - apply ds_lift_start in Hk as [Hr|(u & Hu & Hk)]; [by left|]. rewrite Hn in Hk.
    apply query_utxos_start in Hk as [Hr|(utxos & Hutxos & Hk)]; [by left|]. right. exists utxos. split; [done|].
    destruct (existsb _ _) eqn:He.
    + left. injection Hk as <- <-. split_and!; [done|done|]. apply existsb_exists in He as (o & Ho & Hm). exists o.
      by rewrite list_elem_of_In.
    + right. eexists. exists ctx. eexists. split_and!; [done|done|exact Hk|]. exists u. split; [|done].
      destruct (filter _ _) as [|u' l] eqn:Hf; simpl in Hu; [done|]. injection Hu as ->.
      assert (u ∈ u :: l) as Hin by (by left). rewrite <-Hf in Hin. by apply list_elem_of_filter in Hin as [_ Hin].
  - rewrite Hn in Hk. apply query_utxos_start in Hk as [Hr|(utxos & Hutxos & Hk)]; [by left|]. right. exists utxos. split; [done|].
    destruct (get_own_registrations _ _ utxos) as [|o own] eqn:Ho; simpl in Hk.
    + left. by injection Hk as <- <-.
    + right. eexists. exists ctx. eexists. split_and!; [done|done|exact Hk|done].
Qed.

Lemma submits_makes c s own make_tx s' r :
  submits c s own make_tx s' r →
  match r with
  | Ok None => False
  | Ok (Some id) => submitted (unspent:=unspent) (utxo_id_of <$> own) (registration_plan c address) s s' id
  | Err _ => scripts_kept (unspent:=unspent) s s' ∨
             ∃ id, submitted (unspent:=unspent) (utxo_id_of <$> own) (registration_plan c address) s s' id
  end.
Proof.
  intros (ctx & failure & Hctx & Hn & Hrun & Hmake).
  assert (∀ costs tx, make_tx ctx costs = Ret (Ok tx) → makes ctx (utxo_id_of <$> own) (registration_plan c address) tx) as Hm.
  { intros costs tx. destruct c as [reg|spo]; [destruct Hmake as (u & Hu & ->)|subst].
    - rewrite <-Hn. by apply register_tx_makes.
    - apply deregister_tx_makes. }
  apply DS_bind_inv in Hrun as [(s1 & id & Hs & [= <- <-])|(e & Hs & ->)]; by eapply sign_submit_spec in Hs.
Qed.

Lemma own_outputs c key utxos s u r :
  utxos ≡ₚ at_address (unspent:=unspent) address s → u ∈ at_address (unspent:=unspent) address s → registration_of u r →
  utxo_id_of u ∈ utxo_id_of <$> (get_own_registrations (own_keys c key).1 (own_keys c key).2 utxos).*1 ↔ is_own c key r.
Proof.
  intros Hutxos Hu Hr. split.
  - intros (v & Hid & Hv)%list_elem_of_fmap. apply list_elem_of_fmap in Hv as ([v' r'] & -> & Hv). simpl in *.
    apply elem_of_own_registrations in Hv as (Hv & Hr' & Hown). rewrite Hutxos in Hv.
    apply list_elem_of_filter in Hu as [_ Hu], Hv as [_ Hv]. rewrite (unspent_same_id s u v') in Hr by done.
    unfold registration_of in *. congruence.
  - intros Hown. apply list_elem_of_fmap. exists u. split; [done|]. apply list_elem_of_fmap. exists (u, r). split; [done|].
    apply elem_of_own_registrations. by rewrite Hutxos.
Qed.

(** The own registrations were replaced. *)
Definition replaced (unspent : L → list OgmiosUtxo) c key s s' : Prop :=
  ∀ r, registered unspent address s' r ↔ new_registration c = Some r ∨ (registered unspent address s r ∧ ¬ is_own c key r).

Lemma submitted_replaced c key utxos s s' id :
  command_wf c → utxos ≡ₚ at_address (unspent:=unspent) address s →
  submitted (unspent:=unspent) (utxo_id_of <$> (get_own_registrations (own_keys c key).1 (own_keys c key).2 utxos).*1)
    (registration_plan c address) s s' id →
  replaced unspent c key s s'.
Proof.
  intros Hwf Hutxos Hsub r. eapply submitted_entries; [by eexists _, _| | |exact Hsub].
  - intros u e Hu He. by eapply own_outputs.
  - intros outs HQ e. by apply paid_registration.
Qed.
(** A command that succeeds found what it would have made, or made it. *)
Definition succeeded (unspent : L → list OgmiosUtxo) c key s s' (id : option bytes) : Prop :=
  match id with
  | None =>
      s' = s ∧
      match c with
      | Register reg => ∃ own, registered unspent address s own ∧ is_own c key own ∧ matches_keys reg own = true
      | Deregister _ => ∀ own, registered unspent address s own → ¬ is_own c key own
      end
  | Some _ => replaced unspent c key s s'
  end.
Lemma run_registration_ok c key s s' id :
  command_wf c → run_registration genesis c key s = Ret (s', Ok id) → succeeded unspent c key s s' id.
Proof.
  intros Hwf Hrun.
  destruct (registration_start c key s s' (Ok id) Hrun)
    as [(_ & e & [=])|(utxos & Hutxos & [(-> & [= ->] & Hc)|[make_tx Hsub]])].
  - split; [done|]. destruct c as [reg|spo].
    + destruct Hc as ([u own] & Ho & Hm). apply elem_of_own_registrations in Ho as (Hu & Hr & Hown). exists own.
      split_and!; [|done|done]. exists u. by rewrite <-Hutxos.
    + intros own (u & Hu & Hr) Hown. apply (elem_of_nil (u, own)). rewrite <-Hc.
      apply elem_of_own_registrations. by rewrite Hutxos.
  - apply submits_makes in Hsub. destruct id as [id|]; [|done]. by eapply submitted_replaced.
Qed.
End Fixed.
End RegistrationSpec.

(** ** Several registrations of one candidate *)

Section Stuck.
Context `{!Csl, !CslLaws, !Scripts} {L : Type} `{!Ogmios L} {unspent : L → list OgmiosUtxo} `{!OgmiosLaws L unspent}.
Implicit Types (s : L) (ctx : TransactionContext).

(** The node prices every input from the address of a script, by its position. *)
Definition prices_spends (unspent : L → list OgmiosUtxo) : Prop :=
  ∀ tx s rs i u, evaluate_transaction tx s = Ok rs → inputs (body tx) !! i = Some (utxo_id_of u) → u ∈ unspent s →
    is_script_address (ou_address u) → ∃ er, er ∈ rs ∧ er_purpose er = "spend"%string ∧ er_index er = Z.of_nat i.

Lemma foldl_add_cost_panic tx rs : foldl (add_cost tx) Panic rs = Panic.
Proof. by induction rs. Qed.

Lemma add_cost_spends tx rs : ∀ m sp m' sp' k,
  foldl (add_cost tx) (Ret (m, sp)) rs = Ret (m', sp') →
  is_Some (sp !! k) ∨ (∃ er, er ∈ rs ∧ er_purpose er = "spend"%string ∧ er_index er = k) → is_Some (sp' !! k).
Proof.
  induction rs as [|er rs IH]; simpl; intros m sp m' sp' k.
  { intros [= <- <-] [Hk|(er & Her & _)]; [done|]. by apply elem_of_nil in Her. }
  destruct (decide (er_purpose er = "mint"%string)) as [Hm|Hm].
  { destruct (expect _) as [p|]; simpl; [|by rewrite foldl_add_cost_panic].
    intros Hf [Hk|(er' & [->|Her]%elem_of_cons & Hp & Hi)]; [eapply IH; eauto|congruence|eapply IH; eauto]. }
  destruct (decide (er_purpose er = "spend"%string)) as [Hs|Hs]; simpl.
  - intros Hf Hk. eapply IH; [exact Hf|]. rewrite lookup_insert_is_Some.
    destruct Hk as [Hk|(er' & [->|Her]%elem_of_cons & Hp & Hi)]; [|by left; left|right; eauto].
    destruct (decide (er_index er = k)); [by left; left|left; by right].
  - intros Hf [Hk|(er' & [->|Her]%elem_of_cons & Hp & Hi)]; [eapply IH; eauto|congruence|eapply IH; eauto].
Qed.

Lemma get_one_spend_panics m sp k1 k2 :
  k1 ≠ k2 → is_Some (sp !! k1) → is_Some (sp !! k2) → get_one_spend (CostsOf m sp) = Panic.
Proof.
  intros Hne Hk1 Hk2. simpl. destruct (map_to_list sp) as [|[k x] [|]] eqn:Hl; [done| |done]. exfalso.
  assert (∀ k', is_Some (sp !! k') → k' = k) as Hk.
  { intros k' [y Hy]. apply elem_of_map_to_list in Hy. rewrite Hl in Hy. apply list_elem_of_singleton in Hy. by simplify_eq. }
  apply Hne. by rewrite (Hk k1), (Hk k2).
Qed.

Lemma spend_registrations_panics validator costs utxos inputs :
  get_one_spend costs = Panic → utxos ≠ [] → spend_registrations validator costs utxos inputs = Panic.
Proof. destruct utxos as [|u utxos]; [done|]. simpl. by intros ->. Qed.

(** Pricing a transaction submits nothing. *)
Lemma calculate_costs_state make_tx s s' r : calculate_costs make_tx s = Ret (s', r) → s' = s.
Proof.
  assert (∀ costs s s' r, made make_tx costs s = Ret (s', r) → s' = s) as Hmade.
  { intros costs s0 s0' r0. unfold made. destruct (make_tx costs); [|done]. by intros [= ->]. }
  assert (∀ tx s s' r, from_ogmios tx s = Ret (s', r) → s' = s) as Hfrom.
  { intros tx s0 s0' r0. unfold from_ogmios. destruct (evaluate_transaction tx s0); [|by intros [= ->]].
    destruct (foldl _ _ _) as [[]|]; [|done]. by intros [= ->]. }
  unfold calculate_costs. intros [(s1 & tx & ->%Hmade & Hrun)|(e & ->%Hmade & _)]%DS_bind_inv; [|done].
  apply DS_bind_inv in Hrun as [(s1 & costs & ->%Hfrom & Hrun)|(e & ->%Hfrom & _)]; [|done].
  apply DS_bind_inv in Hrun as [(s1 & tx' & ->%Hmade & Hrun)|(e & ->%Hmade & _)]; [|done].
  apply DS_bind_inv in Hrun as [(s1 & costs' & ->%Hfrom & Hrun)|(e & ->%Hfrom & _)]; [|done].
  by apply Hmade in Hrun.
Qed.

(** A transaction that is built from prices and spends two outputs of scripts
    cannot be built if it asks for the price of the one spend. *)
Section Pricing.
Context (make_tx : Costs → outcome (result OffchainError Tx)) (removed : list UtxoId) (Q : list TxOutput → Prop).
Context (ctx : TransactionContext) (u1 u2 : OgmiosUtxo) (s : L).
Context (Hprices : prices_spends unspent) (Hne : u1 ≠ u2) (Hu1 : u1 ∈ unspent s) (Hu2 : u2 ∈ unspent s)
  (Hs1 : is_script_address (ou_address u1)) (Hs2 : is_script_address (ou_address u2))
  (Hr1 : utxo_id_of u1 ∈ removed) (Hr2 : utxo_id_of u2 ∈ removed)
  (Hmakes : ∀ costs tx, make_tx costs = Ret (Ok tx) → makes ctx removed Q tx).

Lemma two_spends_priced tx0 rs m sp :
  make_tx ZeroCosts = Ret (Ok tx0) → evaluate_transaction tx0 s = Ok rs →
  foldl (add_cost tx0) (Ret (∅, ∅)) rs = Ret (m, sp) → get_one_spend (CostsOf m sp) = Panic.
Proof.
  intros (outs & extra & change & _ & Hin & _)%Hmakes Hev Hf.
  assert (∀ u, u ∈ unspent s → is_script_address (ou_address u) → utxo_id_of u ∈ removed →
    ∃ i, inputs (body tx0) !! i = Some (utxo_id_of u) ∧ is_Some (sp !! Z.of_nat i)) as Hprice.
  { intros u Hu Ha Hr. assert (utxo_id_of u ∈ inputs (body tx0)) as Hi by (rewrite Hin; apply elem_of_app; by left).
    apply list_elem_of_lookup in Hi as [i Hi]. exists i. split; [done|]. eapply add_cost_spends; [exact Hf|]. right. by eapply Hprices. }
  destruct (Hprice u1) as (i1 & Hi1 & Hk1), (Hprice u2) as (i2 & Hi2 & Hk2); [done..|].
  eapply get_one_spend_panics; [|exact Hk1|exact Hk2]. intros Heq%Nat2Z.inj. subst.
  apply Hne. apply (unspent_same_id s); [done..|]. congruence.
Qed.

Lemma calculate_costs_stuck s' tx :
  (∀ costs, get_one_spend costs = Panic → make_tx costs = Panic ∨ ∃ e, make_tx costs = Ret (Err e)) →
  calculate_costs make_tx s ≠ Ret (s', Ok tx).
Proof.
  intros Hpanic Hrun. unfold calculate_costs in Hrun.
  apply DS_bind_inv in Hrun as [(s1 & tx0 & Hm & Hrun)|(e & _ & [=])]. unfold made in Hm.
  destruct (make_tx ZeroCosts) as [r|] eqn:Hz; simpl in Hm; [|done]. injection Hm as <- ->.
  apply DS_bind_inv in Hrun as [(s1 & costs & Hc & Hrun)|(e & _ & [=])]. unfold from_ogmios in Hc.
  destruct (evaluate_transaction tx0 s) as [rs|] eqn:Hev; [|done].
  destruct (foldl _ _ rs) as [[m sp]|] eqn:Hf; simpl in Hc; [|done]. injection Hc as <- <-.
  apply DS_bind_inv in Hrun as [(s1 & tx1 & Hm & _)|(e & _ & [=])]. unfold made in Hm.
  destruct (Hpanic (CostsOf m sp)) as [Hp|[e Hp]]; [by eapply two_spends_priced|by rewrite Hp in Hm..].
Qed.

Lemma calculate_costs_panics tx0 rs :
  make_tx ZeroCosts = Ret (Ok tx0) → evaluate_transaction tx0 s = Ok rs →
  (∀ costs, get_one_spend costs = Panic → make_tx costs = Panic) →
  calculate_costs make_tx s = Panic.
Proof.
  intros Hz Hev Hpanic. unfold calculate_costs. rewrite (DS_bind_Ok _ _ s s tx0) by (unfold made; by rewrite Hz).
  destruct (foldl (add_cost tx0) (Ret (∅, ∅)) rs) as [[m sp]|] eqn:Hf.
  - rewrite (DS_bind_Ok _ _ s s (CostsOf m sp)) by (unfold from_ogmios; by rewrite Hev, Hf).
    apply DS_bind_Panic. unfold made. rewrite Hpanic; [done|]. by eapply two_spends_priced.
  - apply DS_bind_Panic. unfold from_ogmios. by rewrite Hev, Hf.
Qed.
End Pricing.
End Stuck.

(** ** Theorems *)

(** C31. Setting the D-parameter or the permissioned candidates sets them.  An
    upsert that returns without a transaction found the requested value; one that
    submitted its transaction leaves one output with the token of the policy,
    whose datum reads as the value (the candidates sorted, with the keys the
    datum's schema keeps), and reading returns it; one whose transaction waits for
    signatures changed nothing, and submitting the signed transaction sets the
    value; and one that failed left the value as it was or, when only the wait for
    confirmation failed, set it. *)
Theorem setting_commands {CS : Csl} {CL : CslLaws} {SC : Scripts} {L : Type} {OG : Ogmios L}
    (unspent : L → list OgmiosUtxo) {OL : OgmiosLaws L unspent} generate_ed25519 save_wallet_file delay retries
    genesis (st : Setting) payment_signing_key (s s' : L) r n scripts :
  shelley_network s = Ok n → setting_scripts genesis n st = Ok scripts → setting_wf st →
  run_setting generate_ed25519 save_wallet_file delay retries genesis st payment_signing_key s = Ret (s', r) →
  (match r with
   | Ok None => s' = s ∧ is_set scripts unspent s (requested st)
   | Ok (Some (TransactionSubmitted id)) => is_set scripts unspent s' (read_back st)
   | Ok (Some (TransactionToSign data)) =>
       (∀ x, is_set scripts unspent s' x ↔ is_set scripts unspent s x) ∧
       ∀ tx s'' id, body tx = body (ms_tx data) → submit_transaction tx s' = (s'', Ok id) →
         is_set scripts unspent s'' (read_back st)
   | Err _ => (∀ x, is_set scripts unspent s' x ↔ is_set scripts unspent s x) ∨ is_set scripts unspent s' (read_back st)
   end) ∧
  (∀ s0 utxos, shelley_network s0 = Ok n → query_utxos (sd_validator_address scripts) s0 = Ok utxos →
     is_set scripts unspent s0 (read_back st) → reads genesis n s0 (read_back st)).
Proof.
  intros Hn Hscripts Hwf Hrun.
  assert (∀ s0 n', shelley_network s0 = Ok n' → n' = n) as Hnet by (intros s0 n' Hs0; by eapply one_network).
  split; [|intros s0 utxos Hs0 Hq; eapply is_set_reads; [by destruct st|done|done]].
  pose proof (submitted_set (unspent:=unspent) scripts genesis n st) as Hset.
  assert (∀ s1 s2, scripts_kept (unspent:=unspent) s1 s2 → ∀ x, is_set scripts unspent s2 x ↔ is_set scripts unspent s1 x) as Hkeep
    by (intros s1 s2 Hk x; by eapply is_set_kept).
  assert (∀ v, v ∈ tokens scripts unspent s → utxo_id_of v ∈ utxo_id_of <$> tokens scripts unspent s) as Hall
    by (intros v; apply list_elem_of_fmap_2).
  destruct (run_setting_spec (unspent:=unspent) _ _ _ _ scripts genesis n Hnet st _ s s' r Hscripts Hrun)
    as [(-> & e & ->)|[(-> & -> & Hv)|Hout]]; [by left|done|].
  destruct r as [[[id|data]|]|e]; simpl in Hout.
  - by eapply Hset.
  - destruct Hout as [Hk Hsub]. split; [by apply Hkeep|]. intros tx s'' id Hb Hs.
    eapply (Hset _ s' s'' id); [done|done| |by eapply Hsub]. intros v Hv. apply Hall.
    by rewrite <-(tokens_permutation scripts _ s (Hk _ (validator_script scripts n (setting_address _ _ _ _ Hscripts)))).
  - done.
  - destruct Hout as [Hk|[id Hsub]]; [left; by apply Hkeep|right; by eapply Hset].
Qed.

(** C32. Registering and deregistering act on the candidate's own registrations,
    those with its stake pool key and its payment key, and on nothing else.  A
    command that returns without a transaction found a registration with the same
    keys, or none to remove; one that submitted its transaction left the new
    registration (none, if deregistering) as the only own registration; and one
    that failed left the registrations as they were or, when only the wait for
    confirmation failed, replaced them. *)
Theorem registration_commands {CS : Csl} {CL : CslLaws} {SC : Scripts} {L : Type} {OG : Ogmios L}
    (unspent : L → list OgmiosUtxo) {OL : OgmiosLaws L unspent} delay retries
    genesis (c : RegistrationCommand) payment_signing_key (s s' : L) r n validator :
  shelley_network s = Ok n → registered_candidates_scripts genesis = Ok validator → command_wf c →
  run_registration delay retries genesis c payment_signing_key s = Ret (s', r) →
  match r with
  | Ok None =>
      s' = s ∧
      match c with
      | Register reg => ∃ own, registered unspent (plutus_address validator n) s own ∧
                          is_own c payment_signing_key own ∧ matches_keys reg own = true
      | Deregister _ => ∀ own, registered unspent (plutus_address validator n) s own → ¬ is_own c payment_signing_key own
      end
  | Ok (Some id) => replaced validator n unspent c payment_signing_key s s'
  | Err _ =>
      (∀ x, registered unspent (plutus_address validator n) s' x ↔ registered unspent (plutus_address validator n) s x) ∨
      replaced validator n unspent c payment_signing_key s s'
  end.
Proof.
  intros Hn Hval Hwf Hrun.
  assert (∀ s0 n', shelley_network s0 = Ok n' → n' = n) as Hnet by (intros s0 n' Hs0; by eapply one_network).
  destruct r as [id|e].
  { pose proof (run_registration_ok (unspent:=unspent) _ _ validator genesis n Hnet Hval c _ s s' id Hwf Hrun). by destruct id. }
  destruct (registration_start (unspent:=unspent) _ _ validator genesis n Hnet Hval c _ s s' _ Hrun)
    as [(-> & e' & _)|(utxos & Hutxos & [(_ & [=] & _)|[make_tx Hsub]])]; [by left|].
  apply submits_makes in Hsub as [Hk|[id Hsub]]; [left|right; by eapply submitted_replaced|exact Hnet].
  apply has_kept; [by eexists _, _|done].
Qed.

(** C33. A candidate with two registrations cannot get rid of them.  Whenever the command to
    register or to deregister returns, the ledger is as it was: it failed before
    it submitted anything, or, registering, found that the registration is there
    already.  If the node answers its queries and evaluates the transaction that spends
    the registrations, the command panics: the node prices both inputs, and building
    the transaction asks for the price of the only spend. *)
Theorem several_registrations_stuck {CS : Csl} {CL : CslLaws} {SC : Scripts} {L : Type} {OG : Ogmios L}
    (unspent : L → list OgmiosUtxo) {OL : OgmiosLaws L unspent} delay retries
    genesis (c : RegistrationCommand) payment_signing_key (s : L) n validator u1 u2 r1 r2 :
  prices_spends unspent → shelley_network s = Ok n → registered_candidates_scripts genesis = Ok validator →
  u1 ≠ u2 →
  (∀ u r, (u, r) ∈ [(u1, r1); (u2, r2)] →
     u ∈ at_address (unspent:=unspent) (plutus_address validator n) s ∧ get_candidate_registration u = Ok r ∧
     is_own c payment_signing_key r) →
  (∀ s' r, run_registration delay retries genesis c payment_signing_key s = Ret (s', r) →
     s' = s ∧
     match r with
     | Ok (Some id) => False
     | Ok None => ∃ reg own, c = Register reg ∧ registered unspent (plutus_address validator n) s own ∧
         is_own c payment_signing_key own ∧ matches_keys reg own = true
     | Err _ => True
     end) ∧
  (∀ ctx utxos make_tx tx rs,
     for_payment_key payment_signing_key s = Ret (s, Ok ctx) →
     query_utxos (plutus_address validator n) s = Ok utxos →
     let own := get_own_registrations (own_keys c payment_signing_key).1 (own_keys c payment_signing_key).2 utxos in
     match c with
     | Register reg => ∃ u, head (filter (λ u, utxo_id_of u = reg_utxo reg) (payment_key_utxos ctx)) = Some u ∧
         existsb (λ r, matches_keys reg r.2) own = false ∧ make_tx = register_tx validator reg u own.*1 ctx
     | Deregister _ => make_tx = deregister_tx validator own.*1 ctx
     end →
     make_tx ZeroCosts = Ret (Ok tx) → evaluate_transaction tx s = Ok rs →
     run_registration delay retries genesis c payment_signing_key s = Panic).
Proof.
  intros Hprices Hn Hval Hne Hown.
  assert (∀ s0 n', shelley_network s0 = Ok n' → n' = n) as Hnet by (intros s0 n' Hs0; by eapply one_network).
  destruct (Hown u1 r1) as (Hu1 & Hr1 & Ho1), (Hown u2 r2) as (Hu2 & Hr2 & Ho2); [set_solver..|].
  assert (∀ utxos, utxos ≡ₚ at_address (unspent:=unspent) (plutus_address validator n) s →
    let own := (get_own_registrations (own_keys c payment_signing_key).1 (own_keys c payment_signing_key).2 utxos).*1 in
    utxo_id_of u1 ∈ utxo_id_of <$> own ∧ utxo_id_of u2 ∈ utxo_id_of <$> own ∧ own ≠ []) as Hin.
  { intros utxos Hutxos own.
    assert (∀ u r, u ∈ at_address (unspent:=unspent) (plutus_address validator n) s → get_candidate_registration u = Ok r →
      is_own c payment_signing_key r → u ∈ own) as Hin.
    { intros u r Hu Hr Ho. apply list_elem_of_fmap. exists (u, r). split; [done|]. apply elem_of_own_registrations. by rewrite Hutxos. }
    pose proof (Hin u1 r1 Hu1 Hr1 Ho1) as Hin1. pose proof (Hin u2 r2 Hu2 Hr2 Ho2) as Hin2.
    split_and!; [by apply list_elem_of_fmap_2..|]. intros Heq. rewrite Heq in Hin1. by apply elem_of_nil in Hin1. }
  apply list_elem_of_filter in Hu1 as [Ha1 Hu1], Hu2 as [Ha2 Hu2].
  assert (is_script_address (ou_address u1)) as Hs1 by (rewrite Ha1; by eexists _, _).
  assert (is_script_address (ou_address u2)) as Hs2 by (rewrite Ha2; by eexists _, _).
  split.
  - intros s' r Hrun. destruct (registration_start (unspent:=unspent) _ _ validator genesis n Hnet Hval c _ s s' _ Hrun)
      as [(-> & e & ->)|(utxos & Hutxos & [(-> & -> & Hc)|(make_tx & ctx & failure & Hctx & Hnet' & Hk & Hmake)])]; [done|..].
    + destruct (Hin utxos Hutxos) as (_ & _ & Hnil). split; [done|]. destruct c as [reg|spo]; [|by rewrite Hc in Hnil].
      destruct Hc as ([u own] & (Hu & Hr & Ho)%elem_of_own_registrations & Hm). exists reg, own. split_and!; try done.
      exists u. by rewrite <-Hutxos.
    + destruct (Hin utxos Hutxos) as (Hin1 & Hin2 & Hnil).
      set (own := (get_own_registrations _ _ utxos).*1) in *.
      assert (∀ s2 tx, calculate_costs (make_tx ctx) s ≠ Ret (s2, Ok tx)) as Hstuck.
      { intros s2 tx. eapply (calculate_costs_stuck _ (utxo_id_of <$> own) (registration_plan c (plutus_address validator n)) ctx u1 u2); try done.
        - intros costs tx'. destruct c as [reg|spo]; [destruct Hmake as (u & Hu & ->)|subst make_tx].
          + rewrite <-Hnet'. by apply register_tx_makes.
          + apply deregister_tx_makes.
        - intros costs Hp. destruct c as [reg|spo]; [destruct Hmake as (u & Hu & ->)|subst make_tx];
            unfold register_tx, deregister_tx; (destruct (get_builder_config ctx); simpl; [left|by eauto]);
            by rewrite spend_registrations_panics. }
      unfold sign_submit_await in Hk.
      apply DS_bind_inv in Hk as [(s1 & id' & Hk & _)|(e & Hk & ->)];
        (apply DS_bind_inv in Hk as [(s2 & tx & Hk & _)|(e' & Hk & He)]; [by apply Hstuck in Hk|]); [done|].
      split; [|done]. by eapply calculate_costs_state.
  - intros ctx utxos make_tx tx rs Hctx Hutxos own Hmake Hz Hev.
    destruct (Hin utxos (query_utxos_Ok _ _ _ Hutxos)) as (Hin1 & Hin2 & Hnil). fold own in Hin1, Hin2, Hnil.
    assert (network ctx = n) as Hnetwork.
    { revert Hctx. unfold for_payment_key, query. rewrite (DS_bind_Ok _ _ s s n) by (by rewrite Hn).
      intros [(s1 & pp & _ & Hk)|(e & _ & [=])]%DS_bind_inv. apply DS_bind_inv in Hk as [(s2 & us & _ & [= _ <-])|(e & _ & [=])]. done. }
    assert (calculate_costs make_tx s = Panic) as Hpanic.
    { eapply (calculate_costs_panics _ (utxo_id_of <$> own.*1) (registration_plan c (plutus_address validator n)) ctx u1 u2); try done.
      - intros costs tx'. destruct c as [reg|spo]; [destruct Hmake as (u & Hu & _ & ->)|subst make_tx].
        + rewrite <-Hnetwork. apply register_tx_makes. destruct (filter _ _) as [|u' l] eqn:Hf; simpl in Hu; [done|]. injection Hu as ->.
          assert (u ∈ u :: l) as Hinu by (by left). rewrite <-Hf in Hinu. by apply list_elem_of_filter in Hinu as [_ Hinu].
        + apply deregister_tx_makes.
      - intros costs Hp. destruct c as [reg|spo]; [destruct Hmake as (u & Hu & _ & ->)|subst make_tx];
          unfold register_tx, deregister_tx in *; (destruct (get_builder_config ctx); simpl in *; [|done]);
          by rewrite spend_registrations_panics. }
    assert (∀ failure, sign_submit_await (L:=L) delay retries failure ctx make_tx s = Panic) as Hsign.
    { intros failure. by apply DS_bind_Panic. }
    destruct c as [reg|spo]; simpl; unfold run_register, run_deregister;
      rewrite (DS_bind_Ok _ _ s s ctx) by done; rewrite (DS_bind_Ok _ _ s s validator) by (by rewrite Hval).
    + destruct Hmake as (u & Hu & Hm & ->). rewrite (DS_bind_Ok _ _ s s u) by (unfold ds_lift; by rewrite Hu).
      rewrite Hnetwork, (DS_bind_Ok _ _ s s utxos) by (unfold query; by rewrite Hutxos).
      fold own. simpl in own. fold own. rewrite Hm. by apply DS_bind_Panic.
    + subst make_tx. rewrite Hnetwork, (DS_bind_Ok _ _ s s utxos) by (unfold query; by rewrite Hutxos).
      simpl in own. fold own. destruct own as [|o own'] eqn:Ho; [done|]. simpl. by apply DS_bind_Panic.
Qed.

(** ** Examples and witnesses *)

#[local] Existing Instances example_csl example_csl_laws example_scripts example_ogmios example_ogmios_laws.

Definition example_setting (st : Setting) (s : Ledger) : outcome (Ledger * result OffchainError (option MultiSigSmartContractResult)) :=
  run_setting (Ok 9) (Ok tt) 1 0 example_genesis st 7 s.
Definition example_d_param_scripts : PlutusScriptData :=
  mkScriptData (mkPlutusScript [3; 0; 0] PlutusV2) (plutus_address (mkPlutusScript [3; 0; 0] PlutusV2) Testnet)
    (mkPlutusScript [2; 0; 0; 0] PlutusV2).

(** A first D-parameter, submitted by the only authority and read back. *)
Lemma setting_commands_witness :
  ∃ s', is_set example_d_param_scripts ledger_utxos s' (SetDParameter (mkDParameter 3 2)) ∧
    get_d_param example_genesis s' = Ret (s', Ok (Some (mkDParameter 3 2))).
Proof.
  destruct (example_setting (SetDParameter (mkDParameter 3 2)) example_ledger) as [[s' r]|] eqn:Hrun;
    [|exfalso; revert Hrun; vm_compute; discriminate].
  assert (∃ id, r = Ok (Some (TransactionSubmitted id))) as [id ->].
  { assert (match example_setting (SetDParameter (mkDParameter 3 2)) example_ledger with
            | Ret (_, Ok (Some (TransactionSubmitted _))) => true | _ => false end = true) as Hok
      by (vm_compute; reflexivity).
    rewrite Hrun in Hok. destruct r as [[[id|]|]|]; [exists id; reflexivity|discriminate Hok..]. }
  destruct (setting_commands (CS:=example_csl) (SC:=example_scripts) (OG:=example_ogmios) ledger_utxos
    (Ok 9) (Ok tt) 1 0 example_genesis (SetDParameter (mkDParameter 3 2)) 7
    example_ledger s' (Ok (Some (TransactionSubmitted id))) Testnet example_d_param_scripts
    ltac:(reflexivity) ltac:(vm_compute; reflexivity) ltac:(split; split; done) Hrun) as [Hset Hread].
  exists s'. split; [exact Hset|]. eapply Hread; [reflexivity|reflexivity|exact Hset].
Defined.

(** A list with a candidate whose GRANDPA key comes first is never found to be
    set: every upsert of it submits another transaction. *)
Example upsert_never_settles :
  let st := SetPermissioned [mkPermissionedCandidateData [1] [grandpa_key [2]; aura_key [3]]] in
  match example_setting st example_ledger with
  | Ret (s1, Ok (Some (TransactionSubmitted _))) =>
      match example_setting st s1 with Ret (_, Ok (Some (TransactionSubmitted _))) => true | _ => false end
  | _ => false
  end = true.
Proof. vm_compute. reflexivity. Qed.

(** A registration, one for the same candidate with another key, and a third one. *)
Definition example_candidate (key : Z) : CandidateRegistration :=
  mkCandidateRegistration (mkAdaBasedStaking (replicate 32 1) (replicate 64 2)) [3] [4] (replicate 28 5)
    (mkUtxoId (replicate 32 6) 7) [aura_key [key]; grandpa_key [9]].
Definition registration_utxo (i key : Z) : OgmiosUtxo :=
  mkOgmiosUtxo [3] i (plutus_address (mkPlutusScript [1; 0] PlutusV2) Testnet) 1 ∅
    (Some (example_to_bytes (candidate_registration_to_plutus_data (example_candidate key)))) None.
Definition consumed_utxo : OgmiosUtxo := mkOgmiosUtxo (replicate 32 6) 7 [107; 0; 7] 100 ∅ None None.

Program Definition registered_once : Ledger := exist _ [consumed_utxo; payment_utxo; registration_utxo 0 1] _.
Next Obligation. by apply (bool_decide_unpack _). Qed.
Program Definition registered_twice : Ledger :=
  exist _ [consumed_utxo; payment_utxo; registration_utxo 0 1; registration_utxo 1 2] _.
Next Obligation. by apply (bool_decide_unpack _). Qed.

Lemma example_candidate_wf key : registration_wf (example_candidate key).
Proof. split; try reflexivity; [split; done|repeat constructor]. Qed.

Lemma example_prices : prices_spends ledger_utxos.
Proof.
  intros tx s rs i u [= <-] Hi Hu (n & h & Ha). exists (mkEvaluate "spend" (Z.of_nat i) 1 1). split; [|done].
  apply elem_of_app. right. apply list_elem_of_join. exists (example_spend (ledger_utxos s) i (utxo_id_of u)). split.
  - unfold example_spend. destruct (filter _ _) as [|v l] eqn:Hf; [|by left]. exfalso. apply (elem_of_nil u).
    rewrite <-Hf. apply list_elem_of_filter. by rewrite Ha.
  - apply elem_of_lookup_imap. eauto.
Qed.

Definition example_key : PrivateKey := 7.
Definition example_registration (c : RegistrationCommand) (s : Ledger) : outcome (Ledger * result OffchainError (option bytes)) :=
  run_registration 1 0 example_genesis c example_key s.

(** A registration with another AURA key takes the place of the old one. *)
Lemma registration_commands_witness :
  ∃ s', replaced (mkPlutusScript [1; 0] PlutusV2) Testnet ledger_utxos (Register (example_candidate 8)) example_key registered_once s'.
Proof.
  destruct (example_registration (Register (example_candidate 8)) registered_once) as [[s' r]|] eqn:Hrun;
    [|exfalso; revert Hrun; vm_compute; discriminate].
  assert (∃ id, r = Ok (Some id)) as [id ->].
  { assert (match example_registration (Register (example_candidate 8)) registered_once with
            | Ret (_, Ok (Some _)) => true | _ => false end = true) as Hok by (vm_compute; reflexivity).
    rewrite Hrun in Hok. destruct r as [[id|]|]; [exists id; reflexivity|discriminate Hok|discriminate Hok]. }
  exists s'. exact (registration_commands (CS:=example_csl) (SC:=example_scripts) (OG:=example_ogmios) ledger_utxos
    1 0 example_genesis (Register (example_candidate 8)) example_key registered_once s' (Ok (Some id)) Testnet
    (mkPlutusScript [1; 0] PlutusV2) ltac:(reflexivity) ltac:(vm_compute; reflexivity) (example_candidate_wf 8) Hrun).
Defined.

(** Two registrations of the candidate: registering again panics. *)
Lemma several_registrations_stuck_witness :
  example_registration (Register (example_candidate 8)) registered_twice = Panic.
Proof.
  refine (proj2 (several_registrations_stuck (CS:=example_csl) (SC:=example_scripts) (OG:=example_ogmios) ledger_utxos
    1 0 example_genesis (Register (example_candidate 8)) example_key registered_twice Testnet (mkPlutusScript [1; 0] PlutusV2)
    (registration_utxo 0 1) (registration_utxo 1 2) (example_candidate 1) (example_candidate 2) example_prices
    ltac:(reflexivity) ltac:(vm_compute; reflexivity) ltac:(discriminate) _) _ _ _ _ _ _ _ _ _ _).
  { intros u r [[= -> ->]|[[= -> ->]|[]%elem_of_nil]%elem_of_cons]%elem_of_cons;
      (split; [apply list_elem_of_filter; split; [reflexivity|]|split; [vm_compute; reflexivity|split; reflexivity]]).
    - right. right. left.
    - right. right. right. left. }
  - vm_compute. reflexivity.
  - vm_compute. reflexivity.
  - eexists. split_and!; [vm_compute; reflexivity|vm_compute; reflexivity|reflexivity].
  - vm_compute. reflexivity.
  - vm_compute. reflexivity.
Defined.
