(* ===== verification/OffchainVersions.v ===== *)
(** * Governance and versioned scripts

    Models [init_governance], [update_governance], [versioning_system.rs],
    [sign_tx.rs] and [assemble_and_submit_tx.rs] of
    [toolkit/smart-contracts/offchain/src], and the commands of
    [toolkit/smart-contracts/commands/src] that sign and assemble.  The version
    oracle of a chain keeps outputs at the address of its validator, each with a
    datum that names a script and with the script itself: the governance policy
    and the scripts of the reserve and the bridge. *)

From S2P Require Import Prelude Domain PlutusData ContractDatums McHash.
From S2P Require Import OffchainTx OffchainGovernance OffchainExample OffchainMap.

(** CBOR of transactions and of signatures of keys. *)
Class TxCodec := {
  TxCbor : Type;
  tx_to_bytes : Tx → TxCbor;
  tx_from_bytes : TxCbor → result OffchainError Tx;
  vkeywitness_to_bytes : bytes * bytes → bytes;
  vkeywitness_from_bytes : bytes → result OffchainError (bytes * bytes);
}.
Class TxCodecLaws `{!TxCodec} : Prop := {
  tx_bytes_roundtrip tx : tx_from_bytes (tx_to_bytes tx) = Ok tx;
  vkeywitness_bytes_roundtrip w : vkeywitness_from_bytes (vkeywitness_to_bytes w) = Ok w;
}.

(** ** Signing and assembling *)

Section Signing.
Context `{!Csl, !TxCodec} {L : Type} `{!Ogmios L} (delay : Z) (retries : nat).

Definition transaction_from_bytes (cbor : TxCbor) : result OffchainError Tx := tx_from_bytes cbor.
Definition vkey_witness_from_bytes (cbor : bytes) : result OffchainError (bytes * bytes) := vkeywitness_from_bytes cbor.

Definition sign_tx (tx : TxCbor) (payment_key : PrivateKey) : result OffchainError bytes :=
  transaction ← transaction_from_bytes tx;
  let tx_hash := blake2b_256 (body_to_bytes (body transaction)) in
  let signature := sign_bytes payment_key tx_hash in
  let vkey_witness := (to_public payment_key, signature) in
  Ok ([130; 0] ++ vkeywitness_to_bytes vkey_witness).

Definition add_witnesses (transaction : Tx) (witnesses : list (bytes * bytes)) : Tx :=
  mkTx (body transaction) (vkeys transaction ++ witnesses) (native_scripts transaction) (plutus_scripts transaction).

Definition assemble_and_submit_tx (transaction : Tx) (witnesses : list (bytes * bytes)) : Off L bytes :=
  let new_tx := add_witnesses transaction witnesses in
  tx_id ← (λ s, let '(s, r) := submit_transaction new_tx s in
                Ret (s, map_err (λ _, Anyhow "Submit assembled transaction request failed") r));
  _ ← await_tx_output delay retries tx_id;
  mret tx_id.

(** [AssembleAndSubmitCmd::execute] *)
Definition assemble_execute (transaction : TxCbor) (witnesses : list bytes) : Off L bytes :=
  transaction ← ds_lift (transaction_from_bytes transaction);
  witnesses ← ds_lift (mapM (M:=result OffchainError) (λ w, vkey_witness_from_bytes (drop 2 w)) witnesses);
  assemble_and_submit_tx transaction witnesses.
End Signing.

(** ** The version oracle *)

Record ScriptData := mkScriptData' {
  sc_name : string;
  sc_plutus_script : PlutusScript;
  sc_id : ScriptId;
}.

Section Versions.
Context `{!Csl, !Scripts} {L : Type} `{!Ogmios L}.
Context (generate_ed25519 : result OffchainError PrivateKey) (save_wallet_file : result OffchainError unit)
  (delay : Z) (retries : nat).

Abbreviation submit := (submit_or_create_tx_to_sign generate_ed25519 save_wallet_file delay retries).

(** [b"Version oracle"] *)
Definition version_oracle_asset_name : outcome bytes :=
  match asset_name_new [86; 101; 114; 115; 105; 111; 110; 32; 111; 114; 97; 99; 108; 101] with
  | Ok name => Ret name
  | Err _ => Panic
  end.

(** An output of the version oracle. *)
Definition version_output (version_oracle : PlutusScriptData) (id : Z) (script : Script) (ctx : TransactionContext) :
    outcome (result OffchainError TxOutput) :=
  let datum := version_oracle_datum_to_plutus (mkVersionOracleDatum id (script_hash (sd_policy version_oracle))) in
  let amount_builder := mkTxOutput (plutus_address (sd_validator version_oracle) (network ctx)) 0 ∅ (Some datum) (Some script) in
  name ← version_oracle_asset_name;
  ma ←? Ret (single_asset (script_hash (sd_policy version_oracle)) name 1);
  Ret (with_minimum_ada_and_asset amount_builder ma ctx).

(** *** Governance *)

Definition version_oracle_datum_output (version_oracle : PlutusScriptData) (multi_sig_policy : Script)
    (ctx : TransactionContext) : outcome (result OffchainError TxOutput) :=
  version_output version_oracle (script_id_u32 IdGovernancePolicy) multi_sig_policy ctx.

Definition multisig_script (governance_parameters : MultiSigParameters) : Script :=
  policy_script (as_simple_at_least_n governance_parameters).
Definition multisig_hash (governance_parameters : MultiSigParameters) : bytes :=
  native_script_hash (msp_threshold governance_parameters) (governance_authorities governance_parameters).

Definition init_governance_transaction (governance_parameters : MultiSigParameters) (genesis_utxo : OgmiosUtxo)
    (ctx : TransactionContext) (costs : Costs) : outcome (result OffchainError Tx) :=
  let multi_sig_policy := multisig_script governance_parameters in
  version_oracle ←? Ret (version_oracle_scripts (utxo_id_of genesis_utxo) (network ctx));
  config ←? Ret (get_builder_config ctx);
  name ← version_oracle_asset_name;
  units ← get_mint costs (sd_policy version_oracle);
  let b := add_mint_one_script_token (sd_policy version_oracle) name
    (oracle_redeemer_to_plutus (InitializeVersionOracle (script_id_u32 IdGovernancePolicy) (multisig_hash governance_parameters)))
    units (builder_new config) in
  output ←? version_oracle_datum_output version_oracle multi_sig_policy ctx;
  let b := add_output output b in
  inputs ←? Ret (add_regular_inputs [genesis_utxo] []);
  Ret (balance_update_and_build (set_inputs inputs b) ctx).

(** The hash of the transaction and the genesis UTXO. *)
Definition run_init_governance (governance_parameters : MultiSigParameters) (payment_key : PrivateKey)
    (genesis_utxo_id : option UtxoId) : Off L (bytes * UtxoId) :=
  ctx ← for_payment_key payment_key;
  let own_utxos := payment_key_utxos ctx in
  genesis_utxo ← ds_lift match genesis_utxo_id with
                         | None => ok_or (head own_utxos) (Anyhow "No UTXOs to choose from")
                         | Some utxo_id => ok_or (head (filter (λ u, utxo_id_of u = utxo_id) own_utxos))
                                             (Anyhow "Could not find genesis UTXO")
                         end;
  tx_id ← sign_submit_await delay retries id ctx (init_governance_transaction governance_parameters genesis_utxo ctx);
  mret (tx_id, utxo_id_of genesis_utxo).

Definition update_governance_tx (genesis_utxo : UtxoId) (governance_parameters : MultiSigParameters)
    (governance_data : GovernanceData) (costs : Costs) (ctx : TransactionContext) : outcome (result OffchainError Tx) :=
  let multi_sig_policy := multisig_script governance_parameters in
  version_oracle ←? Ret (version_oracle_scripts genesis_utxo (network ctx));
  config ←? Ret (get_builder_config ctx);
  b ← with_governance governance_data costs (builder_new config);
  output ←? version_oracle_datum_output version_oracle multi_sig_policy ctx;
  let b := add_output output b in
  units ← get_one_spend costs;
  inputs ←? Ret (add_script_utxo_input (gov_utxo governance_data) (sd_validator version_oracle)
                   (new_integer (script_id_u32 IdGovernancePolicy)) units []);
  balance_and_strip (set_inputs inputs b) ctx.

Definition run_update_governance (governance_parameters : MultiSigParameters) (payment_key : PrivateKey)
    (genesis_utxo_id : UtxoId) : Off L MultiSigSmartContractResult :=
  payment_ctx ← for_payment_key payment_key;
  governance_data ← governance_data_get genesis_utxo_id;
  submit governance_data payment_ctx (update_governance_tx genesis_utxo_id governance_parameters governance_data)
    "Update Governance".

(** *** Scripts *)

Definition init_script_tx (script : ScriptData) (version_oracle : PlutusScriptData) (governance : GovernanceData)
    (costs : Costs) (ctx : TransactionContext) : outcome (result OffchainError Tx) :=
  config ←? Ret (get_builder_config ctx);
  name ← version_oracle_asset_name;
  units ← get_mint costs (sd_policy version_oracle);
  let b := add_mint_one_script_token (sd_policy version_oracle) name
    (oracle_redeemer_to_plutus (MintVersionOracle (script_id_u32 (sc_id script)) (script_hash (sc_plutus_script script))))
    units (builder_new config) in
  output ←? version_output version_oracle (script_id_u32 (sc_id script)) (ScriptPlutus (sc_plutus_script script)) ctx;
  b ← with_governance governance costs (add_output output b);
  balance_and_strip b ctx.

Definition update_script_tx (script : ScriptData) (version_oracle : PlutusScriptData) (old_versioned_utxo : OgmiosUtxo)
    (governance : GovernanceData) (costs : Costs) (ctx : TransactionContext) : outcome (result OffchainError Tx) :=
  config ←? Ret (get_builder_config ctx);
  units ← get_one_spend costs;
  inputs ←? Ret (add_script_utxo_input old_versioned_utxo (sd_validator version_oracle)
                   (new_integer (script_id_u32 (sc_id script))) units []);
  let b := set_inputs inputs (builder_new config) in
  output ←? version_output version_oracle (script_id_u32 (sc_id script)) (ScriptPlutus (sc_plutus_script script)) ctx;
  b ← with_governance governance costs (add_output output b);
  balance_and_strip b ctx.

Definition is_script_utxo (script_id : ScriptId) (version_oracle_data : PlutusScriptData) (utxo : OgmiosUtxo) : bool :=
  match get_plutus_data utxo with
  | Some data =>
      match VersionOracleDatum_try_from data with
      | Ok datum => (version_oracle datum =? script_id_u32 script_id)
                    && bool_decide (currency_symbol datum = script_hash (sd_policy version_oracle_data))
      | Err _ => false
      end
  | None => false
  end.

Definition find_script_utxo (script_id : ScriptId) (version_oracle : PlutusScriptData) (ctx : TransactionContext) :
    Off L (option OgmiosUtxo) :=
  validator_utxos ← query (query_utxos (plutus_address (sd_validator version_oracle) (network ctx)));
  mret (head (filter (λ u, is_script_utxo script_id version_oracle u = true) validator_utxos)).

Definition script_is_initialized (script : ScriptData) (version_oracle : PlutusScriptData) (ctx : TransactionContext) :
    Off L bool :=
  utxo ← find_script_utxo (sc_id script) version_oracle ctx;
  mret (bool_decide (is_Some utxo)).

Definition get_script_utxo (script_id : ScriptId) (version_oracle : PlutusScriptData) (payment_key : PrivateKey) :
    Off L (option OgmiosUtxo) :=
  ctx ← for_payment_key payment_key;
  find_script_utxo script_id version_oracle ctx.

Definition initialize_script (script : ScriptData) (genesis_utxo : UtxoId) (payment_key : PrivateKey) :
    Off L (option MultiSigSmartContractResult) :=
  payment_ctx ← for_payment_key payment_key;
  governance ← governance_data_get genesis_utxo;
  version_oracle ← ds_lift (version_oracle_scripts genesis_utxo (network payment_ctx));
  initialized ← script_is_initialized script version_oracle payment_ctx;
  if initialized : bool then mret None
  else
    r ← submit governance payment_ctx (init_script_tx script version_oracle governance) ("Init " ++ sc_name script);
    mret (Some r).

Definition update_script (script : ScriptData) (genesis_utxo : UtxoId) (old_versioned_utxo : OgmiosUtxo)
    (payment_key : PrivateKey) : Off L (option MultiSigSmartContractResult) :=
  payment_ctx ← for_payment_key payment_key;
  governance ← governance_data_get genesis_utxo;
  version_oracle ← ds_lift (version_oracle_scripts genesis_utxo (network payment_ctx));
  initialized ← script_is_initialized script version_oracle payment_ctx;
  if initialized : bool then
    r ← submit governance payment_ctx (update_script_tx script version_oracle old_versioned_utxo governance)
          ("Update " ++ sc_name script);
    mret (Some r)
  else mret None.

(** The name of an identifier is its [Debug] text. *)
Definition upsert_script (debug : ScriptId → string) (plutus_script : PlutusScript) (script_id : Z) (genesis_utxo : UtxoId)
    (payment_key : PrivateKey) : Off L (option MultiSigSmartContractResult) :=
  payment_ctx ← for_payment_key payment_key;
  version_oracle ← ds_lift (version_oracle_scripts genesis_utxo (network payment_ctx));
  script_id ← ds_lift (ok_or (script_id_try_from script_id) (Anyhow "Invalid script id"));
  versioned_utxo ← find_script_utxo script_id version_oracle payment_ctx;
  let script_data := mkScriptData' (debug script_id) plutus_script script_id in
  match versioned_utxo with
  | Some utxo => update_script script_data genesis_utxo utxo payment_key
  | None => initialize_script script_data genesis_utxo payment_key
  end.
End Versions.

(** ** What the commands do *)

Inductive VersionCommand :=
  | InitGovernance (governance_parameters : MultiSigParameters)
  | UpdateGovernance (governance_parameters : MultiSigParameters)
  | UpsertScript (plutus_script : PlutusScript) (script_id : Z).

(** The script that the command installs. *)
Definition new_script (c : VersionCommand) : Script :=
  match c with
  | InitGovernance p | UpdateGovernance p => multisig_script p
  | UpsertScript script _ => ScriptPlutus script
  end.

Section VersionSpec.
Context `{!Csl, !CslLaws, !Scripts, !ScriptsLaws} {L : Type} `{!Ogmios L} {unspent : L → list OgmiosUtxo} `{!OgmiosLaws L unspent}.
Context (generate_ed25519 : result OffchainError PrivateKey) (save_wallet_file : result OffchainError unit)
  (delay : Z) (retries : nat) (debug : ScriptId → string).
Implicit Types (s : L) (ctx : TransactionContext) (c : VersionCommand).

Definition run_version (genesis_utxo : UtxoId) c (payment_key : PrivateKey) : Off L (option MultiSigSmartContractResult) :=
  match c with
  | InitGovernance p =>
      r ← run_init_governance delay retries p payment_key (Some genesis_utxo); mret (Some (TransactionSubmitted r.1))
  | UpdateGovernance p =>
      r ← run_update_governance generate_ed25519 save_wallet_file delay retries p payment_key genesis_utxo; mret (Some r)
  | UpsertScript script id =>
      upsert_script generate_ed25519 save_wallet_file delay retries debug script id genesis_utxo payment_key
  end.

Definition command_id c : Z :=
  match c with InitGovernance _ | UpdateGovernance _ => script_id_u32 IdGovernancePolicy | UpsertScript _ id => id end.

(** The outputs by which the command's script is found. *)
Definition finds (vo : PlutusScriptData) c (u : OgmiosUtxo) : bool :=
  match c with
  | InitGovernance _ | UpdateGovernance _ => is_governance_utxo vo u
  | UpsertScript _ id => match script_id_try_from id with Some id => is_script_utxo id vo u | None => false end
  end.

Section Fixed.
Context (vo : PlutusScriptData) (genesis : UtxoId) (n : Network) (Hnetwork : ∀ s n', shelley_network s = Ok n' → n' = n).
Context (Hvo : version_oracle_scripts genesis n = Ok vo).
Abbreviation versions := (at_address (unspent:=unspent) (sd_validator_address vo)).

Lemma oracle_address : sd_validator_address vo = plutus_address (sd_validator vo) n.
Proof.
  revert Hvo. unfold version_oracle_scripts. destruct (plutus_script VERSION_ORACLE_VALIDATOR _); simpl; [|done].
  destruct (address_to_data _); simpl; [|done]. destruct (plutus_script VERSION_ORACLE_POLICY _); simpl; [|done].
  by intros [= <-].
Qed.
Lemma oracle_is_script : is_script_address (sd_validator_address vo).
Proof. rewrite oracle_address. by eexists _, _. Qed.

Definition pays_version (id : Z) (script : Script) (outs : list TxOutput) : Prop :=
  ∃ o, outs = [o] ∧ txo_address o = sd_validator_address vo ∧ is_Some (txo_tokens o !! policy_id vo) ∧
    txo_datum o = Some (version_oracle_datum_to_plutus (mkVersionOracleDatum id (policy_id vo))) ∧
    txo_script_ref o = Some script.

Lemma version_output_pays id script ctx o :
  network ctx = n → version_output vo id script ctx = Ret (Ok o) → pays_version id script [o].
Proof.
  intros Hn. unfold version_output, single_asset.
  destruct version_oracle_asset_name as [name|]; simpl; [|done].
  destruct (asset_name_new name) as [name'|]; simpl; [|done]. unfold with_minimum_ada_and_asset, with_minimum_ada.
  destruct (calculate_ada _ _); simpl; [|done]. intros [= <-]. eexists. split; [done|]. simpl.
  rewrite Hn, oracle_address. split_and!; try done. exists [(name', 1)]. apply lookup_singleton_eq.
Qed.

(** The new output is found, with its script. *)
Lemma paid_version c outs id :
  in_u 32 (command_id c) → (∀ sc i, c = UpsertScript sc i → is_Some (script_id_try_from i)) →
  pays_version (command_id c) (new_script c) outs →
  ∃ u, filter (λ u, ou_address u = sd_validator_address vo) (imap (output_utxo id) outs) = [u] ∧
    finds vo c u = true ∧ ou_script u = Some (node_script (new_script c)).
Proof.
  intros Hid Hc (o & -> & Ha & Ht & Hd & Hsc). simpl. rewrite filter_cons_True, filter_nil by done. eexists. split; [done|].
  assert (get_plutus_data (output_utxo id 0 o) = Some (version_oracle_datum_to_plutus (mkVersionOracleDatum (command_id c) (policy_id vo))))
    as Hdata by (unfold get_plutus_data; simpl; rewrite Hd; simpl; by rewrite datum_bytes_roundtrip).
  assert (VersionOracleDatum_try_from (version_oracle_datum_to_plutus (mkVersionOracleDatum (command_id c) (policy_id vo)))
    = Ok (mkVersionOracleDatum (command_id c) (policy_id vo))) as Hdec by (by apply decode_version_oracle; [|apply blake2b_224_length]).
  split; [|simpl; by rewrite Hsc]. destruct c as [p|p|sc i]; simpl in *.
  1,2: unfold is_governance_utxo; rewrite Hdata, Hdec; simpl; rewrite Z.eqb_refl; by apply bool_decide_eq_true.
  destruct (Hc sc i eq_refl) as [sid Hs]. rewrite Hs. unfold is_script_utxo. rewrite Hdata, Hdec. simpl.
  rewrite (script_id_of_u32 _ _ Hs), Z.eqb_refl. by apply bool_decide_eq_true.
Qed.

(** There is one output of the script, with the new script; all others are kept. *)
Definition installed c s : Prop :=
  ∃ u, u ∈ versions s ∧ finds vo c u = true ∧ ou_script u = Some (node_script (new_script c)) ∧
    ∀ u', u' ∈ versions s → finds vo c u' = true → u' = u.
Definition versioned c s s' : Prop :=
  installed c s' ∧ ∀ u, finds vo c u = false → u ∈ versions s' ↔ u ∈ versions s.

Lemma submitted_versioned c removed s s' id :
  in_u 32 (command_id c) → (∀ sc i, c = UpsertScript sc i → is_Some (script_id_try_from i)) →
  (∀ u, u ∈ versions s → utxo_id_of u ∈ removed ↔ finds vo c u = true) →
  submitted (unspent:=unspent) removed (pays_version (command_id c) (new_script c)) s s' id → versioned c s s'.
Proof.
  intros Hid Hc Hrem Hsub. destruct (submitted_effect _ _ _ _ _ _ Hsub oracle_is_script) as (outs & HQ & Heff).
  destruct (paid_version c outs id Hid Hc HQ) as (u & Hf & Hu & Hsc). rewrite Hf in Heff.
  assert (∀ v, v ∈ versions s' ↔ (v ∈ versions s ∧ finds vo c v = false) ∨ v = u) as Hv.
  { intros v. rewrite Heff, elem_of_app, list_elem_of_filter, list_elem_of_singleton. split.
    - intros [[Hno Hin]|]; [|by right]. left. split; [done|]. rewrite (Hrem v Hin) in Hno. by apply not_true_is_false.
    - intros [[Hin Hno]|]; [|by right]. left. rewrite (Hrem v Hin), Hno. done. }
  split.
  - exists u. split_and!; [apply Hv; by right|done|done|]. intros v [[_ Hno]|]%Hv Hfv; [congruence|done].
  - intros v Hno. rewrite Hv. split; [intros [[]|]; [done|congruence]|by left].
Qed.

(** *** The transactions *)

Lemma update_governance_maker p governance :
  maker (L:=L) (update_governance_tx genesis p governance) [utxo_id_of (gov_utxo governance)]
    (pays_version (script_id_u32 IdGovernancePolicy) (multisig_script p)).
Proof.
  intros costs ctx s0 tx Hs0%Hnetwork. unfold update_governance_tx, version_oracle_datum_output. rewrite Hs0, Hvo. simpl.
  destruct (get_builder_config ctx) as [config|]; simpl; [|done].
  destruct (with_governance governance costs _) as [b|] eqn:Hg; simpl; [|done].
  destruct (version_output _ _ _ ctx) as [[o|]|] eqn:Ho; simpl; [|done|done].
  destruct (get_one_spend costs) as [units|]; simpl; [|done].
  unfold add_script_utxo_input. destruct (value_to_csl _ _); simpl; [|done]. intros Htx%balance_and_strip_makes.
  apply with_governance_keeps in Hg as [_ Hout]. simpl in *. rewrite Hout in Htx.
  destruct Htx as (outs & extra & change & -> & Hrest). eexists _, extra, change. split; [|done]. by apply version_output_pays in Ho.
Qed.

Lemma init_script_maker script governance :
  maker (L:=L) (init_script_tx script vo governance) []
    (pays_version (script_id_u32 (sc_id script)) (ScriptPlutus (sc_plutus_script script))).
Proof.
  intros costs ctx s0 tx Hs0%Hnetwork. unfold init_script_tx.
  destruct (get_builder_config ctx) as [config|]; simpl; [|done].
  destruct version_oracle_asset_name as [name|] eqn:Hname; simpl; [|done].
  destruct (get_mint costs _) as [units|]; simpl; [|done].
  destruct (version_output _ _ _ ctx) as [[o|]|] eqn:Ho; simpl; [|done|done].
  destruct (with_governance governance costs _) as [b|] eqn:Hg; simpl; [|done]. intros Htx%balance_and_strip_makes.
  apply with_governance_keeps in Hg as [Hin Hout]. simpl in *. rewrite Hout, Hin in Htx.
  destruct Htx as (outs & extra & change & -> & Hrest). eexists _, extra, change. split; [|done]. by apply version_output_pays in Ho.
Qed.

Lemma update_script_maker script old governance :
  maker (L:=L) (update_script_tx script vo old governance) [utxo_id_of old]
    (pays_version (script_id_u32 (sc_id script)) (ScriptPlutus (sc_plutus_script script))).
Proof.
  intros costs ctx s0 tx Hs0%Hnetwork. unfold update_script_tx.
  destruct (get_builder_config ctx) as [config|]; simpl; [|done].
  destruct (get_one_spend costs) as [units|]; simpl; [|done].
  unfold add_script_utxo_input. destruct (value_to_csl _ _); simpl; [|done].
  destruct (version_output _ _ _ ctx) as [[o|]|] eqn:Ho; simpl; [|done|done].
  destruct (with_governance governance costs _) as [b|] eqn:Hg; simpl; [|done]. intros Htx%balance_and_strip_makes.
  apply with_governance_keeps in Hg as [Hin Hout]. simpl in *. rewrite Hout, Hin in Htx.
  destruct Htx as (outs & extra & change & -> & Hrest). eexists _, extra, change. split; [|done]. by apply version_output_pays in Ho.
Qed.

Lemma init_governance_makes p u ctx costs tx :
  network ctx = n → utxo_id_of u = genesis → u ∈ payment_key_utxos ctx →
  init_governance_transaction p u ctx costs = Ret (Ok tx) →
  makes ctx [] (pays_version (script_id_u32 IdGovernancePolicy) (multisig_script p)) tx.
Proof.
  intros Hn Hid Hu. unfold init_governance_transaction, version_oracle_datum_output. rewrite Hn, Hid, Hvo. simpl.
  destruct (get_builder_config ctx) as [config|]; simpl; [|done].
  destruct version_oracle_asset_name as [name|] eqn:Hname; simpl; [|done].
  destruct (get_mint costs _) as [units|]; simpl; [|done].
  destruct (version_output _ _ _ ctx) as [[o|]|] eqn:Ho; simpl; [|done|done].
  destruct (value_to_csl _ _); simpl; [|done]. intros [= Htx%balance_makes]. simpl in Htx.
  destruct Htx as (outs & extra & change & -> & Hin & Hextra & Hrest).
  eexists _, (utxo_id_of u :: extra), change. split; [by apply version_output_pays in Ho|]. split; [done|].
  split; [|done]. intros i [->|Hi]%elem_of_cons; [by apply list_elem_of_fmap_2|by apply Hextra].
Qed.
(** *** The commands *)

(** The scripts of an identifier are at most one, or none before governance is set
    up; the policy of the version oracle mints its tokens that way. *)
Definition version_pre c s : Prop :=
  match c with
  | InitGovernance _ => ∀ u, u ∈ versions s → finds vo c u = false
  | _ => ∀ u u', u ∈ versions s → u' ∈ versions s → finds vo c u = true → finds vo c u' = true → u = u'
  end.

Lemma head_filter_Some {A} (P : A → bool) (l : list A) x :
  head (filter (λ y, P y = true) l) = Some x → x ∈ l ∧ P x = true.
Proof.
  intros Hx. apply head_Some_elem_of, list_elem_of_filter in Hx. tauto.
Qed.
Lemma head_filter_None {A} (P : A → bool) (l : list A) :
  head (filter (λ y, P y = true) l) = None → ∀ x, x ∈ l → P x = false.
Proof.
  intros Hn%head_None x Hx. apply not_true_is_false. intros Hp. apply (elem_of_nil x). rewrite <-Hn.
  by apply list_elem_of_filter.
Qed.

Lemma governance_data_found s s1 data :
  governance_data_get genesis s = Ret (s1, Ok data) → gov_utxo data ∈ versions s ∧ is_governance_utxo vo (gov_utxo data) = true.
Proof.
  unfold governance_data_get, get_governance_utxo. intros [(s2 & utxo & Hu & Hk)|(e & _ & [=])]%DS_bind_inv.
  apply DS_bind_inv in Hu as [(s3 & n' & [= <- Hn] & Hu)|(e & _ & [=])]. apply Hnetwork in Hn as ->.
  rewrite (DS_bind_Ok _ _ s s vo) in Hu by (unfold ds_lift; by rewrite Hvo).
  apply DS_bind_inv in Hu as [(s3 & utxos & [= <- Hq] & [= <- Hu])|(e & _ & [=])]. apply query_utxos_Ok in Hq.
  apply DS_bind_inv in Hk as [(s3 & u & [= <- Hh] & Hk)|(e & _ & [=])].
  destruct utxo as [u'|]; [|done]. injection Hh as ->.
  apply DS_bind_inv in Hk as [(s3 & policy & _ & [= _ <-])|(e & _ & [=])]. simpl.
  rewrite <-Hq. by apply head_filter_Some.
Qed.

(** A plan spends what the command's script is found by. *)
Definition version_plan c s (removed : list UtxoId) : Prop :=
  ∀ u, u ∈ versions s → utxo_id_of u ∈ removed ↔ finds vo c u = true.

Lemma plan_none c s : (∀ u, u ∈ versions s → finds vo c u = false) → version_plan c s [].
Proof. intros Hno u Hu. rewrite (Hno u Hu). split; [by intros []%elem_of_nil|done]. Qed.

Lemma plan_one c s u :
  u ∈ versions s → finds vo c u = true →
  (∀ u u', u ∈ versions s → u' ∈ versions s → finds vo c u = true → finds vo c u' = true → u = u') →
  version_plan c s [utxo_id_of u].
Proof.
  intros Hu Hf Hone v Hv. rewrite list_elem_of_singleton. split; [|intros Hfv; by rewrite (Hone v u)].
  intros Hid. apply list_elem_of_filter in Hu as [_ Hu], Hv as [_ Hv]. by rewrite (unspent_same_id s v u).
Qed.

Lemma find_script_bind {B} id ctx s s' r (k : option OgmiosUtxo → Off L B) :
  network ctx = n → (utxo ← find_script_utxo id vo ctx; k utxo) s = Ret (s', r) →
  (s' = s ∧ ∃ e, r = Err e) ∨
  ∃ utxos, utxos ≡ₚ versions s ∧ k (head (filter (λ u, is_script_utxo id vo u = true) utxos)) s = Ret (s', r).
Proof.
  intros Hn. unfold find_script_utxo. rewrite Hn, <-oracle_address by done.
  intros [(s1 & utxo & Hf & Hk)|(e & Hf & ->)]%DS_bind_inv.
  - apply query_utxos_start in Hf as [[-> [e [=]]]|(utxos & Hp & [= <- <-])]. right. by exists utxos.
  - apply query_utxos_start in Hf as [[-> [e' [= ->]]]|(utxos & Hp & [=])]. left. by eauto.
Qed.

Lemma initialized_bind {B} script ctx s s' r (k : bool → Off L B) :
  network ctx = n → (i ← script_is_initialized script vo ctx; k i) s = Ret (s', r) →
  (s' = s ∧ ∃ e, r = Err e) ∨
  ∃ i : bool, (i = true ↔ ∃ u, u ∈ versions s ∧ is_script_utxo (sc_id script) vo u = true) ∧ k i s = Ret (s', r).
Proof.
  intros Hn [(s1 & i & Hi & Hk)|(e & Hi & ->)]%DS_bind_inv; apply find_script_bind in Hi as [[-> [e' He]]|(utxos & Hp & Hi)]; try done.
  - injection Hi as <- <-. right. eexists. split; [|exact Hk]. rewrite bool_decide_eq_true. split.
    + intros [u Hu]. apply head_filter_Some in Hu as [Hu Hf]. exists u. by rewrite <-Hp.
    + intros (u & Hu & Hf). destruct (head _) eqn:Hh; [by eexists|]. rewrite <-Hp in Hu.
      rewrite (head_filter_None _ _ Hh u Hu) in Hf. done.
  - left. by eauto.
Qed.

(** The second look finds what the first one found. *)
Lemma versioned_submit script id key s s' r :
  script_id_try_from id = Some (sc_id script) →
  (∃ old, old ∈ versions s ∧ is_script_utxo (sc_id script) vo old = true ∧
     update_script generate_ed25519 save_wallet_file delay retries script genesis old key s = Ret (s', r)) ∨
  ((∀ u, u ∈ versions s → is_script_utxo (sc_id script) vo u = false) ∧
     initialize_script generate_ed25519 save_wallet_file delay retries script genesis key s = Ret (s', r)) →
  let c := UpsertScript (sc_plutus_script script) id in
  version_pre c s →
  (s' = s ∧ ∃ e, r = Err e) ∨
  ∃ removed, version_plan c s removed ∧
    outcome_of (unspent:=unspent) removed (pays_version (script_id_u32 (sc_id script)) (ScriptPlutus (sc_plutus_script script))) s s' r.
Proof.
  intros Hid Hrun c Hpre. assert (∀ u, finds vo c u = is_script_utxo (sc_id script) vo u) as Hfind by (intros u; simpl; by rewrite Hid).
  destruct Hrun as [(old & Hold & Hf & Hrun)|[Hno Hrun]];
    (apply (context_start (unspent:=unspent) key n tt (λ _, Ok tt) _ _ _ (λ ctx _, _)) in Hrun as [Hr|(ctx & Hctx & Hn & Hk)];
      [by left| |done|done]);
    (apply DS_bind_inv in Hk as [(s1 & governance & Hg & Hk)|(e & Hg & ->)]; apply governance_data_get_state in Hg as ->; [|by eauto]);
    (rewrite Hn, (DS_bind_Ok _ _ s s vo) in Hk by (unfold ds_lift; by rewrite Hvo));
    (apply initialized_bind in Hk as [Hr|(i & Hi & Hk)]; [by left| |done]).
  - right. exists [utxo_id_of old]. split; [apply plan_one; [done|by rewrite Hfind|exact Hpre]|].
    rewrite (proj2 Hi) in Hk by eauto. eapply submit_outcome; [done| |exact Hk]. by apply update_script_maker.
  - right. exists []. split; [apply plan_none; intros u Hu; rewrite Hfind; by apply Hno|].
    destruct i.
    + exfalso. destruct (proj1 Hi eq_refl) as (u & Hu & Hfu). rewrite Hno in Hfu by done. done.
    + eapply submit_outcome; [done| |exact Hk]. by apply init_script_maker.
Qed.

Lemma run_version_spec c key s s' r :
  version_pre c s → run_version genesis c key s = Ret (s', r) →
  (s' = s ∧ ∃ e, r = Err e) ∨
  (∀ sc i, c = UpsertScript sc i → is_Some (script_id_try_from i)) ∧ in_u 32 (command_id c) ∧
  ∃ removed, version_plan c s removed ∧
    outcome_of (unspent:=unspent) removed (pays_version (command_id c) (new_script c)) s s' r.
Proof.
  intros Hpre. destruct c as [p|p|sc id]; simpl.
  - intros Hrun. apply DS_bind_inv in Hrun as [(s1 & [tx g] & Hrun & [= <- <-])|(e & Hrun & ->)];
      (apply (context_start (unspent:=unspent) key n tt (λ _, Ok tt) _ _ _ (λ ctx _, _)) in Hrun as [[-> [e' He]]|(ctx & Hctx & Hn & Hk)];
       [try done; by eauto| |done|done]);
      (apply ds_lift_start in Hk as [[-> [e' He]]|(u & Hu & Hk)]; [try done; by eauto|]).
    all: assert (u ∈ payment_key_utxos ctx ∧ utxo_id_of u = genesis) as [Hin Hgen]
           by (destruct (head _) eqn:Hh; [|done]; injection Hu as ->; by apply head_Some_elem_of, list_elem_of_filter in Hh as [? ?]).
    all: right; split; [done|]; split; [apply script_id_width|]; exists []; (split; [by apply plan_none|]).
    all: assert (∀ costs tx, init_governance_transaction p u ctx costs = Ret (Ok tx) →
           makes ctx [] (pays_version (script_id_u32 IdGovernancePolicy) (multisig_script p)) tx) as Hmake
           by (intros costs tx'; by apply init_governance_makes).
    + apply DS_bind_inv in Hk as [(s2 & id & Hs & [= <- <- <-])|(e & _ & [=])]. by eapply sign_submit_spec in Hs.
    + apply DS_bind_inv in Hk as [(s2 & id & Hs & [=])|(e' & Hs & [= ->])]. by eapply sign_submit_spec in Hs.
  - intros Hrun. apply DS_bind_inv in Hrun as [(s1 & r1 & Hrun & [= <- <-])|(e & Hrun & ->)];
      (apply (context_start (unspent:=unspent) key n tt (λ _, Ok tt) _ _ _ (λ ctx _, _)) in Hrun as [[-> [e' He]]|(ctx & Hctx & Hn & Hk)];
       [try done; by eauto| |done|done]);
      (apply DS_bind_inv in Hk as [(s2 & governance & Hg & Hk)|(e' & Hg & He)]; [|try done; apply governance_data_get_state in Hg as ->; by eauto]);
      (destruct (governance_data_found _ _ _ Hg) as [Hu Hf]); apply governance_data_get_state in Hg as ->;
      right; (split; [done|]); (split; [apply script_id_width|]); exists [utxo_id_of (gov_utxo governance)];
      (split; [by apply plan_one|]); (eapply (submit_outcome _ _ _ _ governance ctx); [done|by apply update_governance_maker|]).
    + rewrite (DS_bind_Ok _ _ s s1 r1); [done|exact Hk].
    + rewrite (DS_bind_Err _ _ s s' e); [done|exact Hk].
  - intros Hrun.
    apply (context_start (unspent:=unspent) key n vo (version_oracle_scripts genesis)) in Hrun as [Hr|(ctx & Hctx & Hn & Hk)]; [by left| |done|done].
    apply ds_lift_start in Hk as [Hr|(sid & Hsid & Hk)]; [by left|].
    destruct (script_id_try_from id) as [sid'|] eqn:Hid; [|done]. injection Hsid as ->.
    apply find_script_bind in Hk as [Hr|(utxos & Hp & Hk)]; [by left| |done].
    set (script := mkScriptData' (debug sid) sc sid) in Hk. destruct (versioned_submit script id key s s' r) as [Hr|Hr].
    + done.
    + destruct (head _) as [u|] eqn:Hh; [left|right].
      * apply head_filter_Some in Hh as [Hu Hf]. rewrite Hp in Hu. by exists u.
      * split; [|exact Hk]. intros u Hu. rewrite <-Hp in Hu. by apply (head_filter_None _ _ Hh).
    + exact Hpre.
    + by left.
    + right. split; [intros sc' i [= <- <-]; by rewrite Hid|]. rewrite <-(script_id_of_u32 _ _ Hid).
      split; [apply script_id_width|]. destruct Hr as (removed & Hpl & Hout). exists removed.
      by rewrite (script_id_of_u32 _ _ Hid) at 1.
Qed.
(** *** Reading *)

(** What the readers of the version oracle see. *)
Definition reads_version c s : Prop :=
  match c with
  | InitGovernance p | UpdateGovernance p =>
      ∃ data, governance_data_get genesis s = Ret (s, Ok data) ∧ gov_policy data = as_simple_at_least_n p
  | UpsertScript script id =>
      ∀ sid ctx, script_id_try_from id = Some sid → network ctx = n →
        ∃ u o, find_script_utxo sid vo ctx s = Ret (s, Ok (Some u)) ∧ ou_script u = Some o ∧ plutus_script_try_from o = Ok script
  end.

Lemma head_filter_unique {A} (P : A → bool) (l : list A) x :
  x ∈ l → P x = true → (∀ y, y ∈ l → P y = true → y = x) → head (filter (λ y, P y = true) l) = Some x.
Proof.
  intros Hx Hp Hone. destruct (head (filter (λ y, P y = true) l)) as [y|] eqn:Hh.
  - apply head_filter_Some in Hh as [Hy Hpy]. f_equal. by apply Hone.
  - rewrite (head_filter_None _ _ Hh x Hx) in Hp. done.
Qed.

Lemma read_native_policy u threshold key_hashes :
  ou_script u = Some (node_script (ScriptNative threshold key_hashes)) →
  read_policy u = Ret (Ok (AtLeastNNativeScript threshold key_hashes)).
Proof.
  intros Hu. unfold read_policy. rewrite Hu. simpl. unfold parse_simple_at_least_n_native_script. simpl.
  rewrite (mapM_fmap_Some _ _ id) by (by apply Forall_forall). by rewrite list_fmap_id.
Qed.

Lemma plutus_script_ogmios script : plutus_script_try_from (plutus_script_to_ogmios script) = Ok script.
Proof. by destruct script as [b []]. Qed.

Lemma installed_reads c s utxos :
  shelley_network s = Ok n → query_utxos (sd_validator_address vo) s = Ok utxos → installed c s → reads_version c s.
Proof.
  intros Hn Hq (u & Hu & Hf & Hsc & Hone). pose proof (query_utxos_Ok _ _ _ Hq) as Hp.
  assert (∀ p, finds vo c = is_governance_utxo vo → ou_script u = Some (node_script (multisig_script p)) →
    ∃ data, governance_data_get genesis s = Ret (s, Ok data) ∧ gov_policy data = as_simple_at_least_n p) as Hgov.
  { intros p Hfinds Hscu. rewrite Hfinds in Hf, Hone.
    exists (mkGovernanceData (as_simple_at_least_n p) u). split; [|done]. unfold governance_data_get.
    rewrite (DS_bind_Ok _ _ s s (Some u)).
    - rewrite (DS_bind_Ok _ _ s s u) by done. by erewrite (DS_bind_Ok _ _ s s) by (unfold lift_outcome; by rewrite (read_native_policy _ _ _ Hscu)).
    - unfold get_governance_utxo. rewrite (DS_bind_Ok _ _ s s n) by (unfold query; by rewrite Hn).
      rewrite (DS_bind_Ok _ _ s s vo) by (unfold ds_lift; by rewrite Hvo).
      rewrite (DS_bind_Ok _ _ s s utxos) by (unfold query; by rewrite Hq).
      unfold mret, DS_ret. do 3 f_equal. apply head_filter_unique; [by rewrite Hp|done|]. intros v Hv. rewrite Hp in Hv. by apply Hone. }
  destruct c as [p|p|sc id]; simpl; [by apply Hgov..|]. intros sid ctx Hid Hctx. simpl in Hf, Hsc, Hone. rewrite Hid in Hf, Hone.
  eexists u, _. split; [|split; [exact Hsc|apply plutus_script_ogmios]].
  unfold find_script_utxo. rewrite Hctx, <-oracle_address by done.
  rewrite (DS_bind_Ok _ _ s s utxos) by (unfold query; by rewrite Hq).
  unfold mret, DS_ret. do 3 f_equal. apply head_filter_unique; [by rewrite Hp|done|]. intros v Hv. rewrite Hp in Hv. by apply Hone.
Qed.
End Fixed.
End VersionSpec.

(** ** Theorems *)

(** C28. Setting up the governance, changing it and storing a script change the
    outputs of the version oracle as meant.  Once the transaction of the command
    is submitted, at once or later with the signatures of all authorities, exactly
    one output is found for the script and it has the new script, the outputs of
    other scripts are the same, and reading gives the new policy or script: after
    a change of governance the authorities are the new ones.  A command that fails
    changes nothing or, when only the wait for confirmation failed, all of it. *)
Theorem version_oracle_commands {CS : Csl} {CL : CslLaws} {SC : Scripts} {SL : ScriptsLaws} {L : Type} {OG : Ogmios L}
    (unspent : L → list OgmiosUtxo) {OL : OgmiosLaws L unspent} generate_ed25519 save_wallet_file delay retries debug
    genesis (c : VersionCommand) payment_signing_key (s s' : L) r n vo :
  shelley_network s = Ok n → version_oracle_scripts genesis n = Ok vo → version_pre (unspent:=unspent) vo c s →
  run_version generate_ed25519 save_wallet_file delay retries debug genesis c payment_signing_key s = Ret (s', r) →
  (match r with
   | Ok None => False
   | Ok (Some (TransactionSubmitted id)) => versioned (unspent:=unspent) vo c s s'
   | Ok (Some (TransactionToSign data)) =>
       scripts_kept (unspent:=unspent) s s' ∧
       ∀ tx s'' id, body tx = body (ms_tx data) → submit_transaction tx s' = (s'', Ok id) →
         versioned (unspent:=unspent) vo c s' s''
   | Err _ => scripts_kept (unspent:=unspent) s s' ∨ versioned (unspent:=unspent) vo c s s'
   end) ∧
  (∀ s0 utxos, shelley_network s0 = Ok n → query_utxos (sd_validator_address vo) s0 = Ok utxos →
     installed (unspent:=unspent) vo c s0 → reads_version vo genesis n c s0).
Proof.
  intros Hn Hvo Hpre Hrun.
  assert (∀ s0 n', shelley_network s0 = Ok n' → n' = n) as Hnet by (intros s0 n' Hs0; by eapply one_network).
  split; [|intros s0 utxos Hs0 Hq Hin; by eapply installed_reads].
  destruct (run_version_spec (unspent:=unspent) _ _ _ _ _ vo genesis n Hnet Hvo c _ s s' r Hpre Hrun)
    as [(-> & e & ->)|(Hid & Hw & removed & Hplan & Hout)]; [left; by apply scripts_kept_refl|].
  pose proof (submitted_versioned (unspent:=unspent) vo genesis n Hvo c removed) as Hsub.
  destruct r as [[[id|data]|]|e]; simpl in Hout.
  - by eapply Hsub.
  - destruct Hout as [Hk Hs]. split; [done|]. intros tx s'' id Hb Hst. eapply (Hsub s' s'' id); [done|done| |by eapply Hs].
    intros u Hu. apply Hplan. by rewrite <-(Hk _ (oracle_is_script vo genesis n Hvo)).
  - done.
  - destruct Hout as [Hk|[id Hs]]; [by left|right; by eapply Hsub].
Qed.

(** The witness that a key gives for a transaction. *)
Definition key_witness `{!Csl} (tx : Tx) (key : PrivateKey) : bytes * bytes :=
  (to_public key, sign_bytes key (blake2b_256 (body_to_bytes (body tx)))).

Lemma sign_assemble `{!Csl, !TxCodec, !TxCodecLaws} {L : Type} `{!Ogmios L} delay retries tx keys :
  ∃ witnesses, mapM (M:=result OffchainError) (sign_tx (tx_to_bytes tx)) keys = Ok witnesses ∧
    ∀ s : L, assemble_execute delay retries (tx_to_bytes tx) witnesses s
             = assemble_and_submit_tx delay retries tx (key_witness tx <$> keys) s.
Proof.
  exists ((λ key, [130; 0] ++ vkeywitness_to_bytes (key_witness tx key)) <$> keys). split.
  - induction keys as [|k ks IH]; [done|].
    change (mapM (M:=result OffchainError) (sign_tx (tx_to_bytes tx)) (k :: ks))
      with (y ← sign_tx (tx_to_bytes tx) k; l ← mapM (M:=result OffchainError) (sign_tx (tx_to_bytes tx)) ks; mret (y :: l)).
    rewrite IH. unfold sign_tx, transaction_from_bytes. by rewrite tx_bytes_roundtrip.
  - intros s. unfold assemble_execute. unfold transaction_from_bytes. rewrite tx_bytes_roundtrip.
    rewrite (DS_bind_Ok _ _ s s tx), (DS_bind_Ok _ _ s s (key_witness tx <$> keys)); [done| |done].
    unfold ds_lift. do 2 f_equal. induction keys as [|k ks IH]; [done|].
    rewrite !fmap_cons. change (mapM (M:=result OffchainError) ?f (?x :: ?l)) with (y ← f x; l' ← mapM (M:=result OffchainError) f l; mret (y :: l')).
    rewrite IH. unfold vkey_witness_from_bytes at 1. change (drop 2 ([130; 0] ++ ?b)) with b.
    by rewrite vkeywitness_bytes_roundtrip.
Qed.

(** An assembled transaction that was accepted was submitted with the body. *)
Lemma assemble_submits `{!Csl} {L : Type} `{!Ogmios L} {unspent : L → list OgmiosUtxo} `{!OgmiosLaws L unspent}
    delay retries tx witnesses (s s' : L) id :
  assemble_and_submit_tx delay retries tx witnesses s = Ret (s', Ok id) →
  ∃ s1, submit_transaction (add_witnesses tx witnesses) s = (s1, Ok id) ∧ unspent s' = unspent s1.
Proof.
  unfold assemble_and_submit_tx. intros [(s1 & id' & Hs & Hk)|(e & _ & [=])]%DS_bind_inv.
  destruct (submit_transaction _ s) as [s2 [id''|]]; [|done]. injection Hs as -> ->.
  apply DS_bind_inv in Hk as [(s3 & [] & Haw & [= <- <-])|(e & _ & [=])]. apply await_unspent in Haw. by exists s1.
Qed.

(** C29. A command on the Governed Map of a chain with several authorities goes
    through by their signatures: the prepared transaction can be read by everyone,
    the witnesses that [sign_tx] writes are those that assembling reads, what is
    submitted is the prepared transaction with the signatures of its body added,
    and once it is accepted the map is changed as the command says. *)
Theorem map_command_signed {CS : Csl} {CL : CslLaws} {SC : Scripts} {TC : TxCodec} {TL : TxCodecLaws} {L : Type}
    {OG : Ogmios L} (unspent : L → list OgmiosUtxo) {OL : OgmiosLaws L unspent} hash_order generate_ed25519
    save_wallet_file delay retries genesis (c : MapCommand) payment_signing_key (s s' : L) data n scripts keys :
  shelley_network s = Ok n → governed_map_scripts genesis n = Ok scripts →
  from_utf8 (command_key c) = Some (command_key c) →
  run_command hash_order generate_ed25519 save_wallet_file delay retries genesis c payment_signing_key s
    = Ret (s', Ok (Some (TransactionToSign data))) →
  ∃ witnesses, mapM (M:=result OffchainError) (sign_tx (tx_to_bytes (ms_tx data))) keys = Ok witnesses ∧
    ∀ s'' id, assemble_execute delay retries (tx_to_bytes (ms_tx data)) witnesses s' = Ret (s'', Ok id) →
      (∃ s1, submit_transaction (add_witnesses (ms_tx data) (key_witness (ms_tx data) <$> keys)) s' = (s1, Ok id)) ∧
      executed unspent scripts c s' s''.
Proof.
  intros Hn Hscripts Hutf Hrun.
  assert (∀ s0 n', shelley_network s0 = Ok n' → n' = n) as Hnet by (intros s0 n' Hs0; by eapply one_network).
  destruct (sign_assemble (L:=L) delay retries (ms_tx data) keys) as (ws & Hws & Hasm). exists ws. split; [done|].
  intros s'' id Hrun2. rewrite Hasm in Hrun2. apply (assemble_submits (unspent:=unspent)) in Hrun2 as (s1 & Hs1 & Hun).
  split; [by exists s1|].
  destruct (run_command_spec (unspent:=unspent) hash_order generate_ed25519 save_wallet_file delay retries scripts genesis n
    Hscripts Hnet c payment_signing_key s s' _ Hrun) as [(_ & e & [=])|[(_ & [=] & _)|(_ & removed & Q & [Hrem HQ] & Hk & Hsub)]].
  apply (plan_executed (unspent:=unspent) scripts genesis n Hscripts c s' s'' id removed Q Hutf).
  - split; [|done]. intros u k v Hu. apply Hrem. by rewrite <-(Hk _ (validator_is_script scripts genesis n Hscripts)).
  - destruct (Hsub (add_witnesses (ms_tx data) (key_witness (ms_tx data) <$> keys)) s1 id eq_refl Hs1)
      as (ctx & tx & s2 & Hctx & Hm & Hs2 & Hun2). exists ctx, tx, s2. by rewrite Hun.
Qed.

(** ** Witnesses *)

#[local] Existing Instances example_csl example_csl_laws example_scripts example_scripts_laws example_ogmios example_ogmios_laws.

Definition example_oracle : PlutusScriptData :=
  mkScriptData (mkPlutusScript [13; 0] PlutusV2) (plutus_address (mkPlutusScript [13; 0] PlutusV2) Testnet)
    (mkPlutusScript [12; 0; 0] PlutusV2).
Definition example_version (c : VersionCommand) (s : Ledger) : outcome (Ledger * result OffchainError (option MultiSigSmartContractResult)) :=
  run_version (Ok 9) (Ok tt) 1 0 (λ _, EmptyString) example_genesis c 7 s.
Definition handed_over : VersionCommand := UpdateGovernance (new_one_of_one [8]).

(** Key 7 hands the governance over to key 8. *)
Lemma version_oracle_commands_witness :
  ∃ s' data, governance_data_get example_genesis s' = Ret (s', Ok data) ∧ gov_policy data = AtLeastNNativeScript 1 [[8]].
Proof.
  destruct (example_version handed_over example_ledger) as [[s' r]|] eqn:Hrun;
    [|exfalso; revert Hrun; vm_compute; discriminate].
  assert (∃ id, r = Ok (Some (TransactionSubmitted id))) as [id ->].
  { assert (match example_version handed_over example_ledger with
            | Ret (_, Ok (Some (TransactionSubmitted _))) => true | _ => false end = true) as Hok by (vm_compute; reflexivity).
    rewrite Hrun in Hok. destruct r as [[[id|]|]|]; [exists id; reflexivity|discriminate Hok..]. }
  destruct (version_oracle_commands (CS:=example_csl) (SC:=example_scripts) (OG:=example_ogmios) ledger_utxos
    (Ok 9) (Ok tt) 1 0 (λ _, EmptyString) example_genesis handed_over 7 example_ledger s'
    (Ok (Some (TransactionSubmitted id))) Testnet example_oracle) as [[Hinst _] Hread].
  - reflexivity.
  - vm_compute. reflexivity.
  - intros u u' Hu Hu' _ _. change (u ∈ [governance_utxo]) in Hu. change (u' ∈ [governance_utxo]) in Hu'.
    apply list_elem_of_singleton in Hu as ->. apply list_elem_of_singleton in Hu' as ->. reflexivity.
  - exact Hrun.
  - exists s'. exact (Hread s' _ eq_refl eq_refl Hinst).
Defined.

(** *** Several authorities *)

#[local] Instance example_codec : TxCodec := {|
  TxCbor := Tx;
  tx_to_bytes tx := tx;
  tx_from_bytes tx := Ok tx;
  vkeywitness_to_bytes w := Z.of_nat (length w.1) :: w.1 ++ w.2;
  vkeywitness_from_bytes b :=
    match b with n :: b => Ok (take (Z.to_nat n) b, drop (Z.to_nat n) b) | [] => Err OgmiosError end;
|}.
#[local] Instance example_codec_laws : TxCodecLaws.
Proof.
  split; [done|]. intros [a b]. simpl. rewrite Nat2Z.id. by rewrite take_app_length, drop_app_length.
Qed.

Definition shared_governance_utxo : OgmiosUtxo :=
  mkOgmiosUtxo [1] 0 (plutus_address (mkPlutusScript [13; 0] PlutusV2) Testnet) 1 (ou_native_tokens governance_utxo)
    (ou_datum governance_utxo) (Some (mkOgmiosScript "native" [] (Some (NSome [NSignature [7]; NSignature [8]] 2)))).
Program Definition shared_ledger : Ledger := exist _ [shared_governance_utxo; payment_utxo] _.
Next Obligation. by apply (bool_decide_unpack _). Qed.

(** Keys 7 and 8 insert an entry together. *)
Lemma map_command_signed_witness :
  ∃ s' s'', executed ledger_utxos example_map_scripts (InsertEntry [97] [1]) s' s''.
Proof.
  destruct (example_run (InsertEntry [97] [1]) shared_ledger) as [[s' r]|] eqn:Hrun;
    [|exfalso; revert Hrun; vm_compute; discriminate].
  assert (match example_run (InsertEntry [97] [1]) shared_ledger with
          | Ret (s', Ok (Some (TransactionToSign data))) =>
              match mapM (M:=result OffchainError) (sign_tx (tx_to_bytes (ms_tx data))) [7; 8] with
              | Ok ws => match assemble_execute 1 0 (tx_to_bytes (ms_tx data)) ws s' with Ret (_, Ok _) => true | _ => false end
              | Err _ => false
              end
          | _ => false end = true) as Hok by (vm_compute; reflexivity).
  rewrite Hrun in Hok. destruct r as [[[id|data]|]|]; try discriminate Hok.
  destruct (map_command_signed (CS:=example_csl) (SC:=example_scripts) (TC:=example_codec) (OG:=example_ogmios) ledger_utxos
    (λ _ l, l) (Ok 9) (Ok tt) 1 0 example_genesis (InsertEntry [97] [1]) 7 shared_ledger s' data Testnet example_map_scripts [7; 8])
    as (ws & Hws & Hexec); [reflexivity|vm_compute; reflexivity|vm_compute; reflexivity|exact Hrun|].
  rewrite Hws in Hok. destruct (assemble_execute 1 0 (tx_to_bytes (ms_tx data)) ws s') as [[s'' [id|]]|] eqn:Hasm; try discriminate Hok.
  exists s', s''. exact (proj2 (Hexec s'' id eq_refl)).
Defined.
