(* ===== verification/OffchainReserve.v ===== *)
(** * Commands on the reserve and the bridge

    Models [reserve] and [bridge] of [toolkit/smart-contracts/offchain/src]: the
    reserve of reward tokens at its validator, their release to the illiquid
    circulation supply (ICS), and the deposits of users that the nodes observe as
    transfers ([Bridge]).  The reserve is the output of its validator that holds
    one token of its authority policy. *)

From S2P Require Import Prelude Domain PlutusData ContractDatums McHash.
From S2P Require Import OffchainTx OffchainGovernance OffchainExample OffchainVersions.

Record ReserveData := mkReserveData {
  rd_validator : PlutusScript;
  rd_auth_policy : PlutusScript;
  rd_auth_policy_version_utxo : OgmiosUtxo;
  rd_validator_version_utxo : OgmiosUtxo;
}.
Record ICSData := mkICSData {
  ics_validator : PlutusScript;
  ics_auth_policy : PlutusScript;
  ics_auth_policy_version_utxo : OgmiosUtxo;
  ics_validator_version_utxo : OgmiosUtxo;
}.
Record ReserveUtxo := mkReserveUtxo { ru_utxo : OgmiosUtxo; ru_datum : ReserveDatum }.
Record TokenAmount := mkTokenAmount { ta_token : AssetId; ta_amount : Z }.
Record ReserveParameters := mkReserveParameters {
  total_accrued_function_script_hash : bytes;
  rp_token : AssetId;
  initial_deposit : Z;
}.

(** [From<&ReserveParameters> for ReserveDatum] *)
Definition reserve_datum_of (value : ReserveParameters) : ReserveDatum :=
  mkReserveDatum (rp_token value) (total_accrued_function_script_hash value) 0 0.

Section ReserveCommands.
Context `{!Csl, !Scripts} {L : Type} `{!Ogmios L} (hash_order : ∀ A : Type, list A → list A).
Context (generate_ed25519 : result OffchainError PrivateKey) (save_wallet_file : result OffchainError unit)
  (delay : Z) (retries : nat).
(** The order of execution units. *)
Context (ex_units_le : ExUnits → ExUnits → bool).

Abbreviation submit := (submit_or_create_tx_to_sign generate_ed25519 save_wallet_file delay retries).

Definition empty_name_asset (script : PlutusScript) : AssetId := mkAssetId (script_hash script) [].
Definition script_size (script : PlutusScript) : Z := Z.of_nat (length (ps_bytes script)).
Definition to_multi_asset (self : AssetId) (amount : Z) : result OffchainError native_tokens :=
  name ← asset_name_new (asset_name self);
  Ok {[ContractDatums.policy_id self := [(name, amount)]]}.
(** [MultiAsset::from_ogmios_utxo]; the names of the assets are checked. *)
Definition from_ogmios_utxo (utxo : OgmiosUtxo) : result OffchainError native_tokens :=
  _ ← mapM (M:=result OffchainError) (λ '(policy, assets),
        mapM (M:=result OffchainError) (λ asset, asset_name_new asset.1) assets) (map_to_list (ou_native_tokens utxo));
  Ok (ou_native_tokens utxo).

(** ** Data of the reserve and of the bridge *)

Definition reserve_data_get (genesis_utxo : UtxoId) (ctx : TransactionContext) : Off L ReserveData :=
  version_oracle ← ds_lift (version_oracle_scripts genesis_utxo (network ctx));
  auth_policy_version_utxo ← find_script_utxo IdReserveAuthPolicy version_oracle ctx;
  auth_policy_version_utxo ← ds_lift (ok_or auth_policy_version_utxo (Anyhow "Reserve Auth Version Utxo not found, is the Reserve Token Management initialized?"));
  validator_version_utxo ← find_script_utxo IdReserveValidator version_oracle ctx;
  validator_version_utxo ← ds_lift (ok_or validator_version_utxo (Anyhow "Reserve Validator Version Utxo not found, is the Reserve Token Management initialized?"));
  scripts ← ds_lift (reserve_scripts genesis_utxo (network ctx));
  mret (mkReserveData scripts.1 scripts.2 auth_policy_version_utxo validator_version_utxo).

Definition reserve_settings (auth_token_asset_id : AssetId) (utxo : OgmiosUtxo) : option ReserveUtxo :=
  if get_asset_amount utxo auth_token_asset_id =? 1 then
    d ← get_plutus_data utxo;
    d ← ok (reserve_decode d);
    Some (mkReserveUtxo utxo d)
  else None.

Definition get_reserve_utxo (self : ReserveData) (ctx : TransactionContext) : Off L ReserveUtxo :=
  validator_utxos ← query (query_utxos (plutus_address (rd_validator self) (network ctx)));
  ds_lift (ok_or (head (filter_map (reserve_settings (empty_name_asset (rd_auth_policy self))) validator_utxos))
             (Anyhow "Reserve Utxo not found, is the Reserve Token Management initialized?")).

Definition ics_data_get (genesis_utxo : UtxoId) (ctx : TransactionContext) : Off L ICSData :=
  version_oracle ← ds_lift (version_oracle_scripts genesis_utxo (network ctx));
  validator_version_utxo ← find_script_utxo IdIlliquidCirculationSupplyValidator version_oracle ctx;
  validator_version_utxo ← ds_lift (ok_or validator_version_utxo (Anyhow "Illiquid Circulation Supply Validator Version Utxo not found, is the Bridge initialized?"));
  auth_policy_version_utxo ← find_script_utxo IdIlliquidCirculationSupplyAuthorityTokenPolicy version_oracle ctx;
  auth_policy_version_utxo ← ds_lift (ok_or auth_policy_version_utxo (Anyhow "Illiquid Circulation Supply Authority Token Policy Version Utxo not found, is the Bridge initialized?"));
  scripts ← ds_lift (ics_scripts genesis_utxo (network ctx));
  mret (mkICSData scripts.1 scripts.2 auth_policy_version_utxo validator_version_utxo).

Definition get_validator_utxos_with_auth_token (self : ICSData) (ctx : TransactionContext) : Off L (list OgmiosUtxo) :=
  validator_utxos ← query (query_utxos (plutus_address (ics_validator self) (network ctx)));
  mret (filter (λ u, get_asset_amount u (empty_name_asset (ics_auth_policy self)) = 1) validator_utxos).

(** [min_by_key] keeps the first of equal keys. *)
Definition utxo_hash (ctx : TransactionContext) (u : OgmiosUtxo) : bytes :=
  blake2b_256 (ou_transaction u ++ be 2 (ou_index u) ++ payment_key_hash ctx).
Fixpoint select_utxo_to_spend (utxos : list OgmiosUtxo) (ctx : TransactionContext) : option OgmiosUtxo :=
  match utxos with
  | [] => None
  | u :: utxos =>
      match select_utxo_to_spend utxos ctx with
      | Some v => if list_le (utxo_hash ctx u) (utxo_hash ctx v) then Some u else Some v
      | None => Some u
      end
  end.

(** ** Inputs *)

Definition add_reserve_utxo_input_with_validator_script_reference (inputs : list TxInput) (reserve_utxo : OgmiosUtxo)
    (reserve : ReserveData) (redeemer : ReserveRedeemer) (cost : ExUnits) : result OffchainError (list TxInput) :=
  _ ← value_to_csl (ou_lovelace reserve_utxo) (ou_native_tokens reserve_utxo);
  Ok (inputs ++ [mkTxInput (utxo_id_of reserve_utxo)
        (Some (SpendPlutusRef (rd_validator reserve) (utxo_id_of (rd_validator_version_utxo reserve))
                 (reserve_redeemer_to_plutus redeemer) cost))]).
Definition add_ics_utxo_input_with_validator_script_reference (inputs : list TxInput) (ics_utxo : OgmiosUtxo)
    (ics_data : ICSData) (cost : ExUnits) : result OffchainError (list TxInput) :=
  _ ← value_to_csl (ou_lovelace ics_utxo) (ou_native_tokens ics_utxo);
  Ok (inputs ++ [mkTxInput (utxo_id_of ics_utxo)
        (Some (SpendPlutusRef (ics_validator ics_data) (utxo_id_of (ics_validator_version_utxo ics_data))
                 (new_integer 0) cost))]).

(** ** Initialisation *)

(** [ScriptData::new] *)
Definition script_data_new (name : string) (raw_bytes : bytes) (id : ScriptId) : ScriptData :=
  mkScriptData' name (mkPlutusScript raw_bytes PlutusV2) id.

Definition initialize_scripts (scripts : ScriptData * ScriptData) (genesis_utxo : UtxoId) (payment_key : PrivateKey) :
    Off L (list MultiSigSmartContractResult) :=
  r1 ← initialize_script generate_ed25519 save_wallet_file delay retries scripts.1 genesis_utxo payment_key;
  r2 ← initialize_script generate_ed25519 save_wallet_file delay retries scripts.2 genesis_utxo payment_key;
  mret (option_list r1 ++ option_list r2).

Definition init_reserve_management (genesis_utxo : UtxoId) (payment_key : PrivateKey) :
    Off L (list MultiSigSmartContractResult) :=
  payment_ctx ← for_payment_key payment_key;
  version_oracle ← ds_lift (version_oracle_scripts genesis_utxo (network payment_ctx));
  validator ← ds_lift (plutus_script RESERVE_VALIDATOR [policy_id_as_plutus_data version_oracle]);
  auth_policy ← ds_lift (plutus_script RESERVE_AUTH_POLICY [policy_id_as_plutus_data version_oracle]);
  initialize_scripts
    (script_data_new "Reserve Management Validator" (ps_bytes validator) IdReserveValidator,
     script_data_new "Reserve Management Policy" (ps_bytes auth_policy) IdReserveAuthPolicy) genesis_utxo payment_key.

Definition init_ics_scripts (genesis_utxo : UtxoId) (payment_key : PrivateKey) : Off L (list MultiSigSmartContractResult) :=
  payment_ctx ← for_payment_key payment_key;
  version_oracle ← ds_lift (version_oracle_scripts genesis_utxo (network payment_ctx));
  validator ← ds_lift (plutus_script ILLIQUID_CIRCULATION_SUPPLY_VALIDATOR [policy_id_as_plutus_data version_oracle]);
  auth_policy ← ds_lift (plutus_script ILLIQUID_CIRCULATION_SUPPLY_AUTHORITY_TOKEN_POLICY
    [script_id_data IdIlliquidCirculationSupplyAuthorityTokenPolicy; policy_id_as_plutus_data version_oracle]);
  initialize_scripts
    (script_data_new "Illiquid Circulation Supply Validator" (ps_bytes validator) IdIlliquidCirculationSupplyValidator,
     script_data_new "Illiquid Circulation Supply Auth Token Policy" (ps_bytes auth_policy)
       IdIlliquidCirculationSupplyAuthorityTokenPolicy) genesis_utxo payment_key.

(** ** Creating the reserve *)

Definition reserve_validator_output (parameters : ReserveParameters) (reserve : ReserveData) (ctx : TransactionContext) :
    result OffchainError TxOutput :=
  let amount_builder := mkTxOutput (plutus_address (rd_validator reserve) (network ctx)) 0 ∅
    (Some (reserve_to_plutus (reserve_datum_of parameters))) None in
  ma ← with_asset_amount (empty_name_asset (rd_auth_policy reserve)) 1 ∅;
  ma ← with_asset_amount (rp_token parameters) (initial_deposit parameters) ma;
  with_minimum_ada_and_asset amount_builder ma ctx.

Definition create_reserve_tx (parameters : ReserveParameters) (reserve : ReserveData) (governance : GovernanceData)
    (costs : Costs) (ctx : TransactionContext) : outcome (result OffchainError Tx) :=
  config ←? Ret (get_builder_config ctx);
  b ← add_mint_one_script_token_using_reference_script (ScriptPlutus (rd_auth_policy reserve))
        (utxo_id_of (rd_auth_policy_version_utxo reserve)) costs (builder_new config);
  output ←? Ret (reserve_validator_output parameters reserve ctx);
  b ← with_governance governance costs (add_output output b);
  balance_and_strip (add_script_reference_input (utxo_id_of (rd_validator_version_utxo reserve))
    (script_size (rd_validator reserve)) b) ctx.

Definition create_reserve_utxo (parameters : ReserveParameters) (genesis_utxo : UtxoId) (payment_key : PrivateKey) :
    Off L MultiSigSmartContractResult :=
  payment_ctx ← for_payment_key payment_key;
  governance ← governance_data_get genesis_utxo;
  reserve ← reserve_data_get genesis_utxo payment_ctx;
  submit governance payment_ctx (create_reserve_tx parameters reserve governance) "Create Reserve".

(** ** Deposits to the reserve *)

Definition validator_output (token_amount : TokenAmount) (current_utxo : OgmiosUtxo) (reserve : ReserveData)
    (ctx : TransactionContext) : outcome (result OffchainError TxOutput) :=
  datum ← expect (get_plutus_data current_utxo);
  let amount_builder := mkTxOutput (plutus_address (rd_validator reserve) (network ctx)) 0 ∅ (Some datum) None in
  ma ←? Ret (with_asset_amount (ta_token token_amount) (ta_amount token_amount) ∅);
  ma ←? Ret (with_asset_amount (empty_name_asset (rd_auth_policy reserve)) 1 ma);
  Ret (with_minimum_ada_and_asset amount_builder ma ctx).

Definition deposit_to_reserve_tx (parameters : TokenAmount) (current_utxo : OgmiosUtxo) (reserve : ReserveData)
    (governance : GovernanceData) (costs : Costs) (ctx : TransactionContext) : outcome (result OffchainError Tx) :=
  config ←? Ret (get_builder_config ctx);
  output ←? validator_output parameters current_utxo reserve ctx;
  let b := add_output output (builder_new config) in
  units ← get_one_spend costs;
  inputs ←? Ret (add_reserve_utxo_input_with_validator_script_reference [] current_utxo reserve DepositToReserve units);
  b ← with_governance governance costs (set_inputs inputs b);
  balance_and_strip (add_script_reference_input (utxo_id_of (rd_auth_policy_version_utxo reserve))
    (script_size (rd_auth_policy reserve)) b) ctx.

Definition deposit_to_reserve (amount : Z) (genesis_utxo : UtxoId) (payment_key : PrivateKey) :
    Off L MultiSigSmartContractResult :=
  payment_context ← for_payment_key payment_key;
  governance ← governance_data_get genesis_utxo;
  reserve ← reserve_data_get genesis_utxo payment_context;
  reserve_utxo ← get_reserve_utxo reserve payment_context;
  let token := reserve_token (ru_datum reserve_utxo) in
  let current_amount := get_asset_amount (ru_utxo reserve_utxo) token in
  let token_amount := mkTokenAmount token (wadd 64 current_amount amount) in
  submit governance payment_context (deposit_to_reserve_tx token_amount (ru_utxo reserve_utxo) reserve governance)
    "Deposit to Reserve".

(** ** Settings of the reserve *)

Definition update_reserve_settings_tx (datum : ReserveDatum) (reserve : ReserveData) (ics_data : ICSData)
    (governance : GovernanceData) (reserve_utxo : OgmiosUtxo) (costs : Costs) (ctx : TransactionContext) :
    outcome (result OffchainError Tx) :=
  config ←? Ret (get_builder_config ctx);
  units ← get_one_spend costs;
  inputs ←? Ret (add_reserve_utxo_input_with_validator_script_reference [] reserve_utxo reserve UpdateReserve units);
  let b := set_inputs inputs (builder_new config) in
  val ←? Ret (value_to_csl (ou_lovelace reserve_utxo) (ou_native_tokens reserve_utxo));
  let output coin := mkTxOutput (plutus_address (rd_validator reserve) (network ctx)) coin val.2
                       (Some (reserve_to_plutus datum)) None in
  min_ada ←? Ret (calculate_ada (output val.1) (min_utxo_deposit_coefficient (protocol_parameters ctx)));
  let b := add_output (output min_ada) b in
  b ← with_governance governance costs b;
  let b := add_script_reference_input (utxo_id_of (ics_validator_version_utxo ics_data)) (script_size (ics_validator ics_data)) b in
  let b := add_script_reference_input (utxo_id_of (rd_auth_policy_version_utxo reserve)) (script_size (rd_auth_policy reserve)) b in
  balance_and_strip b ctx.

Definition update_reserve_settings (genesis_utxo : UtxoId) (payment_key : PrivateKey)
    (total_accrued_function_script_hash : bytes) : Off L (option MultiSigSmartContractResult) :=
  ctx ← for_payment_key payment_key;
  governance ← governance_data_get genesis_utxo;
  reserve ← reserve_data_get genesis_utxo ctx;
  reserve_utxo ← get_reserve_utxo reserve ctx;
  ics_data ← ics_data_get genesis_utxo ctx;
  let d := ru_datum reserve_utxo in
  if decide (total_accrued_function_script_hash = total_accrued_function_asset_name d) then mret None
  else
    let d := mkReserveDatum (reserve_token d) total_accrued_function_script_hash (initial_incentive d)
               (token_total_amount_transferred d) in
    r ← submit governance ctx (update_reserve_settings_tx d reserve ics_data governance (ru_utxo reserve_utxo))
          "Update Reserve Settings";
    mret (Some r).

(** ** Handover *)

Definition get_amount_to_release (reserve_utxo : ReserveUtxo) : TokenAmount :=
  let token := reserve_token (ru_datum reserve_utxo) in
  mkTokenAmount token (get_asset_amount (ru_utxo reserve_utxo) token).

Definition illiquid_supply_validator_output (output_value : TokenAmount) (ics_data : ICSData) (ctx : TransactionContext) :
    result OffchainError TxOutput :=
  let address := plutus_address (ics_validator ics_data) (network ctx) in
  if 0 <? ta_amount output_value then
    ma ← to_multi_asset (ta_token output_value) (ta_amount output_value);
    with_minimum_ada_and_asset (mkTxOutput address 0 ∅ (Some (token_transfer_to_plutus ReserveTransferV1)) None) ma ctx
  else with_minimum_ada (mkTxOutput address 0 ∅ None None) ctx.

(** [build_tx] of [handover.rs] *)
Definition handover_tx (handover_amount : TokenAmount) (reserve_utxo : OgmiosUtxo) (reserve : ReserveData)
    (ics_data : ICSData) (governance : GovernanceData) (costs : Costs) (ctx : TransactionContext) :
    outcome (result OffchainError Tx) :=
  config ←? Ret (get_builder_config ctx);
  reserve_auth_policy_spend_cost ← get_one_spend costs;
  b ← with_governance governance costs (builder_new config);
  inputs ←? Ret (add_reserve_utxo_input_with_validator_script_reference [] reserve_utxo reserve Handover
                   reserve_auth_policy_spend_cost);
  b ← add_mint_script_token_using_reference_script (ScriptPlutus (rd_auth_policy reserve))
        (utxo_id_of (rd_auth_policy_version_utxo reserve)) (-1) costs (set_inputs inputs b);
  output ←? Ret (illiquid_supply_validator_output handover_amount ics_data ctx);
  balance_and_strip (add_script_reference_input (utxo_id_of (ics_validator_version_utxo ics_data))
    (script_size (ics_validator ics_data)) (add_output output b)) ctx.

Definition handover_reserve (genesis_utxo : UtxoId) (payment_key : PrivateKey) : Off L MultiSigSmartContractResult :=
  ctx ← for_payment_key payment_key;
  governance ← governance_data_get genesis_utxo;
  reserve ← reserve_data_get genesis_utxo ctx;
  ics_data ← ics_data_get genesis_utxo ctx;
  reserve_utxo ← get_reserve_utxo reserve ctx;
  let amount := get_amount_to_release reserve_utxo in
  submit governance ctx (handover_tx amount (ru_utxo reserve_utxo) reserve ics_data governance) "Handover Reserve".
(** ** Release *)

Definition v_function_from_utxo (utxo : OgmiosUtxo) : result OffchainError PlutusScript :=
  match ou_script utxo with
  | None => Err (Anyhow "V-Function reference script missing from the reference UTXO")
  | Some v_function_script => map_err (λ _, Anyhow "not a valid Plutus Script") (plutus_script_try_from v_function_script)
  end.

(** [Value::multiasset] of a converted value, which is there if there are tokens. *)
Definition multiasset (value : Z * native_tokens) : option native_tokens :=
  if decide (value.2 = ∅) then None else Some value.2.

(** The cheaper and the dearer of the two spends. *)
Definition spend_costs (costs : Costs) : outcome (ExUnits * ExUnits) :=
  let spend_indices := get_spend_indices hash_order costs in
  c1 ← get_spend costs (default 0 (spend_indices !! 1%nat));
  c0 ← get_spend costs (default 0 (spend_indices !! 0%nat));
  Ret (if ex_units_le c1 c0 then (c1, c0) else (c0, c1)).

(** The output of the ICS validator; the assets of the token's policy are replaced. *)
Definition released_output (token : AssetId) (amount_to_transfer : Z) (ics_utxo : OgmiosUtxo) (ics_data : ICSData)
    (ctx : TransactionContext) : outcome (result OffchainError TxOutput) :=
  let ics_balance := get_asset_amount ics_utxo token in
  value ←? Ret (value_to_csl (ou_lovelace ics_utxo) (ou_native_tokens ics_utxo));
  ics_tokens ← expect (multiasset value);
  name ←? Ret (asset_name_new (asset_name token));
  let ics_tokens := <[ContractDatums.policy_id token := [(name, sat_add 64 amount_to_transfer ics_balance)]]> ics_tokens in
  Ret (with_minimum_ada_and_asset
         (mkTxOutput (plutus_address (ics_validator ics_data) (network ctx)) 0 ∅
            (Some (token_transfer_to_plutus ReserveTransferV1)) None) ics_tokens ctx).

(** The output of the reserve with what is left. *)
Definition left_output (previous_reserve : ReserveUtxo) (amount_to_transfer left_in_reserve : Z) (reserve_data : ReserveData)
    (ctx : TransactionContext) : result OffchainError TxOutput :=
  ma ← from_ogmios_utxo (ru_utxo previous_reserve);
  ma ← with_asset_amount (reserve_token (ru_datum previous_reserve)) left_in_reserve ma;
  with_minimum_ada_and_asset
    (mkTxOutput (plutus_address (rd_validator reserve_data) (network ctx)) 0 ∅
       (Some (reserve_to_plutus (after_withdrawal (ru_datum previous_reserve) amount_to_transfer))) None) ma ctx.

Definition reserve_release_tx (ctx : TransactionContext) (reserve_data : ReserveData) (ics_data : ICSData)
    (previous_reserve : ReserveUtxo) (ics_utxo reference_utxo : OgmiosUtxo) (amount_to_transfer latest_slot : Z)
    (costs : Costs) : outcome (result OffchainError Tx) :=
  let token := reserve_token (ru_datum previous_reserve) in
  config ←? Ret (get_builder_config ctx);
  let reserve_balance := get_asset_amount (ru_utxo previous_reserve) token in
  cumulative_total_transfer ←
    expect (try_into 64 (token_total_amount_transferred (ru_datum previous_reserve) + amount_to_transfer));
  left_in_reserve ←? Ret (ok_or (checked_sub reserve_balance amount_to_transfer)
                            (Anyhow "Not enough funds in the reserve to transfer tokens"));
  let b := add_script_reference_input (utxo_id_of (rd_auth_policy_version_utxo reserve_data))
             (script_size (rd_auth_policy reserve_data)) (builder_new config) in
  let b := add_script_reference_input (utxo_id_of (ics_validator_version_utxo ics_data))
             (script_size (ics_validator ics_data)) b in
  let b := add_script_reference_input (utxo_id_of (ics_auth_policy_version_utxo ics_data))
             (script_size (rd_auth_policy reserve_data)) b in
  v_function ←? Ret (v_function_from_utxo reference_utxo);
  b ← add_mint_script_token_using_reference_script (ScriptPlutus v_function) (utxo_id_of reference_utxo)
        cumulative_total_transfer costs b;
  spends ← spend_costs costs;
  tx_inputs ←? Ret (add_reserve_utxo_input_with_validator_script_reference [] (ru_utxo previous_reserve) reserve_data
                      ReleaseFromReserve spends.2);
  tx_inputs ←? Ret (add_ics_utxo_input_with_validator_script_reference tx_inputs ics_utxo ics_data spends.1);
  let b := set_inputs tx_inputs b in
  output ←? released_output token amount_to_transfer ics_utxo ics_data ctx;
  let b := add_output output b in
  output ←? Ret (left_output previous_reserve amount_to_transfer left_in_reserve reserve_data ctx);
  let b := add_output output b in
  balance_and_strip (set_validity_start_interval latest_slot b) ctx.

Definition release_reserve_funds (amount : Z) (genesis_utxo reference_utxo : UtxoId) (payment_key : PrivateKey) :
    Off L bytes :=
  ctx ← for_payment_key payment_key;
  slot ← query get_tip_slot;
  reserve_data ← reserve_data_get genesis_utxo ctx;
  reference_utxo ← query (query_utxo_by_id reference_utxo);
  reference_utxo ← ds_lift (ok_or reference_utxo (Anyhow "Reference utxo not found on chain"));
  ics_data ← ics_data_get genesis_utxo ctx;
  reserve_utxo ← get_reserve_utxo reserve_data ctx;
  ics_utxos ← get_validator_utxos_with_auth_token ics_data ctx;
  ics_utxo ← ds_lift (ok_or (select_utxo_to_spend ics_utxos ctx)
    (Anyhow "Cannot find UTXOs with an 'auth token' at ICS Validator! Is the Bridge initialized?"));
  sign_submit_await delay retries (λ _, Anyhow "Reserve release transaction request failed") ctx
    (reserve_release_tx ctx reserve_data ics_data reserve_utxo ics_utxo reference_utxo amount slot).

(** ** The bridge *)

Definition ics_validator_output (ics_data : ICSData) (ctx : TransactionContext) : result OffchainError TxOutput :=
  ma ← with_asset_amount (empty_name_asset (ics_auth_policy ics_data)) 1 ∅;
  with_minimum_ada_and_asset
    (mkTxOutput (plutus_address (ics_validator ics_data) (network ctx)) 0 ∅ (Some unit_plutus_data) None) ma ctx.

Fixpoint add_ics_outputs (amount : nat) (ics_data : ICSData) (ctx : TransactionContext) (b : TxBuilder) :
    result OffchainError TxBuilder :=
  match amount with
  | O => Ok b
  | S amount => output ← ics_validator_output ics_data ctx; add_ics_outputs amount ics_data ctx (add_output output b)
  end.

Definition create_utxos_tx (amount : Z) (ics_data : ICSData) (governance : GovernanceData) (costs : Costs)
    (ctx : TransactionContext) : outcome (result OffchainError Tx) :=
  config ←? Ret (get_builder_config ctx);
  b ← with_governance governance costs (builder_new config);
  b ← add_mint_script_token_using_reference_script (ScriptPlutus (ics_auth_policy ics_data))
        (utxo_id_of (ics_auth_policy_version_utxo ics_data)) amount costs b;
  b ←? Ret (add_ics_outputs (Z.to_nat amount) ics_data ctx b);
  balance_and_strip b ctx.

Definition create_validator_utxos (genesis_utxo : UtxoId) (amount : Z) (payment_key : PrivateKey) :
    Off L MultiSigSmartContractResult :=
  payment_ctx ← for_payment_key payment_key;
  governance ← governance_data_get genesis_utxo;
  ics_data ← ics_data_get genesis_utxo payment_ctx;
  submit governance payment_ctx (create_utxos_tx amount ics_data governance) "Create Bridge UTXOs".

Definition to_user_transfer_datum (pc_address : bytes) : Datum := token_transfer_to_plutus (UserTransferV1 pc_address).

Definition deposit_only_tx (ics_address : bytes) (token_amount : TokenAmount) (pc_address : bytes)
    (ctx : TransactionContext) : result OffchainError Tx :=
  config ← get_builder_config ctx;
  let output_builder := mkTxOutput ics_address 0 ∅ (Some (to_user_transfer_datum pc_address)) None in
  ma ← with_asset_amount (ta_token token_amount) (ta_amount token_amount) ∅;
  output ← with_minimum_ada_and_asset output_builder ma ctx;
  balance_update_and_build (add_output output (builder_new config)) ctx.

Definition submit_deposit_only_tx (ics_address : bytes) (amount : TokenAmount) (pc_address : bytes)
    (ctx : TransactionContext) : Off L bytes :=
  tx ← ds_lift (deposit_only_tx ics_address amount pc_address ctx);
  tx_id ← (λ s, let '(s, r) := submit_transaction (sign ctx tx) s in
                Ret (s, map_err (λ _, Anyhow "Bridge transfer transaction request failed") r));
  _ ← await_tx_output delay retries tx_id;
  mret tx_id.

(** [addresses.illiquid_circulation_supply_validator] *)
Definition ics_address_of (scripts : ScriptsData) : bytes := nth 2 (addresses scripts) [].

Definition deposit_without_ics_input (genesis_utxo : UtxoId) (token : AssetId) (amount : Z) (pc_address : bytes)
    (payment_signing_key : PrivateKey) : Off L bytes :=
  ctx ← for_payment_key payment_signing_key;
  scripts ← ds_lift (get_scripts_data genesis_utxo (network ctx));
  submit_deposit_only_tx (ics_address_of scripts) (mkTokenAmount token amount) pc_address ctx.

(** The tokens of the spent output with the deposit added. *)
Definition deposited_tokens (ics_utxo : OgmiosUtxo) (token_amount : TokenAmount) :
    outcome (result OffchainError native_tokens) :=
  value ← expect (ok (value_to_csl (ou_lovelace ics_utxo) (ou_native_tokens ics_utxo)));
  ma ← expect (multiasset value);
  name ← expect (ok (asset_name_new (asset_name (ta_token token_amount))));
  let asset := mkAssetId (ContractDatums.policy_id (ta_token token_amount)) name in
  amount ←? Ret (ok_or (try_into 64 (asset_amount ma asset + ta_amount token_amount)) (JsError "overflow"));
  Ret (Ok (set_asset asset amount ma)).

Definition deposit_tx (ics_address : bytes) (ics_utxo : OgmiosUtxo) (ics_data : ICSData) (token_amount : TokenAmount)
    (pc_address : bytes) (ctx : TransactionContext) (costs : Costs) : outcome (result OffchainError Tx) :=
  config ←? Ret (get_builder_config ctx);
  let output_builder := mkTxOutput ics_address 0 ∅ (Some (to_user_transfer_datum pc_address)) None in
  ma ←? deposited_tokens ics_utxo token_amount;
  output ←? Ret (with_minimum_ada_and_asset output_builder ma ctx);
  let b := add_output output (builder_new config) in
  units ← get_one_spend costs;
  inputs ←? Ret (add_ics_utxo_input_with_validator_script_reference [] ics_utxo ics_data units);
  let b := set_inputs inputs b in
  let b := add_script_reference_input (utxo_id_of (ics_validator_version_utxo ics_data)) (script_size (ics_validator ics_data)) b in
  let b := add_script_reference_input (utxo_id_of (ics_auth_policy_version_utxo ics_data)) (script_size (ics_auth_policy ics_data)) b in
  Ret (balance_update_and_build b ctx).

Definition deposit_with_ics_spend (genesis_utxo : UtxoId) (token : AssetId) (amount : Z) (pc_address : bytes)
    (payment_signing_key : PrivateKey) : Off L bytes :=
  ctx ← for_payment_key payment_signing_key;
  scripts ← ds_lift (get_scripts_data genesis_utxo (network ctx));
  ics_data ← ics_data_get genesis_utxo ctx;
  ics_utxos ← get_validator_utxos_with_auth_token ics_data ctx;
  ics_utxo_to_spend ← ds_lift (ok_or (select_utxo_to_spend ics_utxos ctx)
    (Anyhow "Cannot find UTXOs with an 'auth token' at ICS Validator! Use simple deposit instead."));
  sign_submit_await delay retries (λ _, Anyhow "Bridge transfer transaction request failed") ctx
    (deposit_tx (ics_address_of scripts) ics_utxo_to_spend ics_data (mkTokenAmount token amount) pc_address ctx).
End ReserveCommands.

(** ** Amounts of assets *)

#[global] Instance AssetId_eq_dec : EqDecision AssetId.
Proof. solve_decision. Defined.

Lemma AssetId_ext a b :
  ContractDatums.policy_id a = ContractDatums.policy_id b → asset_name a = asset_name b → a = b.
Proof. destruct a, b. simpl. by intros -> ->. Qed.

Lemma asset_amount_empty tok : asset_amount ∅ tok = 0.
Proof. unfold asset_amount. by rewrite lookup_empty. Qed.

Lemma asset_amount_singleton token amount tok :
  asset_amount {[ContractDatums.policy_id token := [(asset_name token, amount)]]} tok = if decide (token = tok) then amount else 0.
Proof.
  unfold asset_amount. destruct (decide (ContractDatums.policy_id token = ContractDatums.policy_id tok)) as [Hp|Hp].
  - rewrite Hp, lookup_singleton_eq. simpl. rewrite filter_cons, filter_nil. simpl.
    destruct (decide (asset_name token = asset_name tok)), (decide (token = tok)) as [->|]; try done.
    by destruct (AssetId_ext token tok).
  - rewrite lookup_singleton_ne by done. simpl. destruct (decide (token = tok)) as [->|]; done.
Qed.

Lemma filter_other_name (l : list (bytes * Z)) name name' :
  name ≠ name' → filter (λ a, a.1 = name') (filter (λ a, a.1 ≠ name) l) = filter (λ a, a.1 = name') l.
Proof.
  intros Hne. rewrite list_filter_filter. apply list_filter_iff. intros [n z]. simpl. naive_solver.
Qed.
Lemma filter_same_name (l : list (bytes * Z)) name : filter (λ a, a.1 = name) (filter (λ a, a.1 ≠ name) l) = [].
Proof. rewrite list_filter_filter. apply filter_none, Forall_forall. intros [n z] _. simpl. naive_solver. Qed.

Lemma asset_amount_set token amount ma tok :
  asset_amount (set_asset token amount ma) tok = if decide (token = tok) then amount else asset_amount ma tok.
Proof.
  unfold asset_amount, set_asset. destruct (decide (ContractDatums.policy_id token = ContractDatums.policy_id tok)) as [Hp|Hp].
  - rewrite Hp, lookup_insert_eq. simpl. rewrite filter_cons. simpl.
    destruct (decide (asset_name token = asset_name tok)) as [Hn|Hn].
    + by rewrite decide_True by (by apply AssetId_ext).
    + rewrite filter_other_name by done. rewrite decide_False by congruence. done.
  - rewrite lookup_insert_ne by done. rewrite decide_False by congruence. done.
Qed.

Lemma asset_amount_remove token ma tok :
  asset_amount (remove_asset token ma) tok = if decide (token = tok) then 0 else asset_amount ma tok.
Proof.
  unfold asset_amount, remove_asset. set (l := default [] (ma !! ContractDatums.policy_id token)).
  destruct (decide (ContractDatums.policy_id token = ContractDatums.policy_id tok)) as [Hp|Hp].
  - replace (default [] ((match filter (λ a, a.1 ≠ asset_name token) l with
        | [] => delete (ContractDatums.policy_id token) ma
        | assets => <[ContractDatums.policy_id token := assets]> ma end) !! ContractDatums.policy_id tok))
      with (filter (λ a, a.1 ≠ asset_name token) l).
    2: { rewrite <-Hp. destruct (filter _ l); by rewrite ?lookup_delete_eq, ?lookup_insert_eq. }
    destruct (decide (asset_name token = asset_name tok)) as [Hn|Hn].
    + rewrite Hn, filter_same_name. by rewrite decide_True by (by apply AssetId_ext).
    + rewrite filter_other_name by done. rewrite decide_False by congruence. unfold l. by rewrite Hp.
  - rewrite decide_False by congruence. by destruct (filter _ l); rewrite ?lookup_delete_ne, ?lookup_insert_ne by done.
Qed.

Lemma with_asset_amount_spec `{!Csl, !CslLaws} token amount ma ma' :
  with_asset_amount token amount ma = Ok ma' → 0 ≤ amount → (amount = 0 → 0 ≤ asset_amount ma token) →
  ∀ tok, asset_amount ma' tok = if decide (token = tok) then amount else asset_amount ma tok.
Proof.
  unfold with_asset_amount. destruct (asset_name_new _) as [name|] eqn:Hn; simpl; [|done].
  apply asset_name_new_Ok in Hn as ->.
  replace (mkAssetId (ContractDatums.policy_id token) (asset_name token)) with token by (by destruct token).
  destruct (Z.ltb_spec 0 amount); [intros [= <-] _ _; apply asset_amount_set|].
  destruct (Z.ltb_spec 0 (asset_amount ma token)); intros [= <-] Ha Hz tok.
  - rewrite asset_amount_remove. case_decide; lia.
  - case_decide as Ht; [|done]. subst. lia.
Qed.

(** Replacing all assets of a policy by one. *)
Lemma asset_amount_replace token amount ma tok :
  asset_amount (<[ContractDatums.policy_id token := [(asset_name token, amount)]]> ma) tok
  = if decide (token = tok) then amount
    else if decide (ContractDatums.policy_id token = ContractDatums.policy_id tok) then 0 else asset_amount ma tok.
Proof.
  destruct (decide (ContractDatums.policy_id token = ContractDatums.policy_id tok)) as [Hp|Hp].
  - rewrite <-(asset_amount_singleton token amount tok). unfold asset_amount. by rewrite Hp, lookup_insert_eq, lookup_singleton_eq.
  - rewrite decide_False by congruence. unfold asset_amount. by rewrite lookup_insert_ne.
Qed.

(** ** Datums of the reserve *)

(** The widths of the fields. *)
Definition reserve_wf (d : ReserveDatum) : Prop :=
  length (ContractDatums.policy_id (reserve_token d)) = 28%nat ∧ (length (asset_name (reserve_token d)) ≤ 32)%nat ∧
  length (total_accrued_function_asset_name d) = 28%nat ∧ in_u 64 (initial_incentive d) ∧
  in_u 64 (token_total_amount_transferred d).

Lemma reserve_roundtrip d : reserve_wf d → reserve_decode (reserve_to_plutus d) = Ok d.
Proof. intros (? & ? & ? & ? & ?). by apply decode_reserve. Qed.

Lemma as_u64_width d x : as_u64 d = Some x → in_u 64 x.
Proof. unfold as_u64. destruct (as_integer d); simpl; [|done]. by intros [? ->]%try_into_Some. Qed.
Lemma as_byte_array_length n b b' : as_byte_array n b = Some b' → length b' = n.
Proof. unfold as_byte_array. case_decide; [|done]. by intros [= <-]. Qed.

Lemma reserve_decode_wf dat d : reserve_decode dat = Ok d → reserve_wf d.
Proof.
  unfold reserve_decode. destruct (plutus_data_version_and_payload dat) as [v|]; [|done].
  destruct (v_version v =? 0); [|done]. destruct (decode_v0_reserve_datum _) as [d'|] eqn:Hd; [|done]. intros [= <-].
  unfold decode_v0_reserve_datum in Hd. apply bind_Some in Hd as (l & _ & Hd).
  apply bind_Some in Hd as (token & (x & _ & Ht)%bind_Some & Hd). apply bind_Some in Hd as (ml & _ & Hd).
  apply bind_Some in Hd as (h0 & _ & Hd). apply bind_Some in Hd as (h & Hh%as_byte_array_length & Hd).
  apply bind_Some in Hd as (i & (? & _ & Hi%as_u64_width)%bind_Some & Hd).
  apply bind_Some in Hd as (t & (? & _ & Htt%as_u64_width)%bind_Some & Hd). injection Hd as <-.
  unfold decode_token_id_datum in Ht. apply bind_Some in Ht as (? & _ & Ht). apply bind_Some in Ht as (? & _ & Ht).
  apply bind_Some in Ht as (name & _ & Ht). apply bind_Some in Ht as (pol & Hp%as_byte_array_length & Ht).
  case_bool_decide; [|done]. by injection Ht as <-.
Qed.

(** ** What the commands do *)

Inductive ReserveCommand :=
  | CreateReserve (parameters : ReserveParameters)
  | DepositReserve (amount : Z)
  | UpdateSettings (total_accrued_function_script_hash : bytes)
  | ReleaseFunds (amount : Z) (reference_utxo : UtxoId)
  | HandoverReserve
  | CreateUtxos (amount : Z)
  | BridgeDeposit (token : AssetId) (amount : Z) (pc_address : bytes)
  | BridgeDepositSpend (token : AssetId) (amount : Z) (pc_address : bytes).

(** The reserve as the amount of its token and its datum, if there is one. *)
Abbreviation reserve_state := (option (Z * ReserveDatum)).

Definition touches_reserve (c : ReserveCommand) : bool :=
  match c with CreateUtxos _ | BridgeDeposit _ _ _ | BridgeDepositSpend _ _ _ => false | _ => true end.

Definition reserve_step (c : ReserveCommand) (st : reserve_state) : reserve_state :=
  match c, st with
  | CreateReserve p, _ => Some (initial_deposit p, reserve_datum_of p)
  | DepositReserve amount, Some (x, d) => Some (x + amount, d)
  | UpdateSettings h, Some (x, d) =>
      Some (x, mkReserveDatum (reserve_token d) h (initial_incentive d) (token_total_amount_transferred d))
  | ReleaseFunds amount _, Some (x, d) =>
      Some (x - amount, mkReserveDatum (reserve_token d) (total_accrued_function_asset_name d) (initial_incentive d)
                          (token_total_amount_transferred d + amount))
  | HandoverReserve, _ => None
  | _, _ => st
  end.

(** What the circulating supply gains, and what its new output announces. *)
Definition supplied (auth_asset : AssetId) (c : ReserveCommand) (st : reserve_state) : option (AssetId * Z) :=
  match c, st with
  | ReleaseFunds amount _, Some (x, d) => Some (reserve_token d, amount)
  | HandoverReserve, Some (x, d) => Some (reserve_token d, x)
  | CreateUtxos amount, _ => Some (auth_asset, amount)
  | BridgeDeposit token amount _, _ | BridgeDepositSpend token amount _, _ => Some (token, amount)
  | _, _ => None
  end.
Definition supplied_amount (auth_asset : AssetId) (c : ReserveCommand) (st : reserve_state) (tok : AssetId) : Z :=
  match supplied auth_asset c st with Some (t, a) => if decide (t = tok) then a else 0 | None => 0 end.
Definition announced (c : ReserveCommand) (st : reserve_state) : option TokenTransferDatum :=
  match c, st with
  | ReleaseFunds _ _, _ => Some ReserveTransferV1
  | HandoverReserve, Some (x, _) => if 0 <? x then Some ReserveTransferV1 else None
  | BridgeDeposit _ _ pc_address, _ | BridgeDepositSpend _ _ pc_address, _ => Some (UserTransferV1 pc_address)
  | _, _ => None
  end.
(** A release drops the other assets of the token's policy. *)
Definition dropped (c : ReserveCommand) (st : reserve_state) (tok : AssetId) : Prop :=
  match c, st with
  | ReleaseFunds _ _, Some (_, d) =>
      ContractDatums.policy_id tok = ContractDatums.policy_id (reserve_token d) ∧ tok ≠ reserve_token d
  | _, _ => False
  end.

Section ReserveSpec.
Context `{!Csl, !CslLaws, !Scripts} {L : Type} `{!Ogmios L} {unspent : L → list OgmiosUtxo} `{!OgmiosLaws L unspent}.
Context (hash_order : ∀ A : Type, list A → list A).
Context (generate_ed25519 : result OffchainError PrivateKey) (save_wallet_file : result OffchainError unit)
  (delay : Z) (retries : nat) (ex_units_le : ExUnits → ExUnits → bool).
Implicit Types (s : L) (ctx : TransactionContext) (c : ReserveCommand) (st : reserve_state).

Definition run_reserve (genesis_utxo : UtxoId) c (payment_key : PrivateKey) : Off L (option MultiSigSmartContractResult) :=
  let hashed m := id ← m; mret (Some (TransactionSubmitted id)) in
  let multisig m := r ← m; mret (Some r) in
  match c with
  | CreateReserve p => multisig (create_reserve_utxo generate_ed25519 save_wallet_file delay retries p genesis_utxo payment_key)
  | DepositReserve amount =>
      multisig (deposit_to_reserve generate_ed25519 save_wallet_file delay retries amount genesis_utxo payment_key)
  | UpdateSettings h =>
      update_reserve_settings generate_ed25519 save_wallet_file delay retries genesis_utxo payment_key h
  | ReleaseFunds amount reference =>
      hashed (release_reserve_funds hash_order delay retries ex_units_le amount genesis_utxo reference payment_key)
  | HandoverReserve => multisig (handover_reserve generate_ed25519 save_wallet_file delay retries genesis_utxo payment_key)
  | CreateUtxos amount =>
      multisig (create_validator_utxos generate_ed25519 save_wallet_file delay retries genesis_utxo amount payment_key)
  | BridgeDeposit token amount pc_address =>
      hashed (deposit_without_ics_input delay retries genesis_utxo token amount pc_address payment_key)
  | BridgeDepositSpend token amount pc_address =>
      hashed (deposit_with_ics_spend delay retries genesis_utxo token amount pc_address payment_key)
  end.

Section Fixed.
Context (genesis : UtxoId) (n : Network) (rv rp iv ip : PlutusScript).
Abbreviation reserve_address := (plutus_address rv n).
Abbreviation ics_address := (plutus_address iv n).
Abbreviation reserves := (at_address (unspent:=unspent) reserve_address).
Abbreviation ics_utxos := (at_address (unspent:=unspent) ics_address).
Abbreviation auth := (empty_name_asset rp).

(** The output of the reserve is the only one with its authority token. *)
Definition reserve_holds s st : Prop :=
  match st with
  | None => ∀ u, u ∈ reserves s → get_asset_amount u auth ≠ 1
  | Some (x, d) =>
      0 ≤ x ∧ reserve_token d ≠ auth ∧
      ∃ u, (∀ v, v ∈ reserves s ∧ get_asset_amount v auth = 1 ↔ v = u) ∧
        reserve_settings auth u = Some (mkReserveUtxo u d) ∧ get_asset_amount u (reserve_token d) = x
  end.

Definition supply s (tok : AssetId) : Z := zsum ((λ u, get_asset_amount u tok) <$> ics_utxos s).

(** The reserve made its step and the supply grew as it should; outputs at the
    address of the reserve that are not the reserve stay. *)
Definition accounted c st id s s' : Prop :=
  reserve_holds s' (reserve_step c st) ∧
  (∀ u, get_asset_amount u auth ≠ 1 → u ∈ reserves s' ↔ u ∈ reserves s) ∧
  (∀ tok, ¬ dropped c st tok → supply s' tok = supply s tok + supplied_amount (empty_name_asset ip) c st tok) ∧
  (∀ tok, dropped c st tok →
     ∃ u, u ∈ ics_utxos s ∧ get_asset_amount u (empty_name_asset ip) = 1 ∧ supply s' tok = supply s tok - get_asset_amount u tok) ∧
  (∀ t, announced c st = Some t →
     ∃ u dat, u ∈ ics_utxos s' ∧ ou_transaction u = id ∧ get_plutus_data u = Some dat ∧ token_transfer_decode dat = Ok t).

(** The data of the command have their widths, a reserve is created once, and the
    amounts fit 64 bits. *)
Definition reserve_pre c st s : Prop :=
  match c with
  | CreateReserve p =>
      st = None ∧ reserve_wf (reserve_datum_of p) ∧ 0 ≤ initial_deposit p ∧ rp_token p ≠ auth
  | DepositReserve amount => ∀ x d, st = Some (x, d) → 0 < amount ∧ in_u 64 (x + amount)
  | UpdateSettings h => length h = 28%nat
  | ReleaseFunds amount _ =>
      0 < amount ∧ ∀ x d u, st = Some (x, d) → u ∈ ics_utxos s → amount + get_asset_amount u (reserve_token d) < u_bound 64
  | HandoverReserve => True
  | CreateUtxos amount | BridgeDeposit _ amount _ | BridgeDepositSpend _ amount _ => 0 < amount
  end.

(** *** What transactions pay *)

Definition reserve_out (st : Z * ReserveDatum) (o : TxOutput) : Prop :=
  txo_address o = reserve_address ∧ (0 ≤ st.1 ∧ reserve_token st.2 ≠ auth) ∧ asset_amount (txo_tokens o) auth = 1 ∧
  asset_amount (txo_tokens o) (reserve_token st.2) = st.1 ∧
  ∃ dat, txo_datum o = Some dat ∧ reserve_decode dat = Ok st.2.
Definition ics_out (f : (AssetId → Z) * option Datum) (o : TxOutput) : Prop :=
  txo_address o = ics_address ∧ txo_datum o = f.2 ∧ ∀ tok, asset_amount (txo_tokens o) tok = f.1 tok.

(** Outputs of the supply, then that of the reserve. *)
Definition pays (new : reserve_state) (fs : list ((AssetId → Z) * option Datum)) (outs : list TxOutput) : Prop :=
  ∃ os rs, outs = os ++ rs ∧ Forall2 ics_out fs os ∧ Forall2 reserve_out (option_list new) rs.

(** A plan spends the reserve if it touches it, and outputs of the supply of which
    it pays the amounts again. *)
Definition reserve_plan c st s (removed : list UtxoId) (fs : list ((AssetId → Z) * option Datum)) : Prop :=
  (∀ u, u ∈ reserves s → utxo_id_of u ∈ removed ↔ touches_reserve c = true ∧ get_asset_amount u auth = 1) ∧
  (∃ spent, (∀ u, u ∈ option_list spent → u ∈ ics_utxos s ∧ get_asset_amount u (empty_name_asset ip) = 1) ∧
     (∀ u, u ∈ ics_utxos s → utxo_id_of u ∈ removed ↔ spent = Some u) ∧
     (∀ tok, dropped c st tok → is_Some spent ∧ zsum ((λ f, f.1 tok) <$> fs) = 0) ∧
     ∀ tok, ¬ dropped c st tok →
       zsum ((λ f, f.1 tok) <$> fs)
       = zsum ((λ u, get_asset_amount u tok) <$> option_list spent) + supplied_amount (empty_name_asset ip) c st tok) ∧
  (∀ t, announced c st = Some t → ∃ f dat, (f, Some dat) ∈ fs ∧ token_transfer_decode dat = Ok t).
Definition new_reserve c st : reserve_state := if touches_reserve c then reserve_step c st else None.

Context (Haddresses : reserve_address ≠ ics_address).

(** The outputs on the ledger. *)
Definition reserve_utxo (st : Z * ReserveDatum) (u : OgmiosUtxo) : Prop :=
  ou_address u = reserve_address ∧ (0 ≤ st.1 ∧ reserve_token st.2 ≠ auth) ∧ get_asset_amount u auth = 1 ∧
  get_asset_amount u (reserve_token st.2) = st.1 ∧
  reserve_settings auth u = Some (mkReserveUtxo u st.2).
Definition ics_utxo id (f : (AssetId → Z) * option Datum) (u : OgmiosUtxo) : Prop :=
  ou_address u = ics_address ∧ ou_transaction u = id ∧ get_plutus_data u = f.2 ∧ ∀ tok, get_asset_amount u tok = f.1 tok.

Lemma output_datum id i o : get_plutus_data (output_utxo id i o) = txo_datum o.
Proof. unfold get_plutus_data. simpl. destruct (txo_datum o); simpl; [apply datum_bytes_roundtrip|done]. Qed.

Lemma Forall2_imap {A B C} (P : A → B → Prop) (P' : A → C → Prop) l k : ∀ g : nat → B → C,
  (∀ i a b, P a b → P' a (g i b)) → Forall2 P l k → Forall2 P' l (imap g k).
Proof.
  intros g Hg Hl. revert g Hg. induction Hl as [|a b l k Hab Hl IH]; intros g Hg; simpl; [constructor|].
  constructor; [by apply Hg|]. apply IH. intros i. apply (Hg (S i)).
Qed.

Lemma Forall2_range {A B} (P : A → B → Prop) (Q : B → Prop) l k :
  Forall2 P l k → (∀ a b, P a b → Q b) → Forall Q k.
Proof. intros Hl HQ. induction Hl; constructor; eauto. Qed.

Lemma paid_utxos new fs outs id :
  pays new fs outs →
  Forall2 (ics_utxo id) fs (filter (λ u, ou_address u = ics_address) (imap (output_utxo id) outs)) ∧
  Forall2 reserve_utxo (option_list new) (filter (λ u, ou_address u = reserve_address) (imap (output_utxo id) outs)).
Proof.
  intros (os & rs & -> & Hos & Hrs). rewrite imap_app, !filter_app.
  apply (Forall2_imap _ (ics_utxo id) _ _ (output_utxo id)) in Hos;
    [|intros i f o (Ha & Hd & Ht); split_and!; [done|done|by rewrite output_datum|done]].
  apply (Forall2_imap _ reserve_utxo _ _ (output_utxo id ∘ Nat.add (length os))) in Hrs.
  2: { intros i st o (Ha & Hst & Hauth & Htok & dat & Hd & Hdec). split; [done|]. split; [done|]. split; [done|]. split; [done|]. unfold reserve_settings.
       unfold get_asset_amount at 1. simpl. rewrite Hauth. simpl. rewrite output_datum, Hd. simpl. by rewrite Hdec. }
  rewrite (filter_all _ (imap (output_utxo id) os)), (filter_none _ (imap _ rs)), app_nil_r.
  - rewrite (filter_none _ (imap (output_utxo id) os)), (filter_all _ (imap _ rs)); [done| |].
    + eapply Forall2_range; [exact Hrs|]. by intros ? ? [? _].
    + eapply Forall2_range; [exact Hos|]. intros ? ? [-> _]. congruence.
  - eapply Forall2_range; [exact Hrs|]. intros ? ? [-> _]. congruence.
  - eapply Forall2_range; [exact Hos|]. by intros ? ? [? _].
Qed.

Lemma reserve_is_script : is_script_address reserve_address.
Proof. by eexists _, _. Qed.
Lemma ics_is_script : is_script_address ics_address.
Proof. by eexists _, _. Qed.

Lemma Forall2_zsum {A B} (P : A → B → Prop) (f : A → Z) (g : B → Z) l k :
  Forall2 P l k → (∀ a b, P a b → g b = f a) → zsum (g <$> k) = zsum (f <$> l).
Proof. intros Hl Hfg. induction Hl as [|a b l k Hab Hl IH]; [done|]. rewrite !fmap_cons. simpl. by rewrite IH, (Hfg a b). Qed.

(** Without the outputs that are spent, at most one. *)
Lemma zsum_without (g : OgmiosUtxo → Z) (removed : list UtxoId) (spent : option OgmiosUtxo) (l : list OgmiosUtxo) :
  NoDup l → (∀ u, u ∈ option_list spent → u ∈ l) → (∀ u, u ∈ l → utxo_id_of u ∈ removed ↔ spent = Some u) →
  zsum (g <$> filter (λ u, utxo_id_of u ∉ removed) l) = zsum (g <$> l) - zsum (g <$> option_list spent).
Proof.
  intros Hnd Hin Hrem. destruct spent as [u|]; simpl.
  - assert (l ≡ₚ u :: filter (λ u, utxo_id_of u ∉ removed) l) as Hl.
    { apply NoDup_Permutation; [done| |].
      - constructor; [|by apply NoDup_filter]. rewrite list_elem_of_filter. intros [Hno Hu]. by apply Hno, Hrem.
      - intros v. rewrite elem_of_cons, list_elem_of_filter. split; [|intros [->|[_ ?]]; [|done]].
        + intros Hv. destruct (decide (utxo_id_of v ∈ removed)) as [Hr|]; [|by right]. left. apply Hrem in Hr; [|done]. congruence.
        + apply Hin. by left. }
    rewrite Hl at 2. rewrite fmap_cons. simpl. lia.
  - rewrite filter_all; [simpl; lia|]. apply Forall_forall. intros v Hv Hr. by apply Hrem in Hr.
Qed.

Lemma at_address_NoDup a s : NoDup (at_address (unspent:=unspent) a s).
Proof. apply NoDup_filter. eapply NoDup_fmap_1, unspent_unique. Qed.

(** The supply after a transaction of a plan. *)
Lemma supply_after s s' id removed fs (new : reserve_state) tok :
  submitted (unspent:=unspent) removed (pays new fs) s s' id →
  ∀ spent, (∀ u, u ∈ option_list spent → u ∈ ics_utxos s) → (∀ u, u ∈ ics_utxos s → utxo_id_of u ∈ removed ↔ spent = Some u) →
  supply s' tok = supply s tok - zsum ((λ u, get_asset_amount u tok) <$> option_list spent) + zsum ((λ f, f.1 tok) <$> fs).
Proof.
  intros Hsub spent Hin Hrem. destruct (submitted_effect _ _ _ _ _ _ Hsub ics_is_script) as (outs & HQ & Heff).
  destruct (paid_utxos _ _ _ id HQ) as [Hi _]. unfold supply. rewrite Heff, fmap_app, zsum_app.
  rewrite (zsum_without _ removed spent) by (done || apply at_address_NoDup).
  by rewrite (Forall2_zsum _ (λ f, f.1 tok) _ _ _ Hi) by (intros ? ? (_ & _ & _ & ->); done).
Qed.

(** The reserve after it. *)
Lemma reserve_after c st s s' id removed fs :
  (touches_reserve c = false → reserve_step c st = st) →
  reserve_holds s st → submitted (unspent:=unspent) removed (pays (new_reserve c st) fs) s s' id →
  (∀ u, u ∈ reserves s → utxo_id_of u ∈ removed ↔ touches_reserve c = true ∧ get_asset_amount u auth = 1) →
  reserve_holds s' (reserve_step c st) ∧ (∀ u, get_asset_amount u auth ≠ 1 → u ∈ reserves s' ↔ u ∈ reserves s).
Proof.
  intros Hsame Hst Hsub Hrem. destruct (submitted_effect _ _ _ _ _ _ Hsub reserve_is_script) as (outs & HQ & Heff).
  destruct (paid_utxos _ _ _ id HQ) as [_ Hr]. unfold new_reserve in *. set (l := filter _ (imap _ outs)) in *.
  assert (∀ u, u ∈ reserves s' ↔ (u ∈ reserves s ∧ ¬ (touches_reserve c = true ∧ get_asset_amount u auth = 1)) ∨ u ∈ l) as Hu.
  { intros u. rewrite Heff, elem_of_app, list_elem_of_filter. split; (intros [[H2 H3]|]; [left|by right]).
    - split; [done|]. by rewrite <-Hrem.
    - split; [|done]. by rewrite Hrem. }
  destruct (touches_reserve c) eqn:Ht.
  - destruct (reserve_step c st) as [[x d]|]; simpl in Hr.
    + apply Forall2_cons_inv_l in Hr as (u & k & (Ha & [Hx Htok] & Hauth & Hamount & Hset) & Hk & ->). apply Forall2_nil_inv_l in Hk as ->.
      split; [split_and!; [done|done|]; exists u; split_and!; [|done|done]|].
      * intros v. rewrite Hu, list_elem_of_singleton. split; [intros [[[_ Hno]|] Hv]; [by destruct Hno|done]|].
        intros ->. split; [by right|done].
      * intros v Hv. rewrite Hu, list_elem_of_singleton. split; [intros [[]|]; [done|congruence]|]. intros. left. tauto.
    + apply Forall2_nil_inv_l in Hr as ->. split.
      * intros v. rewrite Hu. intros [[_ Hno]|[]%elem_of_nil] Hv. by apply Hno.
      * intros v Hv. rewrite Hu. split; [intros [[]|[]%elem_of_nil]; done|]. intros. left. tauto.
  - apply Forall2_nil_inv_l in Hr as ->. rewrite Hsame by done.
    assert (∀ u, u ∈ reserves s' ↔ u ∈ reserves s) as Hsm.
    { intros u. rewrite Hu. split; [intros [[]|[]%elem_of_nil]; done|]. intros. left. split; [done|]. by intros []. }
    split; [|intros; apply Hsm]. destruct st as [[x d]|]; simpl in *.
    + destruct Hst as (Hx & Htok & u & Huniq & Hrest). split_and!; [done|done|]. exists u. split; [|done].
      intros v. by rewrite Hsm.
    + intros v. rewrite Hsm. apply Hst.
Qed.

Lemma plan_accounted c st s s' id removed fs :
  reserve_holds s st → reserve_plan c st s removed fs →
  submitted (unspent:=unspent) removed (pays (new_reserve c st) fs) s s' id → accounted c st id s s'.
Proof.
  intros Hst (Hrem & (spent & Hspent & Hsrem & Hdrop & Hkeep) & Hann) Hsub.
  destruct (reserve_after c st s s' id removed fs) as [Hr Hother]; [by destruct c|done..|].
  assert (∀ tok, supply s' tok = supply s tok - zsum ((λ u, get_asset_amount u tok) <$> option_list spent) + zsum ((λ f, f.1 tok) <$> fs)) as Hsup.
  { intros tok. eapply supply_after; [done..| |done]. intros u Hu. by apply Hspent. }
  split_and!; [done|done| | |].
  - intros tok Hno. rewrite Hsup, (Hkeep tok Hno). lia.
  - intros tok Hd. destruct (Hdrop tok Hd) as [[u ->] Hz]. exists u. rewrite Hsup, Hz.
    destruct (Hspent u) as [Hu Hauth]; [by left|]. split_and!; [done|done|]. simpl. lia.
  - intros t Ht. destruct (Hann t Ht) as (f & dat & Hin & Hdec).
    destruct (submitted_effect _ _ _ _ _ _ Hsub ics_is_script) as (outs & HQ & Heff).
    destruct (paid_utxos _ _ _ id HQ) as [Hi _]. apply list_elem_of_lookup in Hin as [i Hi'].
    destruct (Forall2_lookup_l _ _ _ _ _ Hi Hi') as (u & Hui & _ & Hid & Hdat & _).
    exists u, dat. split_and!; [|done|done|done]. rewrite Heff. apply elem_of_app. right. by eapply list_elem_of_lookup_2.
Qed.

(** *** The transactions *)

Lemma makes_mono ctx removed (Q Q' : list TxOutput → Prop) tx :
  (∀ outs, Q outs → Q' outs) → makes ctx removed Q tx → makes ctx removed Q' tx.
Proof. intros HQ (outs & extra & change & Hq & Hrest). exists outs, extra, change. split; [by apply HQ|done]. Qed.

Lemma with_minimum_spec o ma ctx o' :
  with_minimum_ada_and_asset o ma ctx = Ok o' →
  txo_address o' = txo_address o ∧ txo_tokens o' = ma ∧ txo_datum o' = txo_datum o.
Proof. unfold with_minimum_ada_and_asset, with_minimum_ada. destruct (calculate_ada _ _); simpl; [|done]. by intros [= <-]. Qed.

Lemma pays_reserve new o : reserve_out new o → pays (Some new) [] [o].
Proof. intros Ho. exists [], [o]. split; [done|]. split; [constructor|]. constructor; [done|constructor]. Qed.
Lemma pays_ics f o : ics_out f o → pays None [f] [o].
Proof. intros Ho. exists [o], []. split; [done|]. split; [|constructor]. constructor; [done|constructor]. Qed.

Section Makers.
Context (Hnetwork : ∀ s n', shelley_network s = Ok n' → n' = n).
Context (rd : ReserveData) (Hrv : rd_validator rd = rv) (Hrp : rd_auth_policy rd = rp).
Context (icsd : ICSData) (Hiv : ics_validator icsd = iv) (Hip : ics_auth_policy icsd = ip).

Lemma create_maker p governance :
  reserve_wf (reserve_datum_of p) → 0 ≤ initial_deposit p → rp_token p ≠ auth →
  maker (L:=L) (create_reserve_tx p rd governance) [] (pays (Some (initial_deposit p, reserve_datum_of p)) []).
Proof.
  intros Hwf Hdep Hne costs ctx s0 tx Hs0%Hnetwork. unfold create_reserve_tx.
  destruct (get_builder_config ctx) as [config|]; simpl; [|done].
  destruct (get_mint costs _) as [units|]; simpl; [|done].
  destruct (reserve_validator_output p rd ctx) as [o|] eqn:Ho; simpl; [|done].
  destruct (with_governance governance costs _) as [b'|] eqn:Hg; simpl; [|done]. intros Htx%balance_and_strip_makes.
  apply with_governance_keeps in Hg as [Hi' Hout']. simpl in *.
  rewrite Hi', Hout' in Htx. eapply makes_mono; [|exact Htx]. intros outs ->. apply pays_reserve.
  unfold reserve_validator_output in Ho. rewrite Hrv, Hrp, Hs0 in Ho.
  destruct (with_asset_amount auth 1 ∅) as [ma|] eqn:Hma; simpl in Ho; [|done].
  destruct (with_asset_amount (rp_token p) _ ma) as [ma'|] eqn:Hma'; simpl in Ho; [|done].
  apply with_minimum_spec in Ho as (Ha & Ht & Hd). simpl in *.
  pose proof (with_asset_amount_spec _ _ _ _ Hma ltac:(lia) ltac:(lia)) as Hm1.
  assert (∀ tok, 0 ≤ asset_amount ma tok) as Hpos by (intros tok; rewrite Hm1, asset_amount_empty; case_decide; lia).
  pose proof (with_asset_amount_spec _ _ _ _ Hma' Hdep (λ _, Hpos _)) as Hm2.
  split_and!; simpl; [done|done|done| | |].
  - rewrite Ht, Hm2, decide_False by done. by rewrite Hm1, decide_True.
  - by rewrite Ht, Hm2, decide_True.
  - eexists. split; [exact Hd|]. by apply reserve_roundtrip.
Qed.

Lemma deposit_maker u dat d y governance :
  get_plutus_data u = Some dat → reserve_decode dat = Ok d → reserve_token d ≠ auth → 0 ≤ y →
  maker (L:=L) (deposit_to_reserve_tx (mkTokenAmount (reserve_token d) y) u rd governance) [utxo_id_of u] (pays (Some (y, d)) []).
Proof.
  intros Hdat Hdec Hne Hy costs ctx s0 tx Hs0%Hnetwork. unfold deposit_to_reserve_tx.
  destruct (get_builder_config ctx) as [config|]; simpl; [|done].
  destruct (validator_output _ u rd ctx) as [[o|]|] eqn:Ho; simpl; [|done|done].
  destruct (get_one_spend costs) as [units|]; simpl; [|done].
  unfold add_reserve_utxo_input_with_validator_script_reference. destruct (value_to_csl _ _); simpl; [|done].
  destruct (with_governance governance costs _) as [b'|] eqn:Hg; simpl; [|done]. intros Htx%balance_and_strip_makes.
  apply with_governance_keeps in Hg as [Hi' Hout']. simpl in *. rewrite Hi', Hout' in Htx. eapply makes_mono; [|exact Htx].
  intros outs ->. apply pays_reserve. unfold validator_output in Ho. rewrite Hdat, Hrv, Hrp, Hs0 in Ho. simpl in Ho.
  destruct (with_asset_amount (reserve_token d) y ∅) as [ma|] eqn:Hma; simpl in Ho; [|done].
  destruct (with_asset_amount auth 1 ma) as [ma'|] eqn:Hma'; simpl in Ho; [|done]. injection Ho as Ho.
  apply with_minimum_spec in Ho as (Ha & Ht & Hd). simpl in *.
  pose proof (with_asset_amount_spec _ _ _ _ Hma Hy (λ _, ltac:(by rewrite asset_amount_empty))) as Hm1.
  pose proof (with_asset_amount_spec _ _ _ _ Hma' ltac:(lia) ltac:(lia)) as Hm2.
  split_and!; simpl; [done|done|done| | |by eauto].
  - by rewrite Ht, Hm2, decide_True.
  - rewrite Ht, Hm2, decide_False by done. by rewrite Hm1, decide_True.
Qed.

Lemma value_to_csl_Ok lovelace tokens v : value_to_csl lovelace tokens = Ok v → v = (lovelace, tokens).
Proof. unfold value_to_csl. destruct (mapM _ _); simpl; [|done]. by intros [= <-]. Qed.

Lemma update_settings_maker u d x governance :
  reserve_wf d → reserve_token d ≠ auth → 0 ≤ x → get_asset_amount u auth = 1 → get_asset_amount u (reserve_token d) = x →
  maker (L:=L) (λ costs, update_reserve_settings_tx d rd icsd governance u costs) [utxo_id_of u] (pays (Some (x, d)) []).
Proof.
  intros Hwf Hne Hx Hauth Hamount costs ctx s0 tx Hs0%Hnetwork. unfold update_reserve_settings_tx.
  destruct (get_builder_config ctx) as [config|]; simpl; [|done].
  destruct (get_one_spend costs) as [units|]; simpl; [|done].
  unfold add_reserve_utxo_input_with_validator_script_reference.
  destruct (value_to_csl _ _) as [v|] eqn:Hv; simpl; [|done]. apply value_to_csl_Ok in Hv as ->.
  destruct (calculate_ada _ _) as [ada|]; simpl; [|done].
  destruct (with_governance governance costs _) as [b'|] eqn:Hg; simpl; [|done]. intros Htx%balance_and_strip_makes.
  apply with_governance_keeps in Hg as [Hi' Hout']. simpl in *. rewrite Hi', Hout' in Htx. eapply makes_mono; [|exact Htx].
  intros outs ->. apply pays_reserve. split_and!; simpl; [by rewrite Hrv, Hs0|done..|].
  eexists. split; [done|]. by apply reserve_roundtrip.
Qed.

Lemma handover_maker u token x governance :
  0 ≤ x →
  maker (L:=L) (handover_tx (mkTokenAmount token x) u rd icsd governance) [utxo_id_of u]
    (pays None [(λ tok, if decide (token = tok) then x else 0,
                 if 0 <? x then Some (token_transfer_to_plutus ReserveTransferV1) else None)]).
Proof.
  intros Hx costs ctx s0 tx Hs0%Hnetwork. unfold handover_tx.
  destruct (get_builder_config ctx) as [config|]; simpl; [|done].
  destruct (get_one_spend costs) as [units|]; simpl; [|done].
  destruct (with_governance governance costs _) as [b|] eqn:Hg; simpl; [|done].
  unfold add_reserve_utxo_input_with_validator_script_reference. destruct (value_to_csl _ _); simpl; [|done].
  destruct (get_mint costs _) as [units'|]; simpl; [|done].
  destruct (illiquid_supply_validator_output _ icsd ctx) as [o|] eqn:Ho; simpl; [|done]. intros Htx%balance_and_strip_makes.
  apply with_governance_keeps in Hg as [_ Hout']. simpl in *. rewrite Hout' in Htx. eapply makes_mono; [|exact Htx].
  intros outs ->. apply pays_ics. unfold illiquid_supply_validator_output in Ho. simpl in Ho. rewrite Hiv, Hs0 in Ho.
  destruct (Z.ltb_spec 0 x) as [Hpos|Hz].
  - unfold to_multi_asset in Ho. destruct (asset_name_new _) as [name|] eqn:Hn; simpl in Ho; [|done]. apply asset_name_new_Ok in Hn as ->.
    apply with_minimum_spec in Ho as (Ha & Ht & Hd). split_and!; [done|done|]. intros tok. rewrite Ht. apply asset_amount_singleton.
  - unfold with_minimum_ada in Ho. destruct (calculate_ada _ _); simpl in Ho; [|done]. injection Ho as <-.
    split_and!; [done|done|]. intros tok. simpl. rewrite asset_amount_empty. case_decide; lia.
Qed.

(** The amounts of the output of a release. *)
Definition released (d : ReserveDatum) (amount : Z) (iu : OgmiosUtxo) (tok : AssetId) : Z :=
  if decide (reserve_token d = tok) then amount + get_asset_amount iu (reserve_token d)
  else if decide (ContractDatums.policy_id (reserve_token d) = ContractDatums.policy_id tok) then 0
  else get_asset_amount iu tok.

Lemma released_output_spec d amount iu ctx o :
  network ctx = n → amount + get_asset_amount iu (reserve_token d) < u_bound 64 →
  released_output (reserve_token d) amount iu icsd ctx = Ret (Ok o) →
  ics_out (released d amount iu, Some (token_transfer_to_plutus ReserveTransferV1)) o.
Proof.
  intros Hn Hlt. unfold released_output. destruct (value_to_csl _ _) as [v|] eqn:Hv; simpl; [|done].
  apply value_to_csl_Ok in Hv as ->. unfold multiasset. simpl. destruct (decide _); simpl; [done|].
  destruct (asset_name_new _) as [name|] eqn:Hname; simpl; [|done]. apply asset_name_new_Ok in Hname as ->.
  intros [= (Ha & Ht & Hd)%with_minimum_spec]. split_and!; [by rewrite Ha, Hiv, <-Hn|done|]. intros tok.
  rewrite Ht, asset_amount_replace. unfold released, sat_add. simpl. repeat case_decide; try done. lia.
Qed.

Lemma left_output_spec ru d amount left ctx o :
  network ctx = n → ru_datum ru = d → reserve_wf d → in_u 64 (token_total_amount_transferred d + amount) →
  reserve_token d ≠ auth → get_asset_amount (ru_utxo ru) auth = 1 → 0 ≤ left →
  0 ≤ get_asset_amount (ru_utxo ru) (reserve_token d) → left_output ru amount left rd ctx = Ok o →
  reserve_out (left, mkReserveDatum (reserve_token d) (total_accrued_function_asset_name d) (initial_incentive d)
                       (token_total_amount_transferred d + amount)) o.
Proof.
  intros Hn <- Hwf Hcum Hne Hauth Hleft Hbal. unfold left_output, from_ogmios_utxo. destruct (mapM _ _); simpl; [|done].
  destruct (with_asset_amount _ left _) as [ma|] eqn:Hma; simpl; [|done]. intros (Ha & Ht & Hd)%with_minimum_spec. simpl in *.
  pose proof (with_asset_amount_spec _ _ _ _ Hma Hleft (λ _, Hbal)) as Hamounts.
  split_and!; simpl; [by rewrite Ha, Hrv, <-Hn|done|done| | |].
  - rewrite Ht, Hamounts, decide_False by done. done.
  - by rewrite Ht, Hamounts, decide_True.
  - eexists. split; [exact Hd|]. unfold after_withdrawal. rewrite wadd_exact by done. apply reserve_roundtrip.
    destruct Hwf as (? & ? & ? & ? & ?). by split_and!.
Qed.

Lemma release_makes ctx u d x iu ref amount slot costs tx :
  network ctx = n → reserve_wf d → reserve_token d ≠ auth → get_asset_amount u auth = 1 →
  get_asset_amount u (reserve_token d) = x → 0 < amount → amount + get_asset_amount iu (reserve_token d) < u_bound 64 →
  reserve_release_tx hash_order ex_units_le ctx rd icsd (mkReserveUtxo u d) iu ref amount slot costs = Ret (Ok tx) →
  makes ctx [utxo_id_of u; utxo_id_of iu]
    (pays (Some (x - amount, mkReserveDatum (reserve_token d) (total_accrued_function_asset_name d) (initial_incentive d)
                               (token_total_amount_transferred d + amount)))
       [(released d amount iu, Some (token_transfer_to_plutus ReserveTransferV1))]) tx.
Proof.
  intros Hn Hwf Hne Hauth <- Hpos Hlt. unfold reserve_release_tx. simpl.
  destruct (get_builder_config ctx) as [config|]; simpl; [|done].
  destruct (try_into 64 _) as [cum|] eqn:Hcum; simpl; [|done]. apply try_into_Some in Hcum as [Hcum ->].
  destruct (checked_sub _ amount) as [left|] eqn:Hleft; simpl; [|done]. apply checked_sub_Some in Hleft as [Hle ->].
  destruct (v_function_from_utxo ref) as [vf|]; simpl; [|done].
  destruct (get_mint costs vf) as [units|]; simpl; [|done].
  destruct (spend_costs _ _ costs) as [spends|]; simpl; [|done].
  unfold add_reserve_utxo_input_with_validator_script_reference, add_ics_utxo_input_with_validator_script_reference.
  destruct (value_to_csl (ou_lovelace u) _); simpl; [|done]. destruct (value_to_csl (ou_lovelace iu) _); simpl; [|done].
  destruct (released_output _ _ _ _ _) as [[o|]|] eqn:Ho; simpl; [|done|done].
  destruct (left_output _ _ _ _ _) as [o'|] eqn:Ho'; simpl; [|done]. intros Htx%balance_and_strip_makes. simpl in Htx.
  eapply makes_mono; [|exact Htx]. intros outs ->. exists [o], [o']. split; [done|].
  apply released_output_spec in Ho; [|done|done].
  apply (left_output_spec _ d) in Ho'; simpl; [|done..|lia|lia]. split; (constructor; [done|constructor]).
Qed.

(** *** The bridge *)

Definition only (token : AssetId) (amount : Z) (tok : AssetId) : Z := if decide (token = tok) then amount else 0.

Lemma deposit_only_makes ctx token amount pc_address tx :
  0 < amount → deposit_only_tx ics_address (mkTokenAmount token amount) pc_address ctx = Ok tx →
  makes ctx [] (pays None [(only token amount, Some (to_user_transfer_datum pc_address))]) tx.
Proof.
  intros Hpos. unfold deposit_only_tx. destruct (get_builder_config ctx) as [config|]; simpl; [|done].
  destruct (with_asset_amount token amount ∅) as [ma|] eqn:Hma; simpl; [|done].
  destruct (with_minimum_ada_and_asset _ ma ctx) as [o|] eqn:Ho; simpl; [|done]. intros Htx%balance_makes. simpl in Htx.
  eapply makes_mono; [|exact Htx]. intros outs ->. apply pays_ics. apply with_minimum_spec in Ho as (Ha & Ht & Hd).
  split_and!; [done|done|]. intros tok. rewrite Ht, (with_asset_amount_spec _ _ _ _ Hma) by lia. by rewrite asset_amount_empty.
Qed.

Lemma deposit_spend_makes ctx token amount pc_address iu costs tx :
  deposit_tx ics_address iu icsd (mkTokenAmount token amount) pc_address ctx costs = Ret (Ok tx) →
  makes ctx [utxo_id_of iu]
    (pays None [(λ tok, get_asset_amount iu tok + only token amount tok, Some (to_user_transfer_datum pc_address))]) tx.
Proof.
  unfold deposit_tx, deposited_tokens. destruct (get_builder_config ctx) as [config|]; simpl; [|done].
  destruct (value_to_csl _ _) as [v|] eqn:Hv; simpl; [|done]. apply value_to_csl_Ok in Hv as ->.
  unfold multiasset. simpl. destruct (decide _); simpl; [done|].
  destruct (asset_name_new _) as [name|] eqn:Hname; simpl; [|done]. apply asset_name_new_Ok in Hname as ->.
  destruct (try_into 64 _) as [total|] eqn:Htot; simpl; [|done]. apply try_into_Some in Htot as [_ ->].
  destruct (with_minimum_ada_and_asset _ _ ctx) as [o|] eqn:Ho; simpl; [|done].
  destruct (get_one_spend costs) as [units|]; simpl; [|done].
  unfold add_ics_utxo_input_with_validator_script_reference. destruct (value_to_csl _ _); simpl; [|done].
  intros [= Htx%balance_makes]. simpl in Htx. eapply makes_mono; [|exact Htx]. intros outs ->. apply pays_ics.
  apply with_minimum_spec in Ho as (Ha & Ht & Hd). split_and!; [done|done|]. intros tok. rewrite Ht, asset_amount_set. simpl.
  unfold only. destruct token as [pol nm]. simpl. case_decide as Htok; [by rewrite <-Htok|]. unfold get_asset_amount. lia.
Qed.

Lemma add_ics_outputs_spec ctx k : ∀ b b',
  network ctx = n → add_ics_outputs k icsd ctx b = Ok b' →
  b_inputs b' = b_inputs b ∧
  ∃ os, b_outputs b' = b_outputs b ++ os ∧ Forall2 ics_out (replicate k (only (empty_name_asset ip) 1, Some unit_plutus_data)) os.
Proof.
  induction k as [|k IH]; intros b b' Hn; simpl.
  { intros [= <-]. split; [done|]. exists []. by rewrite app_nil_r. }
  destruct (ics_validator_output icsd ctx) as [o|] eqn:Ho; simpl; [|done]. intros (Hi & os & Hos & Hall)%IH; [|done].
  simpl in *. split; [done|]. exists (o :: os). rewrite Hos, <-app_assoc. split; [done|]. constructor; [|done].
  unfold ics_validator_output in Ho. rewrite Hip in Ho. destruct (with_asset_amount _ 1 ∅) as [ma|] eqn:Hma; simpl in Ho; [|done].
  apply with_minimum_spec in Ho as (Ha & Ht & Hd). split_and!; [by rewrite Ha, Hiv, <-Hn|done|].
  intros tok. rewrite Ht, (with_asset_amount_spec _ _ _ _ Hma) by lia. by rewrite asset_amount_empty.
Qed.

Lemma create_utxos_maker amount governance :
  maker (L:=L) (create_utxos_tx amount icsd governance) []
    (pays None (replicate (Z.to_nat amount) (only (empty_name_asset ip) 1, Some unit_plutus_data))).
Proof.
  intros costs ctx s0 tx Hs0%Hnetwork. unfold create_utxos_tx.
  destruct (get_builder_config ctx) as [config|]; simpl; [|done].
  destruct (with_governance governance costs _) as [b|] eqn:Hg; simpl; [|done].
  destruct (get_mint costs _) as [units|]; simpl; [|done].
  destruct (add_ics_outputs _ _ _ _) as [b'|] eqn:Ho; simpl; [|done]. intros Htx%balance_and_strip_makes.
  apply with_governance_keeps in Hg as [Hi Hout]. apply add_ics_outputs_spec in Ho as (Hi' & os & Hos & Hall); [|done]. simpl in *.
  rewrite Hi', Hi, Hos, Hout in Htx. eapply makes_mono; [|exact Htx]. intros outs ->. exists os, []. rewrite app_nil_r. done.
Qed.
End Makers.

(** *** Reading *)

#[local] Instance find_script_read_only id vo ctx : ReadOnly (find_script_utxo (L:=L) id vo ctx).
Proof. unfold find_script_utxo. apply _. Qed.
#[local] Instance reserve_data_read_only ctx : ReadOnly (reserve_data_get (L:=L) genesis ctx).
Proof. unfold reserve_data_get. apply _. Qed.
#[local] Instance ics_data_read_only ctx : ReadOnly (ics_data_get (L:=L) genesis ctx).
Proof. unfold ics_data_get. apply _. Qed.
#[local] Instance reserve_utxo_read_only rd ctx : ReadOnly (get_reserve_utxo (L:=L) rd ctx).
Proof. unfold get_reserve_utxo. apply _. Qed.
#[local] Instance auth_utxos_read_only icsd ctx : ReadOnly (get_validator_utxos_with_auth_token (L:=L) icsd ctx).
Proof. unfold get_validator_utxos_with_auth_token. apply _. Qed.

Context (Hnetwork : ∀ s n', shelley_network s = Ok n' → n' = n).
Context (Hreserve : reserve_scripts genesis n = Ok (rv, rp)) (Hics : ics_scripts genesis n = Ok (iv, ip)).

Lemma context_read key s ctx :
  for_payment_key key s = Ret (s, Ok ctx) → context_ok (unspent:=unspent) s ctx ∧ network ctx = n.
Proof.
  intros (_ & Hctx & _)%(for_payment_key_Ok (unspent:=unspent)). split; [done|]. destruct Hctx as (_ & _ & s0 & Hs0). by apply Hnetwork in Hs0.
Qed.

Ltac read_in H := apply read_start in H as [(_ & ? & [=])|(? & _ & H)]; [|apply _..].
Lemma reserve_data_read ctx s rd :
  network ctx = n → reserve_data_get genesis ctx s = Ret (s, Ok rd) → rd_validator rd = rv ∧ rd_auth_policy rd = rp.
Proof.
  intros Hn Hrun. unfold reserve_data_get in Hrun. do 5 read_in Hrun. rewrite Hn, Hreserve in Hrun. by injection Hrun as <-.
Qed.
Lemma ics_data_read ctx s icsd :
  network ctx = n → ics_data_get genesis ctx s = Ret (s, Ok icsd) → ics_validator icsd = iv ∧ ics_auth_policy icsd = ip.
Proof.
  intros Hn Hrun. unfold ics_data_get in Hrun. do 5 read_in Hrun. rewrite Hn, Hics in Hrun. by injection Hrun as <-.
Qed.

Lemma reserve_settings_Some u ru :
  reserve_settings auth u = Some ru →
  get_asset_amount u auth = 1 ∧ ru_utxo ru = u ∧
  ∃ dat, get_plutus_data u = Some dat ∧ reserve_decode dat = Ok (ru_datum ru).
Proof.
  unfold reserve_settings. destruct (Z.eqb_spec (get_asset_amount u auth) 1); [|done].
  intros (dat & Hdat & Hd)%bind_Some. apply bind_Some in Hd as (d & Hd & [= <-]).
  split_and!; [done|done|]. exists dat. split; [done|]. simpl. destruct (reserve_decode dat); [|done]. by injection Hd as ->.
Qed.

(** The reserve that is read is the reserve of the state. *)
Lemma reserve_utxo_read ctx s rd ru st :
  network ctx = n → rd_validator rd = rv → rd_auth_policy rd = rp → reserve_holds s st →
  get_reserve_utxo rd ctx s = Ret (s, Ok ru) →
  ∃ x, st = Some (x, ru_datum ru) ∧ 0 ≤ x ∧ reserve_token (ru_datum ru) ≠ auth ∧
    (∀ v, v ∈ reserves s ∧ get_asset_amount v auth = 1 ↔ v = ru_utxo ru) ∧
    get_asset_amount (ru_utxo ru) (reserve_token (ru_datum ru)) = x ∧
    ∃ dat, get_plutus_data (ru_utxo ru) = Some dat ∧ reserve_decode dat = Ok (ru_datum ru).
Proof.
  intros Hn Hrv Hrp Hst Hrun. unfold get_reserve_utxo in Hrun. rewrite Hrv, Hrp, Hn in Hrun.
  apply query_utxos_start in Hrun as [(_ & ? & [=])|(utxos & Hp & [= Hrun])].
  destruct (head _) as [ru'|] eqn:Hh; [|done]. injection Hrun as ->.
  apply head_Some_elem_of, elem_of_filter_map in Hh as (u & Hu & Hset). rewrite Hp in Hu.
  pose proof (reserve_settings_Some _ _ Hset) as (Hauth & <- & dat & Hdat).
  destruct st as [[x d]|]; simpl in Hst; [|by destruct (Hst _ Hu)].
  destruct Hst as (Hx & Htok & v & Huniq & Hset' & Hamount). assert (ru_utxo ru = v) as Heq by (by apply Huniq).
  rewrite <-Heq in Hset', Hamount, Huniq. rewrite Hset in Hset'. injection Hset' as Hru.
  assert (ru_datum ru = d) as <- by (by rewrite Hru). exists x. split_and!; [done..|by eexists].
Qed.

Lemma auth_utxos_read ctx s icsd l :
  network ctx = n → ics_validator icsd = iv → ics_auth_policy icsd = ip →
  get_validator_utxos_with_auth_token icsd ctx s = Ret (s, Ok l) →
  ∀ u, u ∈ l → u ∈ ics_utxos s ∧ get_asset_amount u (empty_name_asset ip) = 1.
Proof.
  intros Hn Hiv Hip Hrun u Hu. unfold get_validator_utxos_with_auth_token in Hrun. rewrite Hiv, Hip, Hn in Hrun.
  apply query_utxos_start in Hrun as [(_ & ? & [=])|(utxos & Hp & [= <-])].
  apply list_elem_of_filter in Hu as [Hauth Hu]. by rewrite <-Hp.
Qed.

Lemma select_utxo_elem utxos ctx u : select_utxo_to_spend utxos ctx = Some u → u ∈ utxos.
Proof.
  revert u. induction utxos as [|v utxos IH]; intros u; simpl; [done|].
  destruct (select_utxo_to_spend utxos ctx) as [w|]; [|by intros [= <-]; left].
  destruct (list_le _ _); intros [= <-]; [by left|right; by apply IH].
Qed.

Lemma scripts_ics_address scripts : get_scripts_data genesis n = Ok scripts → ics_address_of scripts = ics_address.
Proof.
  unfold get_scripts_data. rewrite Hics, Hreserve. destruct (version_oracle_scripts _ _); simpl; [|done].
  destruct (plutus_script COMMITTEE_CANDIDATE_VALIDATOR _); simpl; [|done].
  destruct (d_parameter_scripts _ _); simpl; [|done]. destruct (permissioned_candidates_scripts _ _); simpl; [|done].
  destruct (governed_map_scripts _ _); simpl; [|done]. by intros [= <-].
Qed.

(** *** Plans *)

Lemma spent_ids a a' s (ou ou' : option OgmiosUtxo) v :
  a ≠ a' → (∀ u, ou = Some u → u ∈ at_address (unspent:=unspent) a s) →
  (∀ u, ou' = Some u → u ∈ at_address (unspent:=unspent) a' s) → v ∈ at_address (unspent:=unspent) a s →
  utxo_id_of v ∈ utxo_id_of <$> option_list ou ++ option_list ou' ↔ ou = Some v.
Proof.
  intros Hne Hou Hou' Hv. rewrite list_elem_of_fmap. split.
  - intros (u & Hid & [Hu|Hu]%elem_of_app).
    + destruct ou as [w|]; [|by apply elem_of_nil in Hu]. apply list_elem_of_singleton in Hu as ->.
      specialize (Hou w eq_refl). apply list_elem_of_filter in Hou as [_ Hw], Hv as [_ Hv]. f_equal. by apply (unspent_same_id s).
    + destruct ou' as [w|]; [|by apply elem_of_nil in Hu]. apply list_elem_of_singleton in Hu as ->.
      specialize (Hou' w eq_refl). apply list_elem_of_filter in Hou' as [Ha' Hw], Hv as [Ha Hv].
      destruct Hne. by rewrite <-Ha, <-Ha', (unspent_same_id s v w).
  - intros ->. exists v. split; [done|]. apply elem_of_app. left. by left.
Qed.

Lemma make_plan c st s (ru iu : option OgmiosUtxo) fs :
  (∀ u, ru = Some u ↔ touches_reserve c = true ∧ u ∈ reserves s ∧ get_asset_amount u auth = 1) →
  (∀ u, iu = Some u → u ∈ ics_utxos s ∧ get_asset_amount u (empty_name_asset ip) = 1) →
  (∀ tok, dropped c st tok → is_Some iu ∧ zsum ((λ f, f.1 tok) <$> fs) = 0) →
  (∀ tok, ¬ dropped c st tok → zsum ((λ f, f.1 tok) <$> fs)
     = zsum ((λ u, get_asset_amount u tok) <$> option_list iu) + supplied_amount (empty_name_asset ip) c st tok) →
  (∀ t, announced c st = Some t → ∃ f dat, (f, Some dat) ∈ fs ∧ token_transfer_decode dat = Ok t) →
  reserve_plan c st s (utxo_id_of <$> option_list ru ++ option_list iu) fs.
Proof.
  intros Hru Hiu Hdrop Hkeep Hann. split; [|split; [exists iu; split_and!; [| |done|done]|done]].
  - intros u Hu. rewrite (spent_ids reserve_address ics_address s); [rewrite Hru; tauto|done| | |done].
    + by intros v (_ & Hv & _)%Hru.
    + intros v Hv. by apply Hiu.
  - intros u Hu. destruct iu as [v|]; [|by apply elem_of_nil in Hu]. apply list_elem_of_singleton in Hu as ->. by apply Hiu.
  - intros u Hu. rewrite (Permutation_app_comm (option_list ru)).
    rewrite (spent_ids ics_address reserve_address s); [done|done| | |done].
    + intros v Hv. by apply Hiu.
    + by intros v (_ & Hv & _)%Hru.
Qed.

(** What a command does when it gets to a transaction. *)
Definition planned c st s s' (r : result OffchainError (option MultiSigSmartContractResult)) : Prop :=
  ∃ removed fs, reserve_plan c st s removed fs ∧ outcome_of (unspent:=unspent) removed (pays (new_reserve c st) fs) s s' r.

Lemma transfer_decode t : token_transfer_decode (token_transfer_to_plutus t) = Ok t.
Proof. by destruct t. Qed.

Lemma zsum_replicate k x : zsum (replicate k x) = Z.of_nat k * x.
Proof. induction k; simpl; lia. Qed.

(** The reserve of a state whose holder is known. *)
Lemma holder_spec c s u :
  touches_reserve c = true → (∀ v, v ∈ reserves s ∧ get_asset_amount v auth = 1 ↔ v = u) →
  ∀ v, Some u = Some v ↔ touches_reserve c = true ∧ v ∈ reserves s ∧ get_asset_amount v auth = 1.
Proof. intros Hc Hu v. rewrite Hu. naive_solver. Qed.

Lemma hashed_outcome removed Q s s' s1 (m : Off L bytes) r :
  (∀ s2 r2, m s = Ret (s2, r2) →
     match r2 with
     | Ok id => submitted (unspent:=unspent) removed Q s s2 id
     | Err _ => scripts_kept (unspent:=unspent) s s2 ∨ ∃ id, submitted (unspent:=unspent) removed Q s s2 id
     end) →
  s1 = s → (id ← m; mret (Some (TransactionSubmitted id))) s1 = Ret (s', r) → outcome_of (unspent:=unspent) removed Q s s' r.
Proof.
  intros Hm -> [(s2 & id & Hid & [= <- <-])|(e & He & ->)]%DS_bind_inv; [by apply Hm in Hid|by apply Hm in He].
Qed.

(** *** The commands *)

Ltac start H ctx Hctx Hn :=
  apply read_start_nested in H as [H|(ctx & Hctx & H)]; [by left| |apply _];
  apply context_read in Hctx as [Hctx Hn].
Ltac next H x Hx := apply read_start_nested in H as [H|(x & Hx & H)]; [by left| |apply _].

Lemma create_spec p key st s s' r :
  reserve_holds s st → reserve_pre (CreateReserve p) st s → run_reserve genesis (CreateReserve p) key s = Ret (s', r) →
  (s' = s ∧ ∃ e, r = Err e) ∨ planned (CreateReserve p) st s s' r.
Proof.
  intros Hst (-> & Hwf & Hdep & Hne) Hrun. unfold run_reserve, create_reserve_utxo in Hrun. start Hrun ctx Hctx Hn.
  next Hrun governance Hg. next Hrun rd Hrd. apply reserve_data_read in Hrd as [Hrv Hrp]; [|done].
  right. exists [], []. split.
  - apply (make_plan _ _ _ None None); [|done|done|done|done]. intros u. split; [done|]. intros (_ & Hu & Ha). by destruct (Hst u Hu).
  - eapply submit_outcome; [exact Hctx| |exact Hrun]. by apply create_maker.
Qed.

Lemma deposit_spec amount key st s s' r :
  reserve_holds s st → reserve_pre (DepositReserve amount) st s → run_reserve genesis (DepositReserve amount) key s = Ret (s', r) →
  (s' = s ∧ ∃ e, r = Err e) ∨ planned (DepositReserve amount) st s s' r.
Proof.
  intros Hst Hpre Hrun. unfold run_reserve, deposit_to_reserve in Hrun. start Hrun ctx Hctx Hn.
  next Hrun governance Hg. next Hrun rd Hrd. apply reserve_data_read in Hrd as [Hrv Hrp]; [|done]. next Hrun ru Hru.
  eapply reserve_utxo_read in Hru as (x & Heq & Hx & Hne & Huniq & Hamount & dat & Hdat & Hdec); [|done..]. subst st.
  destruct (Hpre x _ eq_refl) as [Hpos Hfit]. right. exists [utxo_id_of (ru_utxo ru)], []. split.
  - apply (make_plan _ _ _ (Some (ru_utxo ru)) None); [by apply holder_spec|done..].
  - eapply submit_outcome; [exact Hctx| |exact Hrun]. rewrite Hamount, wadd_exact by done. eapply deposit_maker; try done. lia.
Qed.

Lemma update_settings_spec h key st s s' r :
  reserve_holds s st → reserve_pre (UpdateSettings h) st s → run_reserve genesis (UpdateSettings h) key s = Ret (s', r) →
  (s' = s ∧ ∃ e, r = Err e) ∨ (s' = s ∧ r = Ok None ∧ reserve_step (UpdateSettings h) st = st) ∨
  planned (UpdateSettings h) st s s' r.
Proof.
  intros Hst Hpre Hrun. unfold run_reserve, update_reserve_settings in Hrun.
  apply read_start in Hrun as [Hrun|(ctx & Hctx & Hrun)]; [by left| |apply _]. apply context_read in Hctx as [Hctx Hn].
  apply read_start in Hrun as [Hrun|(governance & _ & Hrun)]; [by left| |apply _].
  apply read_start in Hrun as [Hrun|(rd & Hrd & Hrun)]; [by left| |apply _]. apply reserve_data_read in Hrd as [Hrv Hrp]; [|done].
  apply read_start in Hrun as [Hrun|(ru & Hru & Hrun)]; [by left| |apply _].
  eapply reserve_utxo_read in Hru as (x & Heq & Hx & Hne & Huniq & Hamount & dat & Hdat & Hdec); [|done..]. subst st.
  apply read_start in Hrun as [Hrun|(icsd & _ & Hrun)]; [by left| |apply _]. right. simpl in Hrun.
  case_decide as Hh; [left; injection Hrun as <- <-; subst; by destruct (ru_datum ru)|].
  right. exists [utxo_id_of (ru_utxo ru)], []. split.
  - apply (make_plan _ _ _ (Some (ru_utxo ru)) None); [by apply holder_spec|done..].
  - eapply submit_outcome; [exact Hctx| |exact Hrun]. apply reserve_decode_wf in Hdec as (? & ? & ? & ? & ?).
    apply update_settings_maker; try done. by apply (proj2 (Huniq _)).
Qed.

Lemma handover_spec key st s s' r :
  reserve_holds s st → run_reserve genesis HandoverReserve key s = Ret (s', r) →
  (s' = s ∧ ∃ e, r = Err e) ∨ planned HandoverReserve st s s' r.
Proof.
  intros Hst Hrun. unfold run_reserve, handover_reserve in Hrun. start Hrun ctx Hctx Hn.
  next Hrun governance Hg. next Hrun rd Hrd. apply reserve_data_read in Hrd as [Hrv Hrp]; [|done].
  next Hrun icsd Hi. apply ics_data_read in Hi as [Hiv Hip]; [|done]. next Hrun ru Hru.
  eapply reserve_utxo_read in Hru as (x & Heq & Hx & Hne & Huniq & Hamount & dat & Hdat & Hdec); [|done..]. subst st.
  right. eexists [utxo_id_of (ru_utxo ru)], _. split;
    [|eapply submit_outcome; [exact Hctx| |exact Hrun]; unfold get_amount_to_release; rewrite Hamount; by apply handover_maker].
  apply (make_plan _ _ _ (Some (ru_utxo ru)) None); [by apply holder_spec|done|done| |].
  - intros tok _. simpl. unfold supplied_amount. simpl. lia.
  - intros t Ht. simpl in Ht. destruct (0 <? x); [|done]. injection Ht as <-. eexists _, _. split; [by left|done].
Qed.

Lemma release_spec amount ref key st s s' r :
  reserve_holds s st → reserve_pre (ReleaseFunds amount ref) st s →
  run_reserve genesis (ReleaseFunds amount ref) key s = Ret (s', r) →
  (s' = s ∧ ∃ e, r = Err e) ∨ planned (ReleaseFunds amount ref) st s s' r.
Proof.
  intros Hst [Hpos Hfit] Hrun. unfold run_reserve, release_reserve_funds in Hrun. start Hrun ctx Hctx Hn.
  next Hrun slot Hslot. next Hrun rd Hrd. apply reserve_data_read in Hrd as [Hrv Hrp]; [|done]. next Hrun oref Horef. next Hrun uref Huref.
  next Hrun icsd Hi. apply ics_data_read in Hi as [Hiv Hip]; [|done]. next Hrun ru Hru.
  eapply reserve_utxo_read in Hru as (x & Heq & Hx & Hne & Huniq & Hamount & dat & Hdat & Hdec); [|done..]. subst st.
  next Hrun l Hl. pose proof (auth_utxos_read _ _ _ _ Hn Hiv Hip Hl) as Hauths. next Hrun iu Hiu. unfold ds_lift in Hiu.
  destruct (select_utxo_to_spend l ctx) as [iu'|] eqn:Hsel; [|done]. injection Hiu as ->.
  apply select_utxo_elem, Hauths in Hsel as [Hiu Hiauth]. apply reserve_decode_wf in Hdec as Hwf.
  destruct ru as [u d]. cbn [ru_utxo ru_datum] in *. right. eexists [utxo_id_of u; utxo_id_of iu], _. split; [|eapply hashed_outcome; [|done|exact Hrun]].
  2: { intros s2 r2. apply sign_submit_spec; [done|]. intros costs tx.
       apply release_makes; try done; [by apply (proj2 (Huniq _))|by eapply Hfit]. }
  apply (make_plan _ _ _ (Some u) (Some iu)); [by apply holder_spec|by intros ? [= <-]| | |].
  - intros tok [Hp Ht]. split; [by eexists|]. simpl. unfold released. rewrite decide_False, decide_True by done. lia.
  - intros tok Hno. simpl in *. unfold supplied_amount, released. simpl. case_decide as Ht; [subst; lia|].
    rewrite decide_False; [lia|]. intros Hp. by destruct Hno.
  - intros t [= <-]. eexists _, _. split; [by left|done].
Qed.

Lemma create_utxos_spec amount key st s s' r :
  reserve_pre (CreateUtxos amount) st s → run_reserve genesis (CreateUtxos amount) key s = Ret (s', r) →
  (s' = s ∧ ∃ e, r = Err e) ∨ planned (CreateUtxos amount) st s s' r.
Proof.
  intros Hpos Hrun. unfold run_reserve, create_validator_utxos in Hrun. start Hrun ctx Hctx Hn.
  next Hrun governance Hg. next Hrun icsd Hi. apply ics_data_read in Hi as [Hiv Hip]; [|done].
  right. eexists [], _. split; [|eapply submit_outcome; [exact Hctx| |exact Hrun]; by apply create_utxos_maker].
  apply (make_plan _ _ _ None None); [by split; [|intros [[=] _]]|done|done| |done].
  intros tok _. simpl in Hpos. rewrite fmap_replicate, zsum_replicate. unfold supplied_amount, only. simpl. case_decide; lia.
Qed.

Lemma bridge_deposit_spec token amount pc_address key st s s' r :
  reserve_pre (BridgeDeposit token amount pc_address) st s →
  run_reserve genesis (BridgeDeposit token amount pc_address) key s = Ret (s', r) →
  (s' = s ∧ ∃ e, r = Err e) ∨ planned (BridgeDeposit token amount pc_address) st s s' r.
Proof.
  intros Hpos Hrun. unfold run_reserve, deposit_without_ics_input, submit_deposit_only_tx in Hrun. start Hrun ctx Hctx Hn.
  next Hrun scripts Hsc. injection Hsc as Hsc. rewrite Hn in Hsc. rewrite (scripts_ics_address _ Hsc) in Hrun.
  next Hrun tx Htx. injection Htx as Htx. right.
  eexists [], _. split; [|eapply hashed_outcome; [|done|exact Hrun]; intros s2 r2; apply submit_tail_spec; [done|by eapply deposit_only_makes]].
  apply (make_plan _ _ _ None None); [by split; [|intros [[=] _]]|done|done| |].
  - intros tok _. simpl. unfold supplied_amount, only. simpl. lia.
  - intros t [= <-]. eexists _, _. split; [by left|apply transfer_decode].
Qed.

Lemma bridge_spend_spec token amount pc_address key st s s' r :
  run_reserve genesis (BridgeDepositSpend token amount pc_address) key s = Ret (s', r) →
  (s' = s ∧ ∃ e, r = Err e) ∨ planned (BridgeDepositSpend token amount pc_address) st s s' r.
Proof.
  intros Hrun. unfold run_reserve, deposit_with_ics_spend in Hrun. start Hrun ctx Hctx Hn.
  next Hrun scripts Hsc. injection Hsc as Hsc. rewrite Hn in Hsc. rewrite (scripts_ics_address _ Hsc) in Hrun.
  next Hrun icsd Hi. apply ics_data_read in Hi as [Hiv Hip]; [|done].
  next Hrun l Hl. pose proof (auth_utxos_read _ _ _ _ Hn Hiv Hip Hl) as Hauths. next Hrun iu Hiu. unfold ds_lift in Hiu.
  destruct (select_utxo_to_spend l ctx) as [iu'|] eqn:Hsel; [|done]. injection Hiu as ->.
  apply select_utxo_elem, Hauths in Hsel as [Hiu Hiauth]. right.
  eexists [utxo_id_of iu], _. split; [|eapply hashed_outcome; [|done|exact Hrun]; intros s2 r2; apply sign_submit_spec; [done|];
    intros costs tx; by apply deposit_spend_makes].
  apply (make_plan _ _ _ None (Some iu)); [by split; [|intros [[=] _]]|by intros ? [= <-]|done| |].
  - intros tok _. simpl. unfold supplied_amount, only. simpl. lia.
  - intros t [= <-]. eexists _, _. split; [by left|apply transfer_decode].
Qed.

Lemma run_reserve_spec c key st s s' r :
  reserve_holds s st → reserve_pre c st s → run_reserve genesis c key s = Ret (s', r) →
  (s' = s ∧ ∃ e, r = Err e) ∨ (s' = s ∧ r = Ok None ∧ reserve_step c st = st) ∨ planned c st s s' r.
Proof.
  intros Hst Hpre Hrun. destruct c.
  - apply create_spec with (st:=st) in Hrun; tauto.
  - apply deposit_spec with (st:=st) in Hrun; tauto.
  - by apply update_settings_spec with (st:=st) in Hrun.
  - apply release_spec with (st:=st) in Hrun; tauto.
  - apply handover_spec with (st:=st) in Hrun; tauto.
  - apply create_utxos_spec with (st:=st) in Hrun; tauto.
  - apply bridge_deposit_spec with (st:=st) in Hrun; tauto.
  - apply bridge_spend_spec with (st:=st) in Hrun; tauto.
Qed.

(** Plans depend on the addresses of the scripts only. *)
Lemma reserve_plan_kept c st s s' removed fs :
  scripts_kept (unspent:=unspent) s s' → reserve_plan c st s removed fs → reserve_plan c st s' removed fs.
Proof.
  intros Hk. unfold reserve_plan. by setoid_rewrite (Hk _ reserve_is_script); setoid_rewrite (Hk _ ics_is_script).
Qed.
Lemma reserve_holds_kept st s s' : scripts_kept (unspent:=unspent) s s' → reserve_holds s st → reserve_holds s' st.
Proof. intros Hk. destruct st as [[x d]|]; simpl; by setoid_rewrite (Hk _ reserve_is_script). Qed.
End Fixed.
End ReserveSpec.

(** ** Theorems *)

(** C27. The commands on the reserve and the bridge keep the accounts.  Creating
    the reserve, depositing, changing its settings, releasing and handing over
    change the amount of its token and its datum as [reserve_step] says, and what
    leaves the reserve arrives in the circulating supply: its total of the token
    grows by exactly the amount, as it does for deposits of users, and the totals
    of other assets are the same.  The one exception is a release, after which the
    other assets of the token's policy that were in the spent output are gone from
    the supply.  The new output of the supply announces the transfer to the nodes.
    This holds when the transaction is submitted, at once or later with the
    signatures of the authorities; a command that fails changes nothing or, when
    only the wait for confirmation failed, all of it. *)
Theorem reserve_accounting {CS : Csl} {CL : CslLaws} {SC : Scripts} {L : Type} {OG : Ogmios L}
    (unspent : L → list OgmiosUtxo) {OL : OgmiosLaws L unspent} hash_order generate_ed25519 save_wallet_file delay retries
    ex_units_le genesis (c : ReserveCommand) payment_key (s s' : L) r n rv rp iv ip st :
  shelley_network s = Ok n → reserve_scripts genesis n = Ok (rv, rp) → ics_scripts genesis n = Ok (iv, ip) →
  plutus_address rv n ≠ plutus_address iv n →
  reserve_holds (unspent:=unspent) n rv rp s st → reserve_pre (unspent:=unspent) n rp iv c st s →
  run_reserve hash_order generate_ed25519 save_wallet_file delay retries ex_units_le genesis c payment_key s = Ret (s', r) →
  match r with
  | Ok None => s' = s ∧ reserve_step c st = st
  | Ok (Some (TransactionSubmitted id)) => accounted (unspent:=unspent) n rv rp iv ip c st id s s'
  | Ok (Some (TransactionToSign data)) =>
      scripts_kept (unspent:=unspent) s s' ∧
      ∀ tx s'' id, body tx = body (ms_tx data) → submit_transaction tx s' = (s'', Ok id) →
        accounted (unspent:=unspent) n rv rp iv ip c st id s' s''
  | Err _ => scripts_kept (unspent:=unspent) s s' ∨ ∃ id, accounted (unspent:=unspent) n rv rp iv ip c st id s s'
  end.
Proof.
  intros Hn Hreserve Hics Hne Hst Hpre Hrun.
  assert (∀ s0 n', shelley_network s0 = Ok n' → n' = n) as Hnet by (intros s0 n' Hs0; by eapply one_network).
  destruct (run_reserve_spec (unspent:=unspent) hash_order generate_ed25519 save_wallet_file delay retries ex_units_le
    genesis n rv rp iv ip Hne Hnet Hreserve Hics c payment_key st s s' r Hst Hpre Hrun)
    as [(-> & e & ->)|[(-> & -> & Hsame)|(removed & fs & Hplan & Hout)]].
  - left. by apply scripts_kept_refl.
  - done.
  - pose proof (plan_accounted (unspent:=unspent) n rv rp iv ip Hne c st) as Hacc.
    destruct r as [[[id|data]|]|e]; simpl in Hout.
    + by eapply Hacc.
    + destruct Hout as [Hk Hs]. split; [done|]. intros tx s'' id Hb Hsub.
      eapply Hacc; [by eapply reserve_holds_kept|by eapply reserve_plan_kept|by eapply Hs].
    + done.
    + destruct Hout as [Hk|[id Hs]]; [by left|right; exists id; by eapply Hacc].
Qed.

(** ** Witness *)

#[local] Existing Instances example_csl example_csl_laws example_scripts example_ogmios example_ogmios_laws.

Definition example_rv : PlutusScript := mkPlutusScript [11; 0] PlutusV2.
Definition example_rp : PlutusScript := mkPlutusScript [10; 0] PlutusV2.
Definition example_iv : PlutusScript := mkPlutusScript [7; 0] PlutusV2.
Definition example_ip : PlutusScript := mkPlutusScript [6; 0; 0] PlutusV2.

Definition reward_token : AssetId := mkAssetId (replicate 28 5) [1].
Definition sibling_token : AssetId := mkAssetId (replicate 28 5) [2].
Definition example_reserve_datum : ReserveDatum := mkReserveDatum reward_token (replicate 28 9) 0 2.

(** The output of the version oracle for a script. *)
Definition stored_script (tx id : Z) : OgmiosUtxo :=
  mkOgmiosUtxo [tx] 0 (plutus_address (mkPlutusScript [13; 0] PlutusV2) Testnet) 1 ∅
    (Some (example_to_bytes (version_oracle_datum_to_plutus
       (mkVersionOracleDatum id (script_hash (mkPlutusScript [12; 0; 0] PlutusV2)))))) None.
Definition example_reserve_utxo : OgmiosUtxo :=
  mkOgmiosUtxo [20] 0 (plutus_address example_rv Testnet) 1
    {[script_hash example_rp := [([], 1)]; ContractDatums.policy_id reward_token := [([1], 10)]]}
    (Some (example_to_bytes (reserve_to_plutus example_reserve_datum))) None.
Definition example_ics_utxo : OgmiosUtxo :=
  mkOgmiosUtxo [21] 0 (plutus_address example_iv Testnet) 1
    {[script_hash example_ip := [([], 1)]; ContractDatums.policy_id reward_token := [([1], 5); ([2], 4)]]} None None.
Definition v_function_utxo : OgmiosUtxo :=
  mkOgmiosUtxo [19] 0 [107; 0; 9] 1 ∅ None (Some (mkOgmiosScript "plutus:v2" [77] None)).

Program Definition reserve_ledger : Ledger :=
  exist _ [stored_script 3 35; stored_script 4 36; stored_script 5 37; stored_script 6 38; example_reserve_utxo;
           example_ics_utxo; v_function_utxo; payment_utxo] _.
Next Obligation. by apply (bool_decide_unpack _). Qed.

Definition example_release (s : Ledger) : outcome (Ledger * result OffchainError (option MultiSigSmartContractResult)) :=
  run_reserve (λ _ l, l) (Ok 9) (Ok tt) 1 0 (λ a b, mem a <=? mem b) example_genesis
    (ReleaseFunds 3 (mkUtxoId [19] 0)) 7 s.

(** Three of ten tokens are released to a supply of five; the four tokens of the
    same policy that were there are gone. *)
Lemma reserve_accounting_witness :
  ∃ s', reserve_holds (unspent:=ledger_utxos) Testnet example_rv example_rp s'
          (Some (7, mkReserveDatum reward_token (replicate 28 9) 0 5)) ∧
    supply (unspent:=ledger_utxos) Testnet example_iv s' reward_token = 8 ∧
    supply (unspent:=ledger_utxos) Testnet example_iv reserve_ledger sibling_token = 4 ∧
    supply (unspent:=ledger_utxos) Testnet example_iv s' sibling_token = 0.
Proof.
  destruct (example_release reserve_ledger) as [[s' r]|] eqn:Hrun;
    [|exfalso; revert Hrun; vm_compute; discriminate].
  assert (∃ id, r = Ok (Some (TransactionSubmitted id))) as [id ->].
  { assert (match example_release reserve_ledger with
            | Ret (_, Ok (Some (TransactionSubmitted _))) => true | _ => false end = true) as Hok by (vm_compute; reflexivity).
    rewrite Hrun in Hok. destruct r as [[[id|]|]|]; [exists id; reflexivity|discriminate Hok..]. }
  destruct (reserve_accounting (CS:=example_csl) (SC:=example_scripts) (OG:=example_ogmios) ledger_utxos (λ _ l, l)
    (Ok 9) (Ok tt) 1 0 (λ a b, mem a <=? mem b) example_genesis (ReleaseFunds 3 (mkUtxoId [19] 0)) 7 reserve_ledger s'
    (Ok (Some (TransactionSubmitted id))) Testnet example_rv example_rp example_iv example_ip
    (Some (10, example_reserve_datum))) as (Hres & _ & Hsup & Hdrop & _).
  - reflexivity.
  - vm_compute. reflexivity.
  - vm_compute. reflexivity.
  - vm_compute. discriminate.
  - split; [lia|]. split; [vm_compute; discriminate|]. exists example_reserve_utxo. split.
    + intros v. change (v ∈ [example_reserve_utxo] ∧ get_asset_amount v (empty_name_asset example_rp) = 1 ↔ v = example_reserve_utxo).
      rewrite list_elem_of_singleton. split; [intros [Hv _]; exact Hv|]. intros ->. split; [reflexivity|vm_compute; reflexivity].
    + split; vm_compute; reflexivity.
  - split; [lia|]. intros x d u Hxd Hu. injection Hxd as <- <-. change (u ∈ [example_ics_utxo]) in Hu.
    apply list_elem_of_singleton in Hu as ->. vm_compute. reflexivity.
  - exact Hrun.
  - exists s'. split; [exact Hres|]. split; [|split; [vm_compute; reflexivity|]].
    + rewrite (Hsup reward_token) by (intros [_ Hno]; exact (Hno eq_refl)). vm_compute. reflexivity.
    + destruct (Hdrop sibling_token) as (u & Hu & _ & Heq); [split; [reflexivity|vm_compute; discriminate]|].
      change (u ∈ [example_ics_utxo]) in Hu. apply list_elem_of_singleton in Hu as ->. rewrite Heq. vm_compute. reflexivity.
Defined.
