(* ===== verification/CliIO.v ===== *)
(** * The commands' view of the machine

    Models [toolkit/partner-chains-cli/src/io.rs]: a wizard of the command line
    tool talks to the user, reads and writes files, runs other programs and calls
    Ogmios.  A call works on a [World]; it returns, ends the process, or panics.
    What the user, the operating system and the node answer are the operations of
    a class. *)

From S2P Require Import Prelude Domain ContractDatums TextFormats McHash OffchainTx.

(** The bytes of a text in the source. *)
Definition str (s : string) : bytes :=
  (λ a, Z.of_N (Ascii.N_of_ascii a)) <$> String.list_ascii_of_string s.

(** ** Errors

    [anyhow::Error]: a text, an error of a callee, or either under a context. *)
Inductive CliError :=
  | Msg (text : bytes)
  | InvalidNumber
  | InvalidHex
  | InvalidUtf8
  | IoError
  | ClientError (e : OffchainError)
  | WithContext (text : bytes) (e : CliError).

(** ** The world *)

Inductive ConfigFile := Chain | Resources.
#[global] Instance ConfigFile_eq_dec : EqDecision ConfigFile.
Proof. solve_decision. Defined.

(** What a command does that can be seen: lines printed, questions asked and
    answered, and programs run. *)
Inductive event :=
  | Printed (msg : bytes)
  | EPrinted (msg : bytes)
  | Asked (question : bytes) (default : option bytes) (answer : bytes)
  | Confirmed (question : bytes) (default answer : bool)
  | Selected (question : bytes) (options : list bytes) (index : nat)
  | Executed (cmd : bytes).

(** Files and directories by their paths.  Two paths are the same when they are
    the same text. *)
Record Disk := mkDisk { files : gmap bytes bytes; directories : gset bytes }.

(** [trace] is the latest event first; [ledger] is the state of the Cardano node. *)
Record World (L : Type) := mkWorld {
  disk : Disk;
  environ : gmap bytes bytes;
  ledger : L;
  trace : list event;
}.
Arguments mkWorld {L} disk environ ledger trace.
Arguments disk {L} w.
Arguments environ {L} w.
Arguments ledger {L} w.
Arguments trace {L} w.

Inductive ending (L A : Type) :=
  | Finished (w : World L) (a : A)
  | Exited (w : World L) (code : Z)
  | Panicked (w : World L).
Arguments Finished {L A} w a.
Arguments Exited {L A} w code.
Arguments Panicked {L A} w.

Definition IO (L A : Type) : Type := World L → ending L A.
#[global] Instance IO_ret L : MRet (IO L) := λ A a w, Finished w a.
#[global] Instance IO_bind L : MBind (IO L) := λ A B k m w,
  match m w with
  | Finished w a => k a w
  | Exited w code => Exited w code
  | Panicked w => Panicked w
  end.

(** The [?] operator in a function that returns an [anyhow::Result]. *)
Notation "x ←! m ; k" :=
  (mbind (M:=IO _) (λ r, match r with Ok x => k | Err e => mret (Err e) end) m)
  (at level 20, m at level 100, k at level 200, right associativity) : pc_scope.
Notation "m ;;! k" :=
  (mbind (M:=IO _) (λ r, match r with Ok _ => k | Err e => mret (Err e) end) m)
  (at level 100, k at level 200, right associativity) : pc_scope.

Definition io_panic {L A} : IO L A := λ w, Panicked w.
Definition exit {L A} (code : Z) : IO L A := λ w, Exited w code.
Definition io_expect {L A} (o : option A) : IO L A := match o with Some a => mret a | None => io_panic end.
(** A function that neither reads nor changes the world. *)
Definition io_outcome {L A} (o : outcome A) : IO L A := match o with Ret a => mret a | Panic => io_panic end.

(** ** Users, operating system and network *)

(** How a program that was started ends: [Exits] with the lines it writes to its
    error output, the status code, absent when a signal ended it, and its output. *)
Inductive child :=
  | NotSpawned
  | Unreadable (stderr : list bytes)
  | Exits (stderr : list bytes) (status : option Z) (stdout : bytes).

(** [InquireResult] *)
Inductive InquireResult (A : Type) :=
  | Answered (a : A)
  | OperationInterrupted
  | OperationCanceled
  | OtherInquireError.
Arguments Answered {A} a.
Arguments OperationInterrupted {A}.
Arguments OperationCanceled {A}.
Arguments OtherInquireError {A}.

(** The answers of the user depend on everything that happened so far.
    [execute] is [sh -c]. *)
Class Machine (L : Type) := {
  answer : list event → bytes → option bytes → InquireResult bytes;
  confirm : list event → bytes → bool → InquireResult bool;
  choose : list event → bytes → list bytes → InquireResult nat;
  execute : bytes → gmap bytes bytes → Disk → Disk * child;
  current_exe : result CliError bytes;
  writable : Disk → bytes → bool;
  readable : Disk → bytes → bool;
  dir_order : list bytes → list bytes;
  temp_dir : list event → option bytes;
  clock : list event → Z;
  reachable : bytes → Z → L → bool;
}.

Section IO.
Context {L : Type} `{!Machine L}.
Implicit Types (w : World L).

Definition log (e : event) : IO L unit := λ w,
  Finished (mkWorld (disk w) (environ w) (ledger w) (e :: trace w)) tt.
Definition set_disk (d : Disk) : IO L unit := λ w,
  Finished (mkWorld d (environ w) (ledger w) (trace w)) tt.
Definition set_ledger (s : L) : IO L unit := λ w,
  Finished (mkWorld (disk w) (environ w) s (trace w)) tt.
Definition get_world : IO L (World L) := λ w, Finished w w.

(** [println!] and [eprintln!] *)
Definition print (msg : bytes) : IO L unit := log (Printed msg).
Definition eprint (msg : bytes) : IO L unit := log (EPrinted msg).
Definition enewline : IO L unit := eprint [].

Definition handle_inquire_result {A} (result : InquireResult A) : IO L A :=
  match result with
  | Answered a => mret a
  | OperationInterrupted => eprint (str "Ctrl-C pressed. Exiting Wizard.");; exit 0
  | OperationCanceled => exit 0
  | OtherInquireError => io_panic
  end.

Definition prompt (question : bytes) (default : option bytes) : IO L bytes :=
  w ← get_world;
  result ← handle_inquire_result (answer (trace w) question default);
  log (Asked question default result);;
  mret result.

Definition prompt_yes_no (question : bytes) (default : bool) : IO L bool :=
  w ← get_world;
  result ← handle_inquire_result (confirm (trace w) question default);
  log (Confirmed question default result);;
  mret result.

(** [inquire::Select] refuses an empty list of options. *)
Definition prompt_multi_option (msg : bytes) (options : list bytes) : IO L nat :=
  if decide (options = []) then io_panic
  else
    w ← get_world;
    index ← handle_inquire_result (choose (trace w) msg options);
    log (Selected msg options index);;
    mret index.

Definition write_file (path content : bytes) : IO L unit :=
  w ← get_world;
  if writable (disk w) path then
    set_disk (mkDisk (<[path := content]> (files (disk w))) (directories (disk w)))
  else io_panic.

Definition read_file (path : bytes) : IO L (option bytes) :=
  w ← get_world;
  match files (disk w) !! path with
  | Some content =>
      if readable (disk w) path then
        content ← io_expect (from_utf8 content);
        mret (Some content)
      else mret None
  | None => mret None
  end.

(** [fs::metadata] also answers for directories. *)
Definition path_exists (d : Disk) (path : bytes) : bool :=
  bool_decide (is_Some (files d !! path)) || bool_decide (path ∈ directories d).
Definition file_exists (path : bytes) : IO L bool :=
  w ← get_world; mret (path_exists (disk w) path).

(** The name of [path] in the directory [dir]. *)
Definition slash : Z := 47.
Fixpoint strip_prefix (p s : bytes) : option bytes :=
  match p, s with
  | [], _ => Some s
  | x :: p, y :: s => if x =? y then strip_prefix p s else None
  | _, _ => None
  end.
Definition name_in (dir path : bytes) : option bytes :=
  name ← strip_prefix (dir ++ [slash]) path;
  if contains slash name || is_empty name then None else Some name.

(** [fs::read_dir] in the order of the operating system; names that are not
    Unicode are dropped. *)
Definition entries (d : Disk) (dir : bytes) : list bytes :=
  filter_map (name_in dir) (((map_to_list (files d)).*1) ++ elements (directories d)).
Definition list_directory (path : bytes) : IO L (result CliError (option (list bytes))) :=
  exists_ ← file_exists path;
  if exists_ : bool then
    w ← get_world;
    if bool_decide (path ∈ directories (disk w)) then
      mret (Ok (Some (filter_map from_utf8 (dir_order (entries (disk w) path)))))
    else mret (Err IoError)
  else mret (Ok None).

Definition delete_file (path : bytes) : IO L (result CliError unit) :=
  w ← get_world;
  match files (disk w) !! path with
  | Some _ =>
      if writable (disk w) path then
        set_disk (mkDisk (base.delete path (files (disk w))) (directories (disk w)));; mret (Ok tt)
      else mret (Err (WithContext (str "Failed to delete file: " ++ path) IoError))
  | None => mret (Err (WithContext (str "Failed to delete file: " ++ path) IoError))
  end.

Definition new_tmp_dir : IO L bytes :=
  w ← get_world;
  dir ← io_expect (temp_dir (trace w));
  set_disk (mkDisk (files (disk w)) ({[dir]} ∪ directories (disk w)));;
  mret dir.

Definition set_env_var (key value : bytes) : IO L unit := λ w,
  Finished (mkWorld (disk w) (<[key := value]> (environ w)) (ledger w) (trace w)) tt.

Definition current_timestamp : IO L Z := w ← get_world; mret (clock (trace w)).

Fixpoint pass_stderr (lines : list bytes) : IO L unit :=
  match lines with
  | [] => mret tt
  | line :: lines => eprint (str "command output: " ++ line);; pass_stderr lines
  end.

Definition run_command (cmd : bytes) : IO L (result CliError bytes) :=
  eprint (str "running external command: " ++ cmd);;
  w ← get_world;
  let '(d, c) := execute cmd (environ w) (disk w) in
  set_disk d;;
  log (Executed cmd);;
  match c with
  | NotSpawned => mret (Err (WithContext (str "Running executable failed: " ++ cmd) IoError))
  | Unreadable lines =>
      pass_stderr lines;;
      mret (Err (WithContext (str "Failed to read child process output stream") IoError))
  | Exits lines status stdout =>
      pass_stderr lines;;
      if bool_decide (status = Some 0) then mret (ok_or (from_utf8 stdout) InvalidUtf8)
      else
        eprint (str "Running executable failed with status " ++
          match status with Some code => str "exit status: " ++ display_uint code | None => str "signal" end);;
        (if bool_decide (status = Some 127) then eprint (str "Make sure all executables are in path") else mret tt);;
        mret (Err (Msg (str "Failed to run command")))
  end.

(** ** Configuration files *)

Definition config_path (env : gmap bytes bytes) (file : ConfigFile) : bytes :=
  match file with
  | Chain => default (str "pc-chain-config.json") (env !! str "PC_CHAIN_CONFIG_PATH")
  | Resources => default (str "pc-resources-config.json") (env !! str "PC_RESOURCES_CONFIG_PATH")
  end.
Definition config_file_path (file : ConfigFile) : IO L bytes :=
  w ← get_world; mret (config_path (environ w) file).
Definition chain_config_file_path : IO L bytes := config_file_path Chain.

Definition prompt_can_write (name path : bytes) : IO L bool :=
  exists_ ← file_exists path;
  if negb exists_ then mret true
  else prompt_yes_no (name ++ str " " ++ path ++ str " exists - overwrite it?") false.

(** A call of the off-chain code on the state of the node.  If it panics, the files
    are as they were. *)
Definition block_on {A} (m : Off L A) : IO L (result OffchainError A) := λ w,
  match m (ledger w) with
  | Ret (s, r) => Finished (mkWorld (disk w) (environ w) s (trace w)) r
  | Panic => Panicked w
  end.
End IO.

(** ** Reasoning about commands

    [hoare P m Q R]: from a world with [P], [m] returns with [Q] or ends the process
    in a world with [R]. *)
Section Hoare.
Context {L : Type}.
Implicit Types (w : World L) (P R I : World L → Prop).

Definition hoare {A} P (m : IO L A) (Q : A → World L → Prop) R : Prop :=
  ∀ w, P w → match m w with Finished w' a => Q a w' | Exited w' _ | Panicked w' => R w' end.

(** [m] keeps [I] however it ends, and its result satisfies [Φ]. *)
Definition keeps {A} I (m : IO L A) (Φ : A → Prop) : Prop := hoare I m (λ a w, I w ∧ Φ a) I.

Lemma hoare_ret {A} P (a : A) (Q : A → World L → Prop) R : (∀ w, P w → Q a w) → hoare P (mret a) Q R.
Proof. intros HQ w Hw. by apply HQ. Qed.
Lemma hoare_bind {A B} P (m : IO L A) (k : A → IO L B) (M : A → World L → Prop) (Q : B → World L → Prop) R :
  hoare P m M R → (∀ a, hoare (M a) (k a) Q R) → hoare P (m ≫= k) Q R.
Proof.
  intros Hm Hk w Hw. specialize (Hm w Hw). unfold mbind, IO_bind.
  destruct (m w) as [w1 a|w1 c|w1]; [by apply Hk|done..].
Qed.
Lemma hoare_conseq {A} P P' (m : IO L A) (Q Q' : A → World L → Prop) R R' :
  hoare P m Q R → (∀ w, P' w → P w) → (∀ a w, Q a w → Q' a w) → (∀ w, R w → R' w) → hoare P' m Q' R'.
Proof. intros Hm HP HQ HR w Hw. specialize (Hm w (HP w Hw)). destruct (m w); eauto. Qed.
Lemma hoare_get_world P R : hoare P get_world (λ a w, a = w ∧ P w) R.
Proof. intros w Hw. by split. Qed.

Lemma keeps_ret {A} I (a : A) (Φ : A → Prop) : Φ a → keeps I (mret a) Φ.
Proof. intros HΦ w Hw. by split. Qed.
Lemma keeps_bind {A B} I (m : IO L A) (k : A → IO L B) (Φ : A → Prop) (Ψ : B → Prop) :
  keeps I m Φ → (∀ a, Φ a → keeps I (k a) Ψ) → keeps I (m ≫= k) Ψ.
Proof.
  intros Hm Hk. eapply hoare_bind; [apply Hm|]. intros a w [Hw Ha]. by apply (Hk a Ha w).
Qed.
Lemma keeps_weaken {A} I (m : IO L A) (Φ Ψ : A → Prop) : keeps I m Φ → (∀ a, Φ a → Ψ a) → keeps I m Ψ.
Proof. intros Hm HΦ. eapply hoare_conseq; [apply Hm|naive_solver..]. Qed.
Lemma keeps_True {A} I (m : IO L A) (Φ : A → Prop) : keeps I m Φ → keeps I m (λ _, True).
Proof. intros Hm. by eapply keeps_weaken. Qed.

(** Steps of a run that returns *)
Lemma IO_bind_Finished {A B} (m : IO L A) (k : A → IO L B) w w1 a :
  m w = Finished w1 a → (m ≫= k) w = k a w1.
Proof. intros Hm. unfold mbind, IO_bind. by rewrite Hm. Qed.
Lemma IO_bind_inv {A B} (m : IO L A) (k : A → IO L B) w w' b :
  (m ≫= k) w = Finished w' b → ∃ w1 a, m w = Finished w1 a ∧ k a w1 = Finished w' b.
Proof. unfold mbind, IO_bind. destruct (m w) as [w1 a|w1 c|w1] eqn:Hm; naive_solver. Qed.
End Hoare.

(** ** What the operations change

    A property of the files, the environment and the node is kept by whatever only
    shows something to the user or asks for something. *)
Section Frame.
Context {L : Type} `{!Machine L}.
Implicit Types (w : World L).

Class Untraced (I : World L → Prop) : Prop :=
  untraced w w' : disk w = disk w' → environ w = environ w' → ledger w = ledger w' → I w → I w'.

Context (I : World L → Prop) `{!Untraced I}.

Lemma keeps_log e : keeps I (log e) (λ _, True).
Proof. intros w Hw. split; [|done]. by eapply untraced, Hw. Qed.
Lemma keeps_print msg : keeps I (print msg) (λ _, True).
Proof. apply keeps_log. Qed.
Lemma keeps_eprint msg : keeps I (eprint msg) (λ _, True).
Proof. apply keeps_log. Qed.
Lemma keeps_enewline : keeps I enewline (λ _, True).
Proof. apply keeps_eprint. Qed.
Lemma keeps_panic {A} (Φ : A → Prop) : keeps I io_panic Φ.
Proof. by intros w Hw. Qed.
Lemma keeps_exit {A} code (Φ : A → Prop) : keeps I (exit code) Φ.
Proof. by intros w Hw. Qed.
Lemma keeps_expect {A} (o : option A) : keeps I (io_expect o) (λ a, o = Some a).
Proof. destruct o; [by apply keeps_ret|apply keeps_panic]. Qed.
Lemma keeps_outcome {A} (o : outcome A) : keeps I (io_outcome o) (λ a, o = Ret a).
Proof. destruct o; [by apply keeps_ret|apply keeps_panic]. Qed.
Lemma keeps_get_world : keeps I get_world I.
Proof. by intros w Hw. Qed.
Lemma keeps_inquire {A} (r : InquireResult A) : keeps I (handle_inquire_result r) (λ a, r = Answered a).
Proof.
  destruct r; [by apply keeps_ret| |apply keeps_exit|apply keeps_panic].
  eapply keeps_bind; [apply keeps_eprint|intros; apply keeps_exit].
Qed.
Lemma keeps_prompt question default :
  keeps I (prompt question default) (λ a, ∃ t, answer t question default = Answered a).
Proof.
  eapply keeps_bind; [apply keeps_get_world|]. intros w _.
  eapply keeps_bind; [apply keeps_inquire|]. intros a Ha.
  eapply keeps_bind; [apply keeps_log|]. intros _ _. apply keeps_ret. by exists (trace w).
Qed.
Lemma keeps_prompt_yes_no question default : keeps I (prompt_yes_no question default) (λ _, True).
Proof.
  eapply keeps_bind; [apply keeps_get_world|]. intros w _.
  eapply keeps_bind; [apply keeps_inquire|]. intros a Ha.
  eapply keeps_bind; [apply keeps_log|]. intros _ _. by apply keeps_ret.
Qed.
Lemma keeps_prompt_multi_option msg options : keeps I (prompt_multi_option msg options) (λ _, True).
Proof.
  unfold prompt_multi_option. case_decide; [apply keeps_panic|].
  eapply keeps_bind; [apply keeps_get_world|]. intros w _.
  eapply keeps_bind; [apply keeps_inquire|]. intros a Ha.
  eapply keeps_bind; [apply keeps_log|]. intros _ _. by apply keeps_ret.
Qed.
Lemma keeps_read_file path : keeps I (read_file path) (λ _, True).
Proof.
  eapply keeps_bind; [apply keeps_get_world|]. intros w _. destruct (files (disk w) !! path); [|by apply keeps_ret].
  destruct (readable _ _); [|by apply keeps_ret].
  eapply keeps_bind; [apply keeps_expect|]. intros c Hc. by apply keeps_ret.
Qed.
Lemma keeps_file_exists path : keeps I (file_exists path) (λ _, True).
Proof. eapply keeps_bind; [apply keeps_get_world|]. intros w _. by apply keeps_ret. Qed.
Lemma keeps_list_directory path : keeps I (list_directory path) (λ _, True).
Proof.
  eapply keeps_bind; [apply keeps_file_exists|]. intros [] _; [|by apply keeps_ret].
  eapply keeps_bind; [apply keeps_get_world|]. intros w _. case_bool_decide; by apply keeps_ret.
Qed.
Lemma keeps_current_timestamp : keeps I current_timestamp (λ _, True).
Proof. eapply keeps_bind; [apply keeps_get_world|]. intros w _. by apply keeps_ret. Qed.
Lemma keeps_config_file_path file : keeps I (config_file_path file) (λ _, True).
Proof. eapply keeps_bind; [apply keeps_get_world|]. intros w _. by apply keeps_ret. Qed.
Lemma keeps_prompt_can_write name path : keeps I (prompt_can_write name path) (λ _, True).
Proof.
  eapply keeps_bind; [apply keeps_file_exists|]. intros [] _; [apply keeps_prompt_yes_no|by apply keeps_ret].
Qed.
Lemma keeps_pass_stderr lines : keeps I (pass_stderr lines) (λ _, True).
Proof.
  induction lines; [by apply keeps_ret|]. eapply keeps_bind; [apply keeps_eprint|]. by intros _ _.
Qed.
End Frame.
