(* ===== verification/CliJson.v ===== *)
(** * JSON values of the command line tools

    What [toolkit/partner-chains-cli] uses of [serde_json]: values, access by
    field, and the [Serialize] and [Deserialize] implementations of the types that
    the configuration files hold.  The text of a value belongs to [serde_json]. *)

From S2P Require Import Prelude Domain ContractDatums TextFormats CliIO.

(** ** Values

    [serde_json::Value]; a [f64] is given by its bits. *)
Inductive number := PosInt (n : Z) | NegInt (n : Z) | Float (bits : Z).

Inductive json :=
  | JNull
  | JBool (b : bool)
  | JNumber (n : number)
  | JString (s : bytes)
  | JArray (l : list json)
  | JObject (m : gmap bytes json).

(** [Value::get] and [Value::is_object] *)
Definition get (field : bytes) (v : json) : option json :=
  match v with JObject m => m !! field | _ => None end.
Definition is_object (v : json) : bool := match v with JObject _ => true | _ => false end.

(** ** The text of a value and numbers with a fraction *)

Class SerdeJson := {
  json_from_str : bytes → option json;
  to_string_pretty : json → bytes;
  to_string_compact : json → bytes;
  f64_of_int : Z → Z;
  f64_is_finite : Z → bool;
  f64_display : Z → bytes;
  (** numbers whose text is read as the same number; [serde_json] promises it for
      all of them only with the feature [float_roundtrip], which is off *)
  f64_exact : Z → Prop;
}.

(** Values of which [serde_json] reads back the text it writes. *)
Inductive json_ok `{!SerdeJson} : json → Prop :=
  | null_ok : json_ok JNull
  | bool_ok b : json_ok (JBool b)
  | pos_ok n : in_u 64 n → json_ok (JNumber (PosInt n))
  | neg_ok n : - u_bound 63 ≤ n < 0 → json_ok (JNumber (NegInt n))
  | float_ok b : f64_exact b → json_ok (JNumber (Float b))
  | string_ok s : from_utf8 s = Some s → json_ok (JString s)
  | array_ok l : Forall json_ok l → json_ok (JArray l)
  | object_ok m : (∀ k v, m !! k = Some v → from_utf8 k = Some k ∧ json_ok v) → json_ok (JObject m).

Class SerdeJsonLaws `{!SerdeJson} : Prop := {
  json_from_str_pretty v : json_ok v → json_from_str (to_string_pretty v) = Some v;
  json_pretty_utf8 v : json_ok v → from_utf8 (to_string_pretty v) = Some (to_string_pretty v);
}.

(** ** Implementations of [Serialize] and [Deserialize]

    A serializer can panic: that of addresses expects Unicode. *)
Record Serde (T : Type) := mkSerde {
  to_value : T → outcome json;
  from_value : json → option T;
}.
Arguments mkSerde {T} to_value from_value.
Arguments to_value {T} s v.
Arguments from_value {T} s v.

(** [FromStr] and [Display] *)
Record Text (T : Type) := mkText {
  text_parse : bytes → result CliError T;
  text_show : T → bytes;
}.
Arguments mkText {T} text_parse text_show.
Arguments text_parse {T} t s.
Arguments text_show {T} t v.

(** The values of the fields of a derived struct: by name in an object, by position
    in an array that is not too long. *)
Definition struct_fields (fields : list bytes) (v : json) : option (list (option json)) :=
  match v with
  | JObject m => Some ((λ k, m !! k) <$> fields)
  | JArray l => if decide (length l ≤ length fields)%nat then Some (imap (λ i _, l !! i) fields) else None
  | _ => None
  end.

Section Serde.
Context `{!Hex, !SerdeJson}.

(** [String] *)
Definition serde_string : Serde bytes := mkSerde
  (λ s, Ret (JString s))
  (λ v, match v with JString s => Some s | _ => None end).

(** [u8], [u16], [u32], [u64] *)
Definition serde_uint (w : Z) : Serde Z := mkSerde
  (λ n, Ret (JNumber (PosInt n)))
  (λ v, match v with JNumber (PosInt n) => try_into w n | _ => None end).
Definition text_uint (w : Z) : Text Z := mkText (λ s, ok_or (uint_from_str w s) InvalidNumber) display_uint.

(** [f64]: what is not a number is written as null. *)
Definition serde_f64 : Serde Z := mkSerde
  (λ b, Ret (if f64_is_finite b then JNumber (Float b) else JNull))
  (λ v, match v with
        | JNumber (Float b) => Some b
        | JNumber (PosInt n) | JNumber (NegInt n) => Some (f64_of_int n)
        | _ => None
        end).

(** [Vec] *)
Definition serde_vec {T} (s : Serde T) : Serde (list T) := mkSerde
  (λ l, JArray <$> mapM (to_value s) l)
  (λ v, match v with JArray l => mapM (from_value s) l | _ => None end).

(** Types with [byte_string(hex_serialize, hex_deserialize)] *)
Definition serde_hex (decode : bytes → result DecodeHexError bytes) : Serde bytes := mkSerde
  (λ b, Ret (JString (to_hex b)))
  (λ v, s ← from_value serde_string v; ok (decode s)).
Definition text_hex (decode : bytes → result DecodeHexError bytes) : Text bytes := mkText
  (λ s, map_err (λ _, InvalidHex) (decode s)) to_hex_string.

Definition MAINCHAIN_KEY_HASH_LEN : nat := 28.
Definition serde_policy_id : Serde bytes := serde_hex (decode_hex_array POLICY_ID_LEN).
Definition serde_asset_name : Serde bytes := serde_hex (decode_hex_bounded MAX_ASSET_NAME_LEN).
Definition serde_key_hash : Serde bytes := serde_hex (decode_hex_array MAINCHAIN_KEY_HASH_LEN).
Definition serde_byte_string : Serde bytes := serde_hex decode_hex_vec.

Definition serde_utxo_id : Serde UtxoId := mkSerde
  (λ u, Ret (JString (utxo_id_display u)))
  (λ v, s ← from_value serde_string v; ok (utxo_id_from_str s)).

Definition serde_address : Serde bytes := mkSerde
  (λ address, JString <$> address_to_str address)
  (λ v, s ← from_value serde_string v; ok (address_deserialize s)).

(** [BTreeMap<String, ByteString>]: an entry that cannot be read is an error. *)
Definition serde_byte_map : Serde (gmap bytes bytes) := mkSerde
  (λ m, Ret (JObject ((λ b, JString (to_hex b)) <$> m)))
  (λ v, match v with
        | JObject m =>
            if bool_decide (map_Forall (λ _ v, is_Some (from_value serde_byte_string v)) m)
            then Some (omap (from_value serde_byte_string) m) else None
        | _ => None
        end).
End Serde.

(** ** Values that are read back as they were written *)

Definition serde_ok `{!SerdeJson} {T} (s : Serde T) (v : T) : Prop :=
  ∃ j, to_value s v = Ret j ∧ json_ok j ∧ from_value s j = Some v.

Section SerdeLemmas.
Context `{!Hex, !SerdeJson}.

Lemma serde_string_ok b : from_utf8 b = Some b → serde_ok serde_string b.
Proof. intros Hb. exists (JString b). split_and!; [done|by constructor|done]. Qed.

Lemma serde_uint_ok w n : w ≤ 64 → in_u w n → serde_ok (serde_uint w) n.
Proof.
  intros Hw Hn. exists (JNumber (PosInt n)). split_and!; [done| |by apply try_into_Some].
  constructor. destruct Hn as [? Hlt]. split; [done|].
  assert (u_bound w ≤ u_bound 64) by (by apply Z.pow_le_mono_r). lia.
Qed.

Lemma serde_f64_ok b : f64_is_finite b = true → f64_exact b → serde_ok serde_f64 b.
Proof. intros Hb Hx. exists (JNumber (Float b)). split_and!; [simpl; by rewrite Hb|by constructor|done]. Qed.

Lemma serde_vec_ok {T} (s : Serde T) l : Forall (serde_ok s) l → serde_ok (serde_vec s) l.
Proof.
  induction 1 as [|x l (j & Hto & Hj & Hfrom) Hl (js & Hto' & Hjs & Hfrom')]; [by exists (JArray []); repeat constructor|].
  simpl in Hto'. destruct (mapM (to_value s) l) as [vs|] eqn:Hvs; simplify_eq/=.
  exists (JArray (j :: vs)). split_and!.
  - simpl. by rewrite Hto; simpl; rewrite Hvs.
  - inversion Hjs; subst. by repeat constructor.
  - apply mapM_Some in Hfrom'. apply mapM_Some. by constructor.
Qed.
End SerdeLemmas.

(** ** Types written as hexadecimal text *)

Section HexLemmas.
Context `{!Hex, !HexLaws, !SerdeJson}.

(** ASCII text is Unicode. *)
Lemma ascii_utf8 b : Forall (λ x, 0 ≤ x < 128) b → from_utf8 b = Some b.
Proof.
  intros Hb. unfold from_utf8. cut (is_utf8 (length b) b = true); [by intros ->|].
  induction Hb as [|x b Hx Hb IH]; [done|]. simpl.
  by replace (x <=? 127) with true by lia.
Qed.
Lemma hex_digit_ascii x : hex_digit x → 0 ≤ x < 128.
Proof. unfold hex_digit. lia. Qed.
Lemma to_hex_utf8 b : Forall is_byte b → from_utf8 (to_hex b) = Some (to_hex b).
Proof.
  intros Hb. rewrite to_hex_eq by done. apply ascii_utf8. repeat constructor; [lia..|].
  eapply Forall_impl; [by apply hex_encode_digits|apply hex_digit_ascii].
Qed.
Lemma from_hex_to_hex b : Forall is_byte b → from_hex (to_hex b) = Some b.
Proof. intros Hb. rewrite to_hex_eq by done. by apply from_hex_prefixed. Qed.

Lemma serde_hex_ok decode b :
  Forall is_byte b → decode (to_hex b) = Ok b → serde_ok (serde_hex decode) b.
Proof.
  intros Hb Hd. exists (JString (to_hex b)). split_and!; [done|by constructor; apply to_hex_utf8|].
  simpl. by rewrite Hd.
Qed.
Lemma serde_hex_array_ok n b :
  Forall is_byte b → length b = n → serde_ok (serde_hex (decode_hex_array n)) b.
Proof.
  intros Hb Hn. apply serde_hex_ok; [done|]. unfold decode_hex_array.
  rewrite from_hex_to_hex by done. simpl. by rewrite decide_True.
Qed.
Lemma serde_asset_name_ok b :
  Forall is_byte b → (length b ≤ MAX_ASSET_NAME_LEN)%nat → serde_ok serde_asset_name b.
Proof.
  intros Hb Hn. apply serde_hex_ok; [done|]. unfold decode_hex_bounded.
  rewrite from_hex_to_hex by done. simpl. by rewrite decide_True.
Qed.

Lemma serde_utxo_id_ok u : utxo_id_wf u → utxo_index u < 2 ^ 15 → serde_ok serde_utxo_id u.
Proof.
  intros Hu Hi. exists (JString (utxo_id_display u)). split_and!; [done| |].
  - constructor. apply ascii_utf8. unfold utxo_id_display. apply Forall_app. split.
    + rewrite hex_display_eq by apply Hu. eapply Forall_impl; [apply hex_encode_digits, Hu|apply hex_digit_ascii].
    + constructor; [lia|]. eapply Forall_impl; [apply digits_chars; [apply Hu|constructor]|simpl; lia].
  - simpl. rewrite utxo_id_from_str_display by done. by rewrite (proj2 (Z.ltb_lt _ _) Hi).
Qed.

(** An address is not hexadecimal text: the text of an address starts with [addr]. *)
Lemma serde_address_ok a :
  from_utf8 a = Some a → from_hex a = None → (length a ≤ MAX_MAINCHAIN_ADDRESS_BYTES)%nat →
  serde_ok serde_address a.
Proof.
  intros Hu Hh Hl. exists (JString a). split_and!; [|by constructor|].
  - simpl. unfold address_to_str. by rewrite Hu.
  - simpl. unfold address_deserialize. rewrite Hh. simpl. by rewrite decide_True.
Qed.

Lemma serde_byte_map_ok m :
  (∀ k b, m !! k = Some b → from_utf8 k = Some k ∧ Forall is_byte b) → serde_ok serde_byte_map m.
Proof.
  intros Hm. exists (JObject ((λ b, JString (to_hex b)) <$> m)).
  assert (∀ b, Forall is_byte b → from_value serde_byte_string (JString (to_hex b)) = Some b) as Hread.
  { intros b Hb. simpl. unfold decode_hex_vec. by rewrite from_hex_to_hex. }
  split_and!; [done| |].
  - constructor. intros k v. rewrite lookup_fmap_Some. intros (b & <- & Hb).
    destruct (Hm k b Hb). split; [done|]. constructor. by apply to_hex_utf8.
  - simpl from_value. rewrite bool_decide_eq_true_2; [f_equal; apply map_eq; intros k|].
    + rewrite lookup_omap, lookup_fmap. destruct (m !! k) as [b|] eqn:Hk; [|done].
      simpl. eapply Hread, Hm, Hk.
    + intros k v. rewrite lookup_fmap_Some. intros (b & <- & Hb). exists b. eapply Hread, Hm, Hb.
Qed.
End HexLemmas.
