(* ===== verification/CliStore.v ===== *)
(** * The configuration files as a store of typed fields

    Lemmas and theorems on [CliConfig]: saving a field is an update of that field
    alone, and what is saved is what every wizard reads later.  The laws of the
    machine are those of a file system whose permissions do not change, and of a
    terminal that returns text. *)

From S2P Require Import Prelude Domain ContractDatums TextFormats MainchainEpoch McHash OffchainTx CliIO CliJson CliConfig.

Definition write_disk (d : Disk) (path content : bytes) : Disk :=
  mkDisk (<[path := content]> (files d)) (directories d).

Class MachineLaws (L : Type) `{!Machine L} : Prop := {
  readable_written d path content :
    writable d path = true → readable (write_disk d path content) path = true;
  readable_mono d d' path :
    directories d ⊆ directories d' → is_Some (files d !! path) → is_Some (files d' !! path) →
    readable d path = true → readable d' path = true;
  writable_mono d d' path :
    directories d ⊆ directories d' → path ∉ directories d' → writable d path = true → writable d' path = true;
  answer_utf8 t question default a :
    answer t question default = Answered a → from_utf8 a = Some a;
}.

(** ** Paths *)

Fixpoint diverge (p q : list bytes) : bool :=
  match p, q with
  | x :: p, y :: q => if decide (x = y) then diverge p q else true
  | _, _ => false
  end.

Definition root_ok `{!SerdeJson} (o : option json) : Prop :=
  match o with
  | None | Some JNull => True
  | Some (JObject m) => json_ok (JObject m)
  | _ => False
  end.

Definition head_ok `{!SerdeJson} (v : json) : Prop :=
  v = JNull ∨ ∃ m, v = JObject m ∧ json_ok (JObject m).

Section Paths.
Context `{!SerdeJson}.

Lemma empty_ok : json_ok (JObject ∅).
Proof. constructor. intros k v. by rewrite lookup_empty. Qed.

Lemma inner_ok field v : head_ok v →
  head_ok (default (JObject ∅) (x ← get field v; if is_object x then Some x else None)).
Proof.
  intros Hv. right. destruct Hv as [->|(m & -> & Hm)]; simpl; [eauto using empty_ok|].
  destruct (m !! field) as [x|] eqn:Hx; simpl; [|eauto using empty_ok].
  destruct x; simpl; eauto using empty_ok.
  inversion Hm as [| | | | | | |? Hall]; subst. eexists. split; [done|]. by eapply Hall.
Qed.

(** Setting a path of an object works, the rest of the object is as before. *)
Lemma set_path_spec path value : ∀ head,
  head_ok head → json_ok value → Forall (λ k, from_utf8 k = Some k) path → path ≠ [] →
  ∃ m, set_path path value head = Ret (JObject m) ∧ json_ok (JObject m) ∧
       get_path path (JObject m) = Some value ∧
       (∀ other, diverge path other = true → get_path other (JObject m) = get_path other head).
Proof.
  induction path as [|field path IH]; [done|]. intros head Hhead Hvalue Hpath _.
  apply Forall_cons in Hpath as [Hfield Hpath].
  set (inner := default (JObject ∅) (x ← get field head; if is_object x then Some x else None)).
  assert (∃ v, set_path path value inner = Ret v ∧ json_ok v ∧ get_path path v = Some value ∧
    (∀ other, diverge path other = true → get_path other v = get_path other inner)) as (v & Hset & Hv & Hget & Hother).
  { destruct (decide (path = [])) as [->|Hne]; [by exists value|].
    destruct (IH inner) as (m & ? & ? & ? & ?); [by apply inner_ok|done..|]. by exists (JObject m). }
  assert (∀ other, other ≠ [] → get_path other inner = (x ← get field head; get_path other x)) as Hinner.
  { intros [|k other] Hne; [done|]. unfold inner. destruct (get field head) as [x|]; simpl; [|done].
    by destruct x. }
  assert (∃ m, set_path (field :: path) value head = Ret (JObject (<[field := v]> m)) ∧
    json_ok (JObject m) ∧ ∀ k, m !! k = get k head) as (m & Heq & Hm & Hlookup).
  { destruct Hhead as [->|(m & -> & Hm)]; simpl; subst inner; simpl in Hset; rewrite Hset; simpl.
    - exists ∅. by rewrite insert_empty; eauto using empty_ok.
    - by exists m. }
  exists (<[field := v]> m). split_and!; [done| | |].
  - constructor. intros k x. rewrite lookup_insert_Some. inversion Hm as [| | | | | | |? Hall]; subst.
    intros [[<- <-]|[_ Hx]]; [done|by apply Hall].
  - simpl. by rewrite lookup_insert_eq; simpl.
  - intros [|k other]; [done|]. simpl. case_decide as Hk.
    + subst k. intros Hd. rewrite lookup_insert_eq. simpl. rewrite Hother by done.
      apply Hinner. by destruct other; [destruct path|].
    + intros _. rewrite lookup_insert_ne by done. by rewrite Hlookup.
Qed.
End Paths.

(** ** The fields of the tool *)

Record AnyField := any { af_type : Type; af_field : ConfigFieldDefinition af_type }.
Arguments any {af_type} af_field.
Definition af_key (f : AnyField) : ConfigFile * list bytes := (cf_file (af_field f), cf_path (af_field f)).

Definition config_fields `{!Hex, !SerdeJson} : list AnyField :=
  [any BRIDGE_TOKEN_POLICY; any BRIDGE_TOKEN_ASSET_NAME; any ILLIQUID_SUPPLY_ADDRESS;
   any SUBSTRATE_NODE_DATA_BASE_PATH; any CARDANO_PAYMENT_VERIFICATION_KEY_FILE;
   any CARDANO_PAYMENT_SIGNING_KEY_FILE; any CARDANO_COLD_VERIFICATION_KEY_FILE; any GENESIS_UTXO; any BOOTNODES;
   any INITIAL_PERMISSIONED_CANDIDATES; any POSTGRES_CONNECTION_STRING; any CARDANO_DATA_SOURCE;
   any OGMIOS_PROTOCOL; any OGMIOS_HOSTNAME; any OGMIOS_PORT; any OGMIOS_REQUEST_TIMEOUT;
   any COMMITTEE_CANDIDATES_ADDRESS; any D_PARAMETER_POLICY_ID; any PERMISSIONED_CANDIDATES_POLICY_ID;
   any GOVERNED_MAP_VALIDATOR_ADDRESS; any GOVERNED_MAP_POLICY_ID; any CARDANO_SECURITY_PARAMETER;
   any CARDANO_ACTIVE_SLOTS_COEFF; any CARDANO_FIRST_EPOCH_NUMBER; any CARDANO_FIRST_SLOT_NUMBER;
   any CARDANO_EPOCH_DURATION_MILLIS; any CARDANO_FIRST_EPOCH_TIMESTAMP_MILLIS; any CARDANO_SLOT_DURATION_MILLIS;
   any NODE_P2P_PORT; any INITIAL_GOVERNANCE_AUTHORITIES; any INITIAL_GOVERNANCE_THRESHOLD].

(** Two places in the files of which a save of one leaves the other as it is *)
Definition apart (a b : ConfigFile * list bytes) : bool := bool_decide (a.1 ≠ b.1) || diverge a.2 b.2.
Definition path_ok (p : list bytes) : bool :=
  negb (is_empty p) && forallb (λ k, bool_decide (from_utf8 k = Some k)) p.

Section Fields.
Context `{!Hex, !SerdeJson}.

Lemma config_fields_checked :
  forallb (λ f, path_ok (af_key f).2 && forallb (λ g, apart (af_key f) (af_key g) || bool_decide (af_key f = af_key g))
    config_fields) config_fields = true.
Proof. vm_compute. reflexivity. Qed.
Lemma config_keys_NoDup : NoDup (af_key <$> config_fields).
Proof. apply (bool_decide_eq_true_1 _). vm_compute. reflexivity. Qed.

Lemma config_field_path f : f ∈ config_fields →
  (af_key f).2 ≠ [] ∧ Forall (λ k, from_utf8 k = Some k) (af_key f).2.
Proof.
  intros Hf. pose proof config_fields_checked as Hall. rewrite forallb_forall in Hall.
  specialize (Hall f (proj1 (list_elem_of_In _ _) Hf)). apply andb_true_iff in Hall as [Hp _].
  apply andb_true_iff in Hp as [Hne Hp]. split; [by intros Heq; rewrite Heq in Hne|].
  rewrite forallb_forall in Hp. apply Forall_forall. intros k Hk. apply list_elem_of_In in Hk.
  eapply bool_decide_eq_true_1, Hp, Hk.
Qed.
(** Different fields are apart. *)
Lemma config_field_apart f g : f ∈ config_fields → g ∈ config_fields →
  apart (af_key f) (af_key g) = true ∨ g = f.
Proof.
  intros Hf Hg. pose proof config_fields_checked as Hall. rewrite forallb_forall in Hall.
  specialize (Hall f (proj1 (list_elem_of_In _ _) Hf)). apply andb_true_iff in Hall as [_ Hall].
  rewrite forallb_forall in Hall. specialize (Hall g (proj1 (list_elem_of_In _ _) Hg)).
  apply orb_true_iff in Hall as [|Heq]; [by left|]. right. apply bool_decide_eq_true in Heq.
  apply list_elem_of_lookup in Hf as [i Hi]. apply list_elem_of_lookup in Hg as [j Hj].
  assert (i = j) as ->; [|congruence].
  eapply NoDup_lookup; [apply config_keys_NoDup|rewrite list_lookup_fmap, Hi; done|].
  rewrite list_lookup_fmap, Hj. simpl. by rewrite Heq.
Qed.
End Fields.

(** ** The store *)

Section Store.
Context {L : Type} `{!Machine L, !MachineLaws L, !Hex, !SerdeJson, !SerdeJsonLaws}.
Implicit Types (w : World L) (d : Disk).

(** The value in the file at a path: [None] if it cannot be read, [Some None] if
    there is no file. *)
Definition disk_value d (path : bytes) : option (option json) :=
  if path_exists d path then
    match files d !! path with
    | Some content => if readable d path then (content ← from_utf8 content; Some <$> json_from_str content) else None
    | None => None
    end
  else Some None.
Definition config_value w (file : ConfigFile) : option (option json) :=
  disk_value (disk w) (config_path (environ w) file).

Definition write_world w (path content : bytes) : World L :=
  mkWorld (write_disk (disk w) path content) (environ w) (ledger w) (trace w).

(** The file can be written and holds an object, or there is none. *)
Definition path_store_ok d (path : bytes) : Prop :=
  writable d path = true ∧ (path ∉ directories d) ∧ ∃ o, disk_value d path = Some o ∧ root_ok o.
Definition stores_ok w : Prop :=
  config_path (environ w) Chain ≠ config_path (environ w) Resources ∧
  ∀ file, path_store_ok (disk w) (config_path (environ w) file).

(** What a configuration file has at a path *)
Definition raw_value w (key : ConfigFile * list bytes) : option json :=
  o ← config_value w key.1; v ← o; get_path key.2 v.
(** What [load_from_file] finds *)
Definition field_value {T} (f : ConfigFieldDefinition T) w : option T :=
  v ← raw_value w (cf_file f, cf_path f); from_value (cf_serde f) v.

Lemma load_file_eq {T} (f : ConfigFieldDefinition T) w o :
  config_value w (cf_file f) = Some o → load_file f w = Finished w o.
Proof.
  unfold config_value, disk_value, load_file.
  unfold mbind, IO_bind, config_file_path, file_exists, get_world, mret, IO_ret. simpl.
  destruct (path_exists _ _); simpl; [|by intros [= <-]].
  unfold read_file, mbind, IO_bind, get_world. simpl.
  destruct (files (disk w) !! _) as [c|]; [|done]. destruct (readable _ _); [|done].
  destruct (from_utf8 c) as [c'|]; [|done]. simpl. unfold mret, IO_ret.
  destruct (json_from_str c'); [by intros [= <-]|done].
Qed.

Lemma load_from_file_eq {T} (f : ConfigFieldDefinition T) w :
  stores_ok w → load_from_file f w = Finished w (field_value f w).
Proof.
  intros [_ Hs]. destruct (Hs (cf_file f)) as (_ & _ & o & Ho & _).
  unfold load_from_file, mbind at 1, IO_bind. rewrite (load_file_eq f w o) by done.
  unfold field_value, raw_value. simpl. unfold config_value. rewrite Ho. simpl. by destruct o.
Qed.

Lemma disk_value_write d path v :
  writable d path = true → json_ok v →
  disk_value (write_disk d path (to_string_pretty v)) path = Some (Some v).
Proof.
  intros Hw Hv. unfold disk_value, path_exists. simpl. rewrite lookup_insert_eq. simpl.
  rewrite readable_written by done. rewrite json_pretty_utf8 by done. simpl. by rewrite json_from_str_pretty.
Qed.

(** Changes elsewhere *)
Lemma disk_value_mono d d' path o :
  directories d ⊆ directories d' → path ∉ directories d' → files d' !! path = files d !! path →
  disk_value d path = Some o → disk_value d' path = Some o.
Proof.
  intros Hdir Hnd Hf. unfold disk_value, path_exists. rewrite Hf.
  rewrite (bool_decide_eq_false_2 (path ∈ directories d')) by done.
  rewrite (bool_decide_eq_false_2 (path ∈ directories d)) by set_solver.
  destruct (files d !! path) as [c|] eqn:Hc; simpl; [|done].
  destruct (readable d path) eqn:Hr; [|done].
  by rewrite (readable_mono d d') by (rewrite ?Hf, ?Hc; done).
Qed.
Lemma path_store_ok_mono d d' path :
  directories d ⊆ directories d' → path ∉ directories d' → files d' !! path = files d !! path →
  path_store_ok d path → path_store_ok d' path.
Proof.
  intros Hdir Hnd Hf (Hw & Hn & o & Ho & Hroot). split_and!; [by eapply writable_mono|done|].
  exists o. split; [by eapply disk_value_mono|done].
Qed.

Lemma root_head_ok o : root_ok o → head_ok (default (JObject ∅) o).
Proof.
  destruct o as [[]|]; simpl; try done; intros Hm; [by left| |]; right; eexists; split; try done.
  apply empty_ok.
Qed.

(** ** Saving a field *)

Lemma save_to_file_raw {T} (f : ConfigFieldDefinition T) v j w :
  stores_ok w → any f ∈ config_fields → to_value (cf_serde f) v = Ret j → json_ok j →
  ∃ content,
    let w' := write_world w (config_path (environ w) (cf_file f)) content in
    save_to_file f v w = Finished w' tt ∧ stores_ok w' ∧ raw_value w' (cf_file f, cf_path f) = Some j ∧
    ∀ key, apart (cf_file f, cf_path f) key = true → raw_value w' key = raw_value w key.
Proof.
  intros [Hpaths Hstores] Hfield Hto Hj. destruct (config_field_path _ Hfield) as [Hne Hutf]. simpl in Hne, Hutf.
  destruct (Hstores (cf_file f)) as (Hw & Hnd & o & Ho & Hroot).
  destruct (set_path_spec (cf_path f) j (default (JObject ∅) o)) as (m & Hset & Hm & Hget & Hother);
    [by apply root_head_ok|done..|].
  exists (to_string_pretty (JObject m)). simpl.
  set (path := config_path (environ w) (cf_file f)) in *.
  assert (∀ file, file ≠ cf_file f → path ≠ config_path (environ w) file) as Hdiff.
  { intros file Hfile. subst path. destruct file, (cf_file f); done. }
  assert (disk_value (write_disk (disk w) path (to_string_pretty (JObject m))) path = Some (Some (JObject m)))
    as Hvalue by (by apply disk_value_write).
  split_and!.
  - unfold save_to_file. unfold mbind at 1, IO_bind. rewrite (load_file_eq f w o) by done.
    rewrite Hto. simpl. unfold mbind at 1, IO_bind. simpl. rewrite Hset. simpl.
    unfold mbind, IO_bind, mret, IO_ret, config_file_path, get_world. simpl.
    unfold write_file, mbind, IO_bind, get_world. fold path. by rewrite Hw.
  - split; [done|]. intros file. simpl. destruct (decide (file = cf_file f)) as [->|Hfile].
    + split_and!; [by apply (writable_mono (disk w))|done|]. by exists (Some (JObject m)).
    + eapply path_store_ok_mono; [..|apply Hstores]; [done|apply Hstores|].
      simpl. by rewrite lookup_insert_ne by (by apply Hdiff).
  - unfold raw_value, config_value. simpl. fold path. rewrite Hvalue. simpl. done.
  - intros [file p] Hapart. unfold raw_value, config_value. simpl.
    destruct (decide (file = cf_file f)) as [->|Hfile].
    + fold path. rewrite Hvalue, Ho. simpl.
      apply orb_true_iff in Hapart as [Hapart|Hapart]; [by apply bool_decide_eq_true in Hapart|].
      simpl in Hapart. rewrite (Hother _ Hapart). destruct o as [o|]; [done|]. simpl.
      destruct p as [|k p]; [by destruct (cf_path f)|]. simpl. by rewrite lookup_empty.
    + destruct (Hstores file) as (_ & Hn & o' & Ho' & _). rewrite Ho'.
      erewrite disk_value_mono; [done|..|exact Ho']; [done|done|].
      simpl. by rewrite lookup_insert_ne by (by apply Hdiff).
Qed.

Lemma save_to_file_spec {T} (f : ConfigFieldDefinition T) v w :
  stores_ok w → any f ∈ config_fields → serde_ok (cf_serde f) v →
  ∃ content,
    let w' := write_world w (config_path (environ w) (cf_file f)) content in
    save_to_file f v w = Finished w' tt ∧ stores_ok w' ∧ field_value f w' = Some v ∧
    ∀ U (g : ConfigFieldDefinition U), apart (af_key (any f)) (af_key (any g)) = true → field_value g w' = field_value g w.
Proof.
  intros Hs Hf (j & Hto & Hj & Hfrom).
  destruct (save_to_file_raw f v j w Hs Hf Hto Hj) as (content & Hsave & Hs' & Hraw & Hother).
  exists content. simpl. split_and!; [done..| |].
  - unfold field_value. by rewrite Hraw.
  - intros U g Hg. unfold field_value. by rewrite Hother.
Qed.
End Store.
