(* ===== verification/CliKeys.v ===== *)
(** * Keys of the command line tools

    Models the key files of Cardano
    ([toolkit/smart-contracts/offchain/src/cardano_keys.rs],
    [toolkit/partner-chains-cli/src/cardano_key.rs]), the keystore of a node
    ([keystore.rs]), the keys of permissioned candidates
    ([permissioned_candidates.rs]), and the wizard that generates the keys of a
    node ([generate_keys/mod.rs]). *)

From S2P Require Import Prelude Domain PlutusData AuthoritySelection ContractDatums CandidateKeys TextFormats McHash OffchainTx OffchainCandidates CliIO CliJson CliConfig.

(** ** Key files of Cardano *)

(** [PrivateKey::from_normal_bytes], [from_extended_bytes] and [as_bytes] *)
Class CslKeys `{!Csl} := {
  from_normal_bytes : bytes → option PrivateKey;
  from_extended_bytes : bytes → option PrivateKey;
  as_bytes : PrivateKey → bytes;
}.

Record CardanoKeyFileContent := mkKeyFile { kf_type : bytes; kf_cbor_hex : bytes }.

Section KeyFiles.
Context `{!Hex, !SerdeJson}.

Definition key_file_from_value (v : json) : option CardanoKeyFileContent :=
  fields ← struct_fields (str <$> ["type"; "cborHex"]%string) v;
  match fields with
  | [type; cbor_hex] =>
      type ← type ≫= from_value serde_string;
      cbor_hex ← cbor_hex ≫= from_value serde_string;
      Some (mkKeyFile type cbor_hex)
  | _ => None
  end.

(** [str::split_at], which panics if the index is not on the boundary of a character. *)
Definition split_at (n : nat) (s : bytes) : outcome (bytes * bytes) :=
  if decide (length s < n)%nat then Panic
  else match s !! n with
       | Some x => if (128 <=? x) && (x <=? 191) then Panic else Ret (take n s, drop n s)
       | None => Ret (take n s, drop n s)
       end.

Definition raw_key_bytes (n : nat) (self : CardanoKeyFileContent) : outcome (result CliError bytes) :=
  '(_cbor_prefix, vkey) ← split_at 4 (kf_cbor_hex self);
  Ret (match hex_decode vkey with
       | None => Err (Msg (str "Invalid cborHex value of Cardano key - not valid hex: " ++ kf_cbor_hex self))
       | Some b =>
           if decide (length b = n) then Ok b
           else Err (Msg (str "Invalid cborHex value of Cardano key - incorrect length: " ++ kf_cbor_hex self))
       end).

Context `{!Csl, !CslKeys}.

Definition from_extended_128_bytes (b : bytes) : result CliError PrivateKey :=
  ok_or (from_extended_bytes (take 64 b)) (Msg (str "Couldn't parse 128 bytes into a BIP32 Private Key: ")).
Definition payment_key_from_normal_bytes (b : bytes) : result CliError PrivateKey :=
  ok_or (from_normal_bytes b) (Msg (str "Couldn't parse 32 bytes into a Private Key: ")).

(** [TryFrom<CardanoKeyFileContent> for CardanoPaymentSigningKey] *)
Definition payment_signing_key_try_from (key : CardanoKeyFileContent) : outcome (result CliError PrivateKey) :=
  let key_type := kf_type key in
  if decide (key_type = str "PaymentSigningKeyShelley_ed25519") then
    b ←? raw_key_bytes 32 key; Ret (payment_key_from_normal_bytes b)
  else if decide (key_type = str "PaymentExtendedSigningKeyShelley_ed25519_bip32") then
    b ←? raw_key_bytes 128 key; Ret (from_extended_128_bytes b)
  else Ret (Err (Msg (str "Unsupported key type: " ++ key_type ++ str ". Expected a signing key"))).

(** [Clone for CardanoPaymentSigningKey] *)
Definition payment_signing_key_clone (self : PrivateKey) : outcome PrivateKey :=
  let b := as_bytes self in
  if decide (length b = 32%nat) then expect (from_normal_bytes b) else expect (from_extended_bytes b).

(** [CardanoPaymentSigningKey::to_pub_key_hash] *)
Definition to_pub_key_hash (self : PrivateKey) : bytes := public_hash (to_public self).

Context {L : Type} `{!Machine L}.

Definition parse_json_key_file (path : bytes) : IO L (result CliError CardanoKeyFileContent) :=
  file_content ← read_file path;
  match file_content with
  | None => mret (Err (Msg (str "Failed to read Cardano key file " ++ path)))
  | Some file_content =>
      mret (ok_or (json_from_str file_content ≫= key_file_from_value)
              (Msg (str "Failed to parse Cardano key file " ++ path)))
  end.

(** [map_err] of a result under an explanation *)
Definition context_err {A} (text : bytes) (r : result CliError A) : result CliError A := map_err (WithContext text) r.

Definition get_mc_payment_signing_key_from_file (path : bytes) : IO L (result CliError PrivateKey) :=
  key_file ←! parse_json_key_file path;
  key ← io_outcome (payment_signing_key_try_from key_file);
  mret (context_err (str "Failed to parse Cardano Payment Signing key file " ++ path) key).

Definition get_payment_verification_key_bytes_from_file (path : bytes) : IO L (result CliError bytes) :=
  key_file ←! parse_json_key_file path;
  let key_type := kf_type key_file in
  if decide (key_type = str "PaymentExtendedVerificationKeyShelley_ed25519_bip32") then
    key_bytes ← io_outcome (raw_key_bytes 64 key_file);
    mret (take 32 <$> context_err (str "Failed to parse key bytes in " ++ path) key_bytes)
  else if decide (key_type = str "PaymentVerificationKeyShelley_ed25519") then
    key_bytes ← io_outcome (raw_key_bytes 32 key_file);
    mret (context_err (str "Failed to parse key bytes in " ++ path) key_bytes)
  else mret (Err (Msg (str "Unexpected key type '" ++ key_type ++ str "' in " ++ path ++
                       str ". Expected a Payment Verification Key."))).

Definition get_mc_staking_signing_key_from_file (path : bytes) : IO L (result CliError bytes) :=
  key_file ←! parse_json_key_file path;
  let key_type := kf_type key_file in
  if decide (key_type = str "StakePoolSigningKey_ed25519") then
    key_bytes ← io_outcome (raw_key_bytes 32 key_file);
    mret (context_err (str "Failed to parse " ++ path) key_bytes)
  else mret (Err (Msg (str "Expected Stake Pool Signing Key, but got '" ++ key_type ++ str "' in " ++ path))).

Definition get_stake_pool_verification_key_from_file (path : bytes) : IO L (result CliError bytes) :=
  key_file ←! parse_json_key_file path;
  let key_type := kf_type key_file in
  if decide (key_type = str "StakePoolVerificationKey_ed25519") then
    key_bytes ← io_outcome (raw_key_bytes 32 key_file);
    mret (context_err (str "Failed to parse " ++ path) key_bytes)
  else mret (Err (Msg (str "Expected Stake Pool Verification Key, but got '" ++ key_type ++ str "' in " ++ path))).
End KeyFiles.

(** ** The keystore of a node *)

Record KeyDefinition := mkKeyDefinition { kd_name : bytes; kd_scheme : bytes; kd_key_type : bytes }.
Definition KEY_AURA : KeyDefinition := mkKeyDefinition (str "AURA") (str "sr25519") (str "aura").
Definition KEY_GRANDPA : KeyDefinition := mkKeyDefinition (str "Grandpa") (str "ed25519") (str "gran").
Definition CROSS_CHAIN : KeyDefinition := mkKeyDefinition (str "Cross-chain") (str "ecdsa") (str "crch").

Definition keystore_path (substrate_node_base_path : bytes) : bytes := substrate_node_base_path ++ str "/keystore".
Definition network_key_directory (substrate_node_base_path : bytes) : bytes := substrate_node_base_path ++ str "/network".
Definition network_key_path (substrate_node_base_path : bytes) : bytes :=
  network_key_directory substrate_node_base_path ++ str "/secret_ed25519".

Section Keystore.
Context `{!Hex}.

Definition key_type_hex (self : KeyDefinition) : bytes := hex_encode (kd_key_type self).

(** The first file of the type, without the type. *)
Fixpoint find_existing_key (existing_keys : list bytes) (key_def : KeyDefinition) : option bytes :=
  match existing_keys with
  | [] => None
  | key :: existing_keys =>
      match strip_prefix (key_type_hex key_def) key with
      | Some key => Some key
      | None => find_existing_key existing_keys key_def
      end
  end.
End Keystore.

(** ** Keys of permissioned candidates *)

Section Candidates.
Context {A K : Type} `{!CandidateVerifier A K, !Hex}.

(** [Keys::get_raw] *)
Context (get_raw : K → bytes → bytes).

Definition keys_sorted (self : PermissionedCandidateKeys) : list (bytes * bytes) := sort (btree_iter (pck_keys self)).
Definition candidate_keys_display (self : PermissionedCandidateKeys) : bytes :=
  foldl (λ f '(id, b), f ++ str ", " ++ id ++ str ": " ++ to_hex_string b)
    (str "Partner Chains Key: " ++ to_hex_string (pck_partner_chains_key self)) (keys_sorted self).

(** [From<&PermissionedCandidateData>]; key type ids are expected to be Unicode. *)
Fixpoint collect_keys (keys : CandidateKeys) (acc : gmap bytes bytes) : outcome (gmap bytes bytes) :=
  match keys with
  | [] => Ret acc
  | ck :: keys => id ← expect (from_utf8 (key_id ck)); collect_keys keys (<[id := key_bytes ck]> acc)
  end.
Definition candidate_keys_of_data (value : PermissionedCandidateData) : outcome PermissionedCandidateKeys :=
  mkCandidateKeysText (sidechain_public_key value) <$> collect_keys (permissioned_keys value) ∅.

(** [TryFrom<&PermissionedCandidateKeys> for CandidateKeys] *)
Definition candidate_keys_try_from (value : PermissionedCandidateKeys) : result CliError CandidateKeys :=
  mapM (λ '(k, v), if decide (length k = 4%nat) then Ok (mkCandidateKey k v)
                   else Err (Msg (str "Could not parse key type id: '" ++ k ++ str "'")))
    (btree_iter (pck_keys value)).

Record ParsedPermissionedCandidatesKeys := mkParsedKeys { ppk_sidechain : bytes; ppk_keys : K }.

Definition parse_ecdsa (b : bytes) : option bytes := has_length 33 b.

(** [TryFrom<&PermissionedCandidateKeys> for ParsedPermissionedCandidatesKeys] *)
Definition parsed_keys_try_from (value : PermissionedCandidateKeys) : result CliError ParsedPermissionedCandidatesKeys :=
  sidechain ← ok_or (parse_ecdsa (pck_partner_chains_key value))
    (Msg (str "'" ++ to_hex_string (pck_partner_chains_key value) ++ str "' is invalid ECDSA public key"));
  candidate_keys ← candidate_keys_try_from value;
  keys ← ok_or (maybe_from candidate_keys) (Msg (str "Could not parse candidate keys!"));
  Ok (mkParsedKeys sidechain keys).

(** [From<&ParsedPermissionedCandidatesKeys> for PermissionedCandidateData] *)
Definition data_of_parsed_keys (value : ParsedPermissionedCandidatesKeys) : PermissionedCandidateData :=
  mkPermissionedCandidateData (ppk_sidechain value)
    ((λ key_id, mkCandidateKey key_id (get_raw (ppk_keys value) key_id)) <$> key_ids).
End Candidates.
Arguments ParsedPermissionedCandidatesKeys : clear implicits.
Arguments mkParsedKeys {K} ppk_sidechain ppk_keys.
Arguments ppk_sidechain {K} p.
Arguments ppk_keys {K} p.

(** ** Configuration of the chain specification *)

Record CreateChainSpecConfig (K : Type) := mkChainSpecConfig {
  cs_bootnodes : list bytes;
  cs_genesis_utxo : UtxoId;
  cs_initial_permissioned_candidates_raw : list PermissionedCandidateKeys;
  cs_initial_permissioned_candidates_parsed : list (ParsedPermissionedCandidatesKeys K);
  cs_committee_candidate_address : bytes;
  cs_d_parameter_policy_id : bytes;
  cs_permissioned_candidates_policy_id : bytes;
  cs_bridge_token_policy : bytes;
  cs_bridge_token_asset_name : bytes;
  cs_illiquid_circulation_supply_validator_address : bytes;
  cs_governed_map_validator_address : option bytes;
  cs_governed_map_asset_policy_id : option bytes;
}.
Arguments mkChainSpecConfig {K}.
Arguments cs_bootnodes {K} c.
Arguments cs_genesis_utxo {K} c.
Arguments cs_initial_permissioned_candidates_raw {K} c.
Arguments cs_initial_permissioned_candidates_parsed {K} c.
Arguments cs_committee_candidate_address {K} c.
Arguments cs_d_parameter_policy_id {K} c.
Arguments cs_permissioned_candidates_policy_id {K} c.
Arguments cs_bridge_token_policy {K} c.
Arguments cs_bridge_token_asset_name {K} c.
Arguments cs_illiquid_circulation_supply_validator_address {K} c.
Arguments cs_governed_map_validator_address {K} c.
Arguments cs_governed_map_asset_policy_id {K} c.

(** [Default for CreateChainSpecConfig] *)
Definition default_chain_spec_config {K} : CreateChainSpecConfig K :=
  mkChainSpecConfig [] (mkUtxoId (replicate 32 0) 0) [] [] [] (replicate POLICY_ID_LEN 0) (replicate POLICY_ID_LEN 0)
    (replicate POLICY_ID_LEN 0) [] [] None None.

(** The trait [PartnerChainRuntime] and the functions of [sp_core] on the keys of a
    node: [ed25519::Pair::from_seed_slice]. *)
Class PartnerChainRuntime (K : Type) := {
  create_chain_spec : CreateChainSpecConfig K → json;
  key_definitions : list KeyDefinition;
}.
Class NodeKeys := {
  ed25519_from_seed_slice : bytes → option bytes;
}.

(** ** Generating keys *)

Section GenerateKeys.
Context {L : Type} `{!Machine L, !Hex, !SerdeJson, !NodeKeys} {K : Type} `{!PartnerChainRuntime K}.

(** [context.current_executable()] *)
Definition current_executable : IO L (result CliError bytes) := mret current_exe.

(** [KeyGenerationOutput] *)
Definition key_generation_from_value (v : json) : option (bytes * bytes) :=
  fields ← struct_fields (str <$> ["publicKey"; "secretPhrase"]%string) v;
  match fields with
  | [public_key; secret_phrase] =>
      public_key ← public_key ≫= from_value serde_string;
      secret_phrase ← secret_phrase ≫= from_value serde_string;
      Some (public_key, secret_phrase)
  | _ => None
  end.

Definition generate_cmd (executable scheme : bytes) : bytes :=
  executable ++ str " key generate --scheme " ++ scheme ++ str " --output-type json".
Definition insert_cmd (node_executable chain_spec_file_path keystore_path scheme key_type secret_phrase : bytes) : bytes :=
  node_executable ++ str " key insert --chain " ++ chain_spec_file_path ++ str " --keystore-path " ++ keystore_path ++
  str " --scheme " ++ scheme ++ str " --key-type " ++ key_type ++ str " --suri '" ++ secret_phrase ++ str "'".
Definition generate_node_key_cmd (node_executable chain_spec_path network_key_path : bytes) : bytes :=
  node_executable ++ str " key generate-node-key --chain " ++ chain_spec_path ++ str " --file " ++ network_key_path.

Definition generate_keys (key_def : KeyDefinition) : IO L (result CliError (bytes * bytes)) :=
  executable ←! current_executable;
  eprint (str "⚙️ Generating " ++ kd_name key_def ++ str " (" ++ kd_scheme key_def ++ str ") key");;
  output ←! run_command (generate_cmd executable (kd_scheme key_def));
  mret (ok_or (json_from_str output ≫= key_generation_from_value)
          (Msg (str "Failed to parse generated keys json: " ++ output))).

Definition store_keys (base_path : bytes) (key_def : KeyDefinition) (new_key : bytes * bytes)
    (chain_spec_file_path : bytes) : IO L (result CliError unit) :=
  let '(public_key, secret_phrase) := new_key in
  node_executable ←! current_executable;
  eprint (str "💾 Inserting " ++ kd_name key_def ++ str " (" ++ kd_scheme key_def ++ str ") key");;
  let keystore_path := keystore_path base_path in
  run_command (insert_cmd node_executable chain_spec_file_path keystore_path (kd_scheme key_def)
    (kd_key_type key_def) secret_phrase) ;;!
  let store_path := keystore_path ++ str "/" ++ key_type_hex key_def ++ public_key in
  eprint (str "💾 " ++ kd_name key_def ++ str " key stored at " ++ store_path);;
  mret (Ok tt).

(** [ByteString::decode_hex] *)
Definition byte_string_decode_hex (s : bytes) : result CliError bytes := map_err (λ _, InvalidHex) (decode_hex_vec s).

Definition generate_or_load_key (base_path chain_spec_path : bytes) (key_def : KeyDefinition) :
    IO L (result CliError bytes) :=
  let keystore_path := keystore_path base_path in
  listed ←! list_directory keystore_path;
  let existing_keys := default [] listed in
  match find_existing_key existing_keys key_def with
  | Some key =>
      overwrite ← prompt_yes_no (str "A " ++ kd_name key_def ++ str " key already exists in store: " ++ key ++
                                 str " - overwrite it?") false;
      if overwrite : bool then
        new_key ←! generate_keys key_def;
        store_keys base_path key_def new_key chain_spec_path ;;!
        let old_key_path := keystore_path ++ str "/" ++ key_type_hex key_def ++ key in
        deleted ← delete_file old_key_path;
        match deleted with
        | Ok _ => mret (byte_string_decode_hex new_key.1)
        | Err e => mret (Err (WithContext (str "Failed to overwrite " ++ kd_name key_def ++ str " key at " ++ old_key_path) e))
        end
      else mret (byte_string_decode_hex (str "0x" ++ key))
  | None =>
      new_key ←! generate_keys key_def;
      store_keys base_path key_def new_key chain_spec_path ;;!
      mret (byte_string_decode_hex new_key.1)
  end.

(** The loop over the keys of the runtime *)
Fixpoint generate_or_load_keys (base_path chain_spec_path : bytes) (key_defs : list KeyDefinition)
    (keys : gmap bytes bytes) : IO L (result CliError (gmap bytes bytes)) :=
  match key_defs with
  | [] => mret (Ok keys)
  | key_definition :: key_defs =>
      generated_key ←! generate_or_load_key base_path chain_spec_path key_definition;
      enewline;;
      generate_or_load_keys base_path chain_spec_path key_defs (<[kd_key_type key_definition := generated_key]> keys)
  end.

Definition generate_spo_keys (base_path chain_spec_path : bytes) : IO L (result CliError unit) :=
  can_write ← prompt_can_write (str "keys file") KEYS_FILE_PATH;
  if can_write : bool then
    partner_chains_key ←! generate_or_load_key base_path chain_spec_path CROSS_CHAIN;
    enewline;;
    keys ←! generate_or_load_keys base_path chain_spec_path key_definitions ∅;
    let public_keys_json := to_string_pretty (candidate_keys_to_value (mkCandidateKeysText partner_chains_key keys)) in
    write_file KEYS_FILE_PATH public_keys_json;;
    eprint (str "🔑 The following public keys were generated and saved to the " ++ KEYS_FILE_PATH ++ str " file:");;
    print public_keys_json;;
    eprint (str "You may share them with your chain governance authority");;
    eprint (str "if you wish to be included as a permissioned candidate.");;
    mret (Ok tt)
  else
    eprint (str "Refusing to overwrite keys file - skipping");;
    mret (Ok tt).

Definition run_generate_network_key (base_path chain_spec_path : bytes) : IO L (result CliError unit) :=
  node_executable ←! current_executable;
  run_command (str "mkdir -p " ++ network_key_directory base_path) ;;!
  run_command (generate_node_key_cmd node_executable chain_spec_path (network_key_path base_path)) ;;!
  mret (Ok tt).

Definition decode_network_key (key_str : bytes) : result CliError bytes :=
  slice ← ok_or (hex_decode key_str) (WithContext (str "Invalid hex") InvalidHex);
  ok_or (ed25519_from_seed_slice slice) (WithContext (str "Invalid ed25519 bytes") InvalidHex).

Definition generate_network_key (base_path chain_spec_path : bytes) : IO L (result CliError unit) :=
  content ← read_file (network_key_path base_path);
  match decode_network_key <$> content with
  | Some (Ok _) =>
      eprint (str "🔑 A valid network key is already present in the keystore, skipping generation");;
      mret (Ok tt)
  | None =>
      eprint (str "⚙️ Generating network key");;
      run_generate_network_key base_path chain_spec_path ;;!
      mret (Ok tt)
  | Some (Err err) =>
      eprint (str "⚠️ Network key in keystore is invalid (" ++
              match err with WithContext text _ => text | _ => [] end ++ str "), wizard will regenerate it");;
      eprint (str "⚙️ Regenerating the network key");;
      delete_file (network_key_path base_path) ;;!
      run_generate_network_key base_path chain_spec_path ;;!
      mret (Ok tt)
  end.

Definition write_temp_chain_spec (chain_spec : json) : IO L bytes :=
  dir_path ← new_tmp_dir;
  dir_path ← io_expect (from_utf8 dir_path);
  let path := dir_path ++ str "/chain-spec.json" in
  write_file path (to_string_compact chain_spec);;
  mret path.

Fixpoint announce_keys (key_defs : list KeyDefinition) : IO L unit :=
  match key_defs with
  | [] => mret tt
  | key_def :: key_defs =>
      eprint (str "→ " ++ kd_scheme key_def ++ str " " ++ kd_name key_def ++ str " key");;
      announce_keys key_defs
  end.

(** [GenerateKeysConfig::load] *)
Definition generate_keys_config_load : IO L bytes := load_or_prompt_and_save SUBSTRATE_NODE_DATA_BASE_PATH.

(** [GenerateKeysCmd::run] *)
Definition generate_keys_run : IO L (result CliError unit) :=
  eprint (str "This 🧙 wizard will generate the following keys and save them to your node's keystore:");;
  announce_keys (CROSS_CHAIN :: key_definitions);;
  eprint (str "It will also generate a network key for your node if needed.");;
  enewline;;
  chain_spec_path ← write_temp_chain_spec (create_chain_spec default_chain_spec_config);
  base_path ← generate_keys_config_load;
  enewline;;
  generate_spo_keys base_path chain_spec_path ;;!
  enewline;;
  generate_network_key base_path chain_spec_path ;;!
  enewline;;
  eprint (str "🚀 All done!");;
  delete_file chain_spec_path ;;!
  mret (Ok tt).
End GenerateKeys.
