(* ===== verification/CliPrepare.v ===== *)
(** * Preparing the configuration of a chain

    Models the [prepare-configuration] wizard of
    [toolkit/partner-chains-cli/src/prepare_configuration] with what it uses of
    [ogmios/mod.rs], [ogmios/config.rs] and [select_utxo.rs]: bootnodes, the genesis
    UTxO, the governance of the chain, the parameters of Cardano and the addresses
    of the scripts. *)

From S2P Require Import Prelude Domain PlutusData ContractDatums TextFormats MainchainEpoch McHash OffchainTx OffchainGovernance OffchainVersions CliIO CliJson CliConfig CliKeys.

(** ** Ogmios *)

(** Answers of the client, [ogmios_client::query_ledger_state] and [query_network]:
    the boundary and the parameters of an era, and the Shelley genesis with the
    start time in seconds and the active slots coefficient as a decimal. *)
Record ClientEraSummary := mkClientEra {
  ce_start_seconds : Z;
  ce_start_slot : Z;
  ce_start_epoch : Z;
  ce_epoch_length : Z;
  ce_slot_length_milliseconds : Z;
}.
Record ShelleyGenesisResponse := mkShelleyResponse {
  sr_network : Network;
  sr_security_parameter : Z;
  sr_active_slots_coefficient : Z * Z;
  sr_epoch_length : Z;
  sr_slot_length_milliseconds : Z;
  sr_start_time : Z;
}.
Class OgmiosGenesis (L : Type) := {
  era_summaries : L → result OffchainError (list ClientEraSummary);
  shelley_genesis_configuration : L → result OffchainError ShelleyGenesisResponse;
  decimal_to_f64 : Z * Z → option Z;
}.

Record EpochBoundary := mkEpochBoundary { eb_time_seconds : Z; eb_slot : Z; eb_epoch : Z }.
Record EpochParameters := mkEpochParameters { ep_epoch_length : Z; ep_slot_length_millis : Z }.
#[global] Instance EpochParameters_eq_dec : EqDecision EpochParameters.
Proof. solve_decision. Defined.
Record EraSummary := mkEraSummary { es_start : EpochBoundary; es_parameters : EpochParameters }.
Record ShelleyGenesisConfiguration := mkShelleyConfig {
  sg_network : Network;
  sg_security_parameter : Z;
  sg_active_slots_coefficient : Z;
  sg_epoch_length : Z;
  sg_slot_length_millis : Z;
  sg_start_time : Z;
}.

Inductive OgmiosRequest := QueryLedgerStateEraSummaries | QueryNetworkShelleyGenesis | QueryUtxo (address : bytes).
Inductive OgmiosResponse :=
  | EraSummariesResponse (eras : list EraSummary)
  | ShelleyGenesisConfigResponse (config : ShelleyGenesisConfiguration)
  | UtxoResponse (utxos : list OgmiosUtxo).

(** [From<ogmios_client::query_ledger_state::EraSummary>] and of its parts *)
Definition epoch_boundary_from (e : ClientEraSummary) : EpochBoundary :=
  mkEpochBoundary (ce_start_seconds e) (ce_start_slot e) (ce_start_epoch e).
Definition epoch_parameters_from (e : ClientEraSummary) : EpochParameters :=
  mkEpochParameters (ce_epoch_length e) (ce_slot_length_milliseconds e).
Definition era_summary_from (e : ClientEraSummary) : EraSummary :=
  mkEraSummary (epoch_boundary_from e) (epoch_parameters_from e).

(** ** Cardano parameters *)

Definition checked_mul (w x y : Z) : option Z := if x * y <? u_bound w then Some (x * y) else None.
Definition checked_add (w x y : Z) : option Z := if x + y <? u_bound w then Some (x + y) else None.

Definition get_first_epoch_era (eras_summaries : list EraSummary) : result CliError EraSummary :=
  latest_era ← ok_or (last eras_summaries) (Msg (str "No eras found"));
  first_epoch_era ← ok_or (list_find (λ era, es_parameters era = es_parameters latest_era) eras_summaries)
    (Msg (str "No eras found"));
  Ok (first_epoch_era.2).

Definition caradano_parameters (eras_summaries : list EraSummary) (shelley_config : ShelleyGenesisConfiguration) :
    result CliError CardanoParameters :=
  first_epoch_era ← get_first_epoch_era eras_summaries;
  epoch_duration_millis ← ok_or (checked_mul 64 (sg_epoch_length shelley_config) (sg_slot_length_millis shelley_config))
    (Msg (str "Epoch duration overflow"));
  first_epoch_timestamp_millis ← ok_or
    (seconds ← checked_add 64 (sg_start_time shelley_config) (eb_time_seconds (es_start first_epoch_era));
     checked_mul 64 seconds 1000)
    (Msg (str "First epoch timestamp overflow"));
  Ok (mkCardanoParameters (sg_security_parameter shelley_config) (sg_active_slots_coefficient shelley_config)
        (eb_epoch (es_start first_epoch_era)) (eb_slot (es_start first_epoch_era)) epoch_duration_millis
        first_epoch_timestamp_millis (sg_slot_length_millis shelley_config)).

(** ** Bootnodes *)

Inductive Protocol := Dns | Ipv4.
#[global] Instance Protocol_eq_dec : EqDecision Protocol.
Proof. solve_decision. Defined.
#[global] Instance Protocol_options : SelectOptions Protocol := [Dns; Ipv4].

Definition default_address (self : Protocol) : bytes :=
  match self with Dns => str "localhost" | Ipv4 => str "127.0.0.1" end.
Definition protocol_display (self : Protocol) : bytes :=
  match self with Dns => str "hostname" | Ipv4 => str "IP address" end.
Definition protocol_from_str (s : bytes) : option Protocol :=
  if decide (s = str "hostname" ∨ s = str "dns") then Some Dns
  else if decide (s = str "IP address" ∨ s = str "ip4") then Some Ipv4 else None.

Definition dns_bootnode (hostname : bytes) (port : Z) (peer_id : bytes) : bytes :=
  str "/dns/" ++ hostname ++ str "/tcp/" ++ display_uint port ++ str "/p2p/" ++ peer_id.
Definition ipv4_bootnode (ip_address : bytes) (port : Z) (peer_id : bytes) : bytes :=
  str "/ip4/" ++ ip_address ++ str "/tcp/" ++ display_uint port ++ str "/p2p/" ++ peer_id.

Definition deconstruct_bootnode (bootnode_opt : option bytes) : option (Protocol * bytes * Z) :=
  bootnode ← bootnode_opt;
  let parts := drop 1 (split slash bootnode) in
  protocol ← parts !! 0%nat ≫= protocol_from_str;
  hostname ← parts !! 1%nat;
  _ ← parts !! 2%nat;
  port ← parts !! 3%nat ≫= uint_from_str 16;
  Some (protocol, hostname, port).

(** [Ipv4Addr::from_str]: four decimal octets of one to three digits, without
    leading zeros. *)
Definition ipv4_octet (s : bytes) : bool :=
  match s with
  | [x] => match digit x with Some _ => true | None => false end
  | x :: _ :: rest =>
      (length rest <=? 1)%nat && negb (x =? 48) && match parse_digits 0 s with Some n => n <? 256 | None => false end
  | [] => false
  end.
Definition ipv4_from_str (s : bytes) : bool :=
  match split 46 s with [a; b; c; d] => ipv4_octet a && ipv4_octet b && ipv4_octet c && ipv4_octet d | _ => false end.

(** [libp2p_identity]: the peer id, in base 58, of the public key of a secret key. *)
Class PeerIds := { peer_id_of_ed25519 : bytes → option bytes }.

Definition CHOOSE_PROTOCOL_PROMPT : bytes := str "Your bootnode should be accessible via:".
Definition CHOOSE_PORT_PROMPT : bytes := str "Enter bootnode TCP port".
Definition DEFAULT_PORT : Z := 3033.
Definition CHOOSE_HOSTNAME_PROMPT : bytes := str "Enter bootnode hostname".
Definition CHOOSE_IP_ADDRESS_PROMPT : bytes := str "Enter bootnode IP address".

Section Prepare.
Context {L : Type} `{!Machine L, !Hex, !SerdeJson, !Csl, !CslKeys, !Scripts, !Ogmios L, !OgmiosGenesis L, !PeerIds}.
Context (delay : Z) (retries : nat).

(** ** Requests to Ogmios *)

(** [TryFrom<ShelleyGenesisConfigurationResponse>] *)
Definition shelley_genesis_try_from (r : ShelleyGenesisResponse) : result CliError ShelleyGenesisConfiguration :=
  active_slots_coefficient ← ok_or (decimal_to_f64 (sr_active_slots_coefficient r))
    (Msg (str "Cannot convert active_slots_coefficient"));
  start_time ← ok_or (try_into 64 (sr_start_time r)) InvalidNumber;
  Ok (mkShelleyConfig (sr_network r) (sr_security_parameter r) active_slots_coefficient (sr_epoch_length r)
        (sr_slot_length_milliseconds r) start_time).

Definition ogmios_request (config : ServiceConfig) (req : OgmiosRequest) (s : L) : result CliError OgmiosResponse :=
  if reachable (url config) (sc_timeout_seconds config) s then
    match req with
    | QueryLedgerStateEraSummaries =>
        eras ← map_err ClientError (era_summaries s);
        Ok (EraSummariesResponse (era_summary_from <$> eras))
    | QueryNetworkShelleyGenesis =>
        shelley_genesis ← map_err ClientError (shelley_genesis_configuration s);
        shelley_genesis ← shelley_genesis_try_from shelley_genesis;
        Ok (ShelleyGenesisConfigResponse shelley_genesis)
    | QueryUtxo address =>
        utxos ← map_err ClientError (query_utxos address s);
        Ok (UtxoResponse utxos)
    end
  else Err (Msg (str "Failed to connect to Ogmios at " ++ url config)).

(** [IOContext::ogmios_rpc] and [offchain_impl] *)
Definition ogmios_rpc (config : ServiceConfig) (req : OgmiosRequest) : IO L (result CliError OgmiosResponse) :=
  w ← get_world; mret (ogmios_request config req (ledger w)).
Definition offchain_impl (config : ServiceConfig) : IO L (result CliError unit) :=
  w ← get_world;
  mret (if reachable (url config) (sc_timeout_seconds config) (ledger w) then Ok tt
        else Err (Msg (str "Couldn't open connection to Ogmios at " ++ url config))).

Definition get_shelley_config (config : ServiceConfig) : IO L (result CliError ShelleyGenesisConfiguration) :=
  response ←! ogmios_rpc config QueryNetworkShelleyGenesis;
  match response with
  | ShelleyGenesisConfigResponse shelley_config => mret (Ok shelley_config)
  | _ => mret (Err (Msg (str "Unexpected response from Ogmios when quering for shelley genesis configuration: ")))
  end.

Definition get_eras_summaries (config : ServiceConfig) : IO L (result CliError (list EraSummary)) :=
  response ←! ogmios_rpc config QueryLedgerStateEraSummaries;
  match response with
  | EraSummariesResponse eras_summaries => mret (Ok eras_summaries)
  | _ => mret (Err (Msg (str "Unexpected response from Ogmios when quering for era summaries: ")))
  end.

Definition prepare_cardano_params (ogmios_config : ServiceConfig) : IO L (result CliError CardanoParameters) :=
  eras_summaries ←! get_eras_summaries ogmios_config;
  shelley_config ←! get_shelley_config ogmios_config;
  mret (caradano_parameters eras_summaries shelley_config).

Definition OGMIOS_REQUIRED : bytes :=
  str "Partner Chains Smart Contracts require access to Ogmios. Please provide its configuration.".

Definition prompt_ogmios_configuration : IO L (result CliError ServiceConfig) :=
  ogmios_protocol ←! select_options_with_default_from_file_and_save OGMIOS_PROTOCOL text_network_protocol
    (str "Select " ++ cf_name OGMIOS_PROTOCOL);
  ogmios_hostname ← prompt_with_default_from_file_and_save OGMIOS_HOSTNAME;
  ogmios_port ←! prompt_with_default_from_file_parse_and_save OGMIOS_PORT (text_uint 16);
  timeout ← save_if_empty OGMIOS_REQUEST_TIMEOUT 180;
  mret (Ok (mkServiceConfig ogmios_protocol ogmios_hostname ogmios_port timeout)).
Definition establish_ogmios_configuration : IO L (result CliError ServiceConfig) :=
  print OGMIOS_REQUIRED;; prompt_ogmios_configuration.

(** ** Choice of a UTxO *)

Definition utxo_display_string (utxo : OgmiosUtxo) : bytes :=
  utxo_id_display (utxo_id_of utxo) ++ str " (" ++ display_uint (ou_lovelace utxo) ++ str " lovelace)".

Definition query_utxos_of (ogmios_config : ServiceConfig) (address : bytes) : IO L (result CliError (list OgmiosUtxo)) :=
  print (str "⚙️ Querying UTXOs of " ++ address ++ str " from Ogmios at " ++ url ogmios_config ++ str "...");;
  response ←! ogmios_rpc ogmios_config (QueryUtxo address);
  match response with
  | UtxoResponse utxos => mret (Ok utxos)
  | _ => mret (Err (Msg (str "Unexpected response from Ogmios when querying for utxos: ")))
  end.

Definition select_from_utxos (question : bytes) (utxos : list OgmiosUtxo) : IO L UtxoId :=
  selected_utxo_ix ← prompt_multi_option question (utxo_display_string <$> utxos);
  utxo ← io_expect (utxos !! selected_utxo_ix);
  mret (utxo_id_of utxo).

(** ** Bootnodes *)

Definition peer_id_from_network_key (key_str : bytes) : result CliError bytes :=
  hex_vec ← ok_or (hex_decode key_str) (WithContext (str "Invalid hex") InvalidHex);
  ok_or (peer_id_of_ed25519 hex_vec) (WithContext (str "Invalid Ed25519 bytes") InvalidHex).

Definition peer_id_from_config : IO L (result CliError (option bytes)) :=
  substrate_node_base_path ← prompt_with_default_from_file_and_save SUBSTRATE_NODE_DATA_BASE_PATH;
  let network_key_path := network_key_path substrate_node_base_path in
  content ← read_file network_key_path;
  match content with
  | Some network_key => mret (Some <$> peer_id_from_network_key network_key)
  | None => print (str "Could not read network key from " ++ network_key_path);; mret (Ok None)
  end.

Definition read_bootnode_defaults : IO L (Protocol * bytes * Z) :=
  bootnodes ← load_from_file BOOTNODES;
  mret (default (Dns, default_address Dns, DEFAULT_PORT) (deconstruct_bootnode (bootnodes ≫= head))).

Definition choose_protocol (default_protocol : Protocol) : IO L Protocol :=
  let protocols := select_options_with_default default_protocol in
  protocol_selection_ix ← prompt_multi_option CHOOSE_PROTOCOL_PROMPT (protocol_display <$> protocols);
  io_expect (protocols !! protocol_selection_ix).

Definition outro (chain_config_file_path : bytes) : bytes :=
  str "Bootnode saved successfully. Keep in mind that you can manually modify " ++ chain_config_file_path ++
  str ", to edit bootnodes.".

Definition configure_bootnode (peer_id : bytes) : IO L (result CliError unit) :=
  '(default_protocol, default_hostname_or_ip, default_port) ← read_bootnode_defaults;
  protocol ← choose_protocol default_protocol;
  port ← prompt CHOOSE_PORT_PROMPT (Some (display_uint default_port));
  match uint_from_str 16 port with
  | None => mret (Err (WithContext (str "⚠️ Port must be a valid number") InvalidNumber))
  | Some port =>
      let default_address := if decide (default_protocol = protocol) then default_hostname_or_ip
                             else default_address protocol in
      bootnode ←!
        match protocol with
        | Dns =>
            hostname ← prompt CHOOSE_HOSTNAME_PROMPT (Some default_address);
            mret (Ok (dns_bootnode hostname port peer_id))
        | Ipv4 =>
            ipv4_address ← prompt CHOOSE_IP_ADDRESS_PROMPT (Some default_address);
            mret (if ipv4_from_str ipv4_address then Ok (ipv4_bootnode ipv4_address port peer_id)
                  else Err (WithContext (str "⚠️ Invalid IP address") InvalidNumber))
        end;
      save_to_file BOOTNODES [bootnode];;
      path ← chain_config_file_path;
      eprint (outro path);;
      mret (Ok tt)
  end.

Definition establish_bootnodes : IO L (result CliError unit) :=
  peer_id ←! peer_id_from_config;
  match peer_id with
  | Some peer_id =>
      configure ← prompt_yes_no
        (str "Do you want to configure a single bootnode with your peer id '" ++ peer_id ++ str "'?") true;
      if configure : bool then configure_bootnode peer_id
      else save_to_file BOOTNODES [];; mret (Ok tt)
  | None =>
      continue_without_bootnode ← prompt_yes_no
        (str "Could not read network secret key from the base directory. Do you want to continue without configuring bootnode?") true;
      if continue_without_bootnode : bool then save_to_file BOOTNODES [];; mret (Ok tt)
      else exit 0
  end.

(** ** The genesis UTxO *)

Definition get_private_key : IO L (result CliError PrivateKey) :=
  cardano_signing_key_file ← prompt_with_default_from_file_and_save CARDANO_PAYMENT_SIGNING_KEY_FILE;
  get_mc_payment_signing_key_from_file cardano_signing_key_file.

Definition genesis_intro : bytes :=
  str "Now, let's set up the genesis UTXO. It identifies the partner chain. This wizard will query Ogmios for your UTXOs using the address derived from the payment signing key. This signing key will be then used for spending the genesis UTXO in order to initialize the chain governance. Please provide required data.".

Definition select_genesis_utxo : IO L (result CliError (UtxoId * PrivateKey * ServiceConfig)) :=
  eprint genesis_intro;;
  ogmios_configuration ←! prompt_ogmios_configuration;
  shelley_config ←! get_shelley_config ogmios_configuration;
  private_key ←! get_private_key;
  let address := key_hash_address (to_pub_key_hash private_key) (sg_network shelley_config) in
  utxo_query_result ←! query_utxos_of ogmios_configuration address;
  if is_empty utxo_query_result then
    eprint (str "⚠️ No UTXOs found for the given address");;
    eprint (str "There has to be at least one UTXO in the governance authority wallet.");;
    mret (Err (Msg (str "No UTXOs found")))
  else
    genesis_utxo ← select_from_utxos (str "Select an UTXO to use as the genesis UTXO") utxo_query_result;
    save_to_file GENESIS_UTXO genesis_utxo;;
    mret (Ok (genesis_utxo, private_key, ogmios_configuration)).

(** ** Governance *)

(** [Display for MultiSigParameters] *)
Definition multisig_display (self : MultiSigParameters) : bytes :=
  foldl (λ f authority, f ++ [10; 9] ++ to_hex_string authority) (str "Governance authorities:") (governance_authorities self)
  ++ [10] ++ str "Threshold: " ++ display_uint (msp_threshold self).

Definition prompt_initial_governance (payment_key : PrivateKey) : IO L (result CliError MultiSigParameters) :=
  eprint (str "Please provide the initial chain governance key hashes:");;
  save_if_empty INITIAL_GOVERNANCE_AUTHORITIES [to_pub_key_hash payment_key];;
  authorities ← prompt_with_default_from_file_parse_and_save INITIAL_GOVERNANCE_AUTHORITIES text_governance_authorities;
  match authorities with
  | Err e => mret (Err (WithContext (str "Failed to parse governance authorities: ") e))
  | Ok authorities =>
      save_if_empty INITIAL_GOVERNANCE_THRESHOLD 1;;
      threshold ← prompt_with_default_from_file_parse_and_save INITIAL_GOVERNANCE_THRESHOLD (text_uint 8);
      match threshold with
      | Err e => mret (Err (WithContext (str "Failed do parse threshold: ") e))
      | Ok threshold =>
          path ← config_file_path (cf_file INITIAL_GOVERNANCE_AUTHORITIES);
          mret (map_err (λ err, Msg (str "Initial Governance data is invalid: '" ++ str err ++
            str "'. Please run the wizard again and provide correct value or edit values in '" ++ path ++
            str "' and the run the wizard again.")) (multisig_parameters_new authorities threshold))
      end
  end.

(** [InitGovernance for T] *)
Definition init_governance (governance_parameters : MultiSigParameters) (payment_key : PrivateKey)
    (genesis_utxo_id : UtxoId) : Off L bytes :=
  r ← run_init_governance delay retries governance_parameters payment_key (Some genesis_utxo_id);
  mret r.1.

Definition prompt_and_init_governance (genesis_utxo : UtxoId) (payment_key : PrivateKey) (ogmios_config : ServiceConfig) :
    IO L (result CliError (option bytes)) :=
  multisig_parameters ←! prompt_initial_governance payment_key;
  should_continue ← prompt_yes_no (str "Governance will be initialized with:" ++ [10] ++
    multisig_display multisig_parameters ++ [10] ++ str "Do you want to continue?") false;
  if should_continue : bool then
    offchain_impl ogmios_config ;;!
    tx_id ← block_on (init_governance multisig_parameters payment_key genesis_utxo);
    match tx_id with
    | Err e => mret (Err (WithContext (str "Governance initialization failed: ") (ClientError e)))
    | Ok tx_id =>
        eprint (str "Governance initialized successfully for UTXO: " ++ utxo_id_display genesis_utxo);;
        mret (Ok (Some tx_id))
    end
  else mret (Ok None).

(** ** Addresses and policies *)

(** [GetScriptsData for T] *)
Definition scripts_data_of (genesis_utxo : UtxoId) : Off L ScriptsData :=
  network ← query shelley_network;
  ds_lift (get_scripts_data genesis_utxo network).

(** [Addresses] and [PolicyIds] by the name of a field *)
Definition sa_committee_candidate_validator (s : ScriptsData) : bytes := nth 0 (addresses s) [].
Definition sa_illiquid_circulation_supply_validator (s : ScriptsData) : bytes := nth 2 (addresses s) [].
Definition sa_governed_map_validator (s : ScriptsData) : bytes := nth 6 (addresses s) [].
Definition sp_d_parameter (s : ScriptsData) : bytes := nth 0 (policy_ids s) [].
Definition sp_permissioned_candidates (s : ScriptsData) : bytes := nth 1 (policy_ids s) [].
Definition sp_governed_map (s : ScriptsData) : bytes := nth 4 (policy_ids s) [].

Definition internal_error (r : result DecodeHexError bytes) : result CliError bytes :=
  map_err (λ _, Msg (str "Internal error: invalid address 'Invalid length' in scripts data")) r.

Definition set_up_cardano_addresses (genesis_utxo : UtxoId) (ogmios_config : ServiceConfig) : IO L (result CliError unit) :=
  offchain_impl ogmios_config ;;!
  scripts_data ← block_on (scripts_data_of genesis_utxo);
  match scripts_data with
  | Err e => mret (Err (WithContext (str "Offchain call failed: ") (ClientError e)))
  | Ok scripts_data =>
      committee_candidate_validator_addr ←!
        mret (internal_error (address_from_str (sa_committee_candidate_validator scripts_data)));
      let d_parameter_policy_id := sp_d_parameter scripts_data in
      let permissioned_candidates_policy_id := sp_permissioned_candidates scripts_data in
      illiquid_supply_addr ←!
        mret (internal_error (address_from_str (sa_illiquid_circulation_supply_validator scripts_data)));
      governed_map_validator_addr ←! mret (internal_error (address_from_str (sa_governed_map_validator scripts_data)));
      let governed_map_policy_id := sp_governed_map scripts_data in
      save_to_file COMMITTEE_CANDIDATES_ADDRESS committee_candidate_validator_addr;;
      save_to_file D_PARAMETER_POLICY_ID d_parameter_policy_id;;
      save_to_file PERMISSIONED_CANDIDATES_POLICY_ID permissioned_candidates_policy_id;;
      save_to_file ILLIQUID_SUPPLY_ADDRESS illiquid_supply_addr;;
      save_to_file GOVERNED_MAP_VALIDATOR_ADDRESS governed_map_validator_addr;;
      save_to_file GOVERNED_MAP_POLICY_ID governed_map_policy_id;;
      committee_candidate_validator_addr ← io_outcome (address_to_str committee_candidate_validator_addr);
      illiquid_supply_addr ← io_outcome (address_to_str illiquid_supply_addr);
      governed_map_validator_addr ← io_outcome (address_to_str governed_map_validator_addr);
      print (str "Cardano addresses have been set up:" ++ [10] ++
        str "- Committee Candidates Address: " ++ committee_candidate_validator_addr ++ [10] ++
        str "- D Parameter Policy ID: " ++ to_hex_string d_parameter_policy_id ++ [10] ++
        str "- Permissioned Candidates Policy ID: " ++ to_hex_string permissioned_candidates_policy_id ++ [10] ++
        str "- Illiquid Circulation Supply Validator Address: " ++ illiquid_supply_addr ++ [10] ++
        str "- Governed Map Validator Address: " ++ governed_map_validator_addr ++ [10] ++
        str "- Governed Map Policy Id: " ++ to_hex_string governed_map_policy_id);;
      mret (Ok tt)
  end.

Definition prepare_bridge_token : IO L (result CliError unit) :=
  print (str "Partner Chains can store their initial token supply on Cardano as Cardano bridge tokens.");;
  print (str "Creation of the bridge tokens is not supported by this wizard and must be performed manually before this step.");;
  configure ← prompt_yes_no (str "Do you want to configure a token bridge for your Partner Chain?") true;
  if configure : bool then
    policy ← prompt_with_default_from_file_parse_and_save BRIDGE_TOKEN_POLICY (text_hex (decode_hex_array POLICY_ID_LEN));
    match policy with
    | Err e => mret (Err (WithContext (str "Could not parse PolicyId, expected hex string representing 28 bytes.") e))
    | Ok _ =>
        name ← prompt_with_default_from_file_parse_and_save BRIDGE_TOKEN_ASSET_NAME
          (text_hex (decode_hex_bounded MAX_ASSET_NAME_LEN));
        match name with
        | Err e => mret (Err (WithContext (str "Could not parse AssetName, expected valid hex string.") e))
        | Ok _ => mret (Ok tt)
        end
    end
  else
    save_to_file BRIDGE_TOKEN_POLICY (replicate POLICY_ID_LEN 0);;
    save_to_file BRIDGE_TOKEN_ASSET_NAME [];;
    mret (Ok tt).

(** A text in which a backquote stands for a double quote. *)
Definition quoted (s : string) : bytes := (λ x, if x =? 96 then 34 else x) <$> str s.

Definition OUTRO : bytes := quoted
"Chain configuration (pc-chain-config.json) is now ready for distribution to network participants.

If you intend to run a chain with permissioned candidates, you must manually set their keys in the pc-chain-config.json file before proceeding. Here's an example of how to add permissioned candidates:

{
  ...
  `initial_permissioned_candidates`: [
    {
      `aura_pub_key`: `0xd43593c715fdd31c61141abd04a99fd6822c8558854ccde49a5684e7a56da27d`,
      `grandpa_pub_key`: `0x88dc3417d5058ec4b4503e0c12ea1a0a89be200f498922423d4334014fa6b0ee`,
      `sidechain_pub_key`: `0x020a1091341fe5664bfa1782d5e0477968906ac916b04cb365ec3153755684d9a1`
    },
    {
      `aura_pub_key`: `0x8eaf04151687736326c9fea17e25fc5287613698c912909cb226aa4794f26a48`,
      `grandpa_pub_key`: `0xd17c2d7823ebf260fd138f2d7e27d114cb145d968b5ff5006125f2414fadae69`,
      `sidechain_pub_key`: `0x0390084fdbf27d2b79d26a4f13f0cdd982cb755a661969143c37cbc49ef5b91f27`
    }
  ]
}

After setting up the permissioned candidates, execute the 'setup-main-chain-state' command to write required data to Cardano, and run the 'create-chain-spec' command to generate the final chain specification.".

Definition INTRO : bytes := str
"This 🧙 wizard will:
* establish single bootnode configuration (to be later included in chain-spec file)
* choose Genesis UTXO on Cardano
* initialize Partner Chains Governance on Cardano
* establish Partner Chains Smart Contracts addresses and policies (to be later included in chain-spec file)".

Definition prepare_main_chain_config (ogmios_config : ServiceConfig) (genesis_utxo : UtxoId) : IO L (result CliError unit) :=
  cardano_params ←! prepare_cardano_params ogmios_config;
  cardano_parameters_save cardano_params;;
  set_up_cardano_addresses genesis_utxo ogmios_config ;;!
  candidates ← load_from_file INITIAL_PERMISSIONED_CANDIDATES;
  (match candidates with
   | None => save_to_file INITIAL_PERMISSIONED_CANDIDATES []
   | Some _ => mret tt
   end);;
  prepare_bridge_token ;;!
  eprint OUTRO;;
  mret (Ok tt).

(** [PrepareConfigurationCmd::run] *)
Definition prepare_configuration_run : IO L (result CliError unit) :=
  eprint INTRO;;
  establish_bootnodes ;;!
  selected ←! select_genesis_utxo;
  let '(genesis_utxo, private_key, ogmios_config) := selected in
  tx_id ←! prompt_and_init_governance genesis_utxo private_key ogmios_config;
  match tx_id with
  | Some _tx_id =>
      prepare_main_chain_config ogmios_config genesis_utxo ;;!
      eprint (str "🚀 Chain configuration wizards completed successfully!");;
      mret (Ok tt)
  | None =>
      eprint (str "Chain governance has not been initialized. Please run the wizard again.");;
      mret (Ok tt)
  end.
End Prepare.
