(* ===== verification/CliChain.v ===== *)
(** * Chain specification, main chain state and start of a node

    Models the wizards [create-chain-spec], [setup-main-chain-state] and
    [start-node] of [toolkit/partner-chains-cli/src]: they read the configuration
    that [prepare-configuration] wrote and turn it into the genesis of the chain,
    into settings on Cardano and into the command that runs a node. *)

From S2P Require Import Prelude Domain PlutusData AuthoritySelection ContractDatums CandidateKeys TextFormats MainchainEpoch McHash OffchainTx OffchainGovernance OffchainCandidates CliIO CliJson CliConfig CliKeys CliPrepare.

(** ** Genesis of the pallets

    The parts of the genesis configurations that are derived from the wizard's. *)
Record SidechainGenesis := mkSidechainGenesis { sg_genesis_utxo : UtxoId; sg_epoch_duration : Z }.
Record MainChainScripts := mkMainChainScripts {
  ms_committee_candidate_address : bytes;
  ms_d_parameter_policy_id : bytes;
  ms_permissioned_candidates_policy_id : bytes;
}.
Record BridgeScripts := mkBridgeScripts {
  bs_token_policy_id : bytes;
  bs_token_asset_name : bytes;
  bs_illiquid_circulation_supply_validator_address : bytes;
}.
Record GovernedMapScripts := mkGovernedMapScripts { gs_validator_address : bytes; gs_asset_policy_id : bytes }.

Section Genesis.
Context {K : Type}.
(** [MultiSigner::into_account] of an ECDSA key *)
Context (into_account : bytes → bytes).

(** [ParsedPermissionedCandidatesKeys::account_id_32] *)
Definition account_id_32 (self : ParsedPermissionedCandidatesKeys K) : bytes := into_account (ppk_sidechain self).

Definition pallet_sidechain_config (self : CreateChainSpecConfig K) (epoch_duration : Z) : SidechainGenesis :=
  mkSidechainGenesis (cs_genesis_utxo self) epoch_duration.

Definition pallet_partner_chains_session_config (self : CreateChainSpecConfig K) : list (bytes * bytes * K) :=
  (λ c, (account_id_32 c, account_id_32 c, ppk_keys c)) <$> cs_initial_permissioned_candidates_parsed self.

Definition pallet_session_validator_management_config (self : CreateChainSpecConfig K) :
    list (bytes * K) * MainChainScripts :=
  ((λ c, (ppk_sidechain c, ppk_keys c)) <$> cs_initial_permissioned_candidates_parsed self,
   mkMainChainScripts (cs_committee_candidate_address self) (cs_d_parameter_policy_id self)
     (cs_permissioned_candidates_policy_id self)).

Definition bridge_config (self : CreateChainSpecConfig K) : option BridgeScripts * option UtxoId :=
  (Some (mkBridgeScripts (cs_bridge_token_policy self) (cs_bridge_token_asset_name self)
           (cs_illiquid_circulation_supply_validator_address self)),
   Some (cs_genesis_utxo self)).

Definition governed_map_config (self : CreateChainSpecConfig K) : option GovernedMapScripts :=
  addr ← cs_governed_map_validator_address self;
  policy ← cs_governed_map_asset_policy_id self;
  Some (mkGovernedMapScripts addr policy).
End Genesis.

(** ** Creating the chain specification *)

Section ChainSpec.
Context {L : Type} `{!Machine L, !Hex, !SerdeJson} {A K : Type} `{!CandidateVerifier A K, !PartnerChainRuntime K}.

(** [path.join(".")] *)
Fixpoint join (sep : bytes) (parts : list bytes) : bytes :=
  match parts with
  | [] => []
  | [part] => part
  | part :: parts => part ++ sep ++ join sep parts
  end.

Definition load_config_field {T} (field : ConfigFieldDefinition T) : IO L (result CliError T) :=
  loaded ← load_from_file field;
  match loaded with
  | Some value => mret (Ok value)
  | None =>
      path ← config_file_path (cf_file field);
      eprint (str "The '" ++ path ++ str "' configuration file is missing or invalid.
If you are the governance authority, please make sure you have run the `prepare-configuration` command to generate the chain configuration file.
If you are a validator, you can obtain the chain configuration file from the governance authority.");;
      mret (Err (Msg (str "failed to read '" ++ join (str ".") (cf_path field) ++ str "'")))
  end.

(** [CreateChainSpecConfig::load] *)
Definition chain_spec_config_load : IO L (result CliError (CreateChainSpecConfig K)) :=
  initial_permissioned_candidates_raw ←! load_config_field INITIAL_PERMISSIONED_CANDIDATES;
  initial_permissioned_candidates_parsed ←! mret (mapM parsed_keys_try_from initial_permissioned_candidates_raw);
  bootnodes ←! load_config_field BOOTNODES;
  genesis_utxo ←! load_config_field GENESIS_UTXO;
  committee_candidate_address ←! load_config_field COMMITTEE_CANDIDATES_ADDRESS;
  d_parameter_policy_id ←! load_config_field D_PARAMETER_POLICY_ID;
  permissioned_candidates_policy_id ←! load_config_field PERMISSIONED_CANDIDATES_POLICY_ID;
  bridge_token_policy ←! load_config_field BRIDGE_TOKEN_POLICY;
  bridge_token_asset_name ←! load_config_field BRIDGE_TOKEN_ASSET_NAME;
  illiquid_circulation_supply_validator_address ←! load_config_field ILLIQUID_SUPPLY_ADDRESS;
  governed_map_validator_address ← load_from_file GOVERNED_MAP_VALIDATOR_ADDRESS;
  governed_map_asset_policy_id ← load_from_file GOVERNED_MAP_POLICY_ID;
  mret (Ok (mkChainSpecConfig bootnodes genesis_utxo initial_permissioned_candidates_raw
    initial_permissioned_candidates_parsed committee_candidate_address d_parameter_policy_id
    permissioned_candidates_policy_id bridge_token_policy bridge_token_asset_name
    illiquid_circulation_supply_validator_address governed_map_validator_address governed_map_asset_policy_id)).

Definition INITIAL_PERMISSIONED_CANDIDATES_EXAMPLE : bytes := quoted
"Example of 'initial_permissioned_candidates' field with 2 permissioned candidates:
`initial_permissioned_candidates`: [
	{
		`partner_chains_key`: `0x020a1091341fe5664bfa1782d5e0477968906ac916b04cb365ec3153755684d9a1`,
		`keys`: {
			`aura`: `0xd43593c715fdd31c61141abd04a99fd6822c8558854ccde49a5684e7a56da27d`,
			`gran`: `0x88dc3417d5058ec4b4503e0c12ea1a0a89be200f498922423d4334014fa6b0ee`
		}
	},
	{
		`partner_chains_key`: `0x0390084fdbf27d2b79d26a4f13f0cdd982cb755a661969143c37cbc49ef5b91f27`,
		`keys`: {
			`aura`: `0x8eaf04151687736326c9fea17e25fc5287613698c912909cb226aa4794f26a48`,
			`gran`: `0xd17c2d7823ebf260fd138f2d7e27d114cb145d968b5ff5006125f2414fadae69`
		}
	}
]".

(** [colored]: the text between the codes of the terminal *)
Definition colour (code : Z) (s : bytes) : bytes := [27; 91] ++ display_uint code ++ str "m" ++ s ++ [27; 91] ++ str "0m".
Definition red : bytes → bytes := colour 31.
Definition yellow : bytes → bytes := colour 33.

Fixpoint print_candidates (prefix : bytes) (candidates : list PermissionedCandidateKeys) : IO L unit :=
  match candidates with
  | [] => mret tt
  | candidate :: candidates => print (prefix ++ candidate_keys_display candidate);; print_candidates prefix candidates
  end.

Definition print_config (config : CreateChainSpecConfig K) : IO L unit :=
  print (str "Chain parameters:");;
  print (str "- Genesis UTXO: " ++ utxo_id_display (cs_genesis_utxo config));;
  print (str "SessionValidatorManagement Main Chain Configuration:");;
  committee_candidate_address ← io_outcome (address_to_str (cs_committee_candidate_address config));
  print (str "- committee_candidate_address: " ++ committee_candidate_address);;
  print (str "- d_parameter_policy_id: " ++ to_hex_string (cs_d_parameter_policy_id config));;
  print (str "- permissioned_candidates_policy_id: " ++ to_hex_string (cs_permissioned_candidates_policy_id config));;
  print (str "Bridge Configuration (unused if empty):");;
  print (str "- asset name: " ++ to_hex_string (cs_bridge_token_asset_name config));;
  print (str "- asset policy ID: " ++ to_hex_string (cs_bridge_token_policy config));;
  ics_address ← io_outcome (address_to_str (cs_illiquid_circulation_supply_validator_address config));
  print (str "- illiquid circulation supply validator address: " ++ ics_address);;
  print (str "Governed Map Configuration:");;
  validator_address ← io_outcome (address_to_str (default [] (cs_governed_map_validator_address config)));
  print (str "- validator address: " ++ validator_address);;
  print (str "- asset policy ID: " ++
    to_hex_string (default (replicate POLICY_ID_LEN 0) (cs_governed_map_asset_policy_id config)));;
  if is_empty (cs_initial_permissioned_candidates_parsed config) then
    print (red (str "WARNING: The list of initial permissioned candidates is empty. Generated chain spec will not allow the chain to start."));;
    path ← config_file_path (cf_file INITIAL_PERMISSIONED_CANDIDATES);
    print (red (str "Update 'initial_permissioned_candidates' field of " ++ path ++
                str " file with keys of initial committee."));;
    print (yellow INITIAL_PERMISSIONED_CANDIDATES_EXAMPLE)
  else
    print (str "Initial permissioned candidates:");;
    print_candidates (str "- ") (cs_initial_permissioned_candidates_raw config).

(** [CreateChainSpecCmd::run] *)
Definition create_chain_spec_run : IO L (result CliError unit) :=
  config ←! chain_spec_config_load;
  print (str "This wizard will create a chain spec JSON file according to the provided configuration, using WASM runtime code from the compiled node binary.");;
  print_config config;;
  continue_ ← prompt_yes_no (str "Do you want to continue?") true;
  if continue_ : bool then
    let content := create_chain_spec config in
    write_file CHAIN_SPEC_PATH (to_string_pretty content);;
    print (str "chain-spec.json file has been created.");;
    print (str "If you are the governance authority, you can distribute it to the validators.");;
    mret (Ok tt)
  else
    print (str "Aborted.");;
    mret (Ok tt).
End ChainSpec.

(** ** Setting up the main chain state *)

Section MainChainState.
Context {L : Type} `{!Machine L, !Hex, !SerdeJson, !Csl, !CslKeys, !Scripts, !Ogmios L, !OgmiosGenesis L}.
Context {A K : Type} `{!CandidateVerifier A K}.
Context (get_raw : K → bytes → bytes).
Context (generate_ed25519 : result OffchainError PrivateKey) (save_wallet_file : result OffchainError unit)
  (delay : Z) (retries : nat) (tx_json : MultiSigTransactionData → bytes).

Definition load_chain_config_field {T} (field : ConfigFieldDefinition T) : IO L (result CliError T) :=
  loaded ← load_from_file field;
  match loaded with
  | Some value => mret (Ok value)
  | None =>
      path ← chain_config_file_path;
      eprint (str "The '" ++ path ++ str "' configuration file is missing or invalid.
It should have been created and updated with initial permissioned candidates before running this wizard.");;
      mret (Err (Msg (str "failed to read '" ++ join (str ".") (cf_path field) ++ str "'")))
  end.

(** The field of [SortedPermissionedCandidates] *)
Definition sorted_permissioned_candidates (keys : list PermissionedCandidateData) : list PermissionedCandidateData :=
  sort keys.

Definition initial_permissioned_candidates_from_chain_config :
    IO L (result CliError (list PermissionedCandidateData)) :=
  candidates ←! load_chain_config_field INITIAL_PERMISSIONED_CANDIDATES;
  candidates ←! mret (mapM parsed_keys_try_from candidates);
  mret (Ok (sorted_permissioned_candidates (data_of_parsed_keys get_raw <$> candidates))).

(** [GetPermissionedCandidates for C] *)
Definition permissioned_candidates_of (genesis_utxo : UtxoId) : Off L (option (list PermissionedCandidateData)) :=
  network ← query shelley_network;
  get_permissioned_candidates genesis_utxo network.

Definition read_permissioned_candidates (chain_config : ChainConfig) :
    IO L (result CliError (option (list PermissionedCandidateData))) :=
  candidates_opt ← block_on (permissioned_candidates_of (sp_genesis_utxo (cc_chain_parameters chain_config)));
  match candidates_opt with
  | Err e => mret (Err (WithContext (str "Failed to read Permissioned Candidates from Ogmios") (ClientError e)))
  | Ok candidates_opt => mret (Ok (sorted_permissioned_candidates <$> candidates_opt))
  end.

Definition read_d_parameter (chain_config : ChainConfig) : IO L (result CliError (option DParameter)) :=
  d_param_opt ← block_on (get_d_param (sp_genesis_utxo (cc_chain_parameters chain_config)));
  match d_param_opt with
  | Err e => mret (Err (WithContext (str "Failed to get D-parameter from Ogmios") (ClientError e)))
  | Ok d_param_opt => mret (Ok d_param_opt)
  end.

Fixpoint print_candidate_data (candidates : list PermissionedCandidateData) : IO L unit :=
  match candidates with
  | [] => mret tt
  | candidate :: candidates =>
      keys ← io_outcome (candidate_keys_of_data candidate);
      print (candidate_keys_display keys);;
      print_candidate_data candidates
  end.

Definition print_on_chain_and_config_permissioned_candidates
    (on_chain_candidates : option (list PermissionedCandidateData)) (config_candidates : list PermissionedCandidateData) :
    IO L unit :=
  match on_chain_candidates with
  | Some candidates =>
      path ← chain_config_file_path;
      print (str "Permissioned candidates in the " ++ path ++
        str " file does not match the most recent on-chain initial permissioned candidates.");;
      print (str "The most recent on-chain initial permissioned candidates are:");;
      print_candidate_data candidates;;
      print (str "The permissioned candidates in the configuration file are:");;
      print_candidate_data config_candidates
  | None => print (str "List of permissioned candidates is not set on Cardano yet.")
  end.

Definition print_on_chain_d_parameter (on_chain_d_parameter : option DParameter) : IO L unit :=
  match on_chain_d_parameter with
  | Some d_parameter =>
      print (str "D-Parameter on the main chain is: (P=" ++ display_uint (num_permissioned_candidates d_parameter) ++
        str ", R=" ++ display_uint (num_registered_candidates d_parameter) ++ str ")")
  | None => mret tt
  end.

Definition print_tx_to_sign_and_instruction (tx_name : bytes) (tx : MultiSigTransactionData) : IO L unit :=
  print (str "The Partner chain is governed by MultiSig. Sign and submit the " ++ tx_name ++ str " transaction:");;
  print (tx_json tx);;
  print (str "Please find the instructions at: https://github.com/input-output-hk/partner-chains/blob/master/docs/user-guides/governance/governance.md#multi-signature-governance").

Definition set_candidates_on_main_chain (candidates : list PermissionedCandidateData) (genesis_utxo : UtxoId) :
    IO L (result CliError unit) :=
  update ← prompt_yes_no (str "Do you want to set/update the permissioned candidates on the main chain with values from configuration file?") false;
  if update : bool then
    payment_signing_key_path ← prompt_with_default_from_file_and_save CARDANO_PAYMENT_SIGNING_KEY_FILE;
    pkey ←! get_mc_payment_signing_key_from_file payment_signing_key_path;
    result ← block_on (upsert_permissioned_candidates generate_ed25519 save_wallet_file delay retries
                         genesis_utxo candidates pkey);
    match result with
    | Err e => mret (Err (WithContext (str "Permissioned candidates update failed") (ClientError e)))
    | Ok None =>
        print (str "Permissioned candidates on the Cardano are already equal to value from the config file.");;
        mret (Ok tt)
    | Ok (Some (TransactionSubmitted _)) =>
        print (str "Permissioned candidates updated. The change will be effective in two main chain epochs.");;
        mret (Ok tt)
    | Ok (Some (TransactionToSign tx_data)) =>
        print_tx_to_sign_and_instruction (str "update permissioned candidates") tx_data;; mret (Ok tt)
    end
  else mret (Ok tt).

Definition set_d_parameter_on_main_chain (default_d_parameter : DParameter) (genesis_utxo : UtxoId) :
    IO L (result CliError unit) :=
  update ← prompt_yes_no (str "Do you want to set/update the D-parameter on the main chain?") false;
  if update : bool then
    p ← prompt (str "Enter P, the number of permissioned candidates seats, as a non-negative integer.")
          (Some (display_uint (num_permissioned_candidates default_d_parameter)));
    num_permissioned_candidates ←! mret (ok_or (uint_from_str 16 p) InvalidNumber);
    r ← prompt (str "Enter R, the number of registered candidates seats, as a non-negative integer.")
          (Some (display_uint (num_registered_candidates default_d_parameter)));
    num_registered_candidates ←! mret (ok_or (uint_from_str 16 r) InvalidNumber);
    payment_signing_key_path ← prompt_with_default_from_file_and_save CARDANO_PAYMENT_SIGNING_KEY_FILE;
    payment_signing_key ←! get_mc_payment_signing_key_from_file payment_signing_key_path;
    let d_parameter := mkDParameter num_permissioned_candidates num_registered_candidates in
    result ← block_on (upsert_d_param generate_ed25519 save_wallet_file delay retries
                         genesis_utxo d_parameter payment_signing_key);
    match result with
    | Err e => mret (Err (ClientError e))
    | Ok None => print (str "D-parameter is set to (" ++ p ++ str ", " ++ r ++ str ") already.");; mret (Ok tt)
    | Ok (Some (TransactionSubmitted _)) =>
        print (str "D-parameter updated to (" ++ p ++ str ", " ++ r ++
          str "). The change will be effective in two main chain epochs.");;
        mret (Ok tt)
    | Ok (Some (TransactionToSign tx_data)) =>
        print_tx_to_sign_and_instruction (str "update D-parameter") tx_data;; mret (Ok tt)
    end
  else mret (Ok tt).

(** [SetupMainChainStateCmd::run] *)
Definition setup_main_chain_state_run : IO L (result CliError unit) :=
  chain_config ←! load_chain_config;
  print (str "This wizard will set or update D-Parameter and Permissioned Candidates on the main chain. Setting either of these costs ADA!");;
  config_initial_authorities ←! initial_permissioned_candidates_from_chain_config;
  print (str "Will read the current D-Parameter and Permissioned Candidates from the main chain using Ogmios client.");;
  ogmios_config ←! prompt_ogmios_configuration;
  offchain_impl ogmios_config ;;!
  config_file_path ← config_file_path Chain;
  candidates ←! read_permissioned_candidates chain_config;
  (if decide (candidates = Some config_initial_authorities) then
     print (str "Permissioned candidates in the " ++ config_file_path ++
       str " file match the most recent on-chain initial permissioned candidates.");;
     mret (Ok tt)
   else
     print_on_chain_and_config_permissioned_candidates candidates config_initial_authorities;;
     set_candidates_on_main_chain config_initial_authorities (sp_genesis_utxo (cc_chain_parameters chain_config))) ;;!
  d_parameter ←! read_d_parameter chain_config;
  print_on_chain_d_parameter d_parameter;;
  set_d_parameter_on_main_chain (default (mkDParameter 0 0) d_parameter)
    (sp_genesis_utxo (cc_chain_parameters chain_config)) ;;!
  print (str "Done. Please remember that any changes to the Cardano state can be observed immediately, but from the Partner Chain point of view they will be effective in two main chain epochs.");;
  mret (Ok tt).
End MainChainState.

(** ** Starting a node *)

Record StartNodeChainConfig := mkStartNodeChainConfig { sn_cardano : CardanoParameters; sn_bootnodes : list bytes }.

Section StartNode.
Context {L : Type} `{!Machine L, !Hex, !SerdeJson} {K : Type} `{!PartnerChainRuntime K}.

Definition start_node_config_from_value (v : json) : option StartNodeChainConfig :=
  fields ← struct_fields (str <$> ["cardano"; "bootnodes"]%string) v;
  match fields with
  | [cardano; bootnodes] =>
      cardano ← cardano ≫= cardano_parameters_from_value;
      bootnodes ← bootnodes ≫= from_value (serde_vec serde_string);
      Some (mkStartNodeChainConfig cardano bootnodes)
  | _ => None
  end.

Definition key_present (key : KeyDefinition) (existing_keys : list bytes) : IO L bool :=
  match find_existing_key existing_keys key with
  | None =>
      eprint (str "⚠️ " ++ kd_name key ++ str " key is missing from the keystore. Please run generate-keys wizard first.");;
      mret false
  | Some _ => mret true
  end.

(** [Iterator::all] stops at the first key that is missing. *)
Fixpoint keys_present (keys : list KeyDefinition) (existing_keys : list bytes) : IO L bool :=
  match keys with
  | [] => mret true
  | key :: keys =>
      present ← key_present key existing_keys;
      if present : bool then keys_present keys existing_keys else mret false
  end.

Definition check_keystore (base_path : bytes) : IO L (result CliError bool) :=
  listed ←! list_directory (keystore_path base_path);
  let existing_keys := default [] listed in
  present ← keys_present (CROSS_CHAIN :: key_definitions) existing_keys;
  mret (Ok present).

Definition check_chain_spec : IO L bool :=
  exists_ ← file_exists CHAIN_SPEC_PATH;
  if exists_ : bool then mret true
  else
    eprint (str "Chain spec file " ++ CHAIN_SPEC_PATH ++ str " missing.");;
    eprint (str "Please run the create-chain-spec wizard first or you can get it from your chain governance.");;
    mret false.

Definition load_start_node_chain_config : IO L (result CliError (option StartNodeChainConfig)) :=
  chain_config_file_path ← chain_config_file_path;
  chain_config_file ← read_file chain_config_file_path;
  match chain_config_file with
  | None =>
      eprint (str "⚠️ Chain config file " ++ chain_config_file_path ++
        str " does not exists. Run prepare-configuration wizard first.");;
      mret (Ok None)
  | Some chain_config_file =>
      match json_from_str chain_config_file ≫= start_node_config_from_value with
      | Some chain_config => mret (Ok (Some chain_config))
      | None =>
          eprint (str "⚠️ Chain config file " ++ chain_config_file_path ++
            str " is invalid. Run prepare-configuration wizard or fix errors manually.");;
          mret (Ok None)
      end
  end.

Definition prompt_values_fine (substrate_node_base_path : bytes) (config : StartNodeChainConfig)
    (db_connection_string data_source : bytes) : IO L bool :=
  let cardano := sn_cardano config in
  eprint (str "The following values will be used to run the node:");;
  eprint (str "    base path  = " ++ substrate_node_base_path);;
  eprint (str "    chain spec = " ++ CHAIN_SPEC_PATH);;
  eprint (str "    bootnodes  = [" ++ join (str ", ") (sn_bootnodes config) ++ str "]");;
  eprint (str "    environment:");;
  eprint (str "        BLOCK_STABILITY_MARGIN             = " ++ display_uint 0);;
  eprint (str "        CARDANO_SECURITY_PARAMETER         = " ++ display_uint (cp_security_parameter cardano));;
  eprint (str "        CARDANO_ACTIVE_SLOTS_COEFF         = " ++ f64_display (cp_active_slots_coeff cardano));;
  eprint (str "        FIRST_EPOCH_TIMESTAMP_MILLIS       = " ++ display_uint (cp_first_epoch_timestamp_millis cardano));;
  eprint (str "        EPOCH_DURATION_MILLIS              = " ++ display_uint (cp_epoch_duration_millis cardano));;
  eprint (str "        FIRST_EPOCH_NUMBER                 = " ++ display_uint (cp_first_epoch_number cardano));;
  eprint (str "        FIRST_SLOT_NUMBER                  = " ++ display_uint (cp_first_slot_number cardano));;
  eprint (str "        CARDANO_DATA_SOURCE                = " ++ data_source);;
  eprint (str "        DB_SYNC_POSTGRES_CONNECTION_STRING = " ++ db_connection_string);;
  prompt_yes_no (str "Proceed?") true.

(** The shell command: settings of the environment, each followed by an escaped
    end of line, and the node with its arguments. *)
Definition shell_setting (name value : bytes) : bytes := name ++ str "='" ++ value ++ str "' \" ++ [10] ++ str "         ".
Definition environment_prefix (cardano : CardanoParameters) (db_connection_string data_source : bytes) : bytes :=
  shell_setting (str "CARDANO_SECURITY_PARAMETER") (display_uint (cp_security_parameter cardano)) ++
  shell_setting (str "CARDANO_ACTIVE_SLOTS_COEFF") (f64_display (cp_active_slots_coeff cardano)) ++
  shell_setting (str "DB_SYNC_POSTGRES_CONNECTION_STRING") db_connection_string ++
  shell_setting (str "CARDANO_DATA_SOURCE") data_source ++
  shell_setting (str "MC__FIRST_EPOCH_TIMESTAMP_MILLIS") (display_uint (cp_first_epoch_timestamp_millis cardano)) ++
  shell_setting (str "MC__EPOCH_DURATION_MILLIS") (display_uint (cp_epoch_duration_millis cardano)) ++
  shell_setting (str "MC__SLOT_DURATION_MILLIS") (display_uint (cp_slot_duration_millis cardano)) ++
  shell_setting (str "MC__FIRST_EPOCH_NUMBER") (display_uint (cp_first_epoch_number cardano)) ++
  shell_setting (str "MC__FIRST_SLOT_NUMBER") (display_uint (cp_first_slot_number cardano)) ++
  str "BLOCK_STABILITY_MARGIN='0' \" ++ [10].
Definition node_command (executable base_path : bytes) (config : StartNodeChainConfig) (ws_port : Z)
    (db_connection_string data_source : bytes) : bytes :=
  environment_prefix (sn_cardano config) db_connection_string data_source ++ str " " ++ executable ++
  str " --validator --chain " ++ CHAIN_SPEC_PATH ++ str " --base-path " ++ base_path ++
  str " --keystore-path " ++ keystore_path base_path ++ str " --node-key-file " ++ network_key_path base_path ++
  str " --port " ++ display_uint ws_port ++ str " " ++
  join (str " ") ((λ bootnode, str "--bootnodes " ++ bootnode) <$> sn_bootnodes config).

Definition start_node (base_path : bytes) (config : StartNodeChainConfig) (db_connection_string data_source : bytes) :
    IO L (result CliError unit) :=
  executable ←! current_executable;
  default_port ← io_expect (s ← cf_default NODE_P2P_PORT; uint_from_str 16 s);
  ws_port ← save_if_empty NODE_P2P_PORT default_port;
  run_command (node_command executable base_path config ws_port db_connection_string data_source) ;;!
  mret (Ok tt).

(** [StartNodeCmd::run] *)
Definition start_node_run (silent : bool) : IO L (result CliError unit) :=
  base_path ← load_or_prompt_and_save SUBSTRATE_NODE_DATA_BASE_PATH;
  keys_ok ←! check_keystore base_path;
  spec_ok ← (if keys_ok : bool then check_chain_spec else mret false);
  if spec_ok : bool then
    data_source ← io_expect (cf_default CARDANO_DATA_SOURCE);
    save_to_file CARDANO_DATA_SOURCE data_source;;
    db_connection_string ← load_or_prompt_and_save POSTGRES_CONNECTION_STRING;
    chain_config ←! load_start_node_chain_config;
    match chain_config with
    | None => mret (Ok tt)
    | Some chain_config =>
        fine ← (if silent then mret true
                else prompt_values_fine base_path chain_config db_connection_string data_source);
        if fine : bool then
          start_node base_path chain_config db_connection_string data_source ;;!
          mret (Ok tt)
        else
          eprint (str "Aborting. Edit configuration files and rerun the command.");;
          mret (Ok tt)
    end
  else mret (Ok tt).
End StartNode.
