(* ===== verification/CliRegister.v ===== *)
(** * Registration of a candidate by the wizards

    Models [toolkit/partner-chains-cli/src/register], [deregister/mod.rs] and
    [data_source.rs], the signatures of [toolkit/sidechain/domain/src/crypto.rs] and
    the command [registration-signatures] of
    [toolkit/cli/commands/src/registration_signatures.rs].  Registration takes three
    steps on different machines: each prints the command line of the next. *)

From S2P Require Import Prelude Domain PlutusData AuthoritySelection ContractDatums CandidateKeys TextFormats MainchainEpoch McHash OffchainTx OffchainGovernance OffchainCandidates CliIO CliJson CliConfig CliKeys CliPrepare CliChain.

(** ** Signatures *)

(** [secp256k1], [ed25519_zebra] and [sp_core::ecdsa].  A secret key is its bytes, a
    public key of [secp256k1] its compressed form; signatures are compact. *)
Class SigningKeys := {
  secp_secret_from_slice : bytes → option bytes;
  secp_public : bytes → bytes;
  secp_sign : bytes → bytes → bytes;
  secp_public_from_slice : bytes → option bytes;
  ed_public : bytes → bytes;
  ed_sign : bytes → bytes → bytes;
  (** [ecdsa::Pair::from_string] followed by [seed] *)
  ecdsa_seed_from_string : bytes → option bytes;
}.

Record RegisterValidatorMessage := mkRegisterMessage {
  rm_genesis_utxo : UtxoId;
  rm_sidechain_pub_key : bytes;
  rm_registration_utxo : UtxoId;
}.
#[export] Instance register_message_to_datum : ToDatum RegisterValidatorMessage := λ m,
  ConstructorDatum 0
    [to_datum (rm_genesis_utxo m); to_datum (rm_sidechain_pub_key m); to_datum (rm_registration_utxo m)].

Section Crypto.
Context `{!Csl, !CborWriter, !SigningKeys}.

(** [crypto::hash] *)
Definition datum_hash `{ToDatum T} (msg : T) : bytes := blake2b_256 (to_datum_cbor_bytes msg).
Definition sc_public_key_and_signature (key hashed : bytes) : bytes * bytes := (secp_public key, secp_sign key hashed).
Definition sc_public_key_and_signature_for_datum `{ToDatum T} (key : bytes) (datum_msg : T) : bytes * bytes :=
  sc_public_key_and_signature key (datum_hash datum_msg).
Definition cardano_spo_public_key_and_signature `{ToDatum T} (key : bytes) (datum_msg : T) : bytes * bytes :=
  let message := to_datum_cbor_bytes datum_msg in (ed_public key, ed_sign key message).
End Crypto.

(** ** Command lines

    A command that a wizard prints: arguments on lines of their own. *)
Definition backslash : Z := 92.
Definition line_break : bytes := [32; backslash; 10].
Definition print_arg (arg : bytes * bytes) : bytes := line_break ++ str "--" ++ arg.1 ++ str " " ++ arg.2.
Definition print_command (executable subcommand : bytes) (args : list (bytes * bytes)) : bytes :=
  executable ++ str " wizards " ++ subcommand ++ concat (print_arg <$> args).

(** The shell and [clap].  [shell_words] are the words of the command that the shell
    reads in a line, its name first; [clap_matches] are the long options with their
    values that [clap] finds in the words of a command line, for a subcommand that
    is reached by a path of names and declares some options. *)
Inductive ArgKind := Required | Defaulted | Repeated.
Class CommandLine := {
  shell_words : bytes → option (list bytes);
  clap_matches : list bytes → list (bytes * ArgKind) → list bytes → option (list (bytes * bytes));
}.

Definition arg_value (name : bytes) (args : list (bytes * bytes)) : option bytes :=
  snd <$> head (filter (λ arg, arg.1 = name) args).
Definition arg_values (name : bytes) (args : list (bytes * bytes)) : list bytes :=
  (filter (λ arg, arg.1 = name) args).*2.

(** Words without characters that mean something to a shell; [#] starts a comment
    only at the start of a word.  A value starts with no [-]. *)
Definition word_char (x : Z) : Prop := 48 ≤ x ≤ 57 ∨ 65 ≤ x ≤ 90 ∨ 97 ≤ x ≤ 122 ∨ x ∈ str "_-./:,+@".
Definition plain (s : bytes) : Prop := Forall (λ x, word_char x ∨ x = 35) s.
Definition word (s : bytes) : Prop := s ≠ [] ∧ plain s ∧ head s ≠ Some 35.
Definition value_word (s : bytes) : Prop := word s ∧ head s ≠ Some 45.

Definition arg_words (args : list (bytes * bytes)) : list bytes := concat ((λ arg, [str "--" ++ arg.1; arg.2]) <$> args).
(** Arguments that declared options can have *)
Record accepted_args (options : list (bytes * ArgKind)) (args : list (bytes * bytes)) : Prop := {
  args_declared : Forall (λ arg, arg.1 ∈ options.*1 ∧ value_word arg.2) args;
  args_number : Forall (λ option, match option.2 with
    | Required => length (arg_values option.1 args) = 1%nat
    | Defaulted => (length (arg_values option.1 args) ≤ 1)%nat
    | Repeated => True
    end) options;
}.

(** Words that need no quotes, between spaces and escaped ends of lines, are the words
    of the command; a name with a slash is the path of a program.  Options are given by [--],
    the name and, in the next word, the value. *)
Class CommandLineLaws `{!CommandLine} : Prop := {
  shell_words_plain program ws :
    word program → 47 ∈ program → Forall (λ p, (p.1 = str " " ∨ p.1 = line_break) ∧ word p.2) ws →
    shell_words (program ++ concat ((λ p, p.1 ++ p.2) <$> ws)) = Some (program :: ws.*2);
  clap_matches_long path options program args :
    Forall value_word path → Forall value_word options.*1 → NoDup options.*1 → accepted_args options args →
    clap_matches path options (program :: path ++ arg_words args) = Some args;
}.

(** ** Arguments *)

Section Params.
Context `{!Hex, !SigningKeys}.

(** [PartnerChainPublicKeyParam]; [PublicKey::from_str] reads hexadecimal text. *)
Definition partner_chain_public_key_display (key : bytes) : bytes := str "0x" ++ hex_encode key.
Definition partner_chain_public_key_from_str (s : bytes) : option bytes :=
  b ← hex_decode (trim_start_0x s); secp_public_from_slice b.

(** [CandidateKeyParam] *)
Definition candidate_key_try_new_from (id b : bytes) : outcome CandidateKey :=
  if decide (length id = 4%nat) then Ret (mkCandidateKey id b) else Panic.
Definition candidate_key_to_string (key : CandidateKey) : bytes := key_id key ++ str ":" ++ hex_encode (key_bytes key).

Record Register2Cmd := mkRegister2 {
  r2_genesis_utxo : UtxoId;
  r2_registration_utxo : UtxoId;
  r2_partner_chain_pub_key : bytes;
  r2_keys : CandidateKeys;
  r2_partner_chain_signature : bytes;
}.
Definition register2_options : list (bytes * ArgKind) :=
  [(str "genesis-utxo", Required); (str "registration-utxo", Required); (str "partner-chain-pub-key", Required);
   (str "keys", Repeated); (str "partner-chain-signature", Required)].
Definition register2_from_args (args : list (bytes * bytes)) : option Register2Cmd :=
  genesis_utxo ← s ← arg_value (str "genesis-utxo") args; ok (utxo_id_from_str s);
  registration_utxo ← s ← arg_value (str "registration-utxo") args; ok (utxo_id_from_str s);
  partner_chain_pub_key ← s ← arg_value (str "partner-chain-pub-key") args; partner_chain_public_key_from_str s;
  keys ← mapM (λ s, ok (candidate_key_from_str s)) (arg_values (str "keys") args);
  partner_chain_signature ← arg_value (str "partner-chain-signature") args;
  Some (mkRegister2 genesis_utxo registration_utxo partner_chain_pub_key keys partner_chain_signature).

Record Register3Cmd := mkRegister3 {
  r3_genesis_utxo : UtxoId;
  r3_registration_utxo : UtxoId;
  r3_partner_chain_pub_key : bytes;
  r3_keys : CandidateKeys;
  r3_partner_chain_signature : bytes;
  r3_spo_public_key : bytes;
  r3_spo_signature : bytes;
}.
Definition register3_options : list (bytes * ArgKind) :=
  [(str "retry-delay-seconds", Defaulted); (str "retry-count", Defaulted);
   (str "genesis-utxo", Required); (str "registration-utxo", Required); (str "partner-chain-pub-key", Required);
   (str "keys", Repeated); (str "partner-chain-signature", Required); (str "spo-public-key", Required);
   (str "spo-signature", Required)].
Definition register3_from_args (args : list (bytes * bytes)) : option Register3Cmd :=
  genesis_utxo ← s ← arg_value (str "genesis-utxo") args; ok (utxo_id_from_str s);
  registration_utxo ← s ← arg_value (str "registration-utxo") args; ok (utxo_id_from_str s);
  partner_chain_pub_key ← s ← arg_value (str "partner-chain-pub-key") args; ok (decode_hex_vec s);
  keys ← mapM (λ s, ok (candidate_key_from_str s)) (arg_values (str "keys") args);
  partner_chain_signature ← s ← arg_value (str "partner-chain-signature") args; ok (decode_hex_vec s);
  spo_public_key ← s ← arg_value (str "spo-public-key") args; ok (decode_hex_array 32 s);
  spo_signature ← s ← arg_value (str "spo-signature") args; ok (decode_hex_array 64 s);
  Some (mkRegister3 genesis_utxo registration_utxo partner_chain_pub_key keys partner_chain_signature
          spo_public_key spo_signature).

(** The command that is run by a line *)
Context `{!CommandLine}.
Definition register2_of_line (line : bytes) : option Register2Cmd :=
  words ← shell_words line;
  args ← clap_matches [str "wizards"; str "register2"] register2_options words;
  register2_from_args args.
Definition register3_of_line (line : bytes) : option Register3Cmd :=
  words ← shell_words line;
  args ← clap_matches [str "wizards"; str "register3"] register3_options words;
  register3_from_args args.
End Params.

(** ** The three steps *)

Section Register.
Context {L : Type} `{!Machine L, !Hex, !SerdeJson, !Csl, !CslKeys, !CborWriter, !SigningKeys, !Scripts, !Ogmios L, !OgmiosGenesis L}.
Context (delay : Z) (retries : nat).

(** [read_generated_keys] *)
Definition generated_keys_raw_from_value (v : json) : option (bytes * gmap bytes bytes) :=
  fields ← struct_fields (str <$> ["partner_chains_key"; "keys"]%string) v;
  match fields with
  | [partner_chains_key; keys] =>
      partner_chains_key ← partner_chains_key ≫= from_value serde_byte_string;
      keys ← keys ≫= from_value serde_byte_map;
      Some (partner_chains_key, keys)
  | _ => None
  end.
Definition read_generated_keys : IO L (result CliError (bytes * CandidateKeys)) :=
  keys_file_content ← read_file KEYS_FILE_PATH;
  match keys_file_content with
  | None => mret (Err (Msg (str "failed to read keys file")))
  | Some keys_file_content =>
      match json_from_str keys_file_content ≫= generated_keys_raw_from_value with
      | None => mret (Err (Msg (str "invalid keys file")))
      | Some (partner_chains_key, raw_keys) =>
          keys ← io_outcome (mapM (M:=outcome) (λ '(id, b), candidate_key_try_new_from id b) (btree_iter raw_keys));
          mret (Ok (partner_chains_key, keys))
      end
  end.

Definition load_chain_field {T} (field : ConfigFieldDefinition T) : IO L (result CliError T) :=
  loaded ← load_from_file field;
  match loaded with
  | Some value => mret (Ok value)
  | None =>
      eprint (str "⚠️ The chain configuration file `pc-chain-config.json` is missing or invalid.
 If you are the governance authority, please make sure you have run the `prepare-configuration` command to generate the chain configuration file.
 If you are a validator, you can obtain the chain configuration file from the governance authority.");;
      mret (Err (Msg (str "failed to read " ++ join (str ".") (cf_path field))))
  end.

(** [csl::payment_address] *)
Definition payment_address (key : bytes) (network : Network) : bytes :=
  enterprise_key_address (network_id_kind_to_u8 network) (blake2b_224 key).
Definition derive_address (cardano_network : Network) : IO L (result CliError bytes) :=
  key_file ← prompt_with_default_from_file_and_save CARDANO_PAYMENT_VERIFICATION_KEY_FILE;
  key_bytes ←! get_payment_verification_key_bytes_from_file key_file;
  mret (Ok (payment_address key_bytes cardano_network)).

(** [str::replace] of ["0x"] and [str::trim_matches] of a quotation mark *)
Definition drop_quotes (s : bytes) : bytes :=
  let trim := skip_while (λ x, x =? 34) in reverse (trim (reverse (trim s))).
Definition seed_phrase_file (keystore_path sidechain_pub_key : bytes) : bytes :=
  keystore_path ++ str "/" ++ key_type_hex CROSS_CHAIN ++ remove_0x sidechain_pub_key.

Definition get_ecdsa_pair_from_file (keystore_path sidechain_pub_key : bytes) : IO L (result CliError bytes) :=
  let seed_phrase_file_path := seed_phrase_file keystore_path sidechain_pub_key in
  seed ← read_file seed_phrase_file_path;
  match seed with
  | None => mret (Err (Msg (str "seed phrase file " ++ seed_phrase_file_path ++ str " not found")))
  | Some seed => mret (ok_or (ecdsa_seed_from_string (drop_quotes seed)) (Msg (str "invalid seed phrase")))
  end.

Definition sign_registration_message_with_sidechain_key (message : RegisterValidatorMessage) (seed : bytes) :
    result CliError bytes :=
  secret_key ← ok_or (secp_secret_from_slice seed) (Msg (str "malformed or out-of-range secret key"));
  Ok (hex_encode (sc_public_key_and_signature_for_datum secret_key message).2).

Definition register2_args (genesis_utxo registration_utxo : UtxoId) (partner_chains_key_str pc_signature : bytes)
    (keys : CandidateKeys) : list (bytes * bytes) :=
  [(str "genesis-utxo", utxo_id_display genesis_utxo);
   (str "registration-utxo", utxo_id_display registration_utxo);
   (str "partner-chain-pub-key", partner_chains_key_str);
   (str "partner-chain-signature", pc_signature)]
  ++ ((λ key, (str "keys", candidate_key_to_string key)) <$> keys).

(** [Register1Cmd::run] *)
Definition register1_run : IO L (result CliError unit) :=
  print (str "⚙️ Registering as a committee candidate (step 1/3)");;
  genesis_utxo ←! load_chain_field GENESIS_UTXO;
  node_data_base_path ← load_or_prompt_and_save SUBSTRATE_NODE_DATA_BASE_PATH;
  generated ← read_generated_keys;
  match generated with
  | Err e =>
      eprint (str "⚠️ The keys file `" ++ KEYS_FILE_PATH ++
        str "` is missing or invalid. Please run the `generate-keys` command first");;
      mret (Err e)
  | Ok (partner_chains_key, keys) =>
      print (str "This wizard will query your UTXOs using address derived from the payment verification key and Ogmios service");;
      ogmios_configuration ←! prompt_ogmios_configuration;
      shelley_genesis_config ←! get_shelley_config ogmios_configuration;
      address ←! derive_address (sg_network shelley_genesis_config);
      utxo_query_result ←! query_utxos_of ogmios_configuration address;
      if is_empty utxo_query_result then
        eprint (str "⚠️ No UTXOs found for the given address");;
        eprint (str "The registering transaction requires at least one UTXO to be present at the address.");;
        mret (Err (Msg (str "No UTXOs found")))
      else
        registration_utxo ← select_from_utxos (str "Select UTXO to use for registration") utxo_query_result;
        print (str "Please do not spend this UTXO, it needs to be consumed by the registration transaction.");;
        print [];;
        let registration_message := mkRegisterMessage genesis_utxo partner_chains_key registration_utxo in
        pair ← get_ecdsa_pair_from_file (keystore_path node_data_base_path) (to_hex_string partner_chains_key);
        match pair with
        | Err e =>
            eprint (str "⚠️ Failed to read partner chain key from the keystore");;
            mret (Err e)
        | Ok seed =>
            pc_signature ←! mret (sign_registration_message_with_sidechain_key registration_message seed);
            executable ←! current_executable;
            print (str "Run the following command to generate signatures on the next step. It has to be executed on the machine with your SPO cold signing key.");;
            print [];;
            print (print_command executable (str "register2")
              (register2_args genesis_utxo registration_utxo (to_hex_string partner_chains_key) pc_signature keys));;
            mret (Ok tt)
        end
  end.

Definition register3_args (self : Register2Cmd) (spo_public_key spo_signature : bytes) : list (bytes * bytes) :=
  [(str "genesis-utxo", utxo_id_display (r2_genesis_utxo self));
   (str "registration-utxo", utxo_id_display (r2_registration_utxo self));
   (str "partner-chain-pub-key", partner_chain_public_key_display (r2_partner_chain_pub_key self));
   (str "partner-chain-signature", r2_partner_chain_signature self);
   (str "spo-public-key", spo_public_key);
   (str "spo-signature", spo_signature)]
  ++ ((λ key, (str "keys", candidate_key_to_string key)) <$> r2_keys self).

(** [Register2Cmd::run] *)
Definition register2_run (self : Register2Cmd) : IO L (result CliError unit) :=
  print (str "⚙️ Register as a committee candidate (step 2/3)");;
  print (str "  This command will use SPO cold signing key for signing the registration message.");;
  stake_pool_signing_key_path ← prompt (str "Path to Stake Pool signing key file") (Some (str "cold.skey"));
  mainchain_signing_key ← get_mc_staking_signing_key_from_file stake_pool_signing_key_path;
  match mainchain_signing_key with
  | Err e => eprint (str "Unable to read Stake Pool signing key file");; mret (Err e)
  | Ok mainchain_signing_key =>
      let registration_message :=
        mkRegisterMessage (r2_genesis_utxo self) (r2_partner_chain_pub_key self) (r2_registration_utxo self) in
      let '(verification_key, spo_signature) :=
        cardano_spo_public_key_and_signature mainchain_signing_key registration_message in
      executable ←! current_executable;
      print (str "To finish the registration process, run the following command on the machine with the partner chain dependencies running:" ++ [10]);;
      print (print_command executable (str "register3")
        (register3_args self (to_hex_string verification_key) (to_hex_string spo_signature)));;
      mret (Ok tt)
  end.

(** [set_data_sources_env] *)
Definition set_data_sources_env (config : CardanoParameters) (postgres_connection_string data_source : bytes) : IO L unit :=
  set_env_var (str "DB_SYNC_POSTGRES_CONNECTION_STRING") postgres_connection_string;;
  set_env_var (str "CARDANO_DATA_SOURCE") data_source;;
  set_env_var (str "CARDANO_SECURITY_PARAMETER") (display_uint (cp_security_parameter config));;
  set_env_var (str "CARDANO_ACTIVE_SLOTS_COEFF") (f64_display (cp_active_slots_coeff config));;
  set_env_var (str "BLOCK_STABILITY_MARGIN") (str "0");;
  set_env_var (str "MC__FIRST_EPOCH_TIMESTAMP_MILLIS") (display_uint (cp_first_epoch_timestamp_millis config));;
  set_env_var (str "MC__FIRST_EPOCH_NUMBER") (display_uint (cp_first_epoch_number config));;
  set_env_var (str "MC__EPOCH_DURATION_MILLIS") (display_uint (cp_epoch_duration_millis config));;
  set_env_var (str "MC__FIRST_SLOT_NUMBER") (display_uint (cp_first_slot_number config)).

Definition prepare_mc_follower_env : IO L (result CliError unit) :=
  data_source ← io_expect (cf_default CARDANO_DATA_SOURCE);
  save_to_file CARDANO_DATA_SOURCE data_source;;
  postgres_connection_string ← prompt_with_default_from_file_and_save POSTGRES_CONNECTION_STRING;
  chain_config ←! load_chain_config;
  set_data_sources_env (cc_cardano chain_config) postgres_connection_string data_source;;
  mret (Ok tt).

(** [McEpochConfigJson], with the derived [Deserialize for MainchainEpochConfig] *)
Definition epoch_config_from_value (v : json) : option MainchainEpochConfig :=
  fields ← struct_fields (str <$> ["epoch_duration_millis"; "slot_duration_millis"; "first_epoch_timestamp_millis";
    "first_epoch_number"; "first_slot_number"]%string) v;
  match fields with
  | [epoch_duration_millis; slot_duration_millis; first_epoch_timestamp_millis; first_epoch_number; first_slot_number] =>
      epoch_duration_millis ← epoch_duration_millis ≫= from_value (serde_uint 64);
      slot_duration_millis ←
        match slot_duration_millis with
        | Some v => from_value (serde_uint 64) v
        | None => Some 1000
        end;
      first_epoch_timestamp_millis ← first_epoch_timestamp_millis ≫= from_value (serde_uint 64);
      first_epoch_number ← first_epoch_number ≫= from_value (serde_uint 32);
      first_slot_number ← first_slot_number ≫= from_value (serde_uint 64);
      Some (mkEpochConfig epoch_duration_millis slot_duration_millis first_epoch_timestamp_millis
              first_epoch_number first_slot_number)
  | _ => None
  end.
Definition epoch_config_json_from_value (v : json) : option MainchainEpochConfig :=
  fields ← struct_fields [str "cardano"] v;
  match fields with [cardano] => cardano ≫= epoch_config_from_value | _ => None end.

Definition get_current_mainchain_epoch : IO L (result CliError Z) :=
  config_file_path ← config_file_path Chain;
  chain_config_json ← read_file config_file_path;
  match chain_config_json with
  | None => mret (Err (Msg (str "⚠️ The chain configuration file `" ++ config_file_path ++ str "` is missing or invalid.")))
  | Some chain_config_json =>
      match json_from_str chain_config_json ≫= epoch_config_json_from_value with
      | None => mret (Err (Msg (str "invalid chain configuration")))
      | Some mc_epoch_config =>
          timestamp ← current_timestamp;
          epoch ← io_outcome (timestamp_to_mainchain_epoch mc_epoch_config timestamp);
          mret (map_err (λ e, Msg match e with
            | TimestampTooSmall => str "Timestamp before first Mainchain Epoch"
            | EpochTooBig => str "Epoch number exceeds maximal allowed value"
            | EpochTooSmall => str "Epoch number is below the allowed value"
            | SlotTooSmall => str "Slot number is below the allowed value"
            end) epoch)
      end
  end.

Definition show_registration_status (mc_epoch_number : Z) (stake_pool_public_key : bytes) : IO L (result CliError unit) :=
  temp_dir_path ← new_tmp_dir;
  temp_dir_path ← io_expect (from_utf8 temp_dir_path);
  node_executable ←! current_executable;
  output ←! run_command (node_executable ++ str " registration-status --mainchain-pub-key " ++
    to_hex_string stake_pool_public_key ++ str " --mc-epoch-number " ++ display_uint mc_epoch_number ++
    str " --chain chain-spec.json --base-path " ++ temp_dir_path);
  print (str "Registration status:");;
  print output;;
  mret (Ok tt).

Definition candidate_registration_of (self : Register3Cmd) (payment_signing_key : PrivateKey) : CandidateRegistration :=
  mkCandidateRegistration (mkAdaBasedStaking (r3_spo_public_key self) (r3_spo_signature self))
    (r3_partner_chain_pub_key self) (r3_partner_chain_signature self) (to_pub_key_hash payment_signing_key)
    (r3_registration_utxo self) (r3_keys self).

(** [McEpochNumber::next] *)
Definition next_epoch (epoch : Z) : Z := wadd 32 epoch 1.

Definition query_registration_status (self : Register3Cmd) : IO L (result CliError unit) :=
  print (str "The registration status will be queried from a db-sync instance for which a valid connection string is required. Please note that this db-sync instance needs to be up and synced with the main chain.");;
  current_mc_epoch_number ← get_current_mainchain_epoch;
  match current_mc_epoch_number with
  | Err e =>
      eprint (str "Unable to derive current mainchain epoch");;
      mret (Err e)
  | Ok current_mc_epoch_number =>
      let mc_epoch_number_to_query := next_epoch (next_epoch current_mc_epoch_number) in
      prepare_mc_follower_env ;;!
      print (str "Registrations status for epoch " ++ display_uint mc_epoch_number_to_query ++ str ":");;
      show_registration_status mc_epoch_number_to_query (r3_spo_public_key self) ;;!
      mret (Ok tt)
  end.

(** [Register3Cmd::run] *)
Definition register3_run (self : Register3Cmd) : IO L (result CliError unit) :=
  print (str "⚙️ Register as a committee candidate (step 3/3)");;
  print (str "This command will submit the registration message to the mainchain.");;
  genesis ← load_from_file GENESIS_UTXO;
  match genesis with
  | None =>
      path ← config_file_path Chain;
      eprint (str "⚠️ The chain configuration file `" ++ path ++ str "` is missing or invalid." ++ [10]);;
      eprint (str "⚠️ If you are the governance authority, please make sure you have run the `prepare-configuration` command to generate the chain configuration file." ++ [10]);;
      eprint (str "⚠️ If you are a validator, you can obtain the chain configuration file from the governance authority." ++ [10]);;
      mret (Err (Msg (str "Chain config missing or invalid")))
  | Some _ =>
      print (str "To proceed with the next command, a payment signing key is required. Please note that this key will not be stored or communicated over the network.");;
      cardano_payment_signing_key_path ← prompt_with_default_from_file_and_save CARDANO_PAYMENT_SIGNING_KEY_FILE;
      payment_signing_key ←! get_mc_payment_signing_key_from_file cardano_payment_signing_key_path;
      ogmios_configuration ←! establish_ogmios_configuration;
      let candidate_registration := candidate_registration_of self payment_signing_key in
      offchain_impl ogmios_configuration ;;!
      registered ← block_on (run_register delay retries (r3_genesis_utxo self) candidate_registration payment_signing_key);
      match registered with
      | Err e => mret (Err (WithContext (str "Candidate registration failed: ") (ClientError e)))
      | Ok _ =>
          show ← prompt_yes_no (str "Show registration status?") true;
          if show : bool then query_registration_status self else mret (Ok tt)
      end
  end.

(** ** Deregistration *)

Definition read_chain_config_file : IO L (result CliError ChainConfig) :=
  chain_config ← load_chain_config;
  path ← chain_config_file_path;
  mret (map_err (λ _, Msg (str "Couldn't parse chain configuration file " ++ path ++
    str ". The chain configuration file that was used for registration is required in the working directory.")) chain_config).

(** [DeregisterCmd::run] *)
Definition deregister_run : IO L (result CliError unit) :=
  chain_config ←! read_chain_config_file;
  print (str "This wizard will remove the specified candidate from the committee candidates based on the following chain parameters:" ++ [10] ++
    sidechain_params_display (cc_chain_parameters chain_config) ++ str "." ++ [10] ++
    str "Committee Candidate Validator Address is '" ++
    mca_committee_candidates_address (cc_cardano_addresses chain_config) ++ str "'" ++ [10]);;
  print (str "Payment signing key and cold verification key used for registration are required to deregister.");;
  payment_signing_key_path ← prompt_with_default_from_file_and_save CARDANO_PAYMENT_SIGNING_KEY_FILE;
  payment_signing_key ←! get_mc_payment_signing_key_from_file payment_signing_key_path;
  cold_vkey_path ← prompt_with_default_from_file_and_save CARDANO_COLD_VERIFICATION_KEY_FILE;
  stake_ownership_pub_key ←! get_stake_pool_verification_key_from_file cold_vkey_path;
  ogmios_config ←! establish_ogmios_configuration;
  offchain_impl ogmios_config ;;!
  deregistered ← block_on (run_deregister delay retries (sp_genesis_utxo (cc_chain_parameters chain_config))
    payment_signing_key stake_ownership_pub_key);
  match deregistered with
  | Err e => mret (Err (WithContext (str "Candidate deregistration failed: ") (ClientError e)))
  | Ok _ => mret (Ok tt)
  end.
End Register.

(** ** The command [registration-signatures] *)

Section Signatures.
Context `{!Hex, !Csl, !CborWriter, !SigningKeys}.

Record RegistrationSignaturesCmd := mkRegistrationSignatures {
  rs_genesis_utxo : UtxoId;
  rs_mainchain_signing_key : bytes;
  rs_sidechain_signing_key : bytes;
  rs_registration_utxo : UtxoId;
}.
Record RegistrationCmdOutput := mkRegistrationOutput {
  ro_spo_public_key : bytes;
  ro_spo_signature : bytes;
  ro_sidechain_public_key : bytes;
  ro_sidechain_signature : bytes;
}.

Definition to_register_validator_message (self : RegistrationSignaturesCmd) (genesis_utxo : UtxoId) : RegisterValidatorMessage :=
  mkRegisterMessage genesis_utxo (secp_public (rs_sidechain_signing_key self)) (rs_registration_utxo self).
Definition sign_and_prepare_registration_cmd_output (self : RegisterValidatorMessage) (mainchain_key sidechain_key : bytes) :
    RegistrationCmdOutput :=
  let '(spo_public_key, spo_signature) := cardano_spo_public_key_and_signature mainchain_key self in
  let '(sc_pub_key, sc_signature) := sc_public_key_and_signature_for_datum sidechain_key self in
  mkRegistrationOutput spo_public_key spo_signature sc_pub_key sc_signature.
Definition registration_signatures_execute (self : RegistrationSignaturesCmd) : RegistrationCmdOutput :=
  sign_and_prepare_registration_cmd_output (to_register_validator_message self (rs_genesis_utxo self))
    (rs_mainchain_signing_key self) (rs_sidechain_signing_key self).
End Signatures.
