(* ===== verification/CliCommand.v ===== *)
(** * The commands of the wizards

    Models [Command] and [CommonArguments] of
    [toolkit/partner-chains-cli/src/lib.rs], and sessions: runs of commands one
    after the other, on files that other programs and people also change. *)

From S2P Require Import Prelude Domain PlutusData AuthoritySelection ContractDatums CandidateKeys TextFormats MainchainEpoch McHash OffchainTx OffchainGovernance OffchainCandidates OffchainVersions CliIO CliJson CliConfig CliKeys CliPrepare CliChain CliRegister.

Record CommonArguments := mkCommonArguments { retry_delay_seconds : Z; retry_count : nat }.
Definition default_common_arguments : CommonArguments := mkCommonArguments 5 59.

Inductive Command :=
  | GenerateKeys
  | PrepareConfiguration (common_arguments : CommonArguments)
  | SetupMainChainState (common_arguments : CommonArguments)
  | CreateChainSpec
  | StartNode (silent : bool)
  | Register1
  | Register2 (cmd : Register2Cmd)
  | Register3 (common_arguments : CommonArguments) (cmd : Register3Cmd)
  | Deregister (common_arguments : CommonArguments).

Section Command.
Context {L : Type} `{!Machine L, !Hex, !SerdeJson, !Csl, !CslKeys, !CborWriter, !SigningKeys, !Scripts, !Ogmios L, !OgmiosGenesis L}.
Context `{!PeerIds, !NodeKeys} {A K : Type} `{!CandidateVerifier A K, !PartnerChainRuntime K}.
Context (get_raw : K → bytes → bytes) (generate_ed25519 : result OffchainError PrivateKey)
  (save_wallet_file : result OffchainError unit) (tx_json : MultiSigTransactionData → bytes).

(** [Command::run] *)
Definition command_run (self : Command) : IO L (result CliError unit) :=
  match self with
  | GenerateKeys => generate_keys_run
  | PrepareConfiguration args => prepare_configuration_run (retry_delay_seconds args) (retry_count args)
  | CreateChainSpec => create_chain_spec_run
  | SetupMainChainState args =>
      setup_main_chain_state_run get_raw generate_ed25519 save_wallet_file
        (retry_delay_seconds args) (retry_count args) tx_json
  | StartNode silent => start_node_run silent
  | Register1 => register1_run
  | Register2 cmd => register2_run cmd
  | Register3 args cmd => register3_run (retry_delay_seconds args) (retry_count args) cmd
  | Deregister args => deregister_run (retry_delay_seconds args) (retry_count args)
  end.

(** The world that a run leaves, however it ends *)
Definition left_by {X} (e : ending L X) : World L :=
  match e with Finished w _ | Exited w _ | Panicked w => w end.

(** Changes from outside between two runs: of the state of the node, of the
    directories, and of files other than the configuration files. *)
Definition outside (w w' : World L) : Prop :=
  environ w' = environ w ∧ directories (disk w) ⊆ directories (disk w') ∧
  ∀ file, config_path (environ w) file ∉ directories (disk w) →
    (config_path (environ w) file ∉ directories (disk w')) ∧
    files (disk w') !! config_path (environ w) file = files (disk w) !! config_path (environ w) file.

Inductive session : World L → World L → Prop :=
  | session_start w : session w w
  | session_run w w' cmd : session w w' → session w (left_by (command_run cmd w'))
  | session_outside w w' w'' : session w w' → outside w' w'' → session w w''.
End Command.
