(* ===== verification/CliFrame.v ===== *)
(** * What a command of the wizards changes

    The invariant of the configuration files ([typed]): every field that is present
    can be read at its type.  [writes F m Φ] says that a command keeps it, however it
    ends, changes at most the fields in [F] (and the state of the main chain only if
    [F] has it), and returns a value with [Φ]; [keeps] proves such statements by
    going through the steps of a command. *)

From S2P Require Import Prelude Domain PlutusData AuthoritySelection ContractDatums CandidateKeys TextFormats MainchainEpoch McHash OffchainTx OffchainGovernance OffchainCandidates OffchainVersions CliIO CliJson CliConfig CliStore CliKeys CliPrepare CliChain CliRegister.

#[local] Arguments config_path : simpl never.

(** ** Text and numbers *)

(** Unicode texts can be concatenated. *)
Lemma is_utf8_fuel n m b : (length b ≤ n)%nat → (length b ≤ m)%nat → is_utf8 n b = is_utf8 m b.
Proof.
  revert m b. induction n as [|n IH]; intros m b Hn Hm.
  { destruct b; [by destruct m|simpl in Hn; lia]. }
  destruct m as [|m]; [destruct b; [done|simpl in Hm; lia]|].
  destruct b as [|x b]; [done|]. simpl in Hn, Hm |- *.
  repeat case_match; simpl in *; rewrite ?(IH m) by lia; done.
Qed.
Lemma is_utf8_app n a b : (length a ≤ n)%nat → is_utf8 n a = true → is_utf8 (length b) b = true →
  is_utf8 (n + length b) (a ++ b) = true.
Proof.
  revert a. induction n as [|n IH]; intros a Hn Ha Hb.
  { destruct a; [done|simpl in Hn; lia]. }
  destruct a as [|x a]; [rewrite <-Hb; apply is_utf8_fuel; rewrite ?app_nil_l; lia|].
  simpl in Ha, Hn |- *.
  destruct (x <=? 127); [apply IH; [lia|done|done]|].
  destruct ((194 <=? x) && (x <=? 223)).
  { destruct a as [|y a]; [done|]. simpl in *. apply andb_true_iff in Ha as [-> Ha]. simpl.
    apply IH; [lia|done|done]. }
  destruct ((224 <=? x) && (x <=? 239)).
  { destruct a as [|y [|z a]]; [done..|]. simpl in *. apply andb_true_iff in Ha as [-> Ha]. simpl.
    apply IH; [lia|done|done]. }
  destruct ((240 <=? x) && (x <=? 244)); [|done].
  destruct a as [|y [|z [|u a]]]; [done..|]. simpl in *. apply andb_true_iff in Ha as [-> Ha]. simpl.
  apply IH; [lia|done|done].
Qed.
Lemma from_utf8_Some a b : from_utf8 a = Some b ↔ is_utf8 (length a) a = true ∧ b = a.
Proof. unfold from_utf8. case_match; naive_solver. Qed.
Lemma utf8_app a b : from_utf8 a = Some a → from_utf8 b = Some b → from_utf8 (a ++ b) = Some (a ++ b).
Proof.
  rewrite !from_utf8_Some. intros [Ha _] [Hb _]. split; [|done]. rewrite length_app. by apply is_utf8_app.
Qed.

Lemma parse_digits_nonneg s : ∀ acc n, 0 ≤ acc → parse_digits acc s = Some n → 0 ≤ n.
Proof.
  induction s as [|x s IH]; simpl; intros acc n Hacc; [by intros [= <-]|].
  unfold digit. destruct ((48 <=? x) && (x <=? 57)) eqn:Hx; simpl; [|done].
  apply andb_true_iff in Hx as [Hx _]. apply Z.leb_le in Hx. apply IH. lia.
Qed.
Lemma uint_from_str_in_u w s n : uint_from_str w s = Some n → in_u w n.
Proof.
  unfold uint_from_str, parse_nonempty.
  set (t := match s with 43 :: s => s | _ => s end). destruct (is_empty t); simpl; [done|].
  destruct (parse_digits 0 t) as [m|] eqn:Hm; simpl; [|done].
  destruct (Z.ltb_spec m (u_bound w)); [|done]. intros [= <-]. split; [|done].
  by eapply parse_digits_nonneg, Hm.
Qed.

(** ** Laws of the libraries

    Hexadecimal text stands for bytes; a hash has 28 bytes; an address is Unicode
    text that is not hexadecimal; a peer identifier is Unicode text. *)
Class HexBytes `{!Hex} : Prop := {
  from_hex_bytes s b : from_hex s = Some b → Forall is_byte b;
  hex_encode_length b : length (hex_encode b) = (2 * length b)%nat;
}.
Definition is_hash (b : bytes) : Prop := Forall is_byte b ∧ length b = 28%nat.
Class CslText `{!Csl} : Prop := {
  blake2b_224_hash b : is_hash (blake2b_224 b);
  public_hash_hash b : is_hash (public_hash b);
  script_address_utf8 n h : from_utf8 (enterprise_script_address n h) = Some (enterprise_script_address n h);
}.
Class AddressNotHex `{!Csl, !Hex} : Prop :=
  script_address_not_hex n h : from_hex (enterprise_script_address n h) = None.
Class PeerIdText `{!PeerIds} : Prop := peer_id_utf8 k p : peer_id_of_ed25519 k = Some p → from_utf8 p = Some p.

(** The node answers with numbers of the width that Ogmios documents, with outputs
    whose index is below [2^15], and with a coefficient that JSON text keeps. *)
Class NodeTyped (L : Type) `{!Ogmios L, !OgmiosGenesis L, !SerdeJson} : Prop := {
  node_utxos address s utxos : query_utxos address s = Ok utxos →
    Forall (λ u, utxo_id_wf (utxo_id_of u) ∧ utxo_index (utxo_id_of u) < 2 ^ 15) utxos;
  node_eras s eras : era_summaries s = Ok eras →
    Forall (λ e, in_u 64 (ce_start_seconds e) ∧ in_u 64 (ce_start_slot e) ∧ in_u 32 (ce_start_epoch e)) eras;
  node_genesis s r : shelley_genesis_configuration s = Ok r →
    in_u 32 (sr_security_parameter r) ∧ in_u 32 (sr_epoch_length r) ∧ in_u 32 (sr_slot_length_milliseconds r);
  node_coefficient r b : decimal_to_f64 r = Some b → f64_is_finite b = true ∧ f64_exact b;
}.

(** Programs that are started only add directories and leave the configuration
    files alone. *)
Class QuietPrograms (L : Type) `{!Machine L} : Prop :=
  execute_quiet cmd env d d' c : execute cmd env d = (d', c) →
    directories d ⊆ directories d' ∧
    (∀ file, config_path env file ∉ directories d →
      (config_path env file ∉ directories d') ∧ files d' !! config_path env file = files d !! config_path env file).

(** ** The invariant *)

Section Typed.
Context {L : Type} `{!Machine L, !MachineLaws L, !Hex, !SerdeJson, !SerdeJsonLaws}.
Implicit Types (w : World L).

(** No other file of the tool is at the path of a configuration file. *)
Definition separate (env : gmap bytes bytes) : Prop :=
  (∀ file, config_path env file ∉ [KEYS_FILE_PATH; CHAIN_SPEC_PATH]) ∧
  (∀ t dir file, temp_dir t = Some dir →
    config_path env file ≠ dir ∧ config_path env file ≠ dir ++ str "/chain-spec.json") ∧
  (∀ base name file, config_path env file ≠ keystore_path base ++ str "/" ++ name ∧
    config_path env file ≠ network_key_path base).

Definition typed w : Prop :=
  stores_ok w ∧ separate (environ w) ∧
  (∀ f, f ∈ config_fields → ∀ v, raw_value w (af_key f) = Some v → is_Some (from_value (cf_serde (af_field f)) v)).

Lemma typed_files w w' : disk w = disk w' → environ w = environ w' → typed w → typed w'.
Proof.
  intros Hd He (Hs & Hsep & Ht). unfold typed, stores_ok, raw_value, config_value in *. by rewrite <-He, <-Hd.
Qed.

(** What a command can change: fields of the configuration, the state of the main
    chain, and other files *)
Inductive change := field (T : Type) (f : ConfigFieldDefinition T) | main_chain | other_files.
#[global] Arguments field {T} f.

(** From [w0], only the parts in [F] have changed. *)
Definition frame (F : list change) w0 w : Prop :=
  typed w ∧ (∀ g, g ∈ config_fields → field (af_field g) ∉ F → raw_value w (af_key g) = raw_value w0 (af_key g)) ∧
  (main_chain ∉ F → ledger w = ledger w0) ∧
  (∀ file, config_path (environ w) file = config_path (environ w0) file) ∧
  (other_files ∉ F → ∀ path, (∀ file, path ≠ config_path (environ w0) file) →
     files (disk w) !! path = files (disk w0) !! path).

#[export] Instance frame_untraced F w0 : Untraced (frame F w0).
Proof.
  intros w w' Hd He Hl (Ht & Hf & Hm & Hp & Ho).
  split_and!; [by eapply typed_files, Ht| |by rewrite <-Hl|by rewrite <-He|by rewrite <-Hd].
  unfold raw_value, config_value in *. by rewrite <-He, <-Hd.
Qed.

(** [m] changes the parts in [F] only, and keeps the configuration well typed. *)
Definition writes {X} (F : list change) (m : IO L X) (Φ : X → Prop) : Prop := ∀ w0, keeps (frame F w0) m Φ.

Lemma frame_refl F w : typed w → frame F w w.
Proof. intros Hw. by split; [done|split_and!]. Qed.
Lemma keeps_writes {X} F F' (m : IO L X) Φ w0 : writes F m Φ → F ⊆ F' → keeps (frame F' w0) m Φ.
Proof.
  intros Hm HF w (Ht & Hf & Hl & Hp & Ho). specialize (Hm w w (frame_refl F w Ht)).
  assert (∀ w', frame F w w' → frame F' w0 w') as Hframe.
  { intros w' (Ht' & Hf' & Hl' & Hp' & Ho'). split_and!; [done| | |by intros file; rewrite Hp'|].
    - intros g Hg Hn. rewrite Hf' by (done || set_solver). by apply Hf.
    - intros Hn. rewrite Hl' by set_solver. by apply Hl.
    - intros Hn path Hpath. rewrite Ho'; [by apply Ho|set_solver|]. intros file. by rewrite Hp. }
  destruct (m w); naive_solver.
Qed.

(** What a run that returns leaves as it was *)
Definition same (F : list change) w w' : Prop :=
  (∀ g, g ∈ config_fields → field (af_field g) ∉ F → raw_value w' (af_key g) = raw_value w (af_key g)) ∧
  (main_chain ∉ F → ledger w' = ledger w) ∧
  (other_files ∉ F → ∀ path, (∀ file, path ≠ config_path (environ w) file) →
     files (disk w') !! path = files (disk w) !! path).
Lemma writes_run {X} F (m : IO L X) Φ w w' x :
  writes F m Φ → typed w → m w = Finished w' x → typed w' ∧ Φ x ∧ same F w w'.
Proof.
  intros Hm Hw Heq. specialize (Hm w w (frame_refl F w Hw)). rewrite Heq in Hm. destruct Hm as [(Ht & Hf & Hl & _ & Ho) Hx].
  by split_and!.
Qed.
End Typed.

(** ** Automation

    [keeps] walks through the steps of a command; the hints are what is known of
    its parts. *)
Create HintDb keeps discriminated.
Create HintDb keeps_node discriminated.
#[export] Hint Constants Opaque : keeps.
#[export] Hint Variables Opaque : keeps.
#[export] Hint Resolve frame_untraced keeps_log keeps_print keeps_eprint keeps_enewline keeps_panic keeps_exit keeps_expect keeps_outcome keeps_get_world keeps_prompt_yes_no keeps_prompt_multi_option keeps_read_file keeps_file_exists keeps_list_directory keeps_current_timestamp keeps_config_file_path keeps_prompt_can_write keeps_pass_stderr : keeps.

Lemma fields_nil (F : list change) : [] ⊆ F.
Proof. set_solver. Qed.
Lemma fields_cons f fs (F : list change) : f ∈ F → fs ⊆ F → f :: fs ⊆ F.
Proof. set_solver. Qed.
Ltac config_field := first [assumption | apply list_elem_of_here | apply list_elem_of_further; config_field].
Ltac fields := repeat first [apply fields_nil | apply fields_cons; [config_field|]].
#[export] Hint Extern 5 (_ ∈ _) => config_field : keeps.
#[export] Hint Extern 5 (cf_serde _ = serde_string) => reflexivity : keeps.

Ltac part := first [eapply keeps_writes; [solve [eauto with keeps]|solve [fields]]
                   |eapply keeps_writes; [solve [eauto with keeps_node]|solve [fields]]
                   |solve [eauto with keeps]].
(** A part that saves one field; what remains is that the value can be saved. *)
Tactic Notation "saves" uconstr(saved) := eapply keeps_writes; [apply saved; [config_field|]|fields].
Ltac keeps :=
  lazymatch goal with
  | |- writes _ _ _ => intros ?; keeps
  | |- keeps _ (mret _) _ => apply keeps_ret; try exact Logic.I
  | |- keeps _ (mbind _ _) _ =>
      first [eapply keeps_bind; [solve [part]|] | apply (keeps_bind _ _ _ (λ _, True))];
      [keeps.. | intros ? ?; cbv beta in *; keeps]
  | |- keeps _ (match ?x with _ => _ end) _ => destruct x eqn:?; keeps
  | |- keeps _ _ _ => first [part | eapply keeps_True; solve [part] | idtac]
  | |- _ => idtac
  end.

(** ** Changes of the files *)

Section Changes.
Context {L : Type} `{!Machine L, !MachineLaws L, !Hex, !SerdeJson, !SerdeJsonLaws}.
Implicit Types (w : World L).

(** Changes of the disk that leave the configuration files alone *)
Definition same_config w d : Prop :=
  directories (disk w) ⊆ directories d ∧
  ∀ file, (config_path (environ w) file ∉ directories d) ∧
          files d !! config_path (environ w) file = files (disk w) !! config_path (environ w) file.

Lemma frame_disk F w0 w d env :
  (∀ file, config_path env file = config_path (environ w) file) → same_config w d →
  other_files ∈ F ∨ files d = files (disk w) →
  frame F w0 w → frame F w0 (mkWorld d env (ledger w) (trace w)).
Proof.
  intros Henv [Hdir Hfiles] Hother (([Hne Hs] & Hsep & Ht) & Hf & Hl & Hp & Ho).
  assert (∀ key, raw_value (mkWorld d env (ledger w) (trace w)) key = raw_value w key) as Hraw.
  { intros key. unfold raw_value, config_value. simpl. rewrite Henv.
    destruct (Hs key.1) as (_ & _ & o & Hval & _). destruct (Hfiles key.1).
    rewrite Hval. by erewrite disk_value_mono by done. }
  split; [split_and!|split_and!; [|done|by intros file; simpl; rewrite Henv|]].
  - split; simpl; [by rewrite !Henv|]. intros file. rewrite Henv. destruct (Hfiles file).
    by eapply path_store_ok_mono.
  - destruct Hsep as (Hq1 & Hq2 & Hq3).
    split_and!; simpl; intros; rewrite Henv; [apply Hq1|by eapply Hq2|apply Hq3].
  - intros f Hin v. rewrite Hraw. by apply Ht.
  - intros g Hg Hn. rewrite Hraw. by apply Hf.
  - intros Hn. destruct Hother as [Hin|Heq]; [done|]. simpl. rewrite Heq. by apply Ho.
Qed.
Lemma keeps_set_disk F w0 w d :
  same_config w d → other_files ∈ F ∨ files d = files (disk w) → frame F w0 w → frame F w0 (mkWorld d (environ w) (ledger w) (trace w)).
Proof. by apply frame_disk. Qed.

Lemma writes_save {T} (f : ConfigFieldDefinition T) v :
  any f ∈ config_fields → serde_ok (cf_serde f) v → writes [field f] (save_to_file f v) (λ _, True).
Proof.
  intros Hf (j & Hto & Hj & Hfrom) w0 w ((Hs & Hsep & Ht) & Hframe & Hl & Hp & Ho).
  destruct (save_to_file_raw f v j w Hs Hf Hto Hj) as (content & -> & Hs' & Hraw & Hother).
  split; [|done]. split; [split_and!; [done|done|]|split_and!; [|done|done|]].
  3: { intros Hn path Hpath. simpl. rewrite lookup_insert_ne; [by apply Ho|]. rewrite Hp. by apply not_eq_sym, Hpath. }
  all: intros g Hg; destruct (config_field_apart _ _ Hf Hg) as [Hap| ->].
  - intros x Hx. rewrite Hother in Hx by done. by apply (Ht g Hg).
  - intros x Hx. unfold af_key in Hx. simpl in *. rewrite Hraw in Hx. simplify_eq. by rewrite Hfrom.
  - intros Hn. rewrite Hother by done. by apply Hframe.
  - intros []. apply list_elem_of_here.
Qed.

Lemma writes_load {T} (f : ConfigFieldDefinition T) : writes [] (load_from_file f) (λ _, True).
Proof. intros w0 w Hw. rewrite load_from_file_eq by apply Hw. done. Qed.

(** Files of the tool that are not configuration files *)
Inductive other_file : bytes → Prop :=
  | other_keys : other_file KEYS_FILE_PATH
  | other_spec : other_file CHAIN_SPEC_PATH
  | other_temp t dir : temp_dir t = Some dir → other_file (dir ++ str "/chain-spec.json")
  | other_keystore base name : other_file (keystore_path base ++ str "/" ++ name)
  | other_network base : other_file (network_key_path base).
Lemma other_file_ne path env file : other_file path → separate env → path ≠ config_path env file.
Proof.
  intros Hpath (Hq1 & Hq2 & Hq3) Heq. specialize (Hq1 file). rewrite !not_elem_of_cons in Hq1.
  destruct Hq1 as (? & ? & _). inversion Hpath as [| |t dir Hdir|base name|base]; subst; [congruence..| | |].
  - destruct (Hq2 t dir file Hdir). congruence.
  - destruct (Hq3 base name file). congruence.
  - destruct (Hq3 base [] file). congruence.
Qed.

Lemma writes_write path content : other_file path → writes [other_files] (write_file path content) (λ _, True).
Proof.
  intros Hpath w0 w Hw. unfold write_file, mbind, IO_bind, get_world. simpl. destruct (writable _ _); [|done].
  split; [|done]. apply (keeps_set_disk _ _ w); [|left; apply list_elem_of_here|done].
  split; [done|]. intros file. split; [apply Hw|].
  simpl. rewrite lookup_insert_ne; [done|]. eapply other_file_ne; [done|apply Hw].
Qed.
Lemma writes_delete path : other_file path → writes [other_files] (delete_file path) (λ _, True).
Proof.
  intros Hpath w0 w Hw. unfold delete_file. unfold mbind at 1, IO_bind, get_world.
  destruct (files (disk w) !! path) as [c|] eqn:Hc; [|done]. destruct (writable _ _); [|done].
  split; [|done]. apply (keeps_set_disk _ _ w); [|left; apply list_elem_of_here|done].
  split; [done|]. intros file. split; [apply Hw|].
  simpl. rewrite lookup_delete_ne; [done|]. eapply other_file_ne; [done|apply Hw].
Qed.

Lemma writes_new_tmp_dir : writes [] new_tmp_dir (λ dir, ∃ t, temp_dir t = Some dir).
Proof.
  intros w0 w Hw. unfold new_tmp_dir. unfold mbind at 1, IO_bind, get_world. simpl.
  destruct (temp_dir (trace w)) as [dir|] eqn:Hdir; simpl; [|done]. split; [|eauto].
  apply (keeps_set_disk _ _ w); [|by right|done]. split; simpl; [set_solver|]. intros file. split; [|done].
  destruct Hw as (([_ Hs] & (_ & Hq2 & _) & _) & _). destruct (Hq2 (trace w) dir file Hdir) as [Hd _].
  apply not_elem_of_union. split; [by apply not_elem_of_singleton|apply Hs].
Qed.

Definition config_env (key : bytes) : bool :=
  bool_decide (key = str "PC_CHAIN_CONFIG_PATH") || bool_decide (key = str "PC_RESOURCES_CONFIG_PATH").
Lemma writes_set_env key value : config_env key = false → writes [] (set_env_var key value) (λ _, True).
Proof.
  intros Hkey w0 w Hw. apply orb_false_iff in Hkey as [Hq1 Hq2].
  apply bool_decide_eq_false in Hq1, Hq2. split; [|done].
  apply (frame_disk _ _ w); [| |by right|done]; [by intros []; unfold config_path; rewrite lookup_insert_ne|].
  split; [done|]. intros file. split; [apply Hw|done].
Qed.

Lemma writes_run_command `{!QuietPrograms L} cmd : writes [other_files] (run_command cmd) (λ _, True).
Proof.
  intros w0. eapply keeps_bind; [eauto with keeps|]. intros _ _ w Hw. unfold mbind at 1, IO_bind, get_world.
  destruct (execute cmd (environ w) (disk w)) as [d c] eqn:Hx. apply execute_quiet in Hx as [Hdir Hx].
  unfold mbind at 1, IO_bind, set_disk.
  match goal with |- match ?m ?w' with _ => _ end =>
    cut (keeps (frame [other_files] w0) m (λ _, True)); [intros Hm; apply (Hm w')|] end.
  - apply (keeps_set_disk _ _ w); [|left; apply list_elem_of_here|done]. split; [done|]. intros file. apply Hx, Hw.
  - keeps.
Qed.
#[local] Hint Resolve writes_load writes_delete writes_new_tmp_dir writes_run_command : keeps.

(** ** Fields *)

Lemma writes_prompt_text question default : writes [] (prompt question default) (λ a, from_utf8 a = Some a).
Proof.
  intros w0. eapply keeps_weaken; [apply keeps_prompt, frame_untraced|]. intros a [t Ha]. by eapply answer_utf8.
Qed.
#[local] Hint Resolve writes_prompt_text : keeps.

Lemma writes_save_if_empty {T} (f : ConfigFieldDefinition T) v :
  any f ∈ config_fields → serde_ok (cf_serde f) v → writes [field f] (save_if_empty f v) (λ _, True).
Proof. intros Hf Hv. unfold save_if_empty. keeps. by apply writes_save. Qed.

Lemma writes_load_and_print f : writes [] (load_from_file_and_print f) (λ _, True).
Proof. unfold load_from_file_and_print. keeps. Qed.
#[local] Hint Resolve writes_load_and_print : keeps.

Lemma writes_load_or_prompt f : any f ∈ config_fields → cf_serde f = serde_string →
  writes [field f] (load_or_prompt_and_save f) (λ _, True).
Proof.
  intros Hf Hs. unfold load_or_prompt_and_save. keeps. saves writes_save.
  rewrite Hs. by apply serde_string_ok.
Qed.
Lemma writes_prompt_and_save f : any f ∈ config_fields → cf_serde f = serde_string →
  writes [field f] (prompt_with_default_from_file_and_save f) (λ _, True).
Proof.
  intros Hf Hs. unfold prompt_with_default_from_file_and_save. keeps. saves writes_save.
  rewrite Hs. by apply serde_string_ok.
Qed.
Lemma writes_prompt_parse_and_save {T} (f : ConfigFieldDefinition T) text :
  any f ∈ config_fields → (∀ s v, text_parse text s = Ok v → serde_ok (cf_serde f) v) →
  writes [field f] (prompt_with_default_from_file_parse_and_save f text) (λ _, True).
Proof.
  intros Hf Hv. unfold prompt_with_default_from_file_parse_and_save. keeps. saves writes_save. by eapply Hv.
Qed.
Lemma writes_select_and_save {T} `{SelectOptions T} (f : ConfigFieldDefinition T) text question :
  any f ∈ config_fields → (∀ v, serde_ok (cf_serde f) v) →
  writes [field f] (select_options_with_default_from_file_and_save f text question) (λ _, True).
Proof. intros Hf Hv. unfold select_options_with_default_from_file_and_save. keeps. by apply writes_save. Qed.

(** ** Results of requests *)

Definition ok_with {E X} (P : X → Prop) (r : result E X) : Prop := match r with Ok x => P x | Err _ => True end.

(** A call that only reads, and one that can submit transactions *)
Lemma writes_block_on_read {X} (P : X → Prop) (m : Off L X) `{!ReadOnly m} :
  (∀ s s' x, m s = Ret (s', Ok x) → P x) → writes [] (block_on m) (ok_with P).
Proof.
  intros HP w0 w Hw. unfold block_on. destruct (m (ledger w)) as [[s r]|] eqn:Hm; [|done].
  pose proof (read_only _ _ _ Hm) as ->. split; [by eapply frame_untraced, Hw|]. destruct r; [|done]. by eapply HP.
Qed.
Lemma writes_block_on_only {X} (m : Off L X) : ReadOnly m → writes [] (block_on m) (λ _, True).
Proof. intros Hm w0. by eapply keeps_True, (writes_block_on_read (λ _, True)). Qed.
Lemma writes_block_on {X} (m : Off L X) : writes [main_chain] (block_on m) (λ _, True).
Proof.
  intros w0 w (Ht & Hf & Hl & Hp & Ho). unfold block_on. destruct (m (ledger w)) as [[s r]|] eqn:Hm; [|done].
  split; [|done]. split_and!; [by eapply typed_files, Ht|done| |done|done]. intros []. apply list_elem_of_here.
Qed.
(** A directory without configuration files *)
Lemma fresh_typed w :
  config_path (environ w) Chain ≠ config_path (environ w) Resources →
  (∀ file, files (disk w) !! config_path (environ w) file = None ∧
     (config_path (environ w) file ∉ directories (disk w)) ∧ writable (disk w) (config_path (environ w) file) = true) →
  separate (environ w) → typed w.
Proof.
  intros Hne Hfresh Hsep.
  assert (∀ file, disk_value (disk w) (config_path (environ w) file) = Some None) as Hnone.
  { intros file. destruct (Hfresh file) as (Hf & Hd & _). unfold disk_value, path_exists.
    by rewrite Hf, (bool_decide_eq_false_2 _ Hd). }
  split_and!; [split; [done|]|done|].
  - intros file. destruct (Hfresh file) as (_ & Hd & Hw). split_and!; [done..|]. by exists None.
  - intros f Hf v. unfold raw_value, config_value. by rewrite Hnone.
Qed.
End Changes.

#[export] Hint Resolve other_keys other_spec other_temp other_keystore other_network : keeps.
#[export] Hint Resolve writes_load writes_delete writes_new_tmp_dir writes_run_command writes_prompt_text writes_load_and_print writes_load_or_prompt writes_prompt_and_save writes_save writes_save_if_empty : keeps.
#[export] Hint Resolve writes_block_on : keeps_node.
