(* ===== verification/CliExample.v ===== *)
(** * A small machine for the wizards

    Instances of the classes of the [Cli] files that evaluate: JSON text is a list
    of numbers in binary, a user who accepts every default, a disk without
    permissions, programs that write keys, and a Cardano like that of
    [OffchainExample] whose hashes and addresses have the length of real ones.  The
    witnesses of the wizards run on it. *)

From stdpp Require Import countable.
From S2P Require Import Prelude Domain PlutusData AuthoritySelection ContractDatums CandidateKeys TextFormats MainchainEpoch McHash OffchainTx OffchainGovernance OffchainExample OffchainCandidates OffchainVersions CliIO CliJson CliConfig CliStore CliFrame CliKeys CliPrepare CliChain CliRegister CliCommand.
Local Open Scope Z_scope.

#[local] Existing Instance plain_hex.
#[local] Existing Instance plain_hex_laws.

(** ** Text of JSON values *)

Definition chars_tree (s : bytes) : gen_tree Z := GenNode 5 (GenLeaf <$> s).
Definition tree_chars (t : gen_tree Z) : bytes :=
  match t with GenNode 5 l => (λ t : gen_tree Z, match t with GenLeaf z => z | _ => 0 end) <$> l | _ => [] end.

Fixpoint json_tree (v : json) : gen_tree Z :=
  match v with
  | JNull => GenNode 0 []
  | JBool b => GenNode 1 [GenLeaf (Z.b2z b)]
  | JNumber (PosInt n) => GenNode 2 [GenLeaf n]
  | JNumber (NegInt n) => GenNode 3 [GenLeaf n]
  | JNumber (Float b) => GenNode 4 [GenLeaf b]
  | JString s => chars_tree s
  | JArray l => GenNode 6 (json_tree <$> l)
  | JObject m => GenNode 7 (map_fold (λ k v l, GenNode 8 [chars_tree k; json_tree v] :: l) [] m)
  end.
Fixpoint tree_json (t : gen_tree Z) : json :=
  match t with
  | GenNode 1 [GenLeaf b] => JBool (b =? 1)
  | GenNode 2 [GenLeaf n] => JNumber (PosInt n)
  | GenNode 3 [GenLeaf n] => JNumber (NegInt n)
  | GenNode 4 [GenLeaf n] => JNumber (Float n)
  | GenNode 5 _ => JString (tree_chars t)
  | GenNode 6 l => JArray (tree_json <$> l)
  | GenNode 7 l =>
      JObject (list_to_map ((λ t : gen_tree Z, match t with GenNode 8 [k; v] => (tree_chars k, tree_json v) | _ => ([], JNull) end) <$> l))
  | _ => JNull
  end.

Lemma tree_chars_tree s : tree_chars (chars_tree s) = s.
Proof. unfold tree_chars, chars_tree. rewrite <-list_fmap_compose. apply list_fmap_id. Qed.

Lemma tree_json_tree `{!SerdeJson} : ∀ v, json_ok v → tree_json (json_tree v) = v.
Proof.
  fix IH 2. intros v Hv. destruct Hv as [|b|n|n|b|s|l Hl|m Hm]; try done.
  - by destruct b.
  - simpl. f_equal. apply (tree_chars_tree s).
  - simpl. f_equal. induction Hl as [|x l Hx Hl IHl]; [done|]. rewrite !fmap_cons. by rewrite IHl, IH.
  - cbn [json_tree]. rewrite map_fold_foldr. cbn [tree_json]. f_equal. rewrite <-(list_to_map_to_list m) at 2. f_equal.
    assert (∀ e, e ∈ map_to_list m → tree_json (json_tree e.2) = e.2) as Hall.
    { intros [k x] Hin%elem_of_map_to_list. apply IH. apply (Hm k x Hin). }
    clear Hm. induction (map_to_list m) as [|[k x] l IHl]; [done|]. cbn [foldr uncurry]. rewrite fmap_cons.
    rewrite IHl by (intros; apply Hall; by apply list_elem_of_further). f_equal.
    pose proof (Hall (k, x) (list_elem_of_here _ _)) as Hx. cbn [snd] in Hx. by rewrite tree_chars_tree, Hx.
Qed.

(** Numbers in binary: a sign, the bits from the least one, and a comma for the
    highest. *)
Fixpoint positive_text (p : positive) : bytes :=
  match p with xH => [44] | xO p => 48 :: positive_text p | xI p => 49 :: positive_text p end.
Definition number_text (z : Z) : bytes :=
  match z with Z0 => [46] | Zpos p => 43 :: positive_text p | Zneg p => 45 :: positive_text p end.
Definition numbers_text (l : list Z) : bytes := concat (number_text <$> l).

Fixpoint text_numbers (state : option (bool * (positive → positive))) (s : bytes) : list Z :=
  match s with
  | [] => []
  | x :: s =>
      match state with
      | None =>
          if x =? 46 then 0 :: text_numbers None s
          else text_numbers (Some (x =? 43, id)) s
      | Some (sign, k) =>
          if x =? 48 then text_numbers (Some (sign, k ∘ xO)) s
          else if x =? 49 then text_numbers (Some (sign, k ∘ xI)) s
          else (if sign : bool then Zpos (k xH) else Zneg (k xH)) :: text_numbers None s
      end
  end.
Lemma text_positive p : ∀ sign k s,
  text_numbers (Some (sign, k)) (positive_text p ++ s) =
  (if sign : bool then Zpos (k p) else Zneg (k p)) :: text_numbers None s.
Proof. induction p as [p IH|p IH|]; intros sign k s; simpl; [apply IH|apply IH|done]. Qed.
Lemma text_numbers_text l : text_numbers None (numbers_text l) = l.
Proof.
  induction l as [|[|p|p] l IH]; [done|..]; unfold numbers_text in *; rewrite fmap_cons; cbn [concat number_text app];
    [cbn; by rewrite IH|cbn [text_numbers]; simpl; rewrite text_positive, IH; done..].
Qed.
Lemma numbers_text_ascii l : Forall (λ x, 0 ≤ x < 128) (numbers_text l).
Proof.
  assert (∀ p, Forall (λ x, 0 ≤ x < 128) (positive_text p)) as Hp.
  { induction p as [p IH|p IH|]; simpl; constructor; try done; try lia. }
  induction l as [|[|p|p] l IH]; [constructor|..]; unfold numbers_text in *; rewrite fmap_cons; cbn [concat number_text];
    apply Forall_app; (split; [|done]); constructor; try lia; try done; constructor.
Qed.

Definition json_text (v : json) : bytes := numbers_text (items_numbers (gen_tree_to_list (json_tree v))).
#[local] Instance example_json : SerdeJson := {|
  json_from_str s := tree_json <$> gen_tree_of_list [] (numbers_items (text_numbers None s));
  to_string_pretty := json_text;
  to_string_compact := json_text;
  f64_of_int n := n;
  f64_is_finite b := true;
  f64_display := display_uint;
  f64_exact b := True;
|}.
#[local] Instance example_json_laws : SerdeJsonLaws.
Proof.
  split; intros v Hv; simpl.
  - unfold json_text. rewrite text_numbers_text, numbers_items_numbers.
    rewrite <-(app_nil_r (gen_tree_to_list _)), gen_tree_of_to_list. simpl. by rewrite tree_json_tree.
  - apply ascii_utf8, numbers_text_ascii.
Qed.

(** ** Cardano *)

Definition norm (n : nat) (b : bytes) : bytes := take n (((λ x, x mod 256) <$> b) ++ replicate n 0).
Lemma norm_bytes n b : Forall is_byte (norm n b).
Proof.
  apply Forall_take, Forall_app. split; [|apply Forall_replicate; by split].
  apply Forall_fmap, Forall_true. intros x. apply (Z.mod_pos_bound x 256). lia.
Qed.
Lemma norm_length n b : length (norm n b) = n.
Proof. unfold norm. rewrite length_take, length_app, length_replicate. lia. Qed.

Definition address_text (kind : string) (n : Z) (h : bytes) : bytes :=
  str kind ++ 48 + n mod 10 :: plain_encode (norm 28 h).

Definition cli_witness_hash (w : MintWitness) : bytes :=
  norm 28 match w with
          | MintPlutus script _ _ | MintPlutusRef script _ _ _ => language_to_u8 (ps_language script) :: ps_bytes script
          | MintNative threshold key_hashes => threshold :: mjoin key_hashes
          end.
Definition cli_build (b : TxBuilder) : result OffchainError Tx :=
  Ok (mkTx (mkTxBody (txi_id <$> b_inputs b) (b_outputs b) (cli_witness_hash ∘ mint_witness <$> b_mint b)
              (b_reference_inputs b).*1 (b_required_signers b) (b_collateral b) (b_validity_start b)) [] [] []).

#[local] Instance cli_csl : Csl := {|
  PrivateKey := bytes;
  blake2b_224 := norm 28;
  blake2b_256 := norm 32;
  enterprise_script_address := address_text "addr_script";
  enterprise_key_address := address_text "addr_key";
  to_public k := k;
  public_hash := norm 28;
  sign_bytes k b := k ++ b;
  native_script_hash threshold key_hashes := norm 28 (threshold :: mjoin key_hashes);
  native_script_to_bytes threshold key_hashes := [];
  body_to_bytes b := [1 + foldr Z.max 0 ((λ i, hd 0 (tx_hash i)) <$> inputs b)];
  datum_to_bytes := example_to_bytes;
  datum_from_bytes := example_from_bytes;
  asset_name_new name := Ok name;
  calculate_ada o c := Ok c;
  value_checked_add v w := Ok (v.1 + w.1, v.2 ∪ w.2);
  value_clamped_sub v w := (Z.max 0 (v.1 - w.1), v.2);
  add_inputs_from_and_change utxos address b := Ok (example_outputs utxos address b);
  add_inputs_with_collateral_return utxos address p b := Ok (example_outputs utxos address b);
  calc_script_data_hash models b := Ok b;
  build_tx := cli_build;
|}.
#[local] Instance cli_csl_laws : CslLaws.
Proof.
  split; simpl.
  - apply norm_length.
  - apply example_bytes_roundtrip.
  - done.
  - by intros name name' [= ->].
  - intros utxos address b b' [= <-]. apply example_completes.
  - intros utxos address p b b' [= <-]. apply example_completes.
  - by intros models b b' [= <-].
  - by intros b tx [= <-].
Qed.
#[local] Instance cli_csl_text : CslText.
Proof.
  split; simpl.
  - intros b. split; [apply norm_bytes|apply norm_length].
  - intros b. split; [apply norm_bytes|apply norm_length].
  - intros n h. apply ascii_utf8. unfold address_text. apply Forall_app.
    split; [apply (bool_decide_unpack _); vm_compute; exact I|].
    constructor; [pose proof (Z.mod_pos_bound n 10); lia|].
    eapply Forall_impl; [exact (plain_encode_digits (norm 28 h) (norm_bytes 28 h))|apply hex_digit_ascii].
Qed.
#[local] Instance cli_not_hex : AddressNotHex.
Proof. done. Qed.
Lemma nibble_value_range x h : nibble_value x = Some h → 0 ≤ h < 16.
Proof.
  unfold nibble_value. destruct (_ && _) eqn:Hx.
  - apply andb_true_iff in Hx as [?%Z.leb_le ?%Z.leb_le]. intros [= <-]. lia.
  - destruct (_ && _) eqn:Hx' in |- *; [|done]. apply andb_true_iff in Hx' as [?%Z.leb_le ?%Z.leb_le]. intros [= <-]. lia.
Qed.
Lemma plain_decode_bytes s b : plain_decode s = Some b → Forall is_byte b.
Proof.
  revert b. induction s as [s IH] using (induction_ltof1 _ (@length Z)). unfold ltof in IH.
  intros b. destruct s as [|x [|y s]]; simpl; [by intros [= <-]|done|].
  destruct (nibble_value x) as [h|] eqn:Hh; [|done]. destruct (nibble_value y) as [l|] eqn:Hl; [|done]. simpl.
  destruct (plain_decode s) as [b'|] eqn:Hs; [|done]. intros [= <-].
  apply nibble_value_range in Hh, Hl. constructor; [unfold is_byte, in_u, u_bound; lia|].
  apply (IH s); [simpl; lia|done].
Qed.
#[local] Instance cli_hex_bytes : HexBytes.
Proof.
  split; [intros s b; apply plain_decode_bytes|]. intros b. simpl. unfold plain_encode.
  induction b as [|x b IH]; [done|]. rewrite fmap_cons. cbn [concat app length]. rewrite IH. lia.
Qed.
#[local] Instance cli_keys : CslKeys := {|
  from_normal_bytes b := if decide (length b = 32%nat) then Some b else None;
  from_extended_bytes b := if decide (length b = 64%nat) then Some b else None;
  as_bytes k := k;
|}.
#[local] Existing Instance example_scripts.
#[local] Existing Instance example_scripts_laws.

(** *** The node *)

Definition utxo_ok (u : OgmiosUtxo) : Prop := utxo_id_wf (utxo_id_of u) ∧ utxo_index (utxo_id_of u) < 2 ^ 15.
#[local] Instance utxo_ok_dec u : Decision (utxo_ok u).
Proof. unfold utxo_ok, utxo_id_wf, is_byte, in_u. apply _. Defined.
Definition utxos_ok (l : list OgmiosUtxo) : Prop := NoDup (utxo_id_of <$> l) ∧ Forall utxo_ok l.
Definition CliLedger : Type := {l : list OgmiosUtxo | utxos_ok l}.
Definition cli_utxos (s : CliLedger) : list OgmiosUtxo := proj1_sig s.

Definition cli_tx_id (tx : Tx) : bytes := blake2b_256 (body_to_bytes (body tx)).
Definition cli_apply (tx : Tx) (l : list OgmiosUtxo) : list OgmiosUtxo :=
  filter (λ u, utxo_id_of u ∉ inputs (body tx)) l ++ imap (output_utxo (cli_tx_id tx)) (outputs (body tx)).
Definition cli_spend (l : list OgmiosUtxo) (i : nat) (id : UtxoId) : list EvaluateResponse :=
  match filter (λ u, utxo_id_of u = id ∧ take 11 (ou_address u) = str "addr_script") l with
  | [] => []
  | _ => [mkEvaluate "spend" (Z.of_nat i) 1 1]
  end.
Definition cli_evaluate (tx : Tx) (l : list OgmiosUtxo) : list EvaluateResponse :=
  imap (λ i _, mkEvaluate "mint" (Z.of_nat i) 1 1) (mint_policies (body tx))
  ++ mjoin (imap (cli_spend l) (inputs (body tx))).
Definition cli_submit (tx : Tx) (s : CliLedger) : CliLedger * result OffchainError bytes :=
  match decide (utxos_ok (cli_apply tx (cli_utxos s))) with
  | left Hok => (exist _ (cli_apply tx (cli_utxos s)) Hok, Ok (cli_tx_id tx))
  | right _ => (s, Err OgmiosError)
  end.
#[local] Instance cli_ogmios : Ogmios CliLedger := {|
  shelley_network s := Ok Testnet;
  query_protocol_parameters s := Ok example_parameters;
  query_utxos address s := Ok (filter (λ u, ou_address u = address) (cli_utxos s));
  query_utxo_by_id id s := Ok (head (filter (λ u, utxo_id_of u = id) (cli_utxos s)));
  evaluate_transaction tx s := Ok (cli_evaluate tx (cli_utxos s));
  submit_transaction := cli_submit;
  get_tip_slot s := Ok 5;
  wait d s := s;
|}.
#[local] Instance cli_ogmios_laws : OgmiosLaws CliLedger cli_utxos.
Proof.
  split; simpl.
  - intros [l Hl]. exact (proj1 Hl).
  - by intros address s utxos [= <-].
  - intros tx s s' id. unfold cli_submit. destruct (decide _); [|done]. by intros [= <- <-].
  - intros tx s s' e. unfold cli_submit. destruct (decide _); [done|]. by intros [= <-].
  - done.
  - by intros s s' n n' [= <-] [= <-].
Qed.

(** Two eras with epochs of five days, the second with the parameters of the last *)
#[local] Instance cli_genesis : OgmiosGenesis CliLedger := {|
  era_summaries s := Ok [mkClientEra 0 0 0 21600 20000; mkClientEra 89856000 4492800 208 432000 1000;
                         mkClientEra 101952000 16588800 236 432000 1000];
  shelley_genesis_configuration s := Ok (mkShelleyResponse Testnet 432 (1, 20) 432000 1000 1506203091);
  decimal_to_f64 r := if decide (r.2 = 0) then None else Some (r.1 * 1000 / r.2);
|}.
#[local] Instance cli_node_typed : NodeTyped CliLedger.
Proof.
  split; simpl.
  - intros address [l Hl] utxos [= <-]. apply Forall_forall. intros u [_ Hu]%list_elem_of_filter.
    exact (proj1 (Forall_forall _ l) (proj2 Hl) u Hu).
  - intros s eras [= <-]. repeat constructor; by vm_compute.
  - intros s r [= <-]. repeat constructor; by vm_compute.
  - done.
Qed.

(** ** The machine *)

(** Programs: the node generates keys and inserts them into a keystore; directories
    are made.  Nothing is written over a configuration file. *)
Definition put (env : gmap bytes bytes) (path content : bytes) (d : Disk) : Disk :=
  if decide (path ∈ [config_path env Chain; config_path env Resources]) then d
  else mkDisk (<[path := content]> (files d)) (directories d).
Definition make_dir (env : gmap bytes bytes) (path : bytes) (d : Disk) : Disk :=
  if decide (path ∈ [config_path env Chain; config_path env Resources]) then d
  else mkDisk (files d) ({[path]} ∪ directories d).

Definition words_of (cmd : bytes) : list bytes := split 32 cmd.
Definition example_seed : bytes := norm 32 (str "seed").
Definition example_public (scheme : bytes) : bytes :=
  if decide (scheme = str "ecdsa") then norm 33 (2 :: example_seed) else norm 32 scheme.
Definition scheme_of_type (key_type : bytes) : bytes :=
  if decide (key_type = str "crch") then str "ecdsa" else if decide (key_type = str "aura") then str "sr25519" else str "ed25519".
Definition example_execute (cmd : bytes) (env : gmap bytes bytes) (d : Disk) : Disk * child :=
  match words_of cmd with
  | [_; key; generate; _; scheme; _; file] =>
      if decide (generate = str "generate") then
        (d, Exits [] (Some 0) (json_text (JObject {[ str "publicKey" := JString (to_hex (example_public scheme));
                                                    str "secretPhrase" := JString (str "seed") ]})))
      else (put env file (hex_encode (replicate 32 1)) d, Exits [] (Some 0) [])
  | [_; key; insert; _; _; _; keystore; _; _; _; key_type; _; _] =>
      (make_dir env keystore
         (put env (keystore ++ str "/" ++ hex_encode key_type ++ hex_encode (example_public (scheme_of_type key_type))) (str "seed") d),
       Exits [] (Some 0) [])
  | [mkdir; _; dir] => (make_dir env dir d, Exits [] (Some 0) [])
  | _ => (d, Exits [] (Some 0) [])
  end.

Definition quiet_disk (env : gmap bytes bytes) (d d' : Disk) : Prop :=
  directories d ⊆ directories d' ∧
  ∀ file, config_path env file ∉ directories d →
    (config_path env file ∉ directories d') ∧ files d' !! config_path env file = files d !! config_path env file.
Lemma quiet_refl env d : quiet_disk env d d.
Proof. done. Qed.
Lemma quiet_trans env d d' d'' : quiet_disk env d d' → quiet_disk env d' d'' → quiet_disk env d d''.
Proof.
  intros [Hd Hf] [Hd' Hf']. split; [set_solver|]. intros file Hn. destruct (Hf file Hn) as [Hn' He].
  destruct (Hf' file Hn') as [Hn'' He']. split; [done|]. by rewrite He'.
Qed.
Lemma config_path_in env file : config_path env file ∈ [config_path env Chain; config_path env Resources].
Proof. destruct file; [apply list_elem_of_here|apply list_elem_of_further, list_elem_of_here]. Qed.
Lemma put_quiet env path content d : quiet_disk env d (put env path content d).
Proof.
  unfold put. case_decide as Hp; [apply quiet_refl|]. split; [done|]. intros file Hn. split; [done|]. simpl.
  apply lookup_insert_ne. intros ->. apply Hp, config_path_in.
Qed.
Lemma make_dir_quiet env path d : quiet_disk env d (make_dir env path d).
Proof.
  unfold make_dir. case_decide as Hp; [apply quiet_refl|]. split; simpl; [set_solver|]. intros file Hn. split; [|done].
  apply not_elem_of_union. split; [|done]. apply not_elem_of_singleton. intros <-. apply Hp, config_path_in.
Qed.
Lemma example_execute_quiet cmd env d : quiet_disk env d (example_execute cmd env d).1.
Proof.
  unfold example_execute. repeat case_match; simpl; auto using quiet_refl, put_quiet, make_dir_quiet.
  eapply quiet_trans; [apply put_quiet|apply make_dir_quiet].
Qed.

Definition text_or (b other : bytes) : bytes := if decide (from_utf8 b = Some b) then b else other.
Definition BRIDGE_QUESTION : bytes := str "Do you want to configure a token bridge for your Partner Chain?".
#[local] Instance cli_machine : Machine CliLedger := {|
  answer t question o := Answered (text_or (default (str "none") o) (str "none"));
  confirm t question default := Answered (negb (bool_decide (question = BRIDGE_QUESTION)));
  choose t question options := Answered 0%nat;
  execute := example_execute;
  current_exe := Ok (str "/opt/node");
  writable d path := bool_decide (path ∉ directories d);
  readable d path := true;
  dir_order l := l;
  temp_dir t := Some (str "/tmp/wizard");
  clock t := 1600000000000;
  reachable url timeout s := true;
|}.
#[local] Instance cli_machine_laws : MachineLaws CliLedger.
Proof.
  split; simpl.
  - done.
  - done.
  - intros d d' path _ Hn _. by apply bool_decide_eq_true_2.
  - intros t question default a [= <-]. unfold text_or. case_decide; [done|by vm_compute].
Qed.
#[local] Instance cli_quiet : QuietPrograms CliLedger.
Proof.
  intros cmd env d d' c Hx. simpl in Hx. pose proof (example_execute_quiet cmd env d) as Hq. by rewrite Hx in Hq.
Qed.

(** ** Keys and signatures *)

#[local] Instance cli_peer_ids : PeerIds := {| peer_id_of_ed25519 k := Some (plain_encode (norm 8 k)) |}.
#[local] Instance cli_peer_id_text : PeerIdText.
Proof.
  intros k p [= <-]. apply ascii_utf8.
  eapply Forall_impl; [exact (plain_encode_digits (norm 8 k) (norm_bytes 8 k))|apply hex_digit_ascii].
Qed.
#[local] Instance cli_node_keys : NodeKeys := {| ed25519_from_seed_slice := has_length 32 |}.
#[local] Instance cli_signing_keys : SigningKeys := {|
  secp_secret_from_slice := has_length 32;
  secp_public k := norm 33 (2 :: k);
  secp_sign k h := norm 64 (zsum h :: norm 33 (2 :: k));
  secp_public_from_slice := has_length 33;
  ed_public := norm 32;
  ed_sign k msg := norm 64 (zsum msg :: norm 32 k);
  ecdsa_seed_from_string := λ s, Some (norm 32 s);
|}.
#[local] Instance cli_verifier : CandidateVerifier bytes bytes := {|
  ed25519_verify sig msg pk := bool_decide (sig = norm 64 (zsum msg :: pk));
  ecdsa_verify sig msg pk := bool_decide (sig = norm 64 (zsum (norm 32 msg) :: pk) ++ [28]);
  from_ecdsa_public k := k;
  key_ids := [str "aura"; str "gran"];
  decode_account_keys b := Some b;
|}.
#[local] Instance cli_runtime : PartnerChainRuntime bytes := {|
  create_chain_spec config := JObject {[ str "genesis" := JString (utxo_id_display (cs_genesis_utxo config)) ]};
  key_definitions := [KEY_AURA; KEY_GRANDPA];
|}.
Definition cli_get_raw (keys id : bytes) : bytes := if decide (id = str "aura") then take 32 keys else drop 32 keys.

(** ** The start *)

(** The key 7 and its output *)
Definition payment_key : bytes := norm 32 [7].
Definition key_file (kind : string) (b : bytes) : bytes :=
  json_text (JObject {[ str "type" := JString (str kind); str "cborHex" := JString (str "5820" ++ plain_encode b) ]}).
Definition wallet_utxo (h : Z) : OgmiosUtxo :=
  mkOgmiosUtxo (norm 32 [h]) 0 (key_hash_address (public_hash payment_key) Testnet) 100 ∅ None None.
Program Definition cli_ledger : CliLedger := exist _ [wallet_utxo 2; wallet_utxo 1] _.
Next Obligation. by apply (bool_decide_unpack _). Qed.
Definition cli_disk : Disk := mkDisk
  {[ str "payment.skey" := key_file "PaymentSigningKeyShelley_ed25519" payment_key;
     str "payment.vkey" := key_file "PaymentVerificationKeyShelley_ed25519" payment_key;
     str "cold.skey" := key_file "StakePoolSigningKey_ed25519" (norm 32 [9]);
     str "cold.vkey" := key_file "StakePoolVerificationKey_ed25519" (norm 32 [9]) ]} ∅.
Definition cli_world : World CliLedger := mkWorld cli_disk ∅ cli_ledger [].

(** A directory without configuration files: the names of the other files of the
    tool differ from theirs. *)
Lemma cli_separate : separate (environ cli_world).
Proof.
  assert (∀ file, slash ∉ config_path (environ cli_world) file) as Hslash.
  { intros []; apply (bool_decide_unpack _); by vm_compute. }
  assert (∀ file p, slash ∈ p → config_path (environ cli_world) file ≠ p) as Hne.
  { intros file p Hp Heq. apply (Hslash file). by rewrite Heq. }
  split_and!.
  - intros []; apply (bool_decide_unpack _); by vm_compute.
  - intros t dir file [= <-]. split; apply Hne; apply (bool_decide_unpack _); by vm_compute.
  - intros base name file. split; apply Hne; unfold network_key_path, network_key_directory;
      rewrite !elem_of_app; [right; left|right; apply (bool_decide_unpack _); by vm_compute].
    apply (bool_decide_unpack _); by vm_compute.
Qed.
Lemma cli_typed : typed cli_world.
Proof.
  apply fresh_typed; [by vm_compute| |apply cli_separate].
  intros []; split_and!; try (by vm_compute); apply (bool_decide_unpack _); by vm_compute.
Qed.

(** The instances, to be imported where the witnesses are *)
Module CliInstances.
#[export] Existing Instance plain_hex.
#[export] Existing Instance plain_hex_laws.
#[export] Existing Instance example_scripts.
#[export] Existing Instance example_scripts_laws.
#[export] Existing Instance example_json.
#[export] Existing Instance example_json_laws.
#[export] Existing Instance cli_csl.
#[export] Existing Instance cli_csl_laws.
#[export] Existing Instance cli_csl_text.
#[export] Existing Instance cli_not_hex.
#[export] Existing Instance cli_hex_bytes.
#[export] Existing Instance cli_keys.
#[export] Existing Instance cli_ogmios.
#[export] Existing Instance cli_ogmios_laws.
#[export] Existing Instance cli_genesis.
#[export] Existing Instance cli_node_typed.
#[export] Existing Instance cli_machine.
#[export] Existing Instance cli_machine_laws.
#[export] Existing Instance cli_quiet.
#[export] Existing Instance cli_peer_ids.
#[export] Existing Instance cli_peer_id_text.
#[export] Existing Instance cli_node_keys.
#[export] Existing Instance cli_signing_keys.
#[export] Existing Instance cli_verifier.
#[export] Existing Instance cli_runtime.
End CliInstances.
