(* ===== verification/CliTyped.v ===== *)
(** * The wizards keep the configuration well typed

    What each wizard changes, by the rules of [CliFrame], and what follows for
    sessions of several wizards: users can interrupt a wizard at any question, and
    files are written one field at a time. *)

From S2P Require Import Prelude Domain PlutusData AuthoritySelection ContractDatums CandidateKeys TextFormats MainchainEpoch McHash OffchainTx OffchainGovernance OffchainCandidates OffchainVersions CliIO CliJson CliConfig CliStore CliFrame CliKeys CliPrepare CliChain CliRegister CliCommand CliExample.

#[local] Arguments config_path : simpl never.

(** ** Generating keys *)

Section Keys.
Context {L : Type} `{!Machine L, !MachineLaws L, !QuietPrograms L, !Hex, !HexLaws, !HexBytes, !SerdeJson, !SerdeJsonLaws}.
Context `{!NodeKeys} {A K : Type} `{!CandidateVerifier A K, !PartnerChainRuntime K}.

Lemma writes_current_executable : writes [] current_executable (λ _, True).
Proof. intros w0. by apply keeps_ret. Qed.
#[local] Hint Resolve writes_current_executable : keeps.

Lemma writes_generate_keys key_def : writes [other_files] (generate_keys key_def) (λ _, True).
Proof. unfold generate_keys. keeps. Qed.
Lemma writes_store_keys base_path key_def new_key spec :
  writes [other_files] (store_keys base_path key_def new_key spec) (λ _, True).
Proof. unfold store_keys. keeps. Qed.
#[local] Hint Resolve writes_generate_keys writes_store_keys : keeps.
Lemma writes_generate_or_load_key base_path spec key_def :
  writes [other_files] (generate_or_load_key base_path spec key_def) (λ _, True).
Proof. unfold generate_or_load_key. keeps. Qed.
#[local] Hint Resolve writes_generate_or_load_key : keeps.
Lemma writes_generate_or_load_keys base_path spec key_defs keys :
  writes [other_files] (generate_or_load_keys base_path spec key_defs keys) (λ _, True).
Proof. revert keys. induction key_defs; intros keys; simpl; keeps. Qed.
#[local] Hint Resolve writes_generate_or_load_keys : keeps.
Lemma writes_write_keys content : writes [other_files] (write_file KEYS_FILE_PATH content) (λ _, True).
Proof. apply writes_write. constructor. Qed.
Lemma writes_write_spec content : writes [other_files] (write_file CHAIN_SPEC_PATH content) (λ _, True).
Proof. apply writes_write. constructor. Qed.
#[local] Hint Resolve writes_write_keys writes_write_spec : keeps.
Lemma writes_generate_spo_keys base_path spec : writes [other_files] (generate_spo_keys base_path spec) (λ _, True).
Proof. unfold generate_spo_keys. keeps. Qed.
Lemma writes_run_generate_network_key base_path spec : writes [other_files] (run_generate_network_key base_path spec) (λ _, True).
Proof. unfold run_generate_network_key. keeps. Qed.
#[local] Hint Resolve writes_generate_spo_keys writes_run_generate_network_key : keeps.
Lemma writes_generate_network_key base_path spec : writes [other_files] (generate_network_key base_path spec) (λ _, True).
Proof. unfold generate_network_key. keeps. Qed.
Lemma writes_announce_keys key_defs : writes [] (announce_keys key_defs) (λ _, True).
Proof. induction key_defs; simpl; keeps. Qed.
Lemma writes_write_temp_chain_spec spec : writes [other_files] (write_temp_chain_spec spec) other_file.
Proof.
  unfold write_temp_chain_spec. intros w0. eapply keeps_bind; [part|]. intros dir [t Ht].
  eapply keeps_bind; [part|]. intros dir' Hu. cbv beta in Hu. apply from_utf8_Some in Hu as [_ ->].
  assert (other_file (dir ++ str "/chain-spec.json")) as Hother by (by econstructor).
  eapply keeps_bind; [by eapply keeps_writes; [apply writes_write|fields]|]. intros _ _. by apply keeps_ret.
Qed.
#[local] Hint Resolve writes_generate_network_key writes_announce_keys writes_write_temp_chain_spec : keeps.
Lemma writes_generate_keys_run : writes [other_files; field SUBSTRATE_NODE_DATA_BASE_PATH] generate_keys_run (λ _, True).
Proof. unfold generate_keys_run, generate_keys_config_load. keeps. Qed.

(** ** The chain specification *)

Lemma writes_load_config_field {T} (f : ConfigFieldDefinition T) : writes [] (load_config_field f) (λ _, True).
Proof. unfold load_config_field. keeps. Qed.
#[local] Hint Resolve writes_load_config_field : keeps.
Lemma writes_chain_spec_config_load : writes [] chain_spec_config_load (λ _, True).
Proof. unfold chain_spec_config_load. keeps. Qed.
Lemma writes_print_candidates prefix candidates : writes [] (print_candidates prefix candidates) (λ _, True).
Proof. induction candidates; simpl; keeps. Qed.
#[local] Hint Resolve writes_chain_spec_config_load writes_print_candidates : keeps.
Lemma writes_print_config (config : CreateChainSpecConfig K) : writes [] (print_config config) (λ _, True).
Proof. unfold print_config. keeps. Qed.
#[local] Hint Resolve writes_print_config : keeps.
Lemma writes_create_chain_spec_run : writes [other_files] create_chain_spec_run (λ _, True).
Proof. unfold create_chain_spec_run. keeps. Qed.

(** ** Starting a node *)

Lemma writes_keys_present keys existing_keys : writes [] (keys_present keys existing_keys) (λ _, True).
Proof. induction keys; simpl; unfold key_present; keeps. Qed.
#[local] Hint Resolve writes_keys_present : keeps.
Lemma writes_check_keystore base_path : writes [] (check_keystore base_path) (λ _, True).
Proof. unfold check_keystore. keeps. Qed.
Lemma writes_check_chain_spec : writes [] check_chain_spec (λ _, True).
Proof. unfold check_chain_spec. keeps. Qed.
Lemma writes_load_start_node_chain_config : writes [] load_start_node_chain_config (λ _, True).
Proof. unfold load_start_node_chain_config, chain_config_file_path. keeps. Qed.
Lemma writes_prompt_values_fine base_path config db source :
  writes [] (prompt_values_fine base_path config db source) (λ _, True).
Proof. unfold prompt_values_fine. keeps. Qed.
#[local] Hint Resolve writes_check_keystore writes_check_chain_spec writes_load_start_node_chain_config writes_prompt_values_fine : keeps.
Lemma writes_start_node base_path config db source : writes [other_files; field NODE_P2P_PORT] (start_node base_path config db source) (λ _, True).
Proof.
  unfold start_node. keeps. saves writes_save_if_empty.
  match goal with Hp : _ ≫= _ = Some _ |- _ => simpl in Hp; apply serde_uint_ok, (uint_from_str_in_u _ _ _ Hp); lia end.
Qed.
#[local] Hint Resolve writes_start_node : keeps.
Lemma data_source_ok s : cf_default CARDANO_DATA_SOURCE = Some s → serde_ok (cf_serde CARDANO_DATA_SOURCE) s.
Proof. intros [= <-]. by apply serde_string_ok. Qed.
#[local] Hint Resolve data_source_ok : keeps.
Lemma writes_start_node_run silent : writes [other_files; field SUBSTRATE_NODE_DATA_BASE_PATH; field CARDANO_DATA_SOURCE; field POSTGRES_CONNECTION_STRING; field NODE_P2P_PORT] (start_node_run silent) (λ _, True).
Proof. unfold start_node_run. keeps. Qed.
End Keys.

(** ** Values that are read and derived *)

Section Values.
Context `{!Hex, !HexLaws, !HexBytes, !SerdeJson}.

Lemma text_uint_ok w s n : w ≤ 64 → text_parse (text_uint w) s = Ok n → serde_ok (serde_uint w) n.
Proof.
  intros Hw. simpl. destruct (uint_from_str w s) as [m|] eqn:Hm; [|done]. intros [= <-].
  by eapply serde_uint_ok, uint_from_str_in_u.
Qed.
Lemma decode_hex_array_Ok n s b : decode_hex_array n s = Ok b → Forall is_byte b ∧ length b = n.
Proof.
  unfold decode_hex_array. destruct (from_hex s) as [b'|] eqn:Hb; [|done]. simpl.
  case_decide; [|done]. intros [= <-]. split; [by eapply from_hex_bytes|done].
Qed.
Lemma text_hex_array_ok n s b :
  text_parse (text_hex (decode_hex_array n)) s = Ok b → serde_ok (serde_hex (decode_hex_array n)) b.
Proof.
  simpl. destruct (decode_hex_array n s) as [b'|] eqn:Hb; [|done]. intros [= <-].
  apply decode_hex_array_Ok in Hb as [Hb Hn]. by apply serde_hex_array_ok.
Qed.
Lemma text_asset_name_ok s b :
  text_parse (text_hex (decode_hex_bounded MAX_ASSET_NAME_LEN)) s = Ok b → serde_ok serde_asset_name b.
Proof.
  simpl. unfold decode_hex_bounded. destruct (from_hex s) as [b'|] eqn:Hb; [|done]. simpl.
  case_decide; [|done]. intros [= <-]. apply serde_asset_name_ok; [by eapply from_hex_bytes|done].
Qed.
Lemma text_governance_ok s l :
  text_parse text_governance_authorities s = Ok l → serde_ok (serde_vec serde_key_hash) l.
Proof.
  simpl. unfold governance_authorities_from_str. intros Hl. apply serde_vec_ok. revert l Hl.
  induction (split_whitespace s) as [|x ws IH]; simpl; intros l; [by intros [= <-]; constructor|].
  destruct (decode_hex_array _ x) as [b|] eqn:Hb; [|done]. destruct (key_hashes_from_words ws) as [bs|]; [|done].
  intros [= <-]. constructor; [|by apply IH]. apply decode_hex_array_Ok in Hb as [Hb Hn].
  by apply serde_hex_array_ok.
Qed.
Lemma network_protocol_ok p : serde_ok serde_network_protocol p.
Proof.
  exists (JString (network_protocol_display p)). destruct p; split_and!; try done; constructor; reflexivity.
Qed.

(** Cardano parameters that the chain configuration can hold *)
Definition params_ok (p : CardanoParameters) : Prop :=
  in_u 64 (cp_security_parameter p) ∧
  (f64_is_finite (cp_active_slots_coeff p) = true ∧ f64_exact (cp_active_slots_coeff p)) ∧
  in_u 32 (cp_first_epoch_number p) ∧ in_u 64 (cp_first_slot_number p) ∧
  in_u 64 (cp_epoch_duration_millis p) ∧ in_u 64 (cp_first_epoch_timestamp_millis p) ∧
  in_u 64 (cp_slot_duration_millis p).
Definition shelley_ok (c : ShelleyGenesisConfiguration) : Prop :=
  in_u 32 (sg_security_parameter c) ∧ in_u 32 (sg_epoch_length c) ∧ in_u 32 (sg_slot_length_millis c) ∧
  in_u 64 (sg_start_time c) ∧
  f64_is_finite (sg_active_slots_coefficient c) = true ∧ f64_exact (sg_active_slots_coefficient c).
Definition era_ok (e : EraSummary) : Prop :=
  in_u 64 (eb_time_seconds (es_start e)) ∧ in_u 64 (eb_slot (es_start e)) ∧ in_u 32 (eb_epoch (es_start e)).

Lemma in_u_32_64 n : in_u 32 n → in_u 64 n.
Proof. unfold in_u, u_bound. lia. Qed.
Lemma first_epoch_era_elem eras era : get_first_epoch_era eras = Ok era → era ∈ eras.
Proof.
  unfold get_first_epoch_era. destruct (last eras) as [latest|]; [|done]. simpl.
  destruct (list_find _ eras) as [[i e]|] eqn:He; [|done]. intros [= <-].
  apply list_find_Some in He as [He _]. by eapply list_elem_of_lookup_2.
Qed.
Lemma caradano_parameters_ok eras config p :
  Forall era_ok eras → shelley_ok config → caradano_parameters eras config = Ok p → params_ok p.
Proof.
  intros Heras (Hs & Hl & Hm & Ht & Hf). unfold caradano_parameters.
  destruct (get_first_epoch_era eras) as [era|] eqn:He; [|done]. simpl.
  apply first_epoch_era_elem in He. rewrite Forall_forall in Heras. destruct (Heras era He) as (He1 & He2 & He3).
  destruct (checked_mul 64 (sg_epoch_length config) (sg_slot_length_millis config)) as [d|] eqn:Hd; [|done]. simpl.
  destruct (checked_add 64 _ _) as [a|] eqn:Ha; [|done]. simpl.
  destruct (checked_mul 64 a 1000) as [b|] eqn:Hb; [|done]. simpl. intros [= <-].
  unfold checked_add, checked_mul, in_u in *. repeat case_match; simplify_eq.
  unfold params_ok, in_u; simpl. rewrite ?Z.ltb_lt in *. unfold u_bound in *. naive_solver nia.
Qed.
End Values.

(** ** Preparing the configuration *)

Section Prepare.
Context {L : Type} `{!Machine L, !MachineLaws L, !QuietPrograms L, !Hex, !HexLaws, !HexBytes, !SerdeJson, !SerdeJsonLaws}.
Context `{!Csl, !CslText, !AddressNotHex, !CslKeys, !Scripts, !Ogmios L, !OgmiosGenesis L, !NodeTyped L, !PeerIds, !PeerIdText}.
Context {A K : Type} `{!CandidateVerifier A K}.
Context (get_raw : K → bytes → bytes).
Context (generate_ed25519 : result OffchainError PrivateKey) (save_wallet_file : result OffchainError unit)
  (delay : Z) (retries : nat) (tx_json : MultiSigTransactionData → bytes).

Lemma writes_ogmios_rpc config req :
  writes [] (ogmios_rpc config req) (ok_with (λ r, match r with
    | EraSummariesResponse eras => Forall era_ok eras
    | ShelleyGenesisConfigResponse c => shelley_ok c
    | UtxoResponse utxos => Forall (λ u, utxo_id_wf (utxo_id_of u) ∧ utxo_index (utxo_id_of u) < 2 ^ 15) utxos
    end)).
Proof.
  unfold ogmios_rpc. keeps. unfold ogmios_request. destruct (reachable _ _ _); [|done].
  destruct req as [| |address].
  - destruct (era_summaries _) as [eras|] eqn:He; [|done]. simpl. apply node_eras in He.
    apply Forall_fmap. by eapply Forall_impl, id.
  - destruct (shelley_genesis_configuration _) as [r|] eqn:Hr; [|done]. simpl.
    apply node_genesis in Hr as (? & ? & ?). unfold shelley_genesis_try_from.
    destruct (decimal_to_f64 _) as [f|] eqn:Hf; [|done]. simpl. apply node_coefficient in Hf.
    destruct (try_into 64 _) as [t|] eqn:Ht; [|done]. apply try_into_Some in Ht as [? ->]. simpl.
    unfold shelley_ok. simpl. naive_solver.
  - destruct (query_utxos _ _) as [utxos|] eqn:Hu; [|done]. simpl. by eapply node_utxos.
Qed.
#[local] Hint Resolve writes_ogmios_rpc : keeps.
Lemma writes_offchain_impl config : writes [] (offchain_impl config) (λ _, True).
Proof. unfold offchain_impl. keeps. Qed.
Lemma writes_get_shelley_config config : writes [] (get_shelley_config config) (ok_with shelley_ok).
Proof. unfold get_shelley_config. keeps. done. Qed.
Lemma writes_get_eras_summaries config : writes [] (get_eras_summaries config) (ok_with (Forall era_ok)).
Proof. unfold get_eras_summaries. keeps. done. Qed.
#[local] Hint Resolve writes_offchain_impl writes_get_shelley_config writes_get_eras_summaries : keeps.
Lemma writes_prepare_cardano_params config : writes [] (prepare_cardano_params config) (ok_with params_ok).
Proof.
  unfold prepare_cardano_params. keeps. destruct (caradano_parameters _ _) eqn:Hp; [|done]. simpl.
  by eapply caradano_parameters_ok.
Qed.
Lemma writes_prompt_ogmios_configuration : writes [field OGMIOS_PROTOCOL; field OGMIOS_HOSTNAME; field OGMIOS_PORT; field OGMIOS_REQUEST_TIMEOUT] prompt_ogmios_configuration (λ _, True).
Proof.
  unfold prompt_ogmios_configuration. keeps.
  - saves writes_select_and_save; apply network_protocol_ok.
  - saves writes_prompt_parse_and_save. intros s v. by apply text_uint_ok.
  - saves writes_save_if_empty. by apply serde_uint_ok.
Qed.
#[local] Hint Resolve writes_prepare_cardano_params writes_prompt_ogmios_configuration : keeps.
Lemma writes_query_utxos_of config address : writes [] (query_utxos_of config address)
  (ok_with (Forall (λ u, utxo_id_wf (utxo_id_of u) ∧ utxo_index (utxo_id_of u) < 2 ^ 15))).
Proof. unfold query_utxos_of. keeps. done. Qed.
Lemma writes_select_from_utxos question utxos :
  writes [] (select_from_utxos question utxos) (λ id, ∃ u, u ∈ utxos ∧ utxo_id_of u = id).
Proof.
  unfold select_from_utxos. keeps. eexists. split; [|done]. by eapply list_elem_of_lookup_2.
Qed.
#[local] Hint Resolve writes_query_utxos_of writes_select_from_utxos : keeps.

(** *** Bootnodes *)
Lemma writes_peer_id_from_config :
  writes [field SUBSTRATE_NODE_DATA_BASE_PATH] peer_id_from_config (ok_with (λ o, ∀ p, o = Some p → from_utf8 p = Some p)).
Proof.
  unfold peer_id_from_config. keeps; [|done]. unfold peer_id_from_network_key.
  destruct (hex_decode _); [|done]. simpl. destruct (peer_id_of_ed25519 _) as [p|] eqn:Hp; [|done]. simpl.
  intros ? [= <-]. by eapply peer_id_utf8.
Qed.
#[local] Hint Resolve writes_peer_id_from_config : keeps.
Lemma display_uint_utf8 n : 0 ≤ n → from_utf8 (display_uint n) = Some (display_uint n).
Proof.
  intros Hn. apply ascii_utf8. eapply Forall_impl; [apply digits_chars; [done|constructor]|simpl; lia].
Qed.
Lemma bootnode_utf8 proto host port peer :
  from_utf8 proto = Some proto → from_utf8 host = Some host → 0 ≤ port → from_utf8 peer = Some peer →
  from_utf8 (proto ++ host ++ str "/tcp/" ++ display_uint port ++ str "/p2p/" ++ peer) =
  Some (proto ++ host ++ str "/tcp/" ++ display_uint port ++ str "/p2p/" ++ peer).
Proof. intros. repeat apply utf8_app; try done. by apply display_uint_utf8. Qed.
Lemma writes_read_bootnode_defaults : writes [] read_bootnode_defaults (λ _, True).
Proof. unfold read_bootnode_defaults. keeps. Qed.
Lemma writes_choose_protocol p : writes [] (choose_protocol p) (λ _, True).
Proof. unfold choose_protocol. keeps. Qed.
#[local] Hint Resolve writes_read_bootnode_defaults writes_choose_protocol : keeps.
Lemma writes_configure_bootnode peer : from_utf8 peer = Some peer → writes [field BOOTNODES] (configure_bootnode peer) (λ _, True).
Proof.
  intros Hpeer. unfold configure_bootnode, chain_config_file_path. intros w0.
  eapply keeps_bind; [part|]. intros [[default_protocol host] default_port] _.
  eapply keeps_bind; [part|]. intros protocol _.
  eapply keeps_bind; [part|]. intros answer _.
  destruct (uint_from_str 16 answer) as [port|] eqn:Hport; [|by apply keeps_ret].
  apply uint_from_str_in_u in Hport as [Hport _].
  apply (keeps_bind _ _ _ (ok_with (λ b, from_utf8 b = Some b))).
  - destruct protocol; keeps; [by apply bootnode_utf8|]. destruct (ipv4_from_str _); [|done]. by apply bootnode_utf8.
  - intros r Hr. keeps. saves writes_save. apply serde_vec_ok. constructor; [|constructor].
    by apply serde_string_ok.
Qed.
#[local] Hint Resolve writes_configure_bootnode : keeps.
Lemma writes_establish_bootnodes : writes [field SUBSTRATE_NODE_DATA_BASE_PATH; field BOOTNODES] establish_bootnodes (λ _, True).
Proof.
  unfold establish_bootnodes. keeps; try (saves writes_save; apply serde_vec_ok; constructor).
Qed.

(** *** Keys of Cardano *)
Lemma writes_parse_json_key_file path : writes [] (parse_json_key_file path) (λ _, True).
Proof. unfold parse_json_key_file. keeps. Qed.
#[local] Hint Resolve writes_establish_bootnodes writes_parse_json_key_file : keeps.
Lemma writes_payment_signing_key path : writes [] (get_mc_payment_signing_key_from_file path) (λ _, True).
Proof. unfold get_mc_payment_signing_key_from_file. keeps. Qed.
Lemma writes_payment_verification_key path : writes [] (get_payment_verification_key_bytes_from_file path) (λ _, True).
Proof. unfold get_payment_verification_key_bytes_from_file. keeps. Qed.
Lemma writes_staking_signing_key path : writes [] (get_mc_staking_signing_key_from_file path) (λ _, True).
Proof. unfold get_mc_staking_signing_key_from_file. keeps. Qed.
Lemma writes_stake_pool_verification_key path : writes [] (get_stake_pool_verification_key_from_file path) (λ _, True).
Proof. unfold get_stake_pool_verification_key_from_file. keeps. Qed.
#[local] Hint Resolve writes_payment_signing_key writes_payment_verification_key writes_staking_signing_key writes_stake_pool_verification_key : keeps.
Lemma writes_get_private_key : writes [field CARDANO_PAYMENT_SIGNING_KEY_FILE] get_private_key (λ _, True).
Proof. unfold get_private_key. keeps. Qed.
#[local] Hint Resolve writes_get_private_key : keeps.

(** *** Genesis UTxO, governance and addresses *)
Lemma writes_select_genesis_utxo : writes [field OGMIOS_PROTOCOL; field OGMIOS_HOSTNAME; field OGMIOS_PORT; field OGMIOS_REQUEST_TIMEOUT; field CARDANO_PAYMENT_SIGNING_KEY_FILE; field GENESIS_UTXO] select_genesis_utxo (λ _, True).
Proof.
  unfold select_genesis_utxo. keeps. saves writes_save.
  match goal with Hf : ok_with (Forall _) _, Hx : ∃ u, _ |- _ =>
    destruct Hx as (u & Hin & <-); simpl in Hf; rewrite Forall_forall in Hf; destruct (Hf u Hin) end.
  by apply serde_utxo_id_ok.
Qed.
Lemma writes_prompt_initial_governance key : writes [field INITIAL_GOVERNANCE_AUTHORITIES; field INITIAL_GOVERNANCE_THRESHOLD] (prompt_initial_governance key) (λ _, True).
Proof.
  unfold prompt_initial_governance. keeps.
  - saves writes_save_if_empty. apply serde_vec_ok. repeat constructor.
    destruct (public_hash_hash (to_public key)). by apply serde_hex_array_ok.
  - saves writes_prompt_parse_and_save; apply text_governance_ok.
  - saves writes_save_if_empty. by apply serde_uint_ok.
  - saves writes_prompt_parse_and_save. intros s v. by apply text_uint_ok.
Qed.
#[local] Hint Resolve writes_select_genesis_utxo writes_prompt_initial_governance : keeps.
Lemma writes_prompt_and_init_governance utxo key config :
  writes [main_chain; field INITIAL_GOVERNANCE_AUTHORITIES; field INITIAL_GOVERNANCE_THRESHOLD] (prompt_and_init_governance delay retries utxo key config) (λ _, True).
Proof. unfold prompt_and_init_governance. keeps. Qed.

Definition scripts_ok (s : ScriptsData) : Prop :=
  Forall (λ a, from_utf8 a = Some a ∧ from_hex a = None) (addresses s) ∧ Forall is_hash (policy_ids s) ∧
  length (addresses s) = 7%nat ∧ length (policy_ids s) = 6%nat.
Lemma plutus_address_ok p n : from_utf8 (plutus_address p n) = Some (plutus_address p n) ∧ from_hex (plutus_address p n) = None.
Proof. split; [apply script_address_utf8|apply script_address_not_hex]. Qed.
Lemma script_hash_ok p : is_hash (script_hash p).
Proof. apply blake2b_224_hash. Qed.
Ltac ok_steps :=
  repeat match goal with
  | Hr : mbind _ ?m = Ok _ |- _ => let Hm := fresh "Hm" in destruct m eqn:Hm; [simpl in Hr|discriminate Hr]
  | Hr : Ok _ = Ok _ |- _ => injection Hr as <-
  end.
Lemma get_scripts_data_ok utxo network data : get_scripts_data utxo network = Ok data → scripts_ok data.
Proof.
  unfold get_scripts_data. intros Hd. ok_steps.
  unfold version_oracle_scripts, d_parameter_scripts, permissioned_candidates_scripts, governed_map_scripts in *.
  ok_steps. unfold scripts_ok. simpl.
  repeat (constructor || split); apply plutus_address_ok || apply script_hash_ok.
Qed.
Lemma scripts_data_of_ok utxo s s' data : scripts_data_of utxo s = Ret (s', Ok data) → scripts_ok data.
Proof.
  unfold scripts_data_of, query, mbind, DS_bind, ds_lift. simpl. destruct (shelley_network s) as [n|]; simpl; [|done].
  intros [= _ Hd]. by eapply get_scripts_data_ok.
Qed.
Lemma writes_scripts_data_of utxo : writes [] (block_on (scripts_data_of utxo)) (ok_with scripts_ok).
Proof. apply writes_block_on_read; [unfold scripts_data_of; apply _|apply scripts_data_of_ok]. Qed.

Lemma script_address_serde data i a :
  scripts_ok data → (i < 7)%nat → address_from_str (nth i (addresses data) []) = Ok a → serde_ok serde_address a.
Proof.
  intros (Ha & _ & Hn & _) Hi. unfold address_from_str. case_decide; [|done]. intros [= <-].
  rewrite Forall_forall in Ha. destruct (Ha (nth i (addresses data) [])); [|by apply serde_address_ok].
  apply list_elem_of_In, nth_In. lia.
Qed.
Lemma script_policy_serde data i : scripts_ok data → (i < 6)%nat → serde_ok serde_policy_id (nth i (policy_ids data) []).
Proof.
  intros (_ & Hp & _ & Hn) Hi. rewrite Forall_forall in Hp.
  destruct (Hp (nth i (policy_ids data) [])); [|by apply serde_hex_array_ok].
  apply list_elem_of_In, nth_In. lia.
Qed.
Lemma writes_internal_error s : writes [] (mret (internal_error (address_from_str s)))
  (ok_with (λ a, address_from_str s = Ok a)).
Proof. intros w0. apply keeps_ret. by destruct (address_from_str s). Qed.
#[local] Hint Resolve writes_scripts_data_of writes_internal_error : keeps.
Lemma writes_set_up_cardano_addresses utxo config : writes [field COMMITTEE_CANDIDATES_ADDRESS; field D_PARAMETER_POLICY_ID; field PERMISSIONED_CANDIDATES_POLICY_ID; field ILLIQUID_SUPPLY_ADDRESS; field GOVERNED_MAP_VALIDATOR_ADDRESS; field GOVERNED_MAP_POLICY_ID] (set_up_cardano_addresses utxo config) (λ _, True).
Proof.
  unfold set_up_cardano_addresses. keeps.
  all: match goal with Hd : ok_with scripts_ok _ |- _ =>
    saves writes_save; first [apply (script_policy_serde _ _ Hd); lia|eapply (script_address_serde _ _ _ Hd); [|eassumption]; simpl; lia]
  end.
Qed.
Lemma writes_cardano_parameters_save p : params_ok p → writes [field CARDANO_SECURITY_PARAMETER; field CARDANO_ACTIVE_SLOTS_COEFF; field CARDANO_FIRST_EPOCH_NUMBER; field CARDANO_FIRST_SLOT_NUMBER; field CARDANO_EPOCH_DURATION_MILLIS; field CARDANO_FIRST_EPOCH_TIMESTAMP_MILLIS; field CARDANO_SLOT_DURATION_MILLIS] (cardano_parameters_save p) (λ _, True).
Proof.
  intros (? & [? ?] & ? & ? & ? & ? & ?). unfold cardano_parameters_save. keeps.
  all: saves writes_save; first [by apply serde_uint_ok|by apply serde_f64_ok].
Qed.
#[local] Hint Resolve writes_prompt_and_init_governance writes_set_up_cardano_addresses writes_cardano_parameters_save : keeps.
Lemma writes_prepare_bridge_token : writes [field BRIDGE_TOKEN_POLICY; field BRIDGE_TOKEN_ASSET_NAME] prepare_bridge_token (λ _, True).
Proof.
  unfold prepare_bridge_token. keeps.
  - saves writes_prompt_parse_and_save; apply text_hex_array_ok.
  - saves writes_prompt_parse_and_save; apply text_asset_name_ok.
  - saves writes_save. apply serde_hex_array_ok; [by apply Forall_replicate|done].
  - saves writes_save. apply serde_asset_name_ok; [constructor|simpl; lia].
Qed.
#[local] Hint Resolve writes_prepare_bridge_token : keeps.
Lemma writes_prepare_main_chain_config config utxo : writes [field CARDANO_SECURITY_PARAMETER; field CARDANO_ACTIVE_SLOTS_COEFF; field CARDANO_FIRST_EPOCH_NUMBER; field CARDANO_FIRST_SLOT_NUMBER; field CARDANO_EPOCH_DURATION_MILLIS; field CARDANO_FIRST_EPOCH_TIMESTAMP_MILLIS; field CARDANO_SLOT_DURATION_MILLIS; field COMMITTEE_CANDIDATES_ADDRESS; field D_PARAMETER_POLICY_ID; field PERMISSIONED_CANDIDATES_POLICY_ID; field ILLIQUID_SUPPLY_ADDRESS; field GOVERNED_MAP_VALIDATOR_ADDRESS; field GOVERNED_MAP_POLICY_ID; field INITIAL_PERMISSIONED_CANDIDATES; field BRIDGE_TOKEN_POLICY; field BRIDGE_TOKEN_ASSET_NAME] (prepare_main_chain_config config utxo) (λ _, True).
Proof.
  unfold prepare_main_chain_config. keeps. saves writes_save. apply serde_vec_ok. constructor.
Qed.
#[local] Hint Resolve writes_prepare_main_chain_config : keeps.
Lemma writes_prepare_configuration_run : writes [main_chain; field SUBSTRATE_NODE_DATA_BASE_PATH; field BOOTNODES; field OGMIOS_PROTOCOL; field OGMIOS_HOSTNAME; field OGMIOS_PORT; field OGMIOS_REQUEST_TIMEOUT; field CARDANO_PAYMENT_SIGNING_KEY_FILE; field GENESIS_UTXO; field INITIAL_GOVERNANCE_AUTHORITIES; field INITIAL_GOVERNANCE_THRESHOLD; field CARDANO_SECURITY_PARAMETER; field CARDANO_ACTIVE_SLOTS_COEFF; field CARDANO_FIRST_EPOCH_NUMBER; field CARDANO_FIRST_SLOT_NUMBER; field CARDANO_EPOCH_DURATION_MILLIS; field CARDANO_FIRST_EPOCH_TIMESTAMP_MILLIS; field CARDANO_SLOT_DURATION_MILLIS; field COMMITTEE_CANDIDATES_ADDRESS; field D_PARAMETER_POLICY_ID; field PERMISSIONED_CANDIDATES_POLICY_ID; field ILLIQUID_SUPPLY_ADDRESS; field GOVERNED_MAP_VALIDATOR_ADDRESS; field GOVERNED_MAP_POLICY_ID; field INITIAL_PERMISSIONED_CANDIDATES; field BRIDGE_TOKEN_POLICY; field BRIDGE_TOKEN_ASSET_NAME] (prepare_configuration_run delay retries) (λ _, True).
Proof. unfold prepare_configuration_run. keeps. Qed.

(** ** The main chain state *)

Lemma writes_load_chain_config : writes [] load_chain_config (λ _, True).
Proof. unfold load_chain_config. keeps. Qed.
Lemma writes_load_chain_config_field {T} (f : ConfigFieldDefinition T) : writes [] (load_chain_config_field f) (λ _, True).
Proof. unfold load_chain_config_field, chain_config_file_path. keeps. Qed.
#[local] Hint Resolve writes_load_chain_config writes_load_chain_config_field : keeps.
Lemma writes_initial_candidates : writes [] (initial_permissioned_candidates_from_chain_config get_raw) (λ _, True).
Proof. unfold initial_permissioned_candidates_from_chain_config. keeps. Qed.
Lemma writes_read_permissioned_candidates config : writes [] (read_permissioned_candidates config) (λ _, True).
Proof.
  unfold read_permissioned_candidates. keeps.
  eapply keeps_writes; [apply writes_block_on_only|fields]. unfold permissioned_candidates_of, get_permissioned_candidates. apply _.
Qed.
Lemma writes_read_d_parameter config : writes [] (read_d_parameter config) (λ _, True).
Proof.
  unfold read_d_parameter. keeps.
  eapply keeps_writes; [apply writes_block_on_only|fields]. unfold get_d_param. apply _.
Qed.
Lemma writes_print_candidate_data candidates : writes [] (print_candidate_data candidates) (λ _, True).
Proof. induction candidates; simpl; keeps. Qed.
#[local] Hint Resolve writes_initial_candidates writes_read_permissioned_candidates writes_read_d_parameter writes_print_candidate_data : keeps.
Lemma writes_print_both o candidates :
  writes [] (print_on_chain_and_config_permissioned_candidates o candidates) (λ _, True).
Proof. unfold print_on_chain_and_config_permissioned_candidates, chain_config_file_path. keeps. Qed.
Lemma writes_print_d_parameter o : writes [] (print_on_chain_d_parameter o) (λ _, True).
Proof. unfold print_on_chain_d_parameter. keeps. Qed.
Lemma writes_print_tx name tx : writes [] (print_tx_to_sign_and_instruction tx_json name tx) (λ _, True).
Proof. unfold print_tx_to_sign_and_instruction. keeps. Qed.
#[local] Hint Resolve writes_print_both writes_print_d_parameter writes_print_tx : keeps.
Lemma writes_set_candidates candidates utxo :
  writes [main_chain; field CARDANO_PAYMENT_SIGNING_KEY_FILE] (set_candidates_on_main_chain generate_ed25519 save_wallet_file delay retries tx_json candidates utxo) (λ _, True).
Proof. unfold set_candidates_on_main_chain. keeps. Qed.
Lemma writes_set_d_parameter d utxo :
  writes [main_chain; field CARDANO_PAYMENT_SIGNING_KEY_FILE] (set_d_parameter_on_main_chain generate_ed25519 save_wallet_file delay retries tx_json d utxo) (λ _, True).
Proof. unfold set_d_parameter_on_main_chain. keeps. Qed.
#[local] Hint Resolve writes_set_candidates writes_set_d_parameter : keeps.
Lemma writes_setup_main_chain_state_run :
  writes [main_chain; field OGMIOS_PROTOCOL; field OGMIOS_HOSTNAME; field OGMIOS_PORT; field OGMIOS_REQUEST_TIMEOUT; field CARDANO_PAYMENT_SIGNING_KEY_FILE] (setup_main_chain_state_run get_raw generate_ed25519 save_wallet_file delay retries tx_json) (λ _, True).
Proof. unfold setup_main_chain_state_run. keeps. Qed.

(** ** Registration *)

Context `{!CborWriter, !SigningKeys}.

Lemma writes_establish_ogmios_configuration : writes [field OGMIOS_PROTOCOL; field OGMIOS_HOSTNAME; field OGMIOS_PORT; field OGMIOS_REQUEST_TIMEOUT] establish_ogmios_configuration (λ _, True).
Proof. unfold establish_ogmios_configuration. keeps. Qed.
Lemma writes_read_generated_keys : writes [] read_generated_keys (λ _, True).
Proof. unfold read_generated_keys. keeps. Qed.
Lemma writes_load_chain_field {T} (f : ConfigFieldDefinition T) : writes [] (load_chain_field f) (λ _, True).
Proof. unfold load_chain_field. keeps. Qed.
Lemma writes_derive_address network : writes [field CARDANO_PAYMENT_VERIFICATION_KEY_FILE] (derive_address network) (λ _, True).
Proof. unfold derive_address. keeps. Qed.
Lemma writes_get_ecdsa_pair path key : writes [] (get_ecdsa_pair_from_file path key) (λ _, True).
Proof. unfold get_ecdsa_pair_from_file. keeps. Qed.
Lemma writes_executable : writes [] current_executable (λ _, True).
Proof. intros w0. by apply keeps_ret. Qed.
#[local] Hint Resolve writes_establish_ogmios_configuration writes_read_generated_keys writes_load_chain_field writes_derive_address writes_get_ecdsa_pair writes_executable : keeps.
Lemma writes_register1_run : writes [field SUBSTRATE_NODE_DATA_BASE_PATH; field CARDANO_PAYMENT_VERIFICATION_KEY_FILE; field OGMIOS_PROTOCOL; field OGMIOS_HOSTNAME; field OGMIOS_PORT; field OGMIOS_REQUEST_TIMEOUT] register1_run (λ _, True).
Proof. unfold register1_run. keeps. Qed.
Lemma writes_register2_run cmd : writes [] (register2_run cmd) (λ _, True).
Proof. unfold register2_run. keeps. Qed.
Lemma writes_set_data_sources_env config db source : writes [] (set_data_sources_env config db source) (λ _, True).
Proof. unfold set_data_sources_env. keeps; by apply writes_set_env. Qed.
#[local] Hint Resolve writes_set_data_sources_env : keeps.
Lemma writes_prepare_mc_follower_env : writes [field CARDANO_DATA_SOURCE; field POSTGRES_CONNECTION_STRING] prepare_mc_follower_env (λ _, True).
Proof. unfold prepare_mc_follower_env. keeps. saves writes_save. by apply data_source_ok. Qed.
Lemma writes_get_current_mainchain_epoch : writes [] get_current_mainchain_epoch (λ _, True).
Proof. unfold get_current_mainchain_epoch. keeps. Qed.
Lemma writes_show_registration_status epoch key : writes [other_files] (show_registration_status epoch key) (λ _, True).
Proof. unfold show_registration_status. keeps. Qed.
#[local] Hint Resolve writes_prepare_mc_follower_env writes_get_current_mainchain_epoch writes_show_registration_status : keeps.
Lemma writes_query_registration_status cmd : writes [other_files; field CARDANO_DATA_SOURCE; field POSTGRES_CONNECTION_STRING] (query_registration_status cmd) (λ _, True).
Proof. unfold query_registration_status. keeps. Qed.
#[local] Hint Resolve writes_query_registration_status : keeps.
Lemma writes_register3_run cmd : writes [other_files; main_chain; field CARDANO_PAYMENT_SIGNING_KEY_FILE; field OGMIOS_PROTOCOL; field OGMIOS_HOSTNAME; field OGMIOS_PORT; field OGMIOS_REQUEST_TIMEOUT; field CARDANO_DATA_SOURCE; field POSTGRES_CONNECTION_STRING] (register3_run delay retries cmd) (λ _, True).
Proof. unfold register3_run. keeps. Qed.
Lemma writes_deregister_run : writes [main_chain; field CARDANO_PAYMENT_SIGNING_KEY_FILE; field CARDANO_COLD_VERIFICATION_KEY_FILE; field OGMIOS_PROTOCOL; field OGMIOS_HOSTNAME; field OGMIOS_PORT; field OGMIOS_REQUEST_TIMEOUT] (deregister_run delay retries) (λ _, True).
Proof. unfold deregister_run, read_chain_config_file, chain_config_file_path. keeps. Qed.
End Prepare.

#[export] Hint Resolve writes_current_executable writes_generate_keys writes_store_keys writes_generate_or_load_key writes_generate_or_load_keys writes_write_keys writes_write_spec writes_generate_spo_keys writes_run_generate_network_key writes_generate_network_key writes_announce_keys writes_write_temp_chain_spec writes_generate_keys_run writes_load_config_field writes_chain_spec_config_load writes_print_candidates writes_print_config writes_create_chain_spec_run writes_keys_present writes_check_keystore writes_check_chain_spec writes_load_start_node_chain_config writes_prompt_values_fine writes_start_node writes_start_node_run writes_ogmios_rpc writes_offchain_impl writes_get_shelley_config writes_get_eras_summaries writes_prepare_cardano_params writes_prompt_ogmios_configuration writes_query_utxos_of writes_select_from_utxos writes_peer_id_from_config writes_read_bootnode_defaults writes_choose_protocol writes_configure_bootnode writes_establish_bootnodes writes_parse_json_key_file writes_payment_signing_key writes_payment_verification_key writes_staking_signing_key writes_stake_pool_verification_key writes_get_private_key writes_select_genesis_utxo writes_prompt_initial_governance writes_prompt_and_init_governance writes_scripts_data_of writes_internal_error writes_set_up_cardano_addresses writes_cardano_parameters_save writes_prepare_bridge_token writes_prepare_main_chain_config writes_prepare_configuration_run writes_load_chain_config writes_load_chain_config_field writes_initial_candidates writes_read_permissioned_candidates writes_read_d_parameter writes_print_candidate_data writes_print_both writes_print_d_parameter writes_print_tx writes_set_candidates writes_set_d_parameter writes_setup_main_chain_state_run writes_establish_ogmios_configuration writes_read_generated_keys writes_load_chain_field writes_derive_address writes_get_ecdsa_pair writes_executable writes_register1_run writes_register2_run writes_set_data_sources_env writes_prepare_mc_follower_env writes_get_current_mainchain_epoch writes_show_registration_status writes_query_registration_status writes_register3_run writes_deregister_run : keeps.

(** ** Sessions *)

Section Sessions.
Context {L : Type} `{!Machine L, !MachineLaws L, !QuietPrograms L, !Hex, !HexLaws, !HexBytes, !SerdeJson, !SerdeJsonLaws}.
Context `{!Csl, !CslText, !AddressNotHex, !CslKeys, !Scripts, !Ogmios L, !OgmiosGenesis L, !NodeTyped L, !PeerIds, !PeerIdText}.
Context `{!CborWriter, !SigningKeys, !NodeKeys} {A K : Type} `{!CandidateVerifier A K, !PartnerChainRuntime K}.
Context (get_raw : K → bytes → bytes) (generate_ed25519 : result OffchainError PrivateKey)
  (save_wallet_file : result OffchainError unit) (tx_json : MultiSigTransactionData → bytes).

(** What a wizard can change *)
Definition changed_by (cmd : Command) : list change :=
  match cmd with
  | GenerateKeys => [other_files; field SUBSTRATE_NODE_DATA_BASE_PATH]
  | PrepareConfiguration _ =>
      [main_chain; field SUBSTRATE_NODE_DATA_BASE_PATH; field BOOTNODES; field OGMIOS_PROTOCOL; field OGMIOS_HOSTNAME; field OGMIOS_PORT; field OGMIOS_REQUEST_TIMEOUT; field CARDANO_PAYMENT_SIGNING_KEY_FILE; field GENESIS_UTXO; field INITIAL_GOVERNANCE_AUTHORITIES; field INITIAL_GOVERNANCE_THRESHOLD; field CARDANO_SECURITY_PARAMETER; field CARDANO_ACTIVE_SLOTS_COEFF; field CARDANO_FIRST_EPOCH_NUMBER; field CARDANO_FIRST_SLOT_NUMBER; field CARDANO_EPOCH_DURATION_MILLIS; field CARDANO_FIRST_EPOCH_TIMESTAMP_MILLIS; field CARDANO_SLOT_DURATION_MILLIS; field COMMITTEE_CANDIDATES_ADDRESS; field D_PARAMETER_POLICY_ID; field PERMISSIONED_CANDIDATES_POLICY_ID; field ILLIQUID_SUPPLY_ADDRESS; field GOVERNED_MAP_VALIDATOR_ADDRESS; field GOVERNED_MAP_POLICY_ID; field INITIAL_PERMISSIONED_CANDIDATES; field BRIDGE_TOKEN_POLICY; field BRIDGE_TOKEN_ASSET_NAME]
  | SetupMainChainState _ =>
      [main_chain; field OGMIOS_PROTOCOL; field OGMIOS_HOSTNAME; field OGMIOS_PORT; field OGMIOS_REQUEST_TIMEOUT; field CARDANO_PAYMENT_SIGNING_KEY_FILE]
  | CreateChainSpec => [other_files]
  | Register2 _ => []
  | StartNode _ =>
      [other_files; field SUBSTRATE_NODE_DATA_BASE_PATH; field CARDANO_DATA_SOURCE; field POSTGRES_CONNECTION_STRING; field NODE_P2P_PORT]
  | Register1 =>
      [field SUBSTRATE_NODE_DATA_BASE_PATH; field CARDANO_PAYMENT_VERIFICATION_KEY_FILE; field OGMIOS_PROTOCOL; field OGMIOS_HOSTNAME; field OGMIOS_PORT; field OGMIOS_REQUEST_TIMEOUT]
  | Register3 _ _ =>
      [other_files; main_chain; field CARDANO_PAYMENT_SIGNING_KEY_FILE; field OGMIOS_PROTOCOL; field OGMIOS_HOSTNAME; field OGMIOS_PORT; field OGMIOS_REQUEST_TIMEOUT; field CARDANO_DATA_SOURCE; field POSTGRES_CONNECTION_STRING]
  | Deregister _ =>
      [main_chain; field CARDANO_PAYMENT_SIGNING_KEY_FILE; field CARDANO_COLD_VERIFICATION_KEY_FILE; field OGMIOS_PROTOCOL; field OGMIOS_HOSTNAME; field OGMIOS_PORT; field OGMIOS_REQUEST_TIMEOUT]
  end.

Lemma command_writes cmd :
  writes (changed_by cmd) (command_run get_raw generate_ed25519 save_wallet_file tx_json cmd) (λ _, True).
Proof.
  destruct cmd; simpl; [apply writes_generate_keys_run|apply writes_prepare_configuration_run
    |apply writes_setup_main_chain_state_run|apply writes_create_chain_spec_run|apply writes_start_node_run
    |apply writes_register1_run|apply writes_register2_run|apply writes_register3_run|apply writes_deregister_run].
Qed.
Lemma command_frame cmd w : typed w →
  frame (changed_by cmd) w (left_by (command_run get_raw generate_ed25519 save_wallet_file tx_json cmd w)).
Proof.
  intros Hw. specialize (command_writes cmd w w (frame_refl _ w Hw)).
  destruct (command_run _ _ _ _ cmd w); simpl; [by intros []|done..].
Qed.

Lemma session_typed w w' :
  typed w → session get_raw generate_ed25519 save_wallet_file tx_json w w' → typed w'.
Proof.
  intros Hw. induction 1 as [|w w' cmd _ IH|w w' w'' _ IH (He & Hd & Hf)]; [done|by apply command_frame, IH|].
  specialize (IH Hw). eapply (typed_files (mkWorld (disk w'') (environ w'') (ledger w') (trace w'))); [done..|].
  rewrite He. apply (frame_disk [other_files] w'); [done| |left; apply list_elem_of_here|by apply frame_refl]. split; [done|]. intros file. apply Hf, IH.
Qed.

Lemma chain_fields_only_prepare cmd {T} (f : ConfigFieldDefinition T) :
  (∀ args, cmd ≠ PrepareConfiguration args) → field f ∈ changed_by cmd → cf_file f = Resources.
Proof.
  intros Hcmd Hf. change (match field f with field f => cf_file f = Resources | _ => True end).
  revert Hf. generalize (field f). intros c Hc.
  destruct cmd; simpl in Hc; try (by destruct (Hcmd common_arguments));
    repeat (apply elem_of_cons in Hc as [->|Hc]; [reflexivity || exact Logic.I|]); by apply not_elem_of_nil in Hc.
Qed.

(** C36. In any session from a directory in which the configuration is well typed, every
    field can be read at any time: the files are never broken, and a field that is
    present is never dropped because its value is of another type. *)
Theorem sessions_keep_types w w' f :
  typed w → session get_raw generate_ed25519 save_wallet_file tx_json w w' → f ∈ config_fields →
  ∃ o, load_from_file (af_field f) w' = Finished w' o ∧ (is_Some o ↔ is_Some (raw_value w' (af_key f))).
Proof.
  intros Hw Hsession Hf. destruct (session_typed w w' Hw Hsession) as (Hs & _ & Ht).
  exists (field_value (af_field f) w'). split; [by apply load_from_file_eq|].
  specialize (Ht f Hf). unfold field_value. unfold af_key in *. simpl in *.
  destruct (raw_value w' _) as [v|]; simpl; [|done]. split; [done|]. intros _. by apply Ht.
Qed.

(** A wizard changes at most the fields that are listed for it, however it ends; no
    wizard but [prepare-configuration] changes a field of the chain configuration;
    the wizards without [main_chain] submit nothing to Cardano, and those without
    [other_files] change no other file. *)
Theorem wizard_changes cmd w f :
  let w' := left_by (command_run get_raw generate_ed25519 save_wallet_file tx_json cmd w) in
  typed w → f ∈ config_fields →
  field (af_field f) ∉ changed_by cmd ∨ (cf_file (af_field f) = Chain ∧ ∀ args, cmd ≠ PrepareConfiguration args) →
  (∃ o, load_from_file (af_field f) w = Finished w o ∧ load_from_file (af_field f) w' = Finished w' o) ∧
  (main_chain ∉ changed_by cmd → ledger w' = ledger w) ∧
  (other_files ∉ changed_by cmd → ∀ path, (∀ file, path ≠ config_path (environ w) file) →
     files (disk w') !! path = files (disk w) !! path).
Proof.
  intros w' Hw Hf Hn. destruct (command_frame cmd w Hw) as (Hw' & Hframe & Hledger & _ & Hother). split_and!; [|done|done].
  exists (field_value (af_field f) w). split; [by apply load_from_file_eq, Hw|].
  rewrite load_from_file_eq by apply Hw'. f_equal. unfold field_value.
  assert (field (af_field f) ∉ changed_by cmd) as Hnot.
  { destruct Hn as [Hn|[Hc Hp]]; [done|]. intros Hin. apply chain_fields_only_prepare in Hin; [congruence|done]. }
  specialize (Hframe f Hf Hnot). unfold af_key in Hframe. subst w'. by rewrite Hframe.
Qed.
End Sessions.

(** ** The configuration as a store *)

(** C37. The configuration files are a store of fields: from any files that hold objects
    or do not exist, saving a field returns, the field is then read as the value
    saved, every other field of the tool is read as before, and the files still
    hold objects. *)
Theorem config_store `{!Machine L, !MachineLaws L, !Hex, !SerdeJson, !SerdeJsonLaws}
    {T} (f : ConfigFieldDefinition T) (v : T) (w : World L) :
  any f ∈ config_fields → stores_ok w → serde_ok (cf_serde f) v →
  ∃ w', save_to_file f v w = Finished w' tt ∧ stores_ok w' ∧
    load_from_file f w' = Finished w' (Some v) ∧
    ∀ g, g ∈ config_fields → g ≠ any f →
      ∃ r, load_from_file (af_field g) w = Finished w r ∧ load_from_file (af_field g) w' = Finished w' r.
Proof.
  intros Hf Hs Hv. destruct (save_to_file_spec f v w Hs Hf Hv) as (content & Hsave & Hs' & Hvalue & Hother).
  eexists. split_and!; [exact Hsave|done|by rewrite load_from_file_eq, Hvalue|].
  intros g Hg Hne. exists (field_value (af_field g) w). rewrite !load_from_file_eq by done.
  split; [done|]. f_equal. apply Hother. by destruct (config_field_apart _ _ Hf Hg).
Qed.

(** ** Witnesses *)

Section Witnesses.
Import CliInstances.

Lemma config_store_witness : ∃ w' : World CliLedger,
  save_to_file GENESIS_UTXO (mkUtxoId (replicate 32 1) 5) cli_world = Finished w' tt ∧
  load_from_file GENESIS_UTXO w' = Finished w' (Some (mkUtxoId (replicate 32 1) 5)).
Proof.
  destruct (config_store GENESIS_UTXO (mkUtxoId (replicate 32 1) 5) cli_world) as (w' & Hsave & _ & Hload & _).
  - config_field.
  - apply cli_typed.
  - apply serde_utxo_id_ok; [|by vm_compute]. split_and!; [apply (bool_decide_unpack _)|..]; by vm_compute.
  - by exists w'.
Defined.

(** Keys are generated, then the configuration is prepared. *)
Definition cli_run : Command → IO CliLedger (result CliError unit) :=
  command_run cli_get_raw (Err OgmiosError) (Ok tt) (λ _, []).
Definition cli_args : CommonArguments := mkCommonArguments 5 1.
Definition prepared_world : World CliLedger :=
  left_by (cli_run (PrepareConfiguration cli_args) (left_by (cli_run GenerateKeys cli_world))).
Lemma prepared_session : session cli_get_raw (Err OgmiosError) (Ok tt) (λ _, []) cli_world prepared_world.
Proof. apply (session_run _ _ _ _ _ _ (PrepareConfiguration cli_args)), (session_run _ _ _ _ _ _ GenerateKeys), session_start. Qed.

Lemma sessions_keep_types_witness : ∃ id, load_from_file GENESIS_UTXO prepared_world = Finished prepared_world (Some id).
Proof.
  destruct (sessions_keep_types cli_get_raw (Err OgmiosError) (Ok tt) (λ _, []) cli_world prepared_world (any GENESIS_UTXO)
    cli_typed prepared_session) as (o & Hload & Ho); [config_field|].
  destruct Ho as [_ Ho]. destruct Ho as [id ->]; [|by exists id].
  apply (bool_decide_unpack (is_Some _)). vm_compute. exact I.
Defined.

Lemma wizard_changes_witness :
  ledger (left_by (cli_run GenerateKeys prepared_world)) = ledger prepared_world.
Proof.
  apply (wizard_changes cli_get_raw (Err OgmiosError) (Ok tt) (λ _, []) GenerateKeys prepared_world (any GENESIS_UTXO)).
  - apply (session_typed cli_get_raw (Err OgmiosError) (Ok tt) (λ _, []) cli_world), prepared_session. apply cli_typed.
  - config_field.
  - right. by split.
  - simpl. rewrite !elem_of_cons, elem_of_nil. intros [Hin|[Hin|Hin]]; done.
Defined.
End Witnesses.
