(* ===== verification/CliPrepared.v ===== *)
(** * What the prepared configuration holds

    A run of [prepare-configuration] that initialises the governance leaves a chain
    configuration that the other wizards read: the genesis UTxO that was spent to
    initialise it, the Cardano parameters computed from what the node reports, and
    the addresses and policies of the scripts of that genesis UTxO. *)

From S2P Require Import Prelude Domain PlutusData AuthoritySelection ContractDatums CandidateKeys TextFormats MainchainEpoch McHash OffchainTx OffchainGovernance OffchainCandidates OffchainVersions CliIO CliJson CliConfig CliStore CliFrame CliKeys CliPrepare CliChain CliRegister CliCommand CliExample CliTyped.

#[local] Arguments config_path : simpl never.

(** ** Runs forward *)

Section Runs.
Context {L : Type} `{!Machine L, !MachineLaws L, !Hex, !SerdeJson, !SerdeJsonLaws}.
Implicit Types (w : World L).

Definition differs {T} (g : ConfigFieldDefinition T) (F : list change) : bool :=
  forallb (λ c, match c with
                | field f => negb (bool_decide (af_key (any g) = af_key (any f)))
                | _ => true
                end) F.
Lemma differs_not_in {T} (g : ConfigFieldDefinition T) F : differs g F = true → field g ∉ F.
Proof.
  intros Hd Hin. unfold differs in Hd. rewrite forallb_forall in Hd. specialize (Hd (field g)).
  apply list_elem_of_In in Hin. specialize (Hd Hin). simpl in Hd. by rewrite bool_decide_eq_true_2 in Hd.
Qed.
(** The file has the value as it is written, and it can be read. *)
Definition stored {T} (f : ConfigFieldDefinition T) (v : T) w : Prop :=
  ∃ j, to_value (cf_serde f) v = Ret j ∧ raw_value w (cf_file f, cf_path f) = Some j ∧ from_value (cf_serde f) j = Some v.
Lemma stored_value {T} (f : ConfigFieldDefinition T) v w : stored f v w → field_value f w = Some v.
Proof. intros (j & _ & Hraw & Hj). unfold field_value. by rewrite Hraw. Qed.
Lemma same_field F w w' {T} (g : ConfigFieldDefinition T) v :
  same F w w' → any g ∈ config_fields → differs g F = true → stored g v w → stored g v w'.
Proof.
  intros [Hs _] Hg Hd (j & Hto & Hraw & Hj). exists j. split_and!; [done| |done].
  rewrite <-Hraw. apply (Hs (any g)); [done|by apply differs_not_in].
Qed.

Definition off_chain (F : list change) : bool := forallb (λ c, match c with main_chain => false | _ => true end) F.
Lemma same_ledger F w w' : same F w w' → off_chain F = true → ledger w' = ledger w.
Proof.
  intros (_ & Hs & _) Hc. apply Hs. intros Hin%list_elem_of_In. unfold off_chain in Hc. rewrite forallb_forall in Hc.
  by specialize (Hc _ Hin).
Qed.

Lemma save_run {T} (f : ConfigFieldDefinition T) v w w' u :
  any f ∈ config_fields → serde_ok (cf_serde f) v → typed w → save_to_file f v w = Finished w' u → stored f v w'.
Proof.
  intros Hf (j & Hto & Hj & Hfrom) Hw Hrun.
  destruct (save_to_file_raw f v j w) as (content & Hsave & _ & Hraw & _); [apply Hw|done..|].
  rewrite Hsave in Hrun. injection Hrun as <- _. by exists j.
Qed.
Lemma load_run {T} (f : ConfigFieldDefinition T) w w' o :
  typed w → load_from_file f w = Finished w' o → w' = w ∧ o = field_value f w.
Proof. intros Hw Hrun. rewrite load_from_file_eq in Hrun by apply Hw. by simplify_eq. Qed.

Lemma writes_keeps {X} F (m : IO L X) Φ : (∀ w0, keeps (frame F w0) m Φ) → writes F m Φ.
Proof. done. Qed.

Lemma same_field_value F w w' {T} (g : ConfigFieldDefinition T) :
  same F w w' → any g ∈ config_fields → differs g F = true → field_value g w' = field_value g w.
Proof.
  intros [Hs _] Hg Hd. unfold field_value. specialize (Hs (any g) Hg (differs_not_in g F Hd)).
  unfold af_key in Hs. simpl in Hs. by rewrite Hs.
Qed.
Lemma same_value F w w' {T} (g : ConfigFieldDefinition T) v :
  same F w w' → any g ∈ config_fields → differs g F = true → field_value g w = Some v → field_value g w' = Some v.
Proof. intros. by erewrite same_field_value. Qed.

(** Files of the tool that are not configuration files stay as they were. *)
Definition tool_file (path : bytes) : Prop := ∀ env, separate env → ∀ file, path ≠ config_path env file.
Definition same_files w w' : Prop := ∀ path, tool_file path → files (disk w') !! path = files (disk w) !! path.
Definition on_config (F : list change) : bool := forallb (λ c, match c with other_files => false | _ => true end) F.
Lemma same_files_trans F w w1 w2 : same_files w w1 → typed w1 → same F w1 w2 → on_config F = true → same_files w w2.
Proof.
  intros Hf (_ & Hsep & _) (_ & _ & Ho) Hc path Hp. rewrite <-Hf by done. apply Ho; [|by apply Hp].
  intros Hin%list_elem_of_In. unfold on_config in Hc. rewrite forallb_forall in Hc. by specialize (Hc _ Hin).
Qed.
Lemma tool_keys_file : tool_file KEYS_FILE_PATH.
Proof. intros env [Hs _] file Heq. apply (Hs file). rewrite <-Heq. by left. Qed.
Lemma tool_keystore base name : tool_file (keystore_path base ++ str "/" ++ name).
Proof. intros env (_ & _ & Hs) file Heq. by destruct (Hs base name file). Qed.

(** A step of a function that returns at the first error *)
Lemma ok_inv {X Y} (m : IO L (result CliError X)) (k : X → IO L (result CliError Y)) w w' y :
  (x ←! m; k x) w = Finished w' (Ok y) → ∃ w1 x, m w = Finished w1 (Ok x) ∧ k x w1 = Finished w' (Ok y).
Proof.
  intros (w1 & r & Hm & Hk)%IO_bind_inv. destruct r as [x|e]; [by eauto|done].
Qed.
End Runs.

(** What holds of the fields of [w] holds of those of [w']. *)
Ltac carry Hsame :=
  repeat match type of Hsame with
  | same _ ?w ?w' =>
      match goal with
      | Hv : stored ?g _ w |- _ => apply (same_field _ _ _ g _ Hsame) in Hv; [|config_field|reflexivity]
      | Hv : field_value ?g w = Some _ |- _ => apply (same_value _ _ _ g _ Hsame) in Hv; [|config_field|reflexivity]
      | Hf : same_files ?w0 w, Hw : typed w |- _ =>
          apply (same_files_trans _ _ _ _ Hf Hw) in Hsame as Hf'; [|reflexivity]; clear Hf; rename Hf' into Hf
      end
  end.

(** [after Hw Hm]: what is known after the step [Hm], which is a part with a lemma in
    [keeps], from a world with [Hw : typed]. *)
Ltac after Hw Hm :=
  let Hw' := fresh "Hw'" in let Hphi := fresh "Hphi" in let Hsame := fresh "Hsame" in let Hledger := fresh "Hledger" in
  pose proof Hm as Hsame;
  first [eapply writes_run in Hsame; [|solve [eauto with keeps]|exact Hw]
        |eapply writes_run in Hsame; [|solve [eauto with keeps_node]|exact Hw]
        |eapply (writes_run []) in Hsame; [|intros ?; solve [part]|exact Hw]];
  destruct Hsame as (Hw' & Hphi & Hsame);
  cbv beta in Hphi; carry Hsame; clear Hw; rename Hw' into Hw;
  try (pose proof (same_ledger _ _ _ Hsame eq_refl) as Hledger).
(** A step whose result does not matter *)
Ltac skip Hrun Hw :=
  let w1 := fresh "ws" in let x := fresh "xs" in let Hm := fresh "Hm" in
  apply IO_bind_inv in Hrun as (w1 & x & Hm & Hrun); after Hw Hm; clear Hm.
(** A step that has to succeed *)
Ltac step Hrun Hw w1 x Hm := apply ok_inv in Hrun as (w1 & x & Hm & Hrun); after Hw Hm.
(** Saving a field *)
Ltac save_step Hm Hw Hv :=
  match type of Hm with
  | save_to_file ?f ?v _ = _ =>
      let Hval := fresh "Hval" in
      pose proof (save_run f v _ _ _ ltac:(config_field) Hv Hw Hm) as Hval;
      let Hw' := fresh "Hw'" in let Hsame := fresh "Hsame" in let Hledger := fresh "Hledger" in
      edestruct (writes_run _ _ _ _ _ _ (writes_save f v ltac:(config_field) Hv) Hw Hm) as (Hw' & _ & Hsame);
      carry Hsame; clear Hw; rename Hw' into Hw; pose proof (same_ledger _ _ _ Hsame eq_refl) as Hledger; clear Hm
  end.
Ltac saved Hrun Hw Hv :=
  let w1 := fresh "ws" in let x := fresh "xs" in let Hm := fresh "Hm" in
  apply IO_bind_inv in Hrun as (w1 & x & Hm & Hrun); save_step Hm Hw Hv.

(** ** The parts of the wizard *)

Section Parts.
Context {L : Type} `{!Machine L, !MachineLaws L, !QuietPrograms L, !Hex, !HexLaws, !HexBytes, !SerdeJson, !SerdeJsonLaws}.
Context `{!Csl, !CslText, !AddressNotHex, !CslKeys, !Scripts, !Ogmios L, !OgmiosGenesis L, !NodeTyped L, !PeerIds, !PeerIdText}.
Context (delay : Z) (retries : nat).
Implicit Types (w : World L).

Lemma cardano_parameters_saved p w w' u :
  params_ok p → typed w → cardano_parameters_save p w = Finished w' u →
  stored CARDANO_SECURITY_PARAMETER (cp_security_parameter p) w' ∧
  stored CARDANO_ACTIVE_SLOTS_COEFF (cp_active_slots_coeff p) w' ∧
  stored CARDANO_FIRST_EPOCH_NUMBER (cp_first_epoch_number p) w' ∧
  stored CARDANO_FIRST_SLOT_NUMBER (cp_first_slot_number p) w' ∧
  stored CARDANO_EPOCH_DURATION_MILLIS (cp_epoch_duration_millis p) w' ∧
  stored CARDANO_FIRST_EPOCH_TIMESTAMP_MILLIS (cp_first_epoch_timestamp_millis p) w' ∧
  stored CARDANO_SLOT_DURATION_MILLIS (cp_slot_duration_millis p) w'.
Proof.
  intros (? & [? ?] & ? & ? & ? & ? & ?) Hw Hrun. unfold cardano_parameters_save in Hrun.
  saved Hrun Hw (serde_uint_ok 64 (cp_security_parameter p) ltac:(lia) ltac:(done)).
  saved Hrun Hw (serde_f64_ok (cp_active_slots_coeff p) ltac:(done) ltac:(done)).
  saved Hrun Hw (serde_uint_ok 32 (cp_first_epoch_number p) ltac:(lia) ltac:(done)).
  saved Hrun Hw (serde_uint_ok 64 (cp_first_slot_number p) ltac:(lia) ltac:(done)).
  saved Hrun Hw (serde_uint_ok 64 (cp_epoch_duration_millis p) ltac:(lia) ltac:(done)).
  saved Hrun Hw (serde_uint_ok 64 (cp_first_epoch_timestamp_millis p) ltac:(lia) ltac:(done)).
  save_step Hrun Hw (serde_uint_ok 64 (cp_slot_duration_millis p) ltac:(lia) ltac:(done)).
  by split_and!.
Qed.

(** The parameters that follow from what the node reports *)
Definition node_parameters (s : L) : result CliError CardanoParameters :=
  eras ← map_err ClientError (era_summaries s);
  response ← map_err ClientError (shelley_genesis_configuration s);
  config ← shelley_genesis_try_from response;
  caradano_parameters (era_summary_from <$> eras) config.

Lemma ogmios_rpc_run config req w w' r :
  ogmios_rpc config req w = Finished w' r → w' = w ∧ ogmios_request config req (ledger w) = r.
Proof. unfold ogmios_rpc. intros (w1 & x & [= <- <-] & [= <- <-])%IO_bind_inv. done. Qed.
Lemma get_shelley_config_run config w w' c :
  get_shelley_config config w = Finished w' (Ok c) →
  w' = w ∧ ∃ r, shelley_genesis_configuration (ledger w) = Ok r ∧ shelley_genesis_try_from r = Ok c.
Proof.
  unfold get_shelley_config. intros (w1 & x & [-> Hreq]%ogmios_rpc_run & Hrun)%ok_inv.
  unfold ogmios_request in Hreq. destruct (reachable _ _ _); [|done].
  destruct (shelley_genesis_configuration _) as [r|]; [|done]. simpl in Hreq.
  destruct (shelley_genesis_try_from r) as [c'|] eqn:Hc; [|done]. injection Hreq as <-. injection Hrun as <- <-. eauto.
Qed.
Lemma get_eras_summaries_run config w w' eras :
  get_eras_summaries config w = Finished w' (Ok eras) →
  w' = w ∧ ∃ l, era_summaries (ledger w) = Ok l ∧ eras = era_summary_from <$> l.
Proof.
  unfold get_eras_summaries. intros (w1 & x & [-> Hreq]%ogmios_rpc_run & Hrun)%ok_inv.
  unfold ogmios_request in Hreq. destruct (reachable _ _ _); [|done].
  destruct (era_summaries _) as [l|]; [|done]. simpl in Hreq. injection Hreq as <-. injection Hrun as <- <-. eauto.
Qed.
Lemma prepare_cardano_params_run config w w' p :
  prepare_cardano_params config w = Finished w' (Ok p) → w' = w ∧ node_parameters (ledger w) = Ok p.
Proof.
  unfold prepare_cardano_params, node_parameters.
  intros (w1 & eras & (-> & l & -> & ->)%get_eras_summaries_run & Hrun)%ok_inv.
  apply ok_inv in Hrun as (w1 & c & (-> & r & -> & Hc)%get_shelley_config_run & Hrun). simpl. rewrite Hc. simpl.
  by injection Hrun as <- ->.
Qed.

(** *** The genesis UTxO and the governance *)

(** An output that the node has at the address of a key *)
Definition owned (s : L) (key : PrivateKey) (id : UtxoId) : Prop :=
  ∃ network utxos, query_utxos (key_hash_address (to_pub_key_hash key) network) s = Ok utxos ∧
    id ∈ utxo_id_of <$> utxos.

Lemma query_utxos_of_run config address w w' utxos :
  query_utxos_of config address w = Finished w' (Ok utxos) →
  ledger w' = ledger w ∧ query_utxos address (ledger w) = Ok utxos.
Proof.
  unfold query_utxos_of. intros (w1 & x & [= <- <-] & Hrun)%IO_bind_inv.
  apply ok_inv in Hrun as (w2 & y & [-> Hreq]%ogmios_rpc_run & Hrun). simpl in Hreq.
  unfold ogmios_request in Hreq. destruct (reachable _ _ _); [|done].
  destruct (query_utxos address _) as [l|]; [|done]. simpl in Hreq. injection Hreq as <-. by injection Hrun as <- <-.
Qed.

Lemma select_genesis_utxo_run w w' id key config :
  typed w → select_genesis_utxo w = Finished w' (Ok (id, key, config)) →
  stored GENESIS_UTXO id w' ∧ owned (ledger w) key id.
Proof.
  intros Hw Hrun. unfold select_genesis_utxo in Hrun. skip Hrun Hw. step Hrun Hw w1 config' Hm.
  step Hrun Hw w2 shelley Hm'. step Hrun Hw w3 key' Hm''. step Hrun Hw w4 utxos Hq.
  apply query_utxos_of_run in Hq as [_ Hq]. destruct (is_empty utxos).
  { skip Hrun Hw. skip Hrun Hw. done. }
  apply IO_bind_inv in Hrun as (w5 & id' & Hsel & Hrun). after Hw Hsel. destruct Hphi4 as (u & Hu & <-).
  simpl in Hphi3. rewrite Forall_forall in Hphi3. destruct (Hphi3 u Hu) as [Hid Hindex].
  saved Hrun Hw (serde_utxo_id_ok (utxo_id_of u) Hid Hindex). injection Hrun as <- <- <- <-. split; [done|].
  eexists _, utxos. split; [by rewrite <-Hledger, <-Hledger0, <-Hledger1, <-Hledger2|]. by apply list_elem_of_fmap_2.
Qed.

Lemma block_on_run {X} (m : Off L X) w w' r :
  block_on m w = Finished w' r → m (ledger w) = Ret (ledger w', r).
Proof. unfold block_on. destruct (m (ledger w)) as [[s r']|]; [|done]. by intros [= <- <-]. Qed.
Lemma offchain_impl_run config w w' r : offchain_impl config w = Finished w' r → w' = w.
Proof. unfold offchain_impl. by intros (w1 & x & [= <- <-] & [= <- <-])%IO_bind_inv. Qed.

Lemma parse_and_save_run {T} (f : ConfigFieldDefinition T) text v w w' :
  any f ∈ config_fields → (∀ s v, text_parse text s = Ok v → serde_ok (cf_serde f) v) →
  typed w → prompt_with_default_from_file_parse_and_save f text w = Finished w' (Ok v) → stored f v w'.
Proof.
  intros Hf Hok Hw Hrun. unfold prompt_with_default_from_file_parse_and_save in Hrun. skip Hrun Hw.
  apply IO_bind_inv in Hrun as (w1 & s & Hs & Hrun). after Hw Hs.
  destruct (text_parse text s) as [v'|] eqn:Hv; [|done]. apply Hok in Hv.
  apply IO_bind_inv in Hrun as (w2 & u & Hsave & [= <- <-]). by eapply save_run.
Qed.

Lemma prompt_initial_governance_run key w w' p :
  typed w → prompt_initial_governance key w = Finished w' (Ok p) →
  multisig_parameters_new (governance_authorities p) (msp_threshold p) = Ok p ∧
  stored INITIAL_GOVERNANCE_AUTHORITIES (governance_authorities p) w' ∧
  stored INITIAL_GOVERNANCE_THRESHOLD (msp_threshold p) w'.
Proof.
  intros Hw Hrun. unfold prompt_initial_governance in Hrun. skip Hrun Hw.
  pose proof (public_hash_hash (to_public key)) as [Hkey Hlen].
  assert (serde_ok (cf_serde INITIAL_GOVERNANCE_AUTHORITIES) [to_pub_key_hash key]) as Hone
    by (apply serde_vec_ok; repeat constructor; by apply serde_hex_array_ok).
  skip Hrun Hw. apply IO_bind_inv in Hrun as (w1 & r & Hr & Hrun).
  assert (writes [field INITIAL_GOVERNANCE_AUTHORITIES]
    (prompt_with_default_from_file_parse_and_save INITIAL_GOVERNANCE_AUTHORITIES text_governance_authorities) (λ _, True))
    as Hpart by (apply writes_prompt_parse_and_save; [config_field|apply text_governance_ok]).
  destruct r as [authorities|e]; [|done].
  pose proof (parse_and_save_run INITIAL_GOVERNANCE_AUTHORITIES _ _ _ _ ltac:(config_field) text_governance_ok Hw Hr) as Hval.
  after Hw Hr. assert (serde_ok (cf_serde INITIAL_GOVERNANCE_THRESHOLD) 1) as Hfirst by (by apply serde_uint_ok).
  skip Hrun Hw. apply IO_bind_inv in Hrun as (w3 & r & Hr' & Hrun). destruct r as [threshold|e]; [|done].
  assert (∀ s v, text_parse (text_uint 8) s = Ok v → serde_ok (serde_uint 8) v) as Ht
    by (intros s v; by apply text_uint_ok).
  pose proof (parse_and_save_run INITIAL_GOVERNANCE_THRESHOLD _ _ _ _ ltac:(config_field) Ht Hw Hr') as Hval'.
  assert (writes [field INITIAL_GOVERNANCE_THRESHOLD]
    (prompt_with_default_from_file_parse_and_save INITIAL_GOVERNANCE_THRESHOLD (text_uint 8)) (λ _, True))
    as Hpart' by (by apply writes_prompt_parse_and_save; [config_field|]).
  after Hw Hr'. apply IO_bind_inv in Hrun as (w4 & path & [= <- <-] & [= <- Hp]).
  destruct (multisig_parameters_new authorities threshold) as [p'|] eqn:Hnew; [|done]. simpl in Hp. injection Hp as ->.
  assert (governance_authorities p = authorities ∧ msp_threshold p = threshold) as [-> ->]; [|done].
  unfold multisig_parameters_new in Hnew. repeat case_match; naive_solver.
Qed.

Lemma prompt_and_init_governance_run id key config w w' tx :
  typed w → prompt_and_init_governance delay retries id key config w = Finished w' (Ok (Some tx)) →
  ∃ p, multisig_parameters_new (governance_authorities p) (msp_threshold p) = Ok p ∧
    stored INITIAL_GOVERNANCE_AUTHORITIES (governance_authorities p) w' ∧
    stored INITIAL_GOVERNANCE_THRESHOLD (msp_threshold p) w' ∧
    init_governance delay retries p key id (ledger w) = Ret (ledger w', Ok tx).
Proof.
  intros Hw Hrun. unfold prompt_and_init_governance in Hrun. apply ok_inv in Hrun as (w1 & p & Hp & Hrun).
  pose proof (prompt_initial_governance_run _ _ _ _ Hw Hp) as (Hnew & Ha & Ht). after Hw Hp.
  apply IO_bind_inv in Hrun as (w2 & b & Hb & Hrun). after Hw Hb. destruct b; [|done].
  apply ok_inv in Hrun as (w3 & u & ->%offchain_impl_run & Hrun).
  apply IO_bind_inv in Hrun as (w4 & r & Hr & Hrun). pose proof (block_on_run _ _ _ _ Hr) as Hr'. after Hw Hr.
  destruct r as [tx'|]; [|done].
  apply IO_bind_inv in Hrun as (w5 & x & Hx & [= <- <-]). after Hw Hx. exists p. split_and!; [done..|].
  by rewrite <-Hledger, <-Hledger0, Hr', Hledger1.
Qed.

Lemma prompt_and_init_governance_none id key config w w' :
  typed w → prompt_and_init_governance delay retries id key config w = Finished w' (Ok None) → ledger w' = ledger w.
Proof.
  intros Hw Hrun. unfold prompt_and_init_governance in Hrun. step Hrun Hw w1 p Hp.
  apply IO_bind_inv in Hrun as (w2 & b & Hb & Hrun). after Hw Hb. destruct b; [|injection Hrun as <-; congruence].
  apply ok_inv in Hrun as (w3 & u & ->%offchain_impl_run & Hrun).
  apply IO_bind_inv in Hrun as (w4 & r & Hr & Hrun). destruct r as [tx'|]; [|done].
  by apply IO_bind_inv in Hrun as (w5 & x & Hx & [= <- _]).
Qed.

(** *** Addresses and policies *)

Lemma address_from_str_id s a : internal_error (address_from_str s) = Ok a → a = s ∧ address_from_str s = Ok s.
Proof. unfold address_from_str. case_decide; [|done]. by intros [= <-]. Qed.
Lemma set_up_cardano_addresses_run id config w w' u :
  typed w → set_up_cardano_addresses id config w = Finished w' (Ok u) →
  ∃ network data, shelley_network (ledger w) = Ok network ∧ get_scripts_data id network = Ok data ∧
    stored COMMITTEE_CANDIDATES_ADDRESS (sa_committee_candidate_validator data) w' ∧
    stored D_PARAMETER_POLICY_ID (sp_d_parameter data) w' ∧
    stored PERMISSIONED_CANDIDATES_POLICY_ID (sp_permissioned_candidates data) w' ∧
    stored ILLIQUID_SUPPLY_ADDRESS (sa_illiquid_circulation_supply_validator data) w' ∧
    stored GOVERNED_MAP_VALIDATOR_ADDRESS (sa_governed_map_validator data) w' ∧
    stored GOVERNED_MAP_POLICY_ID (sp_governed_map data) w'.
Proof.
  intros Hw Hrun. unfold set_up_cardano_addresses in Hrun.
  apply ok_inv in Hrun as (w1 & x & ->%offchain_impl_run & Hrun).
  apply IO_bind_inv in Hrun as (w2 & r & Hr & Hrun). pose proof (block_on_run _ _ _ _ Hr) as Hr'. after Hw Hr.
  destruct r as [data|]; [|done]. simpl in Hphi.
  unfold scripts_data_of, query, mbind, DS_bind, ds_lift in Hr'. simpl in Hr'.
  destruct (shelley_network (ledger w)) as [network|] eqn:Hn; [|done]. simpl in Hr'. injection Hr' as _ Hd.
  exists network, data. split; [done|]. split; [done|].
  apply ok_inv in Hrun as (w3 & a0 & [= <- Ha0] & Hrun). apply address_from_str_id in Ha0 as [-> Ha0].
  apply ok_inv in Hrun as (w3 & a2 & [= <- Ha2] & Hrun). apply address_from_str_id in Ha2 as [-> Ha2].
  apply ok_inv in Hrun as (w3 & a6 & [= <- Ha6] & Hrun). apply address_from_str_id in Ha6 as [-> Ha6].
  saved Hrun Hw (script_address_serde data 0 _ Hphi ltac:(lia) Ha0).
  saved Hrun Hw (script_policy_serde data 0 Hphi ltac:(lia)).
  saved Hrun Hw (script_policy_serde data 1 Hphi ltac:(lia)).
  saved Hrun Hw (script_address_serde data 2 _ Hphi ltac:(lia) Ha2).
  saved Hrun Hw (script_address_serde data 6 _ Hphi ltac:(lia) Ha6).
  saved Hrun Hw (script_policy_serde data 4 Hphi ltac:(lia)).
  do 4 skip Hrun Hw. injection Hrun as <- _. by split_and!.
Qed.

(** *** The bridge *)

Lemma prepare_bridge_token_run w w' u :
  typed w → prepare_bridge_token w = Finished w' (Ok u) →
  ∃ policy name, stored BRIDGE_TOKEN_POLICY policy w' ∧ stored BRIDGE_TOKEN_ASSET_NAME name w'.
Proof.
  intros Hw Hrun. unfold prepare_bridge_token in Hrun. do 2 skip Hrun Hw.
  apply IO_bind_inv in Hrun as (w1 & b & Hb & Hrun). after Hw Hb. destruct b.
  - apply IO_bind_inv in Hrun as (w2 & r & Hr & Hrun). destruct r as [policy|]; [|done].
    assert (writes [field BRIDGE_TOKEN_POLICY] (prompt_with_default_from_file_parse_and_save BRIDGE_TOKEN_POLICY
      (text_hex (decode_hex_array POLICY_ID_LEN))) (λ _, True)) as Hpart
      by (apply writes_prompt_parse_and_save; [config_field|apply text_hex_array_ok]).
    pose proof (parse_and_save_run BRIDGE_TOKEN_POLICY _ _ _ _ ltac:(config_field) (text_hex_array_ok _) Hw Hr) as Hval.
    after Hw Hr. apply IO_bind_inv in Hrun as (w3 & r & Hr' & Hrun). destruct r as [name|]; [|done].
    assert (writes [field BRIDGE_TOKEN_ASSET_NAME] (prompt_with_default_from_file_parse_and_save BRIDGE_TOKEN_ASSET_NAME
      (text_hex (decode_hex_bounded MAX_ASSET_NAME_LEN))) (λ _, True)) as Hpart'
      by (apply writes_prompt_parse_and_save; [config_field|apply text_asset_name_ok]).
    pose proof (parse_and_save_run BRIDGE_TOKEN_ASSET_NAME _ _ _ _ ltac:(config_field) text_asset_name_ok Hw Hr') as Hval'.
    after Hw Hr'. injection Hrun as <- _. eauto.
  - assert (serde_ok serde_policy_id (replicate POLICY_ID_LEN 0)) as Hzero
      by (apply serde_hex_array_ok; [by apply Forall_replicate|done]).
    assert (serde_ok serde_asset_name []) as Hempty by (apply serde_asset_name_ok; [constructor|simpl; lia]).
    saved Hrun Hw Hzero. saved Hrun Hw Hempty. injection Hrun as <- _. eauto.
Qed.

Lemma configure_bootnode_run peer w w' u :
  from_utf8 peer = Some peer → typed w → configure_bootnode peer w = Finished w' (Ok u) →
  ∃ nodes, stored BOOTNODES nodes w'.
Proof.
  intros Hpeer Hw Hrun. unfold configure_bootnode in Hrun.
  apply IO_bind_inv in Hrun as (w1 & [[default_protocol host] default_port] & Hd & Hrun). after Hw Hd.
  apply IO_bind_inv in Hrun as (w2 & protocol & Hp & Hrun). after Hw Hp.
  apply IO_bind_inv in Hrun as (w3 & answer & Ha & Hrun). after Hw Ha.
  destruct (uint_from_str 16 answer) as [port|] eqn:Hport; [|done].
  apply uint_from_str_in_u in Hport as [Hport _].
  apply ok_inv in Hrun as (w4 & node & Hnode & Hrun).
  assert (typed w4 ∧ from_utf8 node = Some node) as [Hw4 Hutf].
  { destruct protocol; apply IO_bind_inv in Hnode as (w5 & h & Hh & Hnode); after Hw Hh.
    - injection Hnode as <- <-. split; [done|]. by apply bootnode_utf8.
    - destruct (ipv4_from_str h); [|done]. injection Hnode as <- <-. split; [done|]. by apply bootnode_utf8. }
  assert (serde_ok (cf_serde BOOTNODES) [node]) as Hok
    by (apply serde_vec_ok; repeat constructor; by apply serde_string_ok).
  saved Hrun Hw4 Hok. unfold chain_config_file_path in Hrun. do 2 skip Hrun Hw4. injection Hrun as <- _. eauto.
Qed.
Lemma establish_bootnodes_run w w' u :
  typed w → establish_bootnodes w = Finished w' (Ok u) → ∃ nodes, stored BOOTNODES nodes w'.
Proof.
  intros Hw Hrun. unfold establish_bootnodes in Hrun. step Hrun Hw w1 peer Hpeer.
  assert (serde_ok (cf_serde BOOTNODES) []) as Hempty by (apply serde_vec_ok; constructor).
  destruct peer as [peer|].
  - apply IO_bind_inv in Hrun as (w2 & b & Hb & Hrun). after Hw Hb. destruct b.
    + eapply configure_bootnode_run; [|exact Hw|exact Hrun]. by apply Hphi.
    + saved Hrun Hw Hempty. injection Hrun as <- _. eauto.
  - apply IO_bind_inv in Hrun as (w2 & b & Hb & Hrun). after Hw Hb. destruct b; [|done].
    saved Hrun Hw Hempty. injection Hrun as <- _. eauto.
Qed.

(** *** The main chain configuration *)

Definition prepared_fields (id : UtxoId) (params : CardanoParameters) (data : ScriptsData) (policy name : bytes)
    (candidates : list PermissionedCandidateKeys) w : Prop :=
  stored GENESIS_UTXO id w ∧
  (stored CARDANO_SECURITY_PARAMETER (cp_security_parameter params) w ∧
   stored CARDANO_ACTIVE_SLOTS_COEFF (cp_active_slots_coeff params) w ∧
   stored CARDANO_FIRST_EPOCH_NUMBER (cp_first_epoch_number params) w ∧
   stored CARDANO_FIRST_SLOT_NUMBER (cp_first_slot_number params) w ∧
   stored CARDANO_EPOCH_DURATION_MILLIS (cp_epoch_duration_millis params) w ∧
   stored CARDANO_FIRST_EPOCH_TIMESTAMP_MILLIS (cp_first_epoch_timestamp_millis params) w ∧
   stored CARDANO_SLOT_DURATION_MILLIS (cp_slot_duration_millis params) w) ∧
  (stored COMMITTEE_CANDIDATES_ADDRESS (sa_committee_candidate_validator data) w ∧
   stored D_PARAMETER_POLICY_ID (sp_d_parameter data) w ∧
   stored PERMISSIONED_CANDIDATES_POLICY_ID (sp_permissioned_candidates data) w ∧
   stored ILLIQUID_SUPPLY_ADDRESS (sa_illiquid_circulation_supply_validator data) w ∧
   stored GOVERNED_MAP_VALIDATOR_ADDRESS (sa_governed_map_validator data) w ∧
   stored GOVERNED_MAP_POLICY_ID (sp_governed_map data) w) ∧
  (stored BRIDGE_TOKEN_POLICY policy w ∧ stored BRIDGE_TOKEN_ASSET_NAME name w) ∧
  field_value INITIAL_PERMISSIONED_CANDIDATES w = Some candidates.

(** The parameters of the governance are in the configuration. *)
Definition governance_stored (p : MultiSigParameters) w : Prop :=
  stored INITIAL_GOVERNANCE_AUTHORITIES (governance_authorities p) w ∧
  stored INITIAL_GOVERNANCE_THRESHOLD (msp_threshold p) w.

Lemma prepare_main_chain_config_run id config w w' u nodes p :
  typed w → stored GENESIS_UTXO id w → stored BOOTNODES nodes w → governance_stored p w →
  prepare_main_chain_config config id w = Finished w' (Ok u) →
  ledger w' = ledger w ∧ typed w' ∧ stored BOOTNODES nodes w' ∧ governance_stored p w' ∧
  ∃ params network data policy name candidates,
    node_parameters (ledger w) = Ok params ∧ shelley_network (ledger w) = Ok network ∧
    get_scripts_data id network = Ok data ∧ prepared_fields id params data policy name candidates w'.
Proof.
  intros Hw Hid Hnodes [Hauthorities Hthreshold] Hrun. unfold prepare_main_chain_config in Hrun.
  apply ok_inv in Hrun as (w1 & params & Hp & Hrun).
  pose proof (prepare_cardano_params_run _ _ _ _ Hp) as [_ Hparams]. after Hw Hp. simpl in Hphi.
  apply IO_bind_inv in Hrun as (w2 & x & Hs & Hrun).
  pose proof (cardano_parameters_saved _ _ _ _ Hphi Hw Hs) as (? & ? & ? & ? & ? & ? & ?). after Hw Hs.
  apply ok_inv in Hrun as (w3 & y & Ha & Hrun).
  pose proof (set_up_cardano_addresses_run _ _ _ _ _ Hw Ha) as (network & data & Hn & Hd & ? & ? & ? & ? & ? & ?).
  after Hw Ha. apply IO_bind_inv in Hrun as (w4 & o & Ho & Hrun).
  apply load_run in Ho as [-> ->]; [|done].
  assert (serde_ok (cf_serde INITIAL_PERMISSIONED_CANDIDATES) []) as Hempty by (apply serde_vec_ok; constructor).
  assert (∃ w5 candidates, (prepare_bridge_token ;;! eprint OUTRO;; mret (Ok ())) w5 = Finished w' (Ok u) ∧ typed w5 ∧
    field_value INITIAL_PERMISSIONED_CANDIDATES w5 = Some candidates ∧
    same [field INITIAL_PERMISSIONED_CANDIDATES] w3 w5) as (w5 & candidates & Hrest & Hw5 & Hcand & Hsame').
  { destruct (field_value INITIAL_PERMISSIONED_CANDIDATES w3) as [candidates|] eqn:Hc.
    - apply IO_bind_inv in Hrun as (w5 & z & [= <- <-] & Hrun). exists w3, candidates. split_and!; try done. 
    - apply IO_bind_inv in Hrun as (w5 & z & Hz & Hrun).
      pose proof (save_run INITIAL_PERMISSIONED_CANDIDATES [] w3 w5 z ltac:(config_field) Hempty Hw Hz) as Hst.
      after Hw Hz. exists w5, []. split_and!; try done. by apply stored_value. }
  carry Hsame'. pose proof (same_ledger _ _ _ Hsame' eq_refl) as Hledger2.
  apply ok_inv in Hrest as (w6 & z & Hb & Hrest).
  pose proof (prepare_bridge_token_run _ _ _ Hw5 Hb) as (policy & name & ? & ?). after Hw5 Hb. skip Hrest Hw5.
  injection Hrest as <- _.
  split; [congruence|]. split_and!; [done|done|done|]. exists params, network, data, policy, name, candidates.
  rewrite Hledger0, Hledger in Hn. unfold prepared_fields. by split_and!.
Qed.

Lemma prepare_configuration_run_fields w w' u :
  typed w → prepare_configuration_run delay retries w = Finished w' (Ok u) →
  ledger w' = ledger w ∨
  ∃ id key p tx params network data nodes policy name candidates,
    owned (ledger w) key id ∧
    multisig_parameters_new (governance_authorities p) (msp_threshold p) = Ok p ∧
    init_governance delay retries p key id (ledger w) = Ret (ledger w', Ok tx) ∧ governance_stored p w' ∧
    node_parameters (ledger w') = Ok params ∧ shelley_network (ledger w') = Ok network ∧
    get_scripts_data id network = Ok data ∧
    typed w' ∧ stored BOOTNODES nodes w' ∧ prepared_fields id params data policy name candidates w'.
Proof.
  intros Hw Hrun. unfold prepare_configuration_run in Hrun. skip Hrun Hw.
  apply ok_inv in Hrun as (w1 & x & Hb & Hrun). pose proof (establish_bootnodes_run _ _ _ Hw Hb) as [nodes Hnodes].
  after Hw Hb. apply ok_inv in Hrun as (w2 & [[id key] config] & Hs & Hrun).
  pose proof (select_genesis_utxo_run _ _ _ _ _ Hw Hs) as [Hid Howned]. after Hw Hs.
  apply ok_inv in Hrun as (w3 & o & Ho & Hrun). destruct o as [tx|].
  - pose proof (prompt_and_init_governance_run _ _ _ _ _ _ Hw Ho) as (p & Hnew & Hauthorities & Hthreshold & Hinit). after Hw Ho.
    apply ok_inv in Hrun as (w4 & y & Hm & Hrun).
    pose proof (prepare_main_chain_config_run _ _ _ _ _ _ p Hw Hid Hnodes (conj Hauthorities Hthreshold) Hm)
      as (Hl & Hw4 & Hnodes4 & Hstored & params & network & data & policy & name & candidates & Hp & Hn & Hd & Hf).
    clear Hm. apply IO_bind_inv in Hrun as (w5 & z & Hz & Hrun). injection Hz as <- <-. injection Hrun as <- _.
    right. exists id, key, p, tx, params, network, data, nodes, policy, name, candidates. simpl.
    assert (ledger w2 = ledger w) as Hstart by congruence. rewrite Hstart in Hinit.
    assert (ledger w1 = ledger w) as Hstart' by congruence. rewrite Hstart' in Howned. rewrite Hl.
    split_and!; [done|done|done|done|done|done|done|exact Hw4|exact Hnodes4|exact Hf].
  - left. apply prompt_and_init_governance_none in Ho; [|done].
    apply IO_bind_inv in Hrun as (w4 & z & [= <- <-] & [= <- _]). simpl. congruence.
Qed.
End Parts.

(** ** Reading the configuration *)

Section Reading.
Context {L : Type} `{!Machine L, !MachineLaws L, !Hex, !HexLaws, !SerdeJson, !SerdeJsonLaws}.
Context {A K : Type} `{!CandidateVerifier A K}.
Implicit Types (w : World L).

Lemma chain_file w v :
  config_value w Chain = Some (Some v) →
  ∃ content, read_file (config_path (environ w) Chain) w = Finished w (Some content) ∧ json_from_str content = Some v.
Proof.
  unfold config_value, disk_value. destruct (path_exists _ _); [|done].
  unfold read_file, mbind at 2, IO_bind, get_world. destruct (files (disk w) !! _) as [content|]; [|done].
  destruct (readable _ _); [|done]. destruct (from_utf8 content) as [text|] eqn:Hu; [|done]. simpl.
  destruct (json_from_str text) as [v'|] eqn:Hv; [|done]. intros [= <-]. exists text. split; [|done]. done.
Qed.
Lemma load_chain_config_eq w v c :
  config_value w Chain = Some (Some v) → chain_config_from_value v = Some c → load_chain_config w = Finished w (Ok c).
Proof.
  intros (content & Hread & Hjson)%chain_file Hc. unfold load_chain_config.
  rewrite (IO_bind_Finished _ _ w w (config_path (environ w) Chain)) by done.
  rewrite (IO_bind_Finished _ _ _ _ _ Hread). unfold mret, IO_ret. by rewrite Hjson; simpl; rewrite Hc.
Qed.
Lemma load_start_node_eq w v c :
  config_value w Chain = Some (Some v) → start_node_config_from_value v = Some c →
  load_start_node_chain_config w = Finished w (Ok (Some c)).
Proof.
  intros (content & Hread & Hjson)%chain_file Hc. unfold load_start_node_chain_config.
  rewrite (IO_bind_Finished _ _ w w (config_path (environ w) Chain)) by done.
  rewrite (IO_bind_Finished _ _ _ _ _ Hread). by rewrite Hjson; simpl; rewrite Hc.
Qed.
Lemma load_config_field_eq {T} (f : ConfigFieldDefinition T) w v :
  typed w → field_value f w = Some v → load_config_field f w = Finished w (Ok v).
Proof.
  intros Hw Hv. unfold load_config_field.
  rewrite (IO_bind_Finished _ _ w w (Some v)); [done|]. by rewrite load_from_file_eq, Hv by apply Hw.
Qed.

(** A stored field of the chain configuration in its JSON value *)
Lemma stored_path {T} (f : ConfigFieldDefinition T) v w root :
  stored f v w → cf_file f = Chain → config_value w Chain = Some (Some root) →
  ∃ j, get_path (cf_path f) root = Some j ∧ to_value (cf_serde f) v = Ret j ∧ from_value (cf_serde f) j = Some v.
Proof.
  intros (j & Hto & Hraw & Hfrom) Hfile Hroot. exists j. split_and!; [|done..].
  unfold raw_value in Hraw. simpl in Hraw. rewrite Hfile, Hroot in Hraw. done.
Qed.
Lemma stored_root {T} (f : ConfigFieldDefinition T) v w :
  stored f v w → cf_file f = Chain → ∃ root, config_value w Chain = Some (Some root).
Proof.
  intros (j & _ & Hraw & _) Hfile. unfold raw_value in Hraw. simpl in Hraw. rewrite Hfile in Hraw.
  destruct (config_value w Chain) as [[root|]|]; [by exists root|done..].
Qed.

Lemma get_object k v j : get k v = Some j → ∃ m, v = JObject m.
Proof. destruct v; simpl; try done. by eexists. Qed.

Lemma cardano_value c p :
  (∃ j, get (str "security_parameter") c = Some j ∧ from_value (serde_uint 64) j = Some (cp_security_parameter p)) →
  (∃ j, get (str "active_slots_coeff") c = Some j ∧ from_value serde_f64 j = Some (cp_active_slots_coeff p)) →
  (∃ j, get (str "first_epoch_number") c = Some j ∧ from_value (serde_uint 32) j = Some (cp_first_epoch_number p)) →
  (∃ j, get (str "first_slot_number") c = Some j ∧ from_value (serde_uint 64) j = Some (cp_first_slot_number p)) →
  (∃ j, get (str "epoch_duration_millis") c = Some j ∧ from_value (serde_uint 64) j = Some (cp_epoch_duration_millis p)) →
  (∃ j, get (str "first_epoch_timestamp_millis") c = Some j ∧
        from_value (serde_uint 64) j = Some (cp_first_epoch_timestamp_millis p)) →
  (∃ j, get (str "slot_duration_millis") c = Some j ∧ from_value (serde_uint 64) j = Some (cp_slot_duration_millis p)) →
  cardano_parameters_from_value c = Some p.
Proof.
  intros (j1 & Hg1 & Hj1) (j2 & Hg2 & Hj2) (j3 & Hg3 & Hj3) (j4 & Hg4 & Hj4) (j5 & Hg5 & Hj5) (j6 & Hg6 & Hj6)
    (j7 & Hg7 & Hj7).
  destruct (get_object _ _ _ Hg1) as [m ->]. unfold cardano_parameters_from_value, struct_fields. simpl in *.
  rewrite Hg1, Hg2, Hg3, Hg4, Hg5, Hg6, Hg7. simpl.
  rewrite Hj1; simpl. rewrite Hj2; simpl. rewrite Hj3; simpl. rewrite Hj4; simpl. rewrite Hj5; simpl.
  rewrite Hj6; simpl. rewrite Hj7; simpl. by destruct p.
Qed.

Lemma option_bind_id {X} (o : option X) : (o ≫= λ x, Some x) = o.
Proof. by destruct o. Qed.

(** Text of addresses and of hexadecimal values *)
Lemma address_text_of a j : to_value serde_address a = Ret j → j = JString a.
Proof.
  simpl. unfold address_to_str. destruct (from_utf8 a) as [b|] eqn:Hb; [|done].
  apply from_utf8_Some in Hb as [_ ->]. by intros [= <-].
Qed.

Definition prepared_chain_config (id : UtxoId) (params : CardanoParameters) (data : ScriptsData) (policy name : bytes) :
    ChainConfig :=
  mkChainConfig params (mkSidechainParams id)
    (mkMainChainAddresses (sa_committee_candidate_validator data) (to_hex (sp_d_parameter data))
       (to_hex (sp_permissioned_candidates data))
       (mkNativeTokenConfig (mkAssetConfig (to_hex policy) (to_hex name)) (sa_illiquid_circulation_supply_validator data))).
Definition prepared_chain_spec_config (id : UtxoId) (data : ScriptsData) (policy name : bytes) (nodes : list bytes)
    (candidates : list PermissionedCandidateKeys) (parsed : list (ParsedPermissionedCandidatesKeys K)) :
    CreateChainSpecConfig K :=
  mkChainSpecConfig nodes id candidates parsed (sa_committee_candidate_validator data) (sp_d_parameter data)
    (sp_permissioned_candidates data) policy name (sa_illiquid_circulation_supply_validator data)
    (Some (sa_governed_map_validator data)) (Some (sp_governed_map data)).

Lemma prepared_value w id params data policy name candidates nodes :
  stored BOOTNODES nodes w → prepared_fields id params data policy name candidates w →
  ∃ root, config_value w Chain = Some (Some root) ∧
    chain_config_from_value root = Some (prepared_chain_config id params data policy name) ∧
    start_node_config_from_value root = Some (mkStartNodeChainConfig params nodes).
Proof.
  intros Hn (Hid & (Hc1 & Hc2 & Hc3 & Hc4 & Hc5 & Hc6 & Hc7) & (Ha1 & Ha2 & Ha3 & Ha4 & _ & _) & (Hb1 & Hb2) & _).
  destruct (stored_root _ _ _ Hn eq_refl) as [root Hroot]. exists root. split; [done|].
  destruct (stored_path _ _ _ _ Hn eq_refl Hroot) as (jn & Hn1 & _ & Hn2).
  destruct (stored_path _ _ _ _ Hid eq_refl Hroot) as (ji & Hi1 & _ & Hi2).
  destruct (stored_path _ _ _ _ Hc1 eq_refl Hroot) as (j1 & Hg1 & _ & Hj1).
  destruct (stored_path _ _ _ _ Hc2 eq_refl Hroot) as (j2 & Hg2 & _ & Hj2).
  destruct (stored_path _ _ _ _ Hc3 eq_refl Hroot) as (j3 & Hg3 & _ & Hj3).
  destruct (stored_path _ _ _ _ Hc4 eq_refl Hroot) as (j4 & Hg4 & _ & Hj4).
  destruct (stored_path _ _ _ _ Hc5 eq_refl Hroot) as (j5 & Hg5 & _ & Hj5).
  destruct (stored_path _ _ _ _ Hc6 eq_refl Hroot) as (j6 & Hg6 & _ & Hj6).
  destruct (stored_path _ _ _ _ Hc7 eq_refl Hroot) as (j7 & Hg7 & _ & Hj7).
  destruct (stored_path _ _ _ _ Ha1 eq_refl Hroot) as (a1 & Hga1 & ->%address_text_of & _).
  destruct (stored_path _ _ _ _ Ha2 eq_refl Hroot) as (a2 & Hga2 & [= <-] & _).
  destruct (stored_path _ _ _ _ Ha3 eq_refl Hroot) as (a3 & Hga3 & [= <-] & _).
  destruct (stored_path _ _ _ _ Ha4 eq_refl Hroot) as (a4 & Hga4 & ->%address_text_of & _).
  destruct (stored_path _ _ _ _ Hb1 eq_refl Hroot) as (b1 & Hgb1 & [= <-] & _).
  destruct (stored_path _ _ _ _ Hb2 eq_refl Hroot) as (b2 & Hgb2 & [= <-] & _).
  assert (∃ m, root = JObject m) as [m ->] by (by destruct root; try done; eexists).
  clear Hn Hid Hc1 Hc2 Hc3 Hc4 Hc5 Hc6 Hc7 Ha1 Ha2 Ha3 Ha4 Hb1 Hb2 Hroot.
  unfold chain_config_from_value, start_node_config_from_value, struct_fields.
  cbn [cf_path GENESIS_UTXO BOOTNODES] in *. simpl get_path in *. simpl fmap.
  destruct (m !! str "cardano") as [c|]; [|done]. destruct (m !! str "chain_parameters") as [cp|]; [|done].
  destruct (m !! str "cardano_addresses") as [ca|]; [|done]. destruct (m !! str "bootnodes") as [bn|]; [|done].
  cbn [mbind option_bind] in *. injection Hn1 as ->.
  rewrite option_bind_id in Hg1, Hg2, Hg3, Hg4, Hg5, Hg6, Hg7, Hi1, Hga1, Hga2, Hga3.
  rewrite (cardano_value c params) by eauto.
  destruct (get_object _ _ _ Hi1) as [mi ->]. unfold sidechain_params_from_value at 1. simpl struct_fields.
  cbn [mbind option_bind]. simpl in Hi1. rewrite Hi1. cbn [mbind option_bind].
  change (from_value serde_utxo_id ji) with (from_value (cf_serde GENESIS_UTXO) ji). rewrite Hi2. cbn [mbind option_bind].
  destruct (get_object _ _ _ Hga1) as [ma ->]. simpl in Hga1, Hga2, Hga3, Hga4, Hgb1, Hgb2.
  unfold main_chain_addresses_from_value. simpl struct_fields. cbn [mbind option_bind].
  rewrite Hga1, Hga2, Hga3. cbn [mbind option_bind serde_string from_value].
  destruct (ma !! str "bridge") as [br|]; [|done]. simpl in Hga4, Hgb1, Hgb2. rewrite option_bind_id in Hga4.
  destruct (get_object _ _ _ Hga4) as [mb ->]. simpl in Hga4, Hgb1, Hgb2.
  cbn [mbind option_bind]. unfold native_token_config_from_value. simpl struct_fields. cbn [mbind option_bind].
  destruct (mb !! str "asset") as [ba|]; [|done]. simpl in Hgb1, Hgb2. rewrite option_bind_id in Hgb1, Hgb2.
  destruct (get_object _ _ _ Hgb1) as [mas ->]. simpl in Hgb1, Hgb2. rewrite Hga4.
  unfold asset_config_from_value. simpl. rewrite Hgb1, Hgb2. simpl. split; [done|].
  simpl in Hn2. by rewrite Hn2.
Qed.

Lemma prepared_spec w id params data policy name candidates nodes parsed :
  typed w → stored BOOTNODES nodes w → prepared_fields id params data policy name candidates w →
  mapM parsed_keys_try_from candidates = Ok parsed →
  chain_spec_config_load w = Finished w (Ok (prepared_chain_spec_config id data policy name nodes candidates parsed)).
Proof.
  intros Hw Hn (Hid & _ & (Ha1 & Ha2 & Ha3 & Ha4 & Ha5 & Ha6) & (Hb1 & Hb2) & Hcand) Hparsed.
  apply stored_value in Hn, Hid, Ha1, Ha2, Ha3, Ha4, Ha5, Ha6, Hb1, Hb2. unfold chain_spec_config_load.
  rewrite (IO_bind_Finished _ _ _ _ _ (load_config_field_eq _ _ _ Hw Hcand)).
  rewrite Hparsed, (IO_bind_Finished _ _ w w (Ok parsed)) by done.
  rewrite (IO_bind_Finished _ _ _ _ _ (load_config_field_eq _ _ _ Hw Hn)).
  rewrite (IO_bind_Finished _ _ _ _ _ (load_config_field_eq _ _ _ Hw Hid)).
  rewrite (IO_bind_Finished _ _ _ _ _ (load_config_field_eq _ _ _ Hw Ha1)).
  rewrite (IO_bind_Finished _ _ _ _ _ (load_config_field_eq _ _ _ Hw Ha2)).
  rewrite (IO_bind_Finished _ _ _ _ _ (load_config_field_eq _ _ _ Hw Ha3)).
  rewrite (IO_bind_Finished _ _ _ _ _ (load_config_field_eq _ _ _ Hw Hb1)).
  rewrite (IO_bind_Finished _ _ _ _ _ (load_config_field_eq _ _ _ Hw Hb2)).
  rewrite (IO_bind_Finished _ _ _ _ _ (load_config_field_eq _ _ _ Hw Ha4)).
  rewrite (IO_bind_Finished _ _ _ _ _ (load_from_file_eq _ _ (proj1 Hw))), Ha5.
  rewrite (IO_bind_Finished _ _ _ _ _ (load_from_file_eq _ _ (proj1 Hw))), Ha6. done.
Qed.
End Reading.

(** C35. A run of [prepare-configuration] that succeeds either submits nothing, or has
    initialised the governance of the chain of an output at the address of the
    payment key, with valid parameters: the authorities and the threshold that are
    in the configuration when it ends.  Then [deregister] and
    [setup-main-chain-state] read a chain configuration, [start-node] the
    parameters of Cardano and the bootnodes, and [create-chain-spec] its
    configuration (if the keys of the candidates can be parsed): with that genesis
    UTxO, the parameters that follow from the eras and the genesis of the node, and
    the addresses and policies of the scripts that are parametrised with the
    genesis UTxO. *)
Theorem prepared_configuration {L : Type} `{!Machine L, !MachineLaws L, !QuietPrograms L, !Hex, !HexLaws, !HexBytes,
    !SerdeJson, !SerdeJsonLaws, !Csl, !CslText, !AddressNotHex, !CslKeys, !Scripts, !Ogmios L, !OgmiosGenesis L,
    !NodeTyped L, !PeerIds, !PeerIdText} {A K : Type} `{!CandidateVerifier A K} delay retries (w w' : World L) u :
  typed w → prepare_configuration_run delay retries w = Finished w' (Ok u) →
  ledger w' = ledger w ∨
  ∃ id key p tx params network data nodes policy name candidates,
    (owned (ledger w) key id ∧
     multisig_parameters_new (governance_authorities p) (msp_threshold p) = Ok p ∧
     init_governance delay retries p key id (ledger w) = Ret (ledger w', Ok tx) ∧
     field_value INITIAL_GOVERNANCE_AUTHORITIES w' = Some (governance_authorities p) ∧
     field_value INITIAL_GOVERNANCE_THRESHOLD w' = Some (msp_threshold p)) ∧
    (node_parameters (ledger w') = Ok params ∧ shelley_network (ledger w') = Ok network ∧
     get_scripts_data id network = Ok data) ∧
    load_chain_config w' = Finished w' (Ok (prepared_chain_config id params data policy name)) ∧
    load_start_node_chain_config w' = Finished w' (Ok (Some (mkStartNodeChainConfig params nodes))) ∧
    ∀ parsed, mapM parsed_keys_try_from candidates = Ok parsed →
      chain_spec_config_load w' =
        Finished w' (Ok (prepared_chain_spec_config (K:=K) id data policy name nodes candidates parsed)).
Proof.
  intros Hw Hrun. destruct (prepare_configuration_run_fields delay retries w w' u Hw Hrun) as [Hl|Hrest]; [by left|right].
  destruct Hrest as (id & key & p & tx & params & network & data & nodes & policy & name & candidates &
    Howned & Hp & Hinit & [Hauthorities Hthreshold] & Hparams & Hn & Hd & Hw' & Hnodes & Hf).
  destruct (prepared_value w' id params data policy name candidates nodes Hnodes Hf) as (root & Hroot & Hc & Hs).
  exists id, key, p, tx, params, network, data, nodes, policy, name, candidates. split_and!; try done.
  - by apply stored_value.
  - by apply stored_value.
  - by eapply load_chain_config_eq.
  - by eapply load_start_node_eq.
  - intros parsed Hparsed. by eapply prepared_spec.
Qed.

(** ** Witness *)

Definition returned {L X} (e : ending L X) : option X := match e with Finished _ a => Some a | _ => None end.
Lemma returned_Finished {L X} (e : ending L X) a : returned e = Some a → e = Finished (left_by e) a.
Proof. destruct e; simpl; try done. by intros [= ->]. Qed.

Section Witness.
Import CliInstances.
Lemma prepared_configuration_witness :
  let w' := left_by (prepare_configuration_run 5 1 cli_world) in
  ∃ id p params data policy name, field_value INITIAL_GOVERNANCE_AUTHORITIES w' = Some (governance_authorities p) ∧
    load_chain_config w' = Finished w' (Ok (prepared_chain_config id params data policy name)).
Proof.
  destruct (prepared_configuration (A:=bytes) 5 1 cli_world (left_by (prepare_configuration_run 5 1 cli_world)) tt cli_typed)
    as [Hledger|(id & key & p & tx & params & network & data & nodes & policy & name & candidates & (_ & _ & _ & Hauthorities & _) & _ & Hload & _)].
  - apply returned_Finished. vm_compute. reflexivity.
  - apply (f_equal (length ∘ cli_utxos)) in Hledger. vm_compute in Hledger. discriminate Hledger.
  - exists id, p, params, data, policy, name. exact (conj Hauthorities Hload).
Defined.
End Witness.
