(* ===== verification/CliRegistration.v ===== *)
(** * Registration from the wizards to the committee

    The three steps of registration of [CliRegister]: the command line that a step
    prints is the command of the next one, and the registration that the last step
    submits is one that a node which observes it accepts ([CandidateSource] reads
    it, [AuthoritySelection] validates it). *)

From S2P Require Import Prelude Domain PlutusData AuthoritySelection ContractDatums CandidateKeys TextFormats MainchainEpoch McHash BlockSource CandidateSource OffchainTx OffchainGovernance OffchainCandidates OffchainVersions CliIO CliJson CliConfig CliStore CliFrame CliKeys CliPrepare CliChain CliRegister CliCommand CliExample CliTyped CliPrepared.

#[local] Arguments config_path : simpl never.

(** ** Command lines *)

Lemma plain_app a b : plain a → plain b → plain (a ++ b).
Proof. intros. by apply Forall_app. Qed.
Lemma value_app a b : value_word a → plain b → value_word (a ++ b).
Proof. intros [(Hne & Ha & Hh) Hv] Hb. destruct a as [|x a]; [done|]. split; [|done]. split_and!; [done|by apply plain_app|done]. Qed.
Ltac decide_word := apply (bool_decide_unpack _); vm_compute; exact I.
#[local] Instance word_dec s : Decision (word s).
Proof. apply _. Defined.
#[local] Instance value_word_dec s : Decision (value_word s).
Proof. apply _. Defined.

Definition plain_args (args : list (bytes * bytes)) : Prop := Forall (λ arg, value_word arg.1 ∧ value_word arg.2) args.

(** The words of a command line that is printed, with what separates them *)
Definition print_words (args : list (bytes * bytes)) : list (bytes * bytes) :=
  concat ((λ arg, [(line_break, str "--" ++ arg.1); (str " ", arg.2)]) <$> args).
Lemma print_words_arg_words args : (print_words args).*2 = arg_words args.
Proof.
  unfold print_words, arg_words. induction args as [|arg args IH]; [done|]. rewrite !fmap_cons. cbn [concat].
  by rewrite fmap_app, IH.
Qed.
Lemma print_words_concat args : concat ((λ p, p.1 ++ p.2) <$> print_words args) = concat (print_arg <$> args).
Proof.
  unfold print_words. induction args as [|arg args IH]; [done|]. rewrite !fmap_cons. cbn [concat]. rewrite fmap_app, concat_app, IH.
  f_equal. unfold print_arg. simpl. by rewrite app_nil_r.
Qed.

(** The command line that is printed is the command line that is read. *)
Lemma printed_words `{!CommandLine, !CommandLineLaws} executable subcommand args :
  word executable → 47 ∈ executable → word subcommand → plain_args args →
  shell_words (print_command executable subcommand args) = Some (executable :: [str "wizards"; subcommand] ++ arg_words args).
Proof.
  intros He Hslash Hs Hargs.
  assert (print_command executable subcommand args = executable ++
    concat ((λ p, p.1 ++ p.2) <$> ((str " ", str "wizards") :: (str " ", subcommand) :: print_words args))) as ->.
  { rewrite !fmap_cons. cbn [concat]. by rewrite print_words_concat. }
  rewrite shell_words_plain; [by rewrite !fmap_cons, print_words_arg_words|done..|].
  constructor; [split; [by left|decide_word]|]. constructor; [split; [by left|done]|].
  clear -Hargs. induction Hargs as [|[name value] args [[(Hn1 & Hn2 & Hn3) Hn4] [Hv _]] Hargs IH]; [constructor|].
  unfold print_words. rewrite fmap_cons. cbn [concat]. simpl in *.
  constructor; [split; [by right|]|by constructor; [split; [by left|]|]].
  split_and!; [done| |done]. apply (plain_app (str "--")); [decide_word|done].
Qed.

Lemma arg_value_here name value args : arg_value name ((name, value) :: args) = Some value.
Proof. unfold arg_value. by rewrite filter_cons_True. Qed.
Lemma arg_value_next name name' value args : name' ≠ name → arg_value name ((name', value) :: args) = arg_value name args.
Proof. intros Hne. unfold arg_value. by rewrite filter_cons_False. Qed.
Lemma arg_values_next name name' value args : name' ≠ name → arg_values name ((name', value) :: args) = arg_values name args.
Proof. intros Hne. unfold arg_values. by rewrite filter_cons_False. Qed.
Lemma arg_values_all {X} name (f : X → bytes) l : arg_values name ((λ x, (name, f x)) <$> l) = f <$> l.
Proof.
  unfold arg_values. induction l as [|x l IH]; [done|]. rewrite !fmap_cons, filter_cons_True by done. by rewrite fmap_cons, IH.
Qed.
Lemma arg_values_here name value args : arg_values name ((name, value) :: args) = value :: arg_values name args.
Proof. unfold arg_values. by rewrite filter_cons_True. Qed.
Lemma arg_values_other {X} name name' (f : X → bytes) l : name' ≠ name → arg_values name ((λ x, (name', f x)) <$> l) = [].
Proof. intros Hne. unfold arg_values. induction l as [|x l IH]; [done|]. by rewrite fmap_cons, filter_cons_False. Qed.
Ltac find_args :=
  cbn [app];
  repeat first [rewrite arg_value_here
               |rewrite arg_value_next by (apply (bool_decide_unpack _); vm_compute; exact I)
               |rewrite arg_values_next by (apply (bool_decide_unpack _); vm_compute; exact I)
               |rewrite arg_values_here
               |rewrite arg_values_other by (apply (bool_decide_unpack _); vm_compute; exact I)
               |rewrite arg_values_all].

(** ** Arguments *)

Section Arguments.
Context `{!Hex, !HexLaws, !HexBytes, !SigningKeys}.

Lemma hex_digit_char x : hex_digit x → word_char x.
Proof. unfold hex_digit, word_char. lia. Qed.
Lemma plain_hex_encode b : Forall is_byte b → plain (hex_encode b).
Proof. intros Hb. eapply Forall_impl; [by apply hex_encode_digits|]. intros x Hx. left. by apply hex_digit_char. Qed.
Lemma word_hex_encode b : Forall is_byte b → b ≠ [] → value_word (hex_encode b).
Proof.
  intros Hb Hne. pose proof (hex_encode_length b) as Hl. pose proof (hex_encode_digits b Hb) as Hd.
  pose proof (plain_hex_encode b Hb) as Hp. destruct (hex_encode b) as [|x l]; [destruct b; [done|simpl in Hl; lia]|].
  apply Forall_cons in Hd as [Hx _]. split; [split_and!; [done|done|]|]; simpl; intros [= ->]; unfold hex_digit in Hx; lia.
Qed.
Lemma plain_to_hex b : Forall is_byte b → value_word (to_hex b).
Proof.
  intros Hb. rewrite to_hex_eq by done. change (48 :: 120 :: hex_encode b) with (str "0x" ++ hex_encode b).
  apply value_app; [decide_word|by apply plain_hex_encode].
Qed.
Lemma plain_utxo_id u : utxo_id_wf u → value_word (utxo_id_display u).
Proof.
  intros (Hh & Hl & Hi). unfold utxo_id_display. rewrite hex_display_eq by done.
  apply value_app; [apply word_hex_encode; [done|]; by destruct (tx_hash u)|].
  constructor; [by right|]. eapply Forall_impl; [apply digits_chars; [apply Hi|constructor]|].
  intros x Hx. simpl in Hx. left. unfold word_char. lia.
Qed.

(** Keys that can be arguments: the identifier is a plain word. *)
Definition key_plain (k : CandidateKey) : Prop := key_wf k ∧ value_word (key_id k).
Lemma plain_key k : key_plain k → value_word (candidate_key_to_string k).
Proof.
  intros [(Hl & _ & _ & Hb) Hp]. apply value_app; [done|]. constructor; [left; decide_word|by apply plain_hex_encode].
Qed.
Lemma keys_from_strings keys :
  Forall key_plain keys → mapM (λ s, ok (candidate_key_from_str s)) (candidate_key_to_string <$> keys) = Some keys.
Proof.
  intros Hk. apply mapM_Some. induction Hk as [|k keys [Hk _] Hkeys IH]; [constructor|].
  rewrite fmap_cons. constructor; [|done]. change (candidate_key_to_string k) with (key_text false k).
  by rewrite candidate_key_from_str_text.
Qed.
Lemma utxo_id_back u : utxo_id_wf u → utxo_index u < 2 ^ 15 → ok (utxo_id_from_str (utxo_id_display u)) = Some u.
Proof. intros Hu Hi. rewrite utxo_id_from_str_display by done. by rewrite (proj2 (Z.ltb_lt _ _) Hi). Qed.

(** What [utxo_id_from_str] accepts can be shown and read again. *)
Lemma uint_int_from_str s n m : uint_from_str 16 s = Some n → int_from_str 16 s = Some m → n < 2 ^ 15.
Proof.
  destruct s as [|x s]; [done|]. unfold uint_from_str, int_from_str.
  destruct (decide (x = 45)) as [->|Hne]; [done|].
  replace (match x with 43 => parse_nonempty s | 45 => _ | _ => _ end)
    with (parse_nonempty match x with 43 => s | _ => x :: s end) by (repeat case_match; simplify_eq; done).
  replace (match x :: s with 43 :: s => s | _ => x :: s end) with (match x with 43 => s | _ => x :: s end)
    by (repeat case_match; simplify_eq; done).
  destruct (parse_nonempty _) as [k|]; simpl; [|done]. destruct (_ <? _); [|done]. intros [= ->].
  change (u_bound (16 - 1)) with (2 ^ 15). destruct (_ <=? _); [|done]. destruct (Z.ltb_spec n (2 ^ 15)); [done|intros [=]].
Qed.
Definition short_utxo_id (u : UtxoId) : Prop := utxo_id_wf u ∧ utxo_index u < 2 ^ 15.
Lemma utxo_id_from_str_short s u : utxo_id_from_str s = Ok u → short_utxo_id u.
Proof.
  unfold utxo_id_from_str. destruct (split 35 s) as [|h [|i [|]]]; try done.
  unfold decode_hex_array. destruct (from_hex h) as [b|] eqn:Hb; simpl; [|done].
  destruct (decide (length b = 32%nat)) as [Hl|]; simpl; [|done]. unfold utxo_index_from_str.
  destruct (uint_from_str 16 i) as [n|] eqn:Hn; simpl; [|done].
  destruct (int_from_str 16 i) as [m|] eqn:Hm; simpl; [|done]. intros [= <-].
  split; [|by eapply uint_int_from_str]. split_and!; [by eapply from_hex_bytes|done|by apply uint_from_str_in_u in Hn..].
Qed.
Lemma short_utxo_id_back u : short_utxo_id u → ok (utxo_id_from_str (utxo_id_display u)) = Some u.
Proof. intros []. by apply utxo_id_back. Qed.

Lemma decode_to_hex b : Forall is_byte b → from_hex (to_hex_string b) = Some b.
Proof. apply from_hex_to_hex. Qed.
Lemma public_key_from_str prefix b :
  Forall is_byte b → partner_chain_public_key_from_str (hex_text prefix b) = secp_public_from_slice b.
Proof. intros Hb. unfold partner_chain_public_key_from_str. by rewrite trim_hex_text, hex_decode_encode. Qed.

(** The arguments of the second and the third step *)
Lemma register2_args_back genesis reg pk sig keys :
  short_utxo_id genesis → short_utxo_id reg → Forall is_byte pk → secp_public_from_slice pk = Some pk → Forall key_plain keys →
  register2_from_args (register2_args genesis reg (to_hex_string pk) sig keys) = Some (mkRegister2 genesis reg pk keys sig).
Proof.
  intros Hg Hr Hb Hpk Hk. unfold register2_from_args, register2_args. find_args. simpl.
  rewrite !short_utxo_id_back, keys_from_strings by done. simpl. unfold to_hex_string. rewrite to_hex_eq by done.
  change (48 :: 120 :: hex_encode pk) with (hex_text true pk). by rewrite public_key_from_str, Hpk.
Qed.
Lemma register3_args_back self sig pool pool_sig :
  short_utxo_id (r2_genesis_utxo self) → short_utxo_id (r2_registration_utxo self) →
  Forall is_byte (r2_partner_chain_pub_key self) → Forall key_plain (r2_keys self) →
  r2_partner_chain_signature self = hex_encode sig → Forall is_byte sig →
  Forall is_byte pool → length pool = 32%nat → Forall is_byte pool_sig → length pool_sig = 64%nat →
  register3_from_args (register3_args self (to_hex_string pool) (to_hex_string pool_sig)) =
  Some (mkRegister3 (r2_genesis_utxo self) (r2_registration_utxo self) (r2_partner_chain_pub_key self) (r2_keys self)
          sig pool pool_sig).
Proof.
  intros Hg Hr Hb Hk Hs Hsb Hp Hpl Hps Hpsl. unfold register3_from_args, register3_args. find_args. simpl.
  rewrite !short_utxo_id_back, keys_from_strings, Hs by done. simpl.
  unfold decode_hex_vec, decode_hex_array, partner_chain_public_key_display. rewrite !decode_to_hex, from_hex_plain by done.
  change (str "0x" ++ hex_encode (r2_partner_chain_pub_key self)) with (48 :: 120 :: hex_encode (r2_partner_chain_pub_key self)).
  rewrite from_hex_prefixed by done. simpl. by rewrite !decide_True.
Qed.

Lemma plain_keys keys :
  Forall key_plain keys → plain_args ((λ key, (str "keys", candidate_key_to_string key)) <$> keys).
Proof.
  intros Hk. apply Forall_fmap. eapply Forall_impl; [exact Hk|]. intros k Hp. split; [decide_word|by apply plain_key].
Qed.
Lemma plain_register2_args genesis reg pk sig keys :
  short_utxo_id genesis → short_utxo_id reg → Forall is_byte pk → value_word sig → Forall key_plain keys →
  plain_args (register2_args genesis reg (to_hex_string pk) sig keys).
Proof.
  intros [Hg _] [Hr _] Hb Hs Hk. apply Forall_app. split; [|by apply plain_keys].
  repeat (apply Forall_cons; split; [split; [decide_word|]|]); [by apply plain_utxo_id..|by apply plain_to_hex|done|done].
Qed.
Lemma plain_register3_args self pool pool_sig :
  short_utxo_id (r2_genesis_utxo self) → short_utxo_id (r2_registration_utxo self) →
  Forall is_byte (r2_partner_chain_pub_key self) → Forall key_plain (r2_keys self) → value_word (r2_partner_chain_signature self) →
  Forall is_byte pool → Forall is_byte pool_sig →
  plain_args (register3_args self (to_hex_string pool) (to_hex_string pool_sig)).
Proof.
  intros [Hg _] [Hr _] Hb Hk Hs Hp Hps. apply Forall_app. split; [|by apply plain_keys].
  repeat (apply Forall_cons; split; [split; [decide_word|]|]);
    [by apply plain_utxo_id|by apply plain_utxo_id| |done|by apply plain_to_hex|by apply plain_to_hex|done].
  apply value_app; [decide_word|by apply plain_hex_encode].
Qed.

(** The steps are called with the options that they declare. *)
Lemma accepted_plain options args :
  plain_args args → Forall (λ arg, arg.1 ∈ options.*1) args →
  Forall (λ option, match option.2 with
    | Required => length (arg_values option.1 args) = 1%nat
    | Defaulted => (length (arg_values option.1 args) ≤ 1)%nat
    | Repeated => True
    end) options →
  accepted_args options args.
Proof.
  intros Hp Hd Hn. split; [|done]. unfold plain_args in Hp. rewrite Forall_forall in Hp, Hd |- *. intros arg Hin. destruct (Hp arg Hin). by split; [apply Hd|].
Qed.
Lemma accepted_register2_args genesis reg pk sig keys :
  plain_args (register2_args genesis reg pk sig keys) → accepted_args register2_options (register2_args genesis reg pk sig keys).
Proof.
  intros Hp. apply accepted_plain; [done|..]; unfold register2_args.
  - apply Forall_app. split; [|apply Forall_fmap, Forall_true; intros k]; repeat constructor; apply (bool_decide_unpack _); vm_compute; exact I.
  - repeat (apply Forall_cons; split); cbn [fst snd]; find_args; try done; lia.
Qed.
Lemma accepted_register3_args self pool pool_sig :
  plain_args (register3_args self pool pool_sig) → accepted_args register3_options (register3_args self pool pool_sig).
Proof.
  intros Hp. apply accepted_plain; [done|..]; unfold register3_args.
  - apply Forall_app. split; [|apply Forall_fmap, Forall_true; intros k]; repeat constructor; apply (bool_decide_unpack _); vm_compute; exact I.
  - repeat (apply Forall_cons; split); cbn [fst snd]; find_args; try done; simpl; lia.
Qed.
End Arguments.

(** ** The steps *)

(** [secp256k1] and [ed25519_zebra] sign what [sp_core] and [sp_io] verify. *)
Class SignatureLaws {A K : Type} `{!CandidateVerifier A K, !Csl, !SigningKeys} : Prop := {
  ed_sign_verify key msg : ed25519_verify (ed_sign key msg) msg (ed_public key) = true;
  ed_public_length key : Forall is_byte (ed_public key) ∧ length (ed_public key) = 32%nat;
  ed_sign_length key msg : Forall is_byte (ed_sign key msg) ∧ length (ed_sign key msg) = 64%nat;
  secp_sign_verify key msg :
    ∃ v, v ∈ [27; 28] ∧ ecdsa_verify (secp_sign key (blake2b_256 msg) ++ [v]) msg (secp_public key) = true;
  secp_public_length key : Forall is_byte (secp_public key) ∧ length (secp_public key) = 33%nat;
  secp_sign_length key hashed : Forall is_byte (secp_sign key hashed) ∧ length (secp_sign key hashed) = 64%nat;
  secp_public_read key : secp_public_from_slice (secp_public key) = Some (secp_public key);
}.
Arguments SignatureLaws A K {_ _ _}.

Section Steps.
Context {L : Type} `{!Machine L, !MachineLaws L, !QuietPrograms L, !Hex, !HexLaws, !HexBytes, !SerdeJson, !SerdeJsonLaws}.
Context `{!Csl, !CslText, !AddressNotHex, !CslKeys, !Scripts, !Ogmios L, !OgmiosGenesis L, !NodeTyped L, !CborWriter, !SigningKeys}.
Implicit Types (w : World L).

(** The generated keys of the candidate and the secret of its partner chain key, in
    the file that is named after the key. *)
Definition keys_file w (pk : bytes) (keys : CandidateKeys) : Prop :=
  ∃ content raw, files (disk w) !! KEYS_FILE_PATH = Some content ∧
    (json_from_str content ≫= generated_keys_raw_from_value) = Some (pk, raw) ∧
    mapM (M:=outcome) (λ '(id, b), candidate_key_try_new_from id b) (btree_iter raw) = Ret keys.
Definition keystore_secret w (base pk secret : bytes) : Prop :=
  ∃ content seed, files (disk w) !! seed_phrase_file (keystore_path base) (to_hex_string pk) = Some content ∧
    ecdsa_seed_from_string (drop_quotes content) = Some seed ∧ secp_secret_from_slice seed = Some secret.
(** A key file with the cold key of a pool *)
Definition cold_key w (cold : bytes) : Prop :=
  ∃ path content key_file, files (disk w) !! path = Some content ∧
    (json_from_str content ≫= key_file_from_value) = Some key_file ∧
    kf_type key_file = str "StakePoolSigningKey_ed25519" ∧ raw_key_bytes 32 key_file = Ret (Ok cold).

Definition last_printed w : option bytes := match trace w with Printed line :: _ => Some line | _ => None end.

Lemma read_file_run path w w' o :
  read_file path w = Finished w' o → w' = w ∧ ∀ content, o = Some content → files (disk w) !! path = Some content.
Proof.
  unfold read_file. simpl. unfold mbind, IO_bind, get_world. destruct (files (disk w) !! path) as [c|]; [|by intros [= <- <-]].
  destruct (readable _ _); [|by intros [= <- <-]]. destruct (from_utf8 c) as [c'|] eqn:Hc; simpl; [|done].
  intros [= <- <-]. split; [done|]. intros content [= <-]. by apply from_utf8_Some in Hc as [_ ->].
Qed.
Lemma read_generated_keys_run w w' pk keys :
  read_generated_keys w = Finished w' (Ok (pk, keys)) → keys_file w pk keys.
Proof.
  unfold read_generated_keys. intros (w1 & o & [-> Ho]%read_file_run & Hk)%IO_bind_inv.
  destruct o as [content|]; [|done]. specialize (Ho content eq_refl).
  destruct (json_from_str content ≫= _) as [[pk' raw]|] eqn:Hj; [|done].
  apply IO_bind_inv in Hk as (w2 & keys' & Hm & [= -> -> ->]). exists content, raw. split_and!; [done|done|].
  by destruct (mapM _ _) as [keys'|]; [injection Hm as _ ->|].
Qed.
Lemma tool_seed base key : tool_file (seed_phrase_file (keystore_path base) key).
Proof. apply tool_keystore. Qed.
Lemma get_ecdsa_pair_run base pk w w' seed :
  get_ecdsa_pair_from_file (keystore_path base) (to_hex_string pk) w = Finished w' (Ok seed) →
  ∃ content, files (disk w) !! seed_phrase_file (keystore_path base) (to_hex_string pk) = Some content ∧
    ecdsa_seed_from_string (drop_quotes content) = Some seed.
Proof.
  unfold get_ecdsa_pair_from_file. intros (w1 & o & [-> Ho]%read_file_run & Hk)%IO_bind_inv.
  destruct o as [content|]; [|done]. exists content. split; [by apply Ho|].
  injection Hk as <- Hk. by apply ok_or_Ok in Hk.
Qed.
Lemma load_chain_field_run {T} (f : ConfigFieldDefinition T) w w' v :
  typed w → load_chain_field f w = Finished w' (Ok v) → field_value f w = Some v.
Proof.
  unfold load_chain_field. intros Hw (w1 & o & [-> ->]%load_run & Hk)%IO_bind_inv; [|done].
  destruct (field_value f w) as [v'|]; [by injection Hk as _ ->|done].
Qed.
Lemma from_value_bytes v b : from_value serde_byte_string v = Some b → Forall is_byte b.
Proof.
  simpl. destruct v; try done. unfold decode_hex_vec. simpl. destruct (from_hex _) as [b'|] eqn:Hb; [|done].
  simpl. intros [= <-]. by eapply from_hex_bytes.
Qed.
Lemma generated_keys_bytes v pk raw :
  generated_keys_raw_from_value v = Some (pk, raw) → Forall is_byte pk ∧ map_Forall (λ _ b, Forall is_byte b) raw.
Proof.
  unfold generated_keys_raw_from_value. intros (fields & _ & Hv)%bind_Some. destruct fields as [|k [|ks [|]]]; try done.
  apply bind_Some in Hv as (pk' & (j & _ & Hpk)%bind_Some & Hv). apply bind_Some in Hv as (raw' & (js & _ & Hraw)%bind_Some & [= -> ->]).
  split; [by eapply from_value_bytes|]. simpl in Hraw. destruct js as [| | | | |m]; try done.
  case_bool_decide; [|done]. injection Hraw as <-. intros id b. rewrite lookup_omap. intros (v' & _ & Hb)%bind_Some.
  by apply (from_value_bytes v').
Qed.

(** What the first step prints *)
Lemma register1_prints w w' u :
  typed w → register1_run w = Finished w' (Ok u) →
  ∃ exe genesis reg base pk keys secret,
    current_exe = Ok exe ∧ field_value GENESIS_UTXO w = Some genesis ∧ keys_file w pk keys ∧
    keystore_secret w base pk secret ∧ short_utxo_id reg ∧
    last_printed w' = Some (print_command exe (str "register2")
      (register2_args genesis reg (to_hex_string pk)
        (hex_encode (secp_sign secret (datum_hash (mkRegisterMessage genesis pk reg)))) keys)).
Proof.
  intros Hw Hrun. assert (same_files w w) as Hfiles by done. unfold register1_run in Hrun.
  skip Hrun Hw. apply ok_inv in Hrun as (w1 & genesis & Hm & Hrun).
  pose proof (load_chain_field_run _ _ _ _ Hw Hm) as Hgenesis.
  rewrite (same_field_value _ _ _ GENESIS_UTXO Hsame) in Hgenesis by (config_field || reflexivity).
  after Hw Hm. clear Hm. 
  apply IO_bind_inv in Hrun as (w2 & base & Hm & Hrun). after Hw Hm. clear Hm.
  apply IO_bind_inv in Hrun as (w3 & [[pk keys]|e] & Hm & Hrun); [|by apply IO_bind_inv in Hrun as (? & ? & _ & [=])].
  apply read_generated_keys_run in Hm as Hkeys. 
  assert (keys_file w pk keys) as Hkeys'.
  { destruct Hkeys as (content & raw & Hc & Hkeys). exists content, raw. rewrite <-(Hfiles _ tool_keys_file). done. }
  after Hw Hm. clear Hm Hkeys.
  skip Hrun Hw.
  step Hrun Hw w4 config Hm. clear Hm.
  step Hrun Hw w5 shelley Hm. clear Hm.
  step Hrun Hw w6 address Hm. clear Hm.
  step Hrun Hw w7 utxos Hm. clear Hm.
  destruct (is_empty utxos). { do 2 apply IO_bind_inv in Hrun as (? & ? & _ & Hrun). done. }
  apply IO_bind_inv in Hrun as (w8 & reg & Hm & Hrun). after Hw Hm. clear Hm.
  skip Hrun Hw. skip Hrun Hw.
  apply IO_bind_inv in Hrun as (w9 & [seed|e] & Hm & Hrun); [|by apply IO_bind_inv in Hrun as (? & ? & _ & [=])].
  apply get_ecdsa_pair_run in Hm as (content & Hc & Hseed).
  rewrite (Hfiles _ (tool_seed _ _)) in Hc.
  apply ok_inv in Hrun as (w10 & sig & [= _ Hsig] & Hrun).
  unfold sign_registration_message_with_sidechain_key in Hsig.
  apply result_bind_Ok in Hsig as (secret & Hsecret%ok_or_Ok & [= <-]).
  apply ok_inv in Hrun as (w11 & exe & [= _ Hexe] & [= <-]).
  exists exe, genesis, reg, base, pk, keys, secret. split_and!; [done|done|done|by exists content, seed| |done].
  destruct Hphi8 as (u' & Hu & <-). simpl in Hphi7. rewrite Forall_forall in Hphi7. by apply Hphi7.
Qed.

Lemma prompt_disk question d w w' a : prompt question d w = Finished w' a → disk w' = disk w.
Proof.
  unfold prompt. intros (w1 & ? & [= <- <-] & (w2 & x & Hm & [= <- _])%IO_bind_inv)%IO_bind_inv.
  unfold handle_inquire_result in Hm. by destruct (answer _ _ _); [injection Hm as <-|..].
Qed.
Lemma staking_key_run path w w' cold :
  get_mc_staking_signing_key_from_file path w = Finished w' (Ok cold) → cold_key w cold.
Proof.
  unfold get_mc_staking_signing_key_from_file, parse_json_key_file.
  intros (w1 & kf & (w2 & o & [-> Ho]%read_file_run & Hk)%IO_bind_inv & Hrun)%ok_inv.
  destruct o as [content|]; [|done]. injection Hk as <- Hk%ok_or_Ok. case_decide as Htype; [|done].
  apply IO_bind_inv in Hrun as (w3 & r & Hraw & [= _ Hr]). exists path, content, kf.
  split_and!; [by apply Ho|done|done|]. destruct (raw_key_bytes 32 kf) as [r'|]; [|done]. injection Hraw as _ ->.
  by destruct r; [injection Hr as ->|].
Qed.

(** What the second step prints *)
Lemma register2_prints self w w' u :
  register2_run self w = Finished w' (Ok u) →
  ∃ exe cold, current_exe = Ok exe ∧ cold_key w cold ∧
    last_printed w' = Some (print_command exe (str "register3")
      (register3_args self (to_hex_string (ed_public cold))
        (to_hex_string (ed_sign cold (to_datum_cbor_bytes
          (mkRegisterMessage (r2_genesis_utxo self) (r2_partner_chain_pub_key self) (r2_registration_utxo self))))))).
Proof.
  unfold register2_run. intros Hrun.
  apply IO_bind_inv in Hrun as (w1 & [] & [= <-] & Hrun). apply IO_bind_inv in Hrun as (w2 & [] & [= <-] & Hrun).
  apply IO_bind_inv in Hrun as (w3 & path & Hm & Hrun). apply prompt_disk in Hm. simpl in Hm.
  apply IO_bind_inv in Hrun as (w4 & [cold|e] & Hcold & Hrun); [|by apply IO_bind_inv in Hrun as (? & ? & _ & [=])].
  apply staking_key_run in Hcold. simpl in Hrun. apply ok_inv in Hrun as (w5 & exe & [= _ Hexe] & [= <-]).
  exists exe, cold. split_and!; [done| |done]. unfold cold_key in *. by rewrite <-Hm.
Qed.
End Steps.

(** ** A registration that a node accepts *)

Section Accepted.
Context {A K : Type} `{!CandidateVerifier A K, !Csl, !CborWriter, !SigningKeys, !SignatureLaws A K}.

(** The row of db-sync for an output of the ledger has its datum. *)
Lemma parse_registration (u : OgmiosUtxo) reg output :
  get_candidate_registration u = Ok reg → mto_datum output = get_plutus_data u →
  ∃ c, parse_candidate output = Some c ∧ registration_from_datum (parsed_datum c) = reg ∧
    parsed_tx_inputs c = mto_tx_inputs output.
Proof.
  unfold get_candidate_registration, get_plutus_data, parse_candidate. intros Hreg ->.
  destruct (ou_datum u) as [b|]; [|done]. simpl in *. destruct (datum_from_bytes b) as [d|]; [|done]. simpl in *.
  destruct (decode_with_legacy d) as [r|]; [|done]. simpl in *. injection Hreg as <-. by eexists.
Qed.
Lemma registered_candidate_fields c :
  let r := registration_from_datum (parsed_datum c) in let rc := to_registered_candidate c in
  rc_stake_pool_pub_key rc = ada_pub_key (stake_ownership r) ∧
  make_registration_data rc = mkRegistrationData (reg_utxo r) (partner_chain_signature r) (ada_signature (stake_ownership r))
    (partner_chain_signature r) (partner_chain_pub_key r) (partner_chain_pub_key r) (parsed_utxo_info c) (parsed_tx_inputs c) (reg_keys r).
Proof. by destruct c as [? [] ?]. Qed.

(** Both keys signed the message of the registration. *)
Definition signed (genesis : UtxoId) (secret cold : bytes) (reg : CandidateRegistration) : Prop :=
  let message := mkRegisterMessage genesis (secp_public secret) (reg_utxo reg) in
  partner_chain_pub_key reg = secp_public secret ∧
  stake_ownership reg = mkAdaBasedStaking (ed_public cold) (ed_sign cold (to_datum_cbor_bytes message)) ∧
  partner_chain_signature reg = secp_sign secret (datum_hash message).

Lemma signed_accepted genesis secret cold reg (u : OgmiosUtxo) output account_keys :
  signed genesis secret cold reg → get_candidate_registration u = Ok reg → mto_datum output = get_plutus_data u →
  reg_utxo reg ∈ mto_tx_inputs output → maybe_from (reg_keys reg) = Some account_keys →
  ∃ c, parse_candidate output = Some c ∧ rc_stake_pool_pub_key (to_registered_candidate c) = ed_public cold ∧
    validate_registration_data (ed_public cold) (make_registration_data (to_registered_candidate c)) genesis
    = Ok (secp_public secret, account_keys).
Proof.
  intros (Hpk & Hso & Hsig) Hreg Hd Hin Hkeys. destruct (parse_registration u reg output) as (c & Hc & Hr & Hins); [done..|].
  exists c. destruct (registered_candidate_fields c) as [-> ->]. rewrite Hr, Hso. split_and!; [done..|].
  apply validate_registration_data_Ok. rewrite Hins, Hpk, Hsig. split; simpl; [done| | | |done].
  - split; [done|]. apply secp_public_length.
  - split; [apply ed_sign_length|]. apply ed_sign_verify.
  - split; [apply secp_sign_length|]. apply secp_sign_verify.
Qed.
End Accepted.

Section Flow.
Context {L : Type} `{!Machine L, !MachineLaws L, !QuietPrograms L, !Hex, !HexLaws, !HexBytes, !SerdeJson, !SerdeJsonLaws}.
Context `{!Csl, !CslLaws, !CslText, !AddressNotHex, !CslKeys, !Scripts, !Ogmios L, !OgmiosGenesis L, !NodeTyped L, !CborWriter, !SigningKeys}.
Context `{!CommandLine, !CommandLineLaws} {A K : Type} `{!CandidateVerifier A K, !SignatureLaws A K} {unspent : L → list OgmiosUtxo} `{!OgmiosLaws L unspent}.
Context (delay : Z) (retries : nat).
Implicit Types (w : World L).

(** The command that the last line stands for *)
Definition register2_of w : option Register2Cmd := last_printed w ≫= register2_of_line.
Definition register3_of w : option Register3Cmd := last_printed w ≫= register3_of_line.

Definition plain_id (k : CandidateKey) : Prop := value_word (key_id k) ∧ (44 ∉ key_id k) ∧ (58 ∉ key_id k).
Lemma try_new_keys l keys :
  mapM (M:=outcome) (λ '(id, b), candidate_key_try_new_from id b) l = Ret keys →
  keys = (λ p, mkCandidateKey p.1 p.2) <$> l ∧ Forall (λ p, length p.1 = 4%nat) l.
Proof.
  revert keys. induction l as [|[id b] l IH]; simpl; intros keys; [by intros [= <-]|].
  destruct (candidate_key_try_new_from id b) as [k|] eqn:Hk; simpl; [|done].
  unfold candidate_key_try_new_from in Hk. case_decide as Hl; [|done]. injection Hk as <-.
  destruct (mapM _ l) as [ks|] eqn:Hm; simpl; [|done]. intros [= <-]. destruct (IH ks eq_refl) as [-> Hls]. by split; [|constructor].
Qed.
Lemma keys_file_plain w pk keys :
  keys_file w pk keys → Forall plain_id keys → Forall is_byte pk ∧ Forall key_plain keys.
Proof.
  intros (content & raw & _ & (j & _ & [Hpk Hraw]%generated_keys_bytes)%bind_Some & [-> Hl]%try_new_keys) Hids. split; [done|].
  rewrite Forall_fmap in Hids |- *. rewrite Forall_forall in Hids, Hl |- *. intros [id b] Hin. simpl.
  destruct (Hids _ Hin) as (Hp & Hc & Hs). split; [|done]. split_and!; [by apply (Hl _ Hin)|done|done|].
  by eapply Hraw, elem_of_btree_iter.
Qed.

(** The third step registers. *)
Lemma register3_registers self w w' u n validator :
  typed w → register3_run delay retries self w = Finished w' (Ok u) →
  (∀ key, registration_wf (candidate_registration_of self key)) →
  shelley_network (ledger w) = Ok n → registered_candidates_scripts (r3_genesis_utxo self) = Ok validator →
  ∃ key id, succeeded validator n unspent (Register (candidate_registration_of self key)) key (ledger w) (ledger w') id.
Proof.
  intros Hw Hrun Hwf Hn Hv. unfold register3_run in Hrun.
  skip Hrun Hw. skip Hrun Hw.
  apply IO_bind_inv in Hrun as (w1 & [genesis|] & Hm & Hrun); [|by repeat apply IO_bind_inv in Hrun as (? & ? & _ & Hrun)].
  after Hw Hm. clear Hm. skip Hrun Hw. skip Hrun Hw.
  step Hrun Hw w2 key Hm. clear Hm.
  step Hrun Hw w3 config Hm. clear Hm.
  step Hrun Hw w4 connected Hm. clear Hm.
  apply IO_bind_inv in Hrun as (w5 & [id|e] & Hm & Hrun); [|done].
  exists key, id. assert (ledger w4 = ledger w) as Hl by congruence.
  unfold block_on in Hm. rewrite Hl in Hm. destruct (run_register _ _ _ _ _ _) as [[s' r]|] eqn:Hreg; [|done].
  injection Hm as <- ->.
  assert (typed (mkWorld (disk w4) (environ w4) s' (trace w4))) as Hw' by (by eapply typed_files, Hw).
  assert (ledger w' = s') as ->.
  { clear Hw. skip Hrun Hw'. destruct xs3.
    - after Hw' Hrun. by etrans; [eassumption|].
    - by injection Hrun as <- _. }
  eapply run_registration_ok; [|exact Hv|apply Hwf|exact Hreg].
  intros s0 n' Hs0. by eapply one_network.
Qed.

(** The commands of the steps, as they are handed on *)
Context (Hexe : ∀ exe, current_exe = Ok exe → word exe ∧ 47 ∈ exe).
Abbreviation message genesis secret reg := (mkRegisterMessage genesis (secp_public secret) reg).
Definition second_step (genesis reg : UtxoId) (secret : bytes) (keys : CandidateKeys) : Register2Cmd :=
  mkRegister2 genesis reg (secp_public secret) keys (hex_encode (secp_sign secret (datum_hash (message genesis secret reg)))).
Definition third_step (genesis reg : UtxoId) (secret cold : bytes) (keys : CandidateKeys) : Register3Cmd :=
  mkRegister3 genesis reg (secp_public secret) keys (secp_sign secret (datum_hash (message genesis secret reg)))
    (ed_public cold) (ed_sign cold (to_datum_cbor_bytes (message genesis secret reg))).

Lemma signature_word secret h : value_word (hex_encode (secp_sign secret h)).
Proof.
  destruct (secp_sign_length secret h) as [Hb Hl]. apply word_hex_encode; [done|]. by destruct (secp_sign secret h).
Qed.
Lemma register2_line exe args :
  current_exe = Ok exe → plain_args args → accepted_args register2_options args →
  register2_of_line (print_command exe (str "register2") args) = register2_from_args args.
Proof.
  intros [He Hslash]%Hexe Hp Ha. unfold register2_of_line. rewrite printed_words by (done || decide_word).
  unfold mbind, option_bind. by rewrite clap_matches_long by (done || decide_word).
Qed.
Lemma register3_line exe args :
  current_exe = Ok exe → plain_args args → accepted_args register3_options args →
  register3_of_line (print_command exe (str "register3") args) = register3_from_args args.
Proof.
  intros [He Hslash]%Hexe Hp Ha. unfold register3_of_line. rewrite printed_words by (done || decide_word).
  unfold mbind, option_bind. by rewrite clap_matches_long by (done || decide_word).
Qed.
Lemma first_handover w w' u pk keys :
  typed w → keys_file w pk keys → Forall plain_id keys →
  (∀ base secret, keystore_secret w base pk secret → secp_public secret = pk) →
  register1_run w = Finished w' (Ok u) →
  ∃ genesis reg secret, field_value GENESIS_UTXO w = Some genesis ∧ short_utxo_id genesis ∧ short_utxo_id reg ∧
    secp_public secret = pk ∧ Forall key_plain keys ∧ register2_of w' = Some (second_step genesis reg secret keys).
Proof.
  intros Hw Hkeys Hids Hsecret Hrun.
  destruct (register1_prints _ _ _ Hw Hrun) as (exe & genesis & reg & base & pk' & keys' & secret & Hex & Hgenesis & Hkeys' & Hsec & Hreg & Hline).
  assert (pk' = pk ∧ keys' = keys) as [-> ->].
  { destruct Hkeys as (c & raw & Hc & Hj & Hm), Hkeys' as (c' & raw' & Hc' & Hj' & Hm').
    rewrite Hc in Hc'. injection Hc' as <-. rewrite Hj in Hj'. injection Hj' as <- <-. rewrite Hm in Hm'. by injection Hm'. }
  destruct (keys_file_plain _ _ _ Hkeys Hids) as [Hpk Hplain]. apply Hsecret in Hsec as <-.
  assert (short_utxo_id genesis) as Hg.
  { unfold field_value in Hgenesis. apply bind_Some in Hgenesis as (j & _ & (s & _ & Hs)%bind_Some).
    destruct (utxo_id_from_str s) eqn:Hu; [|done]. injection Hs as ->. by eapply utxo_id_from_str_short. }
  exists genesis, reg, secret. split_and!; [done..|]. unfold register2_of. rewrite Hline. simpl.
  rewrite register2_line; [|done|by apply plain_register2_args; try apply signature_word|
    by apply accepted_register2_args, plain_register2_args; try apply signature_word].
  rewrite register2_args_back; [done..|apply secp_public_read|done].
Qed.
Lemma second_handover genesis reg secret keys w w' u :
  short_utxo_id genesis → short_utxo_id reg → Forall key_plain keys →
  register2_run (second_step genesis reg secret keys) w = Finished w' (Ok u) →
  ∃ cold, cold_key w cold ∧ register3_of w' = Some (third_step genesis reg secret cold keys).
Proof.
  intros Hg Hr Hk Hrun. destruct (register2_prints _ _ _ _ Hrun) as (exe & cold & Hex & Hcold & Hline).
  exists cold. split; [done|]. unfold register3_of. rewrite Hline. simpl.
  destruct (secp_public_length secret), (ed_public_length cold).
  destruct (ed_sign_length cold (to_datum_cbor_bytes (message genesis secret reg))).
  destruct (secp_sign_length secret (datum_hash (message genesis secret reg))).
  rewrite register3_line; [|done|by apply plain_register3_args; try apply signature_word|
    by apply accepted_register3_args, plain_register3_args; try apply signature_word].
  by erewrite register3_args_back.
Qed.

Lemma third_step_wf genesis reg secret cold keys key :
  short_utxo_id reg → Forall key_plain keys →
  registration_wf (candidate_registration_of (third_step genesis reg secret cold keys) key).
Proof.
  intros [(Hb & Hl & Hi) _] Hk. split; simpl; [apply ed_public_length|apply ed_sign_length|apply public_hash_hash|done|done|].
  eapply Forall_impl; [exact Hk|]. by intros k [(? & _) _].
Qed.

(** C34. Registration by the wizards ends in a registration that nodes accept.  Suppose that
    the path of the executable and the identifiers of the generated keys are words of
    letters, digits and a few signs that mean nothing to a shell ([word], [plain_id]),
    and that the keystore has the secret of the generated key.  Then the line that the
    first step prints, run in a shell, is a call of the second step, the line which
    that prints is a call of the third step, and whenever the third step succeeds the
    candidate is registered with the same keys, or there is a new output at the address
    of the registrations; a node that observes the output, in a transaction that spends
    the registration UTxO, parses it as a registration of the pool of the cold key and
    finds it valid for the genesis UTxO of the configuration, with the keys that the
    keys file holds. *)
Theorem registration_flow w1 w1' u1 pk keys :
  typed w1 → keys_file w1 pk keys → Forall plain_id keys →
  (∀ base secret, keystore_secret w1 base pk secret → secp_public secret = pk) →
  register1_run w1 = Finished w1' (Ok u1) →
  ∃ genesis r2, field_value GENESIS_UTXO w1 = Some genesis ∧ register2_of w1' = Some r2 ∧
  ∀ w2 w2' u2, register2_run r2 w2 = Finished w2' (Ok u2) →
  ∃ cold r3, cold_key w2 cold ∧ register3_of w2' = Some r3 ∧
  ∀ w3 w3' u3 n validator, typed w3 → shelley_network (ledger w3) = Ok n → registered_candidates_scripts genesis = Ok validator →
  register3_run delay retries r3 w3 = Finished w3' (Ok u3) →
  (ledger w3' = ledger w3 ∧
   ∃ key own, registered unspent (plutus_address validator n) (ledger w3) own ∧
     matches_keys (candidate_registration_of r3 key) own = true) ∨
  ∃ u, u ∈ at_address (unspent:=unspent) (plutus_address validator n) (ledger w3') ∧
  ∀ output account_keys,
    mto_datum output = get_plutus_data u → r3_registration_utxo r3 ∈ mto_tx_inputs output →
    maybe_from (normalised keys) = Some account_keys →
    ∃ c, parse_candidate output = Some c ∧ rc_stake_pool_pub_key (to_registered_candidate c) = ed_public cold ∧
      validate_registration_data (ed_public cold) (make_registration_data (to_registered_candidate c)) genesis
      = Ok (pk, account_keys).
Proof.
  intros Hw1 Hkeys Hids Hsecret Hrun1.
  destruct (first_handover _ _ _ _ _ Hw1 Hkeys Hids Hsecret Hrun1) as (genesis & reg & secret & Hgenesis & Hg & Hr & <- & Hplain & Hr2).
  exists genesis, (second_step genesis reg secret keys). split_and!; [done..|]. intros w2 w2' u2 Hrun2.
  destruct (second_handover _ _ _ _ _ _ _ Hg Hr Hplain Hrun2) as (cold & Hcold & Hr3).
  exists cold, (third_step genesis reg secret cold keys). split_and!; [done..|].
  intros w3 w3' u3 n validator Hw3 Hn Hv Hrun3.
  destruct (register3_registers _ _ _ _ n validator Hw3 Hrun3) as (key & id & Hdone); [|done|done|].
  { intros k. by apply third_step_wf. }
  destruct id as [id|]; simpl in Hdone.
  - right. destruct (proj2 (Hdone _) (or_introl eq_refl)) as (u & Hu & Hreg). exists u. split; [done|].
    intros output account_keys Hd Hin Hk. by apply (signed_accepted genesis secret cold _ u output account_keys) in Hreg.
  - left. destruct Hdone as (-> & own & Hown & _ & Hm). by split; [|exists key, own].
Qed.
End Flow.

(** ** Witness *)

Section Witness.
Import CliInstances.

(** A shell that knows no quotes, and options in pairs of a name and a value *)
Fixpoint join_lines (s : bytes) : bytes :=
  match s with
  | x :: ((y :: s') as s) => if (x =? backslash) && (y =? 10) then join_lines s' else x :: join_lines s
  | s => s
  end.
Fixpoint long_args (ws : list bytes) : option (list (bytes * bytes)) :=
  match ws with
  | [] => Some []
  | name :: value :: ws =>
      name ← strip_prefix (str "--") name;
      args ← long_args ws;
      Some ((name, value) :: args)
  | _ => None
  end.
#[local] Instance cli_command_line : CommandLine := {
  shell_words line := Some (filter (λ word, word ≠ []) (split 32 (join_lines line)));
  clap_matches path options words :=
    let words := tail words in
    if decide (take (length path) words = path) then long_args (drop (length path) words) else None;
}.

Lemma word_no x s : x = 32 ∨ x = backslash → word s → x ∉ s.
Proof.
  intros Hx (_ & Hs & _) Hin. unfold plain in Hs. rewrite Forall_forall in Hs.
  destruct (Hs x Hin) as [Hc|Hc]; destruct Hx as [-> | ->]; [..|done|done]; revert Hc; unfold word_char, backslash; set_solver by lia.
Qed.
Lemma join_lines_app a b : backslash ∉ a → join_lines (a ++ b) = a ++ join_lines b.
Proof.
  induction a as [|x a IH]; [done|]. intros [Hx Ha]%not_elem_of_cons. specialize (IH Ha). simpl.
  destruct (a ++ b) as [|y s] eqn:Hab.
  - apply app_eq_nil in Hab as [-> ->]. done.
  - destruct (Z.eqb_spec x backslash) as [->|_]; [done|]. cbn [andb]. rewrite <-Hab. by rewrite <-IH, Hab.
Qed.
Definition spaced (ws : list bytes) : bytes := concat ((λ w, 32 :: w) <$> ws).
Lemma join_lines_words (ws : list (bytes * bytes)) :
  Forall (λ p, (p.1 = str " " ∨ p.1 = line_break) ∧ word p.2) ws →
  join_lines (concat ((λ p, p.1 ++ p.2) <$> ws)) = spaced ws.*2.
Proof.
  induction 1 as [|[sep w] ws [Hsep Hw] Hws IH]; [done|]. rewrite !fmap_cons. unfold spaced. rewrite fmap_cons. cbn [concat].
  fold (spaced ws.*2). rewrite <-IH. simpl in Hsep, Hw. cbn [fst snd].
  assert (join_lines ((sep ++ w) ++ concat ((λ p, p.1 ++ p.2) <$> ws)) = 32 :: join_lines (w ++ concat ((λ p, p.1 ++ p.2) <$> ws))) as ->.
  { destruct Hsep as [-> | ->]; rewrite <-app_assoc; [|done]. apply (join_lines_app [32]). apply (bool_decide_unpack _). by vm_compute. }
  simpl. f_equal. apply join_lines_app. by apply word_no; [right|].
Qed.
Lemma split_spaced w ws : (32 ∉ w) → Forall (λ w, 32 ∉ w) ws → split 32 (w ++ spaced ws) = w :: ws.
Proof.
  intros Hw Hws. revert w Hw. induction Hws as [|w' ws Hw' Hws IH]; intros w Hw; unfold spaced; simpl.
  - rewrite app_nil_r. by apply split_no_sep.
  - rewrite split_app by done. f_equal. by apply IH.
Qed.
Lemma long_args_words args : long_args (arg_words args) = Some args.
Proof.
  induction args as [|[name value] args IH]; [done|]. unfold arg_words. rewrite fmap_cons. cbn [concat].
  fold (arg_words args). simpl. by rewrite IH.
Qed.
#[local] Instance cli_command_line_laws : CommandLineLaws.
Proof.
  split.
  - intros program ws Hp _ Hws. simpl. f_equal. rewrite join_lines_app by (by apply word_no; [right|]).
    rewrite join_lines_words by done.
    assert (Forall word (program :: ws.*2)) as Hwords.
    { constructor; [done|]. rewrite Forall_fmap. eapply Forall_impl; [exact Hws|]. by intros p [_ ?]. }
    rewrite split_spaced; [|by apply word_no; [left|]|].
    + clear -Hwords. induction Hwords as [|w l [Hw _] Hl IH]; [done|]. by rewrite filter_cons_True, IH.
    + apply Forall_cons in Hwords as [_ Hwords]. eapply Forall_impl; [exact Hwords|]. intros w Hw. by apply word_no; [left|].
  - intros path options program args _ _ _ _. simpl. rewrite decide_True by apply take_app_length. rewrite drop_app_length. apply long_args_words.
Qed.

#[local] Instance cli_signature_laws : SignatureLaws bytes bytes.
Proof.
  split; intros key; [..|by apply has_length_Some; split; [|apply norm_length]]; try (intros msg); try (split; [apply norm_bytes|apply norm_length]).
  - by apply bool_decide_eq_true_2.
  - exists 28. split; [set_solver|]. by apply bool_decide_eq_true_2.
Qed.

(** The steps are taken one after the other on the machine where the keys were
    generated and the configuration was prepared. *)
Definition first_step_run (w : World CliLedger) : World CliLedger := left_by (register1_run w).
Definition second_step_run (w : World CliLedger) : World CliLedger :=
  match register2_of w with Some r2 => left_by (register2_run r2 w) | None => w end.
Definition third_step_run (w : World CliLedger) : World CliLedger :=
  match register3_of w with Some r3 => left_by (register3_run 5 1 r3 w) | None => w end.
Definition first_world : World CliLedger := first_step_run prepared_world.
Definition second_world : World CliLedger := second_step_run first_world.
Definition third_world : World CliLedger := third_step_run second_world.
Definition cli_public_key : bytes := norm 33 (2 :: norm 32 (str "seed")).
Definition cli_candidate_keys : CandidateKeys := [aura_key (norm 32 (str "sr25519")); grandpa_key (norm 32 (str "ed25519"))].
Definition row_of (u : OgmiosUtxo) (spent : UtxoId) : MainchainTxOutput :=
  mkMainchainTxOutput (utxo_id_of u) 1 1 1 0 (ou_address u) (get_plutus_data u) [spent].

Lemma prepared_typed : typed prepared_world.
Proof. apply (session_typed cli_get_raw (Err OgmiosError) (Ok tt) (λ _, []) cli_world), prepared_session. apply cli_typed. Qed.
Lemma cli_keys_file : keys_file prepared_world cli_public_key cli_candidate_keys.
Proof.
  eapply read_generated_keys_run.
  apply returned_Finished.
  vm_compute. reflexivity.
Qed.
(** The only secret in a keystore of the machine under the candidate's key *)
Definition seeds_of (w : World CliLedger) : Prop :=
  map_Forall (λ path content, str "/keystore/" ++ key_type_hex CROSS_CHAIN ++ remove_0x (to_hex_string cli_public_key) `suffix_of` path →
    content = str "seed") (files (disk w)).
Lemma seeds_of_secret w base secret :
  seeds_of w → keystore_secret w base cli_public_key secret → secp_public secret = cli_public_key.
Proof.
  intros Hall (content & seed & Hc & Hseed & Hs). rewrite (Hall _ _ Hc) in Hseed.
  - vm_compute in Hseed. injection Hseed as <-. vm_compute in Hs. injection Hs as <-. by vm_compute.
  - exists base. unfold seed_phrase_file, keystore_path. by rewrite <-app_assoc.
Qed.
Lemma cli_seeds : seeds_of prepared_world.
Proof. apply (bool_decide_unpack _). vm_compute. exact I. Qed.

Lemma cli_exe_word exe : current_exe (L:=CliLedger) = Ok exe → word exe ∧ 47 ∈ exe.
Proof. intros [= <-]. decide_word. Qed.
Lemma cli_plain_ids : Forall plain_id cli_candidate_keys.
Proof. do 2 (apply Forall_cons; split; [split_and!; decide_word|]). constructor. Qed.

Lemma at_address_unspent address (s : CliLedger) u : u ∈ at_address (unspent:=cli_utxos) address s → u ∈ cli_utxos s.
Proof. by intros [_ Hu]%list_elem_of_filter. Qed.

(** What the steps return *)
Lemma first_step_returns (w : World CliLedger) :
  returned (register1_run w) = Some (Ok tt) → register1_run w = Finished (first_step_run w) (Ok tt).
Proof. apply returned_Finished. Qed.
Lemma second_step_returns (w : World CliLedger) r2 :
  register2_of w = Some r2 → (r2 ← register2_of w; returned (register2_run r2 w)) = Some (Ok tt) →
  register2_run r2 w = Finished (second_step_run w) (Ok tt).
Proof. unfold second_step_run. intros ->. apply returned_Finished. Qed.
Lemma third_step_returns (w : World CliLedger) r3 :
  register3_of w = Some r3 → (r3 ← register3_of w; returned (register3_run 5 1 r3 w)) = Some (Ok tt) →
  register3_run 5 1 r3 w = Finished (third_step_run w) (Ok tt).
Proof. unfold third_step_run. intros ->. apply returned_Finished. Qed.
Lemma second_step_typed (w : World CliLedger) : typed w → typed (second_step_run w).
Proof.
  intros Hw. unfold second_step_run. destruct (register2_of w) as [r2|]; [|done].
  by apply (command_frame cli_get_raw (Err OgmiosError) (Ok tt) (λ _, []) (Register2 r2)).
Qed.
Lemma first_step_typed (w : World CliLedger) : typed w → typed (first_step_run w).
Proof. apply (command_frame cli_get_raw (Err OgmiosError) (Ok tt) (λ _, []) Register1). Qed.
Lemma second_world_typed : typed second_world.
Proof. exact (second_step_typed first_world (first_step_typed prepared_world prepared_typed)). Qed.

Lemma first_returned : returned (register1_run prepared_world) = Some (Ok tt).
Proof. vm_compute. reflexivity. Qed.
Lemma second_returned : (r2 ← register2_of first_world; returned (register2_run r2 first_world)) = Some (Ok tt).
Proof. vm_compute. reflexivity. Qed.
Lemma third_returned : (r3 ← register3_of second_world; returned (register3_run 5 1 r3 second_world)) = Some (Ok tt).
Proof. vm_compute. reflexivity. Qed.
Lemma prepared_genesis : field_value GENESIS_UTXO prepared_world = Some (mkUtxoId (norm 32 [2]) 0).
Proof. vm_compute. reflexivity. Qed.
Lemma second_network : shelley_network (ledger second_world) = Ok Testnet.
Proof. vm_compute. reflexivity. Qed.
Lemma registered_something : length (cli_utxos (ledger third_world)) ≠ length (cli_utxos (ledger second_world)).
Proof. vm_compute. discriminate. Qed.

Lemma registration_flow_witness :
  ∃ u spent c account_keys, u ∈ cli_utxos (ledger third_world) ∧ parse_candidate (row_of u spent) = Some c ∧
    validate_registration_data (rc_stake_pool_pub_key (to_registered_candidate c))
      (make_registration_data (to_registered_candidate c)) (mkUtxoId (norm 32 [2]) 0)
    = Ok (cli_public_key, account_keys).
Proof.
  destruct (registration_flow (A:=bytes) (unspent:=cli_utxos) 5 1 cli_exe_word
    prepared_world first_world tt cli_public_key cli_candidate_keys prepared_typed cli_keys_file cli_plain_ids
    (λ base secret, seeds_of_secret prepared_world base secret cli_seeds) (first_step_returns _ first_returned))
    as (genesis & r2 & Hgenesis & Hr2 & Hsecond).
  rewrite prepared_genesis in Hgenesis. injection Hgenesis as <-.
  destruct (Hsecond first_world second_world tt (second_step_returns _ r2 Hr2 second_returned)) as (cold & r3 & _ & Hr3 & Hthird).
  destruct (registered_candidates_scripts (mkUtxoId (norm 32 [2]) 0)) as [validator|] eqn:Hv; [|discriminate Hv].
  destruct (Hthird second_world third_world tt Testnet validator second_world_typed second_network eq_refl
    (third_step_returns _ r3 Hr3 third_returned)) as [[Hledger _]|(u & Hu & Haccepted)].
  - destruct (registered_something (f_equal (λ l, length (cli_utxos l)) Hledger)).
  - set (account_keys := norm 32 (str "sr25519") ++ norm 32 (str "ed25519")).
    destruct (Haccepted (row_of u (r3_registration_utxo r3)) account_keys)
      as (c & Hc & Hpool & Hvalid); [reflexivity|apply list_elem_of_here|vm_compute; reflexivity|].
    exists u, (r3_registration_utxo r3), c, account_keys.
    rewrite Hpool. exact (conj (at_address_unspent _ _ u Hu) (conj Hc Hvalid)).
Defined.
End Witness.
