(* ===== verification/MockSources.v ===== *)
(** * Mocked data sources

    Models [toolkit/data-sources/mock/src]: sources that replace Cardano during
    development.  Blocks of the main chain are computed from the time and the epoch
    data of a configuration file are served in turn.  The sources implement the
    interfaces of [McHash], [AuthoritySelection], [GovernedMap] and [Bridge]; the
    choice among the kinds of sources is that of [demo/node/src/data_sources.rs]. *)

From S2P Require Import Prelude Domain AuthoritySelection CandidateKeys TextFormats GovernedMap Bridge BlockProductionLog McHash CliIO CliConfig CliFrame.

(** ** Choice of the sources *)

Inductive DataSourceType := DbSync | Mock | Dolos.
#[global] Instance DataSourceType_eq_dec : EqDecision DataSourceType.
Proof. solve_decision. Defined.

Definition DataSourceType_from_str (s : bytes) : result bytes DataSourceType :=
  let lower := to_lowercase s in
  if decide (lower = str "db-sync") then Ok DbSync
  else if decide (lower = str "mock") then Ok Mock
  else if decide (lower = str "dolos") then Ok Dolos
  else Err (str "Invalid data source type: " ++ s ++ str ". Valid options: db-sync, mock, dolos").
Definition DataSourceType_display (t : DataSourceType) : bytes :=
  match t with DbSync => str "db-sync" | Mock => str "mock" | Dolos => str "dolos" end.

(** ** Blocks *)

Section Blocks.
Context (mc_epoch_duration_millis : Z).

Definition block_per_epoch : Z := mc_epoch_duration_millis / 20000.

(** An epoch shorter than a block makes the division panic. *)
Definition mock_latest_stable_block_for (reference_timestamp : Z) : outcome (option MainchainBlock) :=
  let block_number := wrap 32 (reference_timestamp / 20000) in
  epoch ← checked_div block_number block_per_epoch;
  let hash_arr := be 4 block_number ++ replicate 28 0 in
  Ret (Some (mkMainchainBlock block_number hash_arr epoch block_number reference_timestamp)).
Definition mock_stable_block_for (hash : bytes) (reference_timestamp : Z) : outcome (option MainchainBlock) :=
  mock_latest_stable_block_for reference_timestamp.
Definition mock_block_by_hash (hash : bytes) : outcome (option MainchainBlock) :=
  let block_number := from_be (take 4 hash) in
  let timestamp := wmul 64 block_number 20000 in
  epoch ← checked_div block_number block_per_epoch;
  Ret (Some (mkMainchainBlock block_number hash epoch epoch timestamp)).
Definition mock_latest_block_info (millis_now : Z) : outcome MainchainBlock :=
  block ← mock_latest_stable_block_for millis_now;
  expect block.

(** [McHashDataSourceMock] *)
Definition mock_call {A} (r : outcome A) : DS unit Empty_set A := λ s, r ← r; Ret (s, Ok r).
#[export] Instance McHashDataSourceMock : McHashDataSource unit Empty_set := {|
  get_latest_stable_block_for timestamp := mock_call (mock_latest_stable_block_for timestamp);
  get_stable_block_for hash timestamp := mock_call (mock_stable_block_for hash timestamp);
  get_block_by_hash hash := mock_call (mock_block_by_hash hash);
|}.
End Blocks.

(** ** Governed Map, bridge and stake distribution *)

#[local] Instance GovernedMapDataSourceMock (data : gmap bytes bytes) : GovernedMapDataSource Empty_set := {|
  get_state_at_block _ _ := Ok data;
  get_mapping_changes _ _ _ := Ok (prod_map id Some <$> btree_iter data);
|}.

Definition mock_get_transfers {RecipientAddress} (_ : Bridge.MainChainScripts) (_ : BridgeDataCheckpoint) (_ : Z) (_ : bytes) :
    result Empty_set (list (BridgeTransferV1 RecipientAddress) * BridgeDataCheckpoint) :=
  Ok ([], CheckpointBlock 0).

Definition mock_delegation_distribution (_ : Z) (_ : list bytes) : result Empty_set (gmap bytes PoolDelegation) := Ok ∅.

(** ** Candidates *)

Inductive MockRegistrationStatus :=
  | Active
  | PendingActivation (effective_at : Z)
  | PendingDeregistration (effective_at : Z).

Record MockRegistration := mkMockRegistration {
  mr_name : option bytes;
  mr_sidechain_pub_key : bytes;
  mr_mainchain_pub_key : bytes;
  mr_mainchain_signature : bytes;
  mr_sidechain_signature : bytes;
  mr_registration_utxo : UtxoId;
  mr_status : MockRegistrationStatus;
  mr_aura_pub_key : bytes;
  mr_grandpa_pub_key : bytes;
}.
Record MockPermissionedCandidate := mkMockPermissioned {
  mp_name : option bytes;
  mp_sidechain_pub_key : bytes;
  mp_aura_pub_key : bytes;
  mp_grandpa_pub_key : bytes;
}.
Record MockDParam := mkMockDParam { mock_permissioned : Z; mock_registered : Z }.
Record MockEpochCandidates := mkMockEpoch {
  me_permissioned : list MockPermissionedCandidate;
  me_registrations : list MockRegistration;
  me_nonce : bytes;
  me_d_parameter : MockDParam;
}.
(** [MockRegistrationsConfig] *)
Abbreviation EpochRotation := (list MockEpochCandidates).

(** The UTxO that every mocked registration has. *)
Definition mock_utxo_info : UtxoInfo :=
  mkUtxoInfo (mkUtxoId
    [90; 155; 87; 115; 29; 240; 224; 8; 197; 170; 114; 150; 72; 44; 3; 50;
     18; 183; 26; 60; 23; 150; 255; 0; 193; 13; 183; 21; 12; 31; 61; 29] 9) 123 12345 123456 12.

Definition mock_candidate_registrations (mock : MockRegistration) : outcome CandidateRegistrations :=
  stake_pool_public_key ← expect (has_length 32 (mr_mainchain_pub_key mock));
  mainchain_signature ← expect (has_length 64 (mr_mainchain_signature mock));
  let registrations := [mkRegistrationData (mr_registration_utxo mock) (mr_sidechain_signature mock) mainchain_signature
    (mr_sidechain_signature mock) (mr_sidechain_pub_key mock) (mr_sidechain_pub_key mock) mock_utxo_info
    [mr_registration_utxo mock] [aura_key (mr_aura_pub_key mock); grandpa_key (mr_grandpa_pub_key mock)]] in
  Ret (mkCandidateRegistrations stake_pool_public_key registrations (Some 333)).

Definition mock_permissioned_candidate (mock : MockPermissionedCandidate) : PermissionedCandidateData :=
  mkPermissionedCandidateData (mp_sidechain_pub_key mock)
    [aura_key (mp_aura_pub_key mock); grandpa_key (mp_grandpa_pub_key mock)].
Definition mock_d_parameter (mock : MockDParam) : DParameter :=
  mkDParameter (mock_permissioned mock) (mock_registered mock).

Section Info.
Context `{!Hex}.

(** [String::replace_range] of the range from [start] to [stop]; the text is ASCII.
    The subtraction of the callers has the width of [usize]. *)
Definition replace_range (start stop : Z) (by_ s : bytes) : outcome bytes :=
  if (start <=? stop) && (stop <=? Z.of_nat (length s))
  then Ret (take (Z.to_nat start) s ++ by_ ++ drop (Z.to_nat stop) s) else Panic.
Definition short_address (key : bytes) : outcome bytes :=
  let short_addr := to_hex_string key in
  replace_range 5 (wsub 64 (Z.of_nat (length short_addr)) 4) (str "...") short_addr.

Definition registration_info_string (self : MockRegistration) : outcome bytes :=
  let name := default (str "<Unnamed>") (mr_name self) in
  let status := match mr_status self with
                | Active => str "active"
                | PendingActivation effective_at => str "active at " ++ display_uint effective_at
                | PendingDeregistration effective_at => str "active until " ++ display_uint effective_at
                end in
  short_addr ← short_address (mr_sidechain_pub_key self);
  Ret (name ++ str "(" ++ short_addr ++ str ", " ++ status ++ str ")").
Definition permissioned_info_string (self : MockPermissionedCandidate) : outcome bytes :=
  let name := default (str "<unnamed>") (mp_name self) in
  short_addr ← short_address (mp_sidechain_pub_key self);
  Ret (name ++ str "(" ++ short_addr ++ str ")").

(** [debug!] evaluates what it writes only if the level is enabled. *)
Definition debug_each {A} (debug_enabled : bool) (info : A → outcome bytes) (l : list A) : outcome unit :=
  if debug_enabled then (λ _, tt) <$> mapM info l else Ret tt.

(** *** [AuthoritySelectionDataSourceMock] *)
Context (debug_enabled : bool) (epoch_rotation : EpochRotation).

Definition epoch_data (epoch_number : Z) : outcome MockEpochCandidates :=
  let len := Z.of_nat (length epoch_rotation) in
  if len =? 0 then Panic
  else expect (epoch_rotation !! Z.to_nat (epoch_number mod len)).

Definition mock_get_ariadne_parameters (epoch_number : Z) : outcome AriadneParameters :=
  epoch ← epoch_data epoch_number;
  let d_parameter := me_d_parameter epoch in
  epoch ← epoch_data epoch_number;
  let candidates := me_permissioned epoch in
  _ ← debug_each debug_enabled permissioned_info_string candidates;
  let permissioned_candidates := Some (mock_permissioned_candidate <$> candidates) in
  Ret (mkAriadneParameters (mock_d_parameter d_parameter) permissioned_candidates).
Definition mock_get_candidates (epoch_number : Z) : outcome (list CandidateRegistrations) :=
  epoch_conf ← epoch_data epoch_number;
  let registrations := me_registrations epoch_conf in
  _ ← debug_each debug_enabled registration_info_string registrations;
  mapM mock_candidate_registrations registrations.
Definition mock_get_epoch_nonce (epoch_number : Z) : outcome (option bytes) :=
  epoch_conf ← epoch_data epoch_number;
  Ret (Some (me_nonce epoch_conf)).
Definition mock_data_epoch (for_epoch : Z) : Z := wsub 32 for_epoch 2.
End Info.

(** ** Blocks of the mock are numbered by time *)

Section MockBlocks.
Context (d : Z).
Hypothesis block_in_epoch : 20000 ≤ d.

(** The block at a time. *)
Definition mock_block (t : Z) : MainchainBlock :=
  mkMainchainBlock (t / 20000) (be 4 (t / 20000) ++ replicate 28 0) (t / 20000 / (d / 20000)) (t / 20000) t.
#[local] Arguments mock_block : simpl never.
#[local] Arguments mock_block_by_hash : simpl never.
#[local] Arguments mock_latest_stable_block_for : simpl never.
Definition mock_time (t : Z) : Prop := 0 ≤ t < 20000 * u_bound 32.

Lemma mock_number t : mock_time t → in_u 32 (t / 20000).
Proof. intros [Ht Hlt]. split; [by apply Z.div_pos|]. apply Z.div_lt_upper_bound; lia. Qed.
Lemma mock_epoch_div n : checked_div n (block_per_epoch d) = Ret (n / (d / 20000)).
Proof.
  unfold checked_div, block_per_epoch. assert (1 ≤ d / 20000) by (apply Z.div_le_lower_bound; lia).
  by rewrite (proj2 (Z.eqb_neq _ _)) by lia.
Qed.

Lemma mock_latest_eq t : mock_time t → mock_latest_stable_block_for d t = Ret (Some (mock_block t)).
Proof.
  intros Ht. unfold mock_latest_stable_block_for. rewrite wrap_id by (by apply mock_number).
  by rewrite mock_epoch_div.
Qed.
Lemma mock_by_hash_eq t : mock_time t →
  ∃ b, mock_block_by_hash d (mb_hash (mock_block t)) = Ret (Some b) ∧
    mb_number b = mb_number (mock_block t) ∧ mb_hash b = mb_hash (mock_block t) ∧ mb_epoch b = mb_epoch (mock_block t).
Proof.
  intros Ht. pose proof (mock_number t Ht) as Hn. eexists. unfold mock_block_by_hash, mock_block. cbn [mb_hash mb_number mb_epoch].
  rewrite take_app_length' by (by rewrite length_be). rewrite from_be_be by exact Hn.
  rewrite mock_epoch_div. by split_and!.
Qed.

(** What an author with mocked sources refers to and what a verifier makes of it. *)
Lemma mock_proposal parent_logs parent_time t :
  mock_time t →
  match parent_time with
  | None => ok (value_from_digest parent_logs) = None
  | Some t0 => mock_time t0 ∧ t0 ≤ t ∧ value_from_digest parent_logs = Ok (mb_hash (mock_block t0))
  end →
  ∃ p, new_proposal (S:=unit) (F:=Empty_set) (McHashDataSource0:=McHashDataSourceMock d) parent_logs t tt = Ret (tt, Ok p) ∧
    mc_block p = mock_block t ∧
    previous_mc_hash p = (λ t0, mb_hash (mock_block t0)) <$> parent_time.
Proof.
  intros Ht Hparent. pose proof (mock_latest_eq t Ht) as Hlatest. destruct parent_time as [t0|].
  - destruct Hparent as (Ht0 & Hle & Hvalue).
    destruct (mock_by_hash_eq t0 Ht0) as (b & Hb & Hnumber & Hhash & _).
    assert (mb_number b ≤ mb_number (mock_block t)) as Horder by (rewrite Hnumber; by apply Z.div_le_mono).
    change ((λ t0, mb_hash (mock_block t0)) <$> Some t0) with (Some (mb_hash (mock_block t0))).
    set (hash := mb_hash (mock_block t0)) in *. clearbody hash. set (block := mock_block t) in *. clearbody block.
    unfold new_proposal, mbind, DS_bind, ds_map_err, ds_lift. simpl. unfold mock_call. rewrite Hlatest. simpl.
    rewrite Hvalue. simpl. rewrite Hb. simpl. rewrite (proj2 (Z.leb_le _ _)) by done.
    eexists. split; [done|]. split; [done|]. unfold previous_mc_hash. simpl. by rewrite Hhash.
  - unfold new_proposal, mbind, DS_bind, ds_map_err, ds_lift. simpl. unfold mock_call. rewrite Hlatest. simpl.
    rewrite Hparent. eexists. by split.
Qed.

Lemma mock_verification parent_logs parent_time t hash :
  mock_time t →
  match parent_time with
  | None => True
  | Some t0 => mock_time t0 ∧ t0 ≤ t ∧ value_from_digest parent_logs = Ok (mb_hash (mock_block t0))
  end →
  new_verification (S:=unit) (F:=Empty_set) (McHashDataSource0:=McHashDataSourceMock d) parent_logs parent_time t hash tt
    = Ret (tt, Ok (mkMcHash (mock_block t) (mock_block <$> parent_time))).
Proof.
  intros Ht Hparent. pose proof (mock_latest_eq t Ht) as Hlatest.
  unfold new_verification, get_mc_state_reference, mbind, DS_bind, ds_map_err, ds_lift. simpl.
  unfold mock_call, mock_stable_block_for. rewrite Hlatest. destruct parent_time as [t0|]; [|done].
  destruct Hparent as (Ht0 & Hle & Hvalue). pose proof (mock_latest_eq t0 Ht0) as Hparent.
  assert (mb_number (mock_block t0) ≤ mb_number (mock_block t)) as Horder by (by apply Z.div_le_mono).
  change (mock_block <$> Some t0) with (Some (mock_block t0)).
  set (parent := mock_block t0) in *. clearbody parent. set (block := mock_block t) in *. clearbody block. simpl.
  rewrite Hvalue, Hparent. simpl. by rewrite (proj2 (Z.ltb_ge _ _)).
Qed.
End MockBlocks.

(** ** The Governed Map of the mock never changes *)

Lemma apply_constant data : apply_changes (prod_map id Some <$> btree_iter data) data = data.
Proof.
  unfold apply_changes. assert (∀ k v, (k, v) ∈ btree_iter data → data !! k = Some v) as Hin.
  { intros k v. apply elem_of_btree_iter. }
  revert Hin. generalize (btree_iter data). induction l as [|[k v] l IH]; intros Hin; [done|].
  simpl. assert (partial_alter (λ _, Some v) k data = data) as ->.
  { etrans; [|apply (insert_id data k v), Hin; left]. done. }
  apply IH. intros k' v' Hk. apply Hin. by right.
Qed.
#[local] Instance mock_map_laws data :
  GovernedMapDataSourceLaws (H:=GovernedMapDataSourceMock data) (λ _ _, data) (λ _ _, True).
Proof.
  split.
  - by intros block scripts m [= ->].
  - intros since up_to scripts changes _ [= <-]. apply apply_constant.
Qed.

(** ** The epochs of the configuration take turns *)

Section MockCandidates.
Context `{!Hex, !HexLaws, !HexBytes} (debug_enabled : bool) (epoch_rotation : EpochRotation).

(** Keys are abbreviated in messages, which needs at least four bytes. *)
Lemma short_address_spec key : Forall is_byte key → Z.of_nat (length key) < 2 ^ 32 →
  (∃ text, short_address key = Ret text) ↔ (4 ≤ length key)%nat.
Proof.
  intros Hkey Hlen. unfold short_address, to_hex_string. rewrite to_hex_eq by done.
  set (text := 48 :: 120 :: hex_encode key).
  assert (Z.of_nat (length text) = 2 * Z.of_nat (length key) + 2) as Htext.
  { subst text. simpl. rewrite hex_encode_length. lia. }
  unfold replace_range. rewrite Htext. destruct (decide (1 ≤ length key)%nat) as [Hone|Hzero].
  - rewrite wsub_exact by (unfold in_u, u_bound; lia).
    destruct (Z.leb_spec 5 (2 * Z.of_nat (length key) + 2 - 4)), (Z.leb_spec (2 * Z.of_nat (length key) + 2 - 4)
      (2 * Z.of_nat (length key) + 2)); simpl; try lia; (split; [intros [? ?]; try done; lia|intros; try lia; by eexists]).
  - replace (length key) with 0%nat by lia. split; [by intros [? ?]|lia].
Qed.

(** A configuration that is served: it has an epoch, keys and signatures have their
    length, and if debug messages are written keys can be abbreviated. *)
Definition abbreviated (key : bytes) : Prop :=
  debug_enabled = true → Forall is_byte key ∧ (4 ≤ length key)%nat ∧ Z.of_nat (length key) < 2 ^ 32.
Record epoch_served (e : MockEpochCandidates) : Prop := {
  served_permissioned : Forall (λ p, abbreviated (mp_sidechain_pub_key p)) (me_permissioned e);
  served_registrations : Forall (λ r, abbreviated (mr_sidechain_pub_key r) ∧
    length (mr_mainchain_pub_key r) = 32%nat ∧ length (mr_mainchain_signature r) = 64%nat) (me_registrations e);
}.

Lemma mapM_Ret {A B} (f : A → outcome B) l : Forall (λ x, ∃ y, f x = Ret y) l → ∃ ys, mapM f l = Ret ys.
Proof.
  induction 1 as [|x l [y Hy] _ [ys IH]]; [by eexists|].
  exists (y :: ys). simpl. rewrite Hy. simpl. change (mapM _ l) with (mapM f l). by rewrite IH.
Qed.
Lemma debug_each_Ret {A} (info : A → outcome bytes) l :
  (debug_enabled = true → Forall (λ x, ∃ y, info x = Ret y) l) → debug_each debug_enabled info l = Ret tt.
Proof.
  unfold debug_each. destruct debug_enabled; [|done]. intros Hl. destruct (mapM_Ret info l (Hl eq_refl)) as [ys Hys].
  by rewrite Hys.
Qed.

Lemma epoch_data_turn e : epoch_rotation ≠ [] → ∃ turn, turn ∈ epoch_rotation ∧
  epoch_rotation !! Z.to_nat (e mod Z.of_nat (length epoch_rotation)) = Some turn ∧ epoch_data epoch_rotation e = Ret turn.
Proof.
  intros Hne. unfold epoch_data. set (n := Z.of_nat (length epoch_rotation)).
  assert (0 < n) by (subst n; destruct epoch_rotation; [done|simpl; lia]).
  rewrite (proj2 (Z.eqb_neq _ _)) by lia. pose proof (Z.mod_pos_bound e n ltac:(lia)).
  destruct (lookup_lt_is_Some_2 epoch_rotation (Z.to_nat (e mod n))) as [turn Hturn]; [lia|].
  exists turn. rewrite Hturn. split_and!; [by eapply list_elem_of_lookup_2|done..].
Qed.

Lemma info_strings key : debug_enabled = true → abbreviated key → ∃ text, short_address key = Ret text.
Proof. intros Hdebug Hkey. destruct (Hkey Hdebug) as (Hb & Hl & Hlt). by apply short_address_spec. Qed.

Lemma mock_registrations_Ret l :
  Forall (λ r, length (mr_mainchain_pub_key r) = 32%nat ∧ length (mr_mainchain_signature r) = 64%nat) l →
  ∃ cs, mapM mock_candidate_registrations l = Ret cs ∧ stake_pool_public_key <$> cs = mr_mainchain_pub_key <$> l.
Proof.
  induction 1 as [|r l [Hk Hs] _ (cs & Hcs & Hkeys)]; [by exists []|].
  assert (∃ c, mock_candidate_registrations r = Ret c ∧ stake_pool_public_key c = mr_mainchain_pub_key r) as (c & Hc & Hkey).
  { unfold mock_candidate_registrations, has_length. rewrite !decide_True by done. by eexists. }
  exists (c :: cs). rewrite !fmap_cons, Hkey, Hkeys. split; [|done]. simpl. rewrite Hc. simpl.
  change (mapM _ l) with (mapM mock_candidate_registrations l). by rewrite Hcs.
Qed.

Lemma mock_epoch_answers e : epoch_rotation ≠ [] → Forall (epoch_served) epoch_rotation →
  ∃ turn parameters candidates, epoch_rotation !! Z.to_nat (e mod Z.of_nat (length epoch_rotation)) = Some turn ∧
    mock_get_ariadne_parameters debug_enabled epoch_rotation e = Ret parameters ∧
    ap_d_parameter parameters = mock_d_parameter (me_d_parameter turn) ∧
    ap_permissioned_candidates parameters = Some (mock_permissioned_candidate <$> me_permissioned turn) ∧
    mock_get_candidates debug_enabled epoch_rotation e = Ret candidates ∧
    stake_pool_public_key <$> candidates = mr_mainchain_pub_key <$> me_registrations turn ∧
    mock_get_epoch_nonce epoch_rotation e = Ret (Some (me_nonce turn)).
Proof.
  intros Hne Hserved. destruct (epoch_data_turn e Hne) as (turn & Hin & Hturn & Hdata).
  rewrite Forall_forall in Hserved. destruct (Hserved turn Hin) as [Hper Hreg].
  destruct (mock_registrations_Ret (me_registrations turn)) as (candidates & Hcand & Hkeys).
  { eapply Forall_impl; [exact Hreg|]. by intros r (_ & ? & ?). }
  assert (debug_each debug_enabled permissioned_info_string (me_permissioned turn) = Ret tt) as Hlog.
  { apply debug_each_Ret. intros Hdebug. eapply Forall_impl; [exact Hper|]. intros p Hp.
    destruct (info_strings _ Hdebug Hp) as [text Htext]. unfold permissioned_info_string. rewrite Htext. by eexists. }
  assert (debug_each debug_enabled registration_info_string (me_registrations turn) = Ret tt) as Hlog'.
  { apply debug_each_Ret. intros Hdebug. eapply Forall_impl; [exact Hreg|]. intros r (Hr & _).
    destruct (info_strings _ Hdebug Hr) as [text Htext]. unfold registration_info_string. rewrite Htext. by eexists. }
  do 3 eexists. split; [exact Hturn|]. unfold mock_get_ariadne_parameters, mock_get_candidates, mock_get_epoch_nonce.
  rewrite Hdata. simpl. rewrite Hlog, Hlog'. simpl. by rewrite Hcand.
Qed.
End MockCandidates.

(** A chain on mocked sources works.  If the epoch lasts at least a block, an author
    finds a reference at every time, and the nodes that verify it obtain the same
    block and previous reference, whatever hash the block carries: the mock does not
    look at it.  The Governed Map is the configured one at every block, and its changes
    leave it so.  If the configuration of the candidates is well formed every epoch is
    answered, with the data of the epoch of the configuration whose turn it is. *)
Theorem mock_sources_serve `{!Hex, !HexLaws, !HexBytes} (d : Z) (debug_enabled : bool) (epoch_rotation : EpochRotation) (data : gmap bytes bytes) :
  20000 ≤ d → epoch_rotation ≠ [] → Forall (epoch_served debug_enabled) epoch_rotation →
  (∀ parent_logs parent_time t, mock_time t →
     match parent_time with
     | None => ok (value_from_digest parent_logs) = None
     | Some t0 => mock_time t0 ∧ t0 ≤ t ∧ value_from_digest parent_logs = Ok (mb_hash (mock_block d t0))
     end →
     ∃ p p', new_proposal (McHashDataSource0:=McHashDataSourceMock d) parent_logs t tt = Ret (tt, Ok p) ∧
       (∀ hash, new_verification (McHashDataSource0:=McHashDataSourceMock d) parent_logs parent_time t hash tt
                = Ret (tt, Ok p')) ∧
       mc_block p' = mc_block p ∧ mc_block p = mock_block d t ∧ previous_mc_hash p' = previous_mc_hash p) ∧
  (∀ since up_to scripts, ∃ changes,
     GovernedMap.get_state_at_block (GovernedMapDataSource:=GovernedMapDataSourceMock data) up_to scripts = Ok data ∧
     GovernedMap.get_mapping_changes (GovernedMapDataSource:=GovernedMapDataSourceMock data) since up_to scripts = Ok changes ∧
     apply_changes changes data = data) ∧
  ∀ e, ∃ turn parameters candidates, epoch_rotation !! Z.to_nat (e mod Z.of_nat (length epoch_rotation)) = Some turn ∧
    mock_get_ariadne_parameters debug_enabled epoch_rotation e = Ret parameters ∧
    ap_d_parameter parameters = mock_d_parameter (me_d_parameter turn) ∧
    ap_permissioned_candidates parameters = Some (mock_permissioned_candidate <$> me_permissioned turn) ∧
    mock_get_candidates debug_enabled epoch_rotation e = Ret candidates ∧
    stake_pool_public_key <$> candidates = mr_mainchain_pub_key <$> me_registrations turn ∧
    mock_get_epoch_nonce epoch_rotation e = Ret (Some (me_nonce turn)).
Proof.
  intros Hd Hne Hserved. split_and!.
  - intros parent_logs parent_time t Ht Hparent.
    destruct (mock_proposal d Hd parent_logs parent_time t Ht Hparent) as (p & Hp & Hblock & Hprevious).
    exists p. eexists. split; [exact Hp|]. split.
    { intros hash. apply mock_verification; [done|done|]. by destruct parent_time. }
    split_and!; [done|done|]. rewrite Hprevious. by destruct parent_time.
  - intros since up_to scripts. eexists. split_and!; [done|done|]. apply apply_constant.
  - intros e. by apply mock_epoch_answers.
Qed.

(** The block that is found by its hash is not the block that was offered: its slot is
    the number of its epoch. *)
Example mock_slot_differs :
  let d := 432000000 in let block := mock_block d 1700000000000 in
  mb_slot block = 85000000 ∧
  ∃ found, mock_block_by_hash d (mb_hash block) = Ret (Some found) ∧ mb_number found = mb_number block ∧ mb_slot found = 3935.
Proof. split; [done|]. eexists. by vm_compute. Qed.
