(* ===== verification/CliSignatures.v ===== *)
(** * Signatures made outside of the chain

    Models the commands of [toolkit/cli/commands/src]: [get_genesis_utxo.rs],
    [address_association_signatures.rs] and [block_producer_metadata_signatures.rs]
    with the key arguments of [key_params.rs], and the signing half of
    [toolkit/block-producer-metadata/primitives/src/lib.rs] and
    [toolkit/sidechain/domain/src/lib.rs].  The commands print JSON, of which an
    extrinsic of [ProducerPallets] takes its arguments. *)

From S2P Require Import Prelude Domain CandidateKeys AuthoritySelection ContractDatums TextFormats ProducerPallets CliIO CliJson CliRegister CliExample.

(** ** Keys *)

(** [k256], what else is used of [ed25519_zebra], and the host function
    [ed25519_verify].  [k256_sign] hashes its message with SHA-256. *)
Class CrossChainKeys := {
  zebra_secret_from_slice : bytes → option bytes;
  k256_secret_from_slice : bytes → option bytes;
  k256_public : bytes → bytes;
  k256_sign : bytes → bytes → bytes;
  k256_verifying_key_from_sec1 : bytes → option bytes;
  k256_signature_from_slice : bytes → option bytes;
  k256_verify : bytes → bytes → bytes → bool;
  host_ed25519_verify : bytes → bytes → bytes → bool;
}.

(** What is signed with a secret key is verified with its public key; sizes. *)
Class CrossChainKeyLaws `{!SigningKeys, !CrossChainKeys} : Prop := {
  zebra_secret_of_bytes key : length key = 32%nat → zebra_secret_from_slice key = Some key;
  k256_sign_verify key data :
    ∃ vkey signature, k256_verifying_key_from_sec1 (k256_public key) = Some vkey ∧
      k256_signature_from_slice (k256_sign key data) = Some signature ∧ k256_verify vkey data signature = true;
  k256_public_bytes key : Forall is_byte (k256_public key);
  k256_sign_bytes key data : Forall is_byte (k256_sign key data);
  host_verify_signed key data : host_ed25519_verify (ed_sign key data) data (ed_public key) = true;
  zebra_public_bytes key : Forall is_byte (ed_public key) ∧ length (ed_public key) = 32%nat;
  zebra_sign_bytes key data : Forall is_byte (ed_sign key data) ∧ length (ed_sign key data) = 64%nat;
}.

Section KeyParams.
Context `{!Hex, !SigningKeys, !CrossChainKeys}.

(** [SidechainSigningKeyParam]; [SecretKey::from_str] reads hexadecimal text. *)
Definition SidechainSigningKeyParam_from_str (s : bytes) : option bytes :=
  b ← hex_decode (trim_start_0x s); secp_secret_from_slice b.
Definition to_pub_key (key : bytes) : bytes := secp_public key.

Definition SidechainPublicKeyParam_display (key : bytes) : bytes := str "0x" ++ hex_encode key.
Definition SidechainPublicKeyParam_from_str (s : bytes) : option bytes :=
  b ← hex_decode (trim_start_0x s); secp_public_from_slice b.

Inductive Ed25519SigningKeyError := HexError | Ed25519Error.
Definition parse_zebra_signing_key (s : bytes) : result Ed25519SigningKeyError bytes :=
  let trimmed := trim_start_0x s in
  b ← ok_or (hex_decode trimmed) HexError;
  ok_or (zebra_secret_from_slice b) Ed25519Error.
Definition StakePoolSigningKeyParam_from_str (s : bytes) : result Ed25519SigningKeyError bytes := parse_zebra_signing_key s.
Definition StakeSigningKeyParam_from_str (s : bytes) : result Ed25519SigningKeyError bytes := parse_zebra_signing_key s.
Definition stake_vkey (key : bytes) : bytes := ed_public key.

Definition CrossChainSigningKeyParam_from_str (s : bytes) : option bytes :=
  b ← hex_decode s; k256_secret_from_slice b.
Definition cross_chain_vkey (key : bytes) : bytes := k256_public key.

(** [CrossChainSignature::verify] and [StakeKeySignature::verify] *)
Definition cross_chain_signature_verify (signature cross_chain_pubkey data : bytes) : bool :=
  match k256_verifying_key_from_sec1 cross_chain_pubkey, k256_signature_from_slice signature with
  | Some vkey, Some signature => k256_verify vkey data signature
  | _, _ => false
  end.
Definition stake_key_signature_verify (signature public_key message : bytes) : bool :=
  host_ed25519_verify signature message public_key.
End KeyParams.

(** ** The genesis UTxO of a running chain *)

Section Commands.
Context `{!Hex, !SerdeJson, !Scale, !SigningKeys, !CrossChainKeys}.

(** [get_genesis_utxo::execute], given what the runtime answers at the best block *)
Definition get_genesis_utxo_execute (genesis_utxo : result bytes UtxoId) : result bytes bytes :=
  genesis_utxo ← genesis_utxo;
  Ok (to_string_pretty (JObject (list_to_map [(str "genesis_utxo", JString (utxo_id_display genesis_utxo))]))).

(** ** Signatures of address associations *)

Section Association.
Context {Address : Type} (encode_address : Address → bytes) (address_json : Address → json).

Record AddressAssociationSignaturesCmd := mkAssociationCmd {
  ac_genesis_utxo : UtxoId;
  ac_partnerchain_address : Address;
  ac_signing_key : bytes;
}.
Definition association_sign (self : AddressAssociationSignaturesCmd) : bytes :=
  let msg := mkAssociationMessage (stake_vkey (ac_signing_key self)) (ac_partnerchain_address self)
               (ac_genesis_utxo self) in
  ed_sign (ac_signing_key self) (encode_association encode_address msg).
Definition association_output (self : AddressAssociationSignaturesCmd) : json :=
  JObject (list_to_map
    [(str "partnerchain_address", address_json (ac_partnerchain_address self));
     (str "signature", JString (to_hex (association_sign self)));
     (str "stake_public_key", JString (to_hex (stake_vkey (ac_signing_key self))))]).
Definition association_execute (self : AddressAssociationSignaturesCmd) : bytes :=
  to_string_pretty (association_output self).
End Association.

(** ** Signatures of metadata *)

Section Metadata.
Context {M AccountId : Type} (encode_metadata : M → bytes) (encode_account : AccountId → bytes) (key_hash : bytes → bytes).

(** [MetadataSignedMessage::sign_with_key] and [verify_signature] *)
Definition sign_with_key (self : MetadataSignedMessage M AccountId) (skey : bytes) : bytes :=
  k256_sign skey (encode_message encode_metadata encode_account self).
Definition verify_signature (self : MetadataSignedMessage M AccountId) (vkey signature : bytes) : bool :=
  cross_chain_signature_verify signature vkey (encode_message encode_metadata encode_account self).

Inductive BlockProducerMetadataSignatureCmd :=
  | Upsert (genesis_utxo : UtxoId) (metadata_file cross_chain_signing_key : bytes) (ttl : Z)
      (partner_chain_account : AccountId)
  | Delete (genesis_utxo : UtxoId) (cross_chain_signing_key : bytes) (ttl : Z) (partner_chain_account : AccountId).
Implicit Types self : BlockProducerMetadataSignatureCmd.

Definition cross_chain_signing_key self : bytes :=
  match self with Delete _ key _ _ | Upsert _ _ key _ _ => key end.
Definition partner_chain_account self : AccountId :=
  match self with Delete _ _ _ account | Upsert _ _ _ _ account => account end.
Definition cmd_genesis_utxo self : UtxoId :=
  match self with Delete utxo _ _ _ | Upsert utxo _ _ _ _ => utxo end.

(** [time_source] answers the readings of the clock, in milliseconds, by their
    order. *)
Definition cmd_valid_before self (current_time_millis : Z) : Z :=
  let ttl := match self with Delete _ _ ttl _ | Upsert _ _ _ ttl _ => ttl end in
  let now := current_time_millis / 1000 in
  wadd 64 now ttl.

(** The file is opened and then read as JSON of the type of the metadata. *)
Definition get_input (open : bytes → option bytes) (from_reader : bytes → option M) self : option (option M) :=
  match self with
  | Upsert _ metadata_file _ _ _ =>
      file ← open metadata_file;
      metadata ← from_reader file;
      Some (Some metadata)
  | Delete _ _ _ _ => Some None
  end.

Definition signed_message self (metadata : option M) (current_time_millis : Z) : MetadataSignedMessage M AccountId :=
  mkMetadataMessage (cross_chain_vkey (cross_chain_signing_key self)) metadata (cmd_genesis_utxo self)
    (cmd_valid_before self current_time_millis) (partner_chain_account self).

Definition get_output self (metadata : option M) (time_source : nat → Z) : json :=
  let encoded_metadata := encode_metadata <$> metadata in
  let message := signed_message self metadata (time_source 0%nat) in
  let signature := sign_with_key message (cross_chain_signing_key self) in
  let vkey := cross_chain_vkey (cross_chain_signing_key self) in
  JObject (list_to_map
    [(str "signature", JString (to_hex signature));
     (str "cross_chain_pub_key", JString (to_hex vkey));
     (str "cross_chain_pub_key_hash", JString (to_hex (key_hash vkey)));
     (str "encoded_metadata", match encoded_metadata with Some b => JString (to_hex b) | None => JNull end);
     (str "encoded_message", JString (to_hex (encode_message encode_metadata encode_account message)));
     (str "valid_before", JNumber (PosInt (cmd_valid_before self (time_source 1%nat))))]).

Definition metadata_execute (open : bytes → option bytes) (from_reader : bytes → option M) self
    (time_source : nat → Z) : option bytes :=
  input ← get_input open from_reader self;
  Some (to_string_pretty (get_output self input time_source)).
End Metadata.
End Commands.
Arguments AddressAssociationSignaturesCmd : clear implicits.
Arguments BlockProducerMetadataSignatureCmd : clear implicits.

(** ** From the printed text to the chain

    The arguments of an extrinsic, read from what a command printed. *)
Section Submission.
Context `{!Hex, !SerdeJson, !Scale, !SigningKeys, !CrossChainKeys}.

Definition field_of {T} (s : Serde T) (name text : bytes) : option T :=
  v ← json_from_str text;
  f ← CliJson.get name v;
  from_value s f.

Definition printed_genesis_utxo : bytes → option UtxoId := field_of serde_utxo_id (str "genesis_utxo").

Context {M AccountId Address Sys Handler : Type} `{Countable AccountId}
  `{!Currency Sys AccountId, !OnNewAssociation Address Handler}.
Context (encode_metadata : M → bytes) (encode_account : AccountId → bytes) (encode_address : Address → bytes)
  (key_hash stake_key_hash : bytes → bytes) (genesis_utxo : UtxoId).

Definition submit_upsert (HoldAmount now : Z) (account : AccountId) (metadata : M) (text : bytes) (s : gmap bytes (M * AccountId * Z)) (sys : Sys) :=
  signature ← field_of serde_byte_string (str "signature") text;
  key ← field_of serde_byte_string (str "cross_chain_pub_key") text;
  before ← field_of (serde_uint 64) (str "valid_before") text;
  Some (upsert_metadata encode_metadata encode_account key_hash cross_chain_signature_verify genesis_utxo
          HoldAmount now account metadata signature key before s sys).
Definition submit_delete (now : Z) (account : AccountId) (text : bytes) (s : gmap bytes (M * AccountId * Z)) (sys : Sys) :=
  signature ← field_of serde_byte_string (str "signature") text;
  key ← field_of serde_byte_string (str "cross_chain_pub_key") text;
  before ← field_of (serde_uint 64) (str "valid_before") text;
  Some (delete_metadata encode_metadata encode_account key_hash cross_chain_signature_verify genesis_utxo
          now account key signature before s sys).
Definition submit_association (BurnAmount : Z) (account : AccountId) (address : Address) (text : bytes) (s : AssociationState Address Sys Handler) :=
  signature ← field_of (serde_hex (decode_hex_array 64)) (str "signature") text;
  key ← field_of (serde_hex (decode_hex_array 32)) (str "stake_public_key") text;
  Some (associate_address encode_address stake_key_hash stake_key_signature_verify genesis_utxo
          BurnAmount account address signature key s).
End Submission.

(** ** Proofs *)

Section Accepted.
Context `{!Hex, !HexLaws, !SerdeJson, !SerdeJsonLaws, !Scale, !SigningKeys, !CrossChainKeys, !CrossChainKeyLaws}.
Context {M AccountId Address Sys Handler : Type} `{Countable AccountId}
  `{!Currency Sys AccountId, !CurrencyLaws Sys AccountId, !OnNewAssociation Address Handler}.
Context (encode_metadata : M → bytes) (encode_account : AccountId → bytes) (encode_address : Address → bytes)
  (address_json : Address → json) (key_hash stake_key_hash : bytes → bytes) (genesis_utxo : UtxoId).

(** Encodings and hashes are bytes. *)
Hypothesis compact_bytes : ∀ n, Forall is_byte (compact n).
Hypothesis metadata_bytes : ∀ m, Forall is_byte (encode_metadata m).
Hypothesis account_bytes : ∀ a, Forall is_byte (encode_account a).
Hypothesis key_hash_bytes : ∀ key, Forall is_byte (key_hash key).
Hypothesis address_json_ok : ∀ a, json_ok (address_json a).
Hypothesis genesis_wf : utxo_id_wf genesis_utxo.
Implicit Types (self : BlockProducerMetadataSignatureCmd AccountId) (time_source : nat → Z).

Lemma be_bytes k n : Forall is_byte (be k n).
Proof.
  revert n. induction k as [|k IH]; intros n; simpl; [done|]. apply Forall_app. split; [done|].
  repeat constructor; unfold is_byte, in_u; pose proof (Z.mod_pos_bound n 256); unfold u_bound; lia.
Qed.

Lemma object_fields_ok l :
  Forall (λ '(k, v), from_utf8 k = Some k ∧ json_ok v) l → json_ok (JObject (list_to_map l)).
Proof.
  intros Hl. constructor. intros k v Hk%elem_of_list_to_map_2. by rewrite Forall_forall in Hl; apply (Hl (k, v)).
Qed.
Lemma hex_value_ok b : Forall is_byte b → json_ok (JString (to_hex b)).
Proof. intros Hb. constructor. by apply to_hex_utf8. Qed.
Lemma field_of_text {T} (s : Serde T) name l v x :
  json_ok (JObject (list_to_map l)) → (list_to_map l : gmap bytes json) !! name = Some v →
  from_value s v = Some x → field_of s name (to_string_pretty (JObject (list_to_map l))) = Some x.
Proof. intros Hok Hv Hx. unfold field_of. rewrite json_from_str_pretty by done. simpl. by rewrite Hv; simpl. Qed.
Lemma byte_string_value b : Forall is_byte b → from_value serde_byte_string (JString (to_hex b)) = Some b.
Proof. intros Hb. simpl. unfold decode_hex_vec. by rewrite from_hex_to_hex. Qed.
Lemma array_value n b : Forall is_byte b → length b = n →
  from_value (serde_hex (decode_hex_array n)) (JString (to_hex b)) = Some b.
Proof. intros Hb Hn. simpl. unfold decode_hex_array. rewrite from_hex_to_hex by done. simpl. by rewrite decide_True. Qed.

Lemma message_bytes m : utxo_id_wf (msg_genesis_utxo m) → Forall is_byte (cross_chain_pub_key m) →
  Forall is_byte (encode_message encode_metadata encode_account m).
Proof.
  intros [Hu _] Hk. unfold encode_message, vec_encode, encode_utxo_id, le.
  assert (Forall is_byte match metadata m with Some x => 1 :: encode_metadata x | None => [0] end).
  { destruct (metadata m); repeat constructor; auto; done. }
  repeat (apply Forall_app; split); auto; apply Forall_reverse, be_bytes.
Qed.

(** What a submitter reads from the output of the two kinds of commands. *)
Lemma get_output_fields self metadata time_source :
  utxo_id_wf (cmd_genesis_utxo self) →
  (∀ i, in_u 64 (cmd_valid_before self (time_source i))) →
  let text := to_string_pretty (get_output encode_metadata encode_account key_hash self metadata time_source) in
  field_of serde_byte_string (str "signature") text =
    Some (sign_with_key encode_metadata encode_account (signed_message self metadata (time_source 0%nat))
            (cross_chain_signing_key self)) ∧
  field_of serde_byte_string (str "cross_chain_pub_key") text = Some (cross_chain_vkey (cross_chain_signing_key self)) ∧
  field_of (serde_uint 64) (str "valid_before") text = Some (cmd_valid_before self (time_source 1%nat)).
Proof.
  intros Hu Hw text. subst text. unfold get_output. cbv zeta. set (fields := cons (_, _) _).
  assert (json_ok (JObject (list_to_map fields))) as Hok.
  { apply object_fields_ok. subst fields. repeat constructor; try (by apply to_hex_utf8, k256_sign_bytes);
      try (by apply to_hex_utf8, k256_public_bytes); try (by apply to_hex_utf8, key_hash_bytes); try (by apply Hw).
    - destruct metadata; simpl; [by apply hex_value_ok|constructor].
    - apply to_hex_utf8, message_bytes; [done|apply k256_public_bytes]. }
  split_and!; (eapply field_of_text; [exact Hok|reflexivity|]).
  - apply byte_string_value, k256_sign_bytes.
  - apply byte_string_value, k256_public_bytes.
  - by apply try_into_Some.
Qed.

Lemma association_output_fields (cmd : AddressAssociationSignaturesCmd Address) :
  let text := association_execute encode_address address_json cmd in
  field_of (serde_hex (decode_hex_array 64)) (str "signature") text = Some (association_sign encode_address cmd) ∧
  field_of (serde_hex (decode_hex_array 32)) (str "stake_public_key") text = Some (stake_vkey (ac_signing_key cmd)).
Proof.
  intros text. subst text. unfold association_execute, association_output. set (fields := cons (_, _) _).
  assert (json_ok (JObject (list_to_map fields))) as Hok.
  { apply object_fields_ok. subst fields. repeat constructor; auto.
    - apply to_hex_utf8, zebra_sign_bytes.
    - apply to_hex_utf8, zebra_public_bytes. }
  split; (eapply field_of_text; [exact Hok|reflexivity|]); apply array_value; apply zebra_sign_bytes || apply zebra_public_bytes.
Qed.

Lemma signed_verifies (message : MetadataSignedMessage M AccountId) key :
  verify_signature encode_metadata encode_account message (cross_chain_vkey key)
    (sign_with_key encode_metadata encode_account message key) = true.
Proof.
  unfold verify_signature, sign_with_key, cross_chain_signature_verify.
  destruct (k256_sign_verify key (encode_message encode_metadata encode_account message)) as (v & sg & Hv & Hsg & Hok).
  unfold cross_chain_vkey. by rewrite Hv, Hsg.
Qed.

(** The readings of the clock fall into the same second, and the end of the
    validity is a 64-bit number. *)
Definition steady (ttl : Z) time_source : Prop :=
  0 ≤ time_source 0%nat ∧ time_source 0%nat / 1000 = time_source 1%nat / 1000 ∧
  in_u 64 (time_source 0%nat / 1000 + ttl).
Lemma steady_valid_before self ttl time_source i :
  (∀ t, cmd_valid_before self t = wadd 64 (t / 1000) ttl) → steady ttl time_source → (i < 2)%nat →
  cmd_valid_before self (time_source i) = time_source 0%nat / 1000 + ttl.
Proof.
  intros Hself (_ & Heq & Hw) Hi. rewrite Hself.
  destruct i as [|[|i]]; [|rewrite <-Heq|lia]; by apply wadd_exact.
Qed.

Lemma get_output_steady self ttl metadata time_source :
  cmd_genesis_utxo self = genesis_utxo → (∀ t, cmd_valid_before self t = wadd 64 (t / 1000) ttl) →
  steady ttl time_source →
  let text := to_string_pretty (get_output encode_metadata encode_account key_hash self metadata time_source) in
  let before := time_source 0%nat / 1000 + ttl in
  let key := cross_chain_signing_key self in
  ∃ signature,
    field_of serde_byte_string (str "signature") text = Some signature ∧
    field_of serde_byte_string (str "cross_chain_pub_key") text = Some (cross_chain_vkey key) ∧
    field_of (serde_uint 64) (str "valid_before") text = Some before ∧
    cross_chain_signature_verify signature (cross_chain_vkey key) (encode_message encode_metadata encode_account
      (mkMetadataMessage (cross_chain_vkey key) metadata genesis_utxo before (partner_chain_account self))) = true.
Proof.
  intros Hu Hself Hsteady text before key. eexists. subst text.
  pose proof (steady_valid_before self ttl time_source 0 Hself Hsteady ltac:(lia)) as Hfirst.
  pose proof (steady_valid_before self ttl time_source 1 Hself Hsteady ltac:(lia)) as Hsecond.
  destruct (get_output_fields self metadata time_source) as (Hs & Hk & Hb); [by rewrite Hu|by intros i; rewrite Hself; apply wrap_in_u|].
  rewrite Hs, Hk, Hb, Hsecond. split_and!; [done..|].
  rewrite <-(signed_verifies (signed_message self metadata (time_source 0%nat)) key). unfold verify_signature. do 2 f_equal.
  unfold signed_message. by rewrite Hu, Hfirst.
Qed.

(** Metadata stored with one command and removed with the other. *)
Lemma metadata_commands_roundtrip (file content key : bytes) (m : M) (open : bytes → option bytes)
    (from_reader : bytes → option M) (account : AccountId)
    (ttl ttl' HoldAmount now now' : Z) (clock clock' : nat → Z) (s : gmap bytes (M * AccountId * Z)) (sys sys1 : Sys) :
  open file = Some content → from_reader content = Some m →
  steady ttl clock → steady ttl' clock' →
  now ≤ clock 0%nat / 1000 + ttl → now' ≤ clock' 0%nat / 1000 + ttl' →
  s !! key_hash (cross_chain_vkey key) = None → 0 ≤ HoldAmount → 0 ≤ on_hold account sys →
  hold account HoldAmount sys = Some sys1 →
  ∃ text text' s1 sys2,
    metadata_execute encode_metadata encode_account key_hash open from_reader
      (Upsert genesis_utxo file key ttl account) clock = Some text ∧
    submit_upsert encode_metadata encode_account key_hash genesis_utxo HoldAmount now account m text s sys
      = Some (Ok (s1, sys1)) ∧
    get_metadata_for key_hash (cross_chain_vkey key) s1 = Some m ∧
    metadata_execute encode_metadata encode_account key_hash open from_reader
      (Delete genesis_utxo key ttl' account) clock' = Some text' ∧
    submit_delete encode_metadata encode_account key_hash genesis_utxo now' account text' s1 sys1
      = Some (Ok (s, sys2)) ∧
    ∀ a, on_hold a sys2 = on_hold a sys.
Proof.
  intros Hopen Hread Hst Hst' Hnow Hnow' Hs Hamount Hheld Hhold.
  destruct (get_output_steady (Upsert genesis_utxo file key ttl account) ttl (Some m) clock) as (sg & Hf1 & Hf2 & Hf3 & Hv); [done..|].
  destruct (get_output_steady (Delete genesis_utxo key ttl' account) ttl' None clock') as (sg' & Hg1 & Hg2 & Hg3 & Hv'); [done..|].
  cbn [cross_chain_signing_key partner_chain_account] in Hf2, Hv, Hg2, Hv'.
  pose proof (λ b, hold_spec account HoldAmount sys sys1 b Hamount Hhold) as Hh.
  destruct (release_succeeds account HoldAmount sys1) as [sys2 Hrel]; [rewrite Hh, decide_True by done; lia|].
  do 2 eexists. exists (<[key_hash (cross_chain_vkey key) := (m, account, HoldAmount)]> s), sys2. split_and!.
  - unfold metadata_execute, get_input. rewrite Hopen; simpl. by rewrite Hread.
  - unfold submit_upsert. rewrite Hf1; simpl. rewrite Hf2; simpl. rewrite Hf3; simpl. f_equal.
    unfold upsert_metadata, ensure. rewrite (proj2 (Z.leb_le _ _) Hnow), Hv. simpl. rewrite Hs.
    unfold hold_deposit. by rewrite Hhold.
  - unfold get_metadata_for. by rewrite lookup_insert_eq.
  - done.
  - unfold submit_delete. rewrite Hg1; simpl. rewrite Hg2; simpl. rewrite Hg3; simpl. f_equal.
    unfold delete_metadata, ensure. rewrite (proj2 (Z.leb_le _ _) Hnow'), Hv'. simpl. rewrite lookup_insert_eq.
    rewrite bool_decide_eq_true_2 by done. simpl. unfold release_deposit. rewrite Hrel. simpl.
    by rewrite delete_insert_id.
  - intros a. rewrite (release_spec account HoldAmount sys1 sys2 a Hamount Hrel), !Hh.
    repeat case_decide; simplify_eq; lia.
Qed.

Lemma association_command_accepted prefix (key : bytes) (address : Address) (account : AccountId) (BurnAmount : Z)
    (st : AssociationState Address Sys Handler) sys' :
  Forall is_byte key → length key = 32%nat →
  AddressAssociations st !! stake_key_hash (stake_vkey key) = None →
  burn_from account BurnAmount (assoc_sys st) = Some sys' →
  ∃ signing_key st', StakeSigningKeyParam_from_str (hex_text prefix key) = Ok signing_key ∧
    submit_association encode_address stake_key_hash genesis_utxo BurnAmount account address
      (association_execute encode_address address_json (mkAssociationCmd genesis_utxo address signing_key)) st
      = Some (Ok st') ∧
    get_partner_chain_address_for stake_key_hash (stake_vkey key) st' = Some address ∧ assoc_sys st' = sys'.
Proof.
  intros Hkey Hlen Hfree Hburn. exists key. eexists. split_and!.
  - unfold StakeSigningKeyParam_from_str, parse_zebra_signing_key. rewrite trim_hex_text by done.
    rewrite hex_decode_encode by done. simpl. by rewrite zebra_secret_of_bytes.
  - destruct (association_output_fields (mkAssociationCmd genesis_utxo address key)) as [Hs Hk].
    unfold submit_association. rewrite Hs; simpl. rewrite Hk; simpl. f_equal.
    unfold associate_address, ensure. rewrite bool_decide_eq_true_2 by done. simpl. rewrite Hburn. simpl.
    unfold stake_key_signature_verify, association_sign, stake_vkey. simpl. by rewrite host_verify_signed.
  - unfold get_partner_chain_address_for. cbn [AddressAssociations]. by rewrite lookup_insert_eq.
  - done.
Qed.

Lemma genesis_utxo_printed : utxo_index genesis_utxo < 2 ^ 15 →
  ∃ text, get_genesis_utxo_execute (Ok genesis_utxo) = Ok text ∧ printed_genesis_utxo text = Some genesis_utxo.
Proof.
  intros Hi. eexists. split; [done|]. destruct (serde_utxo_id_ok genesis_utxo genesis_wf Hi) as (j & Hj & Hok & Hread).
  simpl in Hj. injection Hj as <-. unfold printed_genesis_utxo.
  eapply field_of_text; [|reflexivity|exact Hread]. apply object_fields_ok. constructor; [by split|constructor].
Qed.

Lemma le_inj k x y : 0 ≤ x < 256 ^ Z.of_nat k → 0 ≤ y < 256 ^ Z.of_nat k → le k x = le k y → x = y.
Proof.
  intros Hx Hy Heq%(inj reverse). by rewrite <-(from_be_be k x Hx), <-(from_be_be k y Hy), Heq.
Qed.

(** A clock that ticks between its two readings: the message that the chain builds
    from the printed arguments is not the one that was signed. *)
Lemma ticking_clock self metadata (t0 t1 : Z) :
  cmd_valid_before self t0 ≠ cmd_valid_before self t1 →
  encode_message encode_metadata encode_account (signed_message self metadata t1)
    ≠ encode_message encode_metadata encode_account (signed_message self metadata t0).
Proof.
  assert (∀ t, 0 ≤ cmd_valid_before self t < 256 ^ Z.of_nat 8) as Hw by (intros t; by apply (wrap_in_u 64)).
  intros Hne Heq. apply Hne. unfold encode_message, signed_message in Heq.
  cbn [cross_chain_pub_key ProducerPallets.metadata msg_genesis_utxo valid_before owner] in Heq.
  repeat apply (inj (app _)) in Heq. apply (inj (λ b, b ++ _)) in Heq. symmetry. by apply (le_inj 8).
Qed.

(** C26. The commands that sign outside of the chain and the extrinsics agree.
    The genesis UTxO that a node prints is the one that the commands take as their
    argument.  Metadata signed with the command [upsert] for an account is accepted
    when this account submits what the command printed before the time it printed,
    and is then the metadata of the key; what the command [delete] prints removes
    it again, and gives the deposit back.  The signature of an address association
    is accepted with a stake key given with or without the prefix [0x], and
    associates the address.  All this needs the readings of the clock to fall into
    the same second: the command reads it once for the message it signs and again
    for the time it prints, and if the second has changed the chain checks the
    signature of a message that was not signed. *)
Theorem signature_commands_accepted (file content key stake_key : bytes) (m : M) (open : bytes → option bytes)
    (from_reader : bytes → option M) (account : AccountId) (ttl ttl' HoldAmount BurnAmount now now' : Z)
    (clock clock' : nat → Z) (s : gmap bytes (M * AccountId * Z)) (sys sys1 sys' : Sys) prefix (address : Address)
    (st : AssociationState Address Sys Handler) :
  utxo_index genesis_utxo < 2 ^ 15 →
  open file = Some content → from_reader content = Some m →
  steady ttl clock → steady ttl' clock' →
  now ≤ clock 0%nat / 1000 + ttl → now' ≤ clock' 0%nat / 1000 + ttl' →
  s !! key_hash (cross_chain_vkey key) = None → 0 ≤ HoldAmount → 0 ≤ on_hold account sys →
  hold account HoldAmount sys = Some sys1 →
  Forall is_byte stake_key → length stake_key = 32%nat →
  AddressAssociations st !! stake_key_hash (stake_vkey stake_key) = None →
  burn_from account BurnAmount (assoc_sys st) = Some sys' →
  (∃ text, get_genesis_utxo_execute (Ok genesis_utxo) = Ok text ∧ printed_genesis_utxo text = Some genesis_utxo) ∧
  (∃ text text' s1 sys2,
    metadata_execute encode_metadata encode_account key_hash open from_reader
      (Upsert genesis_utxo file key ttl account) clock = Some text ∧
    submit_upsert encode_metadata encode_account key_hash genesis_utxo HoldAmount now account m text s sys
      = Some (Ok (s1, sys1)) ∧
    get_metadata_for key_hash (cross_chain_vkey key) s1 = Some m ∧
    metadata_execute encode_metadata encode_account key_hash open from_reader
      (Delete genesis_utxo key ttl' account) clock' = Some text' ∧
    submit_delete encode_metadata encode_account key_hash genesis_utxo now' account text' s1 sys1
      = Some (Ok (s, sys2)) ∧
    ∀ a, on_hold a sys2 = on_hold a sys) ∧
  (∃ signing_key st', StakeSigningKeyParam_from_str (hex_text prefix stake_key) = Ok signing_key ∧
    submit_association encode_address stake_key_hash genesis_utxo BurnAmount account address
      (association_execute encode_address address_json (mkAssociationCmd genesis_utxo address signing_key)) st
      = Some (Ok st') ∧
    get_partner_chain_address_for stake_key_hash (stake_vkey stake_key) st' = Some address ∧ assoc_sys st' = sys') ∧
  ∀ (self : BlockProducerMetadataSignatureCmd AccountId) metadata t0 t1,
    cmd_valid_before self t0 ≠ cmd_valid_before self t1 →
    encode_message encode_metadata encode_account (signed_message self metadata t1)
      ≠ encode_message encode_metadata encode_account (signed_message self metadata t0).
Proof.
  intros Hi Hopen Hread Hst Hst' Hnow Hnow' Hfree Hamount Hheld Hhold Hkey Hlen Hassoc Hburn. split_and!.
  - by apply genesis_utxo_printed.
  - by eapply metadata_commands_roundtrip.
  - by apply association_command_accepted.
  - apply ticking_clock.
Qed.
End Accepted.

(** ** An example *)

#[local] Existing Instances plain_hex plain_hex_laws example_json example_json_laws cli_signing_keys bank_currency bank_laws
  example_handler.
#[local] Instance example_cross_keys : CrossChainKeys := {|
  zebra_secret_from_slice := has_length 32;
  k256_secret_from_slice := has_length 32;
  k256_public k := norm 33 (2 :: k);
  k256_sign k data := norm 64 (zsum data :: norm 33 (2 :: k));
  k256_verifying_key_from_sec1 := has_length 33;
  k256_signature_from_slice := has_length 64;
  k256_verify vkey data signature := bool_decide (signature = norm 64 (zsum data :: vkey));
  host_ed25519_verify signature data vkey := bool_decide (signature = norm 64 (zsum data :: vkey));
|}.
#[local] Instance example_cross_key_laws : CrossChainKeyLaws.
Proof.
  split; intros key.
  - intros Hk. simpl. unfold has_length. by rewrite decide_True.
  - intros data. do 2 eexists. simpl k256_verifying_key_from_sec1. simpl k256_signature_from_slice. unfold has_length.
    rewrite !decide_True by apply norm_length. split_and!; [done..|]. by apply bool_decide_eq_true_2.
  - apply norm_bytes.
  - intros data. apply (norm_bytes 64).
  - intros data. by apply bool_decide_eq_true_2.
  - split; [apply (norm_bytes 32)|apply (norm_length 32)].
  - intros data. split; [apply (norm_bytes 64)|apply (norm_length 64)].
Qed.
#[local] Instance byte_scale : Scale := {|
  compact n := be 4 n; decode_compact b := None; keys_encode k := []; keys_decode b := None;
|}.
Definition example_genesis : UtxoId := mkUtxoId (replicate 32 7) 1.
Definition example_address_json (a : Z) : json := JString (to_hex (be 4 a)).

Lemma byte_scale_bytes n : Forall is_byte (compact n).
Proof. apply (be_bytes 4). Qed.
Lemma example_address_ok a : json_ok (example_address_json a).
Proof. apply hex_value_ok, be_bytes. Qed.
Lemma example_genesis_wf : utxo_id_wf example_genesis.
Proof. split_and!; [by apply Forall_replicate|done..]. Qed.

Lemma example_steady : steady 3600 (λ _, 1500).
Proof. by split_and!. Qed.
Lemma example_steady' : steady 60 (λ _, 61000).
Proof. by split_and!. Qed.

(** Account 7 stores the metadata 5 for a deposit of 30 and removes it. *)
Lemma signature_commands_accepted_witness :
  ∃ text s1 sys1,
    metadata_execute (be 4) (be 4) (norm 28) (λ _, Some [5]) (λ b : bytes, head b)
      (Upsert example_genesis (str "metadata.json") (replicate 32 1) 3600 7) (λ _, 1500) = Some text ∧
    submit_upsert (be 4) (be 4) (norm 28) example_genesis 30 100 7 5 text ∅ (mkBank ∅ 1000) = Some (Ok (s1, sys1)) ∧
    get_metadata_for (norm 28) (cross_chain_vkey (replicate 32 1)) s1 = Some 5.
Proof.
  destruct (signature_commands_accepted (Handler:=list Z) (be 4) (be 4) (be 4) example_address_json (norm 28) (norm 28) example_genesis
    byte_scale_bytes (be_bytes 4) (be_bytes 4) (norm_bytes 28) example_address_ok example_genesis_wf
    (str "metadata.json") [5] (replicate 32 1) (replicate 32 3) 5 (λ _, Some [5]) (λ b, head b) 7 3600 60 30 10 100 101
    (λ _, 1500) (λ _, 61000) ∅ (mkBank ∅ 1000) (mkBank {[ 7 := 30 ]} 1000) (mkBank ∅ 990) true 42
    (mkAssociations ∅ (mkBank ∅ 1000) [])) as (_ & (text & _ & s1 & _ & Htext & Hsubmit & Hget & _) & _).
  - done.
  - done.
  - done.
  - exact example_steady.
  - exact example_steady'.
  - done.
  - done.
  - apply lookup_empty.
  - done.
  - done.
  - vm_compute. reflexivity.
  - by apply Forall_replicate.
  - done.
  - apply lookup_empty.
  - vm_compute. reflexivity.
  - exists text, s1, (mkBank {[ 7 := 30 ]} 1000). split_and!; [exact Htext|exact Hsubmit|exact Hget].
Defined.
