(* ===== verification/CommitteeQuery.v ===== *)
(** * Queries about committees and candidates

    Models [toolkit/committee-selection/query/src]: the committee of an epoch, the
    binary search for a block of an epoch ([block_search.rs]), the status of
    registrations ([get_registrations.rs]) and the Ariadne parameters ([lib.rs]); the
    RPC of [toolkit/committee-selection/rpc/src/lib.rs] that serves them; and the
    status of the chain served by [toolkit/sidechain/rpc/src/lib.rs].

    The Substrate client is the record [Client]: the header backend and the runtime
    APIs at a block, as the node sees them during one request.  Its errors are the
    class [ClientErrors].  A [while] loop of the search takes fuel; [None] is an
    exhausted fuel, and the theorems show that it does not happen.  The serialization
    of the responses and the legacy feature [legacy-slotapi-compat] are left out. *)

From S2P Require Import Prelude Domain MainchainEpoch CommitteePallet PlutusData AuthoritySelection.
From S2P Require Import ContractDatums TextFormats CliIO.

(** ** The client *)

Record SidechainStatus := mkSidechainStatus {
  status_epoch : Z;
  status_slot : Z;
  slots_per_epoch : Z;
}.

Class ClientErrors (ApiError BlockchainError : Type) := {
  unknown_block : bytes → ApiError;
  application : bytes → ApiError;
  from_blockchain : BlockchainError → ApiError;
  debug_api : ApiError → bytes;
  debug_blockchain : BlockchainError → bytes;
}.

Record Client (Hash A K ApiError BlockchainError : Type) := mkClient {
  genesis_hash : Hash;
  best_hash : Hash;
  best_number : Z;
  block_hash : Z → result BlockchainError (option Hash);
  get_sidechain_status : Hash → result ApiError SidechainStatus;
  management_api_version : Hash → result ApiError (option Z);
  get_current_committee : Hash → result ApiError (Z * list (CommitteeMember A K));
  get_current_committee_before_version_2 : Hash → result ApiError (Z * list (CommitteeMember A K));
  get_next_committee : Hash → result ApiError (option (Z * list (CommitteeMember A K)));
  get_next_committee_before_version_2 : Hash → result ApiError (option (Z * list (CommitteeMember A K)));
  get_main_chain_scripts : Hash → result ApiError MainChainScripts;
  validate_registered_candidate_data :
    Hash → bytes → RegistrationData → result ApiError (option RegistrationDataError);
  validate_stake_at : Hash → option Z → result ApiError (option StakeError);
  validate_permissioned_candidate_data_at :
    Hash → Domain.PermissionedCandidateData → result ApiError (option PermissionedCandidateDataError);
  genesis_utxo_at : Hash → result ApiError UtxoId;
  get_epoch_duration_millis : Hash → result ApiError Z;
}.
Arguments genesis_hash {_ _ _ _ _} _.
Arguments best_hash {_ _ _ _ _} _.
Arguments best_number {_ _ _ _ _} _.
Arguments block_hash {_ _ _ _ _} _ _.
Arguments get_sidechain_status {_ _ _ _ _} _ _.
Arguments management_api_version {_ _ _ _ _} _ _.
Arguments get_current_committee {_ _ _ _ _} _ _.
Arguments get_current_committee_before_version_2 {_ _ _ _ _} _ _.
Arguments get_next_committee {_ _ _ _ _} _ _.
Arguments get_next_committee_before_version_2 {_ _ _ _ _} _ _.
Arguments get_main_chain_scripts {_ _ _ _ _} _ _.
Arguments validate_registered_candidate_data {_ _ _ _ _} _ _ _ _.
Arguments validate_stake_at {_ _ _ _ _} _ _ _.
Arguments validate_permissioned_candidate_data_at {_ _ _ _ _} _ _ _.
Arguments genesis_utxo_at {_ _ _ _ _} _ _.
Arguments get_epoch_duration_millis {_ _ _ _ _} _ _.

(** ** Responses *)

Record ResponseCommitteeMember := mkResponseMember { rcm_sidechain_pub_key : bytes }.
Record GetCommitteeResponse := mkCommitteeResponse {
  sidechain_epoch : Z;
  response_committee : list ResponseCommitteeMember;
}.

Inductive RegistrationError :=
  | RegistrationStakeError (e : StakeError)
  | InvalidRegistrationData (e : RegistrationDataError).

Record CandidateRegistrationEntry := mkEntry {
  entry_sidechain_pub_key : bytes;
  entry_sidechain_account_id : bytes;
  entry_mainchain_pub_key : bytes;
  entry_cross_chain_pub_key : bytes;
  entry_keys : gmap bytes bytes;
  entry_sidechain_signature : bytes;
  entry_mainchain_signature : bytes;
  entry_cross_chain_signature : bytes;
  entry_utxo : UtxoInfo;
  entry_stake_delegation : option Z;
  is_valid : bool;
  invalid_reasons : option RegistrationError;
}.
Abbreviation GetRegistrationsResponseMap := (gmap bytes (list CandidateRegistrationEntry)).

Record PermissionedCandidateData := mkPermissionedData {
  pcd_sidechain_public_key : bytes;
  pcd_keys : gmap bytes bytes;
  pcd_is_valid : bool;
  pcd_invalid_reasons : option PermissionedCandidateDataError;
}.
Record AriadneParameters := mkAriadneResponse {
  response_d_parameter : DParameter;
  response_permissioned_candidates : option (list PermissionedCandidateData);
  candidate_registrations : GetRegistrationsResponseMap;
}.

(** [collect] of results: the first error wins. *)
Fixpoint collect_results {E B C} (f : B → result E C) (l : list B) : result E (list C) :=
  match l with
  | [] => Ok []
  | x :: l => y ← f x; l ← collect_results f l; Ok (y :: l)
  end.

Section Responses.
Context {A K : Type} `{!Hex} (as_ref : A → bytes).
(** [MultiSigner::into_account] and [to_ss58check] *)
Context (account_ss58 : bytes → bytes).

Definition ResponseCommitteeMember_new (id : A) : ResponseCommitteeMember :=
  mkResponseMember (to_hex (as_ref id)).
Definition GetCommitteeResponse_new (sidechain_epoch : Z) (committee : list (CommitteeMember A K)) :
    GetCommitteeResponse :=
  mkCommitteeResponse sidechain_epoch
    ((λ member, ResponseCommitteeMember_new (authority_id member)) <$> committee).
Definition GetCommitteeResponse_new_legacy (sidechain_epoch : Z) (committee : list A) : GetCommitteeResponse :=
  mkCommitteeResponse sidechain_epoch (ResponseCommitteeMember_new <$> committee).

(** A later key with the same name replaces an earlier one. *)
Definition keys_to_map (keys : CandidateKeys) : gmap bytes bytes :=
  foldl (λ m key, <[default (str "<invalid>") (from_utf8 (key_id key)) := key_bytes key]> m) ∅ keys.

Definition sidechain_account_ss58 (sidechain_pub_key : bytes) : result bytes bytes :=
  key ← ok_or (has_length 33 sidechain_pub_key) sidechain_pub_key;
  Ok (account_ss58 key).

Definition CandidateRegistrationEntry_new (registration_data : RegistrationData) (stake_pool_public_key : bytes)
    (stake_delegation : option Z) (invalid_reasons : option RegistrationDataError) : CandidateRegistrationEntry :=
  mkEntry (to_hex (sidechain_pub_key registration_data))
    (default (str "Invalid Sidechain Public Key. Could not decode...")
       (ok (sidechain_account_ss58 (sidechain_pub_key registration_data))))
    (to_hex stake_pool_public_key)
    (to_hex (cross_chain_pub_key registration_data))
    (keys_to_map (registration_keys registration_data))
    (to_hex (sidechain_signature registration_data))
    (to_hex (mainchain_signature registration_data))
    (to_hex (cross_chain_signature registration_data))
    (utxo_info registration_data)
    stake_delegation
    (bool_decide (invalid_reasons = None))
    (InvalidRegistrationData <$> invalid_reasons).

Definition PermissionedCandidateData_new (data : Domain.PermissionedCandidateData)
    (invalid_reasons : option PermissionedCandidateDataError) : PermissionedCandidateData :=
  mkPermissionedData (sidechain_public_key data) (keys_to_map (permissioned_keys data))
    (bool_decide (invalid_reasons = None)) invalid_reasons.
End Responses.

(** ** Queries *)

Section Queries.
Context {Hash A K ApiError BlockchainError SourceError : Type} `{!Hex, !ClientErrors ApiError BlockchainError}.
Context (as_ref : A → bytes) (account_ss58 : bytes → bytes) (debug_source : SourceError → bytes).
Context (client : Client Hash A K ApiError BlockchainError).
Context (candidate_data_source : AuthoritySelectionDataSource SourceError).

Abbreviation QueryResult := (result bytes).

Definition get_epoch_of_block (block_number : Z) : result ApiError Z :=
  found ← map_err from_blockchain (block_hash client block_number);
  block_hash ← ok_or found
    (unknown_block (str "Block Number " ++ display_uint block_number ++ str " does not exist"));
  sidechain_status ← get_sidechain_status client block_hash;
  Ok (status_epoch sidechain_status).

(** The loop of [find_any_block_in_epoch]. *)
Fixpoint search_loop (fuel : nat) (epoch left right : Z) : option (outcome (result ApiError Hash)) :=
  match fuel with
  | O => None
  | S fuel =>
      if left <=? right then
        let middle := wadd 32 left right / 2 in
        match get_epoch_of_block middle with
        | Err e => Some (Ret (Err e))
        | Ok block_epoch =>
            match block_epoch ?= epoch with
            | Lt => search_loop fuel epoch (wadd 32 middle 1) right
            | Gt => search_loop fuel epoch left (wsub 32 middle 1)
            | Eq =>
                Some (match block_hash client middle with
                      | Err e => Ret (Err (from_blockchain e))
                      | Ok None => Panic
                      | Ok (Some hash) => Ret (Ok hash)
                      end)
            end
        end
      else Some (Ret (Err (application (str "Could not find block"))))
  end.

(** Each round halves the interval; block numbers have 32 bits. *)
Definition SEARCH_ROUNDS : nat := 33.
Definition find_any_block_in_epoch (epoch : Z) : option (outcome (result ApiError Hash)) :=
  search_loop SEARCH_ROUNDS epoch 1 (best_number client).

Definition validator_management_api_version (block : Hash) : QueryResult Z :=
  version ← map_err debug_api (management_api_version client block);
  Ok (default 1 version).

Definition get_current_committee_versioned (block : Hash) : QueryResult GetCommitteeResponse :=
  version ← validator_management_api_version block;
  if version <? 2 then
    '(epoch, authorities) ← map_err debug_api (get_current_committee_before_version_2 client block);
    Ok (GetCommitteeResponse_new_legacy as_ref epoch (authority_id <$> authorities))
  else
    '(epoch, authority_data) ← map_err debug_api (get_current_committee client block);
    Ok (GetCommitteeResponse_new as_ref epoch authority_data).

Definition get_next_committee_versioned (block : Hash) : QueryResult (option GetCommitteeResponse) :=
  version ← validator_management_api_version block;
  if version <? 2 then
    next ← map_err debug_api (get_next_committee_before_version_2 client block);
    Ok (option_map (λ '(epoch, authorities),
          GetCommitteeResponse_new_legacy as_ref epoch (authority_id <$> authorities)) next)
  else
    next ← map_err debug_api (get_next_committee client block);
    Ok (option_map (λ '(epoch, authority_data), GetCommitteeResponse_new as_ref epoch authority_data) next).

(** [ScEpochNumber::next] *)
Definition next_epoch (epoch : Z) : Z := wadd 64 epoch 1.

Definition first_epoch : QueryResult Z :=
  found ← map_err (λ err, str "Node is not in archive mode, not able to fetch first block: " ++ debug_blockchain err)
    (block_hash client 1);
  second_block ← ok_or found (str "Only the Genesis Block exists at the moment!");
  status ← map_err debug_api (get_sidechain_status client second_block);
  Ok (status_epoch status).

Definition get_epoch_committee (epoch_number : Z) : option (outcome (QueryResult GetCommitteeResponse)) :=
  if epoch_number =? 0 then
    Some (Ret (genesis_committee ← get_current_committee_versioned (genesis_hash client);
               Ok (mkCommitteeResponse 0 (response_committee genesis_committee))))
  else
    match first_epoch with
    | Err e => Some (Ret (Err e))
    | Ok first_epoch =>
        if epoch_number <? first_epoch then
          Some (Ret (Err (str "Epoch " ++ display_uint epoch_number ++ str " is earlier than the Initial Epoch!")))
        else
          match get_epoch_of_block (best_number client) with
          | Err e => Some (Ret (Err (debug_api e)))
          | Ok epoch_of_latest_block =>
              if next_epoch epoch_of_latest_block <? epoch_number then
                Some (Ret (Err (str "Committee is unknown for epoch " ++ display_uint epoch_number)))
              else if epoch_number =? next_epoch epoch_of_latest_block then
                Some (Ret (next ← get_next_committee_versioned (best_hash client);
                           ok_or next (str "Committee is unknown for the next epoch: " ++ display_uint epoch_number)))
              else
                found ← find_any_block_in_epoch epoch_number;
                Some (found ← found;
                      Ret (block_hash ← map_err debug_api found;
                           get_current_committee_versioned block_hash))
          end
    end.

(** ** Registrations *)

Definition entry_key_le (a b : CandidateRegistrationEntry) : Prop :=
  ordering_key_le (ordering_key (entry_utxo a)) (ordering_key (entry_utxo b)) = true.
#[global] Instance entry_key_le_dec : RelDecision entry_key_le := λ a b, decide (_ = _).

Fixpoint rposition {B} (p : B → bool) (l : list B) : option nat :=
  match l with
  | [] => None
  | x :: l =>
      match rposition p l with
      | Some i => Some (S i)
      | None => if p x then Some O else None
      end
  end.

(** The entry marked with the error of the stake. *)
Definition stake_invalid (err : StakeError) (e : CandidateRegistrationEntry) : CandidateRegistrationEntry :=
  mkEntry (entry_sidechain_pub_key e) (entry_sidechain_account_id e) (entry_mainchain_pub_key e)
    (entry_cross_chain_pub_key e) (entry_keys e) (entry_sidechain_signature e) (entry_mainchain_signature e)
    (entry_cross_chain_signature e) (entry_utxo e) (entry_stake_delegation e)
    false (Some (RegistrationStakeError err)).

Section ResponseMap.
Context (validate_registration_data : bytes → RegistrationData → result ApiError (option RegistrationDataError)).
Context (validate_stake : option Z → result ApiError (option StakeError)).

(** The entries of one candidate, as the body of the loop computes them. *)
Definition candidate_entries (candidate : CandidateRegistrations) :
    result ApiError (list CandidateRegistrationEntry) :=
  let mainchain_pub_key := stake_pool_public_key candidate in
  registration_entries ← collect_results (λ registration_data,
    registration_data_validation_result ← validate_registration_data mainchain_pub_key registration_data;
    Ok (CandidateRegistrationEntry_new account_ss58 registration_data mainchain_pub_key
          (stake_delegation candidate) registration_data_validation_result)) (registrations candidate);
  let registration_entries := merge_sort entry_key_le registration_entries in
  let latest_valid_or_zero := default O (rposition is_valid registration_entries) in
  let registration_entries := drop latest_valid_or_zero registration_entries in
  stake_error ← validate_stake (stake_delegation candidate);
  Ok (match stake_error, registration_entries with
      | Some err, first :: rest => (if is_valid first then stake_invalid err first else first) :: rest
      | _, _ => registration_entries
      end).

Fixpoint insert_candidates (candidates : list CandidateRegistrations) (map : GetRegistrationsResponseMap) :
    result ApiError GetRegistrationsResponseMap :=
  match candidates with
  | [] => Ok map
  | candidate :: candidates =>
      registration_entries ← candidate_entries candidate;
      insert_candidates candidates
        (<[to_hex (stake_pool_public_key candidate) := registration_entries]> map)
  end.

Definition get_registrations_response_map (candidates : list CandidateRegistrations) :
    result ApiError GetRegistrationsResponseMap :=
  insert_candidates candidates ∅.
End ResponseMap.

Definition registrations_to_rpc_response (candidate_registrations : list CandidateRegistrations) :
    QueryResult GetRegistrationsResponseMap :=
  let best_block := best_hash client in
  map_err debug_api
    (get_registrations_response_map (validate_registered_candidate_data client best_block)
       (validate_stake_at client best_block) candidate_registrations).

Definition get_candidates_for_epoch (mainchain_epoch : Z) (committee_candidate_address : bytes) :
    QueryResult (list CandidateRegistrations) :=
  map_err debug_source (get_candidates candidate_data_source mainchain_epoch committee_candidate_address).

Definition candidates_registrations_for_epoch (mc_epoch_number : Z) (committee_candidate_address : bytes) :
    QueryResult GetRegistrationsResponseMap :=
  candidates ← get_candidates_for_epoch mc_epoch_number committee_candidate_address;
  registrations_to_rpc_response candidates.

Definition get_registrations (mc_epoch_number : Z) (mc_public_key : bytes) :
    QueryResult (list CandidateRegistrationEntry) :=
  scripts ← map_err debug_api (get_main_chain_scripts client (best_hash client));
  registrations_map ← candidates_registrations_for_epoch mc_epoch_number (committee_candidate_address scripts);
  Ok (default [] (registrations_map !! to_hex mc_public_key)).

Definition get_ariadne_parameters (epoch_number : Z) : QueryResult AriadneParameters :=
  let best_block := best_hash client in
  scripts ← map_err debug_api (get_main_chain_scripts client best_block);
  response ← map_err debug_source (AuthoritySelection.get_ariadne_parameters candidate_data_source
    epoch_number (d_parameter_policy_id scripts) (permissioned_candidates_policy_id scripts));
  candidate_registrations ←
    candidates_registrations_for_epoch epoch_number (committee_candidate_address scripts);
  permissioned_candidates ←
    match ap_permissioned_candidates response with
    | None => Ok None
    | Some permissioned_candidates =>
        Some <$> collect_results (λ candidate,
          validation_result ← map_err debug_api (validate_permissioned_candidate_data_at client best_block candidate);
          Ok (PermissionedCandidateData_new candidate validation_result)) permissioned_candidates
    end;
  Ok (mkAriadneResponse (ap_d_parameter response) permissioned_candidates candidate_registrations).

(** ** The RPC *)

(** [ErrorObject::owned] with a code and a message *)
Record ErrorObject := mkErrorObject { error_code : Z; error_message : bytes }.
Abbreviation RpcResult := (result ErrorObject).

Definition error_object_from_str (msg : bytes) : ErrorObject := mkErrorObject (-1) msg.

Definition rpc_get_epoch_committee (epoch_number : Z) : option (outcome (RpcResult GetCommitteeResponse)) :=
  fmap (M:=outcome) (map_err error_object_from_str) <$> get_epoch_committee epoch_number.
Definition rpc_get_registrations (mc_epoch_number : Z) (stake_pool_public_key : bytes) :
    RpcResult (list CandidateRegistrationEntry) :=
  map_err error_object_from_str (get_registrations mc_epoch_number stake_pool_public_key).
Definition rpc_get_ariadne_parameters (epoch_number : Z) : RpcResult AriadneParameters :=
  map_err error_object_from_str (get_ariadne_parameters epoch_number).

(** ** The status of the chain *)

Record SidechainData := mkSidechainData { sd_epoch : Z; sd_next_epoch_timestamp : Z }.
Record MainchainData := mkMainchainData { md_epoch : Z; md_slot : Z; md_next_epoch_timestamp : Z }.
Record GetStatusResponse := mkStatusResponse { sidechain : SidechainData; mainchain : MainchainData }.

Definition get_params : RpcResult UtxoId :=
  let best_block := best_hash client in
  map_err (λ e, mkErrorObject (-1) (debug_api e)) (genesis_utxo_at client best_block).

(** [ErrorCode::InternalError] is -32603. *)
Definition get_status (mc_epoch_config : MainchainEpochConfig) (current_time_millis : Z)
    (get_latest_block_info : result SourceError MainchainBlock) : outcome (RpcResult GetStatusResponse) :=
  let best_block := best_hash client in
  let current_timestamp := current_time_millis in
  match map_err (λ e, mkErrorObject (-1) (debug_api e)) (get_epoch_duration_millis client best_block) with
  | Err e => Ret (Err e)
  | Ok sc_epoch_duration =>
      current_sidechain_epoch ← checked_div current_timestamp sc_epoch_duration;
      let next_sidechain_epoch_timestamp := wmul 64 (wadd 64 current_sidechain_epoch 1) sc_epoch_duration in
      match get_latest_block_info with
      | Err err =>
          Ret (Err (mkErrorObject (-32603)
            (str "Internal error: GetLatestBlockResponse error '" ++ debug_source err)))
      | Ok latest_mainchain_block =>
          let next_mainchain_epoch_timestamp :=
            mainchain_epoch_to_timestamp mc_epoch_config (wadd 32 (mb_epoch latest_mainchain_block) 1) in
          Ret (Ok (mkStatusResponse
            (mkSidechainData current_sidechain_epoch next_sidechain_epoch_timestamp)
            (mkMainchainData (mb_epoch latest_mainchain_block) (mb_slot latest_mainchain_block)
               next_mainchain_epoch_timestamp)))
      end
  end.
End Queries.

(** ** The search *)

Section Search.
Context {Hash A K ApiError BlockchainError : Type} `{!Hex, !ClientErrors ApiError BlockchainError}.
Context (as_ref : A → bytes) (client : Client Hash A K ApiError BlockchainError).
Context (hash_of : Z → Hash) (epoch_of : Z → Z).

(** The client serves a chain: it knows the hash of every block, and the runtime at
    each block after genesis reports its epoch, which never decreases. *)
Record serves_chain : Prop := {
  serves_best : 1 ≤ best_number client < u_bound 31;
  serves_hash n : 0 ≤ n ≤ best_number client → block_hash client n = Ok (Some (hash_of n));
  serves_genesis : genesis_hash client = hash_of 0;
  serves_best_hash : best_hash client = hash_of (best_number client);
  serves_status n : 1 ≤ n ≤ best_number client →
    ∃ st, get_sidechain_status client (hash_of n) = Ok st ∧ status_epoch st = epoch_of n;
  serves_monotone m n : 1 ≤ m ≤ n → n ≤ best_number client → epoch_of m ≤ epoch_of n;
}.

Context (Hserves : serves_chain).

Lemma get_epoch_of_block_serves n :
  1 ≤ n ≤ best_number client → get_epoch_of_block client n = Ok (epoch_of n).
Proof.
  intros Hn. unfold get_epoch_of_block. rewrite (serves_hash Hserves) by lia. simpl.
  by destruct (serves_status Hserves n Hn) as (st & -> & <-).
Qed.

Definition no_block : ApiError := application (str "Could not find block").

Lemma search_loop_spec k epoch left right :
  1 ≤ left → left ≤ right + 1 → right ≤ best_number client → right - left + 1 < 2 ^ Z.of_nat k →
  (∃ n, left ≤ n ≤ right ∧ epoch_of n = epoch ∧
     search_loop client (S k) epoch left right = Some (Ret (Ok (hash_of n)))) ∨
  (∀ n, left ≤ n ≤ right → epoch_of n ≠ epoch) ∧
     search_loop client (S k) epoch left right = Some (Ret (Err no_block)).
Proof.
  pose proof (serves_best Hserves) as Hbest. change (u_bound 31) with 2147483648 in Hbest.
  revert left right. induction k as [|k IH]; intros left right Hl Hlr Hr Hsize.
  { right. change (2 ^ Z.of_nat 0) with 1 in Hsize. split; [lia|]. cbn [search_loop].
    by destruct (Z.leb_spec left right); [lia|]. }
  rewrite Nat2Z.inj_succ, Z.pow_succ_r in Hsize by lia. set (p := 2 ^ Z.of_nat k) in *.
  remember (S k) as k' eqn:Hk. cbn [search_loop].
  destruct (Z.leb_spec left right) as [Hle|Hgt]; [|right; split; [lia|done]].
  assert (wadd 32 left right = left + right) as ->.
  { apply wadd_exact. unfold in_u. change (u_bound 32) with 4294967296. lia. }
  set (middle := (left + right) / 2).
  assert (2 * middle ≤ left + right < 2 * middle + 2) as Hm
    by (unfold middle; pose proof (Z.div_mod (left + right) 2); pose proof (Z.mod_pos_bound (left + right) 2); lia).
  rewrite get_epoch_of_block_serves by lia. destruct (Z.compare_spec (epoch_of middle) epoch) as [Heq|Hlt|Hlt].
  - left. exists middle. rewrite (serves_hash Hserves) by lia. split; [lia|done].
  - assert (wadd 32 middle 1 = middle + 1) as ->.
    { apply wadd_exact. unfold in_u. change (u_bound 32) with 4294967296. lia. }
    subst k'. destruct (IH (middle + 1) right) as [(n & Hn & He & ->)|[Hno ->]]; try lia.
    + left. exists n. split; [lia|done].
    + right. split; [|done]. intros n Hn. destruct (decide (n ≤ middle)); [|apply Hno; lia].
      pose proof (serves_monotone Hserves n middle). lia.
  - assert (wsub 32 middle 1 = middle - 1) as ->.
    { apply wsub_exact. unfold in_u. change (u_bound 32) with 4294967296. lia. }
    subst k'. destruct (IH left (middle - 1)) as [(n & Hn & He & ->)|[Hno ->]]; try lia.
    + left. exists n. split; [lia|done].
    + right. split; [|done]. intros n Hn. destruct (decide (n < middle)); [apply Hno; lia|].
      pose proof (serves_monotone Hserves middle n). lia.
Qed.

Lemma find_any_block_spec epoch :
  (∃ n, 1 ≤ n ≤ best_number client ∧ epoch_of n = epoch ∧
     find_any_block_in_epoch client epoch = Some (Ret (Ok (hash_of n)))) ∨
  (∀ n, 1 ≤ n ≤ best_number client → epoch_of n ≠ epoch) ∧
     find_any_block_in_epoch client epoch = Some (Ret (Err no_block)).
Proof.
  pose proof (serves_best Hserves) as Hbest. change (u_bound 31) with 2147483648 in Hbest.
  apply search_loop_spec; [lia..|]. change (2 ^ Z.of_nat 32) with 4294967296. lia.
Qed.

(** What the query answers, in terms of the runtime at the blocks of the chain. *)
Definition committee_at (n : Z) : result bytes GetCommitteeResponse :=
  get_current_committee_versioned as_ref client (hash_of n).
Definition planned_at (n : Z) : result bytes (option GetCommitteeResponse) :=
  get_next_committee_versioned as_ref client (hash_of n).

Lemma get_epoch_committee_serves epoch :
  epoch ≠ 0 → in_u 64 (epoch_of (best_number client) + 1) →
  ∃ r, get_epoch_committee as_ref client epoch = Some (Ret r) ∧
  let last := epoch_of (best_number client) in
  (epoch < epoch_of 1 ∨ last + 1 < epoch → is_ok r = false) ∧
  (epoch_of 1 ≤ epoch ≤ last →
     (∃ n, 1 ≤ n ≤ best_number client ∧ epoch_of n = epoch ∧ r = committee_at n) ∨
     (∀ n, 1 ≤ n ≤ best_number client → epoch_of n ≠ epoch) ∧ r = Err (debug_api no_block)) ∧
  (epoch = last + 1 →
     r = (next ← planned_at (best_number client);
          ok_or next (str "Committee is unknown for the next epoch: " ++ display_uint epoch))).
Proof.
  intros He Hu. pose proof (serves_best Hserves) as Hbest.
  pose proof (serves_monotone Hserves 1 (best_number client)) as Hmono.
  unfold get_epoch_committee. destruct (Z.eqb_spec epoch 0) as [|_]; [done|].
  assert (first_epoch client = Ok (epoch_of 1)) as ->.
  { unfold first_epoch. rewrite (serves_hash Hserves) by lia. simpl.
    by destruct (serves_status Hserves 1) as (st & -> & <-); [lia|]. }
  rewrite get_epoch_of_block_serves by lia. unfold next_epoch. rewrite wadd_exact by done.
  destruct (Z.ltb_spec epoch (epoch_of 1)); [eexists; split; [done|split; [done|lia]]|].
  destruct (Z.ltb_spec (epoch_of (best_number client) + 1) epoch); [eexists; split; [done|split; [done|lia]]|].
  destruct (Z.eqb_spec epoch (epoch_of (best_number client) + 1)) as [|Hne].
  { eexists. split; [done|]. split; [lia|]. split; [lia|]. intros _. by rewrite (serves_best_hash Hserves). }
  destruct (find_any_block_spec epoch) as [(n & Hn & Hen & ->)|[Hno ->]].
  - eexists. split; [done|]. split; [lia|]. split; [|lia]. intros _. left. by exists n.
  - eexists. split; [done|]. split; [lia|]. split; [|lia]. intros _. right. done.
Qed.
End Search.

(** ** Registrations and the selection *)

Lemma collect_results_Ok {E B C} (f : B → C) (l : list B) :
  collect_results (λ x, Ok (E:=E) (f x)) l = Ok (f <$> l).
Proof. induction l as [|x l IH]; [done|]. csimpl. by rewrite IH. Qed.

Lemma rposition_spec {B} (p : B → bool) (l : list B) :
  match rposition p l with
  | Some i => ∃ x rest, drop i l = x :: rest ∧ p x = true ∧ Forall (λ y, p y = false) rest
  | None => Forall (λ y, p y = false) l
  end.
Proof.
  induction l as [|x l IH]; [constructor|]. simpl. destruct (rposition p l) as [i|]; [done|].
  destruct (p x) eqn:Hx; [by exists x, l|by constructor].
Qed.

Definition entry_key (e : CandidateRegistrationEntry) : UtxoInfoOrderingKey := ordering_key (entry_utxo e).

#[export] Instance entry_key_le_trans : Transitive entry_key_le.
Proof. intros x y z. apply ordering_key_le_trans. Qed.
#[export] Instance entry_key_le_total : Total entry_key_le.
Proof. intros x y. apply ordering_key_le_total. Qed.

(** Where a valid entry exists, the entries that are kept start with the latest valid
    one; the ones after it are invalid and not older, and the dropped ones are not
    newer. *)
Lemma kept_entries (l : list CandidateRegistrationEntry) :
  let sorted := merge_sort entry_key_le l in
  let kept := drop (default O (rposition is_valid sorted)) sorted in
  (Forall (λ e, is_valid e = false) l ∧ kept ≡ₚ l) ∨
  ∃ first rest, kept = first :: rest ∧ first ∈ l ∧ is_valid first = true ∧
    Forall (λ e, is_valid e = false ∧ entry_key_le first e ∧ e ∈ l) rest ∧
    (∀ e, e ∈ l → e ∈ first :: rest ∨ entry_key_le e first).
Proof.
  intros sorted kept. assert (sorted ≡ₚ l) as Hperm by apply merge_sort_Permutation.
  assert (StronglySorted entry_key_le sorted) as Hsort by (apply StronglySorted_merge_sort; apply _).
  clearbody sorted. pose proof (rposition_spec is_valid sorted) as Hr. unfold kept. clear kept.
  destruct (rposition is_valid sorted) as [i|]; simpl.
  - right. destruct Hr as (first & rest & Hd & Hv & Hrest). exists first, rest.
    assert (sorted = take i sorted ++ first :: rest) as Hs by (by rewrite <-Hd, take_drop).
    rewrite Hs in Hsort. apply StronglySorted_app in Hsort as (Hbefore & _ & Hafter).
    apply StronglySorted_inv in Hafter as [_ Hafter].
    split; [done|]. split; [rewrite <-Hperm, Hs; set_solver|]. split; [done|]. split.
    + rewrite Forall_forall in *. intros e He. split; [by apply Hrest|]. split; [by apply Hafter|].
      rewrite <-Hperm, Hs. set_solver.
    + intros e He. rewrite <-Hperm, Hs, elem_of_app in He. destruct He as [He|He]; [right|by left].
      apply Hbefore; [done|by left].
  - left. split; [by rewrite <-Hperm|done].
Qed.

(** The validation API of the demo runtime ([demo/runtime/src/lib.rs]). *)
Section ValidationApi.
Context {A K : Type} `{CandidateVerifier A K, CborWriter}.

Definition err {E B} (r : result E B) : option E := match r with Ok _ => None | Err e => Some e end.

Definition api_validate_registered_candidate_data (genesis_utxo : UtxoId) (stake_pool_public_key : bytes)
    (registration_data : RegistrationData) : option RegistrationDataError :=
  err (validate_registration_data stake_pool_public_key registration_data genesis_utxo).
Definition api_validate_stake (stake : option Z) : option StakeError := err (validate_stake stake).
Definition api_validate_permissioned_candidate_data (candidate : Domain.PermissionedCandidateData) :
    option PermissionedCandidateDataError :=
  err (validate_permissioned_candidate_data candidate).
End ValidationApi.

Section Status.
Context {A K ApiError : Type} `{CandidateVerifier A K, CborWriter} `{!Hex, !HexLaws}.
Context (account_ss58 : bytes → bytes) (genesis_utxo : UtxoId).

Abbreviation map_of := (get_registrations_response_map (ApiError:=ApiError) account_ss58
  (λ pool r, Ok (api_validate_registered_candidate_data genesis_utxo pool r)) (λ s, Ok (api_validate_stake s))).
Abbreviation entries_of := (candidate_entries (ApiError:=ApiError) account_ss58
  (λ pool r, Ok (api_validate_registered_candidate_data genesis_utxo pool r)) (λ s, Ok (api_validate_stake s))).

(** The entry of a registration. *)
Definition entry_of (cr : CandidateRegistrations) (r : RegistrationData) : CandidateRegistrationEntry :=
  CandidateRegistrationEntry_new account_ss58 r (stake_pool_public_key cr) (stake_delegation cr)
    (api_validate_registered_candidate_data genesis_utxo (stake_pool_public_key cr) r).

Lemma entry_of_valid cr r :
  is_valid (entry_of cr r) = true ↔
  ∃ key keys, valid_registration (stake_pool_public_key cr) genesis_utxo r key keys.
Proof.
  unfold entry_of, api_validate_registered_candidate_data. simpl. rewrite bool_decide_eq_true.
  setoid_rewrite <-validate_registration_data_Ok.
  destruct (validate_registration_data _ r genesis_utxo) as [[key keys]|e]; simpl; naive_solver.
Qed.

(** The entries as the query lists them: those that are kept, the first marked if the
    stake is invalid. *)
Lemma entries_of_spec cr :
  let sorted := merge_sort entry_key_le (entry_of cr <$> registrations cr) in
  let kept := drop (default O (rposition is_valid sorted)) sorted in
  ∃ entries, entries_of cr = Ok entries ∧
    match validate_stake (stake_delegation cr), kept with
    | Err e, first :: rest => entries = (if is_valid first then stake_invalid e first else first) :: rest
    | _, _ => entries = kept
    end.
Proof.
  intros sorted kept. unfold entries_of. unfold candidate_entries. simpl. rewrite collect_results_Ok. simpl.
  fold (entry_of cr). fold sorted. fold kept. unfold api_validate_stake.
  destruct (validate_stake (stake_delegation cr)) as [?|e]; simpl; [by eexists|].
  destruct kept as [|first rest]; by eexists.
Qed.

(** Distinct keys of candidates are distinct in the map. *)
Lemma to_hex_inj_bytes b b' : Forall is_byte b → Forall is_byte b' → to_hex b = to_hex b' → b = b'.
Proof.
  intros Hb Hb' Heq. rewrite !to_hex_eq in Heq by done.
  apply (f_equal from_hex) in Heq. rewrite !from_hex_prefixed in Heq by done. by injection Heq.
Qed.

Lemma insert_candidates_spec candidates map0 :
  ∃ m, insert_candidates (ApiError:=ApiError) account_ss58
      (λ pool r, Ok (api_validate_registered_candidate_data genesis_utxo pool r))
      (λ s, Ok (api_validate_stake s)) candidates map0 = Ok m ∧
    (∀ k, (∀ cr, cr ∈ candidates → to_hex (stake_pool_public_key cr) ≠ k) → m !! k = map0 !! k) ∧
    (NoDup ((to_hex ∘ stake_pool_public_key) <$> candidates) → ∀ cr entries, cr ∈ candidates →
       entries_of cr = Ok entries → m !! to_hex (stake_pool_public_key cr) = Some entries).
Proof.
  revert map0. induction candidates as [|cr candidates IH]; intros map0; simpl.
  { exists map0. split; [done|]. split; [done|]. intros _ cr entries ?%elem_of_nil. done. }
  destruct (entries_of_spec cr) as (entries & He & _). rewrite He. simpl.
  destruct (IH (<[to_hex (stake_pool_public_key cr) := entries]> map0)) as (m & Hm & Hother & Hown).
  exists m. split; [done|]. split.
  - intros k Hk. rewrite Hother by (intros cr' Hin; apply Hk; by right).
    apply lookup_insert_ne. apply Hk. by left.
  - csimpl. intros [Hnot Hnd]%NoDup_cons cr' entries' [->|Hin]%elem_of_cons He'; [|by apply Hown].
    rewrite Hother, lookup_insert_eq; [congruence|].
    intros cr2 Hin Heq. apply Hnot. rewrite <-Heq. apply list_elem_of_fmap. by exists cr2.
Qed.

Abbreviation reg_key r := (ordering_key (utxo_info r)).

(** What the listed entries [entries] of an operator tell about the selection. *)
Record status_of (cr : CandidateRegistrations) (entries : list CandidateRegistrationEntry) : Prop := {
  status_none : select_latest_valid_candidate (A:=A) (K:=K) cr genesis_utxo = None →
    Forall (λ e, is_valid e = false) entries;
  status_some c : select_latest_valid_candidate (A:=A) (K:=K) cr genesis_utxo = Some c →
    ∃ r rest, r ∈ registrations cr ∧ entries = entry_of cr r :: rest ∧ is_valid (entry_of cr r) = true ∧
      c = mkCandidateWithStake (stake_pool_public_key cr) (cws_stake_delegation c)
            (from_ecdsa_public (sidechain_pub_key r)) (cws_account_keys c) ∧
      stake_delegation cr = Some (cws_stake_delegation c) ∧
      maybe_from (registration_keys r) = Some (cws_account_keys c) ∧
      Forall (λ e, is_valid e = false ∧ entry_key_le (entry_of cr r) e) rest ∧
      ∀ r', r' ∈ registrations cr → ordering_key_le (reg_key r') (reg_key r) = false → entry_of cr r' ∈ rest;
  status_empty : entries = [] ↔ registrations cr = [];
}.

Lemma latest_valid_entry cr first :
  first ∈ entry_of cr <$> registrations cr → is_valid first = true →
  (∀ e, e ∈ entry_of cr <$> registrations cr → is_valid e = true → entry_key_le e first) →
  ∃ r key keys, first = entry_of cr r ∧
    latest_valid (stake_pool_public_key cr) genesis_utxo (registrations cr) r key keys.
Proof.
  intros (r & -> & Hr)%list_elem_of_fmap Hv Hmax. pose proof Hv as (key & keys & Hval)%entry_of_valid.
  exists r, key, keys. split; [done|]. split; [done|]. split; [done|]. intros r' key' keys' Hr' Hv'.
  apply (Hmax (entry_of cr r')); [apply list_elem_of_fmap; by exists r'|]. apply entry_of_valid. eauto.
Qed.

(** Registrations have distinct positions in the ledger, so the latest valid one is
    unique. *)
Lemma latest_valid_unique pool rs r key keys r' key' keys' :
  NoDup ((λ r, reg_key r) <$> rs) →
  latest_valid (A:=A) (K:=K) pool genesis_utxo rs r key keys →
  latest_valid pool genesis_utxo rs r' key' keys' → r = r' ∧ keys = keys' ∧ key = key'.
Proof.
  intros Hnd (Hr & Hv & Hmax) (Hr' & Hv' & Hmax').
  assert (r = r') as <-.
  { pose proof (Hmax _ _ _ Hr' Hv') as Hle1. pose proof (Hmax' _ _ _ Hr Hv) as Hle2.
    assert (reg_key r = reg_key r') as Heq.
    { unfold ordering_key_le, ordering_key in *. simpl in *. f_equal; lia. }
    apply list_elem_of_lookup in Hr as [i Hi]. apply list_elem_of_lookup in Hr' as [j Hj].
    assert (i = j) as ->; [|congruence].
    eapply (NoDup_lookup _ i j (reg_key r) Hnd); rewrite list_lookup_fmap; [by rewrite Hi|by rewrite Hj, Heq]. }
  apply validate_registration_data_Ok in Hv, Hv'. rewrite Hv in Hv'. by injection Hv'.
Qed.

Lemma status_matches_selection cr :
  NoDup ((λ r, reg_key r) <$> registrations cr) →
  ∃ entries, entries_of cr = Ok entries ∧ status_of cr entries.
Proof.
  intros Hnd. destruct (entries_of_spec cr) as (entries & Hentries & Hmark). exists entries. split; [done|].
  destruct (kept_entries (entry_of cr <$> registrations cr)) as [[Hnone Hperm]|(first & rest & Hkept & Hin & Hv & Hrest & Hold)].
  - set (kept := drop _ _) in *. clearbody kept. rewrite <-Hperm in Hnone.
    assert (entries = kept) as ->.
    { destruct (validate_stake _); [done|]. destruct kept as [|first rest]; [done|].
      apply Forall_cons in Hnone as [Hf _]. by rewrite Hf in Hmark. }
    split; [done| |].
    + intros c (_ & _ & _ & r & key & (Hr & Hval & _) & _)%select_latest_valid_candidate_Some.
      assert (is_valid (entry_of cr r) = true) as Hvalid by (apply entry_of_valid; eauto).
      rewrite Forall_forall in Hnone. rewrite Hnone in Hvalid; [done|]. rewrite Hperm. apply list_elem_of_fmap. eauto.
    + split; intros Heq; [|rewrite Heq in Hperm; by apply Permutation_nil_r in Hperm].
      rewrite Heq in Hperm. apply Permutation_nil_l in Hperm. by apply (fmap_nil_inv (entry_of cr)).
  - set (kept := drop _ _) in *. clearbody kept. subst kept. rewrite Hv in Hmark.
    destruct (latest_valid_entry cr first Hin Hv) as (r & key & keys & -> & Hlatest).
    { intros e He Hve. destruct (Hold e He) as [[->|Hrest']%elem_of_cons|]; [apply ordering_key_le_refl| |done].
      rewrite Forall_forall in Hrest. destruct (Hrest e Hrest') as [Hf _]. congruence. }
    pose proof Hlatest as (Hr & Hval & _). destruct (validate_stake (stake_delegation cr)) as [stake|e] eqn:Hstake.
    + subst entries. split.
      * intros [Hz|Hz]%select_latest_valid_candidate_None; [|by apply Hz in Hval].
        apply validate_stake_Ok in Hstake as [Hs Hne]. by apply Hz in Hs.
      * intros c (Hs & _ & Hpool & r' & key' & Hl' & Hid)%select_latest_valid_candidate_Some.
        destruct (latest_valid_unique _ _ _ _ _ _ _ _ Hnd Hlatest Hl') as (<- & -> & ->).
        destruct Hval as [Hkeys [-> _] _ _ _]. exists r, rest. rewrite <-Hpool, <-Hid. split_and!; try done; [by destruct c| |].
        -- rewrite Forall_forall in *. intros e He. destruct (Hrest e He) as (? & ? & _). done.
        -- intros r'' Hr'' Hnot. destruct (Hold (entry_of cr r'')) as [[Heq|]%elem_of_cons|Hle];
             [apply list_elem_of_fmap; eauto| |done|unfold entry_key_le in Hle; simpl in Hle; congruence].
           apply (f_equal entry_utxo) in Heq. simpl in Heq. rewrite Heq, ordering_key_le_refl in Hnot. done.
      * split; [done|]. intros Heq. rewrite Heq in Hr. by apply elem_of_nil in Hr.
    + subst entries. split.
      * intros _. constructor; [done|]. eapply Forall_impl; [exact Hrest|]. naive_solver.
      * intros c (Hs & Hne & _)%select_latest_valid_candidate_Some.
        assert (validate_stake (stake_delegation cr) = Ok (cws_stake_delegation c)) as Hok
          by (by apply validate_stake_Ok). congruence.
      * split; [done|]. intros Heq. rewrite Heq in Hr. by apply elem_of_nil in Hr.
Qed.

(** The query answers with the entries of the operator. *)
Lemma map_of_spec candidates cr :
  NoDup (stake_pool_public_key <$> candidates) → Forall (λ cr, Forall is_byte (stake_pool_public_key cr)) candidates →
  cr ∈ candidates → NoDup ((λ r, reg_key r) <$> registrations cr) →
  ∃ m entries, map_of candidates = Ok m ∧ m !! to_hex (stake_pool_public_key cr) = Some entries ∧
    status_of cr entries.
Proof.
  intros Hnd Hbytes Hin Hregs. destruct (status_matches_selection cr Hregs) as (entries & He & Hst).
  destruct (insert_candidates_spec candidates ∅) as (m & Hm & _ & Hown). exists m, entries.
  split; [done|]. split; [|done]. apply Hown; [|done|done].
  clear Hin m Hm Hown. induction candidates as [|c l IH]; [constructor|]. csimpl in *.
  apply NoDup_cons in Hnd as [Hnot Hnd]. apply Forall_cons in Hbytes as [Hb Hbytes].
  constructor; [|by apply IH]. intros (c' & Heq & Hc')%list_elem_of_fmap. apply Hnot.
  apply list_elem_of_fmap. exists c'. split; [|done]. rewrite Forall_forall in Hbytes.
  by apply to_hex_inj_bytes; [|apply Hbytes|].
Qed.
End Status.

(** ** The status of the chain *)

(** C40. The status of the chain reports the partner chain epoch that contains the
    current time and when the next one begins.  The main chain epoch and slot are those
    of the latest block, but the start of the next main chain epoch is right only if
    the first epoch of the configuration has number 0. *)
Theorem chain_status {Hash A K ApiError BlockchainError SourceError : Type} `{!ClientErrors ApiError BlockchainError}
    (debug_source : SourceError → bytes) (client : Client Hash A K ApiError BlockchainError) config now block duration :
  get_epoch_duration_millis client (best_hash client) = Ok duration →
  0 < duration → 0 ≤ now → now + duration < u_bound 64 →
  epoch_config_wf config → 0 ≤ mb_epoch block < i32_max →
  first_epoch_timestamp_millis config + (mb_epoch block + 1) * epoch_duration_millis config < u_bound 64 →
  ∃ sc mc, get_status debug_source client config now (Ok block) = Ret (Ok (mkStatusResponse sc mc)) ∧
    sd_epoch sc * duration ≤ now < sd_next_epoch_timestamp sc ∧
    sd_next_epoch_timestamp sc = (sd_epoch sc + 1) * duration ∧
    md_epoch mc = mb_epoch block ∧ md_slot mc = mb_slot block ∧
    (md_next_epoch_timestamp mc = epoch_start config (mb_epoch block + 1) ↔ first_epoch_number config = 0).
Proof.
  intros Hdur Hd Hn Hb Hwf He Hbound. unfold get_status. rewrite Hdur. simpl. unfold checked_div.
  destruct (Z.eqb_spec duration 0); [lia|]. simpl. eexists _, _. split; [done|]. simpl.
  pose proof (Z.div_mod now duration ltac:(lia)). pose proof (Z.mod_pos_bound now duration Hd).
  pose proof (Z.div_pos now duration Hn Hd). set (q := now / duration) in *.
  rewrite (wadd_exact 64 q 1) by (unfold in_u; nia). rewrite (wmul_exact 64) by (unfold in_u; nia).
  rewrite (wadd_exact 32) by (unfold in_u; change (u_bound 32) with 4294967296; unfold i32_max in He; lia).
  split; [nia|]. split; [done|]. split; [done|]. split; [done|].
  by apply (mainchain_epoch_to_timestamp_shifted config (mb_epoch block + 1)); [done|lia|].
Qed.

#[local] Instance text_client_errors : ClientErrors bytes bytes := {|
  unknown_block := id; application := id; from_blockchain := id; debug_api := id; debug_blockchain := id;
|}.
(** A client that answers only how long an epoch is. *)
Definition duration_client (duration : Z) : Client unit Z Z bytes bytes := {|
  genesis_hash := tt;
  best_hash := tt;
  best_number := 0;
  block_hash _ := Err [];
  get_sidechain_status _ := Err [];
  management_api_version _ := Err [];
  get_current_committee _ := Err [];
  get_current_committee_before_version_2 _ := Err [];
  get_next_committee _ := Err [];
  get_next_committee_before_version_2 _ := Err [];
  get_main_chain_scripts _ := Err [];
  validate_registered_candidate_data _ _ _ := Err [];
  validate_stake_at _ _ := Err [];
  validate_permissioned_candidate_data_at _ _ := Err [];
  genesis_utxo_at _ := Err [];
  get_epoch_duration_millis _ := Ok duration;
|}.

Lemma chain_status_witness :
  ∃ sc mc, get_status (λ _ : unit, []) (duration_client 60000) mainnet 1700000000000
      (Ok (mkMainchainBlock 1 [] 446 107000000 0)) = Ret (Ok (mkStatusResponse sc mc)) ∧
    sd_epoch sc * 60000 ≤ 1700000000000 < sd_next_epoch_timestamp sc ∧
    md_next_epoch_timestamp mc ≠ epoch_start mainnet 447.
Proof.
  destruct (chain_status (λ _ : unit, []) (duration_client 60000) mainnet 1700000000000
    (mkMainchainBlock 1 [] 446 107000000 0) 60000) as (sc & mc & Hstatus & Hepoch & _ & _ & _ & Hnext).
  - reflexivity.
  - lia.
  - lia.
  - reflexivity.
  - exact mainnet_wf.
  - vm_compute. split; congruence.
  - reflexivity.
  - exists sc, mc. split; [exact Hstatus|]. split; [exact Hepoch|]. intros Heq.
    destruct Hnext as [Hnext _]. discriminate (Hnext Heq).
Defined.
