(* ===== verification/DemoRuntime.v ===== *)
(** * The demo runtime

    Models [demo/runtime/src/lib.rs] and [demo/runtime/src/test_helper_pallet.rs]:
    the configuration of the partner chain pallets, the order of their hooks given by
    [construct_runtime!], the runtime APIs that the node calls, and the helper pallet
    that handles bridge transfers and releases block participation data.

    [pallet_aura] and [pallet_session] are libraries.  The class [SessionQueue] has
    what the runtime needs of them beyond [SessionOps]: the validators in office, those
    queued for the session that follows, and the index of the author of a slot.  The
    laws are what the two pallets do: a validator without keys is not queued, an empty
    queue leaves the authorities as they are, and finding the author without any
    authority divides by zero. *)

From S2P Require Import Prelude Domain SessionEnv CommitteePallet CommitteeSession PlutusData AuthoritySelection.
From S2P Require Import SidechainPallet BlockProductionLog ContractDatums TextFormats DbSync Bridge CliIO CommitteeQuery.

(** ** The helper pallet *)

Record TestHelperState (AccountId Data : Type) `{Countable AccountId} := mkTestHelper {
  LatestParticipationData : option Data;
  ParticipationDataReleasePeriod : Z;
  TotalInvalidTransfers : Z;
  TotalReserveTransfers : Z;
  UserTransferTotals : gmap AccountId Z;
}.
Arguments mkTestHelper {AccountId Data _ _} _ _ _ _ _.
Arguments LatestParticipationData {AccountId Data _ _} _.
Arguments ParticipationDataReleasePeriod {AccountId Data _ _} _.
Arguments TotalInvalidTransfers {AccountId Data _ _} _.
Arguments TotalReserveTransfers {AccountId Data _ _} _.
Arguments UserTransferTotals {AccountId Data _ _} _.

Definition DEFAULT_PARTICIPATION_DATA_RELEASE_PERIOD : Z := 30.

Inductive HelperError := HelperBadOrigin.

Section TestHelper.
Context {AccountId Data Balances : Type} `{Countable AccountId}.
(** [Balances::deposit_creating] and the account of the reserve *)
Context (deposit_creating : AccountId → Z → Balances → Balances) (ReserveAccount : AccountId).
Implicit Types s : TestHelperState AccountId Data.

Definition helper_genesis (participation_data_release_period : Z) : TestHelperState AccountId Data :=
  mkTestHelper None participation_data_release_period 0 0 ∅.

(** [mutate] stores the value behind the reference; the closure for invalid transfers
    returns the sum and leaves the reference alone. *)
Definition helper_handle_transfer (transfer : BridgeTransferV1 AccountId)
    (h : TestHelperState AccountId Data * Balances) : TestHelperState AccountId Data * Balances :=
  let '(s, balances) := h in
  match transfer with
  | InvalidTransfer token_amount utxo_id => (s, balances)
  | UserTransfer token_amount recipient =>
      (mkTestHelper (LatestParticipationData s) (ParticipationDataReleasePeriod s) (TotalInvalidTransfers s)
         (TotalReserveTransfers s)
         (<[recipient := wadd 64 (default 0 (UserTransferTotals s !! recipient)) token_amount]> (UserTransferTotals s)),
       deposit_creating recipient token_amount balances)
  | ReserveTransfer token_amount =>
      (mkTestHelper (LatestParticipationData s) (ParticipationDataReleasePeriod s) (TotalInvalidTransfers s)
         (wadd 64 (TotalReserveTransfers s) token_amount) (UserTransferTotals s),
       deposit_creating ReserveAccount token_amount balances)
  end.

(** A remainder by zero panics. *)
Definition helper_blocks_to_process {P} (log : list (Z * P)) (slot : Z) s : outcome (list (Z * P)) :=
  let period := ParticipationDataReleasePeriod s in
  if period =? 0 then Panic
  else Ret (if slot mod period =? 0 then peek_prefix slot log else []).
Definition helper_discard_processed_blocks {P} (log : list (Z * P)) (slot : Z) : list (Z * P) :=
  drop_prefix slot log.

Definition handle_participation_data (origin : Origin) (data : Data) s :
    result HelperError (TestHelperState AccountId Data) :=
  _ ← ensure (bool_decide (origin = None_)) HelperBadOrigin;
  Ok (mkTestHelper (Some data) (ParticipationDataReleasePeriod s) (TotalInvalidTransfers s)
        (TotalReserveTransfers s) (UserTransferTotals s)).
Definition set_block_participation_data_release_period (root_origin : bool) (period : Z) s :
    result HelperError (TestHelperState AccountId Data) :=
  _ ← ensure root_origin HelperBadOrigin;
  Ok (mkTestHelper (LatestParticipationData s) period (TotalInvalidTransfers s)
        (TotalReserveTransfers s) (UserTransferTotals s)).

Definition helper_create_inherent (data : result unit (option Data)) : outcome (option Data) := expect (ok data).
End TestHelper.

(** ** Block authors *)

Inductive BlockAuthor (A : Type) := Incentivized (id : A) (key : bytes) | ProBono (id : A).
Arguments Incentivized {A} _ _.
Arguments ProBono {A} _.

Definition author_id {A} (a : BlockAuthor A) : A := match a with Incentivized id _ => id | ProBono id => id end.
(** [From<CommitteeMember>] *)
Definition BlockAuthor_from {A K} (value : CommitteeMember A K) : BlockAuthor A :=
  match value with
  | Permissioned id _ => ProBono id
  | Registered id _ stake_pool_pub_key => Incentivized id stake_pool_pub_key
  end.
Definition as_cardano_spo {A} (key_hash : bytes → bytes) (a : BlockAuthor A) : option bytes :=
  match a with Incentivized _ key => Some (key_hash key) | ProBono _ => None end.

(** ** Sessions and Aura *)

Definition MaxValidators : Z := 1024.
Definition MILLISECS_PER_BLOCK : Z := 6000.
Definition SLOT_DURATION : Z := MILLISECS_PER_BLOCK.

Class SessionQueue (Sys AccountId : Type) := {
  (** the validators whose keys are the authorities of Aura *)
  in_office : Sys → list AccountId;
  (** the validators of the session that follows *)
  queued : Sys → list AccountId;
  (** the start and the end of [rotate_session], around the call of [new_session] *)
  start_queued : Sys → Sys;
  queue_validators : list AccountId → Sys → Sys;
  (** [FindAuthor] of Aura for the slot of a block *)
  find_author : Z → Sys → outcome (option Z);
}.

Class SessionQueueLaws (Sys AccountId Keys : Type)
    `{SessionOps Sys AccountId Keys, !SessionQueue Sys AccountId} : Prop := {
  (** Aura ignores an empty set of authorities.  Before the first rotation the queue
      is not marked as changed; then it holds the validators in office. *)
  start_queued_office (s : Sys) : Z.of_nat (length (queued s)) ≤ MaxValidators →
    in_office (start_queued s) = match queued s with [] => in_office s | l => l end;
  start_queued_queued s : queued (start_queued s) = queued s;
  queue_validators_office l s : in_office (queue_validators l s) = in_office s;
  (** only validators with keys are queued *)
  queue_validators_queued l s :
    queued (queue_validators l s) = filter (λ a, is_Some (load_keys a s)) l;
  find_author_index slot s : in_office s ≠ [] → Z.of_nat (length (in_office s)) ≤ MaxValidators →
    find_author slot s = Ret (Some (slot mod Z.of_nat (length (in_office s))));
  start_queued_providers a s : providers a (start_queued s) = providers a s;
  start_queued_consumers a s : other_consumers a (start_queued s) = other_consumers a s;
  queue_validators_providers l a s : providers a (queue_validators l s) = providers a s;
  queue_validators_consumers l a s : other_consumers a (queue_validators l s) = other_consumers a s;
  inc_providers_office a s : in_office (inc_providers a s) = in_office s;
  dec_providers_office a s s' : dec_providers a s = Ok s' → in_office s' = in_office s;
  set_keys_office a k s s' : dispatch_set_keys a k s = Ok s' → in_office s' = in_office s;
  purge_keys_office a s s' : dispatch_purge_keys a s = Ok s' → in_office s' = in_office s;
}.

(** ** The runtime *)

Record RuntimeState (Sys AccountId A K : Type) `{Countable AccountId} := mkRuntime {
  system_number : Z;
  CurrentSlot : Z;
  Sidechain : SidechainState;
  SessionCommitteeManagement : CommitteeState AccountId A K;
  Log : list (Z * BlockAuthor A);
  Session : Sys;
}.
Arguments mkRuntime {Sys AccountId A K _ _} _ _ _ _ _ _.
Arguments system_number {Sys AccountId A K _ _} _.
Arguments CurrentSlot {Sys AccountId A K _ _} _.
Arguments Sidechain {Sys AccountId A K _ _} _.
Arguments SessionCommitteeManagement {Sys AccountId A K _ _} _.
Arguments Log {Sys AccountId A K _ _} _.
Arguments Session {Sys AccountId A K _ _} _.

(** [pallet_sidechain::Config::reference_timestamp_millis] *)
Definition reference_timestamp_millis (slot : Z) : Z := wmul 64 slot SLOT_DURATION.
(** [pallet_session_validator_management::Config::current_epoch_number] *)
Definition runtime_epoch_number (slot : Z) (s : SidechainState) : outcome Z :=
  current_epoch_number (reference_timestamp_millis slot) s.

Section Runtime.
Context {Sys AccountId A K SK Inputs : Type}.
Context `{Countable AccountId, !Ord AccountId, EqDecision A, EqDecision K, EqDecision SK}.
Context `{Hops : SessionOps Sys AccountId SK, !SessionQueue Sys AccountId}.
Context (into_account : A → AccountId) (into_keys : K → SK).
Context (select_authorities : Inputs → Z → option (list (CommitteeMember A K))).
Context (inputs_hash : Inputs → bytes).

Abbreviation State := (RuntimeState Sys AccountId A K).
Abbreviation Committee := (CommitteeState AccountId A K).

(** The hook of [pallet_session] with the committee pallet as its manager. *)
Definition session_on_initialize (epoch : Z) (c : Committee) (sys : Sys) : outcome (Committee * Sys) :=
  let '(ends, c) := should_end_session MaxValidators epoch c in
  if ends then
    '(validators, c, sys) ← new_session MaxValidators into_account into_keys c (start_queued sys);
    Ret (c, queue_validators validators sys)
  else Ret (c, sys).

(** [GetAuthor for FromFindAuthorIndex] *)
Definition get_author (slot : Z) (c : Committee) (sys : Sys) : outcome (option (BlockAuthor A)) :=
  index ← find_author slot sys;
  Ret (BlockAuthor_from <$> find_current_authority index c).

(** The hooks in the order of [construct_runtime!]: Aura, which rejects a slot that
    is not later, then Sidechain, SessionCommitteeManagement, BlockProductionLog and
    Session. *)
Definition initialize_block (slot : Z) (s : State) : outcome State :=
  let n := system_number s + 1 in
  if slot <=? CurrentSlot s then Panic
  else
    '(sidechain, _) ← sidechain_on_initialize no_handler (reference_timestamp_millis slot) (Sidechain s) tt;
    epoch ← runtime_epoch_number slot sidechain;
    let c := CommitteePallet.on_initialize n epoch (SessionCommitteeManagement s) in
    author ← get_author slot c (Session s);
    let log := BlockProductionLog.on_initialize author (Some slot) (Log s) in
    '(c, sys) ← session_on_initialize epoch c (Session s);
    Ret (mkRuntime n slot sidechain c log sys).

(** The block of an author: its hooks, then the inherent of the committee pallet.
    An inherent that fails makes the block invalid. *)
Definition author_block (slot : Z) (data : InherentData (Inputs:=Inputs)) (s : State) : outcome State :=
  s ← initialize_block slot s;
  call ← CommitteePallet.create_inherent select_authorities inputs_hash data (SessionCommitteeManagement s);
  match call with
  | None => Ret s
  | Some call =>
      c ← expect (ok (dispatch None_ call (SessionCommitteeManagement s)));
      Ret (mkRuntime (system_number s) (CurrentSlot s) (Sidechain s) c (Log s) (Session s))
  end.

(** The states after each of the blocks. *)
Fixpoint author_blocks (blocks : list (Z * InherentData (Inputs:=Inputs))) (s : State) : outcome (list State) :=
  match blocks with
  | [] => Ret []
  | (slot, data) :: blocks =>
      s ← author_block slot data s;
      rest ← author_blocks blocks s;
      Ret (s :: rest)
  end.

Definition runtime_genesis (genesis_utxo : UtxoId) (epoch_duration : Z) (c : Committee) (sys : Sys) : State :=
  mkRuntime 0 0 (sidechain_genesis genesis_utxo epoch_duration) c [] sys.

(** ** Runtime APIs *)

Definition api_get_sidechain_status (s : State) : outcome SidechainStatus :=
  epoch ← runtime_epoch_number (CurrentSlot s) (Sidechain s);
  Ret (mkSidechainStatus epoch (CurrentSlot s) (wrap 32 (epoch_duration_millis (Sidechain s) / SLOT_DURATION))).
Definition api_get_current_committee (s : State) : Z * list (CommitteeMember A K) :=
  as_pair (CurrentCommittee (SessionCommitteeManagement s)).
Definition api_get_next_committee (s : State) : option (Z * list (CommitteeMember A K)) :=
  as_pair <$> NextCommittee (SessionCommitteeManagement s).
Definition api_get_main_chain_scripts (s : State) : CommitteePallet.MainChainScripts :=
  CommitteePallet.MainChainScriptsConfiguration (SessionCommitteeManagement s).
Definition api_get_next_unset_epoch_number (s : State) : Z :=
  get_next_unset_epoch_number (SessionCommitteeManagement s).
Definition api_calculate_committee (inputs : Inputs) (epoch : Z) : option (list (CommitteeMember A K)) :=
  calculate_committee select_authorities inputs epoch.
Definition api_genesis_utxo (s : State) : UtxoId := genesis_utxo (Sidechain s).
Definition api_get_epoch_duration_millis (s : State) : Z := epoch_duration_millis (Sidechain s).
Definition api_moment_to_timestamp_millis (moment : Z) : Z := wmul 64 moment SLOT_DURATION.

(** ** The client of a node

    [states] are the states after the blocks of the best chain, the first one that of
    genesis; a block is identified by its position.  An API that panics is an error of
    the call.  The management API has version 3. *)
Context {ApiError BlockchainError : Type} `{!ClientErrors ApiError BlockchainError}.
Context `{CandidateVerifier A K, CborWriter}.

Definition at_block {R} (states : list State) (call : State → outcome R) (hash : nat) : result ApiError R :=
  match states !! hash with
  | None => Err (unknown_block (str "State not found"))
  | Some s => match call s with Ret r => Ok r | Panic => Err (application (str "Runtime panicked")) end
  end.

Definition node_client (states : list State) : Client nat A K ApiError BlockchainError := {|
  genesis_hash := 0%nat;
  best_hash := pred (length states);
  best_number := Z.of_nat (length states) - 1;
  block_hash n := Ok (if decide (0 ≤ n < Z.of_nat (length states)) then Some (Z.to_nat n) else None);
  get_sidechain_status := at_block states api_get_sidechain_status;
  management_api_version := at_block states (λ _, Ret (Some 3));
  get_current_committee := at_block states (λ s, Ret (api_get_current_committee s));
  get_current_committee_before_version_2 := at_block states (λ s, Ret (api_get_current_committee s));
  get_next_committee := at_block states (λ s, Ret (api_get_next_committee s));
  get_next_committee_before_version_2 := at_block states (λ s, Ret (api_get_next_committee s));
  get_main_chain_scripts := at_block states (λ s, Ret (api_get_main_chain_scripts s));
  validate_registered_candidate_data hash pool r :=
    at_block states (λ s, Ret (api_validate_registered_candidate_data (A:=A) (K:=K) (api_genesis_utxo s) pool r)) hash;
  validate_stake_at hash stake := at_block states (λ _, Ret (api_validate_stake stake)) hash;
  validate_permissioned_candidate_data_at hash candidate :=
    at_block states (λ _, Ret (api_validate_permissioned_candidate_data (A:=A) (K:=K) candidate)) hash;
  genesis_utxo_at := at_block states (λ s, Ret (api_genesis_utxo s));
  get_epoch_duration_millis := at_block states (λ s, Ret (api_get_epoch_duration_millis s));
|}.
End Runtime.

(** ** Blocks *)

Section Chain.
Context {Sys AccountId A K SK Inputs : Type}.
Context `{Countable AccountId, !Ord AccountId, EqDecision A, EqDecision K, EqDecision SK}.
Context `{Hops : SessionOps Sys AccountId SK, !SessionQueue Sys AccountId}.
Context `{!SessionLaws Sys AccountId SK, !SessionQueueLaws Sys AccountId SK}.
Context (into_account : A → AccountId) (into_keys : K → SK).
Context (select_authorities : Inputs → Z → option (list (CommitteeMember A K))).
Context (inputs_hash : Inputs → bytes).
(** The selection fits a [BoundedVec]; it may select nobody. *)
Context (Hselect : ∀ inputs e l, select_authorities inputs e = Some l → Z.of_nat (length l) ≤ MaxValidators).

Abbreviation State := (RuntimeState Sys AccountId A K).
Abbreviation Committee := (CommitteeState AccountId A K).
Abbreviation members_of c := (account_of (K:=K) into_account <$> committee (CurrentCommittee c)).
Abbreviation author := (author_block into_account into_keys select_authorities inputs_hash).
Abbreviation initialize := (initialize_block into_account into_keys).
Implicit Types (c : Committee) (s : State) (sys : Sys).

(** *** The validators in office during a rotation *)

Lemma seat_members_office old members new sys :
  in_office (foldl (seat_member into_account into_keys old) (new, sys) members).2 = in_office sys.
Proof.
  revert new sys. induction members as [|m members IH]; intros new sys; simpl; [done|].
  case_decide; [apply IH|]. rewrite IH. unfold provide_account, set_keys, purge_keys.
  set (sys1 := if decide (_ ∈ old) then sys else _).
  assert (in_office sys1 = in_office sys) as <-
    by (unfold sys1; case_decide; [done|apply inc_providers_office]).
  case_decide; [done|].
  destruct (dispatch_purge_keys _ sys1) as [sys2|] eqn:Hp; [rewrite <-(purge_keys_office _ _ _ Hp)|].
  - destruct (dispatch_set_keys _ _ sys2) eqn:Hk; [by eapply set_keys_office|done].
  - destruct (dispatch_set_keys _ _ sys1) eqn:Hk; [by eapply set_keys_office|done].
Qed.

Lemma retire_accounts_office l sys sys' : retire_accounts l sys = Ret sys' → in_office sys' = in_office sys.
Proof.
  revert sys. induction l as [|a l IH]; intros sys; simpl; [by intros [= ->]|].
  unfold unprovide_account. destruct (dec_providers a (purge_keys a sys)) as [sys1|] eqn:Hd; [|done]. simpl.
  intros Hl. rewrite (IH _ Hl), (dec_providers_office _ _ _ Hd). unfold purge_keys.
  destruct (dispatch_purge_keys a sys) eqn:Hp; [by eapply purge_keys_office|done].
Qed.

Lemma new_session_effect c sys v c' sys' nx :
  NextCommittee c = Some nx → CommitteeRotationStage c ≠ AdditionalSession →
  new_session MaxValidators into_account into_keys c sys = Ret (v, c', sys') →
  v = account_of into_account <$> committee nx ∧
  c' = put_provided (accounts into_account (committee nx)) (put_current nx (put_next None c)) ∧
  in_office sys' = in_office sys.
Proof.
  intros Hnx Hst. unfold new_session. rewrite decide_False by done.
  unfold rotate_committee_to_next_epoch. rewrite Hnx. simpl.
  destruct (seat_members_spec into_account into_keys (ProvidedAccounts c) (committee nx) ∅ sys) as (Hnew & _).
  pose proof (seat_members_office (ProvidedAccounts c) (committee nx) ∅ sys) as Hseat.
  destruct (foldl _ (∅, sys) (committee nx)) as [new sys1]. simpl in Hseat, Hnew. rewrite (right_id_L ∅ (∪)) in Hnew. subst new.
  destruct (retire_accounts _ sys1) as [sys2|] eqn:Hr; [|done]. simpl.
  unfold bounded_set. case_decide; [|done]. simpl. intros [= <- <- <-].
  by rewrite (retire_accounts_office _ _ _ Hr).
Qed.

(** *** The session hook *)

(** Same epoch, nothing pending. *)
Lemma session_quiet e c sys :
  e ≤ epoch (CurrentCommittee c) → CommitteeRotationStage c ≠ NewSessionDueEpochChange →
  session_on_initialize into_account into_keys e c sys = Ret (c, sys).
Proof.
  intros He Hst. unfold session_on_initialize, should_end_session.
  by rewrite (proj2 (Z.ltb_ge _ _)), decide_False by (done || lia).
Qed.

(** Same epoch, after a rotation: the queued committee takes office. *)
Lemma session_additional e c sys :
  e ≤ epoch (CurrentCommittee c) → CommitteeRotationStage c = NewSessionDueEpochChange →
  session_on_initialize into_account into_keys e c sys =
  Ret (put_stage AwaitEpochChange c, queue_validators (members_of c) (start_queued sys)).
Proof.
  intros He Hst. unfold session_on_initialize, should_end_session.
  by rewrite (proj2 (Z.ltb_ge _ _)), decide_True by (done || lia).
Qed.

(** The authorities once the queue takes office. *)
Definition handed_over sys : list AccountId := match queued sys with [] => in_office sys | l => l end.

(** A new epoch: unless an account that leaves is stuck, the planned committee is
    seated and its members with keys are queued. *)
Lemma session_rotates e c sys nx :
  epoch (CurrentCommittee c) < e → NextCommittee c = Some nx →
  committee_wf MaxValidators into_account c → Z.of_nat (length (queued sys)) ≤ MaxValidators →
  (session_on_initialize into_account into_keys e c sys = Panic ↔
   ∃ a, a ∈ ProvidedAccounts c ∖ accounts into_account (committee nx) ∧ stuck a sys) ∧
  ∀ c' sys', session_on_initialize into_account into_keys e c sys = Ret (c', sys') →
    c' = put_provided (accounts into_account (committee nx))
           (put_current nx (put_next None (put_stage NewSessionDueEpochChange c))) ∧
    Z.of_nat (length (queued sys')) ≤ MaxValidators ∧ in_office sys' = handed_over sys.
Proof.
  intros He Hnx Hwf Hqueue. destruct (inv_next _ _ _ Hwf nx Hnx) as [_ Hlen].
  unfold session_on_initialize, should_end_session, next_committee.
  rewrite (proj2 (Z.ltb_lt _ _)), Hnx by done. simpl. set (c1 := put_stage NewSessionDueEpochChange c).
  pose proof (new_session_panics MaxValidators into_account into_keys c1 (start_queued sys) nx Hnx ltac:(done) Hlen) as Hpanic.
  destruct (new_session _ _ _ c1 (start_queued sys)) as [[[v c2] sys2]|] eqn:Hns; simpl.
  - split.
    + split; [done|]. intros (a & Ha & Hs). exfalso. enough (Ret (v, c2, sys2) = Panic) by done. apply Hpanic. exists a.
      split; [done|]. unfold stuck. by rewrite start_queued_providers, start_queued_consumers.
    + destruct (new_session_effect c1 _ _ _ _ nx Hnx ltac:(done) Hns) as (-> & -> & Ho).
      intros c' sys' [= <- <-]. split; [done|].
      rewrite queue_validators_queued, queue_validators_office, Ho, start_queued_office by done.
      split; [|done]. pose proof (length_filter (λ a, is_Some (load_keys a sys2)) (account_of into_account <$> committee nx)) as Hf.
      rewrite length_fmap in Hf. lia.
  - split; [|done]. split; [|done]. intros _. destruct (proj1 Hpanic eq_refl) as (a & Ha & Hs).
    exists a. split; [done|]. unfold stuck in *. by rewrite start_queued_providers, start_queued_consumers in Hs.
Qed.

(** *** One block *)

Context (d : Z) (Hd : 0 < d).

(** The epoch of a slot, and the slots whose epoch the machine integers hold. *)
Definition slot_epoch (slot : Z) : Z := slot * SLOT_DURATION / d.
Definition slot_ok (slot : Z) : Prop := 0 ≤ slot ∧ slot * SLOT_DURATION + 2 < u_bound 64.

Lemma slot_epoch_bound slot : slot_ok slot → 0 ≤ slot_epoch slot ∧ in_u 64 (slot_epoch slot + 2).
Proof.
  intros [H0 H1]. unfold slot_epoch, in_u, SLOT_DURATION, MILLISECS_PER_BLOCK in *.
  pose proof (Z.div_pos (slot * 6000) d ltac:(lia) Hd).
  pose proof (Z.div_le_upper_bound (slot * 6000) d (slot * 6000) Hd ltac:(nia)). lia.
Qed.
Lemma slot_epoch_mono slot slot' : slot ≤ slot' → slot_epoch slot ≤ slot_epoch slot'.
Proof. intros. apply Z.div_le_mono; [done|]. unfold SLOT_DURATION, MILLISECS_PER_BLOCK. lia. Qed.

Lemma runtime_epoch_exact slot sc :
  slot_ok slot → EpochDurationMillis sc = d → runtime_epoch_number slot sc = Ret (slot_epoch slot).
Proof.
  intros [H0 H1] Hsc. unfold runtime_epoch_number, current_epoch_number, epoch_duration_millis, checked_div.
  rewrite Hsc. destruct (Z.eqb_spec d 0); [lia|]. unfold reference_timestamp_millis.
  rewrite wmul_exact; [done|]. unfold in_u. unfold SLOT_DURATION, MILLISECS_PER_BLOCK in *. lia.
Qed.

Lemma sidechain_hook slot sc :
  slot_ok slot → EpochDurationMillis sc = d →
  sidechain_on_initialize no_handler (reference_timestamp_millis slot) sc tt
  = Ret (put_epoch_number (slot_epoch slot) sc, tt).
Proof.
  intros Hs Hsc. unfold sidechain_on_initialize.
  pose proof (runtime_epoch_exact slot sc Hs Hsc) as ->%(λ H, H : current_epoch_number _ sc = _). simpl.
  destruct (EpochNumber sc) as [e|] eqn:He; [|done].
  destruct (Z.eqb_spec e (slot_epoch slot)) as [->|]; simpl; [|done].
  unfold put_epoch_number. rewrite <-He. by destruct sc.
Qed.

(** Aura's authorities and the queue between blocks. *)
Record sys_ok sys : Prop := {
  so_some : in_office sys ≠ [];
  so_office : Z.of_nat (length (in_office sys)) ≤ MaxValidators;
  so_queued : Z.of_nat (length (queued sys)) ≤ MaxValidators;
}.

(** The entry of a block in the log: the member in the author's seat, if there is one. *)
Definition log_entry (slot : Z) (members : list (CommitteeMember A K)) (office : list AccountId) : list (Z * BlockAuthor A) :=
  match members !! Z.to_nat (slot mod Z.of_nat (length office)) with
  | Some m => [(slot, BlockAuthor_from m)]
  | None => []
  end.

Lemma author_seat slot sys : sys_ok sys → 0 ≤ slot mod Z.of_nat (length (in_office sys)) < Z.of_nat (length (in_office sys)).
Proof. intros [Hne _ _]. apply Z.mod_pos_bound. destruct (in_office sys); [done|simpl; lia]. Qed.

Lemma logged slot c sys log :
  sys_ok sys →
  (author ← get_author slot c sys; Ret (BlockProductionLog.on_initialize author (Some slot) log)) =
  Ret (log ++ log_entry slot (committee (CurrentCommittee c)) (in_office sys)).
Proof.
  intros Hok. pose proof (author_seat slot sys Hok) as Hb. destruct Hok as [Hne Hmax _].
  unfold get_author, find_current_authority. rewrite find_author_index by done. simpl.
  unfold log_entry. unfold MaxValidators in Hmax. set (i := slot mod _) in *.
  rewrite (proj2 (try_into_Some 32 i i))
    by (split; [unfold in_u; change (u_bound 32) with 4294967296; lia|done]). simpl.
  unfold get_current_authority_at. destruct (committee (CurrentCommittee c)) as [|m l] eqn:Hc; simpl.
  - by rewrite app_nil_r.
  - destruct ((m :: l) !! _); simpl; [done|by rewrite app_nil_r].
Qed.

(** What [initialize_block] does, up to the session hook. *)
Lemma initialize_block_eq slot s :
  slot_ok slot → EpochDurationMillis (Sidechain s) = d → CurrentSlot s < slot → sys_ok (Session s) →
  let n := system_number s + 1 in
  let c := CommitteePallet.on_initialize n (slot_epoch slot) (SessionCommitteeManagement s) in
  initialize slot s =
  ('(c', sys) ← session_on_initialize into_account into_keys (slot_epoch slot) c (Session s);
   Ret (mkRuntime n slot (put_epoch_number (slot_epoch slot) (Sidechain s)) c'
          (Log s ++ log_entry slot (committee (CurrentCommittee c)) (in_office (Session s))) sys)).
Proof.
  intros Hs Hsc Hlt Hok n c. unfold initialize_block.
  rewrite (proj2 (Z.leb_gt _ _)) by done. rewrite sidechain_hook by done. simpl.
  rewrite runtime_epoch_exact by done. simpl. fold n c.
  pose proof (logged slot c (Session s) (Log s) Hok) as Hlog.
  destruct (get_author slot c (Session s)) as [o|]; [|done]. simpl in *. by injection Hlog as ->.
Qed.

(** The inherent leaves a committee planned for the next epoch. *)
Lemma inherent_plans c inputs :
  committee_wf MaxValidators into_account c → in_u 64 (epoch (CurrentCommittee c) + 1) →
  ∃ nx, (call ← CommitteePallet.create_inherent select_authorities inputs_hash (Ok (Some inputs)) c;
         match call with
         | None => Ret c
         | Some call => expect (ok (dispatch None_ call c))
         end) = Ret (put_next (Some nx) c) ∧
    (∀ old, NextCommittee c = Some old → nx = old) ∧
    epoch nx = epoch (CurrentCommittee c) + 1 ∧
    committee_wf MaxValidators into_account (put_next (Some nx) c).
Proof.
  intros Hinv Hu. pose proof Hinv as [Hplan Hsize Hprov].
  unfold CommitteePallet.create_inherent. case_decide as Hsome.
  - destruct (NextCommittee c) as [nx|] eqn:Hnx; [|by destruct Hsome]. exists nx. simpl.
    assert (put_next (Some nx) c = c) as -> by (unfold put_next; rewrite <-Hnx; by destruct c).
    destruct (Hplan nx eq_refl) as [He _]. rewrite wadd_exact in He by done. split_and!; eauto. by intros ? [= <-].
  - assert (NextCommittee c = None) as Hnx by (destruct (NextCommittee c); [by destruct Hsome|done]).
    simpl. rewrite wadd_exact by done. set (e := epoch (CurrentCommittee c) + 1).
    set (l := default (committee (CurrentCommittee c)) (select_authorities inputs e)).
    assert (Z.of_nat (length l) ≤ MaxValidators) as Hlen.
    { unfold l. destruct (select_authorities inputs e) eqn:Hsel; [by eapply Hselect|done]. }
    exists (mkCommitteeInfo e l).
    assert (∀ h, expect (ok (dispatch None_ (Set_ l e h) c)) = Ret (put_next (Some (mkCommitteeInfo e l)) c)) as Hset.
    { intros h. unfold dispatch, CommitteePallet.set, ensure. simpl. rewrite wadd_exact by done.
      unfold e. rewrite Z.eqb_refl. simpl. by rewrite bool_decide_true. }
    split_and!; try done; [|by rewrite Hnx|].
    + unfold l in *. destruct (select_authorities inputs e); by rewrite <-Hset with (h := inputs_hash inputs).
    + split; simpl; [|done..]. intros nx [= <-]. simpl. rewrite wadd_exact by done. done.
Qed.

(** *** The invariant between blocks

    The current committee is that of the epoch of the last block, and one is planned
    for the next epoch. *)
Record chain_inv s : Prop := {
  ci_number : 1 ≤ system_number s;
  ci_duration : EpochDurationMillis (Sidechain s) = d;
  ci_slot : slot_ok (CurrentSlot s);
  ci_epoch : epoch (CurrentCommittee (SessionCommitteeManagement s)) = slot_epoch (CurrentSlot s);
  ci_planned : ∃ nx, NextCommittee (SessionCommitteeManagement s) = Some nx ∧
    epoch nx = slot_epoch (CurrentSlot s) + 1;
  ci_wf : committee_wf MaxValidators into_account (SessionCommitteeManagement s);
  ci_stage : CommitteeRotationStage (SessionCommitteeManagement s) ≠ AdditionalSession;
  ci_sys : sys_ok (Session s);
}.

(** What a block at [slot] changes. *)
Record follows (slot : Z) s s' : Prop := {
  f_number : system_number s' = system_number s + 1;
  f_slot : CurrentSlot s' = slot;
  f_later : CurrentSlot s < slot;
  f_epoch : slot_epoch slot = slot_epoch (CurrentSlot s) ∨ slot_epoch slot = slot_epoch (CurrentSlot s) + 1;
  f_same : slot_epoch slot = slot_epoch (CurrentSlot s) →
    CurrentCommittee (SessionCommitteeManagement s') = CurrentCommittee (SessionCommitteeManagement s) ∧
    CommitteeRotationStage (SessionCommitteeManagement s') = AwaitEpochChange ∧
    in_office (Session s') =
      if decide (CommitteeRotationStage (SessionCommitteeManagement s) = NewSessionDueEpochChange)
      then handed_over (Session s) else in_office (Session s);
  f_next : slot_epoch slot = slot_epoch (CurrentSlot s) + 1 →
    NextCommittee (SessionCommitteeManagement s) = Some (CurrentCommittee (SessionCommitteeManagement s')) ∧
    CommitteeRotationStage (SessionCommitteeManagement s') = NewSessionDueEpochChange ∧
    in_office (Session s') = handed_over (Session s);
}.

Lemma handed_over_ok sys : sys_ok sys → handed_over sys ≠ [] ∧ Z.of_nat (length (handed_over sys)) ≤ MaxValidators.
Proof. intros [Hne Ho Hq]. unfold handed_over. by destruct (queued sys). Qed.

#[local] Arguments CommitteePallet.create_inherent : simpl never.
#[local] Arguments CommitteePallet.dispatch : simpl never.

(** The block after the session hook: the inherent completes the invariant. *)
Lemma finish_block slot s c1 sys1 inputs :
  0 ≤ system_number s → EpochDurationMillis (Sidechain s) = d → slot_ok slot → CurrentSlot s < slot → sys_ok (Session s) →
  let c0 := CommitteePallet.on_initialize (system_number s + 1) (slot_epoch slot) (SessionCommitteeManagement s) in
  session_on_initialize into_account into_keys (slot_epoch slot) c0 (Session s) = Ret (c1, sys1) →
  committee_wf MaxValidators into_account c1 →
  epoch (CurrentCommittee c1) = slot_epoch slot →
  CommitteeRotationStage c1 ≠ AdditionalSession → sys_ok sys1 →
  ∃ s' nx, author slot (Ok (Some inputs)) s = Ret s' ∧ chain_inv s' ∧
    system_number s' = system_number s + 1 ∧ CurrentSlot s' = slot ∧
    SessionCommitteeManagement s' = put_next (Some nx) c1 ∧ Session s' = sys1.
Proof.
  intros Hnum Hdur Hslot Hlt Hok c0 Hhook Hinv He Hst Hok1.
  destruct (slot_epoch_bound slot Hslot) as [H0 [_ H2]].
  destruct (inherent_plans c1 inputs) as (nx & Hcall & Hold & Hnxe & Hinv'); try done.
  { rewrite He. unfold in_u. lia. }
  unfold author_block. rewrite initialize_block_eq by done. fold c0. rewrite Hhook. simpl.
  destruct (CommitteePallet.create_inherent _ _ _ c1) as [[call|]|]; simpl in Hcall; try done.
  - simpl. rewrite Hcall. simpl. eexists _, nx. split; [done|]. split; [|done].
    split; simpl; try done; [lia|]. exists nx. by rewrite <-He.
  - injection Hcall as ->. simpl. eexists _, nx. split; [done|]. split; [|done].
    split; simpl; try done; [lia|]. exists nx. by rewrite <-He.
Qed.

(** Within an epoch: at most the queue takes office. *)
Lemma author_block_same s slot inputs :
  chain_inv s → slot_ok slot → CurrentSlot s < slot → slot_epoch slot = slot_epoch (CurrentSlot s) →
  ∃ s', author slot (Ok (Some inputs)) s = Ret s' ∧ chain_inv s' ∧ follows slot s s'.
Proof.
  intros Hci Hslot Hlt Hsame. pose proof Hci as [Hnum Hdur _ Hepoch _ Hwf Hstage Hok].
  set (c := SessionCommitteeManagement s) in *.
  assert (∃ sys1, session_on_initialize into_account into_keys (slot_epoch slot) c (Session s)
      = Ret (put_stage AwaitEpochChange c, sys1) ∧ sys_ok sys1 ∧
    in_office sys1 = if decide (CommitteeRotationStage c = NewSessionDueEpochChange)
      then handed_over (Session s) else in_office (Session s)) as (sys1 & Hhook & Hok1 & Ho1).
  { case_decide as Hst.
    - exists (queue_validators (members_of c) (start_queued (Session s))).
      rewrite session_additional by (done || lia). split; [done|].
      assert (in_office (queue_validators (members_of c) (start_queued (Session s))) = handed_over (Session s)) as Ho.
      { rewrite queue_validators_office. apply start_queued_office, Hok. }
      split; [|done]. destruct (handed_over_ok _ Hok). split; rewrite ?Ho; try done.
      rewrite queue_validators_queued. pose proof (inv_size _ _ _ Hwf).
      pose proof (length_filter (λ a, is_Some (load_keys a (start_queued (Session s)))) (members_of c)) as Hf.
      rewrite length_fmap in Hf. lia.
    - exists (Session s). assert (put_stage AwaitEpochChange c = c) as ->.
      { unfold put_stage. destruct c as [? ? ? st]. simpl in *. by destruct st. }
      rewrite session_quiet by (done || lia). done. }
  destruct (finish_block slot s (put_stage AwaitEpochChange c) sys1 inputs)
    as (s' & nx' & Hb & Hci' & Hn & Hsl & Hc' & Hsys); try rewrite on_initialize_id by lia;
    simpl; [lia|done..| |by rewrite Hsame|done|done|]; [by destruct Hwf|].
  exists s'. split; [done|]. split; [done|]. split; try done; [by left|..]; rewrite Hc', ?Hsys; [done|lia].
Qed.

(** The first block of the next epoch rotates, unless an account that leaves is stuck. *)
Lemma author_block_next s slot inputs nx :
  chain_inv s → slot_ok slot → CurrentSlot s < slot → slot_epoch slot = slot_epoch (CurrentSlot s) + 1 →
  NextCommittee (SessionCommitteeManagement s) = Some nx →
  (author slot (Ok (Some inputs)) s = Panic ↔
   ∃ a, a ∈ ProvidedAccounts (SessionCommitteeManagement s) ∖ accounts into_account (committee nx) ∧ stuck a (Session s)) ∧
  ∀ s', author slot (Ok (Some inputs)) s = Ret s' → chain_inv s' ∧ follows slot s s'.
Proof.
  intros Hci Hslot Hlt Hnew Hnx. pose proof Hci as [Hnum Hdur _ Hepoch (nx0 & Hnx0 & Hnxe) Hwf Hstage Hok].
  rewrite Hnx in Hnx0. injection Hnx0 as <-.
  destruct (session_rotates (slot_epoch slot) (SessionCommitteeManagement s) (Session s) nx) as [Hpanic Hret];
    [lia|done|done|apply Hok|].
  assert (CommitteePallet.on_initialize (system_number s + 1) (slot_epoch slot) (SessionCommitteeManagement s)
    = SessionCommitteeManagement s) as Hinit by (apply on_initialize_id; lia).
  destruct (session_on_initialize into_account into_keys (slot_epoch slot) (SessionCommitteeManagement s) (Session s))
    as [[c1 sys1]|] eqn:Hhook.
  - destruct (Hret _ _ eq_refl) as (-> & Hq1 & Ho1). destruct (handed_over_ok _ Hok).
    destruct (inv_next _ _ _ Hwf nx Hnx) as [_ Hlen].
    destruct (finish_block slot s _ sys1 inputs ltac:(lia) Hdur Hslot Hlt Hok (eq_trans (f_equal (λ c, session_on_initialize
      into_account into_keys _ c (Session s)) Hinit) Hhook)) as (s1 & nx' & Hb & Hci' & Hn & Hsl & Hc' & Hsys); simpl; try done.
    + lia.
    + split; by rewrite ?Ho1.
    + rewrite Hb. split; [split; [done|by intros Ha%Hpanic]|]. intros s' [= <-]. split; [done|].
      split; try done; [by right|..]; rewrite Hc', ?Hsys; [lia|done].
  - unfold author_block. rewrite initialize_block_eq by done. rewrite Hinit, Hhook. simpl. by rewrite <-Hpanic.
Qed.

Lemma author_block_step s slot inputs :
  chain_inv s → slot_ok slot → CurrentSlot s < slot → slot_epoch slot ≤ slot_epoch (CurrentSlot s) + 1 →
  (author slot (Ok (Some inputs)) s = Panic ↔
   slot_epoch slot ≠ slot_epoch (CurrentSlot s) ∧
   ∃ nx a, NextCommittee (SessionCommitteeManagement s) = Some nx ∧
     a ∈ ProvidedAccounts (SessionCommitteeManagement s) ∖ accounts into_account (committee nx) ∧ stuck a (Session s)) ∧
  ∀ s', author slot (Ok (Some inputs)) s = Ret s' → chain_inv s' ∧ follows slot s s'.
Proof.
  intros Hci Hslot Hlt Hstep. destruct (ci_planned _ Hci) as (nx & Hnx & _).
  assert (slot_epoch slot = slot_epoch (CurrentSlot s) ∨ slot_epoch slot = slot_epoch (CurrentSlot s) + 1) as [Hsame|Hnew]
    by (pose proof (slot_epoch_mono (CurrentSlot s) slot); lia).
  - destruct (author_block_same s slot inputs Hci Hslot Hlt Hsame) as (s1 & -> & Hci' & Hf).
    split; [split; [done|by intros [? _]]|]. by intros s' [= <-].
  - destruct (author_block_next s slot inputs nx Hci Hslot Hlt Hnew Hnx) as [-> Hret]. split; [|done].
    split; [intros (a & Ha & Hs)|intros (_ & nx' & a & Hnx' & Ha & Hs)].
    + split; [lia|]. by exists nx, a.
    + rewrite Hnx in Hnx'. injection Hnx' as <-. by exists a.
Qed.

(** The log of any block that is built. *)
Lemma author_block_log slot data s s' :
  slot_ok slot → EpochDurationMillis (Sidechain s) = d → CurrentSlot s < slot → sys_ok (Session s) →
  author slot data s = Ret s' →
  Log s' = Log s ++ log_entry slot (committee (CurrentCommittee (SessionCommitteeManagement s))) (in_office (Session s)).
Proof.
  intros Hs Hd' Hlt Hok. unfold author_block. rewrite initialize_block_eq by done.
  destruct (session_on_initialize _ _ _ _ _) as [[c1 sys1]|]; [|done]. simpl.
  assert (committee (CurrentCommittee (CommitteePallet.on_initialize (system_number s + 1) (slot_epoch slot)
    (SessionCommitteeManagement s))) = committee (CurrentCommittee (SessionCommitteeManagement s))) as ->
    by (unfold CommitteePallet.on_initialize; by destruct (_ =? 1)).
  destruct (CommitteePallet.create_inherent _ _ _ _) as [[call|]|]; simpl; [|by intros [= <-]|done].
  destruct (dispatch _ _ _); simpl; [|done]. by intros [= <-].
Qed.

(** *** From genesis *)

(** The genesis of the session pallet queues the members with keys and puts them in
    office. *)
Definition session_genesis c sys : Prop :=
  queued sys = filter (λ a, is_Some (load_keys a sys)) (members_of c) ∧
  in_office sys = queued sys ∧ in_office sys ≠ [].

Record genesis_ok c sys : Prop := {
  go_wf : committee_wf MaxValidators into_account c;
  go_next : NextCommittee c = None;
  go_stage : CommitteeRotationStage c = AwaitEpochChange;
  go_sys : sys_ok sys;
}.

Lemma genesis_build_ok initial scripts sys0 c sys1 sys :
  genesis_build MaxValidators into_account initial scripts sys0 = Ret (c, sys1) →
  session_genesis c sys → genesis_ok c sys.
Proof.
  intros Hg (Hq & Ho & Hne).
  destruct (genesis_inv MaxValidators into_account initial scripts sys0 c sys1 ltac:(done) Hg) as [(_ & Hwf & Hnext) _].
  assert (Z.of_nat (length (queued sys)) ≤ MaxValidators) as Hlen.
  { rewrite Hq. pose proof (length_filter (λ a, is_Some (load_keys a sys)) (members_of c)) as Hf.
    rewrite length_fmap in Hf. pose proof (inv_size _ _ _ Hwf). lia. }
  split; [done|by apply Hnext| |by split; rewrite ?Ho in *].
  revert Hg. unfold genesis_build, bounded_set. case_decide; [|done]. simpl. by intros [= <- _].
Qed.

Lemma first_block utxo c sys slot inputs :
  genesis_ok c sys → 0 < slot → slot_ok slot →
  ∃ s, author slot (Ok (Some inputs)) (runtime_genesis utxo d c sys) = Ret s ∧ chain_inv s ∧
    system_number s = 1 ∧ CurrentSlot s = slot ∧
    committee (CurrentCommittee (SessionCommitteeManagement s)) = committee (CurrentCommittee c) ∧
    CommitteeRotationStage (SessionCommitteeManagement s) = AwaitEpochChange ∧ Session s = sys.
Proof.
  intros [[H1 H2 H3] Hnext Hst Hok] H0 Hslot. set (g := runtime_genesis utxo d c sys).
  set (c0 := CommitteePallet.on_initialize (system_number g + 1) (slot_epoch slot) (SessionCommitteeManagement g)).
  destruct (finish_block slot g c0 sys inputs) as (s & nx & Hb & Hci & Hn & Hsl & Hc & Hsys); try done.
  - apply session_quiet; [done|]. simpl. by rewrite Hst.
  - unfold c0. simpl. split; simpl; try done. by rewrite Hnext.
  - unfold c0. simpl. by rewrite Hst.
  - exists s. rewrite Hn, Hc. split_and!; try done.
Qed.

(** *** A chain of blocks *)

(** Slots increase and no epoch is skipped. *)
Definition next_slot (slot slot' : Z) : Prop := slot < slot' ∧ slot_ok slot' ∧ slot_epoch slot' ≤ slot_epoch slot + 1.
Fixpoint uninterrupted (slot : Z) (slots : list Z) : Prop :=
  match slots with
  | [] => True
  | slot' :: slots => next_slot slot slot' ∧ uninterrupted slot' slots
  end.
Definition good_slots (slots : list Z) : Prop :=
  match slots with [] => True | slot :: slots => 0 < slot ∧ slot_ok slot ∧ uninterrupted slot slots end.

(** The rest of a block, after the hooks and the inherent of the committee pallet:
    inherents of other pallets and transactions.  They may change accounts, session
    keys and the block production log in any way and call the committee pallet, but
    the authorities and the queue only change when a session ends. *)
Record rest_of_block s s' : Prop := {
  rb_number : system_number s' = system_number s;
  rb_slot : CurrentSlot s' = CurrentSlot s;
  rb_sidechain : Sidechain s' = Sidechain s;
  rb_committee : calls (SessionCommitteeManagement s) (SessionCommitteeManagement s');
  rb_office : in_office (Session s') = in_office (Session s);
  rb_queued : queued (Session s') = queued (Session s);
}.

(** The blocks of a chain, with the inputs of the selection as their inherent data,
    and the states after each of them. *)
Definition block (slot : Z) (inputs : Inputs) s s' : Prop :=
  ∃ s1, author slot (Ok (Some inputs)) s = Ret s1 ∧ rest_of_block s1 s'.
Fixpoint built s (blocks : list (Z * Inputs)) (states : list State) : Prop :=
  match blocks, states with
  | [], [] => True
  | (slot, inputs) :: blocks, s' :: states => block slot inputs s s' ∧ built s' blocks states
  | _, _ => False
  end.

(** Once a committee is planned, calls only change the scripts. *)
Lemma calls_planned c c' nx :
  calls c c' → NextCommittee c = Some nx →
  NextCommittee c' = Some nx ∧ CurrentCommittee c' = CurrentCommittee c ∧
  ProvidedAccounts c' = ProvidedAccounts c ∧ CommitteeRotationStage c' = CommitteeRotationStage c.
Proof.
  induction 1 as [|c1 c2 c3 (o & call & Hd') _ IH]; intros Hnx; [done|].
  destruct (dispatch_fields _ _ _ _ Hd') as (H1 & H2 & H3).
  destruct IH as (IH1 & -> & -> & ->); [|done].
  destruct call; unfold dispatch, CommitteePallet.set, CommitteePallet.set_main_chain_scripts, ensure in Hd';
    destruct_matches; simplify_eq/=; [|done]. by rewrite Hnx in *.
Qed.

Lemma rest_of_block_inv s s' : chain_inv s → rest_of_block s s' → chain_inv s'.
Proof.
  intros [Hnum Hdur Hslot Hepoch (nx & Hnx & Hnxe) [Hw1 Hw2 Hw3] Hst [Ho1 Ho2 Ho3]] [R1 R2 R3 R4 R5 R6].
  destruct (calls_planned _ _ nx R4 Hnx) as (C1 & C2 & C3 & C4).
  split; rewrite ?R1, ?R2, ?R3, ?C2, ?C4; try done; [by exists nx| |].
  - split; rewrite ?C1, ?C2, ?C3; [|done..]. intros nx' [= <-]. by apply Hw1.
  - split; by rewrite ?R5, ?R6.
Qed.
Lemma rest_of_block_follows slot s s1 s' : chain_inv s1 → follows slot s s1 → rest_of_block s1 s' → follows slot s s'.
Proof.
  intros Hci [F1 F2 F3 F4 F5 F6] [R1 R2 R3 R4 R5 R6]. destruct (ci_planned _ Hci) as (nx & Hnx & _).
  destruct (calls_planned _ _ nx R4 Hnx) as (C1 & C2 & C3 & C4).
  split; rewrite ?R1, ?R2, ?R5, ?C2, ?C4; try done.
Qed.

(** The states of a chain: each follows the one before. *)
Fixpoint linked s (slots : list Z) (states : list State) : Prop :=
  match slots, states with
  | [], [] => True
  | slot :: slots, s' :: states => chain_inv s' ∧ follows slot s s' ∧ linked s' slots states
  | _, _ => False
  end.

Lemma built_linked s blocks states :
  chain_inv s → uninterrupted (CurrentSlot s) blocks.*1 → built s blocks states → linked s blocks.*1 states.
Proof.
  revert s states. induction blocks as [|[slot inputs] blocks IH]; intros s [|s' states] Hci Hun Hb; try done.
  destruct Hun as ((Hlt & Hslot & Hstep) & Hun), Hb as ((s1 & Hs1 & Hrest) & Hb).
  destruct (author_block_step s slot inputs Hci Hslot Hlt Hstep) as [_ Hret].
  destruct (Hret _ Hs1) as [Hci1 Hf1].
  pose proof (rest_of_block_inv s1 s' Hci1 Hrest) as Hci'. pose proof (rest_of_block_follows slot s s1 s' Hci1 Hf1 Hrest) as Hf.
  split; [done|]. split; [done|]. apply IH; [done| |done]. by rewrite (f_slot _ _ _ Hf).
Qed.

(** The blocks of authors, without transactions. *)
Definition with_inputs (blocks : list (Z * Inputs)) : list (Z * InherentData (Inputs:=Inputs)) :=
  (λ b, (b.1, Ok (Some b.2))) <$> blocks.

Lemma author_blocks_built s blocks states :
  author_blocks into_account into_keys select_authorities inputs_hash (with_inputs blocks) s = Ret states →
  built s blocks states.
Proof.
  revert s states. induction blocks as [|[slot inputs] blocks IH]; intros s states; csimpl; [by intros [= <-]|].
  destruct (author slot (Ok (Some inputs)) s) as [s'|] eqn:Hs; [|done]. simpl.
  destruct (author_blocks _ _ _ _ _ s') as [rest|] eqn:Hrest; [|done]. simpl. intros [= <-].
  split; [|by apply IH]. exists s'. split; [done|]. split; try done.
Qed.

Lemma linked_lookup s slots states i s1 s2 :
  chain_inv s → linked s slots states → (s :: states) !! i = Some s1 → states !! i = Some s2 →
  ∃ slot, slots !! i = Some slot ∧ chain_inv s1 ∧ chain_inv s2 ∧ follows slot s1 s2.
Proof.
  revert s slots states. induction i as [|i IH]; intros s slots states Hci Hl H1 H2;
    destruct slots as [|slot slots], states as [|s' states]; try done; destruct Hl as (Hci' & Hf & Hl).
  - simplify_eq/=. eauto.
  - simpl in H1, H2. by apply (IH s' slots states).
Qed.
Lemma linked_inv s slots states i s1 :
  chain_inv s → linked s slots states → (s :: states) !! i = Some s1 → chain_inv s1.
Proof.
  intros Hci Hl. revert s slots states Hci Hl. induction i as [|i IH]; intros s slots states Hci Hl Hi; [by simplify_eq/=|].
  destruct slots as [|slot slots], states as [|s' states]; try done. destruct Hl as (Hci' & _ & Hl). by apply (IH s' slots states).
Qed.

Lemma built_from_genesis utxo c sys slot inputs blocks s states :
  genesis_ok c sys → good_slots (slot :: blocks.*1) →
  built (runtime_genesis utxo d c sys) ((slot, inputs) :: blocks) (s :: states) →
  chain_inv s ∧ linked s blocks.*1 states ∧
  system_number s = 1 ∧ CurrentSlot s = slot ∧
  committee (CurrentCommittee (SessionCommitteeManagement s)) = committee (CurrentCommittee c) ∧
  CommitteeRotationStage (SessionCommitteeManagement s) = AwaitEpochChange ∧ in_office (Session s) = in_office sys.
Proof.
  intros Hg (H0 & Hslot & Hun) ((s1 & Hs1 & Hrest) & Hb).
  destruct (first_block utxo c sys slot inputs Hg H0 Hslot) as (s1' & Hs1' & Hci1 & Hn & Hs & Hc & Hst & Hsys).
  rewrite Hs1 in Hs1'. injection Hs1' as <-.
  pose proof (rest_of_block_inv s1 s Hci1 Hrest) as Hci. destruct Hrest as [R1 R2 R3 R4 R5 R6].
  destruct (ci_planned _ Hci1) as (nx & Hnx & _). destruct (calls_planned _ _ nx R4 Hnx) as (C1 & C2 & C3 & C4).
  split; [done|]. rewrite R1, R2, R5, C2, C4, Hsys. split; [|done]. apply built_linked; [done| |done]. by rewrite R2, Hs.
Qed.

Lemma linked_slots s slots states :
  linked s slots states → length states = length slots ∧ ∀ i s', states !! i = Some s' → slots !! i = Some (CurrentSlot s').
Proof.
  revert s states. induction slots as [|slot slots IH]; intros s [|s' states] Hl; try done.
  destruct Hl as (_ & Hf & Hl). destruct (IH s' states Hl) as [Hlen Hi]. split; [simpl; lia|].
  intros [|i] s2; [|apply Hi]. simpl. intros [= <-]. by rewrite (f_slot _ _ _ Hf).
Qed.
Lemma linked_numbers s slots states i s' :
  linked s slots states → (s :: states) !! i = Some s' → system_number s' = system_number s + Z.of_nat i.
Proof.
  revert s states i. induction slots as [|slot slots IH]; intros s [|s1 states] [|i] Hl Hi; simplify_eq/=; try lia.
  destruct Hl as (_ & Hf & Hl). rewrite (IH s1 states i Hl Hi), (f_number _ _ _ Hf). lia.
Qed.

(** ** Properties of the chain *)

(** C2. The demo chain keeps going.  Take any chain from genesis whose slots increase
    and skip no epoch, whatever the inputs of the selection are, even if it selects
    nobody, and whatever the transactions of its blocks do to accounts and session keys.
    After every block the current committee is the one of the block's epoch, and one
    is planned for the next epoch, which the first block of that epoch installs; within
    an epoch the committee stays.  The first block never panics.  A later one
    panics exactly if it begins a new epoch and an account that leaves the committee has
    no other provider while something other than session keys consumes it. *)
Theorem demo_chain_progress utxo initial scripts sys0 c sys1 sys blocks states :
  genesis_build MaxValidators into_account initial scripts sys0 = Ret (c, sys1) → session_genesis c sys →
  let g := runtime_genesis utxo d c sys in
  good_slots blocks.*1 → built g blocks states →
  (∀ slot inputs, good_slots [slot] → ∃ s, author slot (Ok (Some inputs)) g = Ret s) ∧
  length states = length blocks ∧
  ∀ i s, states !! i = Some s →
    blocks.*1 !! i = Some (CurrentSlot s) ∧ system_number s = Z.of_nat i + 1 ∧
    epoch (CurrentCommittee (SessionCommitteeManagement s)) = slot_epoch (CurrentSlot s) ∧
    committee_wf MaxValidators into_account (SessionCommitteeManagement s) ∧
    ∃ nx, NextCommittee (SessionCommitteeManagement s) = Some nx ∧ epoch nx = slot_epoch (CurrentSlot s) + 1 ∧
      (∀ s', states !! S i = Some s' →
        CurrentCommittee (SessionCommitteeManagement s') =
        if decide (slot_epoch (CurrentSlot s') = slot_epoch (CurrentSlot s))
        then CurrentCommittee (SessionCommitteeManagement s) else nx) ∧
      (∀ slot inputs, next_slot (CurrentSlot s) slot →
        author slot (Ok (Some inputs)) s = Panic ↔
        slot_epoch slot ≠ slot_epoch (CurrentSlot s) ∧
        ∃ a, a ∈ ProvidedAccounts (SessionCommitteeManagement s) ∖ accounts into_account (committee nx) ∧
          providers a (Session s) = 1 ∧ 0 < other_consumers a (Session s)).
Proof.
  intros Hg Hgen g Hgood Hbuilt. assert (genesis_ok c sys) as Hgo by (by eapply genesis_build_ok). split.
  { intros slot inputs (H0 & Hslot & _). destruct (first_block utxo c sys slot inputs Hgo H0 Hslot) as (s & Hs & _). by exists s. }
  destruct blocks as [|[slot inputs] blocks], states as [|s1 states]; try done.
  destruct (built_from_genesis utxo c sys slot inputs blocks s1 states Hgo Hgood Hbuilt) as (Hci & Hl & Hn & Hs & _).
  destruct (linked_slots _ _ _ Hl) as [Hlen Hslots].
  split; [csimpl; rewrite Hlen, length_fmap; done|]. intros i s Hi.
  assert (chain_inv s) as Hci_s by (by eapply linked_inv).
  split; [destruct i as [|i]; simpl in Hi; [simplify_eq; by csimpl|csimpl; by apply Hslots]|].
  split; [rewrite (linked_numbers _ _ _ _ _ Hl Hi); lia|]. split; [apply Hci_s|]. split; [apply Hci_s|].
  destruct (ci_planned _ Hci_s) as (nx & Hnx & Hnxe). exists nx. split; [done|]. split; [done|]. split.
  - intros s' Hi'. destruct (linked_lookup _ _ _ i s s' Hci Hl Hi Hi') as (slot' & _ & _ & Hci' & Hf).
    rewrite (f_slot _ _ _ Hf). case_decide as He; [by apply Hf|].
    destruct (f_epoch _ _ _ Hf) as [|Hnew]; [done|]. destruct (f_next _ _ _ Hf Hnew) as [Hnext _]. congruence.
  - intros slot' inputs' (Hlt & Hslot & Hstep).
    destruct (author_block_step s slot' inputs' Hci_s Hslot Hlt Hstep) as [-> _].
    split; (intros [He Ha]; split; [done|]); [destruct Ha as (nx' & a & Hnx' & Ha)|destruct Ha as (a & Ha)].
    + rewrite Hnx in Hnx'. injection Hnx' as <-. by exists a.
    + by exists nx, a.
Qed.

(** The committee whose members author the block after the [i]th one: the current
    committee, or the one before it if the [i]th block was the first of its epoch. *)
Definition officers (states : list State) (i : nat) : list (CommitteeMember A K) :=
  match states !! i with
  | None => []
  | Some s =>
      let rotated :=
        match i with
        | O => None
        | S j => p ← states !! j; if decide (slot_epoch (CurrentSlot p) = slot_epoch (CurrentSlot s)) then None else Some p
        end in
      committee (CurrentCommittee (SessionCommitteeManagement (default s rotated)))
  end.

Lemma officers_in_office s1 slots states i s :
  chain_inv s1 → CommitteeRotationStage (SessionCommitteeManagement s1) = AwaitEpochChange →
  in_office (Session s1) = members_of (SessionCommitteeManagement s1) →
  (∀ s, s ∈ s1 :: states → committee (CurrentCommittee (SessionCommitteeManagement s)) ≠ [] ∧
     queued (Session s) = members_of (SessionCommitteeManagement s)) →
  linked s1 slots states → (s1 :: states) !! i = Some s →
  in_office (Session s) = account_of into_account <$> officers (s1 :: states) i ∧
  (CommitteeRotationStage (SessionCommitteeManagement s) = AwaitEpochChange →
   in_office (Session s) = members_of (SessionCommitteeManagement s)).
Proof.
  intros Hci1 Hst1 Ho1 Hq Hl. revert s. induction i as [|i IH]; intros s Hi.
  { simpl in Hi. simplify_eq. unfold officers. by simpl. }
  destruct (lookup_lt_is_Some_2 (s1 :: states) i) as [p Hp]; [apply lookup_lt_Some in Hi; lia|].
  destruct (IH p Hp) as [_ IHp]. destruct (linked_lookup s1 slots states i p s Hci1 Hl Hp Hi) as (slot & _ & Hcip & _ & Hf).
  assert (handed_over (Session p) = members_of (SessionCommitteeManagement p)) as Hover.
  { destruct (Hq p) as [Hne Hqp]; [by eapply list_elem_of_lookup_2|]. unfold handed_over. rewrite Hqp.
    by destruct (committee (CurrentCommittee (SessionCommitteeManagement p))). }
  unfold officers. rewrite Hi, Hp. simpl. rewrite (f_slot _ _ _ Hf). case_decide as He; simpl.
  - destruct (f_same _ _ _ Hf (eq_sym He)) as (-> & _ & ->). case_decide as Hst; rewrite ?Hover; [done|].
    assert (in_office (Session p) = members_of (SessionCommitteeManagement p)) as ->; [|done].
    apply IHp. pose proof (ci_stage _ Hcip). by destruct (CommitteeRotationStage (SessionCommitteeManagement p)).
  - destruct (f_epoch _ _ _ Hf) as [|Hnew]; [congruence|]. destruct (f_next _ _ _ Hf Hnew) as (_ & -> & ->). by rewrite Hover.
Qed.

(** C22. Which author the block production log records.  The author of a block holds
    the seat of the slot among Aura's authorities, but the log records the
    member in that seat of the current committee, and nobody if the committee is
    smaller.  As long as committees are not empty and all their members had session
    keys when they were queued, the authorities are the members of the current
    committee, so that the log is right, except for the block right after a rotation:
    its author is a member of the previous committee and the log records the
    one in the same seat of the new committee. *)
Theorem block_author_attribution utxo initial scripts sys0 c sys1 sys blocks states :
  genesis_build MaxValidators into_account initial scripts sys0 = Ret (c, sys1) → session_genesis c sys →
  let g := runtime_genesis utxo d c sys in
  good_slots blocks.*1 → built g blocks states →
  (∀ s slot data s', s = g ∧ good_slots [slot] ∨ s ∈ states ∧ next_slot (CurrentSlot s) slot →
     author slot data s = Ret s' →
     let author_seat := Z.to_nat (slot mod Z.of_nat (length (in_office (Session s)))) in
     is_Some (in_office (Session s) !! author_seat) ∧
     Log s' = Log s ++ match committee (CurrentCommittee (SessionCommitteeManagement s)) !! author_seat with
                       | Some m => [(slot, BlockAuthor_from m)]
                       | None => []
                       end) ∧
  ((∀ s, s ∈ g :: states → committee (CurrentCommittee (SessionCommitteeManagement s)) ≠ [] ∧
      queued (Session s) = members_of (SessionCommitteeManagement s)) →
   in_office sys = members_of c ∧
   ∀ i s, states !! i = Some s → in_office (Session s) = account_of into_account <$> officers states i).
Proof.
  intros Hg Hgen g Hgood Hbuilt. assert (genesis_ok c sys) as Hgo by (by eapply genesis_build_ok).
  assert (∀ s, s ∈ states → chain_inv s) as Hinv.
  { destruct blocks as [|[slot inputs] blocks], states as [|s1 states]; try done; [intros s Hs; by apply elem_of_nil in Hs|].
    destruct (built_from_genesis utxo c sys slot inputs blocks s1 states Hgo Hgood Hbuilt) as (Hci & Hl & _).
    intros s (i & Hi)%list_elem_of_lookup. by eapply linked_inv. }
  split.
  - intros s slot data s' Hs Hb author_seat0.
    assert (slot_ok slot ∧ EpochDurationMillis (Sidechain s) = d ∧ CurrentSlot s < slot ∧ sys_ok (Session s)) as (H1 & H2 & H3 & H4).
    { destruct Hs as [[-> (H0 & Hslot & _)]|[Hs (Hlt & Hslot & _)]]; [by split_and!; try apply Hgo|].
      destruct (Hinv s Hs). by split_and!. }
    split; [|by eapply author_block_log]. apply lookup_lt_is_Some_2. unfold author_seat0.
    pose proof (author_seat slot _ H4). lia.
  - intros Hq. destruct Hgen as (_ & Ho & _). destruct (Hq g) as [_ Hqg]; [by left|]. simpl in Hqg.
    split; [by rewrite Ho|]. destruct blocks as [|[slot inputs] blocks], states as [|s1 states]; try done.
    destruct (built_from_genesis utxo c sys slot inputs blocks s1 states Hgo Hgood Hbuilt) as (Hci & Hl & _ & _ & Hc & Hst & Ho1).
    intros i s Hi. eapply officers_in_office; try done; [by rewrite Ho1, Ho, Hqg, Hc|]. intros s' Hs'. apply Hq. by right.
Qed.

(** *** The epochs of a chain *)

Abbreviation epoch_at s := (slot_epoch (CurrentSlot s)).

Lemma linked_mono s slots states i j si sj :
  linked s slots states → (i ≤ j)%nat → (s :: states) !! i = Some si → (s :: states) !! j = Some sj →
  epoch_at si ≤ epoch_at sj.
Proof.
  revert s slots states i si. induction j as [|j IH]; intros s slots states i si Hl Hij Hi Hj.
  { assert (i = O) as -> by lia. simplify_eq. lia. }
  destruct slots as [|slot slots], states as [|s' states]; try done. destruct Hl as (_ & Hf & Hl).
  destruct i as [|i]; [|by apply (IH s' slots states i); [|lia|..]]. simpl in Hi. simplify_eq.
  transitivity (epoch_at s'); [|by apply (IH s' slots states O); [|lia|..]].
  apply slot_epoch_mono. rewrite (f_slot _ _ _ Hf). pose proof (f_later _ _ _ Hf). lia.
Qed.

Lemma linked_same_committee s slots states i j si sj :
  linked s slots states → (i ≤ j)%nat → (s :: states) !! i = Some si → (s :: states) !! j = Some sj →
  epoch_at si = epoch_at sj →
  CurrentCommittee (SessionCommitteeManagement sj) = CurrentCommittee (SessionCommitteeManagement si).
Proof.
  revert s slots states i si. induction j as [|j IH]; intros s slots states i si Hl Hij Hi Hj He.
  { assert (i = O) as -> by lia. by simplify_eq. }
  destruct slots as [|slot slots], states as [|s' states]; try done. pose proof Hl as (_ & Hf & Hl').
  destruct i as [|i]; [|by apply (IH s' slots states i); [|lia|..]]. simpl in Hi. simplify_eq.
  pose proof (linked_mono _ _ _ O 1 si s' Hl ltac:(lia) eq_refl eq_refl).
  pose proof (linked_mono _ _ _ 1 (S j) s' sj Hl ltac:(lia) eq_refl Hj).
  destruct (f_same _ _ _ Hf) as [<- _]; [rewrite <-(f_slot _ _ _ Hf); lia|].
  apply (IH s' slots states O); [done|lia|done|done|lia].
Qed.

Lemma linked_no_gap s slots states last e :
  linked s slots states → list.last (s :: states) = Some last → epoch_at s ≤ e ≤ epoch_at last →
  ∃ i si, (s :: states) !! i = Some si ∧ epoch_at si = e.
Proof.
  revert s slots. induction states as [|s' states IH]; intros s slots Hl Hlast He.
  { simpl in Hlast. simplify_eq. exists O, last. split; [done|lia]. }
  destruct slots as [|slot slots]; [done|]. destruct Hl as (_ & Hf & Hl).
  destruct (decide (epoch_at s = e)); [by exists O, s|].
  destruct (IH s' slots Hl Hlast) as (i & si & Hi & Hsi); [|by exists (S i), si].
  pose proof (f_epoch _ _ _ Hf) as Hstep. rewrite <-(f_slot _ _ _ Hf) in Hstep. lia.
Qed.

(** *** The client of the chain *)

Context {ApiError BlockchainError : Type} `{!ClientErrors ApiError BlockchainError}.
Context `{CandidateVerifier A K, CborWriter, !Hex} (as_ref : A → bytes).

Abbreviation client_of states := (node_client (ApiError:=ApiError) (BlockchainError:=BlockchainError) states).

Lemma committee_at_state (states : list State) (n : Z) s :
  states !! Z.to_nat n = Some s →
  committee_at as_ref (client_of states) Z.to_nat n =
  Ok (GetCommitteeResponse_new as_ref (epoch (CurrentCommittee (SessionCommitteeManagement s)))
        (committee (CurrentCommittee (SessionCommitteeManagement s)))).
Proof.
  intros Hs. unfold committee_at, get_current_committee_versioned, validator_management_api_version. simpl.
  unfold at_block. by rewrite Hs.
Qed.
Lemma planned_at_state (states : list State) (n : Z) s :
  states !! Z.to_nat n = Some s →
  planned_at as_ref (client_of states) Z.to_nat n =
  Ok (option_map (λ nx, GetCommitteeResponse_new as_ref (epoch nx) (committee nx))
        (NextCommittee (SessionCommitteeManagement s))).
Proof.
  intros Hs. unfold planned_at, get_next_committee_versioned, validator_management_api_version. simpl.
  unfold at_block. rewrite Hs. simpl. unfold api_get_next_committee. by destruct (NextCommittee _).
Qed.

Definition epoch_of_block (states : list State) (n : Z) : Z :=
  default 0 ((λ s, epoch_at s) <$> states !! Z.to_nat n).

Lemma node_serves g s slots states :
  linked s slots states → chain_inv s → Z.of_nat (length (s :: states)) < u_bound 31 →
  serves_chain (client_of (g :: s :: states)) Z.to_nat (epoch_of_block (g :: s :: states)).
Proof.
  intros Hl Hci Hlen.
  assert (∀ n, 1 ≤ n ≤ best_number (client_of (g :: s :: states)) →
    ∃ sn, (g :: s :: states) !! Z.to_nat n = Some sn ∧ (s :: states) !! pred (Z.to_nat n) = Some sn) as Hblock.
  { intros n Hn. simpl in Hn. destruct (lookup_lt_is_Some_2 (s :: states) (pred (Z.to_nat n))) as [sn Hsn]; [simpl; lia|].
    exists sn. split; [|done]. replace (Z.to_nat n) with (S (pred (Z.to_nat n))) by lia. done. }
  split; simpl.
  - change (length (s :: states)) with (S (length states)) in Hlen. lia.
  - intros n Hn. rewrite decide_True; [done|lia].
  - done.
  - lia.
  - intros n Hn. destruct (Hblock n Hn) as (sn & Hsn & Hsn'). unfold at_block, epoch_of_block. rewrite Hsn. simpl.
    assert (chain_inv sn) as Hcin by (by eapply linked_inv). unfold api_get_sidechain_status.
    rewrite runtime_epoch_exact by apply Hcin. simpl. eauto.
  - intros m n Hm Hn. destruct (Hblock m) as (sm & Hsm & Hsm'); [simpl; lia|]. destruct (Hblock n) as (sn & Hsn & Hsn'); [simpl; lia|].
    unfold epoch_of_block. rewrite Hsm, Hsn. simpl. eapply linked_mono; [done| |done|done]. lia.
Qed.

(** What the epoch query answers on the chain. *)
Record committee_answer (genesis : Committee) (states : list State) (first last : State) (e : Z)
    (r : result bytes GetCommitteeResponse) : Prop := {
  answer_genesis : e = 0 → r = Ok (GetCommitteeResponse_new as_ref 0 (committee (CurrentCommittee genesis)));
  answer_unknown : e ≠ 0 → e < epoch_at first ∨ epoch_at last + 1 < e → is_ok r = false;
  answer_block s : e ≠ 0 → s ∈ states → epoch_at s = e →
    r = Ok (GetCommitteeResponse_new as_ref e (committee (CurrentCommittee (SessionCommitteeManagement s))));
  answer_known : epoch_at first ≤ e ≤ epoch_at last → ∃ s, s ∈ states ∧ epoch_at s = e;
  answer_next : e ≠ 0 → e = epoch_at last + 1 →
    ∃ nx, NextCommittee (SessionCommitteeManagement last) = Some nx ∧
      r = Ok (GetCommitteeResponse_new as_ref e (committee nx));
}.

Lemma epoch_of_index g (states : list State) i s :
  states !! i = Some s → epoch_of_block (g :: states) (Z.of_nat i + 1) = epoch_at s.
Proof.
  intros Hi. unfold epoch_of_block. replace (Z.to_nat (Z.of_nat i + 1)) with (S i) by lia. simpl. by rewrite Hi.
Qed.

Lemma last_index g (s : State) states last :
  list.last (s :: states) = Some last →
  best_number (client_of (g :: s :: states)) = Z.of_nat (length states) + 1 ∧ (s :: states) !! length states = Some last.
Proof. intros Hlast. split; [simpl; lia|]. by rewrite last_lookup in Hlast. Qed.

Lemma chain_answers utxo c sys s slots states last e :
  linked s slots states → chain_inv s → Z.of_nat (length (s :: states)) < u_bound 31 →
  list.last (s :: states) = Some last →
  ∃ r, get_epoch_committee as_ref (client_of (runtime_genesis utxo d c sys :: s :: states)) e = Some (Ret r) ∧
    committee_answer c (s :: states) s last e r.
Proof.
  intros Hl Hci Hlen Hlast. set (g := runtime_genesis utxo d c sys).
  destruct (last_index g s states last Hlast) as [Hbest Hlasti].
  assert (∀ i si, (s :: states) !! i = Some si → chain_inv si) as Hinv by (intros; by eapply linked_inv).
  assert (chain_inv last) as Hcil by (by eapply Hinv).
  assert (epoch_at s ≤ e ≤ epoch_at last → ∃ s0, s0 ∈ s :: states ∧ epoch_at s0 = e) as Hknown.
  { intros He. destruct (linked_no_gap _ _ _ _ e Hl Hlast He) as (i & si & Hi & Hsi). exists si.
    split; [by eapply list_elem_of_lookup_2|done]. }
  destruct (decide (e = 0)) as [->|He0].
  { eexists. split; [unfold get_epoch_committee; simpl; done|]. split; [done|done|done|done|done]. }
  pose proof (node_serves g s slots states Hl Hci Hlen) as Hserves.
  destruct (slot_epoch_bound _ (ci_slot _ Hcil)) as [Hl0 [_ Hl2]].
  destruct (get_epoch_committee_serves as_ref _ _ _ Hserves e He0) as (r & Hr & Hunknown & Hin & Hnext).
  { rewrite Hbest, (epoch_of_index _ _ _ _ Hlasti). unfold in_u. lia. }
  rewrite Hbest, (epoch_of_index _ _ _ _ Hlasti) in Hunknown, Hin, Hnext.
  change 1 with (Z.of_nat 0 + 1) in Hunknown at 1, Hin at 1.
  rewrite (epoch_of_index g (s :: states) 0 s eq_refl) in Hunknown, Hin.
  exists r. split; [done|]. split; [done|by intros _| |done|].
  - intros s0 _ Hs0 He. apply list_elem_of_lookup in Hs0 as [i Hi].
    pose proof (linked_mono _ _ _ O i s s0 Hl ltac:(lia) eq_refl Hi).
    pose proof (linked_mono _ _ _ i (length states) s0 last Hl) as Hle.
    specialize (Hle ltac:(apply lookup_lt_Some in Hi; simpl in Hi; lia) Hi Hlasti).
    destruct (Hin ltac:(lia)) as [(n & Hn & Hen & ->)|[Hno _]].
    + destruct (lookup_lt_is_Some_2 (s :: states) (pred (Z.to_nat n))) as [sn Hsn]; [simpl; lia|].
      assert ((g :: s :: states) !! Z.to_nat n = Some sn) as Hgn
        by (replace (Z.to_nat n) with (S (pred (Z.to_nat n))) by lia; done).
      rewrite (committee_at_state _ _ _ Hgn).
      unfold epoch_of_block in Hen. rewrite Hgn in Hen. simpl in Hen. rewrite (ci_epoch _ (Hinv _ _ Hsn)), Hen.
      do 2 f_equal. destruct (Nat.le_ge_cases i (pred (Z.to_nat n))) as [Hij|Hij].
      * rewrite (linked_same_committee _ _ _ _ _ _ _ Hl Hij Hi Hsn); [done|lia].
      * rewrite (linked_same_committee _ _ _ _ _ _ _ Hl Hij Hsn Hi); [done|lia].
    + exfalso. apply (Hno (Z.of_nat i + 1)); [apply lookup_lt_Some in Hi; simpl in Hi; lia|].
      by rewrite (epoch_of_index _ _ _ _ Hi).
  - intros _ He. destruct (ci_planned _ Hcil) as (nx & Hnx & Hnxe). exists nx. split; [done|].
    rewrite (Hnext He), (planned_at_state _ _ last).
    + rewrite Hnx. simpl. by rewrite Hnxe, <-He.
    + replace (Z.to_nat (Z.of_nat (length states) + 1)) with (S (length states)) by lia. done.
Qed.

(** C14. The query for the committee of an epoch answers with the right one on every
    chain that skips no epoch, for fewer than 2^31 blocks and whatever the inputs of the
    selection and the transactions are: epoch 0 is answered with the genesis
    committee, each epoch of the chain with the committee current in any of its
    blocks, all of which agree, the epoch after the last block with the planned
    committee, and other epochs with an error.  The binary search always ends. *)
Theorem epoch_committee_query utxo initial scripts sys0 c sys1 sys blocks states e :
  genesis_build MaxValidators into_account initial scripts sys0 = Ret (c, sys1) → session_genesis c sys →
  let g := runtime_genesis utxo d c sys in
  good_slots blocks.*1 → built g blocks states →
  Z.of_nat (length states) < u_bound 31 →
  ∀ first last, head states = Some first → list.last states = Some last →
  ∃ r, get_epoch_committee as_ref (client_of (g :: states)) e = Some (Ret r) ∧
    committee_answer c states first last e r.
Proof.
  intros Hg Hgen g Hgood Hbuilt Hlen first last Hfirst Hlast.
  destruct blocks as [|[slot inputs] blocks], states as [|s1 states]; try done.
  destruct (built_from_genesis utxo c sys slot inputs blocks s1 states) as (Hci & Hl & _);
    [by eapply genesis_build_ok|done|done|].
  injection Hfirst as <-. by eapply chain_answers.
Qed.
End Chain.

(** ** The status of registrations *)

Section RegistrationStatus.
Context {Sys AccountId A K ApiError BlockchainError SourceError : Type} `{Countable AccountId}.
Context `{!ClientErrors ApiError BlockchainError, CandidateVerifier A K, CborWriter, !Hex, !HexLaws}.

(** C15. The status of registrations tells who takes part in the selection.  For an
    operator that Cardano knows, the query lists a valid entry first exactly when the
    runtime would select a candidate from its registrations, and then the entry is the
    registration that the candidate stems from, its stake and keys included; the
    entries after it are all its newer registrations, none of them valid.  If the
    runtime would not select the operator, no entry is valid. *)
Theorem registration_status_exact (account_ss58 : bytes → bytes) (debug_source : SourceError → bytes)
    (source : AuthoritySelectionDataSource SourceError) (states : list (RuntimeState Sys AccountId A K)) best
    mc_epoch candidates cr :
  list.last states = Some best →
  get_candidates source mc_epoch (committee_candidate_address (api_get_main_chain_scripts best)) = Ok candidates →
  NoDup (stake_pool_public_key <$> candidates) →
  Forall (λ cr, Forall is_byte (stake_pool_public_key cr)) candidates →
  cr ∈ candidates → NoDup ((λ r, Domain.ordering_key (utxo_info r)) <$> registrations cr) →
  ∃ entries,
    get_registrations account_ss58 debug_source
      (node_client (ApiError:=ApiError) (BlockchainError:=BlockchainError) states) source
      mc_epoch (stake_pool_public_key cr) = Ok entries ∧
    status_of (A:=A) (K:=K) account_ss58 (api_genesis_utxo best) cr entries.
Proof.
  intros Hlast Hsource Hnd Hbytes Hin Hregs. rewrite last_lookup in Hlast.
  destruct (map_of_spec (A:=A) (K:=K) (ApiError:=ApiError) account_ss58 (api_genesis_utxo best) candidates cr Hnd Hbytes Hin Hregs)
    as (m & entries & Hm & Hlookup & Hst).
  exists entries. split; [|done]. unfold get_registrations, candidates_registrations_for_epoch, get_candidates_for_epoch,
    registrations_to_rpc_response. simpl. unfold at_block. rewrite Hlast. simpl. rewrite Hsource. simpl.
  rewrite Hm. simpl. by rewrite Hlookup.
Qed.
End RegistrationStatus.

(** ** Transfers of the bridge *)

Section Transfers.
Context {AccountId Data Balances : Type} `{Countable AccountId}.
Context (deposit_creating : AccountId → Z → Balances → Balances) (ReserveAccount : AccountId).

#[local] Instance helper_handler : TransferHandler AccountId (TestHelperState AccountId Data * Balances) :=
  helper_handle_transfer deposit_creating ReserveAccount.

(** The amounts sent to the reserve and to a recipient, and the deposits in order. *)
Definition reserve_amounts (ts : list (BridgeTransferV1 AccountId)) : list Z :=
  filter_map (λ t, match t with ReserveTransfer x => Some x | _ => None end) ts.
Definition user_amounts (a : AccountId) (ts : list (BridgeTransferV1 AccountId)) : list Z :=
  filter_map (λ t, match t with UserTransfer x r => if decide (r = a) then Some x else None | _ => None end) ts.
Definition deposits (ts : list (BridgeTransferV1 AccountId)) : list (AccountId * Z) :=
  filter_map (λ t, match t with
    | UserTransfer x r => Some (r, x)
    | ReserveTransfer x => Some (ReserveAccount, x)
    | InvalidTransfer _ _ => None
    end) ts.

Lemma handled_transfers ts (s : TestHelperState AccountId Data) b :
  let h := foldl (flip handle_incoming_transfer) (s, b) ts in
  TotalInvalidTransfers h.1 = TotalInvalidTransfers s ∧
  ParticipationDataReleasePeriod h.1 = ParticipationDataReleasePeriod s ∧
  LatestParticipationData h.1 = LatestParticipationData s ∧
  TotalReserveTransfers h.1 = foldl (wadd 64) (TotalReserveTransfers s) (reserve_amounts ts) ∧
  (∀ a, default 0 (UserTransferTotals h.1 !! a)
        = foldl (wadd 64) (default 0 (UserTransferTotals s !! a)) (user_amounts a ts)) ∧
  h.2 = foldl (λ b d, deposit_creating d.1 d.2 b) b (deposits ts).
Proof.
  revert s b. induction ts as [|t ts IH]; intros s b; [done|]. cbn [foldl].
  destruct t as [x r|x|x u]; cbn -[wadd];
    match goal with |- context [foldl (flip handle_incoming_transfer) (?s', ?b') ts] =>
      destruct (IH s' b') as (-> & -> & -> & -> & Hu & ->) end; split_and!; try done; intros a; rewrite Hu; simpl; try done.
  case_decide as Hra; [subst; by rewrite lookup_insert_eq|by rewrite lookup_insert_ne].
Qed.

(** The demo runtime accounts for the tokens that cross the bridge.  After any
    number of blocks, the helper pallet has counted, per recipient and for the
    reserve, exactly the amounts of the transfers between the first checkpoint and the
    stored one, and deposited them in the order of the ledger; the total of invalid
    transfers stays at zero, whatever invalid transfers there were. *)
Theorem demo_transfer_totals MaxTransfersPerBlock recipient_try_from row_order pool tx_in_configuration
    block_no_of tx_info scripts (balances0 : Balances) period
    (s : BridgeState (TestHelperState AccountId Data * Balances)) m0 c0 rc0 m :
  (∀ A (l : list A), row_order A l ≡ₚ l) → pool_wf pool tx_info →
  1 ≤ MaxTransfersPerBlock → resolve tx_info c0 = Ok rc0 → get_block_number rc0 ≤ m0 →
  bridge_run MaxTransfersPerBlock recipient_try_from row_order pool tx_in_configuration block_no_of tx_info
    (mkBridge (Some scripts) (Some c0) (helper_genesis period, balances0)) m0 s m →
  ∃ c rc, DataCheckpoint s = Some c ∧ resolve tx_info c = Ok rc ∧ get_block_number rc ≤ m ∧
    let transfers := filter_map (utxo_to_transfer recipient_try_from)
      (between row_order pool tx_in_configuration scripts rc0 rc) in
    let '(helper, balances) := bridge_handler s in
    TotalInvalidTransfers helper = 0 ∧
    TotalReserveTransfers helper = wsum 64 (reserve_amounts transfers) ∧
    (∀ a, default 0 (UserTransferTotals helper !! a) = wsum 64 (user_amounts a transfers)) ∧
    balances = foldl (λ b d, deposit_creating d.1 d.2 b) balances0 (deposits transfers).
Proof.
  intros Hrow Hpool Hmax Hrc0 Hm0 Hrun.
  pose proof (pool_wf_bridge pool tx_in_configuration tx_info scripts Hpool) as Hwf.
  destruct (bridge_run_inv MaxTransfersPerBlock recipient_try_from row_order pool tx_in_configuration block_no_of tx_info
    scripts (mkBridge (Some scripts) (Some c0) (helper_genesis period, balances0)) m0 c0 rc0 s m
    Hrow Hwf Hmax eq_refl eq_refl Hrc0 Hm0 Hrun)
    as (c & rc & _ & Hc & Hrc & Hm & _ & Hh).
  exists c, rc. split_and!; try done. simpl. set (ts := filter_map _ _) in *.
  destruct (handled_transfers ts (helper_genesis period) balances0) as (H1 & _ & _ & H2 & H3 & H4).
  simpl in Hh. rewrite Hh. destruct (foldl _ _ ts) as [helper balances]. simpl in *.
  rewrite H1, H2, H4. split_and!; try done.
Qed.
End Transfers.

(** ** Witnesses: a chain of five blocks

    Accounts, authorities and keys are integers.  The validators in office and queued
    are kept beside the accounts of [SessionEnv]. *)

Section WithQueue.
Context {Sys0 : Type} `{Hops0 : SessionOps Sys0 Z Z}.
Abbreviation QueueSys := (Sys0 * (list Z * list Z))%type.

#[local] Instance queue_session_ops : SessionOps QueueSys Z Z := {|
  providers a s := providers a s.1;
  other_consumers a s := other_consumers a s.1;
  inc_providers a s := (inc_providers a s.1, s.2);
  dec_providers a s := (λ x, (x, s.2)) <$> dec_providers a s.1;
  load_keys a s := load_keys a s.1;
  dispatch_set_keys a k s := (λ x, (x, s.2)) <$> dispatch_set_keys a k s.1;
  dispatch_purge_keys a s := (λ x, (x, s.2)) <$> dispatch_purge_keys a s.1;
  keys_conflict := keys_conflict;
|}.
#[local] Instance queue_session_queue : SessionQueue QueueSys Z := {|
  in_office s := s.2.1;
  queued s := s.2.2;
  start_queued s := (s.1, (match s.2.2 with [] => s.2.1 | l => l end, s.2.2));
  queue_validators l s := (s.1, (s.2.1, filter (λ a, is_Some (load_keys a s.1)) l));
  find_author slot s := match s.2.1 with [] => Panic | l => Ret (Some (slot mod Z.of_nat (length l))) end;
|}.

Lemma lifted_Ok {E X Y} (r : result E X) (y : Y) x y' : (λ x, (x, y)) <$> r = Ok (x, y') → r = Ok x ∧ y' = y.
Proof. destruct r; [|done]. by intros [= -> ->]. Qed.

#[local] Instance queue_session_laws `{!SessionLaws Sys0 Z Z} : SessionLaws QueueSys Z Z.
Proof.
  split; simpl; intros.
  all: repeat match goal with
    | Heq : (λ x, (x, _)) <$> _ = Ok ?s |- _ => destruct s as [? ?]; apply lifted_Ok in Heq as [Heq ->]; simpl in *
    end.
  - apply providers_nonneg.
  - apply other_consumers_nonneg.
  - by apply consumers_need_providers.
  - apply inc_providers_providers.
  - apply inc_providers_consumers.
  - apply inc_providers_keys.
  - destruct s as [s q]. simpl in *.
    rewrite <-dec_providers_Ok. by destruct (dec_providers a s).
  - by apply dec_providers_providers.
  - by eapply dec_providers_consumers.
  - by eapply dec_providers_keys.
  - destruct s as [s q]. simpl in *.
    assert (is_ok (dispatch_set_keys a k s) = true) as Hok by (by apply set_keys_Ok). by destruct (dispatch_set_keys a k s).
  - by apply set_keys_keys.
  - by eapply set_keys_providers.
  - by eapply set_keys_consumers.
  - destruct (dispatch_purge_keys a s.1) eqn:Hp; [done|]. by eapply purge_keys_Err.
  - by apply purge_keys_keys.
  - by eapply purge_keys_providers.
  - by eapply purge_keys_consumers.
Qed.
#[local] Instance queue_queue_laws : SessionQueueLaws QueueSys Z Z.
Proof.
  split; simpl; intros; try done.
  { by destruct (s.2.1). }
  all: match goal with
    | Heq : (λ x, (x, _)) <$> _ = Ok ?s |- _ => destruct s as [? ?]; by apply lifted_Ok in Heq as [_ ->]
    end.
Qed.
End WithQueue.
#[local] Existing Instance queue_session_ops.
#[local] Existing Instance queue_session_queue.
#[local] Existing Instance queue_session_laws.
#[local] Existing Instance queue_queue_laws.
#[local] Existing Instance plain_hex.
#[local] Existing Instance plain_hex_laws.

Abbreviation DemoSys := (ToySys * (list Z * list Z))%type.

(** Epochs of ten slots.  The genesis committee has the accounts 1 and 2; accounts 3,
    4 and 5 are selected for even epochs, nobody for odd ones. *)
Definition demo_duration : Z := 60000.
Definition demo_members : list (CommitteeMember Z Z) := [member 1 11; member 2 12].
Definition demo_select (_ : unit) (e : Z) : option (list (CommitteeMember Z Z)) :=
  if Z.even e then Some [member 3 13; Registered 4 14 [7]; member 5 15] else None.
Definition demo_committee : CommitteeState Z Z Z :=
  mkCommitteeState {[1; 2]} (mkCommitteeInfo 0 demo_members) None AwaitEpochChange no_scripts 0.
Definition demo_accounts : ToySys := λ a,
  if decide (a = 1) then mkAccountData 1 0 (Some 11)
  else if decide (a = 2) then mkAccountData 1 0 (Some 12)
  else mkAccountData 0 0 None.
Definition demo_sys : DemoSys := (demo_accounts, ([1; 2], [1; 2])).
Definition demo_genesis : RuntimeState DemoSys Z Z Z := runtime_genesis example_genesis demo_duration demo_committee demo_sys.
Definition demo_blocks : list (Z * unit) := [(10, tt); (11, tt); (20, tt); (21, tt); (22, tt)].
Definition demo_run : outcome (list (RuntimeState DemoSys Z Z Z)) :=
  author_blocks id id demo_select (λ _, []) (with_inputs demo_blocks) demo_genesis.
Definition demo_states : list (RuntimeState DemoSys Z Z Z) := match demo_run with Ret l => l | Panic => [] end.

Lemma demo_select_ok inputs e l : demo_select inputs e = Some l → Z.of_nat (length l) ≤ MaxValidators.
Proof. unfold demo_select. destruct (Z.even e); [|done]. by intros [= <-]. Qed.
Lemma demo_genesis_build :
  genesis_build MaxValidators id demo_members no_scripts (empty_sys, ([], [])) =
  Ret (demo_committee, (inc_providers 2 (inc_providers 1 empty_sys), ([], [])) : DemoSys).
Proof. reflexivity. Qed.
Lemma demo_session_genesis : session_genesis id demo_committee demo_sys.
Proof. by split. Qed.
Lemma demo_good_slots : good_slots demo_duration demo_blocks.*1.
Proof. by repeat split. Qed.
Lemma demo_run_states : demo_run = Ret demo_states.
Proof.
  assert (match demo_run with Ret _ => true | Panic => false end = true) as Hret by (vm_compute; reflexivity).
  unfold demo_states. by destruct demo_run.
Qed.
Lemma demo_length : length demo_states = 5%nat.
Proof. vm_compute. reflexivity. Qed.
Lemma demo_lookup i : (i < 5)%nat → ∃ s, demo_states !! i = Some s.
Proof. intros. apply lookup_lt_is_Some_2. by rewrite demo_length. Qed.

Lemma demo_built : built id id demo_select (λ _, []) demo_genesis demo_blocks demo_states.
Proof. exact (author_blocks_built id id demo_select (λ _, []) _ _ _ demo_run_states). Qed.

(** After the second block, slot 20 begins epoch 2 and nobody is stuck. *)
Lemma demo_chain_progress_witness :
  ∃ s, demo_states !! 1%nat = Some s ∧ epoch (CurrentCommittee (SessionCommitteeManagement s)) = 1 ∧
    ∃ s', author_block id id demo_select (λ _, []) 20 (Ok (Some tt)) s = Ret s'.
Proof.
  destruct (demo_chain_progress id id demo_select (λ _, []) demo_select_ok demo_duration eq_refl example_genesis
    demo_members no_scripts (empty_sys, ([], [])) demo_committee _ demo_sys demo_blocks demo_states
    demo_genesis_build demo_session_genesis demo_good_slots demo_built) as (_ & _ & Hs).
  destruct (demo_lookup 1 ltac:(lia)) as [s Hi]. exists s. split; [exact Hi|]. destruct (Hs _ _ Hi) as (Hslot & _ & Hepoch & _ & nx & _ & _ & _ & Hpanic). injection Hslot as Hslot.
  rewrite Hepoch, <-Hslot. split; [reflexivity|]. rewrite <-Hslot in Hpanic. specialize (Hpanic 20 tt ltac:(by repeat split)).
  destruct (author_block _ _ _ _ 20 _ s) as [s'|]; [by exists s'|]. exfalso.
  destruct (proj1 Hpanic eq_refl) as (_ & a & _ & _ & Hc).
  assert (∀ a, (λ s, other_consumers a (Session s)) <$> demo_states !! 1%nat = Some (other_consumers a demo_sys)) as Hsys.
  { intros b. vm_compute. reflexivity. }
  specialize (Hsys a). rewrite Hi in Hsys. apply (inj Some) in Hsys.
  rewrite Hsys in Hc. revert Hc. simpl. unfold toy_consumers, demo_accounts. repeat case_decide; simpl; lia.
Defined.

(** Member 2 of the genesis committee authors the block of slot 21; the log records
    member 4 of the next one. *)
Lemma block_author_attribution_witness :
  ∃ s, demo_states !! 2%nat = Some s ∧ in_office (Session s) = [1; 2] ∧
  ∀ s', author_block id id demo_select (λ _, []) 21 (Ok (Some tt)) s = Ret s' →
    Log s' = Log s ++ [(21, Incentivized 4 [7])].
Proof.
  destruct (demo_lookup 2 ltac:(lia)) as [s Hs].
  destruct (block_author_attribution id id demo_select (λ _, []) demo_select_ok demo_duration eq_refl example_genesis
    demo_members no_scripts (empty_sys, ([], [])) demo_committee _ demo_sys demo_blocks demo_states
    demo_genesis_build demo_session_genesis demo_good_slots demo_built) as [Hlog Hoffice].
  destruct Hoffice as [_ Hoffice].
  { assert (forallb (λ s : RuntimeState DemoSys Z Z Z, bool_decide (committee (CurrentCommittee (SessionCommitteeManagement s)) ≠ [] ∧
      queued (Session s) = account_of (K:=Z) id <$> committee (CurrentCommittee (SessionCommitteeManagement s))))
      (demo_genesis :: demo_states) = true) as Hall by (vm_compute; reflexivity).
    intros s' Hs'. rewrite forallb_forall in Hall. apply list_elem_of_In, Hall in Hs'. by apply bool_decide_eq_true in Hs'. }
  assert (officers demo_duration demo_states 2 = demo_members) as Hofficers by (vm_compute; reflexivity).
  assert (CurrentSlot <$> demo_states !! 2%nat = Some 20) as Hslot by (vm_compute; reflexivity).
  assert ((λ s, committee (CurrentCommittee (SessionCommitteeManagement s))) <$> demo_states !! 2%nat = demo_select tt 2)
    as Hcommittee by (vm_compute; reflexivity).
  rewrite Hs in Hslot, Hcommittee. injection Hslot as Hslot. injection Hcommittee as Hcommittee.
  assert (in_office (Session s) = [1; 2]) as Ho by (rewrite (Hoffice 2%nat s Hs), Hofficers; reflexivity).
  exists s. split; [exact Hs|]. split; [exact Ho|]. intros s' Hs'.
  destruct (Hlog s 21 (Ok (Some tt)) s') as [_ Hl]; [|exact Hs'|].
  - right. split; [by eapply list_elem_of_lookup_2|]. rewrite Hslot. by repeat split.
  - rewrite Hl, Ho, Hcommittee. reflexivity.
Defined.

(** A member without keys shifts the seats: with the keys of account 1 gone, the block
    of slot 20 is authored by account 2, which alone is in office, and the log records
    account 1. *)
Lemma unkeyed_member_shifts_seats :
  let keyless : DemoSys := ((λ a, if decide (a = 1) then mkAccountData 1 0 None else demo_accounts a), ([2], [2])) in
  session_genesis (K:=Z) id demo_committee keyless ∧
  match author_block id id demo_select (λ _, []) 20 (Ok (Some tt))
          (runtime_genesis example_genesis demo_duration demo_committee keyless) with
  | Ret s => Log s = [(20, ProBono 1)]
  | Panic => False
  end.
Proof. split; [by split|]. vm_compute. reflexivity. Qed.

(** ** Witnesses: queries *)

#[local] Existing Instance text_client_errors.

Lemma epoch_committee_query_witness :
  get_epoch_committee (ApiError:=bytes) (BlockchainError:=bytes) (K:=Z) (λ a, [a])
    (node_client (A:=Z) (K:=Z) (demo_genesis :: demo_states)) 2
  = Some (Ret (Ok (mkCommitteeResponse 2 (mkResponseMember <$> [str "0x03"; str "0x04"; str "0x05"])))).
Proof.
  destruct (demo_lookup 2 ltac:(lia)) as [s Hs].
  assert (∃ f, head demo_states = Some f) as [f Hf] by (rewrite head_lookup; apply demo_lookup; lia).
  assert (∃ l, list.last demo_states = Some l) as [l Hl] by (rewrite last_lookup, demo_length; apply demo_lookup; simpl; lia).
  destruct (epoch_committee_query id id demo_select (λ _, []) demo_select_ok demo_duration eq_refl
    (ApiError:=bytes) (BlockchainError:=bytes) (λ a, [a])
    example_genesis demo_members no_scripts (empty_sys, ([], [])) demo_committee _ demo_sys demo_blocks demo_states 2
    demo_genesis_build demo_session_genesis demo_good_slots demo_built
    ltac:(rewrite demo_length; done) f l Hf Hl) as (r & Hr & Hanswer).
  etransitivity; [exact Hr|].
  assert (CurrentSlot <$> demo_states !! 2%nat = Some 20) as Hslot by (vm_compute; reflexivity).
  assert ((λ s, committee (CurrentCommittee (SessionCommitteeManagement s))) <$> demo_states !! 2%nat = demo_select tt 2)
    as Hcommittee by (vm_compute; reflexivity).
  rewrite Hs in Hslot, Hcommittee. injection Hslot as Hslot. injection Hcommittee as Hcommittee.
  rewrite (answer_block _ _ _ _ _ _ _ _ Hanswer s ltac:(done) (list_elem_of_lookup_2 _ _ _ Hs) ltac:(rewrite Hslot; reflexivity)).
  rewrite Hcommittee. reflexivity.
Defined.

(** An epoch without blocks: the chain goes from epoch 1 to epoch 3, its first block in
    epoch 3 installs the committee planned for epoch 2, and this is what the query
    answers for epoch 3. *)
Lemma skipped_epoch_query :
  match author_blocks id id demo_select (λ _, []) (with_inputs [(10, tt); (30, tt); (31, tt)]) demo_genesis with
  | Ret states =>
      (λ s, epoch (CurrentCommittee (SessionCommitteeManagement s))) <$> states = [1; 2; 3] ∧
      get_epoch_committee (ApiError:=bytes) (BlockchainError:=bytes) (K:=Z) (λ a, [a])
        (node_client (A:=Z) (K:=Z) (demo_genesis :: states)) 3
      = Some (Ret (Ok (mkCommitteeResponse 2 (mkResponseMember <$> [str "0x03"; str "0x04"; str "0x05"]))))
  | Panic => False
  end.
Proof. vm_compute. by split. Qed.

Lemma registration_status_exact_witness :
  ∃ e rest, get_registrations (ApiError:=bytes) (BlockchainError:=bytes) (K:=Z) id (λ _ : unit, [])
      (node_client (A:=Z) (K:=Z) [demo_genesis]) example_source 5 [4] = Ok (e :: rest) ∧
    is_valid e = true ∧ entry_utxo e = mkUtxoInfo example_spent 1 10 0 0 ∧ Forall (λ e, is_valid e = false) rest ∧ rest ≠ [].
Proof.
  destruct (registration_status_exact (A:=Z) (K:=Z) (ApiError:=bytes) (BlockchainError:=bytes) id (λ _ : unit, []) example_source
    [demo_genesis] demo_genesis 5 [example_operator] example_operator) as (entries & Hquery & Hstatus).
  - reflexivity.
  - reflexivity.
  - apply NoDup_singleton.
  - apply Forall_singleton, Forall_singleton. by split.
  - by left.
  - apply NoDup_cons. split; [|apply NoDup_singleton]. intros Hin%list_elem_of_singleton. discriminate Hin.
  - destruct (select_latest_valid_candidate (A:=Z) (K:=Z) example_operator example_genesis) as [c|] eqn:Hsel;
      [|vm_compute in Hsel; discriminate Hsel].
    destruct (status_some _ _ _ _ Hstatus c Hsel) as (r & rest & Hr & -> & Hv & _ & _ & _ & Hrest & Hnewer).
    exists (entry_of id example_genesis example_operator r), rest.
    apply elem_of_cons in Hr as [->|Hr%list_elem_of_singleton]; [|subst r; vm_compute in Hv; discriminate Hv].
    split; [exact Hquery|]. split; [exact Hv|]. split; [reflexivity|]. split.
    + eapply Forall_impl; [exact Hrest|]. by intros ? [? _].
    + intros ->. apply (elem_of_nil (entry_of id example_genesis example_operator (example_registration 11 []))).
      apply Hnewer; [right; by left|reflexivity].
Defined.

(** ** Witness: transfers of 5 tokens to the reserve and 6 invalid ones *)

Definition record_deposit (a x : Z) (b : list (Z * Z)) : list (Z * Z) := b ++ [(a, x)].

Lemma demo_transfer_totals_witness :
  ∃ s : BridgeState (TestHelperState Z unit * list (Z * Z)),
    TotalInvalidTransfers (bridge_handler s).1 = 0 ∧ TotalReserveTransfers (bridge_handler s).1 = 5 ∧
    (bridge_handler s).2 = [(1, 5)].
Proof.
  pose (s := mkBridge (Some example_scripts) (Some (CheckpointUtxo (mkUtxoId [11] 1)))
    (mkTestHelper (Data:=unit) None 30 0 5 (∅ : gmap Z Z), [(1, 5)])).
  destruct (demo_transfer_totals record_deposit 1 2 example_recipient Bridge.in_order example_pool TxInEnabled example_block_no
    example_tx_info example_scripts [] 30 s 10 (CheckpointBlock 10) (ResolvedBlock 10) 20)
    as (c & rc & Hc & Hrc & _ & Hinvalid & Hreserve & _ & Hdeposits).
  - intros. reflexivity.
  - exact example_bridge_pool_wf.
  - lia.
  - reflexivity.
  - simpl. lia.
  - eapply (bridge_run_block _ _ _ _ _ _ _ _ _ _ 10 [20] 20); [constructor|reflexivity|lia|vm_compute; reflexivity|].
    vm_compute. reflexivity.
  - injection Hc as <-. vm_compute in Hrc. injection Hrc as <-. exists s. split; [exact Hinvalid|].
    split; [etransitivity; [exact Hreserve|vm_compute; reflexivity]|etransitivity; [exact Hdeposits|vm_compute; reflexivity]].
Defined.
